(* ===== verification/_CoqProject ===== *)
-Q . S2P
Prelude.v
GoLib.v
Api.v
State.v
Fsutil.v
Fs.v
Filecopy.v
BuildSnapshot.v
RuntimeSpec.v
Wire.v
WireSession.v
RefStore.v
Oci.v
OciStore.v
Metadata.v
Base.v
BaseStore.v
BaseHistory.v
BasePush.v
Storage.v
Journal.v
Network.v
Dns.v
DnsServe.v
Firecracker.v
FcControl.v
Tls.v
Unpack.v
GuestInit.v
Agent.v
CliSession.v
CliLogs.v
Cli.v
CliBuild.v
PackSsh.v
Pack.v
Sessions.v
AgentExec.v
EndToEnd.v
Copies.v
Results.v
DaemonSem.v
Daemon.v
DaemonLogic.v
DaemonProof.v
DaemonSafety.v
DaemonSeq.v
DaemonRecover.v
DaemonSpec.v
DaemonLife.v
BaseEnv.v
Workflow.v
Protocol.v
CliFlags.v
Entry.v
