(* ===== verification/Prelude.v ===== *)
(** * Verification of niflhel

    niflhel runs OCI containers in Firecracker microVMs.  A command-line client
    talks to a root daemon (niflheld); the daemon keeps a database of sandboxes and
    volumes, pulls images and signed guest bases, builds disks, allocates networks,
    launches one VMM per sandbox through the jailer, and monitors the agent inside
    each guest.  The agent boots the guest, unpacks the image, runs the container and
    streams its output back through the daemon to the client.  This library models
    the daemon, the guest, the client, the packaging programs and the packages they
    are built from as executable Rocq functions, and proves what makes them correct.

    ** How the code is modelled

    - A Go function that returns [(T, error)] is a function into [result T]; an
      [error] keeps its sentinel and its message format ([Prelude]).  [int] and
      [int64] are integers with their wrap-around written out ([int64], [uint64]).
      Strings are byte strings; the parts of [strings], [strconv] and [path] that
      the code uses are in [GoLib].
    - Code outside the repository (SQLite, the registry client, Ed25519, nftables,
      the kernel) is a parameter: a record of answers indexed by time, or a function
      argument with named hypotheses.  Every answer may be a failure.
    - The daemon's handlers are programs over atomic operations ([DaemonSem.Prog]
      over [DaemonSem.Op]): database transactions, lock operations, backend and
      network calls.  [exec] gives the effect of one operation on the world
      ([World]: database, locks, possibly live VMMs, trace of calls).  A pool runs any
      number of handlers interleaved operation by operation.

    ** Files

    - [Prelude]: errors and results, machine integers, tactics, shared lemmas.
    - [GoLib]: strings, numbers and paths of Go's standard library, with lemmas.
    - [Api] (src/internal/api/types.go): [Spec], [Sandbox], [Validate], [ParsePort],
      [ParseMount], [Size], [MergeEnv], [Resolve].  [Validate_correct] states
      validation against a declarative predicate; round trips for ports, mounts and
      sizes; [MergeEnv_correct], [Resolve_correct].
    - [State] (src/internal/state/store.go): the store as finite maps; [Get],
      [Create], [Update], [Transition], volumes.  Lookup, uniqueness and lifecycle
      theorems; [Get_name_shadows_id] shows that a name can hide an identifier.
    - [Fsutil] (src/internal/fsutil/files.go): bounded reads, JSON complexity limits,
      path confinement ([Within]).
    - [Fs] (src/internal/fsutil/files.go): files as a map, a [Kernel] that says which
      call fails and where the process dies, the monad of code that makes such calls
      and its program logic [triple]; [Atomic_correct] is crash safety of replacement.
    - [Filecopy] (src/internal/filecopy/copy.go): archives and their extraction below a
      directory; confinement for every archive, and exactness of a copy.
    - [BuildSnapshot] (src/internal/cli/build_snapshot.go): the private copies a build
      gets, without the signing key; removal of the build directory.
    - [RuntimeSpec] (src/internal/runtime/spec.go): user lookup and the configuration
      of the container, with the meaning of its system call filter.
    - [Wire], [WireSession] (src/internal/wire/wire.go): framed streams, remote calls,
      the relay under interleaving; both sides of opening a session.
    - [Oci], [OciStore], [Metadata] (src/internal/oci): image data and layer admission
      limits, the image cache over [Fs], bounded registry metadata.
    - [Base], [BaseStore], [BaseHistory], [BasePush] (src/internal/base/base.go):
      validation, signing and verification of bases, the cache of bases, every history of
      its operations ([base_store_trusted]), publishing and pulling back what was published
      ([push_pull]).  [RefStore] holds the listing and
      removal loops the two caches share.
    - [Storage] (src/internal/storage/storage.go): disk creation and sizes.
    - [Journal] (src/internal/journal): the bounded application log, its rotated
      files (whole lines and the torn ones a failed write leaves), readers with a cursor,
      and the console sink.
    - [Network] (src/internal/network/network.go): addresses of a slot, command plans,
      host checks, firewall scripts; [HostRules_policy] gives the meaning of the
      filter chains on packets.
    - [Dns] (src/internal/network/dns.go): token buckets over rationals with a rounding
      parameter, and the two semaphores under interleaving ([dns_bounded]).
    - [DnsServe] (src/internal/network/dns.go): forwarding of messages with shared
      buffers: an answer never carries bytes of another sandbox.
    - [Firecracker], [FcControl] (src/internal/firecracker/vm.go): process identity over
      timed reads of /proc, [Discover], [Kill], the VM configuration and the launch; the
      vsock handshake, [Ready] and [Remove].
    - [Tls] (src/internal/firecracker/tls.go): the certificates of a VM and who accepts
      whom.
    - [Unpack], [GuestInit] (src/internal/guest/unpack.go, init.go): unpacking of
      verified layers and the boot of the guest over [Fs]; writes survive the end of the
      guest, synced or not.
    - [Agent], [Sessions], [AgentExec] (src/internal/guest/agent.go, copy.go, and the
      streams of src/internal/daemon/handler.go, results.go): the supervisor in the
      guest, attach and exec sessions.  A command's output is a sequence of writes and of
      copies by the agent; at the end of the command a pipe is drained and a terminal is
      closed, with the loss of what was not copied.
    - [CliSession], [CliLogs], [Cli], [CliBuild] (src/internal/cli): sessions, logs, the
      commands over the values of their flags, builds.
    - [PackSsh], [Pack] (src/cmd/niflhel-pack-ssh, src/cmd/niflhel-pack): packaging of a
      base, and on a remote worker.
    - [EndToEnd], [Copies]: compositions.  A command's output and exit code from the
      agent over two connections and the relay to the client; a copy from the client's
      archive over frames and a pipe to the extraction in the guest.
    - [Results] (src/internal/daemon/results.go): the bounded directory of exit results.
    - [DaemonSem]: the configuration, the world, operations and programs of the daemon.
    - [Daemon] (src/internal/daemon/daemon.go, handler.go, validate.go, budget.go): the
      handlers, from [Create] to [Call].
    - [DaemonLogic]: the invariant [Inv] of the store, what one thread may do while
      others run ([G], [Stable]), the program logic [ok], its soundness for pools
      ([pool_safe]) and deadlock freedom ([pool_progress]).
    - [DaemonProof]: every handler satisfies the logic.
    - [DaemonSafety]: the service as a pool of handlers and monitors, and a sample
      service for the witnesses.
    - [DaemonSeq]: what a handler does when it runs alone: outcome of a start, exact
      memory admission, order of a removal, no lost exit results, [Wait], the monitor,
      which gives up a guest it cannot reach ([monitor_gives_up]).
      [Stop_while_creating] shows a stop that leaves the lifecycle table.
    - [DaemonRecover]: [Recover] after a crash.
    - [DaemonSpec]: the abstract specification of the service (sandboxes with their
      allocations, generation and reservation, volumes; six guarded rules), the
      abstraction function [abs], the simulation of every operation, and
      [service_refines]: over any number of process lifetimes, with crashes in the
      middle of a request or of [Recover], the service implements the specification.
    - [DaemonLife]: the invariants over process lifetimes: isolation of running
      sandboxes, no forgotten VMM, unique allocations, well-formed records, progress.
      [entry] and [life_step] take the requests the service gets as a parameter; these
      theorems and [service_refines] are about requests that are [named_apart], where
      none names a new sandbox with 32 hexadecimal digits.  The code accepts such a
      name, and [named_apart_needed] gives a run with one that ends with a live VMM
      and no record of it.
    - [BaseEnv]: an environment whose bases come from the store of [BaseStore] meets
      the assumption [EnvOK] of the theorems about the service.
    - [Workflow]: the commands run and create of the client served by the daemon, from
      the flags to the running VM ([run_end_to_end]).
    - [Protocol] (src/internal/cli/root.go, images.go, [New]; src/internal/guest/agent.go,
      [Agent.Call]): the command tree of the client and the guest's dispatcher;
      [processes_agree] shows that client, daemon and guest agree on requests, sessions
      and answers; that the daemon serves an action means that [Call] can answer it with
      success.
    - [CliFlags] (src/internal/cli): the flags every command declares, the variables they
      set, and that no command declares a name or a shorthand twice.
    - [Entry] (src/cmd/niflheld/main.go, src/cmd/niflhel-agent/main.go): several daemons
      started for one socket, the socket's permissions, the agent's main function.

    ** Bounds and fuel

    Loops that follow their data are structural.  The slot search gets one round more
    than there are used slots, [chunks] one per byte, [read_all] one per frame; the
    theorems state that this is enough.  A write that may be short takes one round per
    byte ([write_loop]), [recv_loop] and [ReadString] one per byte or read and one more,
    [logs] one call per frame and two, [attach_output] one round per frame retained
    after the exit; [stream_roundtrip], [session_opens] and [attach_complete] give
    enough fuel and conclude that the result is there.  The resolution of links stops
    after 40 links as in the source.  Loops that wait for the outside world ([Wait], the
    monitor, the poll of [Kill], the agent's stop and start waits, [Ready]) take the
    number of timer firings or polls before their context ends, so that they end is
    part of the model and no result.  What they do before that is: [Kill_outcome] gives
    the outcome of every poll, and [monitor_gives_up] the exact number of firings after
    which a guest that cannot be reached is finished.  Slots run from 1 to 16000 and guest memory
    stays below 1028 GiB, so the admission sum of the daemon does not overflow
    ([admission_exact]).

    ** What is not modelled

    Splitting a command line into flags and arguments (the cobra and flag packages): a
    command gets the flags that were given, with values of the declared types.
    The HTTP library: a request is its decoded value and an answer a status with a body,
    except for the head of a session's upgrade, which is read byte by byte.  Raw mode and
    size of terminals and pseudo-terminals, which are external calls.  Permission bits,
    except those of the daemon's socket and of the build directory.  The duration of
    timers: a timer may fire at any time.  Writes of the guest that were not synced when
    its VM was killed are not lost.  Hard links in the directory a copy is extracted to.  While [Recover] runs, the monitors it has
    started wait until requests are served; they work on sandboxes it is done
    with.  The encodings JSON, tar, X.509 and the functions SHA-256 and Ed25519 are
    parameters with the properties the code relies on; JSON of the daemon's own files is
    the identity on the values stored. *)

From Stdlib Require Export Ascii.
From stdpp Require Export base gmap list strings sorting fin_maps.
From Stdlib Require Export ZArith Lia.

(** ** Errors and fallible results

    A Go function that returns [(T, error)] is modelled by a [result T].  An
    [error] keeps the sentinel it wraps (the code tests some errors with
    [errors.Is]) and the format string of its message; the formatted arguments
    of a message are not kept. *)

Inductive error : Type :=
| ErrNotFound
| ErrConflict
| ErrNoRows
| Errorf (msg : string)
| Wrap (msg : string) (e : error).

Inductive result (A : Type) : Type :=
| Ok (a : A)
| Err (e : error).
Arguments Ok {A} a.
Arguments Err {A} e.

#[export] Instance error_eq_dec : EqDecision error.
Proof. solve_decision. Defined.
#[export] Instance result_eq_dec `{EqDecision A} : EqDecision (result A).
Proof. solve_decision. Defined.

(** [e.Error()]: the text of an error. *)
Fixpoint error_text (e : error) : string :=
  match e with
  | ErrNotFound => "not found"
  | ErrConflict => "conflict"
  | ErrNoRows => "sql: no rows in result set"
  | Errorf m => m
  | Wrap m e => m +:+ ": " +:+ error_text e
  end.

Definition is_ok {A} (r : result A) : bool :=
  match r with Ok _ => true | Err _ => false end.

Definition result_bind {A B} (r : result A) (k : A -> result B) : result B :=
  match r with Ok a => k a | Err e => Err e end.

Declare Scope go_scope.
Delimit Scope go_scope with go.
Notation "'let*' x ':=' r 'in' k" := (result_bind r (fun x => k))
  (at level 10, x pattern, r at level 100, k at level 200,
   format "'let*'  x  ':='  r  'in' '//' k") : go_scope.
Notation "'guard' b 'else' e 'in' k" := (if (b : bool) then k else Err e)
  (at level 10, b at level 100, e at level 100, k at level 200,
   format "'guard'  b  'else'  e  'in' '//' k") : go_scope.

(** A loop [for _, x := range l { if e := f(x); e != nil { return e } }]. *)
Fixpoint all_ok {A} (f : A -> result unit) (l : list A) : result unit :=
  match l with
  | [] => Ok tt
  | x :: l => match f x with Ok _ => all_ok f l | Err e => Err e end
  end.

(** A loop that threads an accumulator and stops at the first error. *)
Fixpoint fold_ok {A S} (f : S -> A -> result S) (s : S) (l : list A) : result S :=
  match l with
  | [] => Ok s
  | x :: l => match f s x with Ok s' => fold_ok f s' l | Err e => Err e end
  end.

(** ** External actions

    A function that runs programs or makes requests returns the list of these
    actions, in order, with its result.  [perform a r k] performs [a], which
    answers [r], and goes on with [k] if that was no error; [need] and [require]
    are checks that leave no trace. *)
Section Actions.
Context {act : Type}.
Definition perform {A} (a : act) (r : result A) (k : A -> list act * result unit) : list act * result unit :=
  match r with
  | Err e => ([a], Err e)
  | Ok x => let '(l, r) := k x in (a :: l, r)
  end.
Definition need {A} (r : result A) (k : A -> list act * result unit) : list act * result unit :=
  match r with Err e => ([], Err e) | Ok x => k x end.
Definition require (b : bool) (msg : string) (k : list act * result unit) : list act * result unit :=
  if b then k else ([], Err (Errorf msg)).
End Actions.

(** ** Machine integers

    Go's [int] and [int64] are 64-bit two's complement on the supported
    platform (linux/amd64): arithmetic wraps around. *)

Definition two63 : Z := 9223372036854775808.
Definition two64 : Z := 18446744073709551616.
Definition max_int64 : Z := 9223372036854775807.

Definition int64 (z : Z) : Z := ((z + two63) `mod` two64 - two63)%Z.
Definition uint64 (z : Z) : Z := (z `mod` two64)%Z.
Definition in_int64 (z : Z) : Prop := (- two63 <= z <= max_int64)%Z.

(** ** Tactics *)

(** Split every boolean conjunction and disjunction of the context and turn
    [bool_decide] and comparisons on [Z] into propositions. *)
Ltac bool_prop :=
  repeat match goal with
  | H : (_ && _)%bool = true |- _ => apply andb_prop in H as [? ?]
  | H : (_ || _)%bool = false |- _ => apply orb_false_elim in H as [? ?]
  | H : negb _ = true |- _ => apply negb_true_iff in H
  | H : negb _ = false |- _ => apply negb_false_iff in H
  | H : bool_decide _ = true |- _ => apply bool_decide_eq_true in H
  | H : bool_decide _ = false |- _ => apply bool_decide_eq_false in H
  | H : (_ <? _)%Z = true |- _ => apply Z.ltb_lt in H
  | H : (_ <? _)%Z = false |- _ => apply Z.ltb_ge in H
  | H : (_ <=? _)%Z = true |- _ => apply Z.leb_le in H
  | H : (_ <=? _)%Z = false |- _ => apply Z.leb_gt in H
  | H : (_ =? _)%Z = true |- _ => apply Z.eqb_eq in H
  | H : (_ =? _)%Z = false |- _ => apply Z.eqb_neq in H
  end.

(** Case split on the scrutinee of the outermost [if] or [match] that a
    hypothesis or the goal is stuck on. *)
Ltac split_match :=
  match goal with
  | H : context [match ?x with _ => _ end] |- _ => destruct x eqn:?
  | |- context [match ?x with _ => _ end] => destruct x eqn:?
  end.

(** Walk through a fallible computation that is known to return [Ok]. *)
Ltac ok_inv :=
  repeat (match goal with
  | H : Ok _ = Ok _ |- _ => injection H as H
  | H : Err _ = Ok _ |- _ => discriminate H
  | H : Ok _ = Err _ |- _ => discriminate H
  | H : result_bind ?r _ = Ok _ |- _ =>
      let E := fresh "E" in
      destruct r eqn:E; cbn [result_bind] in H; [|discriminate H]
  | H : (if ?b then _ else Err _) = Ok _ |- _ =>
      let E := fresh "E" in destruct b eqn:E; [|discriminate H]
  | H : (if ?b then Err _ else _) = Ok _ |- _ =>
      let E := fresh "E" in destruct b eqn:E; [discriminate H|]
  end; subst).

(** ** Generic lemmas *)

Lemma int64_id (z : Z) : in_int64 z -> int64 z = z.
Proof.
  unfold in_int64, int64, two63, two64, max_int64. intros H.
  rewrite Z.mod_small; lia.
Qed.

Lemma int64_range (z : Z) : in_int64 (int64 z).
Proof.
  unfold in_int64, int64.
  pose proof (Z.mod_pos_bound (z + two63) two64 eq_refl).
  unfold two63, two64, max_int64 in *. lia.
Qed.

Lemma uint64_id (z : Z) : (0 <= z < two64)%Z -> uint64 z = z.
Proof. intros. unfold uint64. by apply Z.mod_small. Qed.

Lemma all_ok_spec {A} (f : A -> result unit) (l : list A) :
  all_ok f l = Ok tt <-> Forall (fun x => f x = Ok tt) l.
Proof.
  induction l as [|x l IH]; simpl; [by split|].
  rewrite Forall_cons. destruct (f x) as [[]|e]; [rewrite IH; tauto|].
  split; [discriminate|]. by intros [? _].
Qed.

Lemma result_bind_ok {A B} (r : result A) (k : A -> result B) (b : B) :
  result_bind r k = Ok b <-> exists a, r = Ok a /\ k a = Ok b.
Proof.
  destruct r as [a|e]; simpl; split.
  - by exists a.
  - by intros (a' & [= ->] & ?).
  - done.
  - by intros (? & [=] & _).
Qed.

Create HintDb go.
Create Rewrite HintDb go.
#[export] Hint Rewrite @result_bind_ok @all_ok_spec : go.
#[export] Hint Resolve int64_range : go.
