(* ===== verification/GoLib.v ===== *)
(** * GoLib: the parts of Go's standard library the program relies on

    Go strings are byte sequences; they are modelled by [string], whose
    characters are 8-bit [ascii] codes.  The file models the functions of
    packages [strings], [strconv] and [path] that the sources call, each
    executable, with the lemmas the components share: decimal round trips,
    splitting and joining, and the shape of cleaned paths. *)

From stdpp Require Import pretty.
From S2P Require Import Prelude.

(** ** Package strings *)

Module Strings.

(** [s[n:]] *)
Fixpoint drop_str (n : nat) (s : string) : string :=
  match n, s with
  | 0, _ => s
  | S n, String _ s => drop_str n s
  | S _, EmptyString => EmptyString
  end.

(** [s[:n]] *)
Fixpoint take_str (n : nat) (s : string) : string :=
  match n, s with
  | 0, _ => EmptyString
  | S n, String c s => String c (take_str n s)
  | S _, EmptyString => EmptyString
  end.

Definition HasPrefix (s p : string) : bool := String.prefix p s.
Definition TrimPrefix (s p : string) : string :=
  if HasPrefix s p then drop_str (String.length p) s else s.

Definition HasSuffix (s q : string) : bool :=
  (String.length q <=? String.length s)%nat &&
  bool_decide (drop_str (String.length s - String.length q) s = q).
Definition TrimSuffix (s q : string) : string :=
  if HasSuffix s q then take_str (String.length s - String.length q) s else s.

(** [strings.ContainsRune(s, c)] and [strings.Contains(s, string(c))] for an
    ASCII [c]. *)
Fixpoint ContainsRune (s : string) (c : ascii) : bool :=
  match s with
  | EmptyString => false
  | String d s => bool_decide (d = c) || ContainsRune s c
  end.

(** [strings.Contains(s, sub)] *)
Fixpoint Contains (s sub : string) : bool :=
  HasPrefix s sub ||
  match s with EmptyString => false | String _ s' => Contains s' sub end.

(** [strings.Cut(s, string(c))] *)
Fixpoint Cut (s : string) (c : ascii) : string * string * bool :=
  match s with
  | EmptyString => (EmptyString, EmptyString, false)
  | String d s' =>
      if bool_decide (d = c) then (EmptyString, s', true)
      else let '(a, b, ok) := Cut s' c in (String d a, b, ok)
  end.

(** [strings.Split(s, string(c))]: never empty. *)
Fixpoint Split (s : string) (c : ascii) : list string :=
  match s with
  | EmptyString => [EmptyString]
  | String d s' =>
      if bool_decide (d = c) then EmptyString :: Split s' c
      else match Split s' c with
           | [] => [String d EmptyString]
           | x :: xs => String d x :: xs
           end
  end.

(** [strings.SplitN(s, string(c), n)] for [n > 0]. *)
Fixpoint SplitN (s : string) (c : ascii) (n : nat) : list string :=
  match n with
  | 0 => []
  | 1 => [s]
  | S n =>
      let '(a, b, ok) := Cut s c in
      if ok then a :: SplitN b c n else [s]
  end.

(** [strings.Join(l, string(c))] *)
Fixpoint Join (l : list string) (c : ascii) : string :=
  match l with
  | [] => EmptyString
  | [x] => x
  | x :: l => x +:+ String c (Join l c)
  end.

(** [strings.Fields] on ASCII white space. *)
Definition Fields (s : string) : list string := String.words s.

Definition is_ascii (s : string) : bool :=
  forallb (fun c => (N_of_ascii c <? 128)%N) (String.list_ascii_of_string s).

Definition lower_ascii (c : ascii) : ascii :=
  let n := N_of_ascii c in
  if ((65 <=? n) && (n <=? 90))%N then ascii_of_N (n + 32) else c.
Fixpoint map_str (f : ascii -> ascii) (s : string) : string :=
  match s with EmptyString => EmptyString | String c s => String (f c) (map_str f s) end.
Definition upper_ascii (c : ascii) : ascii :=
  let n := N_of_ascii c in
  if ((97 <=? n) && (n <=? 122))%N then ascii_of_N (n - 32) else c.

(** [strings.ToLower], [strings.ToUpper] and [strings.TrimSpace] on ASCII
    input, which is their fast path. *)
Definition ToLower (s : string) : string := map_str lower_ascii s.
Definition ToUpper (s : string) : string := map_str upper_ascii s.

Fixpoint trim_left (s : string) : string :=
  match s with
  | EmptyString => EmptyString
  | String c s' => if Ascii.is_space c then trim_left s' else s
  end.
Definition TrimSpace (s : string) : string :=
  String.rev (trim_left (String.rev (trim_left s))).

End Strings.

(** ** Package strconv *)

Module Strconv.

Definition digit (c : ascii) : option Z := Z.of_nat <$> Ascii.is_nat c.

Fixpoint digits (acc : Z) (s : string) : option Z :=
  match s with
  | EmptyString => Some acc
  | String c s => d ← digit c; digits (10 * acc + d) s
  end.

(** The unsigned decimal numeral [s]; [None] for an empty string or any other
    character. *)
Definition numeral (s : string) : option Z :=
  match s with EmptyString => None | _ => digits 0 s end.

Definition ErrSyntax : error := Errorf "invalid syntax".
Definition ErrRange : error := Errorf "value out of range".

(** [strconv.ParseInt(s, 10, 64)] and [strconv.Atoi] on a 64-bit platform. *)
Definition ParseInt (s : string) : result Z :=
  let '(neg, body) :=
    match s with
    | String "-" s' => (true, s')
    | String "+" s' => (false, s')
    | _ => (false, s)
    end in
  match numeral body with
  | None => Err ErrSyntax
  | Some n =>
      if neg then (if (n <=? two63)%Z then Ok (- n)%Z else Err ErrRange)
      else (if (n <=? max_int64)%Z then Ok n else Err ErrRange)
  end.
Definition Atoi : string -> result Z := ParseInt.

(** [strconv.ParseUint(s, 10, bits)] *)
Definition ParseUint (s : string) (bits : Z) : result Z :=
  match numeral s with
  | None => Err ErrSyntax
  | Some n => if (n <? 2 ^ bits)%Z then Ok n else Err ErrRange
  end.

(** [strconv.Itoa], [strconv.FormatInt(n, 10)] and the verb [%d]. *)
Definition Itoa (n : Z) : string := pretty n.

End Strconv.

(** ** Package path *)

Module Path.
Import Strings.

Definition slash : ascii := "/"%char.

Definition IsAbs (p : string) : bool := HasPrefix p "/".

(** One path element seen by [Clean]; the elements kept so far are on a
    stack, the last one on top. *)
Definition clean_step (rooted : bool) (stack : list string) (c : string) : list string :=
  if bool_decide (c = "" \/ c = ".") then stack
  else if bool_decide (c = "..") then
    match stack with
    | top :: rest => if bool_decide (top = "..") then ".." :: stack else rest
    | [] => if rooted then [] else [".."]
    end
  else c :: stack.

Definition clean_stack (p : string) : list string :=
  fold_left (clean_step (IsAbs p)) (Split p slash) [].

(** [path.Clean] (and [filepath.Clean] on Unix). *)
Definition Clean (p : string) : string :=
  let body := Join (rev (clean_stack p)) slash in
  if IsAbs p then "/" +:+ body
  else if bool_decide (body = "") then "." else body.

(** [path.Join] *)
Definition JoinPath (elems : list string) : string :=
  match filter (fun e => e <> "") elems with
  | [] => ""
  | l => Clean (Join l slash)
  end.

Fixpoint drop_trailing_slashes (s : string) : string :=
  match s with
  | EmptyString => EmptyString
  | String c s' =>
      match drop_trailing_slashes s' with
      | EmptyString => if bool_decide (c = slash) then EmptyString else String c EmptyString
      | r => String c r
      end
  end.

(** [path.Base] *)
Definition Base (p : string) : string :=
  if bool_decide (p = "") then "." else
  match drop_trailing_slashes p with
  | EmptyString => "/"
  | q => List.last (Split q slash) ""
  end.

(** [path.Dir]: everything before the last slash, cleaned. *)
Definition Dir (p : string) : string :=
  match rev (Split p slash) with
  | [] | [_] => "."
  | _ :: front => Clean (Join (rev front) slash +:+ "/")
  end.

End Path.

(** ** Lemmas on strings *)

Section StringFacts.
Import Strings.

Lemma app_nil_l_str (s : string) : "" +:+ s = s.
Proof. done. Qed.

Lemma app_cons_str (c : ascii) (s t : string) : String c s +:+ t = String c (s +:+ t).
Proof. done. Qed.

Lemma app_nil_r_str (s : string) : s +:+ "" = s.
Proof. induction s as [|c s IH]; [done|]. by rewrite app_cons_str, IH. Qed.

Lemma app_assoc_str (s t u : string) : (s +:+ t) +:+ u = s +:+ (t +:+ u).
Proof. induction s as [|c s IH]; [done|]. by rewrite !app_cons_str, IH. Qed.

(** The concatenation of a list of strings. *)
Definition concat_str (l : list string) : string := foldr String.append "" l.
Lemma concat_str_app (l l' : list string) : concat_str (l ++ l') = concat_str l +:+ concat_str l'.
Proof. induction l as [|x l IH]; [by rewrite app_nil_l_str|]. simpl. by rewrite IH, app_assoc_str. Qed.

Lemma length_app_str (s t : string) :
  String.length (s +:+ t) = String.length s + String.length t.
Proof. induction s as [|c s IH]; [done|]. rewrite app_cons_str. simpl. by rewrite IH. Qed.

Lemma drop_app_str (s t : string) : drop_str (String.length s) (s +:+ t) = t.
Proof. induction s as [|c s IH]; [done|]. rewrite app_cons_str. exact IH. Qed.

Lemma take_app_str (s t : string) : take_str (String.length s) (s +:+ t) = s.
Proof. induction s as [|c s IH]; [by destruct t|]. rewrite app_cons_str. simpl. by rewrite IH. Qed.

Lemma take_drop_str (n : nat) (s : string) : take_str n s +:+ drop_str n s = s.
Proof.
  revert s. induction n as [|n IH]; intros [|c s]; try done.
  simpl. by rewrite app_cons_str, IH.
Qed.

Lemma length_take_str (n : nat) (s : string) :
  String.length (take_str n s) = n `min` String.length s.
Proof. revert s. induction n as [|n IH]; intros [|c s]; simpl; auto. Qed.

Lemma length_drop_str (n : nat) (s : string) : String.length (drop_str n s) = (String.length s - n)%nat.
Proof. revert s. induction n as [|n IH]; intros [|c s]; simpl; auto. Qed.

Lemma take_str_app (n : nat) (s t : string) :
  take_str n (s +:+ t) = take_str n s +:+ take_str (n - String.length s) t.
Proof.
  revert s. induction n as [|n IH]; intros [|c s]; try done. rewrite app_cons_str. simpl. by rewrite IH.
Qed.

Lemma drop_str_app (n : nat) (s t : string) :
  drop_str n (s +:+ t) = drop_str n s +:+ drop_str (n - String.length s) t.
Proof.
  revert s. induction n as [|n IH]; intros [|c s]; try done. rewrite app_cons_str. simpl. by rewrite IH.
Qed.

Lemma take_str_add (n k : nat) (s : string) :
  take_str (n + k) s = take_str n s +:+ take_str k (drop_str n s).
Proof.
  revert s. induction n as [|n IH]; intros [|c s]; simpl;
    rewrite ?app_nil_l_str, ?app_cons_str, ?IH; try done; by destruct k.
Qed.

Lemma take_str_all (n : nat) (s : string) : (String.length s <= n)%nat -> take_str n s = s.
Proof. revert s. induction n as [|n IH]; intros [|c s]; simpl; try done; try lia. intros H. by rewrite IH by lia. Qed.

Lemma drop_str_all (n : nat) (s : string) : (String.length s <= n)%nat -> drop_str n s = "".
Proof. revert s. induction n as [|n IH]; intros [|c s]; simpl; try done; try lia. intros H. by rewrite IH by lia. Qed.

Lemma drop_str_add (n k : nat) (s : string) : drop_str (n + k) s = drop_str k (drop_str n s).
Proof. revert s. induction n as [|n IH]; intros [|c s]; simpl; try done. by destruct k. Qed.

Lemma HasPrefix_spec (s p : string) : HasPrefix s p = true <-> exists t, s = p +:+ t.
Proof.
  unfold HasPrefix. revert s. induction p as [|c p IH]; intros s.
  - split; [intros _; by exists s|intros _; by destruct s].
  - destruct s as [|d s]; simpl; [split; [done|by intros [t ?]]|].
    destruct (ascii_dec c d) as [E|E].
    + subst. rewrite IH. split; intros [t Ht]; exists t.
      * by rewrite app_cons_str, Ht.
      * rewrite app_cons_str in Ht. by injection Ht.
    + split; [done|]. intros [t Ht]. rewrite app_cons_str in Ht. by injection Ht.
Qed.

Lemma HasPrefix_app (p t : string) : HasPrefix (p +:+ t) p = true.
Proof. apply HasPrefix_spec. by exists t. Qed.

Lemma TrimPrefix_app (p t : string) : TrimPrefix (p +:+ t) p = t.
Proof. unfold TrimPrefix. by rewrite HasPrefix_app, drop_app_str. Qed.

Lemma HasSuffix_spec (s q : string) : HasSuffix s q = true <-> exists t, s = t +:+ q.
Proof.
  unfold HasSuffix. split.
  - intros H. apply andb_prop in H as [Hl H]. apply bool_decide_eq_true in H.
    exists (take_str (String.length s - String.length q) s).
    rewrite <-(take_drop_str (String.length s - String.length q) s) at 1. by rewrite H.
  - intros [t ->]. rewrite length_app_str. apply andb_true_intro. split.
    + apply Nat.leb_le. lia.
    + apply bool_decide_eq_true.
      replace (String.length t + String.length q - String.length q) with (String.length t) by lia.
      apply drop_app_str.
Qed.

Lemma TrimSuffix_app (t q : string) : TrimSuffix (t +:+ q) q = t.
Proof.
  unfold TrimSuffix. rewrite (proj2 (HasSuffix_spec _ _)) by (by exists t).
  rewrite length_app_str.
  replace (String.length t + String.length q - String.length q) with (String.length t) by lia.
  apply take_app_str.
Qed.

(** [Cut] splits at the first separator. *)
Lemma Cut_found (s a b : string) (c : ascii) :
  Cut s c = (a, b, true) <-> s = a +:+ String c b /\ ContainsRune a c = false.
Proof.
  revert a b. induction s as [|d s IH]; intros a b; simpl.
  - split; [done|]. intros [H _]. by destruct a.
  - case_bool_decide as E.
    + subst. split.
      * by intros [= <- <-].
      * intros [H Hc]. destruct a as [|x a].
        { rewrite app_nil_l_str in H. by injection H as ->. }
        rewrite app_cons_str in H. injection H as -> ->. simpl in Hc.
        by rewrite bool_decide_eq_true_2 in Hc.
    + destruct (Cut s c) as [[a' b'] ok] eqn:HC. split.
      * intros [= <- -> ->]. destruct (IH a' b) as [H1 _].
        destruct H1 as [-> Hc]; [done|]. split; [done|]. simpl.
        by rewrite bool_decide_eq_false_2, Hc.
      * intros [H Hc]. destruct a as [|x a].
        { rewrite app_nil_l_str in H. by injection H as ->. }
        rewrite app_cons_str in H. injection H as -> ->. simpl in Hc.
        apply orb_false_elim in Hc as [_ Hc].
        destruct (IH a b) as [_ H2]. by injection (H2 (conj eq_refl Hc)) as -> -> ->.
Qed.

Lemma Cut_app (a b : string) (c : ascii) :
  ContainsRune a c = false -> Cut (a +:+ String c b) c = (a, b, true).
Proof. intros H. by apply Cut_found. Qed.

Lemma Cut_not_found (s : string) (c : ascii) :
  ContainsRune s c = false -> Cut s c = (s, "", false).
Proof.
  induction s as [|d s IH]; simpl; [done|]. intros H.
  apply orb_false_elim in H as [H1 H2]. by rewrite H1, IH.
Qed.

Lemma Split_ne (s : string) (c : ascii) : Split s c <> [].
Proof. destruct s as [|d s]; simpl; [done|]. case_bool_decide; [done|]. by destruct (Split s c). Qed.

Lemma Join_cons (x : string) (l : list string) (c : ascii) :
  l <> [] -> Join (x :: l) c = x +:+ String c (Join l c).
Proof. by destruct l. Qed.

Lemma Join_Split (s : string) (c : ascii) : Join (Split s c) c = s.
Proof.
  induction s as [|d s IH]; [done|]. simpl. pose proof (Split_ne s c) as Hne.
  case_bool_decide as E.
  - subst. rewrite Join_cons by done. by rewrite IH.
  - destruct (Split s c) as [|x l]; [done|]. destruct l as [|y l].
    + simpl in *. by rewrite IH.
    + rewrite Join_cons in IH |- * by done. rewrite app_cons_str. by rewrite IH.
Qed.

Lemma Split_no_sep (s : string) (c : ascii) :
  Forall (fun x => ContainsRune x c = false) (Split s c).
Proof.
  induction s as [|d s IH]; simpl; [by repeat constructor|].
  case_bool_decide as E; [by constructor|].
  destruct (Split s c) as [|x l].
  - repeat constructor. simpl. by rewrite bool_decide_eq_false_2.
  - inversion IH; subst. constructor; [|done]. simpl. by rewrite bool_decide_eq_false_2.
Qed.

Lemma Split_atom (s : string) (c : ascii) : ContainsRune s c = false -> Split s c = [s].
Proof.
  induction s as [|d s IH]; simpl; [done|]. intros H.
  apply orb_false_elim in H as [H1 H2]. by rewrite H1, (IH H2).
Qed.

Lemma Split_app (x s : string) (c : ascii) :
  ContainsRune x c = false -> Split (x +:+ String c s) c = x :: Split s c.
Proof.
  induction x as [|d x IH]; intros H.
  - rewrite app_nil_l_str. simpl. by rewrite bool_decide_eq_true_2.
  - rewrite app_cons_str. simpl in H |- *. apply orb_false_elim in H as [H1 H2].
    by rewrite H1, (IH H2).
Qed.

Lemma Split_Join (l : list string) (c : ascii) :
  l <> [] -> Forall (fun x => ContainsRune x c = false) l -> Split (Join l c) c = l.
Proof.
  induction l as [|x l IH]; [done|]. intros _ Hl. apply Forall_cons in Hl as [Hx Hl].
  destruct l as [|y l]; [by apply Split_atom|].
  rewrite Join_cons by done. by rewrite Split_app, IH.
Qed.

Lemma ContainsRune_app (s t : string) (c : ascii) :
  ContainsRune (s +:+ t) c = ContainsRune s c || ContainsRune t c.
Proof.
  induction s as [|d s IH]; [done|]. rewrite app_cons_str. cbn [ContainsRune]. by rewrite IH, orb_assoc.
Qed.

Lemma ContainsRune_parts (n : nat) (s : string) (c : ascii) :
  ContainsRune s c = ContainsRune (take_str n s) c || ContainsRune (drop_str n s) c.
Proof. by rewrite <-ContainsRune_app, take_drop_str. Qed.

End StringFacts.

(** ** Lemmas on decimal numerals *)

Section DecimalFacts.
Import Strconv.

Lemma digit_pretty_N_char (n : N) : (n < 10)%N -> digit (pretty_N_char n) = Some (Z.of_N n).
Proof. intros H. do 10 (destruct n as [|n] using N.peano_ind; [done|clear IHn]). lia. Qed.

Lemma digits_pretty_N_go (x : N) (s : string) :
  digits 0 (pretty_N_go x s) = digits (Z.of_N x) s.
Proof.
  revert s. induction (N.lt_wf_0 x) as [x _ IH]; intros s.
  destruct (decide (x = 0)%N) as [->|Hx]; [done|].
  rewrite pretty_N_go_step by lia. rewrite IH by (apply N.div_lt; lia).
  simpl. rewrite digit_pretty_N_char by (apply N.mod_lt; lia). simpl.
  f_equal. pose proof (N.div_mod x 10). lia.
Qed.

Lemma numeral_pretty_N (x : N) : numeral (pretty x) = Some (Z.of_N x).
Proof.
  unfold pretty, pretty_N. case_decide as E; [by subst|].
  pose proof (digits_pretty_N_go x "") as H.
  destruct (pretty_N_go x "") as [|c s] eqn:Hs; [|by apply H].
  simpl in H. injection H as H. lia.
Qed.

(** Formatting and parsing a decimal number agree on every 64-bit value. *)
Lemma Atoi_Itoa (n : Z) : in_int64 n -> Atoi (Itoa n) = Ok n.
Proof.
  unfold in_int64, Atoi, Itoa, ParseInt. intros Hn.
  destruct n as [|p|p]; [done| |].
  - change (pretty (Z.pos p)) with (pretty (N.pos p)).
    pose proof (numeral_pretty_N (N.pos p)) as H.
    assert (forall s', pretty (N.pos p) <> String "-" s') as Hd.
    { intros s' Hs. rewrite Hs in H. done. }
    assert (forall s', pretty (N.pos p) <> String "+" s') as Hp.
    { intros s' Hs. rewrite Hs in H. done. }
    assert ((Z.of_N (N.pos p) <=? max_int64)%Z = true) as Hr.
    { apply Z.leb_le. simpl. lia. }
    destruct (pretty (N.pos p)) as [|c s]; [done|].
    destruct c as [[] [] [] [] [] [] [] []];
      try (rewrite H, Hr; done);
      solve [by destruct (Hd s)|by destruct (Hp s)].
  - change (pretty (Z.neg p)) with (String "-" (pretty (N.pos p))).
    cbv beta iota zeta. rewrite numeral_pretty_N. cbn [Z.of_N].
    destruct (Z.leb_spec (Z.pos p) two63); [done|unfold two63 in *; lia].
Qed.

Lemma Itoa_inj (m n : Z) : Itoa m = Itoa n -> m = n.
Proof. apply pretty_Z_inj. Qed.

Lemma digits_no_rune (s : string) (acc v : Z) (c : ascii) :
  digits acc s = Some v -> digit c = None -> Strings.ContainsRune s c = false.
Proof.
  revert acc. induction s as [|d s IH]; intros acc H Hc; [done|]. cbn [digits] in H.
  apply bind_Some in H as (x & Hd & H). cbn [Strings.ContainsRune]. rewrite (IH _ H Hc).
  rewrite orb_false_r. apply bool_decide_eq_false_2. intros ->. congruence.
Qed.

Lemma numeral_no_rune (s : string) (v : Z) (c : ascii) :
  numeral s = Some v -> digit c = None -> Strings.ContainsRune s c = false.
Proof. destruct s; [done|]. apply digits_no_rune. Qed.

(** A printed number holds only digits and perhaps a minus sign. *)
Lemma Itoa_no_rune (n : Z) (c : ascii) :
  digit c = None -> c <> "-"%char -> Strings.ContainsRune (Itoa n) c = false.
Proof.
  unfold Itoa. intros Hc Hm. destruct n as [|p|p].
  - change (pretty 0%Z) with "0". cbn. rewrite orb_false_r. apply bool_decide_eq_false_2. by intros <-.
  - change (pretty (Z.pos p)) with (pretty (N.pos p)). by eapply numeral_no_rune; [apply numeral_pretty_N|].
  - change (pretty (Z.neg p)) with ("-" +:+ pretty (N.pos p)). rewrite ContainsRune_app.
    rewrite (numeral_no_rune _ _ c (numeral_pretty_N _) Hc). rewrite orb_false_r. cbn.
    rewrite orb_false_r. apply bool_decide_eq_false_2. congruence.
Qed.

End DecimalFacts.

(** ** The shape of a cleaned path *)

Section PathFacts.
Import Strings Path.

(** An element that names an entry: not empty, not [.], not [..], no slash. *)
Definition plain_elem (c : string) : Prop :=
  c <> "" /\ c <> "." /\ c <> ".." /\ ContainsRune c slash = false.

Definition clean_shape (rooted : bool) (stack : list string) : Prop :=
  exists names k, stack = names ++ replicate k ".." /\ Forall plain_elem names /\
    (rooted = true -> k = 0).

Lemma clean_step_shape (rooted : bool) (stack : list string) (c : string) :
  ContainsRune c slash = false ->
  clean_shape rooted stack -> clean_shape rooted (clean_step rooted stack c).
Proof.
  intros Hc (names & k & -> & Hn & Hk). unfold clean_step.
  case_bool_decide as E1; [by exists names, k|].
  case_bool_decide as E2.
  - subst. destruct names as [|x names]; simpl.
    + destruct k as [|k]; simpl.
      * destruct rooted; [by exists [], 0|]. by exists [], 1.
      * exists [], (S (S k)). split_and!; [done..|]. intros H. by specialize (Hk H).
    + apply Forall_cons in Hn as [Hx Hn]. destruct Hx as (_ & _ & Hx & _).
      rewrite bool_decide_eq_false_2 by done. by exists names, k.
  - exists (c :: names), k. split_and!; [done| |done]. constructor; [|done].
    repeat split; [tauto..|done].
Qed.

Lemma clean_stack_shape (p : string) : clean_shape (IsAbs p) (clean_stack p).
Proof.
  unfold clean_stack. pose proof (Split_no_sep p slash) as Hs. revert Hs.
  assert (clean_shape (IsAbs p) []) as Hi by (by exists [], 0).
  revert Hi. generalize (@nil string) as st. generalize (IsAbs p) as r.
  intros r. induction (Split p slash) as [|c l IH]; intros st Hi Hs; [done|].
  apply Forall_cons in Hs as [Hc Hl]. simpl. apply IH; [|done]. by apply clean_step_shape.
Qed.

(** The elements of a cleaned path, first to last. *)
Definition clean_elems (p : string) : list string := rev (clean_stack p).

Lemma rev_replicate {A} (k : nat) (x : A) : rev (replicate k x) = replicate k x.
Proof. induction k as [|k IH]; [done|]. simpl. by rewrite IH, <-replicate_cons_app. Qed.

Lemma clean_elems_shape (p : string) :
  exists k names, clean_elems p = replicate k ".." ++ names /\ Forall plain_elem names /\
    (IsAbs p = true -> k = 0).
Proof.
  destruct (clean_stack_shape p) as (names & k & H & Hn & Hk).
  exists k, (rev names). unfold clean_elems. rewrite H, rev_app_distr.
  split_and!; [|by apply Forall_rev|done].
  f_equal. apply rev_replicate.
Qed.

Lemma clean_elems_no_slash (p : string) :
  Forall (fun c => ContainsRune c slash = false) (clean_elems p).
Proof.
  destruct (clean_elems_shape p) as (k & names & -> & Hn & _).
  apply Forall_app. split.
  - apply Forall_replicate. done.
  - eapply Forall_impl; [done|]. by intros c (_ & _ & _ & ?).
Qed.

Lemma Join_nil (l : list string) (c : ascii) :
  Forall (fun x => x <> "") l -> Join l c = "" -> l = [].
Proof.
  destruct l as [|x [|y l]]; [done|..]; intros Hl; apply Forall_cons in Hl as [Hx Hl].
  - done.
  - rewrite Join_cons by done. by destruct x.
Qed.

Lemma clean_elems_ne (p : string) : Forall (fun x => x <> "") (clean_elems p).
Proof.
  destruct (clean_elems_shape p) as (k & names & -> & Hn & _). apply Forall_app. split.
  - by apply Forall_replicate.
  - eapply Forall_impl; [done|]. by intros c (? & _).
Qed.

(** What [Clean] returns, by cases. *)
Lemma Clean_cases (p : string) :
  (IsAbs p = true /\ Clean p = "/" +:+ Join (clean_elems p) slash) \/
  (IsAbs p = false /\ clean_elems p = [] /\ Clean p = ".") \/
  (IsAbs p = false /\ clean_elems p <> [] /\ Clean p = Join (clean_elems p) slash).
Proof.
  unfold Clean. fold (clean_elems p). destruct (IsAbs p); [by left|right].
  case_bool_decide as E.
  - left. split_and!; [done| |done]. apply (Join_nil _ slash); [|done]. apply clean_elems_ne.
  - right. split_and!; [done| |done]. intros H. by rewrite H in E.
Qed.

(** A relative path whose cleaned form is neither [..] nor below [../] names
    only plain elements: it cannot climb out of the directory it is resolved
    in. *)
Lemma Clean_confined (p : string) :
  IsAbs p = false -> Clean p <> ".." -> HasPrefix (Clean p) "../" = false ->
  Forall plain_elem (clean_elems p).
Proof.
  intros Ha Hd Hp. destruct (clean_elems_shape p) as (k & names & H & Hn & _).
  destruct k as [|k]; [by rewrite H|]. exfalso.
  destruct (Clean_cases p) as [[? _]|[(_ & Hnil & _)|(_ & _ & HC)]]; [congruence|by rewrite Hnil in H|].
  rewrite H in HC. simpl in HC. destruct (replicate k ".." ++ names) as [|y l].
  - by rewrite HC in Hd.
  - rewrite HC in Hp.
    replace (".." +:+ String slash (Join (y :: l) slash)) with ("../" +:+ Join (y :: l) slash) in Hp by done.
    by rewrite HasPrefix_app in Hp.
Qed.

Lemma fold_clean_plain (rooted : bool) (names st : list string) :
  Forall plain_elem names -> fold_left (clean_step rooted) names st = rev names ++ st.
Proof.
  revert st. induction names as [|c names IH]; intros st H; [done|].
  apply Forall_cons in H as [(H1 & H2 & H3 & _) H]. simpl.
  rewrite IH by done. unfold clean_step.
  rewrite bool_decide_eq_false_2 by tauto. rewrite bool_decide_eq_false_2 by done.
  by rewrite <-app_assoc.
Qed.

Lemma fold_clean_dots (k : nat) (st : list string) :
  (exists j, st = replicate j "..") ->
  fold_left (clean_step false) (replicate k "..") st = replicate k ".." ++ st.
Proof.
  revert st. induction k as [|k IH]; intros st [j ->]; [done|]. simpl.
  replace (clean_step false (replicate j "..") "..") with (replicate (S j) "..").
  - rewrite IH by (by exists (S j)). rewrite <-replicate_add, Nat.add_succ_r.
    simpl. by rewrite replicate_add.
  - unfold clean_step. simpl. by destruct j.
Qed.

Lemma IsAbs_atom (x s : string) :
  x <> "" -> ContainsRune x slash = false -> IsAbs (x +:+ s) = false.
Proof.
  destruct x as [|c x]; [done|]. intros _ H. rewrite app_cons_str. simpl in H.
  apply orb_false_elim in H as [H _]. apply bool_decide_eq_false in H.
  unfold IsAbs, HasPrefix. cbn [String.prefix].
  destruct (ascii_dec "/" c) as [E|E]; [by subst|done].
Qed.

Lemma IsAbs_root (s : string) : IsAbs ("/" +:+ s) = true.
Proof. apply HasPrefix_app. Qed.

(** [Clean] is idempotent. *)
Lemma Clean_idemp (p : string) : Clean (Clean p) = Clean p.
Proof.
  destruct (clean_elems_shape p) as (k & names & H & Hn & Hk).
  pose proof (clean_elems_no_slash p) as Hns.
  destruct (Clean_cases p) as [[Ha HC]|[(Ha & Hnil & HC)|(Ha & Hne & HC)]]; rewrite HC; [|done|].
  - assert (clean_stack ("/" +:+ Join (clean_elems p) slash) = rev (clean_elems p)) as Hst.
    { unfold clean_stack. rewrite Hk in H by done. simpl in H.
      rewrite IsAbs_root.
      destruct (clean_elems p) as [|x l] eqn:Hl; [done|].
      replace (Split _ slash) with ("" :: x :: l).
      - change (fold_left (clean_step true) (x :: l) [] = rev (x :: l)).
        rewrite fold_clean_plain; [by rewrite app_nil_r|]. by rewrite H.
      - change ("/" +:+ Join (x :: l) slash) with ("" +:+ String slash (Join (x :: l) slash)).
        rewrite Split_app by done. by rewrite Split_Join. }
    unfold Clean at 1. by rewrite Hst, rev_involutive, IsAbs_root.
  - assert (IsAbs (Join (clean_elems p) slash) = false) as Ha'.
    { pose proof (clean_elems_ne p) as Hx. destruct (clean_elems p) as [|x l]; [done|].
      apply Forall_cons in Hx as [Hx _]. apply Forall_cons in Hns as [Hs _].
      destruct l as [|y l]; [|by apply IsAbs_atom].
      rewrite <-(app_nil_r_str x). by apply IsAbs_atom. }
    assert (clean_stack (Join (clean_elems p) slash) = rev (clean_elems p)) as Hst.
    { unfold clean_stack. rewrite Ha', Split_Join by done. rewrite H, fold_left_app.
      rewrite fold_clean_dots by (by exists 0). rewrite app_nil_r, fold_clean_plain by done.
      rewrite rev_app_distr. f_equal. by rewrite rev_replicate. }
    unfold Clean at 1. rewrite Hst, rev_involutive, Ha'.
    rewrite bool_decide_eq_false_2; [done|]. intros E.
    apply Hne. by apply (Join_nil _ slash), E; apply clean_elems_ne.
Qed.

End PathFacts.
