(* ===== verification/Api.v ===== *)
(** * Api: the control contract (internal/api/types.go)

    The records exchanged between the CLI, the host service and the guest, the
    parsers of command-line values, the validation of a sandbox specification
    and the resolution of the process to run.  Times are nanoseconds in [Z];
    [int] and [int64] fields are [Z]. *)

From stdpp Require Import pretty.
From S2P Require Import Prelude GoLib.
Import Strings Strconv Path.
Local Open Scope Z_scope.
Local Open Scope go_scope.

(** ** Data *)

Definition Protocol : Z := 1.
Definition MiB : Z := 1048576.
Definition GiB : Z := 1073741824.

Record Port : Type := mkPort {
  p_HostIP : string;
  p_HostPort : Z;
  p_ContainerPort : Z
}.

Record Mount : Type := mkMount {
  m_Name : string;
  m_Target : string;
  m_ReadOnly : bool
}.

Record Spec : Type := mkSpec {
  s_Image : string;
  s_Base : string;
  s_Name : string;
  s_Command : list string;
  s_Entrypoint : option string;
  s_Env : list string;
  s_User : string;
  s_Workdir : string;
  s_CPUs : Z;
  s_Memory : Z;
  s_DiskSize : Z;
  s_PidsLimit : Z;
  s_Network : string;
  s_Ports : list Port;
  s_Mounts : list Mount;
  s_Runtime : string;
  s_Platform : string;
  s_Pull : string;
  s_ReadOnly : bool;
  s_Interactive : bool;
  s_TTY : bool;
  s_AutoRemove : bool
}.

Record Process : Type := mkProcess {
  pr_Args : list string;
  pr_Env : list string;
  pr_User : string;
  pr_Cwd : string;
  pr_StopSignal : string;
  pr_TTY : bool;
  pr_Interactive : bool
}.

Record ImageConfig : Type := mkImageConfig {
  ic_Entrypoint : list string;
  ic_Cmd : list string;
  ic_Env : list string;
  ic_User : string;
  ic_WorkingDir : string;
  ic_StopSignal : string;
  ic_Volumes : list string;
  ic_Healthcheck : bool
}.

Record Exit : Type := mkExit {
  x_Code : option Z;
  x_Reason : string;
  x_OOM : bool;
  x_At : Z
}.

Record Sandbox : Type := mkSandbox {
  sb_ID : string;
  sb_Name : string;
  sb_Spec : Spec;
  sb_Process : Process;
  sb_ImageDigest : string;
  sb_BaseDigest : string;
  sb_State : string;
  sb_Reason : string;
  sb_Warnings : list string;
  sb_Generation : Z;
  sb_Created : Z;
  sb_Updated : Z;
  sb_Exit : option Exit;
  sb_PID : Z;
  sb_PIDStart : string;
  sb_GuestMemory : Z;
  sb_Slot : Z;
  sb_VMResourcesReleased : bool
}.

Record Volume : Type := mkVolume {
  vol_Name : string;
  vol_Size : Z;
  vol_Created : Z
}.

Record GuestStatus : Type := mkGuestStatus {
  gs_Protocol : Z;
  gs_ID : string;
  gs_Generation : Z;
  gs_State : string;
  gs_Exit : option Exit;
  gs_PID : Z
}.

Record Frame : Type := mkFrame {
  fr_Type : string;
  fr_Data : string;
  fr_Message : string;
  fr_Code : option Z;
  fr_Width : Z;
  fr_Height : Z;
  fr_Sequence : Z;
  fr_Time : Z
}.

Record Exec : Type := mkExec {
  ex_ID : string;
  ex_Args : list string;
  ex_Env : list string;
  ex_User : string;
  ex_Cwd : string;
  ex_TTY : bool;
  ex_Interactive : bool
}.

Record Request : Type := mkRequest {
  q_Action : string;
  q_ID : string;
  q_Operation : string;
  q_Spec : option Spec;
  q_Exec : option Exec;
  q_Volume : option Volume;
  q_Ref : string;
  q_Policy : string;
  q_Force : bool;
  q_Signal : string;
  q_Timeout : Z;
  q_Path : string;
  q_Data : string
}.

#[export] Instance Port_eq_dec : EqDecision Port.
Proof. solve_decision. Defined.
#[export] Instance Mount_eq_dec : EqDecision Mount.
Proof. solve_decision. Defined.
#[export] Instance Spec_eq_dec : EqDecision Spec.
Proof. solve_decision. Defined.
#[export] Instance Process_eq_dec : EqDecision Process.
Proof. solve_decision. Defined.
#[export] Instance Exit_eq_dec : EqDecision Exit.
Proof. solve_decision. Defined.
#[export] Instance Sandbox_eq_dec : EqDecision Sandbox.
Proof. solve_decision. Defined.
#[export] Instance Volume_eq_dec : EqDecision Volume.
Proof. solve_decision. Defined.
#[export] Instance Frame_eq_dec : EqDecision Frame.
Proof. solve_decision. Defined.
#[export] Instance Exec_eq_dec : EqDecision Exec.
Proof. solve_decision. Defined.
#[export] Instance Request_eq_dec : EqDecision Request.
Proof. solve_decision. Defined.

(** Assignments to one field of a sandbox record. *)

Definition set_Process (v : Process) (s : Sandbox) : Sandbox :=
  mkSandbox (sb_ID s) (sb_Name s) (sb_Spec s) v (sb_ImageDigest s) (sb_BaseDigest s) (sb_State s)
    (sb_Reason s) (sb_Warnings s) (sb_Generation s) (sb_Created s) (sb_Updated s) (sb_Exit s)
    (sb_PID s) (sb_PIDStart s) (sb_GuestMemory s) (sb_Slot s) (sb_VMResourcesReleased s).
Definition set_ImageDigest (v : string) (s : Sandbox) : Sandbox :=
  mkSandbox (sb_ID s) (sb_Name s) (sb_Spec s) (sb_Process s) v (sb_BaseDigest s) (sb_State s) (sb_Reason
    s) (sb_Warnings s) (sb_Generation s) (sb_Created s) (sb_Updated s) (sb_Exit s) (sb_PID s)
    (sb_PIDStart s) (sb_GuestMemory s) (sb_Slot s) (sb_VMResourcesReleased s).
Definition set_BaseDigest (v : string) (s : Sandbox) : Sandbox :=
  mkSandbox (sb_ID s) (sb_Name s) (sb_Spec s) (sb_Process s) (sb_ImageDigest s) v (sb_State s)
    (sb_Reason s) (sb_Warnings s) (sb_Generation s) (sb_Created s) (sb_Updated s) (sb_Exit s)
    (sb_PID s) (sb_PIDStart s) (sb_GuestMemory s) (sb_Slot s) (sb_VMResourcesReleased s).
Definition set_State (v : string) (s : Sandbox) : Sandbox :=
  mkSandbox (sb_ID s) (sb_Name s) (sb_Spec s) (sb_Process s) (sb_ImageDigest s) (sb_BaseDigest s) v
    (sb_Reason s) (sb_Warnings s) (sb_Generation s) (sb_Created s) (sb_Updated s) (sb_Exit s)
    (sb_PID s) (sb_PIDStart s) (sb_GuestMemory s) (sb_Slot s) (sb_VMResourcesReleased s).
Definition set_Reason (v : string) (s : Sandbox) : Sandbox :=
  mkSandbox (sb_ID s) (sb_Name s) (sb_Spec s) (sb_Process s) (sb_ImageDigest s) (sb_BaseDigest s)
    (sb_State s) v (sb_Warnings s) (sb_Generation s) (sb_Created s) (sb_Updated s) (sb_Exit s)
    (sb_PID s) (sb_PIDStart s) (sb_GuestMemory s) (sb_Slot s) (sb_VMResourcesReleased s).
Definition set_Warnings (v : list string) (s : Sandbox) : Sandbox :=
  mkSandbox (sb_ID s) (sb_Name s) (sb_Spec s) (sb_Process s) (sb_ImageDigest s) (sb_BaseDigest s)
    (sb_State s) (sb_Reason s) v (sb_Generation s) (sb_Created s) (sb_Updated s) (sb_Exit s)
    (sb_PID s) (sb_PIDStart s) (sb_GuestMemory s) (sb_Slot s) (sb_VMResourcesReleased s).
Definition set_Generation (v : Z) (s : Sandbox) : Sandbox :=
  mkSandbox (sb_ID s) (sb_Name s) (sb_Spec s) (sb_Process s) (sb_ImageDigest s) (sb_BaseDigest s)
    (sb_State s) (sb_Reason s) (sb_Warnings s) v (sb_Created s) (sb_Updated s) (sb_Exit s)
    (sb_PID s) (sb_PIDStart s) (sb_GuestMemory s) (sb_Slot s) (sb_VMResourcesReleased s).
Definition set_Updated (v : Z) (s : Sandbox) : Sandbox :=
  mkSandbox (sb_ID s) (sb_Name s) (sb_Spec s) (sb_Process s) (sb_ImageDigest s) (sb_BaseDigest s)
    (sb_State s) (sb_Reason s) (sb_Warnings s) (sb_Generation s) (sb_Created s) v (sb_Exit s)
    (sb_PID s) (sb_PIDStart s) (sb_GuestMemory s) (sb_Slot s) (sb_VMResourcesReleased s).
Definition set_Exit (v : option Exit) (s : Sandbox) : Sandbox :=
  mkSandbox (sb_ID s) (sb_Name s) (sb_Spec s) (sb_Process s) (sb_ImageDigest s) (sb_BaseDigest s)
    (sb_State s) (sb_Reason s) (sb_Warnings s) (sb_Generation s) (sb_Created s) (sb_Updated s) v
    (sb_PID s) (sb_PIDStart s) (sb_GuestMemory s) (sb_Slot s) (sb_VMResourcesReleased s).
Definition set_PID (v : Z) (s : Sandbox) : Sandbox :=
  mkSandbox (sb_ID s) (sb_Name s) (sb_Spec s) (sb_Process s) (sb_ImageDigest s) (sb_BaseDigest s)
    (sb_State s) (sb_Reason s) (sb_Warnings s) (sb_Generation s) (sb_Created s) (sb_Updated s)
    (sb_Exit s) v (sb_PIDStart s) (sb_GuestMemory s) (sb_Slot s) (sb_VMResourcesReleased s).
Definition set_PIDStart (v : string) (s : Sandbox) : Sandbox :=
  mkSandbox (sb_ID s) (sb_Name s) (sb_Spec s) (sb_Process s) (sb_ImageDigest s) (sb_BaseDigest s)
    (sb_State s) (sb_Reason s) (sb_Warnings s) (sb_Generation s) (sb_Created s) (sb_Updated s)
    (sb_Exit s) (sb_PID s) v (sb_GuestMemory s) (sb_Slot s) (sb_VMResourcesReleased s).
Definition set_GuestMemory (v : Z) (s : Sandbox) : Sandbox :=
  mkSandbox (sb_ID s) (sb_Name s) (sb_Spec s) (sb_Process s) (sb_ImageDigest s) (sb_BaseDigest s)
    (sb_State s) (sb_Reason s) (sb_Warnings s) (sb_Generation s) (sb_Created s) (sb_Updated s)
    (sb_Exit s) (sb_PID s) (sb_PIDStart s) v (sb_Slot s) (sb_VMResourcesReleased s).
Definition set_VMResourcesReleased (v : bool) (s : Sandbox) : Sandbox :=
  mkSandbox (sb_ID s) (sb_Name s) (sb_Spec s) (sb_Process s) (sb_ImageDigest s) (sb_BaseDigest s)
    (sb_State s) (sb_Reason s) (sb_Warnings s) (sb_Generation s) (sb_Created s) (sb_Updated s)
    (sb_Exit s) (sb_PID s) (sb_PIDStart s) (sb_GuestMemory s) (sb_Slot s) v.

(** Assignments to the two fields of a specification the host service fills in. *)
Definition set_Base (v : string) (s : Spec) : Spec :=
  mkSpec (s_Image s) v (s_Name s) (s_Command s) (s_Entrypoint s) (s_Env s) (s_User s) (s_Workdir s)
    (s_CPUs s) (s_Memory s) (s_DiskSize s) (s_PidsLimit s) (s_Network s) (s_Ports s) (s_Mounts s)
    (s_Runtime s) (s_Platform s) (s_Pull s) (s_ReadOnly s) (s_Interactive s) (s_TTY s)
    (s_AutoRemove s).
Definition set_Name (v : string) (s : Spec) : Spec :=
  mkSpec (s_Image s) (s_Base s) v (s_Command s) (s_Entrypoint s) (s_Env s) (s_User s) (s_Workdir s)
    (s_CPUs s) (s_Memory s) (s_DiskSize s) (s_PidsLimit s) (s_Network s) (s_Ports s) (s_Mounts s)
    (s_Runtime s) (s_Platform s) (s_Pull s) (s_ReadOnly s) (s_Interactive s) (s_TTY s)
    (s_AutoRemove s).

Definition empty_process : Process := mkProcess [] [] "" "" "" false false.

(** [DefaultSpec] *)
Definition DefaultSpec : Spec :=
  mkSpec "" "" "" [] None [] "" "" 1 (512 * MiB) (4 * GiB) 256 "bridge" [] []
    "runc" "linux/amd64" "missing" false false false false.

(** ** Names and sizes *)

Definition alnum (c : ascii) : bool :=
  let n := N_of_ascii c in
  ((48 <=? n) && (n <=? 57) || (65 <=? n) && (n <=? 90) || (97 <=? n) && (n <=? 122))%N.
Definition name_char (c : ascii) : bool :=
  alnum c || bool_decide (c = "_"%char) || bool_decide (c = "."%char) || bool_decide (c = "-"%char).

(** The regular expression [^[a-zA-Z0-9][a-zA-Z0-9_.-]{0,62}$]. *)
Definition ValidName (s : string) : bool :=
  match s with
  | EmptyString => false
  | String c s' =>
      alnum c && forallb name_char (String.list_ascii_of_string s') &&
      (String.length s' <=? 62)%nat
  end.

(** [ID]: 16 random bytes in lower-case hexadecimal. *)
Definition hex_digit (n : N) : ascii :=
  if (n <? 10)%N then ascii_of_N (48 + n) else ascii_of_N (87 + n).
Fixpoint hex_encode (bytes : list N) : string :=
  match bytes with
  | [] => EmptyString
  | b :: bs => String (hex_digit (b `div` 16)) (String (hex_digit (b `mod` 16)) (hex_encode bs))
  end%N.
Definition is_hex (c : ascii) : bool :=
  let n := N_of_ascii c in ((48 <=? n) && (n <=? 57) || (97 <=? n) && (n <=? 102))%N.
(** The shape of a sandbox identifier: 32 lower-case hexadecimal digits. *)
Definition is_id (s : string) : bool :=
  (String.length s =? 32)%nat && forallb is_hex (String.list_ascii_of_string s).
(** [ID()] on the 16 random bytes it read (bytes taken modulo 256). *)
Definition ID (random : nat -> N) : string :=
  hex_encode ((fun i => (random i `mod` 256)%N) <$> seq 0 16).

Definition size_units : list (string * Z) :=
  [("gib", GiB); ("mib", MiB); ("kib", 1024); ("gb", GiB); ("mb", MiB); ("kb", 1024);
   ("g", GiB); ("m", MiB); ("k", 1024); ("b", 1)].

(** The loop over the suffixes: the first one that matches is removed. *)
Fixpoint size_suffix (s : string) (units : list (string * Z)) : string * Z :=
  match units with
  | [] => (s, 1)
  | (u, n) :: units => if HasSuffix s u then (TrimSuffix s u, n) else size_suffix s units
  end.

Section Size.
(** What [strings.ToLower(strings.TrimSpace(s))] returns on a string with
    bytes outside ASCII (Unicode case folding and spaces). *)
Variable unicode_fold : string -> string.

Definition size_normal (s : string) : string :=
  if is_ascii s then ToLower (TrimSpace s) else unicode_fold s.

Definition Size (s : string) : result Z :=
  let '(s, multiplier) := size_suffix (size_normal s) size_units in
  match ParseInt s with
  | Err _ => Err (Errorf "invalid positive size %q")
  | Ok n =>
      if (n <=? 0) || (max_int64 / multiplier <? n)
      then Err (Errorf "invalid positive size %q")
      else Ok (int64 (n * multiplier))
  end.
End Size.

(** ** Validation of a specification *)

Definition nul : ascii := "000"%char.

(** One entry of [Env]. *)
Definition validate_env (e : string) : result unit :=
  let '(k, _, ok) := Cut e "=" in
  if negb ok || bool_decide (k = "") || ContainsRune e nul
  then Err (Errorf "invalid environment entry") else Ok tt.

(** One published port; the state is the map [seen]. *)
Definition validate_port (seen : gset string) (p : Port) : result (gset string) :=
  if negb (bool_decide (p_HostIP p = "127.0.0.1")) && negb (bool_decide (p_HostIP p = "0.0.0.0"))
  then Err (Errorf "host IP must be 127.0.0.1 or 0.0.0.0")
  else if (p_HostPort p <? 1) || (65535 <? p_HostPort p) ||
          (p_ContainerPort p <? 1) || (65535 <? p_ContainerPort p)
  then Err (Errorf "port out of range")
  else
    let k := Itoa (p_HostPort p) in
    if bool_decide (k ∈ seen) then Err (Errorf "duplicate host port")
    else Ok ({[k]} ∪ seen).

Definition reserved_targets : list string := ["/proc"; "/sys"; "/dev"; "/run/niflhel"].

Definition reserved_target (t : string) : bool :=
  existsb (fun r => bool_decide (t = r) || HasPrefix t (r +:+ "/")) reserved_targets.

(** One named volume; the state is the second map [seen]. *)
Definition validate_mount (seen : gset string) (m : Mount) : result (gset string) :=
  if negb (ValidName (m_Name m)) || negb (IsAbs (m_Target m)) ||
     negb (bool_decide (Clean (m_Target m) = m_Target m)) || bool_decide (m_Target m = "/")
  then Err (Errorf "invalid named volume mount")
  else if reserved_target (m_Target m)
  then Err (Errorf "reserved mount target %s")
  else if bool_decide (m_Target m ∈ seen) || bool_decide ("name:" +:+ m_Name m ∈ seen)
  then Err (Errorf "duplicate volume or destination")
  else Ok ({["name:" +:+ m_Name m]} ∪ ({[m_Target m]} ∪ seen)).

(** [Spec.Validate] *)
Definition Validate (s : Spec) : result unit :=
  guard negb (bool_decide (s_Image s = "")) else Errorf "image is required" in
  guard bool_decide (s_Name s = "") || ValidName (s_Name s) else Errorf "invalid name %q" in
  guard bool_decide (s_Runtime s = "runc")
    else Errorf "UnsupportedFeature: runtime %q; phase one supports runc" in
  guard bool_decide (s_Platform s = "linux/amd64") else Errorf "UnsupportedFeature: platform %q" in
  guard negb ((s_CPUs s <? 1) || (32 <? s_CPUs s))
    else Errorf "cpus must be a whole number between 1 and 32" in
  guard negb ((s_Memory s <? 64 * MiB) || (1024 * GiB <? s_Memory s))
    else Errorf "memory must be between 64 MiB and 1 TiB" in
  guard negb ((s_DiskSize s <? 64 * MiB) || (1024 * GiB <? s_DiskSize s))
    else Errorf "disk size must be between 64 MiB and 1 TiB" in
  guard negb ((s_PidsLimit s <? 1) || (1048576 <? s_PidsLimit s))
    else Errorf "invalid pids limit" in
  guard bool_decide (s_Network s = "bridge") || bool_decide (s_Network s = "none")
    else Errorf "UnsupportedFeature: network %q" in
  guard negb (bool_decide (s_Network s = "none") && (0 <? Z.of_nat (length (s_Ports s))))
    else Errorf "cannot publish ports with network none" in
  guard bool_decide (s_Pull s = "always") || bool_decide (s_Pull s = "missing") ||
        bool_decide (s_Pull s = "never")
    else Errorf "pull must be always, missing, or never" in
  guard bool_decide (s_Workdir s = "") || IsAbs (s_Workdir s)
    else Errorf "workdir must be absolute" in
  let* _ := all_ok validate_env (s_Env s) in
  let* _ := fold_ok validate_port ∅ (s_Ports s) in
  guard negb (8 <? Z.of_nat (length (s_Mounts s)))
    else Errorf "at most eight named volumes are supported" in
  let* _ := fold_ok validate_mount ∅ (s_Mounts s) in
  Ok tt.

(** ** Command-line values *)

(** [ParsePort] *)
Definition ParsePort (s : string) : result Port :=
  let s := TrimSuffix s "/tcp" in
  let p := Split s ":" in
  let p := match p with [_; _] => "127.0.0.1" :: p | _ => p end in
  match p with
  | [ip; hp; cp] =>
      let* hp := Atoi hp in
      let* cp := Atoi cp in
      Ok (mkPort ip hp cp)
  | _ => Err (Errorf "expected [HOST_IP:]HOST_PORT:CONTAINER_PORT[/tcp]")
  end.

(** One [key=value] item of the long form of a mount; the state is [(typ, m)]. *)
Definition mount_option (st : string * Mount) (v : string) : result (string * Mount) :=
  let '(typ, m) := st in
  let '(k, x, _) := Cut v "=" in
  if bool_decide (k = "type") then Ok (x, m)
  else if bool_decide (k = "src") || bool_decide (k = "source")
  then Ok (typ, mkMount x (m_Target m) (m_ReadOnly m))
  else if bool_decide (k = "dst") || bool_decide (k = "target")
  then Ok (typ, mkMount (m_Name m) x (m_ReadOnly m))
  else if bool_decide (k = "readonly") then
    if negb (bool_decide (x = "")) && negb (bool_decide (x = "true"))
    then Err (Errorf "invalid readonly value")
    else Ok (typ, mkMount (m_Name m) (m_Target m) true)
  else Err (Errorf "unsupported mount option %q").

(** [ParseMount] *)
Definition ParseMount (s : string) : result Mount :=
  let* m :=
    if negb (ContainsRune s "=") then
      match Split s ":" with
      | [n; t] => Ok (mkMount n t false)
      | [n; t; o] =>
          if bool_decide (o = "ro") then Ok (mkMount n t true)
          else Err (Errorf "only ro mount option supported")
      | _ => Err (Errorf "expected NAME:/PATH[:ro]")
      end
    else
      let* st := fold_ok mount_option ("", mkMount "" "" false) (Split s ",") in
      let '(typ, m) := st in
      if bool_decide (typ = "volume") then Ok m
      else Err (Errorf "UnsupportedFeature: only named volumes; use cp for host files") in
  if ValidName (m_Name m) then Ok m
  else Err (Errorf "host bind mounts unsupported; use a named volume or cp").

(** ** Environment and process *)

Definition env_key (entry : string) : string := (Cut entry "=").1.1.

(** One iteration of [MergeEnv]: [out] and the map [index] from a key to its
    position in [out]. *)
Definition merge_step (st : list string * gmap string nat) (entry : string)
    : list string * gmap string nat :=
  let '(out, index) := st in
  let k := env_key entry in
  match index !! k with
  | Some i => (<[i := entry]> out, index)
  | None => (out ++ [entry], <[k := length out]> index)
  end.

(** [MergeEnv] *)
Definition MergeEnv (base override : list string) : list string :=
  (fold_left merge_step (base ++ override) ([], ∅)).1.

Definition str_or (a b : string) : string := if bool_decide (a = "") then b else a.

(** [Resolve] *)
Definition Resolve (s : Spec) (c : ImageConfig) : result Process :=
  let '(entry, cmd) :=
    match s_Entrypoint s with
    | Some e => ((if bool_decide (e = "") then [] else [e]), [])
    | None => (ic_Entrypoint c, ic_Cmd c)
    end in
  let cmd := match s_Command s with [] => cmd | l => l end in
  let args := entry ++ cmd in
  guard (0 <? Z.of_nat (length args)) else Errorf "image has no command; specify COMMAND" in
  let* _ := all_ok (fun a => if ContainsRune a nul then Err (Errorf "NUL in argument") else Ok tt)
              args in
  let user := str_or (s_User s) (ic_User c) in
  let cwd := str_or (str_or (s_Workdir s) (ic_WorkingDir c)) "/" in
  guard IsAbs cwd else Errorf "image working directory is not absolute" in
  Ok (mkProcess args (MergeEnv (ic_Env c) (s_Env s)) user cwd
        (str_or (ic_StopSignal c) "SIGTERM") (s_TTY s) (s_Interactive s)).

(** ** Validation meets its declarative specification *)

Definition env_ok (e : string) : Prop :=
  exists k v, e = k +:+ String "=" v /\ k <> "" /\ ContainsRune k "=" = false /\
    ContainsRune e nul = false.

Definition port_ok (p : Port) : Prop :=
  (p_HostIP p = "127.0.0.1" \/ p_HostIP p = "0.0.0.0") /\
  1 <= p_HostPort p <= 65535 /\ 1 <= p_ContainerPort p <= 65535.

Definition mount_ok (m : Mount) : Prop :=
  ValidName (m_Name m) = true /\ IsAbs (m_Target m) = true /\
  Clean (m_Target m) = m_Target m /\ m_Target m <> "/" /\
  Forall (fun r => m_Target m <> r /\ HasPrefix (m_Target m) (r +:+ "/") = false) reserved_targets.

(** What a specification must satisfy to be admitted. *)
Record valid_spec (s : Spec) : Prop := {
  vs_image : s_Image s <> "";
  vs_name : s_Name s = "" \/ ValidName (s_Name s) = true;
  vs_runtime : s_Runtime s = "runc";
  vs_platform : s_Platform s = "linux/amd64";
  vs_cpus : 1 <= s_CPUs s <= 32;
  vs_memory : 64 * MiB <= s_Memory s <= 1024 * GiB;
  vs_disk : 64 * MiB <= s_DiskSize s <= 1024 * GiB;
  vs_pids : 1 <= s_PidsLimit s <= 1048576;
  vs_network : s_Network s = "bridge" \/ s_Network s = "none" /\ s_Ports s = [];
  vs_pull : s_Pull s ∈ ["always"; "missing"; "never"];
  vs_workdir : s_Workdir s = "" \/ IsAbs (s_Workdir s) = true;
  vs_env : Forall env_ok (s_Env s);
  vs_ports : Forall port_ok (s_Ports s);
  vs_ports_unique : NoDup (p_HostPort <$> s_Ports s);
  vs_mount_count : (length (s_Mounts s) <= 8)%nat;
  vs_mounts : Forall mount_ok (s_Mounts s);
  vs_targets_unique : NoDup (m_Target <$> s_Mounts s);
  vs_volumes_unique : NoDup (m_Name <$> s_Mounts s)
}.

(** A validation loop that records keys in a [seen] map accepts exactly the
    lists of well-formed elements whose keys are pairwise distinct. *)
Lemma fold_seen {A} (f : gset string -> A -> result (gset string)) (good : A -> Prop)
    (keys : A -> list string) :
  (forall seen x r, f seen x = Ok r <->
     good x /\ (forall k, k ∈ keys x -> k ∉ seen) /\ r = list_to_set (keys x) ∪ seen) ->
  (forall x, good x -> NoDup (keys x)) ->
  forall l seen, is_ok (fold_ok f seen l) = true <->
    Forall good l /\ NoDup (l ≫= keys) /\ (forall k, k ∈ l ≫= keys -> k ∉ seen).
Proof.
  intros Hf Hk l. induction l as [|x l IH]; intros seen; simpl.
  { split; [|done]. intros _. split_and!; [done|constructor|]. set_solver. }
  rewrite Forall_cons, NoDup_app. setoid_rewrite elem_of_app.
  destruct (f seen x) as [r|e] eqn:E.
  - apply Hf in E as (Hg & Hd & ->). rewrite IH.
    setoid_rewrite elem_of_union. setoid_rewrite elem_of_list_to_set.
    specialize (Hk x Hg). split.
    + intros (Hl & Hnd & Hx). split_and!; [done..| |done|].
      * intros k Hk1 Hk2. by apply (Hx k Hk2); left.
      * intros k [Hk1|Hk1]; [by apply Hd|]. intros Hk2. by apply (Hx k Hk1); right.
    + intros ((_ & Hl) & (_ & Hx & Hnd) & Hs). split_and!; [done..|].
      intros k Hk1 [Hk2|Hk2]; [by apply (Hx k)|]. apply (Hs k); auto.
  - split; [done|]. intros ((Hg & _) & _ & Hs).
    assert (f seen x = Ok (list_to_set (keys x) ∪ seen)) as E'; [|congruence].
    apply Hf. split_and!; [done| |done]. intros k ?. apply Hs. by left.
Qed.

Lemma validate_env_ok (e : string) : validate_env e = Ok tt <-> env_ok e.
Proof.
  unfold validate_env, env_ok. destruct (Cut e "=") as [[k v] ok] eqn:E. destruct ok; simpl.
  - pose proof E as E'. apply Cut_found in E' as [He Hk].
    case_bool_decide as Hne; simpl.
    + split; [done|]. intros (k' & v' & He' & Hk' & Hc & _).
      rewrite (proj2 (Cut_found _ k' v' _)) in E by done. congruence.
    + destruct (ContainsRune e nul); split; try done.
      * by intros (? & ? & _ & _ & _ & ?).
      * intros _. by exists k, v.
  - split; [done|]. intros (k' & v' & He' & Hk' & Hc & _).
    rewrite (proj2 (Cut_found _ k' v' _)) in E by done. congruence.
Qed.

Lemma validate_port_ok (seen : gset string) (p : Port) (r : gset string) :
  validate_port seen p = Ok r <->
  port_ok p /\ (forall k, k ∈ [Itoa (p_HostPort p)] -> k ∉ seen) /\
  r = list_to_set [Itoa (p_HostPort p)] ∪ seen.
Proof.
  unfold validate_port, port_ok. setoid_rewrite list_elem_of_singleton.
  replace (list_to_set [Itoa (p_HostPort p)] ∪ seen) with ({[Itoa (p_HostPort p)]} ∪ seen)
    by (simpl; by rewrite (right_id_L ∅ (∪))).
  split.
  - intros H. ok_inv. bool_prop.
    apply andb_false_iff in E as [E|E]; bool_prop; split_and!; auto; try lia; by intros ? ->.
  - intros ((Hip & Hh & Hc) & Hn & ->).
    replace (_ && _) with false by (destruct Hip as [->| ->]; done).
    replace (_ || _ || _ || _) with false.
    + rewrite bool_decide_eq_false_2; [done|]. by apply Hn.
    + symmetry. rewrite !orb_false_iff, !Z.ltb_ge. lia.
Qed.

Lemma reserved_target_spec (t : string) :
  reserved_target t = false <->
  Forall (fun r => t <> r /\ HasPrefix t (r +:+ "/") = false) reserved_targets.
Proof.
  unfold reserved_target. induction reserved_targets as [|r l IH]; simpl; [by split|].
  rewrite Forall_cons, !orb_false_iff, IH, bool_decide_eq_false. done.
Qed.

Definition mount_keys (m : Mount) : list string := [m_Target m; "name:" +:+ m_Name m].

Lemma mount_keys_neq (m m' : Mount) : IsAbs (m_Target m) = true -> m_Target m <> "name:" +:+ m_Name m'.
Proof. intros H E. by rewrite E in H. Qed.

Lemma validate_mount_ok (seen : gset string) (m : Mount) (r : gset string) :
  validate_mount seen m = Ok r <->
  mount_ok m /\ (forall k, k ∈ mount_keys m -> k ∉ seen) /\ r = list_to_set (mount_keys m) ∪ seen.
Proof.
  unfold validate_mount, mount_ok. rewrite <-reserved_target_spec.
  replace (list_to_set (mount_keys m) ∪ seen)
    with ({["name:" +:+ m_Name m]} ∪ ({[m_Target m]} ∪ seen))
    by (simpl; rewrite (right_id_L ∅ (∪)), !(assoc_L (∪)); f_equal; apply (comm_L (∪))).
  setoid_rewrite elem_of_cons. setoid_rewrite list_elem_of_singleton.
  split.
  - intros H. ok_inv. bool_prop. split_and!; auto. intros k [->| ->]; done.
  - intros ((-> & -> & Hc & Hs & ->) & Hn & ->).
    rewrite (bool_decide_eq_true_2 (Clean _ = _)) by done.
    rewrite (bool_decide_eq_false_2 (m_Target m = _)) by done. simpl.
    rewrite !bool_decide_eq_false_2 by auto. done.
Qed.

Lemma bind_pair_perm {A} (f g : A -> string) (l : list A) :
  l ≫= (fun x => [f x; g x]) ≡ₚ (f <$> l) ++ (g <$> l).
Proof.
  induction l as [|x l IH]; [done|]. cbn. rewrite IH. constructor.
  by rewrite Permutation_middle.
Qed.

Lemma mounts_fold_ok (l : list Mount) :
  is_ok (fold_ok validate_mount ∅ l) = true <->
  Forall mount_ok l /\ NoDup (m_Target <$> l) /\ NoDup (m_Name <$> l).
Proof.
  rewrite (fold_seen _ mount_ok mount_keys).
  - rewrite (bind_pair_perm m_Target (fun m => "name:" +:+ m_Name m)), NoDup_app.
    rewrite (list_fmap_compose m_Name (fun n => "name:" +:+ n)).
    split.
    + intros (Hg & (Ht & _ & Hn) & _). split_and!; [done..|]. by apply NoDup_fmap_1 in Hn.
    + intros (Hg & Ht & Hn). split_and!; [done..| | |set_solver].
      * intros k Hk1 Hk2. apply list_elem_of_fmap in Hk1 as (m & -> & Hm).
        rewrite <-list_fmap_compose in Hk2.
        apply list_elem_of_fmap in Hk2 as (m' & E & _).
        rewrite Forall_forall in Hg. destruct (Hg m) as (_ & Ha & _); [done|].
        by apply (mount_keys_neq m m').
      * apply NoDup_fmap_2; [|done]. intros x y. apply (inj (String.app "name:")).
  - apply validate_mount_ok.
  - intros m (_ & Ha & _). unfold mount_keys. rewrite NoDup_cons, list_elem_of_singleton.
    split; [by apply mount_keys_neq|]. apply NoDup_singleton.
Qed.

Lemma ports_fold_ok (l : list Port) :
  is_ok (fold_ok validate_port ∅ l) = true <->
  Forall port_ok l /\ NoDup (p_HostPort <$> l).
Proof.
  rewrite (fold_seen _ port_ok (fun p => [Itoa (p_HostPort p)])).
  - replace (l ≫= fun p => [Itoa (p_HostPort p)]) with (Itoa <$> (p_HostPort <$> l))
      by (rewrite <-list_fmap_compose; induction l as [|x l IH]; simpl; [done|by f_equal/=]).
    split; intros (Hp & Hn).
    + split; [done|]. destruct Hn as [Hn _]. by apply NoDup_fmap_1 in Hn.
    + split_and!; [done| |set_solver]. apply NoDup_fmap_2; [|done]. intros x y. apply Itoa_inj.
  - apply validate_port_ok.
  - intros p _. apply NoDup_singleton.
Qed.

Lemma bind_tt_ok {A} (r : result A) (k : result unit) :
  (let* _ := r in k) = Ok tt <-> is_ok r = true /\ k = Ok tt.
Proof. destruct r; simpl; naive_solver. Qed.

Lemma guard_ok (b : bool) (e : error) (k : result unit) :
  (guard b else e in k) = Ok tt <-> b = true /\ k = Ok tt.
Proof. destruct b; naive_solver. Qed.

Lemma is_ok_unit (r : result unit) : is_ok r = true <-> r = Ok tt.
Proof. destruct r as [[]|]; simpl; split; congruence. Qed.

Lemma Validate_iff (s : Spec) : Validate s = Ok tt <-> valid_spec s.
Proof.
  unfold Validate. rewrite !guard_ok, !bind_tt_ok, !guard_ok, bind_tt_ok.
  rewrite ports_fold_ok, mounts_fold_ok, is_ok_unit, all_ok_spec.
  setoid_rewrite validate_env_ok.
  rewrite !negb_true_iff, !orb_false_iff, !orb_true_iff, !andb_false_iff, !Z.ltb_ge.
  rewrite !bool_decide_eq_true, !bool_decide_eq_false.
  split.
  - intros (? & ? & ? & ? & ? & ? & ? & ? & Hnet & Hp & Hpull & ? & ? & [? ?] & ? & (? & ? & ?) & _).
    split; try tauto; try lia.
    + destruct Hnet as [?|?]; [by left|right]. split; [done|].
      destruct Hp as [?|Hp]; [done|]. destruct (s_Ports s); [done|]. simpl in Hp. lia.
    + rewrite !elem_of_cons, elem_of_nil. tauto.
  - intros []. rewrite !elem_of_cons, elem_of_nil in vs_pull0.
    split_and!; try tauto; try lia.
    destruct vs_network0 as [->|[_ ->]]; [by left|by right].
Qed.

(** [Spec.Validate] accepts exactly the specifications that satisfy the
    declarative predicate [valid_spec]: every range, every enumeration, host
    ports and mount targets pairwise distinct, volumes used once, mount
    targets absolute, clean and outside the reserved trees. *)
Theorem Validate_correct (s : Spec) : Validate s = Ok tt <-> valid_spec s.
Proof. apply Validate_iff. Qed.

(** ** Sizes *)

Lemma size_suffix_pos (s : string) : 0 < (size_suffix s size_units).2.
Proof.
  unfold size_units, GiB, MiB. cbn [size_suffix].
  repeat (case_match; [simpl; lia|]). simpl. lia.
Qed.

(** A size that is accepted is positive, fits in [int64], and is the
    parsed number times the unit without wrap-around: the guard
    [n > (1<<63-1)/multiplier] is exactly the overflow check. *)
Theorem Size_no_overflow (uf : string -> string) (s : string) (r : Z) :
  Size uf s = Ok r ->
  0 < r <= max_int64 /\
  exists n, ParseInt (size_suffix (size_normal uf s) size_units).1 = Ok n /\
            r = n * (size_suffix (size_normal uf s) size_units).2.
Proof.
  unfold Size. intros H.
  pose proof (size_suffix_pos (size_normal uf s)) as Hm.
  destruct (size_suffix _ _) as [t m]. simpl in *.
  destruct (ParseInt t) as [n|e]; [|done]. ok_inv. bool_prop.
  assert (n * m <= max_int64) as Hle.
  { etrans; [apply Z.mul_le_mono_nonneg_r; [lia|eassumption]|].
    rewrite Z.mul_comm. apply Z.mul_div_le. lia. }
  rewrite int64_id by (unfold in_int64, two63, max_int64 in *; nia).
  split; [nia|]. by exists n.
Qed.

Lemma Size_no_overflow_witness :
  0 < 1610612736 <= max_int64 /\
  exists n, ParseInt (size_suffix (size_normal (fun s => s) " 1536M ") size_units).1 = Ok n /\
            1610612736 = n * (size_suffix (size_normal (fun s => s) " 1536M ") size_units).2.
Proof. apply (Size_no_overflow (fun s => s) " 1536M " 1610612736). vm_compute. reflexivity. Defined.

(** ** Lemmas on the characters of numerals, units and names *)

Fixpoint str_all (P : ascii -> bool) (s : string) : bool :=
  match s with EmptyString => true | String c s => P c && str_all P s end.

Definition is_ascii_char (c : ascii) : bool := (N_of_ascii c <? 128)%N.

Lemma str_all_app (P : ascii -> bool) (s t : string) :
  str_all P (s +:+ t) = str_all P s && str_all P t.
Proof.
  induction s as [|c s IH]; [done|]. rewrite app_cons_str. simpl. by rewrite IH, andb_assoc.
Qed.

Lemma is_ascii_all (s : string) : is_ascii s = str_all is_ascii_char s.
Proof. induction s as [|c s IH]; [done|]. simpl. by rewrite <-IH. Qed.

Lemma is_ascii_app (s t : string) : is_ascii (s +:+ t) = str_all is_ascii_char s && is_ascii t.
Proof. by rewrite !is_ascii_all, str_all_app. Qed.

Lemma str_all_rune (P : ascii -> bool) (s : string) (c : ascii) :
  str_all P s = true -> P c = false -> ContainsRune s c = false.
Proof.
  induction s as [|d s IH]; [done|]. simpl. intros [H1 H2]%andb_prop Hc.
  rewrite IH by done. rewrite bool_decide_eq_false_2; [done|]. congruence.
Qed.

Definition num_char (c : ascii) : bool :=
  bool_decide (c = "-"%char) || match Ascii.is_nat c with Some _ => true | None => false end.

Lemma pretty_N_go_all (P : ascii -> bool) (x : N) (s : string) :
  (forall k, (k < 10)%N -> P (pretty_N_char k) = true) -> str_all P s = true ->
  str_all P (pretty_N_go x s) = true.
Proof.
  intros HP. revert s. induction (N.lt_wf_0 x) as [x _ IH]; intros s Hs.
  destruct (decide (x = 0)%N) as [->|Hx]; [done|].
  rewrite pretty_N_go_step by lia. apply IH; [apply N.div_lt; lia|].
  simpl. rewrite HP by (apply N.mod_lt; lia). done.
Qed.

Lemma digit_char_num (k : N) : num_char (pretty_N_char k) = true.
Proof. unfold pretty_N_char. by repeat case_match. Qed.

Lemma Itoa_num (n : Z) : str_all num_char (Itoa n) = true.
Proof.
  assert (forall x : N, str_all num_char (pretty x) = true) as HN.
  { intros x. unfold pretty, pretty_N. case_decide; [done|].
    apply pretty_N_go_all; [|done]. intros k _. apply digit_char_num. }
  unfold Itoa. destruct n as [|p|p]; [done|apply HN|].
  change (pretty (Z.neg p)) with (String "-" (pretty (N.pos p))). simpl. by rewrite HN.
Qed.

Lemma num_char_cases (c : ascii) : num_char c = true -> c ∈ String.list_ascii_of_string "-0123456789".
Proof.
  unfold num_char. rewrite orb_true_iff, bool_decide_eq_true. intros [->|H]; [by left|].
  destruct c as [[] [] [] [] [] [] [] []]; try discriminate H;
    simpl; rewrite !elem_of_cons; tauto.
Qed.

Lemma str_all_impl (P Q : ascii -> bool) (s : string) :
  (forall c, P c = true -> Q c = true) -> str_all P s = true -> str_all Q s = true.
Proof.
  intros H. induction s as [|c s IH]; [done|]. simpl. intros [H1 H2]%andb_prop.
  by rewrite (H c H1), (IH H2).
Qed.

Lemma Itoa_all (Q : ascii -> bool) (n : Z) :
  str_all Q "-0123456789" = true -> str_all Q (Itoa n) = true.
Proof.
  intros HQ. apply (str_all_impl num_char); [|apply Itoa_num]. intros c Hc.
  apply num_char_cases in Hc. simpl in HQ, Hc.
  repeat (apply elem_of_cons in Hc as [->|Hc]; [by bool_prop|]). by apply elem_of_nil in Hc.
Qed.

Lemma Itoa_no_colon (n : Z) : ContainsRune (Itoa n) ":" = false.
Proof. apply (str_all_rune num_char); [apply Itoa_num|done]. Qed.

Lemma suffix_cases (s t q : string) :
  HasSuffix (s +:+ t) q = true ->
  (exists w r, q = w +:+ t /\ s = r +:+ w) \/ HasSuffix t q = true.
Proof.
  intros [r Hr]%HasSuffix_spec. revert r Hr. induction s as [|c s IH]; intros r Hr.
  - right. apply HasSuffix_spec. exists r. by rewrite app_nil_l_str in Hr.
  - destruct r as [|d r].
    + left. exists (String c s), "". by rewrite !app_nil_l_str in *.
    + rewrite !app_cons_str in Hr. injection Hr as -> Hr.
      destruct (IH r Hr) as [(w & r' & -> & ->)|H]; [left|by right].
      exists w, (String d r'). by rewrite app_cons_str.
Qed.

Lemma Itoa_ne (n : Z) : Itoa n <> "".
Proof.
  intros H. unfold Itoa in H.
  destruct n as [|p|p]; [done| |done].
  change (pretty (Z.pos p)) with (pretty (N.pos p)) in H.
  pose proof (numeral_pretty_N (N.pos p)) as E. by rewrite H in E.
Qed.

Lemma trim_tcp (x : string) (n : Z) (sfx : string) :
  sfx = "" \/ sfx = "/tcp" -> TrimSuffix ((x +:+ Itoa n) +:+ sfx) "/tcp" = x +:+ Itoa n.
Proof.
  intros [->| ->]; [|apply TrimSuffix_app]. rewrite app_nil_r_str. unfold TrimSuffix.
  destruct (HasSuffix (x +:+ Itoa n) "/tcp") eqn:E; [exfalso|done].
  pose proof (Itoa_num n) as Hn. pose proof (Itoa_ne n) as Hne.
  destruct (suffix_cases _ _ _ E) as [(w & _ & Hq & _)|[r Hr]%HasSuffix_spec].
  - destruct (Itoa n) as [|c t]; [done|].
    do 4 (destruct w as [|? w];
      [rewrite app_nil_l_str in Hq; injection Hq as <- <-; discriminate Hn|];
      rewrite app_cons_str in Hq; injection Hq as _ Hq).
    by destruct w.
  - rewrite Hr, str_all_app in Hn. apply andb_prop in Hn as [_ Hn]. discriminate Hn.
Qed.

Definition letter_first (u : string) : bool :=
  match u with EmptyString => false | String c _ => negb (num_char c) end.

Lemma unit_no_suffix (n : Z) (u u' : string) :
  letter_first u' = true -> HasSuffix u u' = false -> HasSuffix (Itoa n +:+ u) u' = false.
Proof.
  intros Hl Hs. apply not_true_is_false. intros E.
  destruct (suffix_cases _ _ _ E) as [(w & r & Hq & Hw)|E']; [|congruence].
  destruct w as [|c w].
  - rewrite app_nil_l_str in Hq. subst.
    rewrite (proj2 (HasSuffix_spec u u)) in Hs; [done|]. by exists "".
  - pose proof (Itoa_num n) as Hn. rewrite Hw, str_all_app in Hn.
    rewrite Hq, app_cons_str in Hl. simpl in Hl, Hn. bool_prop. congruence.
Qed.

Lemma size_suffix_unit (n : Z) (u : string) (m : Z) :
  (u, m) ∈ size_units -> size_suffix (Itoa n +:+ u) size_units = (Itoa n, m).
Proof.
  assert (forall u, HasSuffix (Itoa n +:+ u) u = true) as Hself.
  { intros v. apply HasSuffix_spec. by exists (Itoa n). }
  intros Hu. unfold size_units in *. cbn [size_suffix].
  repeat (apply elem_of_cons in Hu as [[= -> ->]|Hu];
    [repeat (rewrite unit_no_suffix by reflexivity); by rewrite Hself, TrimSuffix_app|]).
  by apply elem_of_nil in Hu.
Qed.

Lemma size_units_pos (u : string) (m : Z) : (u, m) ∈ size_units -> 0 < m.
Proof.
  unfold size_units. rewrite !elem_of_cons, elem_of_nil. unfold GiB, MiB.
  intros Hu. destruct_or! Hu; simplify_eq; lia.
Qed.

(** Neither white space nor upper case: left alone by the normalisation. *)
Definition quiet (c : ascii) : bool :=
  negb (Ascii.is_space c) && bool_decide (lower_ascii c = c).

Lemma unit_all (P : ascii -> bool) (u : string) (m : Z) :
  (u, m) ∈ size_units -> str_all P "gibmk" = true -> str_all P u = true.
Proof.
  unfold size_units. rewrite !elem_of_cons, elem_of_nil. simpl. intros Hu HP. bool_prop.
  destruct_or! Hu; simplify_eq; simpl; by repeat (apply andb_true_intro; split).
Qed.

Lemma rev_app_all (P : ascii -> bool) (s t : string) :
  str_all P (String.rev_app s t) = str_all P s && str_all P t.
Proof.
  revert t. induction s as [|c s IH]; intros t; [done|]. simpl. rewrite IH. simpl.
  by destruct (P c), (str_all P s).
Qed.

Lemma rev_app_rev (s t u : string) :
  String.rev_app (String.rev_app s t) u = String.rev_app t (s +:+ u).
Proof.
  revert t u. induction s as [|c s IH]; intros t u; [done|]. simpl. by rewrite IH, app_cons_str.
Qed.

Lemma trim_left_quiet (s : string) : str_all quiet s = true -> trim_left s = s.
Proof.
  destruct s as [|c s]; [done|]. simpl. intros [H _]%andb_prop. unfold quiet in H. bool_prop.
  by rewrite H.
Qed.

Lemma TrimSpace_id (s : string) : str_all quiet s = true -> TrimSpace s = s.
Proof.
  intros H. unfold TrimSpace, String.rev. rewrite (trim_left_quiet s) by done.
  rewrite trim_left_quiet by (by rewrite rev_app_all, H).
  rewrite rev_app_rev. simpl. apply app_nil_r_str.
Qed.

Lemma ToLower_id (s : string) : str_all quiet s = true -> ToLower s = s.
Proof.
  induction s as [|c s IH]; [done|]. simpl. intros [H1 H2]%andb_prop. unfold quiet in H1.
  bool_prop. unfold ToLower in *. simpl. by rewrite IH by done; congruence.
Qed.

Lemma Itoa_unit_quiet (n : Z) (u : string) (m : Z) :
  (u, m) ∈ size_units -> str_all quiet (Itoa n +:+ u) = true.
Proof.
  intros Hu. rewrite str_all_app, (Itoa_all quiet), (unit_all quiet u m Hu); done.
Qed.

Lemma unit_ascii (u : string) (m : Z) : (u, m) ∈ size_units -> is_ascii u = true.
Proof. intros Hu. rewrite is_ascii_all. by apply (unit_all _ u m Hu). Qed.

Lemma ValidName_no (n : string) (c : ascii) :
  ValidName n = true -> name_char c = false -> ContainsRune n c = false.
Proof.
  destruct n as [|d n]; [done|]. cbn [ValidName]. intros H Hc. bool_prop.
  apply (str_all_rune name_char); [|done]. simpl. apply andb_true_intro. split.
  - unfold name_char. by replace (alnum d) with true.
  - clear -H1. induction n as [|e n IH]; [done|]. simpl in *. bool_prop. rewrite H. by apply IH.
Qed.

(** ** Round trips of the command-line parsers *)

(** Formatting a positive number with any of the ten unit suffixes and
    parsing it back gives the number of bytes, whenever that fits in
    [int64]. *)
Theorem Size_roundtrip (uf : string -> string) (n : Z) (u : string) (m : Z) :
  (u, m) ∈ size_units -> 0 < n -> n * m <= max_int64 ->
  Size uf (Itoa n +:+ u) = Ok (n * m).
Proof.
  intros Hu Hn Hb. pose proof (size_units_pos u m Hu) as Hm.
  assert (size_normal uf (Itoa n +:+ u) = Itoa n +:+ u) as Hnorm.
  { unfold size_normal. rewrite is_ascii_app, (Itoa_all is_ascii_char), (unit_ascii u m Hu) by done.
    cbn [andb]. rewrite TrimSpace_id, ToLower_id by eauto using Itoa_unit_quiet. done. }
  unfold Size. rewrite Hnorm, (size_suffix_unit n u m Hu). unfold max_int64 in *.
  change (ParseInt (Itoa n)) with (Atoi (Itoa n)).
  rewrite Atoi_Itoa by (unfold in_int64, two63, max_int64; nia).
  assert (9223372036854775807 `div` m >= n) as Hd.
  { apply Z.le_ge, Z.div_le_lower_bound; lia. }
  replace ((n <=? 0) || (_ <? n)) with false by (symmetry; apply orb_false_iff; lia).
  by rewrite int64_id by (unfold in_int64, two63, max_int64; nia).
Qed.

Lemma Size_roundtrip_witness : Size (fun s => s) (Itoa 512 +:+ "m") = Ok (512 * MiB).
Proof.
  apply (Size_roundtrip (fun s => s) 512 "m" MiB); [|lia|unfold MiB, max_int64; lia].
  unfold size_units. rewrite !elem_of_cons. tauto.
Defined.

(** The printed form [HOST_IP:HOST_PORT:CONTAINER_PORT], with or without
    [/tcp], parses back to the same port; without a host address the port is
    published on the loopback address. *)
Theorem ParsePort_roundtrip (ip : string) (hp cp : Z) (sfx : string) :
  ContainsRune ip ":" = false -> in_int64 hp -> in_int64 cp -> sfx = "" \/ sfx = "/tcp" ->
  ParsePort (ip +:+ ":" +:+ Itoa hp +:+ ":" +:+ Itoa cp +:+ sfx) = Ok (mkPort ip hp cp) /\
  ParsePort (Itoa hp +:+ ":" +:+ Itoa cp +:+ sfx) = Ok (mkPort "127.0.0.1" hp cp).
Proof.
  intros Hip Hhp Hcp Hs. unfold ParsePort.
  rewrite <-!app_assoc_str. rewrite !trim_tcp by done. rewrite !app_assoc_str.
  change (":" +:+ Itoa cp) with (String ":" (Itoa cp)).
  change (":" +:+ Itoa hp +:+ String ":" (Itoa cp))
    with (String ":" (Itoa hp +:+ String ":" (Itoa cp))).
  rewrite !Split_app, !Split_atom by (done || apply Itoa_no_colon).
  by rewrite !Atoi_Itoa by done.
Qed.

Lemma ParsePort_roundtrip_witness :
  ParsePort ("0.0.0.0" +:+ ":" +:+ Itoa 8080 +:+ ":" +:+ Itoa 80 +:+ "/tcp")
    = Ok (mkPort "0.0.0.0" 8080 80) /\
  ParsePort (Itoa 8080 +:+ ":" +:+ Itoa 80 +:+ "/tcp") = Ok (mkPort "127.0.0.1" 8080 80).
Proof.
  apply ParsePort_roundtrip; [reflexivity|split; vm_compute; discriminate..|by right].
Defined.

(** Both textual forms of a named-volume mount parse back to the mount:
    the short form [NAME:PATH[:ro]] and the long form
    [type=volume,src=NAME,dst=PATH[,readonly]]. *)
Theorem ParseMount_roundtrip (n t : string) (ro : bool) :
  ValidName n = true ->
  ContainsRune t ":" = false -> ContainsRune t "=" = false -> ContainsRune t "," = false ->
  ParseMount (n +:+ ":" +:+ t +:+ (if ro then ":ro" else "")) = Ok (mkMount n t ro) /\
  ParseMount ("type=volume,src=" +:+ n +:+ ",dst=" +:+ t +:+ (if ro then ",readonly" else ""))
    = Ok (mkMount n t ro).
Proof.
  intros Hn Ht1 Ht2 Ht3.
  pose proof (ValidName_no n ":" Hn eq_refl) as Hn1.
  pose proof (ValidName_no n "=" Hn eq_refl) as Hn2.
  pose proof (ValidName_no n "," Hn eq_refl) as Hn3.
  split; unfold ParseMount.
  - rewrite !ContainsRune_app, Hn2, Ht2.
    replace (ContainsRune (if ro then ":ro" else "") "=") with false by (by destruct ro).
    change (":" +:+ t +:+ ?x) with (String ":" (t +:+ x)). simpl.
    rewrite Split_app by done. destruct ro.
    + change (":ro") with (String ":" "ro"). rewrite Split_app by done. simpl. by rewrite Hn.
    + rewrite app_nil_r_str, Split_atom by done. simpl. by rewrite Hn.
  - replace ("type=volume,src=" +:+ n +:+ ",dst=" +:+ t +:+ (if ro then ",readonly" else ""))
      with ("type=volume" +:+ String "," (("src=" +:+ n) +:+ String "," (("dst=" +:+ t) +:+
              (if ro then String "," "readonly" else ""))))
      by (rewrite !app_assoc_str; by destruct ro).
    rewrite Split_app, Split_app by done.
    replace (Split (_ +:+ _) ",") with (("dst=" +:+ t) :: (if ro then ["readonly"] else [])).
    + destruct ro; cbv -[ValidName]; by rewrite Hn.
    + destruct ro; [by rewrite Split_app|]. by rewrite app_nil_r_str, Split_atom.
Qed.

Lemma ParseMount_roundtrip_witness :
  ParseMount ("data" +:+ ":" +:+ "/var/lib" +:+ ":ro") = Ok (mkMount "data" "/var/lib" true) /\
  ParseMount ("type=volume,src=" +:+ "data" +:+ ",dst=" +:+ "/var/lib" +:+ ",readonly")
    = Ok (mkMount "data" "/var/lib" true).
Proof. apply (ParseMount_roundtrip "data" "/var/lib" true); reflexivity. Defined.

(** ** Environment merging *)

(** The distinct keys of a list in the order of their first occurrence. *)
Definition first_occurrences (ks : list string) : list string :=
  fold_left (fun acc k => if bool_decide (k ∈ acc) then acc else acc ++ [k]) ks [].

(** The last entry of [l] that assigns [k]. *)
Definition last_assignment (k : string) (l : list string) : option string :=
  last (filter (fun e => env_key e = k) l).

Definition merge_inv (l out : list string) (index : gmap string nat) : Prop :=
  env_key <$> out = first_occurrences (env_key <$> l) /\ NoDup (env_key <$> out) /\
  (forall k i, index !! k = Some i <-> (env_key <$> out) !! i = Some k) /\
  (forall e, e ∈ out -> last_assignment (env_key e) l = Some e).

Lemma last_assignment_snoc (k e : string) (l : list string) :
  last_assignment k (l ++ [e]) =
  if bool_decide (env_key e = k) then Some e else last_assignment k l.
Proof.
  unfold last_assignment. rewrite filter_app, filter_cons, filter_nil.
  case_bool_decide as E.
  - rewrite decide_True by done. apply last_snoc.
  - rewrite decide_False by done. by rewrite app_nil_r.
Qed.

Lemma first_occurrences_snoc (ks : list string) (k : string) :
  first_occurrences (ks ++ [k]) =
  if bool_decide (k ∈ first_occurrences ks) then first_occurrences ks
  else first_occurrences ks ++ [k].
Proof. unfold first_occurrences. by rewrite fold_left_app. Qed.

Lemma merge_step_inv (l out : list string) (index : gmap string nat) (e : string) :
  merge_inv l out index ->
  let '(out', index') := merge_step (out, index) e in merge_inv (l ++ [e]) out' index'.
Proof.
  intros (Hk & Hnd & Hi & Hl). unfold merge_step. destruct (index !! env_key e) as [i|] eqn:Ei.
  - pose proof (proj1 (Hi _ _) Ei) as Hki.
    assert (env_key <$> <[i:=e]> out = env_key <$> out) as Hsame.
    { rewrite list_fmap_insert. by apply list_insert_id. }
    split_and!.
    + rewrite Hsame, fmap_app. change (env_key <$> [e]) with [env_key e].
      rewrite first_occurrences_snoc, <-Hk.
      rewrite bool_decide_eq_true_2; [done|]. by eapply list_elem_of_lookup_2.
    + by rewrite Hsame.
    + by rewrite Hsame.
    + intros e' [j Hj]%list_elem_of_lookup. rewrite last_assignment_snoc.
      destruct (decide (i = j)) as [->|Hne].
      * rewrite list_lookup_insert_eq in Hj
          by (apply lookup_lt_Some in Hki; by rewrite length_fmap in Hki).
        injection Hj as ->. by rewrite bool_decide_eq_true_2.
      * rewrite list_lookup_insert_ne in Hj by done.
        rewrite bool_decide_eq_false_2; [apply Hl; by eapply list_elem_of_lookup_2|].
        intros E. apply Hne. eapply NoDup_lookup; [exact Hnd|exact Hki|].
        by rewrite list_lookup_fmap, Hj, E.
  - assert (env_key e ∉ env_key <$> out) as Hnew.
    { intros [i Hc]%list_elem_of_lookup. apply Hi in Hc. congruence. }
    split_and!.
    + rewrite !fmap_app. change (env_key <$> [e]) with [env_key e].
      by rewrite first_occurrences_snoc, <-Hk, bool_decide_eq_false_2.
    + rewrite fmap_app. apply NoDup_app. split_and!; [done| |apply NoDup_singleton].
      intros k Hk1 Hk2. apply list_elem_of_singleton in Hk2. by subst.
    + intros k i. rewrite lookup_insert, fmap_app, lookup_app_Some, length_fmap.
      change (env_key <$> [e]) with [env_key e].
      rewrite list_lookup_singleton_Some. rewrite <-Hi. case_decide as E.
      * subst. rewrite Ei. split; [intros [= <-]|intros [|[? [? _]]]; [done|]].
        { right. split; [done|]. split; [lia|done]. }
        f_equal. lia.
      * split; [by left|]. by intros [?|[? [_ ?]]].
    + intros e' He. rewrite last_assignment_snoc. apply elem_of_app in He as [He|He].
      * rewrite bool_decide_eq_false_2; [by apply Hl|]. intros E. apply Hnew.
        rewrite E. by apply list_elem_of_fmap_2.
      * apply list_elem_of_singleton in He as ->. by rewrite bool_decide_eq_true_2.
Qed.

Lemma first_occurrences_elem (ks : list string) (k : string) :
  k ∈ ks -> k ∈ first_occurrences ks.
Proof.
  induction ks as [|x ks IH] using rev_ind; [by rewrite elem_of_nil|].
  rewrite first_occurrences_snoc, elem_of_app, list_elem_of_singleton.
  case_bool_decide as E; intros [H| ->]; try done; rewrite ?elem_of_app, ?list_elem_of_singleton; auto.
Qed.

Lemma merge_fold_inv (l : list string) :
  merge_inv l (fold_left merge_step l ([], ∅)).1 (fold_left merge_step l ([], ∅)).2.
Proof.
  induction l as [|e l IH] using rev_ind.
  - split_and!; [done|constructor| |set_solver]. intros k i. simpl. by rewrite lookup_empty.
  - rewrite fold_left_app. simpl. destruct (fold_left merge_step l ([], ∅)) as [out index].
    pose proof (merge_step_inv l out index e IH) as H. by destruct (merge_step (out, index) e).
Qed.

(** [MergeEnv] keeps one entry per key, in the order in which the keys
    first occur in the image and then the specification, and the entry kept is
    the last assignment of the key: overrides win, nothing else is lost. *)
Theorem MergeEnv_correct (base override : list string) :
  env_key <$> MergeEnv base override = first_occurrences (env_key <$> (base ++ override)) /\
  NoDup (env_key <$> MergeEnv base override) /\
  forall e, e ∈ MergeEnv base override <->
            last_assignment (env_key e) (base ++ override) = Some e.
Proof.
  destruct (merge_fold_inv (base ++ override)) as (Hk & Hnd & _ & Hl).
  fold (MergeEnv base override) in *. split_and!; [done..|].
  intros e. split; [apply Hl|]. intros He.
  assert (env_key e ∈ first_occurrences (env_key <$> (base ++ override))) as Hin.
  { apply first_occurrences_elem, list_elem_of_fmap_2.
    unfold last_assignment in He. apply last_Some_elem_of in He.
    by apply list_elem_of_filter in He as [_ ?]. }
  rewrite <-Hk in Hin. apply list_elem_of_fmap in Hin as (e' & Ek & He').
  pose proof (Hl e' He') as H. rewrite <-Ek, He in H. by injection H as ->.
Qed.

(** ** Process resolution *)

(** A process that [Resolve] accepts has at least one argument, no
    argument holds a NUL byte, its working directory is absolute and its stop
    signal is set; the arguments are the entry point followed by the command,
    where an entry point override also drops the image's command. *)
Theorem Resolve_correct (s : Spec) (c : ImageConfig) (p : Process) :
  Resolve s c = Ok p ->
  pr_Args p <> [] /\ Forall (fun a => ContainsRune a nul = false) (pr_Args p) /\
  IsAbs (pr_Cwd p) = true /\ pr_StopSignal p <> "" /\
  pr_Env p = MergeEnv (ic_Env c) (s_Env s) /\
  pr_Args p =
    match s_Entrypoint s with
    | None => ic_Entrypoint c ++ match s_Command s with [] => ic_Cmd c | l => l end
    | Some e => (if bool_decide (e = "") then [] else [e]) ++ s_Command s
    end.
Proof.
  unfold Resolve. intros H.
  destruct (match s_Entrypoint s with Some e => _ | None => _ end) as [entry cmd] eqn:Ee.
  ok_inv. bool_prop. destruct a. simpl. split_and!.
  - intros Hn. rewrite Hn in E. simpl in E. lia.
  - apply all_ok_spec in E0. eapply Forall_impl; [done|]. simpl. intros x.
    by destruct (ContainsRune x nul).
  - done.
  - unfold str_or. by case_bool_decide.
  - done.
  - destruct (s_Entrypoint s); injection Ee as <- <-; [|by destruct (s_Command s)].
    by destruct (s_Command s).
Qed.

Definition busybox_config : ImageConfig :=
  mkImageConfig ["/bin/entry"] ["sh"] ["PATH=/bin"; "A=1"] "" "" "" [] false.

Lemma Resolve_correct_witness :
  exists p, Resolve DefaultSpec busybox_config = Ok p /\
  pr_Args p <> [] /\ Forall (fun a => ContainsRune a nul = false) (pr_Args p) /\
  IsAbs (pr_Cwd p) = true /\ pr_StopSignal p <> "" /\
  pr_Env p = MergeEnv ["PATH=/bin"; "A=1"] [] /\ pr_Args p = ["/bin/entry"; "sh"].
Proof.
  eexists. split; [vm_compute; reflexivity|].
  apply (Resolve_correct DefaultSpec busybox_config). vm_compute. reflexivity.
Defined.

(** ** Identifiers *)

Lemma hex_digit_is_hex (n : N) : (n < 16)%N -> is_hex (hex_digit n) = true.
Proof. intros H. do 16 (destruct n as [|n] using N.peano_ind; [done|clear IHn]). lia. Qed.

Lemma hex_encode_hex (bytes : list N) :
  Forall (fun b => (b < 256)%N) bytes ->
  forallb is_hex (String.list_ascii_of_string (hex_encode bytes)) = true.
Proof.
  induction bytes as [|b bs IH]; [done|]. intros [Hb Hbs]%Forall_cons. cbn.
  rewrite !hex_digit_is_hex, IH; [done..| |].
  - apply N.mod_lt. lia.
  - apply N.Div0.div_lt_upper_bound. lia.
Qed.

Lemma hex_encode_length (bytes : list N) :
  String.length (hex_encode bytes) = (2 * length bytes)%nat.
Proof. induction bytes as [|b bs IH]; [done|]. simpl. rewrite IH. lia. Qed.

(** Every identifier the program draws has the shape [is_id]. *)
Lemma ID_is_id (random : nat -> N) : is_id (ID random) = true.
Proof.
  unfold is_id, ID. rewrite hex_encode_length, length_fmap, length_seq.
  apply andb_true_intro. split; [done|]. apply hex_encode_hex, Forall_fmap, Forall_forall. intros i _. apply N.mod_lt. done.
Qed.

Lemma is_id_length (s : string) : is_id s = true -> String.length s = 32%nat.
Proof. unfold is_id. intros H. bool_prop. by apply Nat.eqb_eq. Qed.

(** ** Completing a specification *)

Lemma valid_spec_set_Base (b : string) (s : Spec) : valid_spec s -> valid_spec (set_Base b s).
Proof. intros []. by split. Qed.
Lemma valid_spec_set_Name (n : string) (s : Spec) : ValidName n = true -> valid_spec s -> valid_spec (set_Name n s).
Proof. intros Hn []. split; try done. by right. Qed.

Lemma hex_name_char (c : ascii) : is_hex c = true -> name_char c = true.
Proof. destruct c as [[] [] [] [] [] [] [] []]; vm_compute; congruence. Qed.

(** The name that is chosen when none is given. *)
Lemma default_name_valid (id : string) : is_id id = true -> ValidName ("nf-" +:+ take_str 12 id) = true.
Proof.
  intros [_ Hh]%andb_true_iff. change ("nf-" +:+ take_str 12 id) with (String "n" (String "f" (String "-" (take_str 12 id)))).
  assert (forall n s, forallb is_hex (String.list_ascii_of_string s) = true ->
    forallb name_char (String.list_ascii_of_string (take_str n s)) = true) as Ht.
  { induction n as [|n IH]; intros [|c s]; [done..|]. cbn. intros [Hc Hs]%andb_true_iff.
    by rewrite hex_name_char, IH. }
  cbn [ValidName]. apply andb_true_iff. split; [apply andb_true_iff; split; [done|]|].
  - cbn [String.list_ascii_of_string forallb]. by rewrite Ht.
  - apply Nat.leb_le. cbn [String.length]. rewrite length_take_str. lia.
Qed.
