(* ===== verification/State.v ===== *)
(** * State: the durable store (internal/state/store.go)

    The SQLite database is a record of its three tables.  A row of [sandboxes]
    has the columns [id] (primary key, the key of the map), [name] (unique)
    and [body], the stored sandbox: JSON encoding and decoding of a record is
    taken as the identity.  Every operation returns the new database and a
    result; a failing statement or callback rolls its transaction back.  I/O
    failures of the database itself are injected where the operations are
    called (file Daemon). *)

From S2P Require Import Prelude GoLib Api.
Import Strings.
Local Open Scope Z_scope.

(** ** Data *)

Record Row : Type := mkRow { r_name : string; r_body : Sandbox }.

Record Event : Type := mkEvent { ev_id : string; ev_action : string; ev_at : Z }.

Record DB : Type := mkDB {
  sandboxes : gmap string Row;
  volumes : gmap string Volume;
  events : list Event
}.

Definition empty_db : DB := mkDB ∅ ∅ [].

Definition row_le (a b : Row) : Prop := String.le (r_name a) (r_name b).
#[export] Instance row_le_dec : RelDecision row_le.
Proof. intros a b. apply String.le_dec. Defined.
Definition vol_le (a b : Volume) : Prop := String.le (vol_Name a) (vol_Name b).
#[export] Instance vol_le_dec : RelDecision vol_le.
Proof. intros a b. apply String.le_dec. Defined.

Definition with_sandboxes (m : gmap string Row) (db : DB) : DB := mkDB m (volumes db) (events db).
Definition with_volumes (m : gmap string Volume) (db : DB) : DB := mkDB (sandboxes db) m (events db).
Definition add_event (e : Event) (db : DB) : DB :=
  mkDB (sandboxes db) (volumes db) (events db ++ [e]).

(** ** Sandboxes *)

(** [Store.List]: [SELECT body FROM sandboxes ORDER BY name]. *)
Definition List (db : DB) : list Sandbox :=
  r_body <$> merge_sort row_le ((map_to_list (sandboxes db)).*2).

(** The first sandbox with this identifier or name, in list order. *)
Fixpoint find_exact (id : string) (all : list Sandbox) : option Sandbox :=
  match all with
  | [] => None
  | v :: all =>
      if bool_decide (sb_ID v = id) || bool_decide (sb_Name v = id) then Some v
      else find_exact id all
  end.

Definition find_prefix (id : string) (all : list Sandbox) : list Sandbox :=
  filter (fun v => id <> "" /\ HasPrefix (sb_ID v) id = true) all.

(** [Store.Get] *)
Definition Get (db : DB) (id : string) : result Sandbox :=
  let all := List db in
  match find_exact id all with
  | Some v => Ok v
  | None =>
      match find_prefix id all with
      | [v] => Ok v
      | [] => Err ErrNotFound
      | _ => Err (Wrap "%w: ambiguous ID" ErrConflict)
      end
  end.

Definition name_taken (name : string) (m : gmap string Row) : bool :=
  existsb (fun r => bool_decide (r_name r = name)) ((map_to_list m).*2).

(** [Store.Create] *)
Definition Create (db : DB) (now : Z) (v : Sandbox) : result DB :=
  match sandboxes db !! sb_ID v with
  | Some _ => Err (Wrap "%w: name/ID already exists: %v" ErrConflict)
  | None =>
      if name_taken (sb_Name v) (sandboxes db)
      then Err (Wrap "%w: name/ID already exists: %v" ErrConflict)
      else Ok (add_event (mkEvent (sb_ID v) "create" now)
                 (with_sandboxes (<[sb_ID v := mkRow (sb_Name v) v]> (sandboxes db)) db))
  end.

(** [Store.Update]: read the row, apply the callback, write the body back. *)
Definition Update (db : DB) (now : Z) (id : string) (fn : Sandbox -> result Sandbox) : result DB :=
  match sandboxes db !! id with
  | None => Err ErrNoRows
  | Some r =>
      match fn (r_body r) with
      | Err e => Err e
      | Ok v => Ok (with_sandboxes (<[id := mkRow (r_name r) (set_Updated now v)]> (sandboxes db)) db)
      end
  end.

(** [Store.Intent] *)
Definition Intent (db : DB) (now : Z) (id action : string) : DB :=
  add_event (mkEvent id action now) db.

(** [Store.Delete] *)
Definition Delete (db : DB) (id : string) : DB :=
  with_sandboxes (delete id (sandboxes db)) db.

(** ** The lifecycle table *)

(** [transitions] *)
Definition transitions (s : string) : list string :=
  if bool_decide (s = "creating") then ["created"; "failed"; "removing"]
  else if bool_decide (s = "created") then ["starting"; "removing"]
  else if bool_decide (s = "starting") then ["running"; "failed"; "stopping"]
  else if bool_decide (s = "running") then ["stopping"; "failed"]
  else if bool_decide (s = "stopping") then ["exited"; "failed"]
  else if bool_decide (s = "exited") then ["starting"; "removing"]
  else if bool_decide (s = "failed") then ["removing"]
  else [].

(** [Transition] *)
Definition Transition (v : Sandbox) (to reason : string) : result Sandbox :=
  if bool_decide (sb_State v = to) then Ok v
  else if bool_decide (to ∈ transitions (sb_State v))
  then Ok (set_Reason reason (set_State to v))
  else Err (Wrap "%w: cannot transition %s to %s" ErrConflict).

(** ** Volumes *)

(** [Store.Volumes] *)
Definition Volumes (db : DB) : list Volume :=
  merge_sort vol_le ((map_to_list (volumes db)).*2).

(** [Store.PutVolume] *)
Definition PutVolume (db : DB) (v : Volume) : result DB :=
  match volumes db !! vol_Name v with
  | Some _ => Err (Errorf "UNIQUE constraint failed: volumes.name")
  | None => Ok (with_volumes (<[vol_Name v := v]> (volumes db)) db)
  end.

(** [Store.Volume] *)
Definition GetVolume (db : DB) (name : string) : result Volume :=
  match volumes db !! name with Some v => Ok v | None => Err ErrNotFound end.

(** [Store.DeleteVolume] *)
Definition DeleteVolume (db : DB) (name : string) : DB :=
  with_volumes (delete name (volumes db)) db.

(** ** Listing *)

Lemma elem_of_List (db : DB) (v : Sandbox) :
  v ∈ List db <-> exists id r, sandboxes db !! id = Some r /\ r_body r = v.
Proof.
  unfold List. rewrite list_elem_of_fmap. setoid_rewrite merge_sort_Permutation.
  setoid_rewrite list_elem_of_fmap. split.
  - intros (r & -> & [[id r'] [-> H]]). apply elem_of_map_to_list in H. by exists id, r'.
  - intros (id & r & H & <-). exists r. split; [done|]. exists (id, r).
    split; [done|]. by apply elem_of_map_to_list.
Qed.

Lemma List_lookup (db : DB) (id : string) (r : Row) :
  sandboxes db !! id = Some r -> r_body r ∈ List db.
Proof. intros. apply elem_of_List. by exists id, r. Qed.

(** Rows are stored under the identifier of their body, and the name column
    repeats the body's name. *)
Definition keyed (m : gmap string Row) : Prop :=
  forall id r, m !! id = Some r -> sb_ID (r_body r) = id /\ r_name r = sb_Name (r_body r).

Definition names_unique (m : gmap string Row) : Prop :=
  forall id1 id2 r1 r2, m !! id1 = Some r1 -> m !! id2 = Some r2 -> r_name r1 = r_name r2 -> id1 = id2.

(** No sandbox is named like an identifier. *)
Definition names_not_ids (m : gmap string Row) : Prop :=
  forall id r, m !! id = Some r -> is_id id = true /\ is_id (r_name r) = false.

Lemma name_taken_spec (name : string) (m : gmap string Row) :
  name_taken name m = true <-> exists id r, m !! id = Some r /\ r_name r = name.
Proof.
  unfold name_taken. rewrite existsb_exists. setoid_rewrite <-list_elem_of_In.
  setoid_rewrite list_elem_of_fmap. setoid_rewrite bool_decide_eq_true. split.
  - intros (r & ([id r'] & -> & H) & Hn). apply elem_of_map_to_list in H. by exists id, r'.
  - intros (id & r & H & Hn). exists r. split; [|done]. exists (id, r).
    split; [done|]. by apply elem_of_map_to_list.
Qed.

(** ** Lookup by identifier, name or prefix *)

Lemma find_exact_Some (id : string) (all : list Sandbox) (v : Sandbox) :
  find_exact id all = Some v -> v ∈ all /\ (sb_ID v = id \/ sb_Name v = id).
Proof.
  induction all as [|x all IH]; [done|]. simpl. rewrite elem_of_cons.
  destruct (_ || _) eqn:E.
  - intros [= ->]. apply orb_true_iff in E. rewrite !bool_decide_eq_true in E. auto.
  - intros H. destruct (IH H). auto.
Qed.

Lemma find_exact_None (id : string) (all : list Sandbox) :
  find_exact id all = None -> forall v, v ∈ all -> sb_ID v <> id /\ sb_Name v <> id.
Proof.
  induction all as [|x all IH]; [by intros _ v ?%elem_of_nil|]. simpl.
  destruct (_ || _) eqn:E; [done|]. intros Hn v [->|Hv]%elem_of_cons; [by bool_prop|].
  by apply IH.
Qed.

Lemma elem_of_find_prefix (id : string) (all : list Sandbox) (v : Sandbox) :
  v ∈ find_prefix id all <-> (id <> "" /\ HasPrefix (sb_ID v) id = true) /\ v ∈ all.
Proof. unfold find_prefix. by rewrite list_elem_of_filter. Qed.

(** What a successful lookup returns is a stored sandbox. *)
Lemma Get_row (db : DB) (id : string) (v : Sandbox) :
  keyed (sandboxes db) -> Get db id = Ok v ->
  exists r, sandboxes db !! sb_ID v = Some r /\ r_body r = v.
Proof.
  intros Hk H. assert (v ∈ List db) as Hv.
  { unfold Get in H. destruct (find_exact id (List db)) as [x|] eqn:E.
    - injection H as ->. by apply find_exact_Some in E as [? _].
    - destruct (find_prefix id (List db)) as [|x [|y l]] eqn:Ep; try done.
      injection H as ->. assert (v ∈ find_prefix id (List db)) as Hx.
      { rewrite Ep. by left. }
      by apply elem_of_find_prefix in Hx as [_ ?]. }
  apply elem_of_List in Hv as (id' & r & Hr & <-). destruct (Hk _ _ Hr) as [-> _]. by exists r.
Qed.

(** Under an identifier-shaped key, [Get] is the primary-key lookup, provided
    no sandbox is named like an identifier. *)
Lemma Get_id (db : DB) (id : string) :
  keyed (sandboxes db) -> names_not_ids (sandboxes db) -> is_id id = true ->
  Get db id = match sandboxes db !! id with Some r => Ok (r_body r) | None => Err ErrNotFound end.
Proof.
  intros Hk Hn Hid.
  assert (forall v, v ∈ List db -> sb_ID v = id \/ sb_Name v = id ->
          exists r, sandboxes db !! id = Some r /\ r_body r = v) as Hex.
  { intros v (id' & r & Hr & <-)%elem_of_List Hv. destruct (Hk _ _ Hr) as [Hi Hm].
    destruct (Hn _ _ Hr) as [_ Hnn]. destruct Hv as [Hv|Hv]; [|congruence].
    exists r. split; [congruence|done]. }
  unfold Get. destruct (find_exact id (List db)) as [v|] eqn:E.
  - apply find_exact_Some in E as [Hv Hm]. by destruct (Hex v Hv Hm) as (r & -> & ->).
  - destruct (sandboxes db !! id) as [r|] eqn:Er.
    { destruct (find_exact_None _ _ E (r_body r)) as [Hne _]; [by eapply List_lookup|].
      by destruct (Hk _ _ Er). }
    assert (find_prefix id (List db) = []) as ->; [|done].
    apply elem_of_nil_inv. intros v [[_ Hp] Hv]%elem_of_find_prefix.
    pose proof Hv as (id' & r & Hr & <-)%elem_of_List. destruct (Hk _ _ Hr) as [Hi _].
    destruct (Hn _ _ Hr) as [Hid' _]. apply HasPrefix_spec in Hp as [t Ht].
    apply is_id_length in Hid, Hid'. rewrite Hi in Ht. subst id'.
    rewrite length_app_str in Hid'. destruct t; [|simpl in Hid'; lia].
    rewrite app_nil_r_str in Hr. congruence.
Qed.

(** [Store.Get] returns only stored sandboxes, prefers an exact
    identifier or name, accepts an identifier prefix only when it is not empty
    and matches one sandbox, and reports an ambiguous prefix as a conflict. *)
Theorem Get_correct (db : DB) (id : string) :
  match Get db id with
  | Ok v =>
      v ∈ List db /\
      (sb_ID v = id \/ sb_Name v = id \/
       id <> "" /\ HasPrefix (sb_ID v) id = true /\
       (forall w, w ∈ List db -> sb_ID w <> id /\ sb_Name w <> id) /\
       find_prefix id (List db) = [v])
  | Err e =>
      (forall w, w ∈ List db -> sb_ID w <> id /\ sb_Name w <> id) /\
      (e = ErrNotFound /\ find_prefix id (List db) = [] \/
       e = Wrap "%w: ambiguous ID" ErrConflict /\ (2 <= length (find_prefix id (List db)))%nat)
  end.
Proof.
  unfold Get. destruct (find_exact id (List db)) as [v|] eqn:E.
  { apply find_exact_Some in E as [? [?|?]]; auto. }
  pose proof (find_exact_None _ _ E) as Hne.
  destruct (find_prefix id (List db)) as [|v [|w l]] eqn:Ep; [by auto| |].
  - assert (v ∈ find_prefix id (List db)) as [[Hi Hp] Hv]%elem_of_find_prefix.
    { rewrite Ep. by left. }
    split; [done|]. right. right. done.
  - split; [done|]. right. split; [done|]. simpl. lia.
Qed.

(** Creating a sandbox and then looking it up by the identifier it was
    created under returns it, in a store in which no name has the shape of an
    identifier; a second creation under the same identifier or name is a
    conflict. *)
Theorem Create_Get (db db' : DB) (now : Z) (v : Sandbox) :
  keyed (sandboxes db) -> names_not_ids (sandboxes db) ->
  is_id (sb_ID v) = true -> is_id (sb_Name v) = false ->
  Create db now v = Ok db' ->
  Get db' (sb_ID v) = Ok v /\
  forall w now', sb_ID w = sb_ID v \/ sb_Name w = sb_Name v ->
    Create db' now' w = Err (Wrap "%w: name/ID already exists: %v" ErrConflict).
Proof.
  unfold Create at 1. intros Hk Hn Hid Hnm H.
  destruct (sandboxes db !! sb_ID v) eqn:El; [done|].
  destruct (name_taken _ _) eqn:Et; [done|]. injection H as <-. split.
  - rewrite Get_id; simpl; [by rewrite lookup_insert_eq| | |done].
    + intros id r. rewrite lookup_insert. case_decide as E; [subst; by intros [= <-]|apply Hk].
    + intros id r. rewrite lookup_insert. case_decide as E; [subst; by intros [= <-]|apply Hn].
  - intros w now' Hw. unfold Create. simpl. rewrite lookup_insert. case_decide; [done|].
    destruct (sandboxes db !! sb_ID w); [done|]. destruct Hw as [Hw|Hw]; [congruence|].
    replace (name_taken _ _) with true; [done|]. symmetry. apply name_taken_spec.
    exists (sb_ID v), (mkRow (sb_Name v) v). by rewrite lookup_insert_eq.
Qed.

Definition sample_sandbox (id name : string) : Sandbox :=
  mkSandbox id name DefaultSpec empty_process "" "" "creating" "" [] 0 0 0 None 0 "" 0 1 true.
Definition id_a : string := "aaaaaaaaaaaaaaaaaaaaaaaaaaaaaaaa".
Definition id_b : string := "bbbbbbbbbbbbbbbbbbbbbbbbbbbbbbbb".

Lemma Create_Get_witness :
  exists db', Create empty_db 0 (sample_sandbox id_a "web") = Ok db' /\
    Get db' id_a = Ok (sample_sandbox id_a "web") /\
    forall w now', sb_ID w = id_a \/ sb_Name w = "web" ->
      Create db' now' w = Err (Wrap "%w: name/ID already exists: %v" ErrConflict).
Proof.
  eexists. split; [reflexivity|].
  apply (Create_Get empty_db _ 0 (sample_sandbox id_a "web")).
  - intros id r H. discriminate H.
  - intros id r H. discriminate H.
  - reflexivity.
  - reflexivity.
  - reflexivity.
Defined.

(** The hygiene hypothesis is needed: a sandbox whose name is the
    identifier of another one is accepted by validation and by the store, and
    a lookup by that identifier then returns the wrong sandbox. *)
Theorem Get_name_shadows_id :
  ValidName id_a = true /\
  exists db1 db2, Create empty_db 0 (sample_sandbox id_a "web") = Ok db1 /\
    Create db1 0 (sample_sandbox id_b id_a) = Ok db2 /\
    Get db2 id_a = Ok (sample_sandbox id_b id_a).
Proof.
  split; [reflexivity|]. eexists _, _.
  split; [reflexivity|]. split; [reflexivity|]. vm_compute. reflexivity.
Qed.

(** ** Invariants of the sandbox table *)

Lemma Create_keyed (db db' : DB) (now : Z) (v : Sandbox) :
  Create db now v = Ok db' -> keyed (sandboxes db) -> keyed (sandboxes db').
Proof.
  unfold Create. intros H Hk. repeat case_match; try done. injection H as <-. intros id r. simpl.
  rewrite lookup_insert. case_decide; [subst; by intros [= <-]|apply Hk].
Qed.

(** The name column stays unique under creation, whatever is already
    stored, and creation adds exactly the row of the new sandbox. *)
Theorem Create_names_unique (db db' : DB) (now : Z) (v : Sandbox) :
  Create db now v = Ok db' -> names_unique (sandboxes db) ->
  names_unique (sandboxes db') /\
  sandboxes db !! sb_ID v = None /\
  sandboxes db' = <[sb_ID v := mkRow (sb_Name v) v]> (sandboxes db) /\
  volumes db' = volumes db.
Proof.
  unfold Create. intros H Hu. destruct (sandboxes db !! sb_ID v) eqn:El; [done|].
  destruct (name_taken _ _) eqn:Et; [done|]. injection H as <-. simpl. split_and!; [|done..].
  assert (forall id r, sandboxes db !! id = Some r -> r_name r <> sb_Name v) as Hf.
  { intros id r Hr En. assert (name_taken (sb_Name v) (sandboxes db) = true) as Ht.
    { apply name_taken_spec. by exists id, r. }
    congruence. }
  intros id1 id2 r1 r2. rewrite !lookup_insert.
  case_decide; case_decide; subst; try done.
  - intros [= <-] H2 E. by destruct (Hf _ _ H2).
  - intros H1 [= <-] E. by destruct (Hf _ _ H1).
  - apply Hu.
Qed.

Lemma Create_names_unique_witness :
  exists db', Create empty_db 0 (sample_sandbox id_a "web") = Ok db' /\
    names_unique (sandboxes db') /\ sandboxes empty_db !! id_a = None /\
    sandboxes db' = <[id_a := mkRow "web" (sample_sandbox id_a "web")]> ∅ /\ volumes db' = ∅.
Proof.
  eexists. split; [reflexivity|].
  apply (Create_names_unique empty_db _ 0 (sample_sandbox id_a "web")); [reflexivity|].
  intros id1 id2 r1 r2 H. discriminate H.
Defined.

(** ** The lifecycle *)

Definition states : list string :=
  ["creating"; "created"; "starting"; "running"; "stopping"; "exited"; "failed"; "removing"].

(** One move of the lifecycle table. *)
Definition next (s s' : string) : Prop := s' ∈ transitions s.

Lemma next_cases (s s' : string) : next s s' -> s ∈ states /\ s' ∈ states.
Proof.
  assert (forall l : list string, forallb (fun x => bool_decide (x ∈ states)) l = true ->
    s' ∈ l -> s' ∈ states) as Hl.
  { intros l Hl Hs. rewrite forallb_forall in Hl.
    eapply bool_decide_eq_true, Hl. by apply list_elem_of_In. }
  assert (forall x, bool_decide (x ∈ states) = true -> x ∈ states) as Hx.
  { intros x. apply bool_decide_eq_true. }
  unfold next, transitions. intros H.
  repeat (case_bool_decide; [subst; split; [by apply Hx|by eapply Hl; [|exact H]]|]).
  by apply elem_of_nil in H.
Qed.

(** [Transition] does nothing when the state is already the target,
    moves along the lifecycle table and sets the reason otherwise, and is a
    conflict in every other case; it never changes another field. *)
Theorem Transition_correct (v : Sandbox) (to reason : string) :
  match Transition v to reason with
  | Ok v' => sb_State v = to /\ v' = v \/
             sb_State v <> to /\ next (sb_State v) to /\ v' = set_Reason reason (set_State to v)
  | Err e => sb_State v <> to /\ ~ next (sb_State v) to /\
             e = Wrap "%w: cannot transition %s to %s" ErrConflict
  end.
Proof. unfold Transition. repeat case_bool_decide; auto. Qed.

(** The lifecycle from creation: only the eight states are reached,
    [running] is entered from [starting] only, [removing] is final, and every
    reachable state can still reach [removing]. *)
Theorem lifecycle_correct (s : string) :
  rtc next "creating" s ->
  s ∈ states /\ (next s "running" -> s = "starting") /\ transitions "removing" = [] /\
  rtc next s "removing".
Proof.
  intros H. assert (s ∈ states) as Hs.
  { destruct (rtc_inv_r _ _ H) as [<-|(t & _ & Ht)]; [by left|]. by apply next_cases in Ht as [_ ?]. }
  split_and!; [done| |done|].
  - unfold next, states in *. rewrite !elem_of_cons, elem_of_nil in Hs.
    destruct_or! Hs; subst; try done;
      intros Hr; apply (bool_decide_eq_true_2 _) in Hr; vm_compute in Hr; discriminate Hr.
  - assert (forall a b, bool_decide (b ∈ transitions a) = true -> next a b) as Hd.
    { intros a b. by rewrite bool_decide_eq_true. }
    unfold states in Hs. rewrite !elem_of_cons, elem_of_nil in Hs.
    destruct_or! Hs; subst; try done.
    all: try solve [apply rtc_once, Hd; reflexivity|done].
    all: eapply rtc_l; [apply (Hd _ "failed"); reflexivity|apply rtc_once, Hd; reflexivity].
Qed.

Lemma lifecycle_correct_witness :
  "exited" ∈ states /\ (next "exited" "running" -> "exited" = "starting") /\
  transitions "removing" = [] /\ rtc next "exited" "removing".
Proof.
  apply lifecycle_correct.
  assert (forall a b, bool_decide (b ∈ transitions a) = true -> next a b) as Hd.
  { intros a b. by rewrite bool_decide_eq_true. }
  eapply rtc_l; [apply (Hd _ "created"); reflexivity|].
  eapply rtc_l; [apply (Hd _ "starting"); reflexivity|].
  eapply rtc_l; [apply (Hd _ "stopping"); reflexivity|].
  apply rtc_once, Hd. reflexivity.
Defined.
