(* ===== verification/Fsutil.v ===== *)
(** * Fsutil: bounded file helpers (internal/fsutil/files.go)

    Digest strings, bounded metadata reads, the token pass that bounds JSON
    before it is decoded, and path confinement.  The file system appears
    through what the calls return: the bytes of a file and its [stat], and the
    [lstat] of a path.  The JSON tokenizer of [encoding/json] is the list of
    tokens it yields. *)

From S2P Require Import Prelude GoLib.
Import Strings Path.
Local Open Scope Z_scope.
Local Open Scope go_scope.

(** ** Digests *)

Definition hex_any (c : ascii) : bool :=
  let n := N_of_ascii c in
  ((48 <=? n) && (n <=? 57) || (97 <=? n) && (n <=? 102) || (65 <=? n) && (n <=? 70))%N.

(** [HexDigest]: the hexadecimal part of a [sha256:] digest. *)
Definition HexDigest (s : string) : result string :=
  if negb (String.length s =? 71)%nat || negb (HasPrefix s "sha256:")
  then Err (Errorf "invalid sha256 digest")
  else if forallb hex_any (String.list_ascii_of_string (drop_str 7 s))
  then Ok (drop_str 7 s)
  else Err (Errorf "encoding/hex: invalid byte").

(** ** Bounded reads *)

(** What [open], [fstat] and reading a file return.  The file may grow between
    the two calls: [f_bytes] is what reading sees, [f_stat_size] what [Stat]
    saw. *)
Record FileView : Type := mkFileView {
  f_regular : bool;
  f_stat_size : Z;
  f_bytes : string
}.

(** [io.ReadAll(io.LimitReader(f, n))] *)
Definition read_limited (f : FileView) (n : Z) : string := take_str (Z.to_nat n) (f_bytes f).

(** [ReadFileLimit] *)
Definition ReadFileLimit (open : result FileView) (max : Z) : result string :=
  guard negb (max <? 0) else Errorf "invalid file size limit" in
  let* f := open in
  guard f_regular f else Errorf "metadata must be a regular file" in
  guard negb (max <? f_stat_size f) else Errorf "metadata size limit exceeded" in
  let b := read_limited f (int64 (max + 1)) in
  guard negb (max <? Z.of_nat (String.length b)) else Errorf "metadata size limit exceeded" in
  Ok b.

(** ** JSON complexity *)

(** A token of [json.Decoder.Token]. *)
Inductive token : Type :=
| TOpen            (* an opening brace or bracket *)
| TClose           (* a closing brace or bracket *)
| TString (s : string)
| TScalar.         (* a number, a boolean or null *)

Record scan : Type := mkScan {
  sc_tokens : Z;
  sc_depth : Z;
  sc_strings : Z;
  sc_started : bool;
  sc_complete : bool
}.

Definition scan0 : scan := mkScan 0 0 0 false false.

Section Complexity.
Variables maxTokens maxDepth maxStringBytes : Z.

(** One iteration of the token loop. *)
Definition scan_token (s : scan) (t : token) : result scan :=
  guard negb (sc_complete s) else Errorf "multiple JSON values" in
  let tokens := sc_tokens s + 1 in
  guard negb (maxTokens <? tokens) else Errorf "JSON token limit exceeded" in
  let* strings :=
    match t with
    | TString x =>
        if maxStringBytes - sc_strings s <? Z.of_nat (String.length x)
        then Err (Errorf "JSON string limit exceeded")
        else Ok (sc_strings s + Z.of_nat (String.length x))
    | _ => Ok (sc_strings s)
    end in
  match t with
  | TOpen =>
      if maxDepth <? sc_depth s + 1 then Err (Errorf "JSON depth limit exceeded")
      else Ok (mkScan tokens (sc_depth s + 1) strings true false)
  | TClose =>
      if sc_depth s - 1 <? 0 then Err (Errorf "invalid JSON nesting")
      else Ok (mkScan tokens (sc_depth s - 1) strings true (sc_depth s - 1 =? 0))
  | _ => Ok (mkScan tokens (sc_depth s) strings true (sc_depth s =? 0))
  end.

(** The loop over what the decoder yields: tokens up to the end of input or a
    syntax error. *)
Fixpoint scan_tokens (s : scan) (l : list (result token)) : result unit :=
  match l with
  | [] =>
      if negb (sc_started s) || negb (sc_complete s) || negb (sc_depth s =? 0)
      then Err (Errorf "invalid JSON value") else Ok tt
  | Err e :: _ => Err e
  | Ok t :: l =>
      match scan_token s t with Ok s' => scan_tokens s' l | Err e => Err e end
  end.

(** [ValidateJSONComplexity] on the tokens of its input. *)
Definition ValidateJSONComplexity (l : list (result token)) : result unit :=
  if (maxTokens <=? 0) || (maxDepth <=? 0) || (maxStringBytes <? 0)
  then Err (Errorf "invalid JSON complexity limit")
  else scan_tokens scan0 l.
End Complexity.

(** ** Confinement *)

Inductive lstat_result : Type :=
| LSymlink
| LOther
| LNotExist
| LError (e : error).

(** The walk over the parents of [full], up to and excluding [root]; [fuel] is
    the number of path elements left. *)
Fixpoint within_walk (lstat : string -> lstat_result) (root p : string) (fuel : nat) : result unit :=
  match fuel with
  | 0%nat => Ok tt
  | S fuel =>
      if bool_decide (p = root) || bool_decide (p = Dir p) then Ok tt
      else match lstat p with
           | LSymlink => Err (Errorf "symlink in parent path")
           | LError e => Err e
           | _ => within_walk lstat root (Dir p) fuel
           end
  end.

(** [Within] *)
Definition Within (lstat : string -> lstat_result) (root name : string) : result string :=
  guard negb (ContainsRune name "000") else Errorf "NUL in path" in
  let clean := Clean name in
  guard negb (IsAbs clean || bool_decide (clean = "..") || HasPrefix clean "../")
    else Errorf "path escapes root" in
  let full := JoinPath [root; clean] in
  let* _ := within_walk lstat root (Dir full) (String.length full) in
  Ok full.

(** ** Theorems *)

Lemma read_limited_length (f : FileView) (n : Z) :
  (Z.of_nat (String.length (read_limited f n)) <= Z.max 0 n).
Proof. unfold read_limited. rewrite length_take_str. lia. Qed.

Lemma take_str_short (n : nat) (s : string) :
  (String.length (take_str n s) < n)%nat -> take_str n s = s.
Proof.
  intros H. rewrite length_take_str in H. rewrite <-(take_drop_str n s) at 2.
  assert (drop_str n s = "") as ->; [|by rewrite app_nil_r_str].
  assert (String.length s < n)%nat as Hl by lia. clear H. revert s Hl.
  induction n as [|n IH]; intros [|c s] Hl; simpl in *; try done; [lia|apply IH; lia].
Qed.

(** A bounded read returns the whole content of a regular file that is
    not longer than the limit, even when the file grew after [Stat], and it
    never returns more than the limit. *)
Theorem ReadFileLimit_correct (open : result FileView) (max : Z) (b : string) :
  0 <= max < max_int64 ->
  ReadFileLimit open max = Ok b ->
  exists f, open = Ok f /\ f_regular f = true /\ b = f_bytes f /\
    Z.of_nat (String.length (f_bytes f)) <= max.
Proof.
  unfold ReadFileLimit. intros Hm H. ok_inv. bool_prop.
  rewrite int64_id in * by (unfold in_int64, max_int64, two63 in *; lia).
  exists a. split_and!; [done|done| |].
  - unfold read_limited in *. apply take_str_short. lia.
  - unfold read_limited in *. 
    match goal with H : Z.of_nat _ <= max |- _ => rewrite take_str_short in H by lia; lia end.
Qed.

Lemma ReadFileLimit_correct_witness :
  exists f, Ok (mkFileView true 2 "ok") = Ok f /\ f_regular f = true /\ "ok" = f_bytes f /\
    Z.of_nat (String.length (f_bytes f)) <= 4096.
Proof.
  apply (ReadFileLimit_correct (Ok (mkFileView true 2 "ok")) 4096 "ok").
  - unfold max_int64. lia.
  - vm_compute. reflexivity.
Defined.

(** Nesting depth after each token, and the bytes of string tokens. *)
Definition depth_of (t : token) : Z := match t with TOpen => 1 | TClose => -1 | _ => 0 end.
Definition depth_after (ts : list token) : Z := foldr Z.add 0 (depth_of <$> ts).
Definition string_bytes (ts : list token) : Z :=
  foldr Z.add 0 ((fun t => match t with TString s => Z.of_nat (String.length s) | _ => 0 end) <$> ts).

Lemma depth_after_app (a b : list token) : depth_after (a ++ b) = depth_after a + depth_after b.
Proof. unfold depth_after. rewrite fmap_app. induction (depth_of <$> a); simpl; lia. Qed.

Lemma string_bytes_cons (t : token) (ts : list token) :
  string_bytes (t :: ts) = string_bytes [t] + string_bytes ts.
Proof. unfold string_bytes. cbn. lia. Qed.

Lemma scan_token_ok (mt md ms : Z) (s s' : scan) (t : token) :
  scan_token mt md ms s t = Ok s' -> 0 <= sc_depth s <= md -> sc_strings s <= ms ->
  sc_complete s = false /\ sc_tokens s' = sc_tokens s + 1 /\ sc_tokens s' <= mt /\
  sc_strings s' = sc_strings s + string_bytes [t] /\ sc_strings s' <= ms /\
  sc_depth s' = sc_depth s + depth_of t /\ 0 <= sc_depth s' <= md /\
  (sc_complete s' = false -> 1 <= sc_depth s').
Proof.
  unfold scan_token. intros H Hd Hs. ok_inv. bool_prop.
  destruct t; ok_inv; bool_prop; unfold string_bytes; simpl; split_and!; try done; try lia;
    intros Hc; bool_prop; lia.
Qed.

Lemma scan_tokens_ok (mt md ms : Z) (l : list (result token)) (s : scan) :
  scan_tokens mt md ms s l = Ok tt ->
  sc_tokens s <= mt -> sc_strings s <= ms -> 0 <= sc_depth s <= md ->
  exists ts, l = Ok <$> ts /\ (ts <> [] -> sc_complete s = false) /\
    sc_tokens s + Z.of_nat (length ts) <= mt /\
    sc_strings s + string_bytes ts <= ms /\
    sc_depth s + depth_after ts = 0 /\
    forall pre post, ts = pre ++ post ->
      sc_depth s + depth_after pre <= md /\
      (pre <> [] -> post <> [] -> 1 <= sc_depth s + depth_after pre).
Proof.
  revert s. induction l as [|[t|e] l IH]; intros s H Ht Hs Hd; [| |done].
  - exists []. simpl in H. ok_inv. bool_prop. unfold depth_after, string_bytes. simpl.
    split_and!; try done; try lia. intros pre post Hp. symmetry in Hp.
    apply app_eq_nil in Hp as [-> ->]. simpl. split; [lia|done].
  - simpl in H. destruct (scan_token mt md ms s t) as [s'|] eqn:E; [|done].
    apply scan_token_ok in E as (Hc & Hn & Hn' & Hb & Hb' & Hdd & Hd' & Hcc); [|done..].
    destruct (IH s' H) as (ts & -> & Hne & Hl1 & Hl2 & Hl3 & Hl4); [lia..|].
    exists (t :: ts). split_and!; [done|done| | | |].
    + simpl length. lia.
    + rewrite string_bytes_cons. lia.
    + change (depth_after (t :: ts)) with (depth_of t + depth_after ts). lia.
    + intros [|x pre] post Hp; [unfold depth_after; simpl; split; [lia|done]|].
      injection Hp as <- Hp. specialize (Hl4 pre post Hp) as [Ha Hb2].
      change (depth_after (t :: pre)) with (depth_of t + depth_after pre).
      split; [lia|]. intros _ Hpost. destruct pre as [|y pre].
      * subst. specialize (Hcc (Hne Hpost)). unfold depth_after. simpl. lia.
      * specialize (Hb2 ltac:(done) Hpost). lia.
Qed.

(** JSON that passes the complexity check is one complete value within
    every budget: at most [maxTokens] tokens, at most [maxStringBytes] bytes of
    strings, a nesting depth between 1 and [maxDepth] strictly inside the
    value, and balanced at the end. *)
Theorem ValidateJSONComplexity_bounds (mt md ms : Z) (l : list (result token)) :
  ValidateJSONComplexity mt md ms l = Ok tt ->
  exists ts, l = Ok <$> ts /\ ts <> [] /\ Z.of_nat (length ts) <= mt /\ string_bytes ts <= ms /\
    depth_after ts = 0 /\
    forall pre post, ts = pre ++ post -> pre <> [] -> post <> [] -> 1 <= depth_after pre <= md.
Proof.
  unfold ValidateJSONComplexity. intros H. ok_inv. bool_prop.
  destruct (scan_tokens_ok mt md ms l scan0 H) as (ts & -> & _ & Ht & Hb & Hd & Hpp);
    [simpl; lia..|].
  exists ts. split_and!; [done| |simpl in *; lia..|].
  - intros ->. done.
  - intros pre post Hp Hpre Hpost. destruct (Hpp pre post Hp) as [Ha Hc]. specialize (Hc Hpre Hpost).
    simpl in *. lia.
Qed.

Lemma ValidateJSONComplexity_bounds_witness :
  exists ts, Ok <$> [TOpen; TString "a"; TScalar; TClose] = Ok <$> ts /\ ts <> [] /\
    Z.of_nat (length ts) <= 64 /\ string_bytes ts <= 4096 /\ depth_after ts = 0 /\
    forall pre post, ts = pre ++ post -> pre <> [] -> post <> [] -> 1 <= depth_after pre <= 8.
Proof.
  apply (ValidateJSONComplexity_bounds 64 8 4096 (Ok <$> [TOpen; TString "a"; TScalar; TClose])).
  vm_compute. reflexivity.
Defined.

(** A name that [Within] accepts is resolved strictly below the root: all
    its elements are plain entry names, so no element is [..] and none is
    empty. *)
Theorem Within_confined (lstat : string -> lstat_result) (root name full : string) :
  Within lstat root name = Ok full ->
  full = JoinPath [root; Clean name] /\ Forall plain_elem (clean_elems name) /\
  ContainsRune name "000" = false.
Proof.
  unfold Within. intros H. ok_inv. bool_prop. split_and!; [done| |done].
  apply Clean_confined; [|done|done].
  destruct (IsAbs name) eqn:Ha; [|done].
  destruct (Clean_cases name) as [[_ HC]|[(Hx & _)|(Hx & _)]]; [|congruence..].
  rewrite HC, IsAbs_root in *. done.
Qed.

Lemma Within_confined_witness :
  "/srv/root/a/b" = JoinPath ["/srv/root"; Clean "a/./b"] /\  Forall plain_elem (clean_elems "a/./b") /\ ContainsRune "a/./b" "000" = false.
Proof.
  apply (Within_confined (fun _ => LOther) "/srv/root" "a/./b" "/srv/root/a/b").
  vm_compute. reflexivity.
Defined.
