(* ===== verification/Fs.v ===== *)
(** * Fs: file operations and atomic replacement (internal/fsutil/files.go)

    The operating system's files, as the packages that keep caches on disk see
    them: a file is named by its directory and its name in it, and its content
    is a byte string.  Every call may fail with any error, a failing write may
    leave a prefix of its data, and the process may die in any call; a
    [Kernel] says what happens at each call.  [M] is the monad of Go code that
    makes such calls, and [triple] its program logic, with a postcondition for
    returning and one for dying. *)

From S2P Require Import Prelude GoLib Fsutil.
From stdpp Require Import pretty.
Import Strings.
Local Open Scope go_scope.

(** A directory and a name in it: [filepath.Join(dir, name)]. *)
Notation path := (string * string)%type (only parsing).
Notation disk := (gmap (string * string) string).

Inductive answer : Type :=
| Good
| Fault (e : error) (n : nat)   (* the call fails; a write has written [n] bytes *)
| Crash (n : nat).              (* the process dies in the call *)

Record Kernel : Type := mkKernel {
  k_answer : nat -> answer;     (* the outcome of the n-th call *)
  k_random : nat -> string      (* the suffix a [CreateTemp] settles on *)
}.

Record FS : Type := mkFS { fs_files : disk; fs_clock : nat }.

Inductive outcome (A : Type) : Type :=
| Ret (r : result A)
| Crashed.
Arguments Ret {A} r.
Arguments Crashed {A}.

Definition M (A : Type) : Type := FS -> outcome A * FS.

#[export] Instance M_ret : MRet M := fun A a s => (Ret (Ok a), s).
#[export] Instance M_bind : MBind M := fun A B k m s =>
  match m s with
  | (Ret (Ok a), s') => k a s'
  | (Ret (Err e), s') => (Ret (Err e), s')
  | (Crashed, s') => (Crashed, s')
  end.

(** [return v, e] *)
Definition lift {A : Type} (r : result A) : M A := fun s => (Ret r, s).

(** [r, e := m], the error kept in a variable. *)
Definition try {A : Type} (m : M A) : M (result A) := fun s =>
  match m s with
  | (Ret r, s') => (Ret (Ok r), s')
  | (Crashed, s') => (Crashed, s')
  end.

(** [defer d()] before [m]: the error of [d] is dropped, and it does not run
    when the process dies. *)
Definition defer {A : Type} (d : M unit) (m : M A) : M A := fun s =>
  match m s with
  | (Ret r, s') =>
      match d s' with
      | (Ret _, s'') => (Ret r, s'')
      | (Crashed, s'') => (Crashed, s'')
      end
  | (Crashed, s') => (Crashed, s')
  end.

(** [for _, x := range l { if e := f(x); e != nil { return e } }] *)
Fixpoint mapM_ {A : Type} (f : A -> M unit) (l : list A) : M unit :=
  match l with
  | [] => mret tt
  | x :: l => f x ;; mapM_ f l
  end.

(** A loop that threads a local variable. *)
Fixpoint foldM {A S : Type} (f : S -> A -> M S) (acc : S) (l : list A) : M S :=
  match l with
  | [] => mret acc
  | x :: l => acc' ← f acc x; foldM f acc' l
  end.

Definition ErrNotExist : error := Errorf "file does not exist".
Definition ErrExists : error := Errorf "file exists".

Section Calls.
Variable K : Kernel.

(** One call: its effect when it succeeds, and what it leaves when it does
    not. *)
Definition os {A : Type} (f : nat -> disk -> result A * disk) (partial : nat -> disk -> disk) : M A :=
  fun s =>
    let t := fs_clock s in
    match k_answer K t with
    | Good => let '(r, d) := f t (fs_files s) in (Ret r, mkFS d (S t))
    | Fault e n => (Ret (Err e), mkFS (partial n (fs_files s)) (S t))
    | Crash n => (Crashed, mkFS (partial n (fs_files s)) (S t))
    end.

Definition untouched (_ : nat) (d : disk) : disk := d.

(** Calls that leave the files as they are: [MkdirAll], [Chmod], [Sync],
    [Close], opening a directory. *)
Definition nop : M unit := os (fun _ d => (Ok tt, d)) untouched.

Definition CreateTemp (dir prefix : string) : M path :=
  os (fun t d =>
        let p := (dir, prefix +:+ k_random K t) in
        match d !! p with
        | Some _ => (Err ErrExists, d)
        | None => (Ok p, <[p := ""]> d)
        end) untouched.

Definition append_file (p : path) (data : string) (d : disk) : disk :=
  <[p := default "" (d !! p) +:+ data]> d.

Definition WriteData (p : path) (data : string) : M unit :=
  os (fun _ d => (Ok tt, append_file p data d)) (fun n d => append_file p (take_str n data) d).

Definition Rename (a b : path) : M unit :=
  os (fun _ d =>
        match d !! a with
        | Some c => (Ok tt, <[b := c]> (delete a d))
        | None => (Err ErrNotExist, d)
        end) untouched.

Definition Unlink (p : path) : M unit :=
  os (fun _ d =>
        match d !! p with
        | Some _ => (Ok tt, delete p d)
        | None => (Err ErrNotExist, d)
        end) untouched.

Definition Link (a b : path) : M unit :=
  os (fun _ d =>
        match d !! a, d !! b with
        | None, _ => (Err ErrNotExist, d)
        | Some _, Some _ => (Err ErrExists, d)
        | Some c, None => (Ok tt, <[b := c]> d)
        end) untouched.

Definition ReadData (p : path) : M string :=
  os (fun _ d => (match d !! p with Some c => Ok c | None => Err ErrNotExist end, d)) untouched.

(** [os.ReadDir] sorts the entries by name. *)
Definition name_le (a b : string) : Prop := Is_true (String.leb a b).
#[global] Instance name_le_dec : RelDecision name_le.
Proof. intros a b. unfold name_le. apply _. Defined.

Definition names_in (dir : string) (d : disk) : list string :=
  omap (fun x => if bool_decide (fst (fst x) = dir) then Some (snd (fst x)) else None)
       (map_to_list d).

Definition ReadDir (dir : string) : M (list string) :=
  os (fun _ d => (Ok (merge_sort name_le (names_in dir d)), d)) untouched.

(** What a reader yields: bytes, then end of file or an error. *)
Record Stream : Type := mkStream { st_data : string; st_error : option error }.

(** [io.Copy(f, io.LimitReader(r, limit))] *)
Definition Copy (p : path) (r : Stream) (limit : Z) : M Z :=
  let data := take_str (Z.to_nat limit) (st_data r) in
  WriteData p data ;;
  match st_error r with
  | Some e => if (Z.of_nat (String.length data) <? limit)%Z then lift (Err e)
              else mret (Z.of_nat (String.length data))
  | None => mret (Z.of_nat (String.length data))
  end.

(** [Atomic] *)
Definition Atomic (p : path) (data : string) : M unit :=
  nop ;;
  tmp ← CreateTemp (fst p) ".pending-";
  defer (Unlink tmp)
    (e ← try (nop ;; WriteData tmp data ;; nop);
     ce ← try nop;
     lift e ;;
     lift ce ;;
     Rename tmp p ;;
     nop ;;
     defer nop nop).

(** [DigestFile]: the digest and the length of a file. *)
Definition DigestFile (hash : string -> string) (p : path) : M (string * Z) :=
  c ← ReadData p;
  mret (hash c, Z.of_nat (String.length c)).

(** [JSON] and [ReadJSON] for one type of values. *)
Section Encoded.
Context {A : Type} (marshal : A -> result string) (unmarshal : string -> result A).

Definition JSON (p : path) (v : A) : M unit :=
  b ← lift (marshal v);
  Atomic p b.

Definition ReadJSON (p : path) : M A :=
  b ← ReadData p;
  lift (unmarshal b).
End Encoded.
End Calls.

(** ** Program logic *)

Definition triple {A : Type} (P : disk -> Prop) (m : M A) (Q : result A -> disk -> Prop)
    (C : disk -> Prop) : Prop :=
  forall s, P (fs_files s) ->
    match m s with
    | (Ret r, s') => Q r (fs_files s')
    | (Crashed, s') => C (fs_files s')
    end.

Lemma triple_conseq {A : Type} (P P' : disk -> Prop) (m : M A) (Q Q' : result A -> disk -> Prop)
    (C C' : disk -> Prop) :
  triple P' m Q' C' -> (forall d, P d -> P' d) -> (forall r d, Q' r d -> Q r d) ->
  (forall d, C' d -> C d) -> triple P m Q C.
Proof.
  intros H HP HQ HC s Hs. specialize (H s (HP _ Hs)). destruct (m s) as [[r|] s']; auto.
Qed.

Lemma triple_weaken {A : Type} (P : disk -> Prop) (m : M A) (Q Q' : result A -> disk -> Prop)
    (C C' : disk -> Prop) :
  triple P m Q' C' -> (forall r d, Q' r d -> Q r d) -> (forall d, C' d -> C d) -> triple P m Q C.
Proof. intros H HQ HC. by eapply triple_conseq. Qed.

(** The initial files named. *)
Lemma triple_from {A : Type} (P : disk -> Prop) (m : M A) (Q : result A -> disk -> Prop) (C : disk -> Prop) :
  (forall d0, P d0 -> triple (fun d => d = d0) m Q C) -> triple P m Q C.
Proof. intros H s Hs. by apply (H (fs_files s) Hs s). Qed.

Lemma triple_exists {A X : Type} (P : X -> disk -> Prop) (m : M A) (Q : result A -> disk -> Prop)
    (C : disk -> Prop) :
  (forall x, triple (P x) m Q C) -> triple (fun d => exists x, P x d) m Q C.
Proof. intros H s [x Hx]. by apply (H x). Qed.

Lemma triple_pure {A : Type} (phi : Prop) (P : disk -> Prop) (m : M A) (Q : result A -> disk -> Prop)
    (C : disk -> Prop) :
  (phi -> triple P m Q C) -> triple (fun d => phi /\ P d) m Q C.
Proof. intros H s [Hp Hx]. by apply (H Hp). Qed.

Lemma triple_ret {A : Type} (a : A) (Q : result A -> disk -> Prop) (C : disk -> Prop) :
  triple (Q (Ok a)) (mret a) Q C.
Proof. intros s H. exact H. Qed.

Lemma triple_lift {A : Type} (r : result A) (Q : result A -> disk -> Prop) (C : disk -> Prop) :
  triple (Q r) (lift r) Q C.
Proof. intros s H. exact H. Qed.

Lemma triple_bind {A B : Type} (P : disk -> Prop) (m : M A) (k : A -> M B) (R : A -> disk -> Prop)
    (Q : result B -> disk -> Prop) (C : disk -> Prop) :
  triple P m (fun r d => match r with Ok a => R a d | Err e => Q (Err e) d end) C ->
  (forall a, triple (R a) (k a) Q C) ->
  triple P (m ≫= k) Q C.
Proof.
  intros Hm Hk s Hs. specialize (Hm s Hs). unfold mbind, M_bind.
  destruct (m s) as [[[a|e]|] s']; [|done|done]. by apply Hk.
Qed.

Lemma triple_try {A : Type} (P : disk -> Prop) (m : M A) (Q : result (result A) -> disk -> Prop)
    (C : disk -> Prop) :
  triple P m (fun r => Q (Ok r)) C -> triple P (try m) Q C.
Proof. intros H s Hs. specialize (H s Hs). unfold try. by destruct (m s) as [[r|] s']. Qed.

Lemma triple_defer {A : Type} (P : disk -> Prop) (c : M unit) (m : M A) (R Q : result A -> disk -> Prop)
    (C : disk -> Prop) :
  triple P m R C -> (forall r, triple (R r) c (fun _ => Q r) C) ->
  triple P (defer c m) Q C.
Proof.
  intros Hm Hc s Hs. specialize (Hm s Hs). unfold defer.
  destruct (m s) as [[r|] s']; [|done]. specialize (Hc r s' Hm). by destruct (c s') as [[?|] ?].
Qed.

Lemma triple_call {A : Type} (K : Kernel) (f : nat -> disk -> result A * disk) (partial : nat -> disk -> disk)
    (P : disk -> Prop) (Q : result A -> disk -> Prop) (C : disk -> Prop) :
  (forall t d, P d -> Q (fst (f t d)) (snd (f t d))) ->
  (forall t d e n, k_answer K t = Fault e n -> P d -> Q (Err e) (partial n d)) ->
  (forall d n, P d -> C (partial n d)) ->
  triple P (os K f partial) Q C.
Proof.
  intros Hf He Hc s Hs. unfold os.
  destruct (k_answer K (fs_clock s)) eqn:E; simpl; [|by eapply He|by apply Hc].
  specialize (Hf (fs_clock s) _ Hs). by destruct (f _ _).
Qed.

Lemma triple_os {A : Type} (K : Kernel) (f : nat -> disk -> result A * disk) (partial : nat -> disk -> disk)
    (P : disk -> Prop) (Q : result A -> disk -> Prop) (C : disk -> Prop) :
  (forall t d, P d -> Q (fst (f t d)) (snd (f t d))) ->
  (forall d e n, P d -> Q (Err e) (partial n d)) ->
  (forall d n, P d -> C (partial n d)) ->
  triple P (os K f partial) Q C.
Proof. intros Hf He Hc. apply triple_call; eauto. Qed.

(** A loop over indexed elements; [I i] holds before the i-th iteration. *)
Lemma triple_foldM {A B S : Type} (g : nat -> A -> B) (I : nat -> S -> disk -> Prop) (f : S -> B -> M S)
    (acc : S) (l : list A) (Q : result S -> disk -> Prop) (C : disk -> Prop) :
  (forall i acc x, l !! i = Some x ->
     triple (I i acc) (f acc (g i x))
       (fun r d => match r with Ok a => I (Datatypes.S i) a d | Err e => Q (Err e) d end) C) ->
  (forall acc d, I (length l) acc d -> Q (Ok acc) d) ->
  triple (I O acc) (foldM f acc (imap g l)) Q C.
Proof.
  revert g I acc. induction l as [|x l IH]; intros g I acc Hf HQ; simpl.
  - intros s Hs. by apply HQ.
  - eapply triple_bind; [by apply (Hf O)|]. intros a. simpl.
    apply (IH (g ∘ Datatypes.S) (I ∘ Datatypes.S)); [|done]. intros i b y Hy. by apply (Hf (Datatypes.S i)).
Qed.

(** The elements of a list in order. *)
Lemma triple_foldM_list {A S : Type} (I : nat -> S -> disk -> Prop) (f : S -> A -> M S)
    (acc : S) (l : list A) (Q : result S -> disk -> Prop) (C : disk -> Prop) :
  (forall i acc x, l !! i = Some x ->
     triple (I i acc) (f acc x)
       (fun r d => match r with Ok a => I (Datatypes.S i) a d | Err e => Q (Err e) d end) C) ->
  (forall acc d, I (length l) acc d -> Q (Ok acc) d) ->
  triple (I O acc) (foldM f acc l) Q C.
Proof.
  intros Hf HQ. assert (l = imap (fun _ x => x) l) as E.
  { clear. induction l as [|x l IH]; simpl; [done|]. f_equal. exact IH. }
  rewrite E. by apply (triple_foldM (fun _ x => x) I).
Qed.

(** [for range] over effects only; [I i] holds before the i-th iteration. *)
Lemma triple_mapM_ {A : Type} (I : nat -> disk -> Prop) (f : A -> M unit) (l : list A)
    (Q : result unit -> disk -> Prop) (C : disk -> Prop) :
  (forall i x, l !! i = Some x ->
     triple (I i) (f x) (fun r d => match r with Ok _ => I (S i) d | Err e => Q (Err e) d end) C) ->
  (forall d, I (length l) d -> Q (Ok tt) d) ->
  triple (I O) (mapM_ f l) Q C.
Proof.
  revert I. induction l as [|x l IH]; intros I Hf HQ; simpl.
  - intros s Hs. by apply HQ.
  - apply (triple_bind _ _ _ (fun _ => I 1%nat)); [by apply (Hf O)|]. intros _.
    apply (IH (I ∘ S)); [|done]. intros i y Hy. by apply (Hf (S i)).
Qed.

(** No fault is reported as a missing file. *)
Definition honest (K : Kernel) : Prop := forall t e n, k_answer K t = Fault e n -> e <> ErrNotExist.

Lemma triple_Unlink (K : Kernel) (p : path) (d0 : disk) :
  triple (fun d => d = d0) (Unlink K p)
    (fun r d => match r with
                | Ok _ => d = delete p d0
                | Err e => d = d0 /\ (honest K -> e = ErrNotExist -> d0 !! p = None)
                end) (fun d => d = d0).
Proof.
  apply triple_call; [|intros t d e n He ->; split; [done|]; intros Hh Hn; by destruct (Hh _ _ _ He)|done].
  intros _ d ->. by destruct (d0 !! p) eqn:E.
Qed.

Lemma elem_of_names_in (dir n : string) (d : disk) : n ∈ names_in dir d <-> is_Some (d !! (dir, n)).
Proof.
  unfold names_in. rewrite list_elem_of_omap. split.
  - intros ([[dir' n'] c] & Hin & H). simpl in H. case_bool_decide; simplify_eq.
    apply elem_of_map_to_list in Hin. by exists c.
  - intros [c Hc]. exists (dir, n, c). split; [by apply elem_of_map_to_list|]. simpl.
    by rewrite bool_decide_eq_true_2.
Qed.

Lemma triple_ReadDir (K : Kernel) (dir : string) (d0 : disk) :
  triple (fun d => d = d0) (ReadDir K dir)
    (fun r d => d = d0 /\ forall names, r = Ok names -> forall n, n ∈ names <-> is_Some (d0 !! (dir, n)))
    (fun d => d = d0).
Proof.
  apply triple_os; [|done|done]. intros _ d ->. split; [done|]. intros names [= <-] n.
  by rewrite merge_sort_Permutation, elem_of_names_in.
Qed.

Lemma triple_nop (K : Kernel) (P : disk -> Prop) : triple P (nop K) (fun _ => P) P.
Proof. by apply triple_os. Qed.

Lemma triple_nop' (K : Kernel) (P : disk -> Prop) (Q : result unit -> disk -> Prop) (C : disk -> Prop) :
  (forall r d, P d -> Q r d) -> (forall d, P d -> C d) -> triple P (nop K) Q C.
Proof. intros HQ HC. eapply triple_conseq; [apply (triple_nop K P)|auto..]. Qed.

Lemma triple_nop_seq {A : Type} (K : Kernel) (P : disk -> Prop) (k : M A) (Q : result A -> disk -> Prop)
    (C : disk -> Prop) :
  (forall e d, P d -> Q (Err e) d) -> (forall d, P d -> C d) ->
  triple P k Q C -> triple P (nop K ;; k) Q C.
Proof.
  intros HQ HC Hk. apply (triple_bind P _ _ (fun _ => P)); [|by intros _].
  apply triple_nop'; [|done]. intros [?|?]; auto.
Qed.

Lemma triple_lift_seq {A B : Type} (P : disk -> Prop) (r : result A) (k : A -> M B)
    (Q : result B -> disk -> Prop) (C : disk -> Prop) :
  (forall e d, r = Err e -> P d -> Q (Err e) d) -> (forall a, r = Ok a -> triple P (k a) Q C) ->
  triple P (lift r ≫= k) Q C.
Proof. intros He Hk s Hs. destruct r; unfold mbind, M_bind; simpl; [by apply Hk|by apply He]. Qed.

Lemma triple_or {A : Type} (P P' : disk -> Prop) (m : M A) (Q : result A -> disk -> Prop) (C : disk -> Prop) :
  triple P m Q C -> triple P' m Q C -> triple (fun d => P d \/ P' d) m Q C.
Proof. intros H H' s [Hs|Hs]; [by apply H|by apply H']. Qed.

Lemma triple_ReadData (K : Kernel) (d0 : disk) (p : path) :
  triple (fun d => d = d0) (ReadData K p)
    (fun r d => d = d0 /\ forall c, r = Ok c -> d0 !! p = Some c) (fun d => d = d0).
Proof.
  apply triple_os; [|done|done]. intros _ d ->. simpl. split; [done|].
  destruct (d0 !! p); naive_solver.
Qed.

Lemma triple_ReadJSON {A : Type} (K : Kernel) (unmarshal : string -> result A) (d0 : disk) (p : path) :
  triple (fun d => d = d0) (ReadJSON K unmarshal p)
    (fun r d => d = d0 /\ forall v, r = Ok v -> exists c, d0 !! p = Some c /\ unmarshal c = Ok v)
    (fun d => d = d0).
Proof.
  unfold ReadJSON. apply (triple_bind _ _ _ (fun c d => d0 !! p = Some c /\ d = d0)).
  - eapply triple_weaken; [apply triple_ReadData| |done]. intros [c|e] d [-> H]; [auto|done].
  - intros c. apply triple_pure. intros Hc s Hs. simpl. rewrite Hs. split; [done|]. eauto.
Qed.

(** ** Temporary files *)

(** [q] is a name [CreateTemp dir prefix] can pick. *)
Definition is_temp (dir prefix : string) (q : path) : Prop :=
  fst q = dir /\ HasPrefix (snd q) prefix = true.

(** The files of [d0] and one temporary file that was not there. *)
Definition with_temp (dir prefix : string) (d0 d : disk) : Prop :=
  exists t c, is_temp dir prefix t /\ d0 !! t = None /\ d = <[t := c]> d0.

Lemma triple_CreateTemp (K : Kernel) (dir prefix : string) (d0 : disk) :
  triple (fun d => d = d0) (CreateTemp K dir prefix)
    (fun r d => match r with
                | Ok t => is_temp dir prefix t /\ d0 !! t = None /\ d = <[t := ""]> d0
                | Err _ => d = d0
                end) (fun d => d = d0).
Proof.
  apply triple_os; [|done|done]. intros t d ->.
  cbv zeta. destruct (d0 !! (dir, prefix +:+ k_random K t)) eqn:E; simpl; [done|].
  split_and!; [split; [done|apply HasPrefix_app]|done|done].
Qed.

Lemma triple_WriteTemp (K : Kernel) (t : path) (data : string) (d0 : disk) :
  triple (fun d => d = <[t := ""]> d0) (WriteData K t data)
    (fun r d => match r with
                | Ok _ => d = <[t := data]> d0
                | Err _ => exists c, d = <[t := c]> d0
                end) (fun d => exists c, d = <[t := c]> d0).
Proof.
  apply triple_os; [intros _ d ->|intros d e n ->|intros d n ->]; unfold append_file; simpl;
    rewrite lookup_insert_eq, insert_insert_eq; simpl; eauto.
Qed.

(** Removing a temporary file that may be gone already. *)
Lemma triple_UnlinkTemp (K : Kernel) (dir prefix : string) (t : path) (d0 : disk) :
  is_temp dir prefix t -> d0 !! t = None ->
  triple (fun d => exists c, d = <[t := c]> d0) (Unlink K t)
    (fun _ d => d = d0 \/ with_temp dir prefix d0 d) (fun d => d = d0 \/ with_temp dir prefix d0 d).
Proof.
  intros Ht Hn. apply triple_os; [intros _ d [c ->]|intros d e n [c ->]|intros d n [c ->]];
    unfold untouched; [|right; by exists t, c..].
  rewrite lookup_insert_eq. left. simpl. by rewrite delete_insert_id.
Qed.

Lemma triple_UnlinkGone (K : Kernel) (t : path) (d0 : disk) :
  d0 !! t = None ->
  triple (fun d => d = d0) (Unlink K t) (fun _ d => d = d0) (fun d => d = d0).
Proof. intros Hn. apply triple_os; [|done|done]. intros _ d ->. by rewrite Hn. Qed.

Lemma triple_RenameTemp (K : Kernel) (t p : path) (c : string) (d0 : disk) :
  d0 !! t = None ->
  triple (fun d => d = <[t := c]> d0) (Rename K t p)
    (fun r d => match r with Ok _ => d = <[p := c]> d0 | Err _ => d = <[t := c]> d0 end)
    (fun d => d = <[t := c]> d0).
Proof.
  intros Hn. apply triple_os; [|done|done]. intros _ d ->. rewrite lookup_insert_eq. simpl.
  by rewrite delete_insert_id.
Qed.

Lemma temp_other (dir prefix : string) (t p : path) :
  is_temp dir prefix t -> HasPrefix (snd p) prefix = false -> t <> p.
Proof. intros [_ H] Hp ->. congruence. Qed.

(** What replacing [p] by [data] through a temporary file leaves when it
    does not succeed. *)
Definition replaced (prefix : string) (p : path) (data : string) (d0 d : disk) : Prop :=
  d = d0 \/ d = <[p := data]> d0 \/ with_temp (fst p) prefix d0 d.

Lemma triple_Atomic (K : Kernel) (p : path) (data : string) (d0 : disk) :
  HasPrefix (snd p) ".pending-" = false ->
  triple (fun d => d = d0) (Atomic K p data)
    (fun r d => match r with
                | Ok _ => d = <[p := data]> d0
                | Err _ => replaced ".pending-" p data d0 d
                end) (replaced ".pending-" p data d0).
Proof.
  intros Hp. unfold Atomic, replaced.
  apply triple_nop_seq; [auto..|].
  eapply triple_bind.
  { eapply triple_conseq; [apply (triple_CreateTemp K (fst p) ".pending-" d0)|done| |auto].
    intros [t|e] d H; [exact H|by left]. }
  intros t. apply triple_pure. intros Ht. apply triple_pure. intros Hn.
  pose proof (temp_other _ _ _ _ Ht Hp) as Htp.
  assert (forall c, with_temp (fst p) ".pending-" d0 (<[t := c]> d0)) as HT by (intros c; by exists t, c).
  apply (triple_defer _ _ _ (fun r d => match r with
    | Ok _ => d = <[p := data]> d0
    | Err _ => d = <[p := data]> d0 \/ exists c, d = <[t := c]> d0 end)).
  - apply (triple_bind _ _ _ (fun e d => match e with
      | Ok _ => d = <[t := data]> d0 | Err _ => exists c, d = <[t := c]> d0 end)).
    { apply triple_try, triple_nop_seq; [eauto|intros d ->; auto|].
      eapply triple_bind with (R := fun _ d => d = <[t := data]> d0).
      { eapply triple_conseq; [apply (triple_WriteTemp K t data d0)|auto| |intros d [c ->]; auto]. by intros [u|e]. }
      intros u. apply triple_nop'; [intros [?|?]; eauto|intros d ->; auto]. }
    intros e. apply (triple_bind _ _ _ (fun _ d => match e with
      | Ok _ => d = <[t := data]> d0 | Err _ => exists c, d = <[t := c]> d0 end)).
    { apply triple_try, triple_nop'; [auto|]. destruct e; [intros d ->|intros d [c ->]]; auto. }
    intros ce. apply triple_lift_seq; [intros e' d ->; auto|intros _ ->].
    apply triple_lift_seq; [eauto|intros _ _].
    eapply triple_bind with (R := fun _ d => d = <[p := data]> d0).
    { eapply triple_conseq; [by apply (triple_RenameTemp K t p data d0)|done| |intros d ->; auto].
      intros [u|e] d H; eauto. }
    intros _. apply triple_nop_seq; [auto..|].
    eapply triple_defer; [apply (triple_nop' K _ (fun _ d => d = <[p := data]> d0)); auto|].
    intros r. apply triple_nop'; [|auto]. intros _ d ->. destruct r; auto.
  - intros [u|e].
    + eapply triple_conseq; [apply (triple_UnlinkGone K t (<[p := data]> d0)); by rewrite lookup_insert_ne|auto..].
    + apply triple_or.
      * eapply triple_conseq; [apply (triple_UnlinkGone K t (<[p := data]> d0)); by rewrite lookup_insert_ne|auto..].
      * eapply triple_conseq; [by apply (triple_UnlinkTemp K (fst p) ".pending-" t d0)|done|..]; naive_solver.
Qed.

(** C36. Replacing a file is atomic, whatever fails and whenever the process
    dies: the file has its old content or all of the new one, every other file
    that was there is untouched, and only a temporary file can be left over.
    Success means the new content is in place and nothing else changed, and a
    fault-free run succeeds. *)
Theorem Atomic_correct (K : Kernel) (p : path) (data : string) (s s' : FS) (o : outcome unit) :
  HasPrefix (snd p) ".pending-" = false ->
  Atomic K p data s = (o, s') ->
  (fs_files s' !! p = fs_files s !! p \/ fs_files s' !! p = Some data) /\
  (forall q c, q <> p -> fs_files s !! q = Some c -> fs_files s' !! q = Some c) /\
  (forall q c, q <> p -> fs_files s !! q = None -> fs_files s' !! q = Some c ->
     is_temp (fst p) ".pending-" q) /\
  (o = Ret (Ok tt) -> fs_files s' = <[p := data]> (fs_files s)) /\
  ((forall t, k_answer K t = Good) ->
   fs_files s !! (fst p, ".pending-" +:+ k_random K (S (fs_clock s))) = None -> o = Ret (Ok tt)).
Proof.
  intros Hp E. pose proof (triple_Atomic K p data (fs_files s) Hp s eq_refl) as H. rewrite E in H.
  assert (replaced ".pending-" p data (fs_files s) (fs_files s')) as HR.
  { destruct o as [[[]|e]|]; [by right; left|done|done]. }
  split_and!.
  - destruct HR as [->|[->|(t & c & Ht & Hn & ->)]]; [auto|rewrite lookup_insert_eq; auto|].
    rewrite lookup_insert_ne; [auto|by eapply temp_other].
  - intros q c Hq Hc. destruct HR as [->|[->|(t & c' & Ht & Hn & ->)]]; [done| |];
      rewrite lookup_insert_ne; congruence.
  - intros q c Hq Hn Hc. destruct HR as [Hd|[Hd|(t & c' & Ht & Hn' & Hd)]]; rewrite Hd in Hc; [congruence| |].
    + rewrite lookup_insert_ne in Hc; congruence.
    + apply lookup_insert_Some in Hc as [[<- _]|[_ ?]]; [done|congruence].
  - intros ->. exact H.
  - intros HG Hf. unfold Atomic, mbind, M_bind, nop, CreateTemp, WriteData, Rename, Unlink, defer, try, lift, os in E.
    repeat (rewrite HG in E; simpl in E). rewrite Hf in E. simpl in E.
    repeat (rewrite HG in E; simpl in E). unfold append_file in E.
    rewrite lookup_insert_eq, insert_insert_eq, lookup_insert_eq in E. simpl in E.
    repeat (rewrite HG in E; simpl in E). by destruct (_ !! _) in E; injection E as <- _.
Qed.

Definition calm : Kernel := mkKernel (fun _ => Good) (fun t => pretty t).

Lemma Atomic_correct_witness :
  fs_files (snd (Atomic calm ("d", "f") "new" (mkFS {[("d", "f") := "old"]} 0))) !! ("d", "f") = Some "new".
Proof.
  destruct (Atomic_correct calm ("d", "f") "new" (mkFS {[("d", "f") := "old"]} 0)
    (snd (Atomic calm ("d", "f") "new" (mkFS {[("d", "f") := "old"]} 0)))
    (fst (Atomic calm ("d", "f") "new" (mkFS {[("d", "f") := "old"]} 0))))
    as (_ & _ & _ & Hok & Hgood).
  - reflexivity.
  - apply surjective_pairing.
  - rewrite Hok; [apply lookup_insert_eq|]. apply Hgood; [reflexivity|vm_compute; reflexivity].
Defined.
