(* ===== verification/Filecopy.v ===== *)
(** * Filecopy: confined archives (internal/filecopy/copy.go)

    Copying files in and out of a sandbox goes through a tar stream that is
    extracted below an open directory without following symbolic links.  The
    directory is a finite map from element lists to nodes; [openat2] with
    [RESOLVE_IN_ROOT] and [RESOLVE_NO_SYMLINKS], [mkdirat] and [openat] with
    [O_NOFOLLOW] are given by what they do to that map, and each call may fail.
    The tar codec is taken as the identity on the list of entries. *)

From S2P Require Import Prelude GoLib.
Import Strings Path.
Local Open Scope Z_scope.
Local Open Scope go_scope.

Definition MaxBytes : Z := 536870912.          (* 512 << 20 *)
Definition max_entries : Z := 10000.
Definition max_stream : Z := MaxBytes + 16777216 + 1.   (* the [LimitedReader] *)

(** ** Path strings *)

(** [clean] *)
Definition clean (s : string) : result string :=
  let s := Clean (TrimPrefix s "/") in
  if bool_decide (s = "..") || HasPrefix s "../" || ContainsRune s "000"
  then Err (Errorf "copy path escapes root") else Ok s.

(** [rootRelative] on the absolute form of a name. *)
Definition rootRelative (abs : string) : string :=
  let rel := TrimPrefix abs "/" in if bool_decide (rel = "") then "." else rel.

(** A cleaned path, from its elements. *)
Definition path_of (abs : bool) (l : list string) : string :=
  if abs then "/" +:+ Join l slash else match l with [] => "." | _ => Join l slash end.

Definition parts (p : string) : list string :=
  filter (fun c => c <> "" /\ c <> ".") (Split p slash).

Lemma plain_no_slash (l : list string) :
  Forall plain_elem l -> Forall (fun x => ContainsRune x slash = false) l.
Proof. intros H. eapply Forall_impl; [exact H|]. by intros x (_ & _ & _ & ?). Qed.

Lemma Split_app_gen (s t : string) (c : ascii) : Split (s +:+ String c t) c = Split s c ++ Split t c.
Proof.
  induction s as [|d s IH].
  - rewrite app_nil_l_str. simpl. by rewrite bool_decide_eq_true_2.
  - rewrite app_cons_str. simpl. rewrite IH. case_bool_decide; [done|].
    pose proof (Split_ne s c). by destruct (Split s c).
Qed.

Lemma Split_path_of (a : bool) (l : list string) :
  Forall plain_elem l ->
  Split (path_of a l) slash = (if a then [""] else []) ++ match l with [] => [if a then "" else "."] | _ => l end.
Proof.
  intros Hl. pose proof (plain_no_slash l Hl) as Hn. unfold path_of. destruct a.
  - change ("/" +:+ Join l slash) with ("" +:+ String slash (Join l slash)). rewrite Split_app_gen. simpl.
    destruct l as [|x l]; [done|]. by rewrite Split_Join.
  - destruct l as [|x l]; [done|]. simpl app. by rewrite Split_Join.
Qed.

Lemma parts_path_of (a : bool) (l : list string) : Forall plain_elem l -> parts (path_of a l) = l.
Proof.
  intros Hl. unfold parts. rewrite Split_path_of by done.
  assert (filter (fun c => c <> "" /\ c <> ".") l = l) as E.
  { clear a. induction Hl as [|x l (H1 & H2 & _) Hl IH]; [done|]. rewrite filter_cons_True by done. by rewrite IH. }
  by destruct a, l as [|x l].
Qed.

Lemma fold_clean_path_of (r a : bool) (l st : list string) :
  Forall plain_elem l -> fold_left (clean_step r) (Split (path_of a l) slash) st = rev l ++ st.
Proof.
  intros Hl. rewrite Split_path_of by done. rewrite fold_left_app.
  assert (fold_left (clean_step r) (if a then [""] else []) st = st) as -> by by destruct a.
  destruct l as [|x l]; [by destruct a|]. by rewrite fold_clean_plain.
Qed.

Lemma IsAbs_path_of (a : bool) (l : list string) (t : string) :
  Forall plain_elem l -> IsAbs (path_of a l +:+ t) = a.
Proof.
  intros Hl. unfold path_of. destruct a; [by rewrite app_assoc_str, IsAbs_root|].
  destruct l as [|x [|y l]]; [done| |].
  - apply Forall_cons in Hl as [(H1 & _ & _ & H2) _]. by apply IsAbs_atom.
  - apply Forall_cons in Hl as [(H1 & _ & _ & H2) _]. rewrite Join_cons, app_assoc_str by done. by apply IsAbs_atom.
Qed.

Lemma path_of_ne (a : bool) (l : list string) : Forall plain_elem l -> path_of a l <> "".
Proof.
  intros Hl. unfold path_of. destruct a; [done|]. destruct l as [|x l]; [done|]. intros E.
  apply Join_nil in E; [done|]. eapply Forall_impl; [exact Hl|]. by intros y (? & _).
Qed.

Lemma Clean_stack (p : string) (a : bool) (l : list string) :
  IsAbs p = a -> clean_stack p = rev l -> Forall plain_elem l -> Clean p = path_of a l.
Proof.
  intros Ha Hs Hl. unfold Clean, path_of. rewrite Ha, Hs, rev_involutive. destruct a; [done|].
  destruct l as [|x l]; [done|]. rewrite bool_decide_eq_false_2; [done|]. exact (path_of_ne false (x :: l) Hl).
Qed.

(** [path.Join] of a cleaned path and a cleaned relative path. *)
Lemma JoinPath_path_of (a : bool) (l m : list string) :
  Forall plain_elem l -> Forall plain_elem m ->
  JoinPath [path_of a l; path_of false m] = path_of a (l ++ m).
Proof.
  intros Hl Hm. unfold JoinPath.
  rewrite filter_cons_True by by apply path_of_ne. rewrite filter_cons_True by by apply path_of_ne.
  rewrite filter_nil. rewrite Join_cons by done. change (Join [path_of false m] slash) with (path_of false m). apply Clean_stack.
  - by apply IsAbs_path_of.
  - unfold clean_stack. rewrite Split_app_gen, fold_left_app, fold_clean_path_of, fold_clean_path_of by done.
    by rewrite app_nil_r, rev_app_distr.
  - by apply Forall_app.
Qed.

(** [path.Dir] of a cleaned path. *)
Lemma Dir_path_of (a : bool) (l : list string) (x : string) :
  Forall plain_elem l -> plain_elem x -> Dir (path_of a (l ++ [x])) = path_of a l.
Proof.
  intros Hl Hx. unfold Dir.
  assert (Forall plain_elem (l ++ [x])) as Hlx by (apply Forall_app; auto).
  rewrite Split_path_of by done.
  assert (match l ++ [x] with [] => [if a then "" else "."] | _ => l ++ [x] end = l ++ [x]) as -> by by destruct l.
  rewrite app_assoc, rev_app_distr. simpl.
  assert (forall front, front <> [] -> (match front with [] => "." | _ :: _ => Clean (Join (rev front) slash +:+ "/") end) =
    Clean (Join (rev front) slash +:+ "/")) as Hm by (by intros [|]).
  destruct a.
  - rewrite Hm by (rewrite rev_app_distr; simpl; intros E; by apply app_eq_nil in E as [_ ?]).
    rewrite rev_involutive. simpl app.
    assert (Join ("" :: l) slash +:+ "/" = path_of true l +:+ "/" \/ l = []) as HJ.
    { destruct l as [|y l]; [by right|]. left. done. }
    destruct HJ as [->| ->]; [|done]. apply Clean_stack; [by apply IsAbs_path_of| |done].
    unfold clean_stack. change "/" with (String slash "").
    rewrite Split_app_gen, fold_left_app, fold_clean_path_of by done. by rewrite app_nil_r.
  - simpl app. destruct l as [|y l]; [done|]. rewrite Hm by (simpl; intros E; by apply app_eq_nil in E as [_ ?]).
    rewrite rev_involutive. change (Join (y :: l) slash) with (path_of false (y :: l)).
    apply Clean_stack; [by apply IsAbs_path_of| |done].
    unfold clean_stack. change "/" with (String slash "").
    rewrite Split_app_gen, fold_left_app, fold_clean_path_of by done. by rewrite app_nil_r.
Qed.

(** What [clean] accepts is a path of plain elements. *)
Lemma clean_ok (s p : string) :
  clean s = Ok p ->
  exists a l, p = path_of a l /\ Forall plain_elem l /\ (HasPrefix s "/" = false -> a = false).
Proof.
  unfold clean. intros H. ok_inv. bool_prop. set (t := TrimPrefix s "/") in *.
  destruct (IsAbs t) eqn:Ha.
  - exists true, (clean_elems t). destruct (clean_elems_shape t) as (k & names & HE & Hn & Hk).
    rewrite (Hk Ha) in HE. simpl in HE. split_and!.
    + destruct (Clean_cases t) as [[_ ->]|[(? & _)|(? & _)]]; [done|congruence..].
    + by rewrite HE.
    + intros Hs. unfold t, TrimPrefix in Ha. rewrite Hs in Ha. unfold IsAbs in Ha. congruence.
  - exists false, (clean_elems t). split_and!; [|by apply Clean_confined|done].
    destruct (Clean_cases t) as [[? _]|[(_ & E & ->)|(_ & E & ->)]]; [congruence|by rewrite E|].
    unfold path_of. by destruct (clean_elems t).
Qed.

(** ** Directories *)

Inductive node : Type :=
| NDir
| NFile (data : string)
| NSymlink (target : string)
| NOther (sent : string).       (* devices, sockets, FIFOs, and what was written into them *)

Record Root : Type := mkRoot { r_nodes : gmap (list string) node; r_clock : nat }.

(** The node at a path below the root; the root itself is a directory. *)
Definition kind (m : gmap (list string) node) (q : list string) : option node :=
  match q with [] => Some NDir | _ => m !! q end.

Definition T (A : Type) : Type := Root -> result A * Root.
#[export] Instance T_ret : MRet T := fun A a r => (Ok a, r).
#[export] Instance T_bind : MBind T := fun A B k m r =>
  match m r with (Ok a, r') => k a r' | (Err e, r') => (Err e, r') end.
Definition return_ {A} (x : result A) : T A := fun r => (x, r).

Definition EEXIST : error := Errorf "file exists".
Definition ENOENT : error := Errorf "no such file or directory".
Definition ENOTDIR : error := Errorf "not a directory".
Definition ELOOP : error := Errorf "too many levels of symbolic links".
Definition EISDIR : error := Errorf "is a directory".

Section Calls.
(** The failure of the n-th call, if any; a write that fails has written some
    bytes. *)
Variable fault : nat -> option (error * nat).

Definition call {A} (f : gmap (list string) node -> result A * gmap (list string) node)
    (partial : nat -> gmap (list string) node -> gmap (list string) node) : T A := fun r =>
  let t := S (r_clock r) in
  match fault (r_clock r) with
  | Some (e, n) => (Err e, mkRoot (partial n (r_nodes r)) t)
  | None => let '(x, m) := f (r_nodes r) in (x, mkRoot m t)
  end.

Definition unchanged (_ : nat) (m : gmap (list string) node) : gmap (list string) node := m.

(** [unix.Mkdirat]; the caller ignores [EEXIST]. *)
Definition mkdirat (q : list string) : T unit :=
  call (fun m => match kind m q with Some _ => (Ok tt, m) | None => (Ok tt, <[q := NDir]> m) end) unchanged.

(** [unix.Openat] with [O_DIRECTORY|O_NOFOLLOW] *)
Definition openat_dir (q : list string) : T unit :=
  call (fun m => (match kind m q with
                  | Some NDir => Ok tt
                  | Some (NSymlink _) => Err ELOOP
                  | Some _ => Err ENOTDIR
                  | None => Err ENOENT
                  end, m)) unchanged.

(** The loop of [mkdir] over the parts of the path. *)
Fixpoint mkdir_loop (cur : list string) (l : list string) : T unit :=
  match l with
  | [] => mret tt
  | part :: l =>
      if bool_decide (part = "" \/ part = ".") then mkdir_loop cur l
      else if bool_decide (part = "..") then return_ (Err (Errorf "parent traversal"))
      else mkdirat (cur ++ [part]) ;; openat_dir (cur ++ [part]) ;; mkdir_loop (cur ++ [part]) l
  end.

(** [mkdir] *)
Definition mkdir (p : string) : T unit :=
  if bool_decide (p = "." \/ p = "") then mret tt else mkdir_loop [] (Split p slash).

(** Path resolution of [openat2] below the root: no symbolic link is
    followed, and [..] stops at the root. *)
Fixpoint resolve (m : gmap (list string) node) (cur : list string) (l : list string) : result (list string) :=
  match l with
  | [] => Ok cur
  | part :: l =>
      if bool_decide (part = "" \/ part = ".") then resolve m cur l
      else if bool_decide (part = "..") then resolve m (removelast cur) l
      else match l with
           | [] => Ok (cur ++ [part])
           | _ => match kind m (cur ++ [part]) with
                  | Some NDir => resolve m (cur ++ [part]) l
                  | Some (NSymlink _) => Err ELOOP
                  | Some _ => Err ENOTDIR
                  | None => Err ENOENT
                  end
           end
  end.

(** [open] with [O_CREAT|O_TRUNC|O_WRONLY].  A device or FIFO that is there is
    opened.  Every file has one name: the other names of a hard-linked file are not
    represented. *)
Definition open_write (p : string) : T (list string) :=
  call (fun m =>
    match resolve m [] (Split p slash) with
    | Err e => (Err e, m)
    | Ok q =>
        match kind m q with
        | None | Some (NFile _) => (Ok q, <[q := NFile ""]> m)
        | Some NDir => (Err EISDIR, m)
        | Some (NSymlink _) => (Err ELOOP, m)
        | Some (NOther _) => (Ok q, m)
        end
    end) unchanged.

Definition write_file (q : list string) (data : string) (m : gmap (list string) node)
  : gmap (list string) node :=
  match m !! q with
  | Some (NFile _) => <[q := NFile data]> m
  | Some (NOther sent) => <[q := NOther (sent +:+ data)]> m
  | _ => m
  end.

(** [io.CopyN(f, tr, size)] from an entry whose body is [body]. *)
Definition copyN (q : list string) (size : Z) (body : string) : T unit :=
  let data := take_str (Z.to_nat size) body in
  call (fun m => (if Z.of_nat (String.length data) <? size then Err (Errorf "unexpected EOF") else Ok tt,
                  write_file q data m))
       (fun n m => write_file q (take_str n data) m).

(** ** Extraction *)

Inductive typeflag : Type := TypeReg | TypeDir | TypeOther.
Record entry : Type := mkEntry { e_Name : string; e_Typeflag : typeflag; e_Size : Z; e_Body : string }.

(** An archive as [tar.Reader] sees it: the entries up to the end or an
    error, and then what the rest of the transport holds. *)
Record archive : Type := mkArchive {
  a_entries : list (result entry);
  a_rest : result unit;
  a_bytes : Z                   (* bytes in the whole stream *)
}.

(** One iteration of the loop of [extract], after the header was read; the
    state is [total] and [count]. *)
Definition extract_entry (dest : string) (st : Z * Z) (h : entry) : T (Z * Z) :=
  let '(total, count) := st in
  let count := int64 (count + 1) in
  if max_entries <? count then return_ (Err (Errorf "copy file count limit")) else
  match clean (e_Name h), HasPrefix (e_Name h) "/" with
  | Ok n, false =>
      let p := JoinPath [dest; n] in
      match e_Typeflag h with
      | TypeDir => mkdir p ;; mret (total, count)
      | TypeReg =>
          if (e_Size h <? 0) || (int64 (MaxBytes - total) <? e_Size h)
          then return_ (Err (Errorf "copy size limit")) else
          let total := int64 (total + e_Size h) in
          mkdir (Dir p) ;;
          q ← open_write p;
          copyN q (e_Size h) (e_Body h) ;;
          mret (total, count)
      | TypeOther => return_ (Err (Errorf "copy supports regular files and directories only"))
      end
  | _, _ => return_ (Err (Errorf "unsafe archive path"))
  end.

Fixpoint extract_loop (dest : string) (st : Z * Z) (a : archive) (l : list (result entry)) : T (Z * Z) :=
  match l with
  | [] =>
      return_ (a_rest a) ;;
      if max_stream <=? a_bytes a then return_ (Err (Errorf "archive size limit")) else mret st
  | Err e :: _ => return_ (Err e)
  | Ok h :: l => st' ← extract_entry dest st h; extract_loop dest st' a l
  end.

(** [extract]; the final counters are kept for the statements below. *)
Definition extract (dest : string) (a : archive) : T (Z * Z) :=
  dest ← return_ (clean dest);
  extract_loop dest (0, 0) a (a_entries a).

(** [directoryFD], and [ExtractRoot] on an open file. *)
Definition directoryFD (root : option (result bool)) : result unit :=
  match root with
  | None => Err (Errorf "invalid copy root")
  | Some (Err e) => Err e
  | Some (Ok isdir) => if isdir then Ok tt else Err (Errorf "copy root must be a directory")
  end.

Definition ExtractRoot (root : option (result bool)) (dest : string) (a : archive) : T (Z * Z) :=
  return_ (directoryFD root) ;;
  extract dest a.

(** [Extract]: [rootFD] opens the root directory. *)
Definition Extract (rootFD : result unit) (dest : string) (a : archive) : T (Z * Z) :=
  return_ rootFD ;;
  extract dest a.

(** [OpenDestinationRoot]: the directory named by an absolute path, created
    below the root of the file system. *)
Definition OpenDestinationRoot (abs : string) : T (list string) :=
  let rel := rootRelative abs in
  mkdir rel ;;
  call (fun m =>
    (match resolve m [] (Split rel slash) with
     | Err e => Err e
     | Ok q => match kind m q with
               | Some NDir => Ok q
               | Some (NSymlink _) => Err ELOOP
               | Some _ => Err ENOTDIR
               | None => Err ENOENT
               end
     end, m)) unchanged.
End Calls.

(** ** Confinement *)

(** What extraction below [dest] may do to the node at [q]: create a missing
    directory on the way to or below [dest], create or replace a regular file at
    or below [dest], or write into a device or FIFO at or below [dest]. *)
Definition node_change (dest q : list string) (old new : option node) : Prop :=
  new = old \/
  (old = None /\ new = Some NDir /\ (q `prefix_of` dest \/ dest `prefix_of` q)) \/
  ((old = None \/ exists d, old = Some (NFile d)) /\ (exists d, new = Some (NFile d)) /\ dest `prefix_of` q) \/
  (exists w x, old = Some (NOther w) /\ new = Some (NOther (w +:+ x)) /\ dest `prefix_of` q).

Definition confined (dest : list string) (m m' : gmap (list string) node) : Prop :=
  forall q, node_change dest q (m !! q) (m' !! q).

Lemma confined_refl (dest : list string) (m : gmap (list string) node) : confined dest m m.
Proof. intros q. by left. Qed.

Lemma confined_trans (dest : list string) (m1 m2 m3 : gmap (list string) node) :
  confined dest m1 m2 -> confined dest m2 m3 -> confined dest m1 m3.
Proof.
  intros H1 H2 q. specialize (H1 q). specialize (H2 q). unfold node_change in *.
  destruct H1 as [E1|[(A1 & B1 & C1)|[(A1 & [d1 B1] & C1)|(w1 & x1 & A1 & B1 & C1)]]];
    destruct H2 as [E2|[(A2 & B2 & C2)|[(A2 & [d2 B2] & C2)|(w2 & x2 & A2 & B2 & C2)]]];
    try (left; congruence); try congruence; try (destruct A2 as [A2|[d A2]]; congruence).
  - right. left. split_and!; [congruence|done|done].
  - right. right. left. rewrite E1 in A2. eauto.
  - do 3 right. exists w2, x2. split_and!; [congruence|done|done].
  - right. left. split_and!; [done|congruence|done].
  - right. right. left. split_and!; [done|exists d1; congruence|done].
  - right. right. left. split_and!; [done|eauto|done].
  - do 3 right. exists w1, x1. split_and!; [done|congruence|done].
  - do 3 right. exists w1, (x1 +:+ x2). rewrite <-app_assoc_str. split_and!; [done| |done]. rewrite B2. congruence.
Qed.

Definition moves {A} (dest : list string) (f : T A) : Prop :=
  forall r, confined dest (r_nodes r) (r_nodes (snd (f r))).

Lemma moves_bind {A B} (dest : list string) (f : T A) (k : A -> T B) :
  moves dest f ->
  (forall a r r', f r = (Ok a, r') -> confined dest (r_nodes r') (r_nodes (snd (k a r')))) ->
  moves dest (f ≫= k).
Proof.
  intros Hf Hk r. unfold mbind, T_bind. specialize (Hf r). destruct (f r) as [[a|e] r'] eqn:E; [|done].
  eapply confined_trans; [exact Hf|]. by eapply Hk.
Qed.

Lemma moves_seq {A B} (dest : list string) (f : T A) (k : A -> T B) :
  moves dest f -> (forall a, moves dest (k a)) -> moves dest (f ≫= k).
Proof. intros Hf Hk. apply moves_bind; [done|]. intros a r r' _. apply Hk. Qed.

Lemma moves_return {A} (dest : list string) (x : result A) : moves dest (return_ x).
Proof. intros r. apply confined_refl. Qed.

Lemma moves_ret {A} (dest : list string) (x : A) : moves dest (mret x).
Proof. intros r. apply confined_refl. Qed.

Section Confined.
Context (fault : nat -> option (error * nat)).

Lemma moves_call {A} (dest : list string) f partial :
  (forall m, confined dest m (snd (f m))) -> (forall n m, confined dest m (partial n m)) ->
  moves dest (@call fault A f partial).
Proof.
  intros Hf Hp r. unfold call. destruct (fault (r_clock r)) as [[e n]|]; [apply Hp|].
  specialize (Hf (r_nodes r)). by destruct (f (r_nodes r)).
Qed.

Lemma moves_mkdirat (dest q : list string) :
  q <> [] -> q `prefix_of` dest \/ dest `prefix_of` q -> moves dest (mkdirat fault q).
Proof.
  intros Hq Hd. apply moves_call; [|intros; apply confined_refl]. intros m.
  assert (kind m q = m !! q) as -> by by destruct q.
  destruct (m !! q) eqn:E; [apply confined_refl|]. simpl. intros q'.
  destruct (decide (q' = q)) as [->|Hne]; [|left; by rewrite lookup_insert_ne].
  right. left. by rewrite lookup_insert_eq.
Qed.

Lemma moves_openat_dir (dest q : list string) : moves dest (openat_dir fault q).
Proof. apply moves_call; intros; apply confined_refl. Qed.

Lemma moves_mkdir_loop (dest cur l full : list string) :
  cur ++ filter (fun c => c <> "" /\ c <> ".") l = full ->
  (forall q, q `prefix_of` full -> q `prefix_of` dest \/ dest `prefix_of` q) ->
  moves dest (mkdir_loop fault cur l).
Proof.
  intros Hf Hd. revert cur Hf. induction l as [|c l IH]; intros cur Hf; simpl; [apply moves_ret|].
  case_bool_decide as E1.
  { apply IH. rewrite filter_cons_False in Hf by tauto. done. }
  rewrite filter_cons_True in Hf by tauto.
  case_bool_decide; [apply moves_return|].
  assert ((cur ++ [c]) ++ filter (fun c => c <> "" /\ c <> ".") l = full) as Hf' by by rewrite <-app_assoc.
  apply moves_seq; [|intros _; apply moves_seq; [apply moves_openat_dir|intros _; by apply IH]].
  apply moves_mkdirat; [by destruct cur|]. apply Hd. rewrite <-Hf'. by apply prefix_app_r.
Qed.

(** The parts of a cleaned path are what [Split] leaves to the loops. *)
Lemma moves_mkdir (dest l : list string) (a : bool) :
  Forall plain_elem l -> (forall q, q `prefix_of` l -> q `prefix_of` dest \/ dest `prefix_of` q) ->
  moves dest (mkdir fault (path_of a l)).
Proof.
  intros Hl Hd. unfold mkdir. case_bool_decide; [apply moves_ret|].
  apply (moves_mkdir_loop dest [] _ l); [|done]. by apply (parts_path_of a l).
Qed.

Lemma resolve_plain (m : gmap (list string) node) (cur l q : list string) :
  Forall (fun c => c <> "..") l -> resolve m cur l = Ok q ->
  q = cur ++ filter (fun c => c <> "" /\ c <> ".") l.
Proof.
  revert cur. induction l as [|c l IH]; intros cur Hl H; simpl in *; [ok_inv; by rewrite app_nil_r|].
  apply Forall_cons in Hl as [Hc Hl].
  case_bool_decide as E1; [rewrite filter_cons_False by tauto; by apply IH|].
  rewrite bool_decide_eq_false_2 in H by done. rewrite filter_cons_True by tauto.
  destruct l as [|c' l]; [ok_inv; done|].
  destruct (kind m (cur ++ [c])) as [[]|]; try done. apply IH in H; [|done]. by rewrite H, <-app_assoc.
Qed.

Lemma Split_path_of_plain (a : bool) (l : list string) :
  Forall plain_elem l -> Forall (fun c => c <> "..") (Split (path_of a l) slash).
Proof.
  intros Hl. rewrite Split_path_of by done. apply Forall_app. split; [by destruct a; repeat constructor|].
  assert (Forall (fun c => c <> "..") l) as H.
  { eapply Forall_impl; [exact Hl|]. by intros c (_ & _ & ? & _). }
  destruct l; [by destruct a; repeat constructor|done].
Qed.

Lemma open_write_ok (a : bool) (l q : list string) (r r' : Root) :
  Forall plain_elem l -> open_write fault (path_of a l) r = (Ok q, r') -> q = l.
Proof.
  intros Hl. unfold open_write, call. destruct (fault _) as [[]|]; [done|].
  destruct (resolve _ _ _) as [q'|] eqn:E; [|done].
  apply resolve_plain in E; [|by apply Split_path_of_plain]. pose proof (parts_path_of a l Hl) as Hp.
  unfold parts in Hp. rewrite Hp in E. simpl in E. destruct (kind _ q') as [[]|]; intros H; by simplify_eq.
Qed.

Lemma moves_open_write (dest l : list string) (a : bool) :
  Forall plain_elem l -> dest `prefix_of` l -> moves dest (open_write fault (path_of a l)).
Proof.
  intros Hl Hd. apply moves_call; [|intros; apply confined_refl]. intros m.
  destruct (resolve m [] _) as [q|] eqn:E; [|apply confined_refl].
  apply resolve_plain in E; [|by apply Split_path_of_plain]. pose proof (parts_path_of a l Hl) as Hp.
  unfold parts in Hp. rewrite Hp in E. simpl in E. subst q.
  destruct l as [|x l]; [apply confined_refl|]. simpl kind.
  destruct (m !! (x :: l)) as [[]|] eqn:Em; simpl; try apply confined_refl;
    intros q'; (destruct (decide (q' = x :: l)) as [->|Hne]; [|left; by rewrite lookup_insert_ne]);
    right; right; left; rewrite lookup_insert_eq, Em; (split_and!; [eauto|eauto|done]).
Qed.

Lemma moves_copyN (dest q : list string) (size : Z) (body : string) :
  dest `prefix_of` q -> moves dest (copyN fault q size body).
Proof.
  intros Hd. assert (forall data m, confined dest m (write_file q data m)) as H.
  { intros data m. unfold write_file. destruct (m !! q) as [[]|] eqn:E; try apply confined_refl.
    all: intros q'; destruct (decide (q' = q)) as [->|Hne]; [|left; by rewrite lookup_insert_ne].
    all: do 2 right; rewrite lookup_insert_eq, E; first [left; by split_and!; eauto | right; by eauto]. }
  by apply moves_call; intros; apply H.
Qed.

Lemma prefix_either (dest l q : list string) :
  dest `prefix_of` l -> q `prefix_of` l -> q `prefix_of` dest \/ dest `prefix_of` q.
Proof. intros H1 H2. by apply (prefix_weak_total _ _ l). Qed.

Lemma moves_extract_entry (a : bool) (dest : list string) (st : Z * Z) (h : entry) :
  Forall plain_elem dest -> moves dest (extract_entry fault (path_of a dest) st h).
Proof.
  intros Hd. destruct st as [total count]. unfold extract_entry.
  destruct (_ <? _); [apply moves_return|].
  destruct (clean (e_Name h)) as [n|] eqn:Ec; [|apply moves_return].
  destruct (HasPrefix (e_Name h) "/") eqn:Ep; [apply moves_return|].
  apply clean_ok in Ec as (a' & l & -> & Hl & Ha). rewrite (Ha Ep). rewrite JoinPath_path_of by done.
  assert (Forall plain_elem (dest ++ l)) as Hdl by by apply Forall_app.
  assert (dest `prefix_of` dest ++ l) as Hpre by by apply prefix_app_r.
  destruct (e_Typeflag h); [| |apply moves_return].
  - destruct (_ || _); [apply moves_return|]. apply moves_seq.
    { destruct (decide (dest ++ l = [])) as [E|Hne].
      - rewrite E. assert (Dir (path_of a []) = path_of a []) as -> by by destruct a.
        apply moves_mkdir; [done|]. intros q ->%prefix_nil_inv. left. apply prefix_nil.
      - destruct (exists_last Hne) as (l' & x & E). rewrite E in *. apply Forall_app in Hdl as [Hl' Hx].
        apply Forall_cons in Hx as [Hx _]. rewrite Dir_path_of by done. apply moves_mkdir; [done|].
        intros q Hq. apply (prefix_either dest (l' ++ [x])); [done|]. by apply prefix_app_r. }
    intros _. apply moves_bind; [by apply moves_open_write|].
    intros q r r' Hq. apply open_write_ok in Hq; [|done]. subst q.
    apply moves_seq; [by apply moves_copyN|]. intros _. apply moves_ret.
  - apply moves_seq; [|intros _; apply moves_ret]. apply moves_mkdir; [done|].
    intros q. by apply prefix_either.
Qed.

Lemma moves_extract_loop (a : bool) (dest : list string) (st : Z * Z) (ar : archive) (l : list (result entry)) :
  Forall plain_elem dest -> moves dest (extract_loop fault (path_of a dest) st ar l).
Proof.
  intros Hd. revert st. induction l as [|[h|e] l IH]; intros st; simpl; [| |apply moves_return].
  - apply moves_seq; [apply moves_return|]. intros _. destruct (_ <=? _); [apply moves_return|apply moves_ret].
  - apply moves_seq; [by apply moves_extract_entry|]. intros st'. apply IH.
Qed.

(** Accounting of one entry that is accepted. *)
Lemma extract_entry_count (dest : string) (total count : Z) (h : entry) (st' : Z * Z) (r r' : Root) :
  0 <= total <= MaxBytes -> 0 <= count <= max_entries ->
  extract_entry fault dest (total, count) h r = (Ok st', r') ->
  snd st' = count + 1 /\ snd st' <= max_entries /\ 0 <= fst st' <= MaxBytes /\
  (e_Typeflag h = TypeReg /\ 0 <= e_Size h /\ fst st' = total + e_Size h \/
   e_Typeflag h = TypeDir /\ fst st' = total) /\
  (exists l, clean (e_Name h) = Ok (path_of false l) /\ Forall plain_elem l).
Proof.
  unfold MaxBytes, max_entries. intros Ht Hc. unfold extract_entry.
  rewrite (int64_id (count + 1)) by (unfold in_int64, max_int64, two63; lia).
  unfold max_entries. destruct (_ <? _) eqn:E1; [done|]. bool_prop.
  destruct (clean (e_Name h)) as [n|] eqn:Ec; [|done].
  destruct (HasPrefix (e_Name h) "/") eqn:Ep; [done|].
  apply clean_ok in Ec as (a' & l & -> & Hl & Ha). rewrite (Ha Ep) in *.
  unfold mbind, T_bind, mret, T_ret, return_. destruct (e_Typeflag h); [| |done].
  - unfold MaxBytes. rewrite (int64_id (_ - total)) by (unfold in_int64, max_int64, two63; lia).
    destruct (_ || _) eqn:E2; [done|]. bool_prop.
    rewrite (int64_id (total + _)) by (unfold in_int64, max_int64, two63; lia).
    destruct (mkdir _ _ _) as [[]?]; [|done]. destruct (open_write _ _ _) as [[]?]; [|done].
    destruct (copyN _ _ _ _ _) as [[]?]; [|done]. intros HR. injection HR as <- _. simpl. split_and!; eauto; lia.
  - destruct (mkdir _ _ _) as [[]?]; [|done]. intros HR. injection HR as <- _. simpl. split_and!; eauto; lia.
Qed.

(** The regular files an archive declares. *)
Definition entry_size (h : entry) : Z := match e_Typeflag h with TypeReg => e_Size h | _ => 0 end.
Definition sizes (hs : list entry) : Z := foldr Z.add 0 (entry_size <$> hs).

Lemma extract_loop_count (dest : string) (total count : Z) (ar : archive) (l : list (result entry)) (st' : Z * Z) (r r' : Root) :
  0 <= total <= MaxBytes -> 0 <= count <= max_entries ->
  extract_loop fault dest (total, count) ar l r = (Ok st', r') ->
  exists hs, l = Ok <$> hs /\ snd st' = count + Z.of_nat (length hs) /\ snd st' <= max_entries /\
    fst st' = total + sizes hs /\ fst st' <= MaxBytes /\
    Forall (fun h => (e_Typeflag h = TypeReg /\ 0 <= e_Size h \/ e_Typeflag h = TypeDir) /\
              exists p, clean (e_Name h) = Ok (path_of false p) /\ Forall plain_elem p) hs /\
    a_bytes ar < max_stream.
Proof.
  revert total count r. induction l as [|[h|e] l IH]; intros total count r Ht Hc; cbn [extract_loop]; [| |done].
  - unfold mbind, T_bind, return_, mret, T_ret. destruct (a_rest ar); [|done].
    destruct (_ <=? _) eqn:E; [done|]. bool_prop. intros H. injection H as <- _. exists []. simpl.
    unfold sizes. simpl. split_and!; try done; lia.
  - unfold mbind at 1, T_bind at 1. destruct (extract_entry fault dest (total, count) h r) as [[[t1 c1]|] r1] eqn:E; [|done].
    apply extract_entry_count in E as (E1 & E2 & E3 & E4 & E5); [|done..]. simpl in *.
    intros H. apply IH in H as (hs & -> & H1 & H2 & H3 & H4 & H5 & H6); [|lia..].
    exists (h :: hs). simpl. unfold sizes in *. simpl. unfold entry_size at 1.
    split_and!; try done; try lia.
    + destruct E4 as [(-> & _ & E4)|(-> & E4)]; unfold fmap in *; lia.
    + constructor; [|done]. destruct E4 as [(? & ? & _)|(? & _)]; eauto.
Qed.
End Confined.

(** C26. Extraction is confined, whatever the archive holds and whatever fails: it
    creates directories on the way to the destination and below it, it creates
    or replaces regular files at or below the destination, it writes into a device
    or FIFO that is already there only at or below the destination, and it touches
    nothing else; no symbolic link is followed, and no link or device is replaced or
    removed.  Every file of the model has one name (hard links are not
    represented). *)
Theorem extract_confined (fault : nat -> option (error * nat)) (dest : string) (ar : archive) (r : Root) :
  match clean dest with
  | Err _ => snd (extract fault dest ar r) = r
  | Ok d =>
      exists a l, d = path_of a l /\ Forall plain_elem l /\
        forall q, node_change l q (r_nodes r !! q) (r_nodes (snd (extract fault dest ar r)) !! q)
  end.
Proof.
  destruct (clean dest) as [d|] eqn:E; unfold extract, mbind, T_bind, return_; rewrite E; [|done].
  apply clean_ok in E as (a & l & -> & Hl & _). exists a, l. split_and!; [done|done|].
  by apply moves_extract_loop.
Qed.

(** An archive that extracts completely was within the limits: at most 10000
    entries, all regular files or directories under relative names without
    [..], at most 512 MiB of files, and a bounded stream. *)
Theorem extract_bounded (fault : nat -> option (error * nat)) (dest : string) (ar : archive) (r r' : Root)
    (total count : Z) :
  extract fault dest ar r = (Ok (total, count), r') ->
  exists hs, a_entries ar = Ok <$> hs /\ count = Z.of_nat (length hs) /\ count <= max_entries /\
    total = sizes hs /\ total <= MaxBytes /\
    Forall (fun h => (e_Typeflag h = TypeReg /\ 0 <= e_Size h \/ e_Typeflag h = TypeDir) /\
              exists p, clean (e_Name h) = Ok (path_of false p) /\ Forall plain_elem p) hs /\
    a_bytes ar < max_stream.
Proof.
  unfold extract, mbind, T_bind, return_. destruct (clean dest); [|done]. intros H.
  apply extract_loop_count in H as (hs & H1 & H2 & H3 & H4 & H5 & H6 & H7);
    [|unfold MaxBytes; lia|unfold max_entries; lia].
  exists hs. simpl in *. split_and!; try done; lia.
Qed.

(** ** Archiving *)

(** What an open file descriptor gives access to: a regular file, a directory
    with its entries, a symbolic link, or something else. *)
Inductive tree : Type :=
| Leaf (data : string)
| Branch (entries : list (string * tree))
| Link (target : string)
| Special.

Section TreeInd.
Context (P : tree -> Prop).
Hypothesis HLeaf : forall data, P (Leaf data).
Hypothesis HBranch : forall es, Forall (fun e => P (snd e)) es -> P (Branch es).
Hypothesis HLink : forall t, P (Link t).
Hypothesis HSpecial : P Special.
Fixpoint tree_ind' (t : tree) : P t :=
  match t with
  | Leaf d => HLeaf d
  | Branch es => HBranch es ((fix go es : Forall (fun e => P (snd e)) es :=
                     match es with
                     | [] => Forall_nil_2 _
                     | e :: es => Forall_cons_2 _ _ _ (tree_ind' (snd e)) (go es)
                     end) es)
  | Link t => HLink t
  | Special => HSpecial
  end.
End TreeInd.

(** The closure [walk] of [archiveFile]: the entries it writes, and [count]
    and [total]. *)
Fixpoint walk (t : tree) (name : string) (st : Z * Z) : result (list entry * (Z * Z)) :=
  let '(count, total) := st in
  let count := int64 (count + 1) in
  guard negb (max_entries <? count) else Errorf "copy file count limit" in
  match t with
  | Leaf data =>
      let size := Z.of_nat (String.length data) in
      guard negb (int64 (MaxBytes - total) <? size) else Errorf "copy size limit" in
      Ok ([mkEntry name TypeReg size data], (count, int64 (total + size)))
  | Branch es =>
      let* r := (fix children es st : result (list entry * (Z * Z)) :=
         match es with
         | [] => Ok ([], st)
         | (n, Link _) :: _ => Err ELOOP
         | (n, c) :: es =>
             let* r1 := walk c (JoinPath [name; n]) st in
             let* r2 := children es (snd r1) in
             Ok (fst r1 ++ fst r2, snd r2)
         end) es (count, total) in
      Ok (mkEntry name TypeDir 0 "" :: fst r, snd r)
  | _ => Err (Errorf "copy supports regular files/directories only")
  end.

(** The loop over the children of a directory. *)
Definition walk_children (name : string) : list (string * tree) -> Z * Z -> result (list entry * (Z * Z)) :=
  fix children es st :=
    match es with
    | [] => Ok ([], st)
    | (n, Link _) :: _ => Err ELOOP
    | (n, c) :: es =>
        let* r1 := walk c (JoinPath [name; n]) st in
        let* r2 := children es (snd r1) in
        Ok (fst r1 ++ fst r2, snd r2)
    end.

(** [archiveFile] *)
Definition archiveFile (t : tree) (name : string) : result (list entry) :=
  let* r := walk t name (0, 0) in Ok (fst r).

(** The name a source gets in the archive. *)
Definition archive_name (t : tree) (src : string) : string :=
  match t with Branch _ => "." | _ => Base src end.

(** [archiveAt], with [open] below the root directory. *)
Definition archiveAt (open : string -> result tree) (src : string) : result (list entry) :=
  let* src := clean src in
  let* t := open src in
  archiveFile t (archive_name t src).

(** [OpenArchiveSource] and [ArchiveTo] on the opened object. *)
Definition OpenArchiveSource (open : string -> result tree) (source : string) : result (tree * string) :=
  let* t := open source in
  match t with
  | Leaf _ | Branch _ => Ok (t, archive_name t source)
  | _ => Err (Errorf "copy supports regular files/directories only")
  end.

Definition ArchiveTo (s : option (tree * string)) : result (list entry) :=
  match s with
  | None => Err (Errorf "invalid archive source")
  | Some (t, name) => archiveFile t name
  end.

(** [Archive] *)
Definition Archive (rootFD : result unit) (open : string -> result tree) (src : string) : result (list entry) :=
  let* _ := rootFD in
  archiveAt open src.

(** [ArchiveRoot] *)
Definition ArchiveRoot (root : option (result bool)) (open : string -> result tree) (src : string)
  : result (list entry) :=
  let* _ := directoryFD root in
  archiveAt open src.

(** ** Round trip *)

(** Names a directory can hold. *)
Definition valid_name (n : string) : Prop := plain_elem n /\ ContainsRune n "000" = false.

Inductive wf_tree : tree -> Prop :=
| wf_Leaf data : wf_tree (Leaf data)
| wf_Branch es :
    NoDup (fst <$> es) -> Forall (fun e => valid_name (fst e) /\ wf_tree (snd e)) es -> wf_tree (Branch es)
| wf_Link t : wf_tree (Link t)
| wf_Special : wf_tree Special.

(** The node of a tree, and the subtree at a path. *)
Definition node_of (t : tree) : node :=
  match t with Leaf d => NFile d | Branch _ => NDir | Link l => NSymlink l | Special => NOther "" end.

Fixpoint find (t : tree) (q : list string) : option tree :=
  match q with
  | [] => Some t
  | x :: q =>
      match t with
      | Branch es => match list_find (fun e => fst e = x) es with Some (_, e) => find (snd e) q | None => None end
      | _ => None
      end
  end.

(** A tree written below [q]. *)
Fixpoint place (q : list string) (t : tree) (m : gmap (list string) node) : gmap (list string) node :=
  match t with
  | Branch es =>
      (fix children es m := match es with [] => m | (n, c) :: es => children es (place (q ++ [n]) c m) end)
        es (<[q := NDir]> m)
  | _ => <[q := node_of t]> m
  end.

Fixpoint place_children (q : list string) (es : list (string * tree)) (m : gmap (list string) node)
  : gmap (list string) node :=
  match es with [] => m | (n, c) :: es => place_children q es (place (q ++ [n]) c m) end.

Lemma place_Branch (q : list string) (es : list (string * tree)) (m : gmap (list string) node) :
  place q (Branch es) m = place_children q es (<[q := NDir]> m).
Proof. simpl. generalize (<[q := NDir]> m). induction es as [|[n c] es IH]; intros m'; simpl; [done|]. apply IH. Qed.

Lemma place_other (q q' : list string) (t : tree) (m : gmap (list string) node) :
  ~ q `prefix_of` q' -> place q t m !! q' = m !! q'.
Proof.
  revert q m. induction t as [data|es IH|l|] using tree_ind'; intros q m Hq.
  1,3,4: simpl; apply lookup_insert_ne; by intros ->.
  rewrite place_Branch. assert (<[q := NDir]> m !! q' = m !! q') as <- by (apply lookup_insert_ne; by intros ->).
  generalize (<[q := NDir]> m). induction IH as [|[n c] es Hc Hes IHes]; intros m'; simpl; [done|].
  rewrite IHes. apply Hc. intros H. apply Hq. etrans; [|exact H]. by apply prefix_app_r.
Qed.

Lemma place_children_other (q q' : list string) (es : list (string * tree)) (m : gmap (list string) node) :
  (forall n, n ∈ fst <$> es -> ~ (q ++ [n]) `prefix_of` q') -> place_children q es m !! q' = m !! q'.
Proof.
  revert m. induction es as [|[n c] es IH]; intros m Hq; simpl; [done|].
  rewrite IH; [|intros n' Hn'; apply Hq; by right]. apply place_other, Hq. by left.
Qed.

Lemma snoc_prefix_inv (q q' : list string) (n n' : string) :
  (q ++ [n]) `prefix_of` q ++ n' :: q' -> n = n'.
Proof. rewrite (cons_middle n' q q'). intros [k H]. rewrite <-!app_assoc in H. apply app_inv_head in H. by simplify_eq. Qed.

Lemma app_neq_self (q p : list string) : p <> [] -> q <> q ++ p.
Proof. intros Hp E. apply (f_equal length) in E. rewrite length_app in E. destruct p; [done|]. simpl in E. lia. Qed.

(** Reading back a placed tree. *)
Definition reads_back (t : tree) : Prop :=
  wf_tree t -> forall q p m, (forall p', p' <> [] -> m !! (q ++ p') = None) ->
  place q t m !! (q ++ p) = node_of <$> find t p.

Lemma place_children_find (q p : list string) (x : string) (es : list (string * tree)) (m : gmap (list string) node) :
  Forall (fun e => reads_back (snd e)) es -> NoDup (fst <$> es) ->
  Forall (fun e => valid_name (fst e) /\ wf_tree (snd e)) es ->
  (forall n p', n ∈ fst <$> es -> m !! (q ++ n :: p') = None) ->
  place_children q es m !! (q ++ x :: p) =
    match list_find (fun e => fst e = x) es with
    | Some (_, e) => node_of <$> find (snd e) p
    | None => m !! (q ++ x :: p)
    end.
Proof.
  revert m. induction es as [|[n c] es IHes]; intros m HR Hnd Hes Hm; [done|].
  apply Forall_cons in HR as [Hc HR]. apply Forall_cons in Hes as [[Hn Hwc] Hes].
  apply NoDup_cons in Hnd as [Hni Hnd]. simpl in *. destruct (decide (n = x)) as [->|Hne].
  - rewrite place_children_other.
    + rewrite (cons_middle x q p), app_assoc. apply Hc; [done|]. intros p' Hp'. rewrite <-app_assoc.
      apply Hm. by left.
    + intros n' Hn' H. apply snoc_prefix_inv in H. by subst.
  - rewrite IHes; [|done..|].
    + destruct (list_find _ es) as [[]|]; [done|]. simpl. apply place_other. intros H. by apply snoc_prefix_inv in H.
    + intros n' p' Hn'. rewrite place_other; [apply Hm; by right|]. intros H. apply snoc_prefix_inv in H. by subst.
Qed.

Lemma place_find (t : tree) : reads_back t.
Proof.
  induction t as [data|es IH|l|] using tree_ind'; intros Hwf q p m Hm.
  1,3,4: simpl; (destruct p as [|x p]; [by rewrite app_nil_r, lookup_insert_eq|]);
    (rewrite lookup_insert_ne; [by apply Hm|]); by apply app_neq_self.
  rewrite place_Branch. inversion Hwf as [|es' Hnd Hes| |]; subst.
  destruct p as [|x p].
  { rewrite app_nil_r, place_children_other; [by rewrite lookup_insert_eq|].
    intros n _ H. apply prefix_length in H. rewrite length_app in H. simpl in H. lia. }
  assert (forall p', p' <> [] -> <[q := NDir]> m !! (q ++ p') = None) as Hm'.
  { intros p' Hp'. rewrite lookup_insert_ne; [by apply Hm|]. by apply app_neq_self. }
  rewrite place_children_find; [|done..|intros; by apply Hm']. simpl.
  destruct (list_find _ es) as [[]|]; [done|]. by apply Hm'.
Qed.

(** Every directory on the way to [q], and [q] itself, exists. *)
Definition ready (m : gmap (list string) node) (q : list string) : Prop :=
  forall p, p `prefix_of` q -> kind m p = Some NDir.

Lemma ready_prefix (m : gmap (list string) node) (p q : list string) :
  p `prefix_of` q -> ready m q -> ready m p.
Proof. intros H Hq p' Hp'. apply Hq. by etrans. Qed.

Lemma ready_snoc (m : gmap (list string) node) (q : list string) (x : string) :
  ready m q -> m !! (q ++ [x]) = Some NDir -> ready m (q ++ [x]).
Proof.
  intros Hq Hx p [k Hk]. destruct k as [|y k _] using rev_ind.
  - rewrite app_nil_r in Hk. subst p. by destruct q.
  - rewrite app_assoc in Hk. apply app_inj_tail in Hk as [-> _]. apply Hq. by apply prefix_app_r.
Qed.

Lemma kind_lookup (m : gmap (list string) node) (q : list string) : q <> [] -> kind m q = m !! q.
Proof. by destruct q. Qed.

Lemma prefix_mid (cur l : list string) (c : string) : (cur ++ [c]) `prefix_of` cur ++ c :: l.
Proof. exists l. by rewrite <-app_assoc. Qed.

Section Calm.
Definition calm (_ : nat) : option (error * nat) := None.

Lemma mkdir_loop_ready (m : gmap (list string) node) (n : nat) (cur l : list string) :
  Forall plain_elem l -> ready m (cur ++ l) ->
  exists t, mkdir_loop calm cur l (mkRoot m n) = (Ok tt, mkRoot m t).
Proof.
  revert cur n. induction l as [|c l IH]; intros cur n Hl Hr; [by exists n|].
  apply Forall_cons in Hl as [(H1 & H2 & H3 & _) Hl]. simpl.
  rewrite bool_decide_eq_false_2 by tauto. rewrite bool_decide_eq_false_2 by done.
  assert (kind m (cur ++ [c]) = Some NDir) as Hk.
  { apply Hr, prefix_mid. }
  unfold mbind, T_bind, mkdirat, openat_dir, call, calm, unchanged. simpl. rewrite Hk. simpl. rewrite Hk. simpl.
  apply IH; [done|]. by rewrite <-app_assoc.
Qed.

Lemma mkdir_loop_new (m : gmap (list string) node) (n : nat) (cur l : list string) (x : string) :
  Forall plain_elem l -> plain_elem x -> ready m (cur ++ l) -> m !! (cur ++ l ++ [x]) = None ->
  exists t, mkdir_loop calm cur (l ++ [x]) (mkRoot m n) = (Ok tt, mkRoot (<[cur ++ l ++ [x] := NDir]> m) t).
Proof.
  revert cur n. induction l as [|c l IH]; intros cur n Hl Hx Hr Hn.
  - destruct Hx as (H1 & H2 & H3 & _). simpl in *.
    rewrite bool_decide_eq_false_2 by tauto. rewrite bool_decide_eq_false_2 by done.
    unfold mbind, T_bind, mkdirat, openat_dir, call, calm, unchanged. simpl.
    rewrite kind_lookup, Hn by by destruct cur. simpl. rewrite kind_lookup by by destruct cur.
    rewrite lookup_insert_eq. simpl. eexists. done.
  - apply Forall_cons in Hl as [(H1 & H2 & H3 & _) Hl]. simpl.
    rewrite bool_decide_eq_false_2 by tauto. rewrite bool_decide_eq_false_2 by done.
    assert (kind m (cur ++ [c]) = Some NDir) as Hk.
    { apply Hr, prefix_mid. }
    unfold mbind, T_bind, mkdirat, openat_dir, call, calm, unchanged. simpl. rewrite Hk. simpl. rewrite Hk. simpl.
    destruct (IH (cur ++ [c]) (S (S n))) as [t Ht]; [done|done|by rewrite <-app_assoc|by rewrite <-app_assoc|].
    exists t. refine (eq_trans Ht _). by rewrite <-app_assoc.
Qed.

Lemma mkdir_ready (m : gmap (list string) node) (n : nat) (a : bool) (l : list string) :
  Forall plain_elem l -> ready m l ->
  exists t, mkdir calm (path_of a l) (mkRoot m n) = (Ok tt, mkRoot m t).
Proof.
  intros Hl Hr. unfold mkdir. case_bool_decide; [by exists n|]. rewrite Split_path_of by done.
  destruct l as [|x l]; [destruct a; [|naive_solver]; by exists n|].
  destruct a; simpl app; [|by apply (mkdir_loop_ready m n [])].
  change (mkdir_loop calm [] ("" :: x :: l)) with (mkdir_loop calm [] (x :: l)). by apply (mkdir_loop_ready m n []).
Qed.

Lemma mkdir_new (m : gmap (list string) node) (n : nat) (a : bool) (l : list string) (x : string) :
  Forall plain_elem l -> plain_elem x -> ready m l -> m !! (l ++ [x]) = None ->
  exists t, mkdir calm (path_of a (l ++ [x])) (mkRoot m n) = (Ok tt, mkRoot (<[l ++ [x] := NDir]> m) t).
Proof.
  intros Hl Hx Hr Hn. assert (Forall plain_elem (l ++ [x])) as Hlx by (apply Forall_app; auto).
  unfold mkdir. rewrite bool_decide_eq_false_2.
  2: { intros [E|E]; [|by apply path_of_ne in E]. pose proof (parts_path_of a (l ++ [x]) Hlx) as Hp.
    rewrite E in Hp. cbn in Hp. by destruct l. }
  rewrite Split_path_of by done.
  assert (match l ++ [x] with [] => [if a then "" else "."] | _ => l ++ [x] end = l ++ [x]) as -> by by destruct l.
  destruct a; simpl app; [|by apply (mkdir_loop_new m n [])].
  change (mkdir_loop calm [] ("" :: l ++ [x])) with (mkdir_loop calm [] (l ++ [x])). by apply (mkdir_loop_new m n []).
Qed.

Lemma resolve_ready (m : gmap (list string) node) (cur l : list string) (x : string) :
  Forall plain_elem l -> plain_elem x -> ready m (cur ++ l) -> resolve m cur (l ++ [x]) = Ok (cur ++ l ++ [x]).
Proof.
  revert cur. induction l as [|c l IH]; intros cur Hl Hx Hr.
  - destruct Hx as (H1 & H2 & H3 & _). simpl.
    rewrite bool_decide_eq_false_2 by tauto. by rewrite bool_decide_eq_false_2 by done.
  - apply Forall_cons in Hl as [(H1 & H2 & H3 & _) Hl]. simpl.
    rewrite bool_decide_eq_false_2 by tauto. rewrite bool_decide_eq_false_2 by done.
    assert (kind m (cur ++ [c]) = Some NDir) as Hk.
    { apply Hr, prefix_mid. }
    rewrite Hk. assert (exists y k, l ++ [x] = y :: k) as (y & k & E) by (destruct l; eauto). rewrite E.
    rewrite <-E, IH; [by rewrite <-app_assoc|done|done|by rewrite <-app_assoc].
Qed.

Lemma open_write_new (m : gmap (list string) node) (n : nat) (a : bool) (l : list string) (x : string) :
  Forall plain_elem l -> plain_elem x -> ready m l -> m !! (l ++ [x]) = None ->
  open_write calm (path_of a (l ++ [x])) (mkRoot m n) =
    (Ok (l ++ [x]), mkRoot (<[l ++ [x] := NFile ""]> m) (S n)).
Proof.
  intros Hl Hx Hr Hn. assert (Forall plain_elem (l ++ [x])) as Hlx by (apply Forall_app; auto).
  unfold open_write, call, calm. simpl. rewrite Split_path_of by done.
  assert (match l ++ [x] with [] => [if a then "" else "."] | _ => l ++ [x] end = l ++ [x]) as -> by by destruct l.
  assert (resolve m [] ((if a then [""] else []) ++ l ++ [x]) = Ok (l ++ [x])) as ->.
  { destruct a; simpl app; [change (resolve m [] ("" :: l ++ [x])) with (resolve m [] (l ++ [x]))|];
      by apply (resolve_ready m []). }
  rewrite kind_lookup, Hn by by destruct l. done.
Qed.

(** ** Extracting single entries *)

Definition valid_path (l : list string) : Prop := Forall valid_name l.

Lemma valid_plain (l : list string) : valid_path l -> Forall plain_elem l.
Proof. intros H. eapply Forall_impl; [exact H|]. by intros x [? _]. Qed.

Lemma Clean_path_of (a : bool) (l : list string) : Forall plain_elem l -> Clean (path_of a l) = path_of a l.
Proof.
  intros Hl. apply Clean_stack; [| |done].
  - rewrite <-(app_nil_r_str (path_of a l)). by apply IsAbs_path_of.
  - unfold clean_stack. rewrite fold_clean_path_of by done. by rewrite app_nil_r.
Qed.

Lemma clean_path_of (l : list string) :
  valid_path l -> clean (path_of false l) = Ok (path_of false l) /\ HasPrefix (path_of false l) "/" = false.
Proof.
  intros Hv. pose proof (valid_plain l Hv) as Hl.
  assert (HasPrefix (path_of false l) "/" = false) as Ha.
  { rewrite <-(app_nil_r_str (path_of false l)). by apply (IsAbs_path_of false). }
  split; [|done]. unfold clean, TrimPrefix. rewrite Ha, Clean_path_of by done.
  assert (forall t, path_of false l <> ".." +:+ t \/ (exists c u, t = String c u /\ c <> slash)) as Hdd.
  { intros t. destruct t as [|c u].
    - left. intros E. pose proof (Split_path_of_plain false l Hl) as HS. rewrite E in HS. by inversion HS.
    - destruct (decide (c = slash)) as [->|]; [|right; eauto]. left. intros E.
      pose proof (Split_path_of_plain false l Hl) as HS. rewrite E, Split_app in HS by done. by inversion HS. }
  rewrite bool_decide_eq_false_2.
  2: { destruct (Hdd "") as [H|(? & ? & ? & _)]; [|done]. by rewrite app_nil_r_str in H. }
  assert (HasPrefix (path_of false l) "../" = false) as ->.
  { destruct (HasPrefix (path_of false l) "../") eqn:E; [|done]. apply HasPrefix_spec in E as [t E].
    destruct (Hdd (String slash t)) as [H|(? & ? & [= <- <-] & ?)]; done. }
  assert (ContainsRune (path_of false l) "000" = false) as ->; [|done].
  unfold path_of. destruct l as [|x l]; [done|]. revert Hv. clear. revert x.
  induction l as [|y l IH]; intros x Hv; apply Forall_cons in Hv as [[_ Hx] Hv]; [done|].
  rewrite Join_cons by done. rewrite ContainsRune_app, Hx. by apply IH.
Qed.

Context (a : bool) (d : list string) (Hd : Forall plain_elem d).

Lemma extract_file (total count : Z) (l : list string) (x data : string) (m : gmap (list string) node) (n : nat) :
  valid_path (l ++ [x]) -> ready m (d ++ l) -> m !! (d ++ l ++ [x]) = None ->
  0 <= total -> 0 <= count < max_entries -> total + Z.of_nat (String.length data) <= MaxBytes ->
  exists t, extract_entry calm (path_of a d) (total, count)
      (mkEntry (path_of false (l ++ [x])) TypeReg (Z.of_nat (String.length data)) data) (mkRoot m n) =
    (Ok (total + Z.of_nat (String.length data), count + 1), mkRoot (<[d ++ l ++ [x] := NFile data]> m) t).
Proof.
  unfold max_entries, MaxBytes. intros Hv Hr Hn Ht Hc Hs. pose proof (valid_plain _ Hv) as Hp.
  apply Forall_app in Hp as [Hl Hx]. apply Forall_cons in Hx as [Hx _].
  unfold extract_entry. cbn [e_Name e_Typeflag e_Size e_Body].
  rewrite (int64_id (count + 1)) by (unfold in_int64, max_int64, two63; lia).
  unfold max_entries. destruct (_ <? _) eqn:E; [bool_prop; lia|clear E].
  destruct (clean_path_of _ Hv) as [-> ->]. rewrite JoinPath_path_of by (done || by apply valid_plain).
  unfold MaxBytes. rewrite (int64_id (_ - total)) by (unfold in_int64, max_int64, two63; lia).
  destruct (_ || _) eqn:E; [apply orb_true_iff in E as [E|E]; bool_prop; lia|clear E].
  rewrite (int64_id (total + _)) by (unfold in_int64, max_int64, two63; lia).
  rewrite app_assoc. assert (Forall plain_elem (d ++ l)) as Hdl by by apply Forall_app.
  rewrite Dir_path_of by done.
  destruct (mkdir_ready m n a (d ++ l) Hdl Hr) as [t1 E1].
  unfold mbind, T_bind. rewrite E1, open_write_new by (done || by rewrite <-app_assoc).
  unfold copyN, call, calm, write_file. simpl. rewrite lookup_insert_eq, insert_insert_eq.
  rewrite Nat2Z.id. assert (take_str (String.length data) data = data) as ->.
  { rewrite <-(app_nil_r_str data) at 2. apply take_app_str. }
  rewrite Z.ltb_irrefl. eexists. done.
Qed.

Lemma extract_dir (total count : Z) (l : list string) (x : string) (m : gmap (list string) node) (n : nat) :
  valid_path (l ++ [x]) -> ready m (d ++ l) -> m !! (d ++ l ++ [x]) = None -> 0 <= count < max_entries ->
  exists t, extract_entry calm (path_of a d) (total, count) (mkEntry (path_of false (l ++ [x])) TypeDir 0 "") (mkRoot m n) =
    (Ok (total, count + 1), mkRoot (<[d ++ l ++ [x] := NDir]> m) t).
Proof.
  unfold max_entries. intros Hv Hr Hn Hc. pose proof (valid_plain _ Hv) as Hp.
  apply Forall_app in Hp as [Hl Hx]. apply Forall_cons in Hx as [Hx _].
  unfold extract_entry. cbn [e_Name e_Typeflag].
  rewrite (int64_id (count + 1)) by (unfold in_int64, max_int64, two63; lia).
  unfold max_entries. destruct (_ <? _) eqn:E; [bool_prop; lia|clear E].
  destruct (clean_path_of _ Hv) as [-> ->]. rewrite JoinPath_path_of by (done || by apply valid_plain).
  rewrite app_assoc. assert (Forall plain_elem (d ++ l)) as Hdl by by apply Forall_app.
  destruct (mkdir_new m n a (d ++ l) x Hdl Hx Hr) as [t1 E1]; [by rewrite <-app_assoc|].
  unfold mbind, T_bind. rewrite E1. by exists t1.
Qed.

Lemma extract_top (total count : Z) (m : gmap (list string) node) (n : nat) :
  ready m d -> 0 <= count < max_entries ->
  exists t, extract_entry calm (path_of a d) (total, count) (mkEntry "." TypeDir 0 "") (mkRoot m n) =
    (Ok (total, count + 1), mkRoot m t).
Proof.
  unfold max_entries. intros Hr Hc. unfold extract_entry. cbn [e_Name e_Typeflag].
  rewrite (int64_id (count + 1)) by (unfold in_int64, max_int64, two63; lia).
  unfold max_entries. destruct (_ <? _) eqn:E; [bool_prop; lia|clear E].
  destruct (clean_path_of []) as [E1 E2]; [constructor|]. simpl in E1, E2. rewrite E1. simpl (HasPrefix "." "/").
  change "." with (path_of false []). rewrite JoinPath_path_of by (done || constructor). rewrite app_nil_r.
  destruct (mkdir_ready m n a d Hd Hr) as [t1 E3]. unfold mbind, T_bind. rewrite E3. by exists t1.
Qed.

(** The entries of an archive in order. *)
Fixpoint extract_all (st : Z * Z) (hs : list entry) : T (Z * Z) :=
  match hs with
  | [] => mret st
  | h :: hs => st' ← extract_entry calm (path_of a d) st h; extract_all st' hs
  end.

Lemma extract_all_app (st : Z * Z) (h1 h2 : list entry) (r : Root) :
  extract_all st (h1 ++ h2) r = (st' ← extract_all st h1; extract_all st' h2) r.
Proof.
  revert st r. induction h1 as [|h h1 IH]; intros st r; [done|]. simpl. unfold mbind, T_bind in *.
  destruct (extract_entry _ _ _ _ _) as [[st1|] r1]; [|done]. apply IH.
Qed.

Lemma extract_loop_all (st : Z * Z) (ar : archive) (hs : list entry) (r : Root) :
  a_rest ar = Ok tt -> a_bytes ar < max_stream ->
  extract_loop calm (path_of a d) st ar (Ok <$> hs) r = extract_all st hs r.
Proof.
  intros Hrest Hb. revert st r. induction hs as [|h hs IH]; intros st r; simpl.
  - unfold mbind, T_bind, return_. rewrite Hrest. destruct (_ <=? _) eqn:E; [bool_prop; lia|done].
  - unfold mbind, T_bind. destruct (extract_entry _ _ _ _ _) as [[st1|] r1]; [|done]. apply IH.
Qed.

(** What the walk of a tree writes, extraction places. *)
Definition transfers (t : tree) : Prop :=
  wf_tree t -> forall l x total count es c' t' m n,
  valid_path (l ++ [x]) -> 0 <= count <= max_entries -> 0 <= total <= MaxBytes ->
  walk t (path_of false (l ++ [x])) (count, total) = Ok (es, (c', t')) ->
  ready m (d ++ l) -> (forall p, m !! (d ++ l ++ x :: p) = None) ->
  (exists k, extract_all (total, count) es (mkRoot m n) =
    (Ok (t', c'), mkRoot (place (d ++ l ++ [x]) t m) k)) /\ 0 <= c' <= max_entries /\ 0 <= t' <= MaxBytes.

Lemma walk_Branch (es : list (string * tree)) (name : string) (count total : Z) :
  walk (Branch es) name (count, total) =
  (guard negb (max_entries <? int64 (count + 1)) else Errorf "copy file count limit" in
   let* r := walk_children name es (int64 (count + 1), total) in
   Ok (mkEntry name TypeDir 0 "" :: fst r, snd r)).
Proof. done. Qed.

Lemma walk_children_cons (x name : string) (c : tree) (es : list (string * tree)) (st : Z * Z)
    (r : list entry * (Z * Z)) :
  walk_children name ((x, c) :: es) st = Ok r ->
  (let* r1 := walk c (JoinPath [name; x]) st in
   let* r2 := walk_children name es (snd r1) in
   Ok (fst r1 ++ fst r2, snd r2)) = Ok r.
Proof. by destruct c. Qed.

Lemma ready_place (q p : list string) (t : tree) (m : gmap (list string) node) :
  ~ p `prefix_of` q -> ready m q -> ready (place p t m) q.
Proof.
  intros Hp Hr q' Hq'. destruct q' as [|y q']; [done|]. rewrite kind_lookup by done. rewrite place_other.
  - rewrite <-(kind_lookup m) by done. by apply Hr.
  - intros H. apply Hp. by etrans.
Qed.

Lemma not_prefix_snoc (q : list string) (n : string) : ~ (q ++ [n]) `prefix_of` q.
Proof. intros H. apply prefix_length in H. rewrite length_app in H. simpl in H. lia. Qed.

Lemma transfers_children (es : list (string * tree)) :
  Forall (fun e => transfers (snd e)) es -> NoDup (fst <$> es) ->
  Forall (fun e => valid_name (fst e) /\ wf_tree (snd e)) es ->
  forall l total count ents c' t' m n,
  valid_path l -> 0 <= count <= max_entries -> 0 <= total <= MaxBytes ->
  walk_children (path_of false l) es (count, total) = Ok (ents, (c', t')) ->
  ready m (d ++ l) -> (forall x p, x ∈ fst <$> es -> m !! (d ++ l ++ x :: p) = None) ->
  (exists k, extract_all (total, count) ents (mkRoot m n) =
    (Ok (t', c'), mkRoot (place_children (d ++ l) es m) k)) /\ 0 <= c' <= max_entries /\ 0 <= t' <= MaxBytes.
Proof.
  induction es as [|[x c] es IH]; intros HT Hnd Hes l total count ents c' t' m n Hl Hc Ht HW Hr Hm.
  { simpl in HW. injection HW as <- <- <-. split; [by exists n|done]. }
  apply Forall_cons in HT as [HTc HT]. apply NoDup_cons in Hnd as [Hni Hnd].
  apply Forall_cons in Hes as [[Hx Hwc] Hes]. cbn [fst snd] in *.
  assert (valid_path (l ++ [x])) as Hlx by (apply Forall_app; split; [done|by constructor]).
  assert (JoinPath [path_of false l; x] = path_of false (l ++ [x])) as HJ.
  { change x with (path_of false [x]) at 1. apply JoinPath_path_of; [by apply valid_plain|].
    constructor; [by destruct Hx|constructor]. }
  apply walk_children_cons in HW as HW'. rewrite HJ in HW'. clear HW. destruct (walk c _ _) as [[e1 [c1 t1]]|] eqn:E1; [|done]. simpl in HW'.
  destruct (walk_children _ es _) as [[e2 [c2 t2]]|] eqn:E2; [|done]. simpl in HW'. injection HW' as <- <- <-.
  destruct (HTc Hwc l x total count e1 c1 t1 m n Hlx Hc Ht E1 Hr) as ([k1 X1] & B1 & B2).
  { intros p. apply Hm. by left. }
  set (m1 := place (d ++ l ++ [x]) c m) in *.
  destruct (IH HT Hnd Hes l t1 c1 e2 c2 t2 m1 k1 Hl B1 B2 E2) as ([k2 X2] & B3 & B4).
  - apply ready_place; [|done]. rewrite app_assoc. apply not_prefix_snoc.
  - intros y p Hy. unfold m1. rewrite place_other; [apply Hm; by right|].
    rewrite !app_assoc. intros H. apply snoc_prefix_inv in H. by subst.
  - split; [|done]. exists k2. rewrite extract_all_app. unfold mbind, T_bind. rewrite X1, X2.
    unfold m1. by rewrite app_assoc.
Qed.

Lemma transfers_tree (t : tree) : transfers t.
Proof.
  induction t as [data|es IH|tg|] using tree_ind'; intros Hwf l x total count ents c' t' m n Hv Hc Ht HW Hr Hm.
  - remember (path_of false (l ++ [x])) as nm eqn:Hnm. cbn [walk] in HW. assert (int64 (count + 1) = count + 1) as Hi.
    { apply int64_id. unfold max_entries, in_int64, max_int64, two63 in *. lia. }
    rewrite Hi in HW.
    rewrite (int64_id (MaxBytes - total)) in HW by (unfold MaxBytes, in_int64, max_int64, two63 in *; lia).
    destruct (max_entries <? count + 1) eqn:E1; [done|]. cbn [negb] in HW.
    destruct (MaxBytes - total <? Z.of_nat (String.length data)) eqn:E2; [done|]. cbn [negb] in HW. bool_prop.
    rewrite int64_id in HW by (unfold MaxBytes, in_int64, max_int64, two63 in *; lia).
    injection HW as <- <- <-. split; [|lia]. subst nm.
    destruct (extract_file total count l x data m n) as [k X]; [done|done| |lia..|].
    { specialize (Hm []). done. }
    exists k. cbn [extract_all]. unfold mbind, T_bind. rewrite X. done.
  - inversion Hwf as [|es' Hnd Hes| |]; subst. remember (path_of false (l ++ [x])) as nm eqn:Hnm. rewrite walk_Branch in HW.
    rewrite (int64_id (count + 1)) in HW by (unfold max_entries, in_int64, max_int64, two63 in *; lia).
    destruct (max_entries <? count + 1) eqn:E1; [done|]. bool_prop. cbn [negb] in HW.
    destruct (walk_children _ _ _) as [[e1 [c1 t1]]|] eqn:E2; [|done]. cbn [result_bind fst snd] in HW. injection HW as <- <- <-. subst nm.
    destruct (extract_dir total count l x m n) as [k X]; [done|done| |lia|].
    { specialize (Hm []). done. }
    set (m1 := <[d ++ l ++ [x] := NDir]> m) in *.
    assert (ready m1 (d ++ l ++ [x])) as Hr1.
    { rewrite app_assoc. apply ready_snoc; [|unfold m1; rewrite app_assoc; apply lookup_insert_eq].
      intros q Hq. destruct q as [|y q]; [done|]. rewrite kind_lookup by done. unfold m1.
      rewrite lookup_insert_ne; [rewrite <-(kind_lookup m) by done; by apply Hr|].
      intros E. rewrite <-E, app_assoc in Hq. by apply not_prefix_snoc in Hq. }
    destruct (transfers_children es IH Hnd Hes (l ++ [x]) total (count + 1) e1 c1 t1 m1 k) as ([k2 X2] & B); try done; [lia| |].
    + intros y p _. unfold m1. rewrite <-app_assoc. simpl. rewrite lookup_insert_ne; [apply Hm|].
      intros E. rewrite (cons_middle x l (y :: p)), !app_assoc in E. by apply app_neq_self in E.
    + split; [|done]. exists k2. rewrite place_Branch. cbn [extract_all]. unfold mbind, T_bind. rewrite X.
      fold m1. exact X2.
  - simpl in HW. by destruct (negb _).
  - simpl in HW. by destruct (negb _).
Qed.
End Calm.

(** ** The last element of a cleaned path *)

Lemma drop_trailing_atom (x : string) : ContainsRune x slash = false -> drop_trailing_slashes x = x.
Proof.
  induction x as [|c x IH]; [done|]. simpl. intros H. apply orb_false_iff in H as [H1 H2].
  rewrite IH by done. destruct x; [|done]. by rewrite H1.
Qed.

Lemma drop_trailing_app (s x : string) :
  x <> "" -> ContainsRune x slash = false -> drop_trailing_slashes (s +:+ x) = s +:+ x.
Proof.
  intros Hx Hc. induction s as [|c s IH]; [by apply drop_trailing_atom|].
  rewrite app_cons_str. simpl. rewrite IH. destruct s; [by destruct x|done].
Qed.

Lemma path_of_snoc (a : bool) (l : list string) (x : string) : exists s, path_of a (l ++ [x]) = s +:+ x.
Proof.
  assert (exists s, Join (l ++ [x]) slash = s +:+ x) as [s Hs].
  { induction l as [|y l [s IH]]; [by exists ""|]. exists (y +:+ String slash s).
    change ((y :: l) ++ [x]) with (y :: (l ++ [x])). rewrite Join_cons by by destruct l.
    rewrite IH. by rewrite app_assoc_str, app_cons_str. }
  unfold path_of. destruct a; [exists ("/" +:+ s); by rewrite Hs, app_assoc_str|]. exists s. rewrite <-Hs. by destruct l.
Qed.

Lemma Base_path_of (a : bool) (l : list string) (x : string) :
  Forall plain_elem l -> plain_elem x -> Base (path_of a (l ++ [x])) = x.
Proof.
  intros Hl Hx. assert (Forall plain_elem (l ++ [x])) as Hlx by (apply Forall_app; auto).
  unfold Base. rewrite bool_decide_eq_false_2 by by apply path_of_ne.
  assert (drop_trailing_slashes (path_of a (l ++ [x])) = path_of a (l ++ [x])) as ->.
  { destruct (path_of_snoc a l x) as [s ->]. destruct Hx as (H1 & _ & _ & H2). by apply drop_trailing_app. }
  destruct (path_of a (l ++ [x])) as [|c p] eqn:E; [by apply path_of_ne in E|]. rewrite <-E, Split_path_of by done.
  assert (match l ++ [x] with [] => [if a then "" else "."] | _ => l ++ [x] end = l ++ [x]) as -> by by destruct l.
  rewrite app_assoc. apply List.last_last.
Qed.

Lemma clean_no_nul (s p : string) : clean s = Ok p -> ContainsRune p "000" = false.
Proof.
  unfold clean. destruct (_ || _) eqn:E; [done|]. intros [= <-]. by apply orb_false_iff in E as [_ ?].
Qed.

(** A source below the root keeps its own name in the archive. *)
Lemma clean_Base (s p : string) : clean s = Ok p -> p <> "." -> p <> "/" -> valid_name (Base p).
Proof.
  intros H H1 H2. pose proof (clean_no_nul s p H) as Hn. apply clean_ok in H as (a & l & -> & Hl & _).
  destruct l as [|x l _] using rev_ind; [by destruct a|].
  apply Forall_app in Hl as [Hl Hx]. apply Forall_cons in Hx as [Hx _]. rewrite Base_path_of by done.
  split; [done|]. destruct (path_of_snoc a l x) as [q E]. rewrite E, ContainsRune_app in Hn. apply orb_false_iff in Hn as [_ Hn]. exact Hn.
Qed.

(** ** Copying a tree *)

(** Where the top of a source lands: a directory is merged into the
    destination, a file is put into it under its own name. *)
Definition landing (t : tree) (src : string) (d : list string) : list string :=
  match t with Branch _ => d | _ => d ++ [Base src] end.

Lemma place_children_insert (d : list string) (es : list (string * tree)) (m : gmap (list string) node) (q : list string) :
  Forall (fun e => valid_name (fst e) /\ wf_tree (snd e)) es -> NoDup (fst <$> es) ->
  (forall x p, m !! (d ++ x :: p) = None) ->
  place_children d es m !! (d ++ q) = match q with [] => m !! d | _ => node_of <$> find (Branch es) q end.
Proof.
  intros Hes Hnd Hm. destruct q as [|x q].
  - rewrite app_nil_r. apply place_children_other. intros n _. apply not_prefix_snoc.
  - rewrite place_children_find; [|by apply Forall_true; intros; apply place_find|done..|intros; apply Hm].
    simpl. destruct (list_find _ es) as [[]|]; [done|]. by rewrite Hm.
Qed.

Lemma archived_count (t : tree) (name : string) (es : list entry) :
  archiveFile t name = Ok es -> exists c b, walk t name (0, 0) = Ok (es, (c, b)).
Proof.
  unfold archiveFile. destruct (walk t name (0, 0)) as [[es' [c b]]|]; [|done]. intros H. simpl in H.
  injection H as <-. eauto.
Qed.

Definition lands (t : tree) (name : string) (d : list string) : list string :=
  match t with Branch _ => d | _ => d ++ [name] end.

(** What was archived under a name is restored by extraction. *)
Lemma archive_restores (name dest : string) (t : tree) (a : bool) (d : list string) (ar : archive) (es : list entry) (r : Root) :
  wf_tree t -> (forall data, t = Leaf data -> valid_name name) -> (forall ts, t = Branch ts -> name = ".") ->
  archiveFile t name = Ok es ->
  a_entries ar = Ok <$> es -> a_rest ar = Ok tt -> a_bytes ar < max_stream ->
  clean dest = Ok (path_of a d) -> Forall plain_elem d ->
  ready (r_nodes r) d -> (forall x p, r_nodes r !! (d ++ x :: p) = None) ->
  exists st r', extract calm dest ar r = (Ok st, r') /\
    (forall q, q <> [] -> r_nodes r' !! (lands t name d ++ q) = node_of <$> find t q) /\
    kind (r_nodes r') (lands t name d) = Some (node_of t) /\
    (forall q, ~ lands t name d `prefix_of` q -> r_nodes r' !! q = r_nodes r !! q).
Proof.
  intros Hwf Hleaf Hbranch HA He Hrest Hb Hdest Hd Hr Hm. destruct r as [m n]. simpl in *.
  apply archived_count in HA as (c & b & HW).
  unfold extract, return_, mbind, T_bind. rewrite Hdest, He, extract_loop_all by done.
  destruct t as [data|ts|tg|].
  - pose proof (Hleaf data eq_refl) as Hv. assert (valid_path ([] ++ [name])) as Hvp by (by constructor).
    destruct (transfers_tree a d Hd (Leaf data) Hwf [] (name) 0 0 es c b m n Hvp) as ([k X] & _); try done.
    + by rewrite app_nil_r.
    + intros p. apply Hm.
    + exists (b, c), (mkRoot (<[d ++ [name] := NFile data]> m) k). split; [exact X|]. cbn [r_nodes lands]. split_and!.
      * intros q Hq. rewrite lookup_insert_ne by by apply app_neq_self. rewrite <-app_assoc.
        cbn [app]. rewrite Hm. by destruct q.
      * rewrite kind_lookup by by destruct d. by rewrite lookup_insert_eq.
      * intros q Hq. apply lookup_insert_ne. intros E. apply Hq. by rewrite E.
  - rewrite (Hbranch ts eq_refl), walk_Branch in HW. change (max_entries <? int64 (0 + 1)) with false in HW.
    cbn [negb] in HW. change (int64 (0 + 1)) with 1 in HW.
    destruct (walk_children "." ts (1, 0)) as [[e1 [c1 b1]]|] eqn:E; [|done].
    cbn [result_bind fst snd] in HW. injection HW as <- <- <-.
    inversion Hwf as [|ts' Hnd Hes| |]; subst.
    destruct (extract_top a d Hd 0 0 m n Hr) as [k1 X1]; [unfold max_entries; lia|].
    destruct (transfers_children a d ts) with (l := @nil string) (total := 0) (count := 1) (ents := e1) (c' := c1)
      (t' := b1) (m := m) (n := k1) as ([k2 X2] & _); try done.
    + apply Forall_true. intros e. by apply transfers_tree.
    + by constructor.
    + by rewrite app_nil_r.
    + intros x p _. apply Hm.
    + rewrite app_nil_r in X2. exists (b1, c1), (mkRoot (place_children d ts m) k2). split_and!.
      * cbn [extract_all]. unfold mbind, T_bind. rewrite X1. exact X2.
      * intros q Hq. cbn [r_nodes lands]. rewrite place_children_insert by done. by destruct q.
      * cbn [r_nodes lands node_of]. destruct d as [|x d]; [done|]. rewrite kind_lookup by done.
        pose proof (place_children_insert (x :: d) ts m [] Hes Hnd Hm) as HE. rewrite app_nil_r in HE. rewrite HE. rewrite <-(kind_lookup m) by done. by apply Hr.
      * intros q Hq. cbn [r_nodes lands]. apply place_children_other. intros y _ H. apply Hq. etrans; [|exact H].
        by apply prefix_app_r.
  - cbn in HW. done.
  - cbn in HW. done.
Qed.

(** Copying round trip: whatever [archiveAt] puts in an archive, extraction
    restores below an existing, empty destination directory: every file with
    its data, every directory, and nothing else; the rest of the root is
    untouched. *)
Theorem copy_roundtrip (open : string -> result tree) (source s dest : string) (t : tree)
    (a : bool) (d : list string) (ar : archive) (es : list entry) (r : Root) :
  clean source = Ok s -> open s = Ok t -> wf_tree t -> (forall data, t = Leaf data -> s <> "." /\ s <> "/") ->
  archiveAt open source = Ok es ->
  a_entries ar = Ok <$> es -> a_rest ar = Ok tt -> a_bytes ar < max_stream ->
  clean dest = Ok (path_of a d) -> Forall plain_elem d ->
  ready (r_nodes r) d -> (forall x p, r_nodes r !! (d ++ x :: p) = None) ->
  exists st r', extract calm dest ar r = (Ok st, r') /\
    (forall q, q <> [] -> r_nodes r' !! (landing t s d ++ q) = node_of <$> find t q) /\
    kind (r_nodes r') (landing t s d) = Some (node_of t) /\
    (forall q, ~ landing t s d `prefix_of` q -> r_nodes r' !! q = r_nodes r !! q).
Proof.
  intros Hsrc Ho Hwf Hroot HA. unfold archiveAt in HA. rewrite Hsrc in HA. simpl in HA. rewrite Ho in HA. simpl in HA.
  assert (landing t s d = lands t (archive_name t s) d) as ->.
  { destruct t; done. }
  apply archive_restores; [done| |by intros ts ->|done].
  intros data ->. destruct (Hroot data eq_refl) as [H1 H2]. by apply (clean_Base source s).
Qed.

Module Sample.
Definition data : tree := Branch [("a", Leaf "hello"); ("b", Branch [("c", Leaf "")])].
Definition open (s : string) : result tree := if bool_decide (s = "in") then Ok data else Err ENOENT.
Definition es : list entry :=
  [mkEntry "." TypeDir 0 ""; mkEntry "a" TypeReg 5 "hello"; mkEntry "b" TypeDir 0 ""; mkEntry "b/c" TypeReg 0 ""].
Definition ar : archive := mkArchive (Ok <$> es) (Ok tt) 4096.
Definition root : Root := mkRoot {[["out"] := NDir]} 0.

Lemma data_wf : wf_tree data.
Proof.
  repeat (constructor || (split; [split; [|done]; unfold plain_elem; split_and!; done|]) || set_solver).
Qed.

Lemma root_ready : ready (r_nodes root) ["out"].
Proof.
  intros p Hp. destruct p as [|x [|y p]]; [done| |apply prefix_length in Hp; simpl in Hp; lia].
  destruct Hp as [k Hk]. simpl in Hk. injection Hk as <- _. done.
Qed.

Lemma root_empty (x : string) (p : list string) : r_nodes root !! (["out"] ++ x :: p) = None.
Proof. apply lookup_singleton_ne. by intros [=]. Qed.
End Sample.

Lemma extract_bounded_witness : exists hs, Ok <$> Sample.es = Ok <$> hs /\ sizes hs = 5.
Proof.
  destruct (extract_bounded calm "/out" Sample.ar Sample.root (snd (extract calm "/out" Sample.ar Sample.root)) 5 4)
    as (hs & H1 & _ & _ & H2 & _).
  - vm_compute. reflexivity.
  - exists hs. split; [exact H1|symmetry; exact H2].
Defined.

Lemma copy_roundtrip_witness :
  exists st r', extract calm "/out" Sample.ar Sample.root = (Ok st, r') /\
    r_nodes r' !! ["out"; "b"; "c"] = Some (NFile "").
Proof.
  destruct (copy_roundtrip Sample.open "/in" "in" "/out" Sample.data false ["out"] Sample.ar Sample.es Sample.root)
    as (st & r' & H1 & H2 & _).
  - vm_compute. reflexivity.
  - vm_compute. reflexivity.
  - exact Sample.data_wf.
  - intros d E. discriminate E.
  - vm_compute. reflexivity.
  - reflexivity.
  - reflexivity.
  - reflexivity.
  - vm_compute. reflexivity.
  - repeat constructor; discriminate.
  - exact Sample.root_ready.
  - exact Sample.root_empty.
  - exists st, r'. split; [exact H1|]. exact (H2 ["b"; "c"] ltac:(discriminate)).
Defined.
