(* ===== verification/BuildSnapshot.v ===== *)
(** * BuildSnapshot: private copies for a base build (internal/cli/build_snapshot.go)

    A publisher's build gets fresh copies of its local directories, made from
    open descriptors, so that the signing key can never be among them.  A source
    is a tree of objects with the inode a descriptor refers to; a file's size at
    [fstat] and the bytes later read may differ.  Every system call may fail.
    The copy is a directory map as in [Filecopy]; permission bits are left out,
    so [chmod] is a call that may fail and no more. *)

From S2P Require Import Prelude GoLib Filecopy.
Import Strings Path.
Local Open Scope Z_scope.
Local Open Scope go_scope.

Inductive obj : Type :=
| OFile (ino size : Z) (data : string)
| ODir (ino : Z) (entries : list (string * obj))
| OLink (ino : Z) (target : string)
| OSpecial (ino : Z).

Section ObjInd.
Context (P : obj -> Prop).
Hypothesis HFile : forall i n d, P (OFile i n d).
Hypothesis HDir : forall i es, Forall (fun e => P (snd e)) es -> P (ODir i es).
Hypothesis HLink : forall i t, P (OLink i t).
Hypothesis HSpecial : forall i, P (OSpecial i).
Fixpoint obj_ind' (o : obj) : P o :=
  match o with
  | OFile i n d => HFile i n d
  | ODir i es => HDir i es ((fix go es : Forall (fun e => P (snd e)) es :=
                     match es with
                     | [] => Forall_nil_2 _
                     | e :: es => Forall_cons_2 _ _ _ (obj_ind' (snd e)) (go es)
                     end) es)
  | OLink i t => HLink i t
  | OSpecial i => HSpecial i
  end.
End ObjInd.

Definition inode (o : obj) : Z :=
  match o with OFile i _ _ | ODir i _ | OLink i _ | OSpecial i => i end.

(** [buildSnapshot], with the private tree and the number of calls made. *)
Record snapshot : Type := mkSnapshot {
  sn_bytes : Z; sn_entries : Z; sn_links : list (list string);
  sn_out : gmap (list string) node; sn_clock : nat }.

Definition max_depth : nat := 128.
Definition ErrLinks : error := Errorf "base build symlinks must be relative and confined to their local root".

(** The first [n] bytes of a reader, [io.LimitReader]. *)
Fixpoint take_Z (n : Z) (s : string) : string :=
  match s with
  | EmptyString => EmptyString
  | String c s => if 0 <? n then String c (take_Z (n - 1) s) else EmptyString
  end.

Section Copy.
Variable fault : nat -> option error.
Variables key stage : Z.

(** A system call. *)
Definition sys (s : snapshot) : result snapshot :=
  match fault (sn_clock s) with
  | Some e => Err e
  | None => Ok (mkSnapshot (sn_bytes s) (sn_entries s) (sn_links s) (sn_out s) (S (sn_clock s)))
  end.

(** A call that creates [dest], which must not exist. *)
Definition create (dest : list string) (n : node) (s : snapshot) : result snapshot :=
  let* s := sys s in
  match sn_out s !! dest with
  | Some _ => Err EEXIST
  | None => Ok (mkSnapshot (sn_bytes s) (sn_entries s) (sn_links s) (<[dest := n]> (sn_out s)) (sn_clock s))
  end.

Definition add_link (dest : list string) (s : snapshot) : snapshot :=
  mkSnapshot (sn_bytes s) (sn_entries s) (sn_links s ++ [dest]) (sn_out s) (sn_clock s).

(** The regular file of [copyEntry]. *)
Definition copy_file (size : Z) (data : string) (dest : list string) (s : snapshot) : result snapshot :=
  let remaining := int64 (MaxBytes - sn_bytes s) in
  guard negb (remaining <? size) else Errorf "base build local exceeds 512 MiB" in
  let* s := create dest (NFile "") s in
  let* s := sys s in
  let got := take_Z (int64 (remaining + 1)) data in
  let n := Z.of_nat (String.length got) in
  let s := mkSnapshot (int64 (sn_bytes s + n)) (sn_entries s) (sn_links s) (<[dest := NFile got]> (sn_out s)) (sn_clock s) in
  guard negb (remaining <? n) else Errorf "base build local exceeds 512 MiB" in
  let* s := sys s in
  sys s.

(** [copyEntry], and [copyDir] in its directory case; [depth] is the depth of
    the parent. *)
Fixpoint copyEntry (o : obj) (dest : list string) (depth : nat) (s : snapshot) : result snapshot :=
  let* s := sys s in
  guard negb (bool_decide (inode o = key)) else Errorf "publisher signing key has an alias in a BuildKit local root" in
  match o with
  | OLink _ target =>
      let* s := sys s in
      guard negb ((4096 <=? Z.of_nat (String.length target)) || IsAbs target) else ErrLinks in
      let* s := create dest (NSymlink target) s in
      Ok (add_link dest s)
  | OSpecial _ => Err (Errorf "base build locals support only regular files, directories and confined relative symlinks")
  | OFile _ size data => let* s := sys s in copy_file size data dest s
  | ODir ino es =>
      let* s := sys s in
      let* s := create dest NDir s in
      guard negb (max_depth <? S depth)%nat else Errorf "base build local exceeds 128 directory levels" in
      let* s := sys s in
      guard negb (bool_decide (ino = stage)) else Errorf "base build staging directory must be outside local roots" in
      let* s := (fix entries es s :=
        match es with
        | [] => Ok s
        | (name, c) :: es =>
            let* s := sys s in
            let s := mkSnapshot (sn_bytes s) (int64 (sn_entries s + 1)) (sn_links s) (sn_out s) (sn_clock s) in
            guard negb (10000 <? sn_entries s) else Errorf "base build local exceeds 10,000 entries" in
            let* s := copyEntry c (dest ++ [name]) (S depth) s in
            entries es s
        end) es s in
      sys s
  end.

(** The loop of [copyDir] over the entries of a directory at [depth]. *)
Definition copy_entries (dest : list string) (depth : nat) : list (string * obj) -> snapshot -> result snapshot :=
  fix entries es s :=
    match es with
    | [] => Ok s
    | (name, c) :: es =>
        let* s := sys s in
        let s := mkSnapshot (sn_bytes s) (int64 (sn_entries s + 1)) (sn_links s) (sn_out s) (sn_clock s) in
        guard negb (10000 <? sn_entries s) else Errorf "base build local exceeds 10,000 entries" in
        let* s := copyEntry c (dest ++ [name]) depth s in
        entries es s
    end.

(** [copyDir] *)
Definition copyDir (ino : Z) (es : list (string * obj)) (dest : list string) (depth : nat) (s : snapshot)
  : result snapshot :=
  guard negb (max_depth <? depth)%nat else Errorf "base build local exceeds 128 directory levels" in
  let* s := sys s in
  guard negb (bool_decide (ino = stage)) else Errorf "base build staging directory must be outside local roots" in
  let* s := copy_entries dest depth es s in
  sys s.
End Copy.

(** ** Symbolic links *)

(** Path resolution of [openat2] with [RESOLVE_BENEATH], following links; the
    fuel is the number of links the kernel follows. *)
Fixpoint beneath (m : gmap (list string) node) (fuel : nat) : list string -> list string -> result (list string) :=
  fix go cur parts :=
    match parts with
    | [] => Ok cur
    | p :: parts =>
        if bool_decide (p = "" \/ p = ".") then go cur parts
        else if bool_decide (p = "..") then
          match cur with [] => Err (Errorf "invalid cross-device link") | _ => go (removelast cur) parts end
        else match m !! (cur ++ [p]) with
             | None => Err ENOENT
             | Some NDir => go (cur ++ [p]) parts
             | Some (NFile _) | Some (NOther _) =>
                 match parts with [] => Ok (cur ++ [p]) | _ => Err ENOTDIR end
             | Some (NSymlink target) =>
                 if IsAbs target then Err (Errorf "invalid cross-device link")
                 else match fuel with
                      | 0%nat => Err ELOOP
                      | S fuel => beneath m fuel cur (Split target slash ++ parts)
                      end
             end
    end.

Definition max_links : nat := 40.

(** The loop of [validateLinks]. *)
Fixpoint validate_each (fault : nat -> option error) (s : snapshot) (links : list (list string)) : result unit :=
  match links with
  | [] => Ok tt
  | l :: links =>
      match (let* s := sys fault s in let* _ := beneath (sn_out s) max_links [] l in Ok s) with
      | Ok s => validate_each fault s links
      | Err e => Err (Wrap "base build symlink must resolve within its local root" e)
      end
  end.

(** [validateLinks] on the finished tree. *)
Definition validateLinks (fault : nat -> option error) (s : snapshot) : result unit :=
  let* s := sys fault s in validate_each fault s (sn_links s).

(** ** Roots and the key *)

(** [filepath.Rel] of two absolute paths. *)
Fixpoint strip_common (a b : list string) : list string * list string :=
  match a, b with
  | x :: a', y :: b' => if bool_decide (x = y) then strip_common a' b' else (a, b)
  | _, _ => (a, b)
  end.
Definition Rel (root name : string) : string :=
  let '(a, b) := strip_common (clean_elems root) (clean_elems name) in
  match (replicate (length a) ".." ++ b)%list with [] => "." | l => Join l slash end.

(** [withinExportedRoot] *)
Definition withinExportedRoot (root name : string) : bool :=
  let rel := Rel root name in negb (bool_decide (rel = "..")) && negb (HasPrefix rel "../").

(** A root: its name and resolved name, whether opening it and creating its
    copy fail, and the directory opened. *)
Record root : Type := mkRoot_ {
  ro_abs : string; ro_resolved : string; ro_open : result unit; ro_mkdir : result unit;
  ro_ino : Z; ro_entries : list (string * obj) }.

Definition empty_snapshot : snapshot := mkSnapshot 0 0 [] ∅ 0.

(** One round of the loop of [prepareBaseBuild]. *)
Definition stage_root (fault : nat -> option error) (key stage : Z) (keyPath resolvedKey : string) (r : result root)
  : result snapshot :=
  let* r := r in
  guard negb (withinExportedRoot (ro_abs r) keyPath || withinExportedRoot (ro_resolved r) resolvedKey)
    else Errorf "publisher signing key must be outside BuildKit local roots" in
  let* _ := ro_open r in
  match (let* _ := ro_mkdir r in
         let* s := copyDir fault key stage (ro_ino r) (ro_entries r) [] 0 empty_snapshot in
         let* _ := validateLinks fault s in
         Ok s) with
  | Ok s => Ok s
  | Err e => Err (Wrap "stage BuildKit local root" e)
  end.

Fixpoint stage_roots (fault : nat -> nat -> option error) (key stage : Z) (keyPath resolvedKey : string) (i : nat)
    (rs : list (result root)) : result (list snapshot) :=
  match rs with
  | [] => Ok []
  | r :: rs =>
      let* s := stage_root (fault i) key stage keyPath resolvedKey r in
      let* l := stage_roots fault key stage keyPath resolvedKey (S i) rs in
      Ok (s :: l)
  end.

(** The pinned key file. *)
Record keyfile : Type := mkKeyfile { kf_ino : Z; kf_regular : bool; kf_size : Z; kf_read : result string }.

(** [prepareBaseBuild]; [decode] is the base64 decoder. *)
Definition prepareBaseBuild (fault : nat -> nat -> option error) (decode : string -> result string)
    (kf : result keyfile) (stage : result Z) (keyPath resolvedKey : string) (rs : list (result root))
  : result (string * list snapshot) :=
  let* kf := kf in
  guard kf_regular kf && negb (4096 <? kf_size kf)
    else Errorf "publisher signing key must be a regular file of at most 4096 bytes" in
  let* stage := stage in
  let* snapshots := stage_roots fault (kf_ino kf) stage keyPath resolvedKey 0 rs in
  let* data := kf_read kf in
  let raw := take_Z 4097 data in
  match decode (TrimSpace raw) with
  | Ok key =>
      guard negb (4096 <? Z.of_nat (String.length raw)) && (String.length key =? 64)%nat
        else Errorf "invalid Ed25519 publisher signing key" in
      Ok (key, snapshots)
  | Err _ => Err (Errorf "invalid Ed25519 publisher signing key")
  end.

(** ** What is copied *)

(** The part of a source a copy can hold, as a tree of [Filecopy]. *)
Fixpoint tree_of (o : obj) : tree :=
  match o with
  | OFile _ _ data => Leaf data
  | ODir _ es => Branch ((fix go es := match es with [] => [] | (n, c) :: es => (n, tree_of c) :: go es end) es)
  | OLink _ target => Link target
  | OSpecial _ => Special
  end.

Definition trees_of (es : list (string * obj)) : list (string * tree) := (fun e => (fst e, tree_of (snd e))) <$> es.

Lemma tree_of_ODir (i : Z) (es : list (string * obj)) : tree_of (ODir i es) = Branch (trees_of es).
Proof. simpl. f_equal. induction es as [|[n c] es IH]; simpl; [done|]. by rewrite IH. Qed.

(** Sums over a source. *)
Fixpoint obj_bytes (o : obj) : Z :=
  match o with
  | OFile _ _ data => Z.of_nat (String.length data)
  | ODir _ es => (fix go es := match es with [] => 0 | (_, c) :: es => obj_bytes c + go es end) es
  | _ => 0
  end.
Definition entries_bytes (es : list (string * obj)) : Z := foldr (fun e n => obj_bytes (snd e) + n) 0 es.

Fixpoint obj_count (o : obj) : Z :=
  match o with
  | ODir _ es => (fix go es := match es with [] => 0 | (_, c) :: es => 1 + obj_count c + go es end) es
  | _ => 0
  end.
Definition entries_count (es : list (string * obj)) : Z := foldr (fun e n => 1 + obj_count (snd e) + n) 0 es.

Fixpoint obj_links (o : obj) (q : list string) : list (list string) :=
  match o with
  | OLink _ _ => [q]
  | ODir _ es => (fix go es := match es with [] => [] | (n, c) :: es => obj_links c (q ++ [n]) ++ go es end) es
  | _ => []
  end.
Definition entries_links (es : list (string * obj)) (q : list string) : list (list string) :=
  es ≫= fun e => obj_links (snd e) (q ++ [fst e]).

Lemma obj_bytes_ODir (i : Z) (es : list (string * obj)) : obj_bytes (ODir i es) = entries_bytes es.
Proof. simpl. induction es as [|[n c] es IH]; simpl; [done|]. by rewrite IH. Qed.
Lemma obj_count_ODir (i : Z) (es : list (string * obj)) : obj_count (ODir i es) = entries_count es.
Proof. simpl. induction es as [|[n c] es IH]; [done|]. cbn [entries_count foldr snd]. by rewrite IH. Qed.
Lemma obj_links_ODir (i : Z) (es : list (string * obj)) (q : list string) :
  obj_links (ODir i es) q = entries_links es q.
Proof. simpl. unfold entries_links. induction es as [|[n c] es IH]; simpl; [done|]. by rewrite IH. Qed.

Lemma obj_count_pos (o : obj) : 0 <= obj_count o.
Proof.
  induction o as [| i es IH | |] using obj_ind'; try (simpl; lia). rewrite obj_count_ODir.
  induction IH as [|[n c] es Hc Hes IH]; simpl; [lia|]. simpl in Hc. lia.
Qed.
Lemma entries_count_pos (es : list (string * obj)) : 0 <= entries_count es.
Proof. induction es as [|[n c] es IH]; simpl; [lia|]. pose proof (obj_count_pos c). lia. Qed.
Lemma obj_bytes_pos (o : obj) : 0 <= obj_bytes o.
Proof.
  induction o as [| i es IH | |] using obj_ind'; try (simpl; lia). rewrite obj_bytes_ODir.
  induction IH as [|[n c] es Hc Hes IH]; simpl; [lia|]. simpl in Hc. lia.
Qed.
Lemma entries_bytes_pos (es : list (string * obj)) : 0 <= entries_bytes es.
Proof. induction es as [|[n c] es IH]; simpl; [lia|]. pose proof (obj_bytes_pos c). lia. Qed.

(** A source without the key, without the staging directory, without special
    files and with relative links only; [depth] levels of directories are
    above it. *)
Inductive exportable (key stage : Z) : nat -> obj -> Prop :=
| ex_file d i n data : i <> key -> exportable key stage d (OFile i n data)
| ex_link d i target : i <> key -> IsAbs target = false -> exportable key stage d (OLink i target)
| ex_dir d i es :
    i <> key -> i <> stage -> (S d <= max_depth)%nat ->
    Forall (fun e => exportable key stage (S d) (snd e)) es -> exportable key stage d (ODir i es).

Lemma take_Z_all (n : Z) (s : string) : Z.of_nat (String.length (take_Z n s)) < n -> take_Z n s = s.
Proof.
  revert n. induction s as [|c s IH]; intros n; [done|]. cbn [take_Z]. destruct (0 <? n) eqn:E; bool_prop.
  - cbn [String.length]. intros H. rewrite IH; [done|lia].
  - cbn. lia.
Qed.

Section CopyProofs.
Context (fault : nat -> option error) (key stage : Z).

Definition same_data (s s' : snapshot) : Prop :=
  sn_bytes s' = sn_bytes s /\ sn_entries s' = sn_entries s /\ sn_links s' = sn_links s /\ sn_out s' = sn_out s.

Lemma sys_ok (s s' : snapshot) : sys fault s = Ok s' -> same_data s s'.
Proof. unfold sys. destruct (fault _); [done|]. by intros [= <-]. Qed.

Lemma create_ok (dest : list string) (n : node) (s s' : snapshot) :
  create fault dest n s = Ok s' ->
  sn_out s !! dest = None /\ sn_bytes s' = sn_bytes s /\ sn_entries s' = sn_entries s /\ sn_links s' = sn_links s /\
  sn_out s' = <[dest := n]> (sn_out s).
Proof.
  unfold create. destruct (sys fault s) as [s1|] eqn:E; [|done]. apply sys_ok in E as (E1 & E2 & E3 & E4).
  cbn [result_bind]. destruct (sn_out s1 !! dest) eqn:El; [done|]. intros [= <-]. cbn [sn_bytes sn_entries sn_links sn_out].
  rewrite E4 in *. done.
Qed.

(** The bounds a copy in progress keeps. *)
Definition within (s : snapshot) : Prop := 0 <= sn_bytes s <= MaxBytes /\ 0 <= sn_entries s <= 10000.

(** What copying [o] to [dest] does. *)
Definition copied (o : obj) (dest : list string) (s s' : snapshot) : Prop :=
  within s' /\ sn_bytes s' = sn_bytes s + obj_bytes o /\ sn_entries s' = sn_entries s + obj_count o /\
  sn_links s' = sn_links s ++ obj_links o dest /\ sn_out s' = place dest (tree_of o) (sn_out s).

Definition copies (o : obj) : Prop := forall dest depth s s',
  within s -> copyEntry fault key stage o dest depth s = Ok s' -> exportable key stage depth o /\ copied o dest s s'.

Lemma copy_file_ok (size : Z) (data : string) (dest : list string) (s s' : snapshot) (i : Z) :
  within s -> copy_file fault size data dest s = Ok s' -> copied (OFile i size data) dest s s'.
Proof.
  intros [Hb He] H. unfold copy_file in H. unfold MaxBytes in *.
  rewrite (int64_id (536870912 - sn_bytes s)) in H by (unfold in_int64, two63, max_int64; lia).
  rewrite (int64_id (536870912 - sn_bytes s + 1)) in H by (unfold in_int64, two63, max_int64; lia).
  set (got := take_Z _ data) in H.
  destruct (negb _) eqn:E0; [|done]. clear E0.
  destruct (create fault dest (NFile "") s) as [s1|] eqn:E1; [|done]. cbn [result_bind] in H.
  apply create_ok in E1 as (E1 & E2 & E3 & E4 & E5).
  destruct (sys fault s1) as [s2|] eqn:E6; [|done]. cbn [result_bind] in H. apply sys_ok in E6 as (E6 & E7 & E8 & E9).
  destruct (536870912 - sn_bytes s <? Z.of_nat (String.length got)) eqn:El; [done|]. cbn [negb] in H. bool_prop.
  assert (got = data) as Hg.
  { unfold got in *. apply take_Z_all. lia. }
  rewrite Hg in *.
  destruct (sys fault _) as [s3|] eqn:E10 in H; [|done]. cbn [result_bind] in H.
  apply sys_ok in E10 as (F1 & F2 & F3 & F4). apply sys_ok in H as (G1 & G2 & G3 & G4).
  cbn [sn_bytes sn_entries sn_links sn_out] in *.
  rewrite int64_id in F1 by (unfold in_int64, two63, max_int64; lia).
  unfold copied, within, MaxBytes. cbn [obj_bytes obj_count obj_links tree_of place node_of].
  split_and!; try lia; try (rewrite app_nil_r; congruence).
  rewrite G4, F4, E9, E5. apply insert_insert_eq.
Qed.

Lemma copies_entries (es : list (string * obj)) :
  Forall (fun e => copies (snd e)) es -> forall dest depth s s',
  within s -> copy_entries fault key stage dest depth es s = Ok s' ->
  Forall (fun e => exportable key stage depth (snd e)) es /\ within s' /\
  sn_bytes s' = sn_bytes s + entries_bytes es /\ sn_entries s' = sn_entries s + entries_count es /\
  sn_links s' = sn_links s ++ entries_links es dest /\ sn_out s' = place_children dest (trees_of es) (sn_out s).
Proof.
  induction 1 as [|[n c] es Hc Hes IH]; intros dest depth s s' Hw H; cbn [copy_entries] in H.
  { injection H as <-. unfold entries_links. simpl. rewrite app_nil_r. split_and!; try done; lia. }
  destruct (sys fault s) as [s1|] eqn:E1; [|done]. cbn [result_bind] in H. apply sys_ok in E1 as (E1 & E2 & E3 & E4).
  cbv zeta in H. destruct Hw as [Hb He].
  rewrite (int64_id (sn_entries s1 + 1)) in H by (unfold in_int64, two63, max_int64; lia).
  set (s2 := mkSnapshot _ _ _ _ _) in H. destruct (negb _) eqn:El; [|done]. bool_prop. unfold s2 in El. cbn [sn_entries] in El.
  destruct (copyEntry fault key stage c (dest ++ [n]) depth s2) as [s3|] eqn:E5; [|done]. cbn [result_bind] in H.
  assert (within s2) as Hw2. { unfold within, s2; cbn [sn_bytes sn_entries]. rewrite E1, E2. rewrite E2 in El. clear -Hb He El. lia. }
  destruct (Hc (dest ++ [n]) depth s2 s3 Hw2 E5) as (X1 & X2 & X3 & X4 & X5 & X6).
  unfold s2 in X3, X4, X5, X6. cbn [sn_bytes sn_entries sn_links sn_out] in X3, X4, X5, X6.
  destruct (IH dest depth s3 s' X2 H) as (Y1 & Y2 & Y3 & Y4 & Y5 & Y6).
  split_and!; [by constructor|done|rewrite Y3, X3, E1; unfold entries_bytes; cbn [foldr snd]; lia|
    rewrite Y4, X4, E2; unfold entries_count; cbn [foldr snd]; lia| |].
  - rewrite Y5, X5, E3. unfold entries_links. simpl. by rewrite app_assoc.
  - rewrite Y6, X6, E4. done.
Qed.

Lemma copyEntry_ODir (i : Z) (es : list (string * obj)) (dest : list string) (depth : nat) (s : snapshot) :
  copyEntry fault key stage (ODir i es) dest depth s =
  (let* s := sys fault s in
   guard negb (bool_decide (i = key)) else Errorf "publisher signing key has an alias in a BuildKit local root" in
   let* s := sys fault s in
   let* s := create fault dest NDir s in
   copyDir fault key stage i es dest (S depth) s).
Proof. done. Qed.

Lemma copyDir_ok (i : Z) (es : list (string * obj)) (dest : list string) (depth : nat) (s s' : snapshot) :
  Forall (fun e => copies (snd e)) es -> within s -> copyDir fault key stage i es dest depth s = Ok s' ->
  (depth <= max_depth)%nat /\ i <> stage /\ Forall (fun e => exportable key stage depth (snd e)) es /\ within s' /\
  sn_bytes s' = sn_bytes s + entries_bytes es /\ sn_entries s' = sn_entries s + entries_count es /\
  sn_links s' = sn_links s ++ entries_links es dest /\ sn_out s' = place_children dest (trees_of es) (sn_out s).
Proof.
  intros Hes Hw H. unfold copyDir in H. destruct (max_depth <? depth)%nat eqn:Ed; [done|]. apply Nat.ltb_ge in Ed.
  cbn [negb] in H. destruct (sys fault s) as [s1|] eqn:E1; [|done]. cbn [result_bind] in H.
  apply sys_ok in E1 as (E1 & E2 & E3 & E4). case_bool_decide as Hst; [done|]. cbn [negb] in H.
  destruct (copy_entries fault key stage dest depth es s1) as [s2|] eqn:E5; [|done]. cbn [result_bind] in H.
  apply sys_ok in H as (F1 & F2 & F3 & F4).
  assert (within s1) as Hw1 by (unfold within in *; lia).
  destruct (copies_entries es Hes dest depth s1 s2 Hw1 E5) as (Y1 & Y2 & Y3 & Y4 & Y5 & Y6).
  unfold within in *. split_and!; try done; try lia; congruence.
Qed.

Lemma copies_all (o : obj) : copies o.
Proof.
  induction o as [i n data|i es IH|i t|i] using obj_ind'; intros dest depth s s' Hw H.
  - cbn [copyEntry inode] in H. destruct (sys fault s) as [s1|] eqn:E1; [|done]. cbn [result_bind] in H.
    apply sys_ok in E1 as (E1 & E2 & E3 & E4). case_bool_decide as Hk; [done|]. cbn [negb] in H.
    destruct (sys fault s1) as [s2|] eqn:E5; [|done]. cbn [result_bind] in H. apply sys_ok in E5 as (F1 & F2 & F3 & F4).
    assert (within s2) as Hw2 by (unfold within in *; lia).
    split; [by constructor|]. destruct (copy_file_ok n data dest s2 s' i Hw2 H) as (X1 & X2 & X3 & X4 & X5).
    unfold copied. split_and!; try done; try lia; congruence.
  - rewrite copyEntry_ODir in H. destruct (sys fault s) as [s1|] eqn:E1; [|done]. cbn [result_bind] in H.
    apply sys_ok in E1 as (E1 & E2 & E3 & E4). case_bool_decide as Hk; [done|]. cbn [negb] in H.
    destruct (sys fault s1) as [s2|] eqn:E5; [|done]. cbn [result_bind] in H. apply sys_ok in E5 as (F1 & F2 & F3 & F4).
    destruct (create fault dest NDir s2) as [s3|] eqn:E6; [|done]. cbn [result_bind] in H.
    apply create_ok in E6 as (G1 & G2 & G3 & G4 & G5).
    assert (within s3) as Hw3 by (unfold within in *; lia).
    destruct (copyDir_ok i es dest (S depth) s3 s' IH Hw3 H) as (X1 & X2 & X3 & X4 & X5 & X6 & X7 & X8).
    split; [by constructor|]. unfold copied. rewrite obj_bytes_ODir, obj_count_ODir, obj_links_ODir, tree_of_ODir, place_Branch.
    split_and!; try done; try lia; try congruence.
  - cbn [copyEntry inode] in H. destruct (sys fault s) as [s1|] eqn:E1; [|done]. cbn [result_bind] in H.
    apply sys_ok in E1 as (E1 & E2 & E3 & E4). case_bool_decide as Hk; [done|]. cbn [negb] in H.
    destruct (sys fault s1) as [s2|] eqn:E5; [|done]. cbn [result_bind] in H. apply sys_ok in E5 as (F1 & F2 & F3 & F4).
    destruct (negb _) eqn:En; [|done]. bool_prop.
    destruct (create fault dest (NSymlink t) s2) as [s3|] eqn:E6; [|done]. cbn [result_bind] in H. injection H as <-.
    apply create_ok in E6 as (G1 & G2 & G3 & G4 & G5). split; [by constructor|].
    unfold copied, within in *. cbn [add_link sn_bytes sn_entries sn_links sn_out obj_bytes obj_count obj_links tree_of place node_of].
    split_and!; try lia; congruence.
  - cbn [copyEntry inode] in H. destruct (sys fault s); [|done]. cbn [result_bind] in H. by destruct (negb _).
Qed.
End CopyProofs.

(** ** Objects by path *)

Fixpoint find_obj (o : obj) (q : list string) : option obj :=
  match q with
  | [] => Some o
  | x :: q =>
      match o with
      | ODir _ es => match list_find (fun e => fst e = x) es with Some (_, e) => find_obj (snd e) q | None => None end
      | _ => None
      end
  end.

Lemma list_find_trees (x : string) (es : list (string * obj)) :
  list_find (fun e => fst e = x) (trees_of es) =
  (fun ie => (fst ie, (fst (snd ie), tree_of (snd (snd ie))))) <$> list_find (fun e => fst e = x) es.
Proof.
  induction es as [|[n c] es IH]; [done|]. cbn. destruct (decide (n = x)); [done|].
  unfold trees_of in IH. rewrite IH. destruct (list_find _ es) as [[i e]|]; done.
Qed.

Lemma find_tree_of (q : list string) (o : obj) : find (tree_of o) q = tree_of <$> find_obj o q.
Proof.
  revert o. induction q as [|x q IH]; intros o; [done|]. destruct o as [i n d|i es|i t|i]; try done.
  rewrite tree_of_ODir. cbn [find find_obj]. rewrite list_find_trees.
  destruct (list_find _ es) as [[k [n c]]|]; [|done]. cbn. apply IH.
Qed.

Lemma exportable_find (key stage : Z) (q : list string) (depth : nat) (o o' : obj) :
  exportable key stage depth o -> find_obj o q = Some o' -> exists d, exportable key stage d o'.
Proof.
  revert depth o. induction q as [|x q IH]; intros depth o He Hf; simpl in Hf.
  { injection Hf as <-. eauto. }
  destruct o as [i n d|i es|i t|i]; try done. inversion He as [| |d' i' es' H1 H2 H3 H4]; subst.
  destruct (list_find _ es) as [[k e]|] eqn:E; [|done]. apply list_find_Some in E as (E & _ & _).
  rewrite Forall_forall in H4. eapply IH; [apply H4; by eapply list_elem_of_lookup_2|done].
Qed.

Lemma find_links (q dest : list string) (o : obj) (i : Z) (t : string) :
  find_obj o q = Some (OLink i t) -> (dest ++ q) ∈ obj_links o dest.
Proof.
  revert dest o. induction q as [|x q IH]; intros dest o Hf; simpl in Hf.
  { injection Hf as ->. rewrite app_nil_r. simpl. by left. }
  destruct o as [j n d|j es|j u|j]; try done.
  destruct (list_find _ es) as [[k [n c]]|] eqn:E; [|done]. apply list_find_Some in E as (E & Hx & _). simpl in Hx. subst n.
  rewrite obj_links_ODir. unfold entries_links. apply list_elem_of_bind. exists (x, c). split.
  - simpl. rewrite (cons_middle x dest q), app_assoc. by apply IH.
  - by eapply list_elem_of_lookup_2.
Qed.

(** ** The roots *)

Lemma strip_common_spec (a b : list string) :
  let '(a', b') := strip_common a b in (a' = [] <-> a `prefix_of` b).
Proof.
  revert b. induction a as [|x a IH]; intros b; simpl.
  { destruct b; split; try done; intros _; apply prefix_nil. }
  destruct b as [|y b]; [split; [done|]; intros H; by apply prefix_nil_not in H|].
  case_bool_decide as Hxy.
  - subst y. specialize (IH b). destruct (strip_common a b) as [a' b']. rewrite IH. split.
    + intros H. by apply prefix_cons.
    + intros H. by apply prefix_cons_inv_2 in H.
  - split; [done|]. intros H. by apply prefix_cons_inv_1 in H.
Qed.

Lemma strip_common_tail (a b : list string) : Forall plain_elem b -> Forall plain_elem (snd (strip_common a b)).
Proof.
  revert b. induction a as [|x a IH]; intros b Hb; simpl; [by destruct b|]. destruct b as [|y b]; [done|].
  case_bool_decide; [|done]. apply IH. by apply Forall_cons in Hb as [_ ?].
Qed.

Lemma Join_dotdot (l : list string) :
  (Join (".." :: l) slash = "..") \/ HasPrefix (Join (".." :: l) slash) "../" = true.
Proof. destruct l as [|x l]; [by left|]. right. rewrite Join_cons by done. apply HasPrefix_spec. by exists (Join (x :: l) slash). Qed.

(** Whether the key lies in a root, on paths. *)
Lemma withinExportedRoot_spec (root name : string) :
  IsAbs root = true -> IsAbs name = true ->
  withinExportedRoot root name = true <-> clean_elems root `prefix_of` clean_elems name.
Proof.
  intros Hr Hn. unfold withinExportedRoot, Rel.
  pose proof (strip_common_spec (clean_elems root) (clean_elems name)) as HS.
  assert (Forall plain_elem (clean_elems name)) as Hp.
  { destruct (clean_elems_shape name) as (k & names & HE & Hf & Hk). rewrite (Hk Hn) in HE. simpl in HE. by rewrite HE. }
  pose proof (strip_common_tail (clean_elems root) (clean_elems name) Hp) as Ht.
  destruct (strip_common _ _) as [a b]. simpl in Ht. rewrite <-HS.
  destruct a as [|x a]; simpl.
  - split; [done|]. intros _. destruct b as [|y b]; [done|].
    apply Forall_cons in Ht as [(H1 & H2 & H3 & H4) Hb].
    assert (forall t, Join (y :: b) slash <> ".." +:+ t \/ exists c u, t = String c u /\ c <> slash) as Hj.
    { intros t. destruct b as [|z b].
      - simpl. destruct t as [|c u]; [by left|]. destruct (decide (c = slash)) as [->|]; [|right; eauto].
        left. intros ->. rewrite ContainsRune_app in H4. simpl in H4. done.
      - rewrite Join_cons by done. destruct t as [|c u]; [|destruct (decide (c = slash)) as [->|]; [|right; eauto]]; left; intros E.
        + apply (f_equal (fun s => Split s slash)) in E. rewrite Split_app in E by done. simpl in E.
          pose proof (Split_ne (Join (z :: b) slash) slash). change (y :: Split (Join (z :: b) slash) slash = [".."]) in E. injection E as _ E. done.
        + apply (f_equal (fun s => Split s slash)) in E. rewrite Split_app, Split_app in E by done. by injection E. }
    apply andb_true_iff. split; apply negb_true_iff.
    + apply bool_decide_eq_false. intros E. destruct (Hj "") as [H|(? & ? & ? & _)]; [|done].
      apply H. exact E.
    + destruct (HasPrefix _ _) eqn:E; [|done]. apply HasPrefix_spec in E as [t E].
      destruct (Hj (String slash t)) as [H|(c & u & [= <- <-] & ?)]; [|done]. exfalso. apply H. exact E.
  - split; [|done]. intros H. apply andb_true_iff in H as [H1 H2]. apply negb_true_iff in H1, H2.
    apply bool_decide_eq_false in H1. destruct (Join_dotdot (replicate (length a) ".." ++ b)) as [E|E]; [by destruct (H1 E)|].
    exact (False_rect _ (diff_true_false (eq_trans (eq_sym E) H2))).
Qed.

Lemma validateLinks_ok (fault : nat -> option error) (s : snapshot) :
  validateLinks fault s = Ok tt -> Forall (fun l => exists q, beneath (sn_out s) max_links [] l = Ok q) (sn_links s).
Proof.
  unfold validateLinks. destruct (sys fault s) as [s0|] eqn:E0; [|done]. cbn [result_bind].
  apply sys_ok in E0 as (_ & _ & -> & <-). generalize (sn_links s). intros links. revert s0.
  induction links as [|l links IH]; intros s0 H; [constructor|]. cbn [validate_each] in H.
  destruct (sys fault s0) as [s1|] eqn:E1; [|done]. cbn [result_bind] in H. apply sys_ok in E1 as (_ & _ & _ & E1).
  rewrite E1 in H. destruct (beneath (sn_out s0) max_links [] l) as [q|] eqn:Eb; [|done]. cbn [result_bind] in H.
  constructor; [eauto|]. rewrite <-E1. by apply IH.
Qed.

(** C31. A staged root is a faithful and harmless copy of what was read, whatever
    calls fail: the key does not lie below the root by name,
    and no object of the copy has the key's inode, so neither a hard link nor a
    symbolic link smuggles it in; every file of the copy has the bytes of a
    source file, every other node mirrors the source, and nothing else is there;
    every symbolic link is relative and resolves within the copy; and the
    limits of 512 MiB, 10000 entries and 128 levels hold. *)
Theorem stage_root_correct (fault : nat -> option error) (key stage : Z) (keyPath resolvedKey : string)
    (r : root) (s : snapshot) :
  IsAbs (ro_abs r) = true -> IsAbs keyPath = true ->
  wf_tree (Branch (trees_of (ro_entries r))) ->
  stage_root fault key stage keyPath resolvedKey (Ok r) = Ok s ->
  ~ clean_elems (ro_abs r) `prefix_of` clean_elems keyPath /\
  ro_ino r <> stage /\
  (forall q, q <> [] -> sn_out s !! q = (node_of ∘ tree_of) <$> find_obj (ODir (ro_ino r) (ro_entries r)) q) /\
  (forall q o, q <> [] -> find_obj (ODir (ro_ino r) (ro_entries r)) q = Some o ->
     inode o <> key /\ (exists d, exportable key stage d o)) /\
  (forall q t, q <> [] -> sn_out s !! q = Some (NSymlink t) ->
     IsAbs t = false /\ exists q', beneath (sn_out s) max_links [] q = Ok q') /\
  sn_bytes s = entries_bytes (ro_entries r) /\ sn_bytes s <= MaxBytes /\
  sn_entries s = entries_count (ro_entries r) /\ sn_entries s <= 10000.
Proof.
  intros Ha Hk Hwf H. unfold stage_root in H. cbn [result_bind] in H.
  destruct (withinExportedRoot (ro_abs r) keyPath) eqn:Ew; [done|]. cbn [orb] in H.
  destruct (withinExportedRoot (ro_resolved r) resolvedKey); [done|]. cbn [negb] in H.
  destruct (ro_open r); [|done]. destruct (ro_mkdir r); [|done]. cbn [result_bind] in H.
  destruct (copyDir _ _ _ _ _ _ _ _) as [s1|] eqn:Ec; [|done]. cbn [result_bind] in H.
  destruct (validateLinks fault s1) as [[]|] eqn:Ev; [|done]. injection H as <-.
  assert (within empty_snapshot) as Hw by (unfold within, MaxBytes; simpl; lia).
  apply copyDir_ok in Ec as (_ & Hst & Hex & [Hb He] & X1 & X2 & X3 & X4); [|apply Forall_true; intros; apply copies_all|done].
  simpl in X1, X2, X3, X4.
  inversion Hwf as [|ts Hnd Hts| |]; subst ts.
  assert (forall q o, q <> [] -> find_obj (ODir (ro_ino r) (ro_entries r)) q = Some o -> exists d, exportable key stage d o) as HE.
  { intros [|x q] o Hq Hf; [done|]. simpl in Hf. destruct (list_find _ _) as [[k e]|] eqn:El; [|done].
    apply list_find_Some in El as (El & _ & _). rewrite Forall_forall in Hex.
    eapply exportable_find; [apply Hex; by eapply list_elem_of_lookup_2|done]. }
  assert (forall q, q <> [] -> sn_out s1 !! q = (node_of ∘ tree_of) <$> find_obj (ODir (ro_ino r) (ro_entries r)) q) as HO.
  { intros [|x q] Hq; [done|]. rewrite X4. pose proof (place_children_find [] q x (trees_of (ro_entries r)) ∅) as HP.
    simpl app in HP. rewrite HP; [|apply Forall_true; intros; apply place_find|done..]. clear HP.
    rewrite option_fmap_compose, <-find_tree_of, tree_of_ODir. cbn [find].
    destruct (list_find _ _) as [[? ?]|]; [done|]. by rewrite lookup_empty. }
  split_and!; try done; try lia.
  - intros Hp. apply withinExportedRoot_spec in Hp; [congruence|done|done].
  - intros q o Hq Hf. destruct (HE q o Hq Hf) as [d Hd]. split; [by inversion Hd|eauto].
  - intros q t Hq Ht. rewrite HO in Ht by done. destruct (find_obj _ q) as [o|] eqn:Ef; [|done].
    destruct o as [? ? ?|? ?|i t'|?]; try done. simpl in Ht. injection Ht as ->.
    destruct (HE q _ Hq Ef) as [d Hd]. split; [by inversion Hd|].
    apply validateLinks_ok in Ev. rewrite Forall_forall in Ev.
    assert (q ∈ sn_links s1) as Hin.
    { rewrite X3. apply (find_links q [] _ i t) in Ef. rewrite obj_links_ODir in Ef. exact Ef. }
    exact (Ev q Hin).
Qed.

Module SnapshotSample.
Definition source : root :=
  mkRoot_ "/work/ctx" "/work/ctx" (Ok tt) (Ok tt) 10
    [("Dockerfile", OFile 11 12 "FROM scratch"); ("etc", ODir 12 [("a", OFile 13 1 "x"); ("b", OLink 14 "../Dockerfile")])].
Lemma source_wf : wf_tree (Branch (trees_of (ro_entries source))).
Proof.
  cbn. apply wf_Branch; [apply (bool_decide_unpack _); vm_compute; exact I|].
  repeat (apply Forall_cons; split); try apply Forall_nil; try done; (split; [by vm_compute; split_and!|]); cbn; [constructor|].
  apply wf_Branch; [apply (bool_decide_unpack _); vm_compute; exact I|].
  repeat (apply Forall_cons; split); try apply Forall_nil; try done; (split; [by vm_compute; split_and!|]); cbn; constructor.
Qed.
Definition calm (_ : nat) : option error := None.
Definition staged : result snapshot := stage_root calm 99 98 "/keys/publisher.key" "/keys/publisher.key" (Ok source).

(** With a hard link to the key in the tree, staging fails. *)
Definition aliased : root := mkRoot_ "/work/ctx" "/work/ctx" (Ok tt) (Ok tt) 10 [("x", OFile 99 1 "secret")].
End SnapshotSample.

Lemma stage_root_correct_witness :
  exists s, SnapshotSample.staged = Ok s /\ sn_out s !! ["etc"; "a"] = Some (NFile "x") /\
    is_ok (stage_root SnapshotSample.calm 99 98 "/keys/publisher.key" "/keys/publisher.key" (Ok SnapshotSample.aliased)) = false.
Proof.
  destruct SnapshotSample.staged as [s|e] eqn:E; [|exfalso; vm_compute in E; discriminate E].
  exists s. split; [reflexivity|].
  destruct (stage_root_correct SnapshotSample.calm 99 98 "/keys/publisher.key" "/keys/publisher.key" SnapshotSample.source s)
    as (_ & _ & H & _).
  - reflexivity.
  - reflexivity.
  - exact SnapshotSample.source_wf.
  - exact E.
  - split; [|vm_compute; reflexivity]. rewrite (H ["etc"; "a"]) by discriminate. reflexivity.
Defined.

(** ** Removing the staged copy *)

(** A tree with the permission bits of its directories. *)
Inductive owned : Type :=
| PFile
| PDir (mode : Z) (children : list (string * owned)).

Definition owner_rwx : Z := 448.
Definition writable (mode : Z) : bool := Z.land mode owner_rwx =? owner_rwx.

(** [filepath.WalkDir] of [removeBuildTemp]: a directory is made accessible before
    its entries are read. *)
Fixpoint make_accessible (chmod : string -> option error) (name : string) (t : owned) : owned * option error :=
  match t with
  | PFile => (PFile, None)
  | PDir mode ts =>
      match chmod name with
      | Some e => (PDir mode ts, Some e)
      | None =>
          let '(ts, e) :=
            (fix children (ts : list (string * owned)) : list (string * owned) * option error :=
               match ts with
               | [] => ([], None)
               | (n, t) :: ts =>
                   let '(t, e) := make_accessible chmod (JoinPath [name; n]) t in
                   match e with
                   | Some e => ((n, t) :: ts, Some e)
                   | None => let '(ts, e) := children ts in ((n, t) :: ts, e)
                   end
               end) ts in
          (PDir owner_rwx ts, e)
      end
  end.

(** [os.RemoveAll] on behalf of the owner: directories that cannot be searched and
    changed stay. *)
Fixpoint removable (t : owned) : bool :=
  match t with
  | PFile => true
  | PDir mode ts => writable mode && forallb (fun x => removable (snd x)) ts
  end.

(** [removeBuildTemp]: what is left, and the result. *)
Definition removeBuildTemp (chmod : string -> option error) (root : string) (t : owned) : option owned * result unit :=
  match make_accessible chmod root t with
  | (t, Some e) => (Some t, Err e)
  | (t, None) => if removable t then (None, Ok tt) else (Some t, Err (Errorf "permission denied"))
  end.

(** The loop over the entries of a directory. *)
Definition make_entries (chmod : string -> option error) (name : string) : list (string * owned) -> list (string * owned) * option error :=
  fix children (ts : list (string * owned)) : list (string * owned) * option error :=
    match ts with
    | [] => ([], None)
    | (n, t) :: ts =>
        let '(t, e) := make_accessible chmod (JoinPath [name; n]) t in
        match e with
        | Some e => ((n, t) :: ts, Some e)
        | None => let '(ts, e) := children ts in ((n, t) :: ts, e)
        end
    end.
Lemma make_accessible_PDir (chmod : string -> option error) (name : string) (mode : Z) (ts : list (string * owned)) :
  make_accessible chmod name (PDir mode ts) =
  match chmod name with
  | Some e => (PDir mode ts, Some e)
  | None => let '(ts, e) := make_entries chmod name ts in (PDir owner_rwx ts, e)
  end.
Proof. done. Qed.
Lemma make_entries_cons (chmod : string -> option error) (name n : string) (t : owned) (ts : list (string * owned)) :
  make_entries chmod name ((n, t) :: ts) =
  let '(t, e) := make_accessible chmod (JoinPath [name; n]) t in
  match e with
  | Some e => ((n, t) :: ts, Some e)
  | None => let '(ts, e) := make_entries chmod name ts in ((n, t) :: ts, e)
  end.
Proof. done. Qed.

Section OwnedInd.
Variable P : owned -> Prop.
Hypothesis HF : P PFile.
Hypothesis HD : forall mode ts, Forall (fun x => P (snd x)) ts -> P (PDir mode ts).
Fixpoint owned_ind' (t : owned) : P t :=
  match t with
  | PFile => HF
  | PDir mode ts =>
      HD mode ts ((fix go (ts : list (string * owned)) : Forall (fun x => P (snd x)) ts :=
        match ts with [] => Forall_nil_2 _ | x :: ts => Forall_cons_2 _ x ts (owned_ind' (snd x)) (go ts) end) ts)
  end.
End OwnedInd.

Lemma make_accessible_removable (chmod : string -> option error) (t : owned) (name : string) :
  snd (make_accessible chmod name t) = None -> removable (fst (make_accessible chmod name t)) = true.
Proof.
  revert name. induction t as [|mode ts IH] using owned_ind'; intros name; [done|]. rewrite make_accessible_PDir.
  destruct (chmod name); [done|].
  assert (snd (make_entries chmod name ts) = None -> forallb (fun x => removable (snd x)) (fst (make_entries chmod name ts)) = true) as H.
  { induction IH as [|[n t] ts Ht Hts IHts]; [done|]. rewrite make_entries_cons. specialize (Ht (JoinPath [name; n])). cbn [snd] in Ht.
    destruct (make_accessible chmod (JoinPath [name; n]) t) as [t' [e|]]; [done|]. destruct (make_entries chmod name ts) as [ts' e].
    cbn in *. intros He. by rewrite Ht, IHts. }
  destruct (make_entries chmod name ts) as [ts' e]. cbn in *. intros He. by rewrite H.
Qed.

Lemma make_accessible_calm (chmod : string -> option error) (t : owned) (name : string) :
  (forall p, chmod p = None) -> snd (make_accessible chmod name t) = None.
Proof.
  intros Hc. revert name. induction t as [|mode ts IH] using owned_ind'; intros name; [done|]. rewrite make_accessible_PDir, Hc.
  assert (snd (make_entries chmod name ts) = None) as Hg.
  { induction IH as [|[n t] ts Ht Hts IHts]; [done|]. rewrite make_entries_cons. specialize (Ht (JoinPath [name; n])). cbn [snd] in Ht.
    destruct (make_accessible chmod (JoinPath [name; n]) t) as [t' e]. cbn in Ht. subst e. by destruct (make_entries chmod name ts). }
  by destruct (make_entries chmod name ts).
Qed.

(** The staged copies of a build are removed whatever the modes of the copied
    directories, read-only ones included: when no call fails nothing is left, and
    something is left only together with an error. *)
Theorem removeBuildTemp_complete (chmod : string -> option error) (root : string) (t : owned) :
  ((forall p, chmod p = None) -> removeBuildTemp chmod root t = (None, Ok tt)) /\
  (is_ok (snd (removeBuildTemp chmod root t)) = true <-> fst (removeBuildTemp chmod root t) = None).
Proof.
  unfold removeBuildTemp. pose proof (make_accessible_removable chmod t root) as H.
  pose proof (make_accessible_calm chmod t root) as Hcalm.
  destruct (make_accessible chmod root t) as [t' [e|]]; cbn in *.
  - split; [intros Hc; discriminate (Hcalm Hc)|done].
  - by rewrite H.
Qed.
