(* ===== verification/RuntimeSpec.v ===== *)
(** * RuntimeSpec: the container's runtime configuration (internal/runtime/spec.go)

    [User] looks a user up in the image's own passwd and group files; [Build]
    makes the configuration that the guest hands to runc.  The types of the OCI
    runtime specification are records with the fields the code sets; [verdict]
    is the documented meaning of its system call filter: the first rule that
    names the call and whose conditions on the arguments all hold decides, and
    the default action otherwise. *)

From S2P Require Import Prelude GoLib Api.
Import Strings Strconv Path.
Local Open Scope Z_scope.
Local Open Scope go_scope.

(** ** Data of the runtime specification *)

Record RtUser : Type := mkRtUser { UID : Z; GID : Z }.

Record POSIXRlimit : Type := mkRlimit { rl_Type : string; rl_Hard : Z; rl_Soft : Z }.

Record LinuxCapabilities : Type := mkCaps {
  Bounding : list string; Effective : list string; Permitted : list string;
  Inheritable : list string; Ambient : list string }.

Record RtProcess : Type := mkRtProcess {
  rp_Args : list string; rp_Env : list string; rp_Cwd : string; rp_User : RtUser;
  rp_Terminal : bool; rp_NoNewPrivileges : bool; rp_Capabilities : LinuxCapabilities;
  rp_Rlimits : list POSIXRlimit }.

Record LinuxNamespace : Type := mkNS { ns_Type : string; ns_Path : string }.

Record RtMount : Type := mkRtMount {
  rm_Destination : string; rm_Type : string; rm_Source : string; rm_Options : list string }.

Inductive SeccompAction : Type := ActErrno | ActAllow.

(** A condition [OpEqualTo] on an argument. *)
Record LinuxSeccompArg : Type := mkArg { sa_Index : nat; sa_Value : Z }.
Record LinuxSyscall : Type := mkSyscall {
  sc_Names : list string; sc_Action : SeccompAction; sc_Args : list LinuxSeccompArg }.
Record LinuxSeccomp : Type := mkSeccomp {
  sf_DefaultAction : SeccompAction; sf_DefaultErrnoRet : option Z;
  sf_Architectures : list string; sf_Syscalls : list LinuxSyscall }.

Record LinuxDeviceCgroup : Type := mkDevice {
  dv_Allow : bool; dv_Type : string; dv_Major : option Z; dv_Minor : option Z; dv_Access : string }.

Record RtSpec : Type := mkRtSpec {
  rs_Version : string;
  rs_Process : RtProcess;
  rs_RootPath : string; rs_RootReadonly : bool;
  rs_Hostname : string;
  rs_Mounts : list RtMount;
  rs_Namespaces : list LinuxNamespace;
  rs_CgroupsPath : string;
  rs_MemoryLimit : Z; rs_CPUQuota : Z; rs_CPUPeriod : Z; rs_PidsLimit : Z;
  rs_Devices : list LinuxDeviceCgroup;
  rs_MaskedPaths : list string; rs_ReadonlyPaths : list string;
  rs_Seccomp : LinuxSeccomp }.

#[export] Instance SeccompAction_eq_dec : EqDecision SeccompAction.
Proof. solve_decision. Defined.

(** ** Users *)

Definition newline : ascii := "010"%char.
Definition carriage : string := String "013"%char "".
Definition MaxScanTokenSize : Z := 65536.

(** The lines that [bufio.Scanner] returns: the last one need not be
    terminated, a final carriage return is dropped, and a line of 64 KiB ends
    the scan. *)
Fixpoint line_tokens (l : list string) : list string :=
  match l with
  | [] => []
  | [x] => if bool_decide (x = "") || (MaxScanTokenSize <=? Z.of_nat (String.length x)) then [] else [TrimSuffix x carriage]
  | x :: l => if MaxScanTokenSize <=? Z.of_nat (String.length x) then [] else TrimSuffix x carriage :: line_tokens l
  end.
Definition scan_lines (content : string) : list string := line_tokens (Split content newline).

(** A line of the passwd file that the code considers. *)
Definition passwd_entry (line : string) : option (string * Z * Z) :=
  match Split line ":" with
  | name :: _ :: u :: g :: _ =>
      match ParseUint u 32, ParseUint g 32 with
      | Ok uid, Ok gid => Some (name, uid, gid)
      | _, _ => None
      end
  | _ => None
  end.

(** The loop over the lines of the passwd file; [e] is the number parsed from
    the user, if it is one. *)
Fixpoint scan_passwd (u : string) (e : result Z) (lines : list string) : option RtUser :=
  match lines with
  | [] => None
  | line :: lines =>
      match passwd_entry line with
      | None => scan_passwd u e lines
      | Some (name, uid, gid) =>
          if bool_decide (name = u) || bool_decide (e = Ok uid) then Some (mkRtUser uid gid)
          else scan_passwd u e lines
      end
  end.

Fixpoint scan_group (g : string) (lines : list string) : option Z :=
  match lines with
  | [] => None
  | line :: lines =>
      match Split line ":" with
      | name :: _ :: n :: _ =>
          if bool_decide (name = g) then
            match ParseUint n 32 with Ok gid => Some gid | Err _ => scan_group g lines end
          else scan_group g lines
      | _ => scan_group g lines
      end
  end.

(** [User]; [open] is [fsutil.OpenRootPath] on the container's root. *)
Definition User (open : string -> result string) (user : string) : result RtUser :=
  if bool_decide (user = "") then Ok (mkRtUser 0 0) else
  let '(u, g, hasGroup) := Cut user ":" in
  let e := ParseUint u 32 in
  let found :=
    match open "etc/passwd" with
    | Ok content => scan_passwd u e (scan_lines content)
    | Err _ => None
    end in
  let* out :=
    match found, e with
    | Some out, _ => Ok out
    | None, Ok n => Ok (mkRtUser n 0)
    | None, Err _ => Err (Errorf "user %q not found in container")
    end in
  if hasGroup then
    match ParseUint g 32 with
    | Ok n => Ok (mkRtUser (UID out) n)
    | Err _ =>
        let* content := open "etc/group" in
        match scan_group g (scan_lines content) with
        | Some n => Ok (mkRtUser (UID out) n)
        | None => Err (Errorf "group %q not found")
        end
    end
  else Ok out.

(** ** The configuration *)

Definition caps : list string :=
  ["CAP_CHOWN"; "CAP_DAC_OVERRIDE"; "CAP_FOWNER"; "CAP_FSETID"; "CAP_KILL"; "CAP_SETGID";
   "CAP_SETUID"; "CAP_SETPCAP"; "CAP_NET_BIND_SERVICE"; "CAP_SYS_CHROOT"; "CAP_AUDIT_WRITE";
   "CAP_SETFCAP"].

Definition calls : list string := Fields
  ("accept accept4 access alarm arch_prctl bind brk capget capset chdir chmod chown chown32 " +:+
   "clock_getres clock_gettime clock_nanosleep clone clone3 close close_range connect " +:+
   "copy_file_range creat dup dup2 dup3 epoll_create epoll_create1 epoll_ctl epoll_pwait " +:+
   "epoll_pwait2 epoll_wait eventfd eventfd2 execve execveat exit exit_group faccessat " +:+
   "faccessat2 fadvise64 fallocate fanotify_mark fchdir fchmod fchmodat fchown fchownat fcntl " +:+
   "fdatasync fgetxattr flistxattr flock fork fremovexattr fsetxattr fstat fstatfs fsync " +:+
   "ftruncate futex futex_waitv getcpu getcwd getdents getdents64 getegid geteuid getgid " +:+
   "getgroups getitimer getpeername getpgid getpgrp getpid getppid getpriority getrandom " +:+
   "getresgid getresuid getrlimit getrusage getsid getsockname getsockopt gettid gettimeofday " +:+
   "getuid getxattr inotify_add_watch inotify_init inotify_init1 inotify_rm_watch ioctl kill " +:+
   "lchown lgetxattr link linkat listen listxattr llistxattr lremovexattr lseek lsetxattr " +:+
   "lstat madvise membarrier memfd_create mincore mkdir mkdirat mlock mlock2 mlockall mmap " +:+
   "mprotect mremap msync munlock munlockall munmap nanosleep newfstatat open openat openat2 " +:+
   "pause pipe pipe2 poll ppoll prctl pread64 preadv preadv2 prlimit64 pselect6 pwrite64 " +:+
   "pwritev pwritev2 read readahead readlink readlinkat readv recvfrom recvmmsg recvmsg rename " +:+
   "renameat renameat2 restart_syscall rmdir rseq rt_sigaction rt_sigpending rt_sigprocmask " +:+
   "rt_sigqueueinfo rt_sigreturn rt_sigsuspend rt_sigtimedwait rt_tgsigqueueinfo " +:+
   "sched_getaffinity sched_getparam sched_getscheduler sched_get_priority_max " +:+
   "sched_get_priority_min sched_rr_get_interval sched_setaffinity sched_yield select sendfile " +:+
   "sendmmsg sendmsg sendto setfsgid setfsuid setgid setgroups setitimer setpgid setpriority " +:+
   "setregid setresgid setresuid setreuid setrlimit setsid setsockopt set_tid_address " +:+
   "set_robust_list setuid shutdown sigaltstack signalfd signalfd4 socketpair splice stat " +:+
   "statfs statx symlink symlinkat sync sync_file_range syncfs sysinfo tee tgkill time " +:+
   "timer_create timer_delete timer_getoverrun timer_gettime timer_settime timerfd_create " +:+
   "timerfd_gettime timerfd_settime times tkill truncate umask uname unlink unlinkat utime " +:+
   "utimensat utimes vfork vmsplice wait4 waitid write writev").

Definition fixed_mounts : list RtMount :=
  [mkRtMount "/proc" "proc" "proc" ["nosuid"; "noexec"; "nodev"];
   mkRtMount "/dev" "tmpfs" "tmpfs" ["nosuid"; "strictatime"; "mode=755"; "size=65536k"];
   mkRtMount "/dev/pts" "devpts" "devpts"
     ["nosuid"; "noexec"; "newinstance"; "ptmxmode=0666"; "mode=0620"; "gid=5"];
   mkRtMount "/dev/shm" "tmpfs" "shm" ["nosuid"; "noexec"; "nodev"; "mode=1777"; "size=65536k"];
   mkRtMount "/sys" "sysfs" "sysfs" ["nosuid"; "noexec"; "nodev"; "ro"];
   mkRtMount "/etc/resolv.conf" "bind" "/run/niflhel/resolv.conf" ["bind"; "ro"; "nosuid"; "nodev"; "noexec"]].

Definition volume_mount (i : nat) (m : Mount) : RtMount :=
  mkRtMount (m_Target m) "bind" ("/run/niflhel/volumes/" +:+ Itoa (Z.of_nat i))
    (["bind"; "nosuid"; "nodev"] ++ if m_ReadOnly m then ["ro"] else []).

(** The filter of system calls. *)
Definition filter_of (families : list Z) : LinuxSeccomp :=
  mkSeccomp ActErrno (Some 1) ["SCMP_ARCH_X86_64"]
    (mkSyscall calls ActAllow [] ::
     ((fun family => mkSyscall ["socket"] ActAllow [mkArg 0 family]) <$> families)).

Definition devices : list LinuxDeviceCgroup :=
  let c major minor := mkDevice true "c" (Some major) minor "rwm" in
  [mkDevice false "" None None "rwm"; c 1 (Some 3); c 1 (Some 5); c 1 (Some 7); c 1 (Some 8); c 1 (Some 9);
   c 5 None; c 136 None].

Definition namespaces (netns : string) : list LinuxNamespace :=
  [mkNS "pid" ""; mkNS "mount" ""; mkNS "ipc" ""; mkNS "uts" ""; mkNS "cgroup" ""; mkNS "network" netns].

(** [Build] *)
Definition Build (open : string -> result string) (s : Sandbox) (root netns : string) : result RtSpec :=
  let* user := User open (pr_User (sb_Process s)) in
  let spec := sb_Spec s in
  let quota := int64 (s_CPUs spec * 100000) in
  let p := mkRtProcess (pr_Args (sb_Process s)) (pr_Env (sb_Process s)) (pr_Cwd (sb_Process s)) user (s_TTY spec)
             true (mkCaps caps caps caps [] []) [mkRlimit "RLIMIT_NOFILE" 65536 65536] in
  let mounts := fixed_mounts ++ imap volume_mount (s_Mounts spec) in
  Ok (mkRtSpec "1.2.1" p root (s_ReadOnly spec) (sb_Name s) mounts (namespaces netns) "/niflhel/app"
        (s_Memory spec) quota 100000 (s_PidsLimit spec) devices
        ["/proc/kcore"; "/proc/keys"; "/proc/timer_list"; "/proc/sched_debug"; "/sys/firmware"]
        ["/proc/bus"; "/proc/fs"; "/proc/irq"; "/proc/sys"; "/proc/sysrq-trigger"]
        (filter_of [1; 2; 10])).

(** ** The meaning of the filter *)

Definition arg_matches (args : list Z) (a : LinuxSeccompArg) : bool :=
  bool_decide (args !! sa_Index a = Some (sa_Value a)).
Definition rule_matches (name : string) (args : list Z) (r : LinuxSyscall) : bool :=
  bool_decide (name ∈ sc_Names r) && forallb (arg_matches args) (sc_Args r).
Definition verdict (f : LinuxSeccomp) (name : string) (args : list Z) : SeccompAction :=
  match List.find (rule_matches name args) (sf_Syscalls f) with
  | Some r => sc_Action r
  | None => sf_DefaultAction f
  end.

(** Mounting, namespaces, kernel modules and images, keyrings, bpf, perf,
    tracing, raw devices, asynchronous rings and the clock. *)
Definition forbidden : list string :=
  ["mount"; "umount2"; "pivot_root"; "move_mount"; "open_tree"; "fsopen"; "fsconfig"; "fsmount"; "fspick";
   "mount_setattr"; "unshare"; "setns"; "chroot"; "mknod"; "mknodat"; "init_module"; "finit_module";
   "delete_module"; "kexec_load"; "kexec_file_load"; "reboot"; "swapon"; "swapoff"; "add_key"; "request_key";
   "keyctl"; "bpf"; "perf_event_open"; "ptrace"; "process_vm_readv"; "process_vm_writev"; "pidfd_getfd";
   "kcmp"; "userfaultfd"; "io_uring_setup"; "io_uring_enter"; "io_uring_register"; "fanotify_init"; "iopl";
   "ioperm"; "settimeofday"; "clock_settime"; "adjtimex"; "sethostname"; "setdomainname"; "acct"; "quotactl";
   "open_by_handle_at"; "name_to_handle_at"; "lookup_dcookie"; "personality"; "syslog"].

(** Capabilities over the kernel, the network, other processes and devices. *)
Definition privileged : list string :=
  ["CAP_SYS_ADMIN"; "CAP_SYS_MODULE"; "CAP_SYS_RAWIO"; "CAP_SYS_PTRACE"; "CAP_SYS_BOOT"; "CAP_SYS_TIME";
   "CAP_NET_ADMIN"; "CAP_NET_RAW"; "CAP_MKNOD"; "CAP_BPF"; "CAP_PERFMON"; "CAP_DAC_READ_SEARCH";
   "CAP_MAC_ADMIN"; "CAP_MAC_OVERRIDE"; "CAP_SYSLOG"; "CAP_LINUX_IMMUTABLE"; "CAP_CHECKPOINT_RESTORE"].

Definition AF_VSOCK : Z := 40.
Definition AF_NETLINK : Z := 16.
Definition AF_PACKET : Z := 17.

Lemma disjoint_calls : Forall (fun n => n ∉ calls /\ n <> "socket") forbidden.
Proof. apply (bool_decide_unpack _). vm_cast_no_check I. Qed.

Lemma socket_not_listed : "socket" ∉ calls.
Proof. apply (bool_decide_unpack _). vm_cast_no_check I. Qed.

Lemma unprivileged : Forall (fun n => n ∉ caps) privileged.
Proof. apply (bool_decide_unpack _). vm_cast_no_check I. Qed.

Lemma find_socket (name : string) (args : list Z) (families : list Z) :
  (exists r, List.find (rule_matches name args)
     ((fun family => mkSyscall ["socket"] ActAllow [mkArg 0 family]) <$> families) = Some r /\
     sc_Action r = ActAllow) <->
  name = "socket" /\ exists v rest, args = v :: rest /\ v ∈ families.
Proof.
  induction families as [|f families IH]; simpl.
  { split; [by intros (? & ? & _)|]. intros (_ & ? & ? & _ & H). by apply not_elem_of_nil in H. }
  unfold rule_matches at 1. simpl. unfold arg_matches. simpl. rewrite andb_true_r.
  destruct (bool_decide _ && bool_decide _) eqn:E.
  - bool_prop. apply list_elem_of_singleton in H as ->. split; [|eauto]. intros _. split; [done|].
    destruct args as [|v rest]; [done|]. injection H0 as ->. exists f, rest. split; [done|]. by left.
  - rewrite IH. split.
    + intros (-> & v & rest & -> & Hv). split; [done|]. exists v, rest. split; [done|]. by right.
    + intros (-> & v & rest & -> & Hv). split; [done|]. exists v, rest. split; [done|].
      apply elem_of_cons in Hv as [->|Hv]; [|done].
      rewrite !bool_decide_eq_true_2 in E; [done| |]; [done|by left].
Qed.

(** What the filter lets through. *)
Lemma verdict_allow (families : list Z) (name : string) (args : list Z) :
  verdict (filter_of families) name args = ActAllow <->
  name ∈ calls \/ name = "socket" /\ exists v rest, args = v :: rest /\ v ∈ families.
Proof.
  unfold verdict. cbn [filter_of sf_Syscalls sf_DefaultAction List.find].
  unfold rule_matches at 1. cbn [sc_Names sc_Args forallb]. rewrite andb_true_r.
  case_bool_decide as Hc; [by split; [left|]|]. rewrite <-find_socket.
  destruct (List.find _ _) as [r|].
  - split; [right; eauto|]. intros [?|(? & [= ->] & ?)]; done.
  - split; [done|]. by intros [?|(? & ? & _)].
Qed.

(** ** Volumes and the fixed mounts *)

(** The strings that are followed by a slash in [s]. *)
Fixpoint slash_prefixes (s : string) : list string :=
  match s with
  | EmptyString => []
  | String c s => (if bool_decide (c = slash) then [""] else []) ++ (String c <$> slash_prefixes s)
  end.

Lemma slash_prefixes_spec (a s : string) : HasPrefix s (a +:+ "/") = true -> a ∈ slash_prefixes s.
Proof.
  rewrite HasPrefix_spec. intros [t ->]. rewrite app_assoc_str. induction a as [|c a IH].
  - rewrite app_nil_l_str. simpl. by left.
  - rewrite app_cons_str. cbn [slash_prefixes]. apply elem_of_app. right. apply list_elem_of_fmap. eauto.
Qed.

(** [a] is [b] or a directory above it. *)
Definition covers (a b : string) : Prop := a = b \/ HasPrefix b (a +:+ "/") = true.

Definition kernel_mounts : list string := ["/proc"; "/dev"; "/dev/pts"; "/dev/shm"; "/sys"].

Lemma HasPrefix_trans (s p q : string) : HasPrefix s p = true -> HasPrefix p q = true -> HasPrefix s q = true.
Proof. rewrite !HasPrefix_spec. intros [t ->] [u ->]. exists (u +:+ t). apply app_assoc_str. Qed.

Lemma mount_ok_apart (m : Mount) (k : string) :
  mount_ok m -> k ∈ kernel_mounts -> ~ covers (m_Target m) k /\ ~ covers k (m_Target m).
Proof.
  intros (_ & Ha & _ & _ & Hr) Hk. rewrite Forall_forall in Hr.
  assert (m_Target m <> "") as Hne by (intros E; by rewrite E in Ha).
  assert (forall r, r ∈ ["/proc"; "/sys"; "/dev"] -> m_Target m <> r /\ HasPrefix (m_Target m) (r +:+ "/") = false) as Hr'.
  { intros r Hin. apply Hr. unfold reserved_targets. set_solver. }
  assert (m_Target m <> "/dev/pts" /\ m_Target m <> "/dev/shm") as [Hp Hs].
  { destruct (Hr' "/dev") as [_ Hd]; [set_solver|]. split; intros E; by rewrite E in Hd. }
  split; intros [E|E].
  - rewrite <-E in Hk. unfold kernel_mounts in Hk. set_solver.
  - apply slash_prefixes_spec in E. unfold kernel_mounts in Hk.
    assert (m_Target m = "" \/ m_Target m = "/dev") as [?|Hd]; [|done|].
    { rewrite !elem_of_cons, elem_of_nil in Hk.
      destruct Hk as [->|[->|[->|[->|[->|[]]]]]]; cbn in E; set_solver. }
    by destruct (Hr' "/dev") as [? _]; [set_solver|].
  - rewrite E in Hk. unfold kernel_mounts in Hk. set_solver.
  - assert (exists r, r ∈ ["/proc"; "/sys"; "/dev"] /\ HasPrefix (k +:+ "/") (r +:+ "/") = true) as (r & Hin & Hp').
    { unfold kernel_mounts in Hk. rewrite !elem_of_cons, elem_of_nil in Hk.
      destruct Hk as [->|[->|[->|[->|[->|[]]]]]]; [exists "/proc"|exists "/dev"..|exists "/sys"]; split; done || set_solver. }
    destruct (Hr' r Hin) as [_ Hf]. rewrite (HasPrefix_trans _ _ _ E Hp') in Hf. done.
Qed.

(** ** Users: a relational specification *)

Definition passwd_db (open : string -> result string) : list (string * Z * Z) :=
  match open "etc/passwd" with Ok content => omap passwd_entry (scan_lines content) | Err _ => [] end.

(** The entries of the group file; a name without a number is passed over. *)
Definition group_entry (line : string) : option (string * Z) :=
  match Split line ":" with
  | name :: _ :: n :: _ => match ParseUint n 32 with Ok gid => Some (name, gid) | Err _ => None end
  | _ => None
  end.

Definition selects (u : string) (e : string * Z * Z) : Prop :=
  let '(name, uid, _) := e in name = u \/ ParseUint u 32 = Ok uid.

Inductive user_is (db : list (string * Z * Z)) (u : string) : RtUser -> Prop :=
| user_listed before name uid gid after :
    db = before ++ (name, uid, gid) :: after -> selects u (name, uid, gid) ->
    Forall (fun e => ~ selects u e) before -> user_is db u (mkRtUser uid gid)
| user_number n :
    ParseUint u 32 = Ok n -> Forall (fun e => ~ selects u e) db -> user_is db u (mkRtUser n 0).

Inductive group_is (open : string -> result string) (g : string) : Z -> Prop :=
| group_number n : ParseUint g 32 = Ok n -> group_is open g n
| group_listed content before gid after e :
    ParseUint g 32 = Err e -> open "etc/group" = Ok content ->
    omap group_entry (scan_lines content) = before ++ (g, gid) :: after ->
    Forall (fun x => fst x <> g) before -> group_is open g gid.

Lemma scan_passwd_spec (u : string) (lines : list string) :
  match scan_passwd u (ParseUint u 32) lines with
  | Some out => exists before name after,
      omap passwd_entry lines = before ++ (name, UID out, GID out) :: after /\
      selects u (name, UID out, GID out) /\ Forall (fun e => ~ selects u e) before
  | None => Forall (fun e => ~ selects u e) (omap passwd_entry lines)
  end.
Proof.
  induction lines as [|line lines IH]; simpl; [done|].
  destruct (passwd_entry line) as [[[name uid] gid]|] eqn:E; [|done].
  destruct (_ || _) eqn:Eb.
  - exists [], name, (omap passwd_entry lines). simpl. split_and!; [done| |done].
    apply orb_true_iff in Eb as [Eb|Eb]; bool_prop; auto.
  - bool_prop. assert (~ selects u (name, uid, gid)) as Hns by (by intros [?|?]).
    destruct (scan_passwd u _ lines) as [out|]; [|by constructor].
    destruct IH as (before & n & after & HE & H1 & H2). exists ((name, uid, gid) :: before), n, after.
    split_and!; [exact (f_equal (cons _) HE)|done|by constructor].
Qed.

Lemma scan_group_spec (g : string) (lines : list string) :
  match scan_group g lines with
  | Some gid => exists before after,
      omap group_entry lines = before ++ (g, gid) :: after /\ Forall (fun x => fst x <> g) before
  | None => Forall (fun x => fst x <> g) (omap group_entry lines)
  end.
Proof.
  induction lines as [|line lines IH]; simpl; [done|]. unfold group_entry.
  destruct (Split line ":") as [|name [|x [|n l]]]; try done. case_bool_decide as Hn.
  - destruct (ParseUint n 32) as [gid|]; [|done]. subst. by exists [], (omap group_entry lines).
  - destruct (ParseUint n 32) as [gid|]; [|done].
    destruct (scan_group g lines) as [out|]; [|by constructor].
    destruct IH as (before & after & HE & H). exists ((name, gid) :: before), after.
    split; [exact (f_equal (cons _) HE)|by constructor].
Qed.

(** Two positions of the first match coincide. *)
Lemma first_unique {A} (P : A -> Prop) (b1 a1 b2 a2 : list A) (x1 x2 : A) :
  b1 ++ x1 :: a1 = b2 ++ x2 :: a2 -> P x1 -> P x2 ->
  Forall (fun e => ~ P e) b1 -> Forall (fun e => ~ P e) b2 -> x1 = x2.
Proof.
  revert b2. induction b1 as [|y b1 IH]; intros [|z b2]; simpl; intros E H1 H2 F1 F2.
  - by injection E as ->.
  - injection E as -> _. apply Forall_cons in F2 as [? _]. done.
  - injection E as -> _. apply Forall_cons in F1 as [? _]. done.
  - injection E as -> E. apply Forall_cons in F1 as [_ F1]. apply Forall_cons in F2 as [_ F2]. by eapply IH.
Qed.

Lemma first_none {A} (P : A -> Prop) (b a : list A) (x : A) : P x -> ~ Forall (fun e => ~ P e) (b ++ x :: a).
Proof. intros Hx H. apply Forall_app in H as [_ H]. apply Forall_cons in H as [? _]. done. Qed.

Lemma user_is_functional (db : list (string * Z * Z)) (u : string) (o1 o2 : RtUser) :
  user_is db u o1 -> user_is db u o2 -> o1 = o2.
Proof.
  intros [b1 n1 u1 g1 a1 E1 S1 F1|n1 N1 F1] [b2 n2 u2 g2 a2 E2 S2 F2|n2 N2 F2].
  - rewrite E1 in E2. pose proof (first_unique _ _ _ _ _ _ _ E2 S1 S2 F1 F2) as [= -> -> ->]. done.
  - rewrite E1 in F2. destruct (first_none _ _ _ _ S1 F2).
  - rewrite E2 in F1. destruct (first_none _ _ _ _ S2 F1).
  - congruence.
Qed.

Lemma group_is_functional (open : string -> result string) (g : string) (n1 n2 : Z) :
  group_is open g n1 -> group_is open g n2 -> n1 = n2.
Proof.
  intros [m1 N1|c1 b1 g1 a1 e1 N1 O1 E1 F1] [m2 N2|c2 b2 g2 a2 e2 N2 O2 E2 F2]; try congruence.
  rewrite O1 in O2. injection O2 as <-. rewrite E1 in E2.
  by pose proof (first_unique (fun x => fst x = g) _ _ _ _ _ _ E2 eq_refl eq_refl F1 F2) as [= ->].
Qed.

(** The executable lookup of the user part. *)
Definition lookup_user (open : string -> result string) (u : string) : option RtUser :=
  match match open "etc/passwd" with Ok c => scan_passwd u (ParseUint u 32) (scan_lines c) | Err _ => None end,
        ParseUint u 32 with
  | Some out, _ => Some out
  | None, Ok n => Some (mkRtUser n 0)
  | None, Err _ => None
  end.

Lemma lookup_user_spec (open : string -> result string) (u : string) (o : RtUser) :
  lookup_user open u = Some o <-> user_is (passwd_db open) u o.
Proof.
  assert (forall o', lookup_user open u = Some o' -> user_is (passwd_db open) u o') as Hok.
  { intros o'. unfold lookup_user, passwd_db. destruct (open "etc/passwd") as [c|].
    - pose proof (scan_passwd_spec u (scan_lines c)) as H. destruct (scan_passwd _ _ _) as [out|].
      + destruct H as (b & n & a & H1 & H2 & H3). intros [= <-]. destruct out as [i j]. by eapply user_listed.
      + destruct (ParseUint u 32) eqn:E; [|done]. intros [= <-]. by apply user_number.
    - destruct (ParseUint u 32) eqn:E; [|done]. intros [= <-]. by apply user_number. }
  split; [apply Hok|]. intros H. destruct (lookup_user open u) as [o'|] eqn:E.
  - f_equal. eapply user_is_functional; [by apply Hok|done].
  - exfalso. unfold lookup_user, passwd_db in *. destruct (open "etc/passwd") as [c|].
    + pose proof (scan_passwd_spec u (scan_lines c)) as HS. destruct (scan_passwd _ _ _); [done|].
      destruct H as [b n i j a E1 S1 F1|n N F]; [rewrite E1 in HS; destruct (first_none _ _ _ _ S1 HS)|by rewrite N in E].
    + destruct H as [b n i j a E1 S1 F1|n N F]; [by destruct b|by rewrite N in E].
Qed.

Definition lookup_group (open : string -> result string) (g : string) : option Z :=
  match ParseUint g 32 with
  | Ok n => Some n
  | Err _ => match open "etc/group" with Ok c => scan_group g (scan_lines c) | Err _ => None end
  end.

Lemma lookup_group_spec (open : string -> result string) (g : string) (n : Z) :
  lookup_group open g = Some n <-> group_is open g n.
Proof.
  assert (forall n', lookup_group open g = Some n' -> group_is open g n') as Hok.
  { intros n'. unfold lookup_group. destruct (ParseUint g 32) eqn:E; [intros [= <-]; by apply group_number|].
    destruct (open "etc/group") as [c|] eqn:Eo; [|done]. intros H.
    pose proof (scan_group_spec g (scan_lines c)) as HS. rewrite H in HS. destruct HS as (b & a & HS & HF).
    by eapply group_listed. }
  split; [apply Hok|]. intros H. destruct (lookup_group open g) as [n'|] eqn:E.
  - f_equal. eapply group_is_functional; [by apply Hok|done].
  - exfalso. unfold lookup_group in E. destruct H as [m N|c b i a e N O Eq F]; rewrite N in E; [done|].
    rewrite O in E. pose proof (scan_group_spec g (scan_lines c)) as HS. rewrite E, Eq in HS.
    by destruct (first_none (fun x => fst x = g) b a (g, i) eq_refl HS).
Qed.

(** C40. The lookup of a user agrees with its relational specification: an entry of
    the image's passwd file is selected by name or number, the first one wins;
    a number without an entry stands for itself with group 0; an explicit group
    is a number or the first entry of that name; everything else, and only
    that, is an error. *)
Theorem User_correct (open : string -> result string) (user : string) (out : RtUser) :
  User open user = Ok out <->
  (user = "" /\ out = mkRtUser 0 0) \/
  (user <> "" /\ exists u g hasGroup o,
     Cut user ":" = (u, g, hasGroup) /\ user_is (passwd_db open) u o /\ UID out = UID o /\
     if hasGroup : bool then group_is open g (GID out) else GID out = GID o).
Proof.
  unfold User. case_bool_decide as Hu.
  { split; [intros [= <-]; by left|]. intros [[_ ->]|[? _]]; done. }
  destruct (Cut user ":") as [[u g] has]. cbv zeta.
  set (R := match _ with Ok c => scan_passwd u _ _ | Err _ => None end).
  assert (match R, ParseUint u 32 with
          | Some o, _ => Ok o | None, Ok n => Ok (mkRtUser n 0)
          | None, Err _ => Err (Errorf "user %q not found in container") end =
          match lookup_user open u with Some o => Ok o | None => Err (Errorf "user %q not found in container") end) as ->.
  { unfold lookup_user. fold R. by destruct R, (ParseUint u 32). }
  assert (forall o, (if has then match ParseUint g 32 with
      | Ok n => Ok (mkRtUser (UID o) n)
      | Err _ => let* content := open "etc/group" in
          match scan_group g (scan_lines content) with
          | Some n => Ok (mkRtUser (UID o) n) | None => Err (Errorf "group %q not found") end end else Ok o) = Ok out <->
    UID out = UID o /\ if has then group_is open g (GID out) else GID out = GID o) as HG.
  { intros o. destruct has.
    - rewrite <-lookup_group_spec. unfold lookup_group. destruct (ParseUint g 32).
      + split; [by intros [= <-]|]. intros [E [= ->]]. rewrite <-E. by destruct out.
      + destruct (open "etc/group"); simpl; [|split; [done|by intros [_ ?]]].
        destruct (scan_group _ _); [|split; [done|by intros [_ ?]]].
        split; [by intros [= <-]|]. intros [E [= ->]]. rewrite <-E. by destruct out.
    - split; [by intros [= <-]|]. destruct out, o; simpl. by intros [-> ->]. }
  pose proof (lookup_user_spec open u) as HL. destruct (lookup_user open u) as [o|]; simpl.
  - rewrite HG. split.
    + intros H. right. split; [done|]. exists u, g, has, o. split_and!; [done|by apply HL|by destruct H..].
    + intros [[? _]|(_ & u' & g' & h' & o' & [= <- <- <-] & Ho' & H)]; [done|]. apply HL in Ho' as [= ->]. done.
  - split; [done|]. intros [[? _]|(_ & u' & g' & h' & o' & [= <- <- <-] & Ho' & H)]; [done|]. by apply HL in Ho'.
Qed.

(** ** The configuration *)

(** C23. The workload is confined whatever the sandbox asks for: only the listed
    system calls and sockets of the families unix, inet and inet6 pass the
    filter, so nothing of mounting, namespaces, modules, keyrings, bpf, perf
    and tracing, and no vsock, netlink or packet socket; no privileged
    capability is held or can be gained; all namespaces are private; device
    access is denied but for terminals and the memory devices null, zero, full,
    random and urandom. *)
Theorem Build_confined (open : string -> result string) (s : Sandbox) (root netns : string) (c : RtSpec) :
  Build open s root netns = Ok c ->
  (forall name args, verdict (rs_Seccomp c) name args = ActAllow <->
     name ∈ calls \/ name = "socket" /\ exists v rest, args = v :: rest /\ v ∈ [1; 2; 10]) /\
  (forall name args, name ∈ forbidden -> verdict (rs_Seccomp c) name args = ActErrno) /\
  (forall family args, family ∈ [AF_VSOCK; AF_NETLINK; AF_PACKET] ->
     verdict (rs_Seccomp c) "socket" (family :: args) = ActErrno) /\
  rp_NoNewPrivileges (rs_Process c) = true /\
  (let k := rp_Capabilities (rs_Process c) in
   Forall (fun n => n ∉ Bounding k /\ n ∉ Effective k /\ n ∉ Permitted k /\ n ∉ Inheritable k /\ n ∉ Ambient k) privileged) /\
  ns_Type <$> rs_Namespaces c = ["pid"; "mount"; "ipc"; "uts"; "cgroup"; "network"] /\
  Forall (fun n => ns_Path n = "" \/ ns_Type n = "network" /\ ns_Path n = netns) (rs_Namespaces c) /\
  (exists rest, rs_Devices c = mkDevice false "" None None "rwm" :: rest /\
     Forall (fun d => dv_Type d = "c" /\
       (dv_Major d = Some 1 /\ dv_Minor d ∈ [Some 3; Some 5; Some 7; Some 8; Some 9] \/
        dv_Major d ∈ [Some 5; Some 136])) rest).
Proof.
  unfold Build. intros H. ok_inv. cbn [rs_Seccomp rs_Process rs_Namespaces rs_Devices rp_NoNewPrivileges rp_Capabilities].
  assert (forall name args, verdict (filter_of [1; 2; 10]) name args <> ActAllow ->
    verdict (filter_of [1; 2; 10]) name args = ActErrno) as HE by (intros name args; by destruct (verdict _ _ _)).
  split_and!.
  - intros. apply verdict_allow.
  - intros name args Hn. apply HE. rewrite verdict_allow. pose proof disjoint_calls as HD.
    rewrite Forall_forall in HD. destruct (HD name Hn) as [H1 H2]. by intros [?|[? _]].
  - intros family args Hf. apply HE. rewrite verdict_allow. intros [Hs|(_ & v & rest & [= <- <-] & Hv)].
    + by apply socket_not_listed.
    + unfold AF_VSOCK, AF_NETLINK, AF_PACKET in Hf. set_solver.
  - done.
  - eapply Forall_impl; [apply unprivileged|]. intros n Hn. simpl. split_and!; try done; apply not_elem_of_nil.
  - done.
  - unfold namespaces. repeat (apply Forall_cons_2 || apply Forall_nil_2); simpl; auto.
  - eexists. split; [done|]. repeat (apply Forall_cons_2 || apply Forall_nil_2); simpl; (split; [done|]); set_solver.
Qed.

(** The configuration of a validated sandbox: it exists exactly when the user
    does; the limits are those of the specification, with a CPU quota that does
    not overflow; the volumes follow the fixed mounts in order, read-only where
    asked, never with devices or set-uid programs, and none of them hides or
    lies below a kernel file system. *)
Theorem Build_correct (open : string -> result string) (s : Sandbox) (root netns : string) :
  Validate (sb_Spec s) = Ok tt ->
  match Build open s root netns, User open (pr_User (sb_Process s)) with
  | Ok c, Ok user =>
      rp_User (rs_Process c) = user /\ rp_Args (rs_Process c) = pr_Args (sb_Process s) /\
      rs_RootReadonly c = s_ReadOnly (sb_Spec s) /\
      rs_MemoryLimit c = s_Memory (sb_Spec s) /\ rs_PidsLimit c = s_PidsLimit (sb_Spec s) /\
      rs_CPUQuota c = s_CPUs (sb_Spec s) * rs_CPUPeriod c /\
      length (rs_Mounts c) = (6 + length (s_Mounts (sb_Spec s)))%nat /\
      (forall i m, s_Mounts (sb_Spec s) !! i = Some m ->
         exists v, rs_Mounts c !! (6 + i)%nat = Some v /\ rm_Destination v = m_Target m /\
           rm_Source v = "/run/niflhel/volumes/" +:+ Itoa (Z.of_nat i) /\
           "nosuid" ∈ rm_Options v /\ "nodev" ∈ rm_Options v /\ ("ro" ∈ rm_Options v <-> m_ReadOnly m = true) /\
           (forall k, k ∈ kernel_mounts -> ~ covers (rm_Destination v) k /\ ~ covers k (rm_Destination v)))
  | Err _, Err _ => True
  | _, _ => False
  end.
Proof.
  intros Hv. apply Validate_iff in Hv. unfold Build. destruct (User open _) as [user|]; [|done].
  cbn [result_bind rs_Process rs_RootReadonly rs_MemoryLimit rs_PidsLimit rs_CPUQuota rs_CPUPeriod rs_Mounts rp_User rp_Args].
  split_and!; try done.
  - apply int64_id. pose proof (vs_cpus _ Hv). unfold in_int64, two63, max_int64. lia.
  - by rewrite length_app, length_imap.
  - intros i m Hm. exists (volume_mount i m). split; [|split; [done|split; [done|split; [|split; [|split]]]]].
    + change 6%nat with (length fixed_mounts). rewrite lookup_app_r by lia.
      replace (_ + i - _)%nat with i by lia. by rewrite list_lookup_imap, Hm.
    + simpl. set_solver.
    + simpl. set_solver.
    + simpl. destruct (m_ReadOnly m); set_solver.
    + intros k Hk. apply mount_ok_apart; [|done]. pose proof (vs_mounts _ Hv) as HM. rewrite Forall_forall in HM.
      apply HM. by eapply list_elem_of_lookup_2.
Qed.

Module Sample.
Definition spec : Spec :=
  mkSpec "alpine" "" "web" [] None [] "" "" 2 (512 * MiB) (4 * GiB) 256 "bridge" []
    [mkMount "data" "/var/lib/data" true] "runc" "linux/amd64" "missing" false false false false.
Definition sandbox : Sandbox :=
  mkSandbox "0123456789abcdef0123456789abcdef" "web" spec
    (mkProcess ["/bin/sh"] [] "app:adm" "/" "SIGTERM" false false)
    "" "" "ready" "" [] 1 0 0 None 0 "" 0 1 false.
Definition nl : string := String newline "".
Definition files (name : string) : result string :=
  if bool_decide (name = "etc/passwd") then
    Ok ("root:x:0:0:root:/root:/bin/sh" +:+ nl +:+ "app:x:1000:1001::/:/bin/sh" +:+ nl)
  else if bool_decide (name = "etc/group") then Ok ("root:x:0:" +:+ nl +:+ "adm:x:4:app" +:+ nl)
  else Err (Errorf "no such file or directory").

Lemma built : exists c, Build files sandbox "/state/bundle/rootfs" "/run/netns/app" = Ok c.
Proof. eexists. cbv -[calls imap Itoa]. reflexivity. Qed.
End Sample.

Lemma Build_confined_witness :
  exists c, Build Sample.files Sample.sandbox "/state/bundle/rootfs" "/run/netns/app" = Ok c /\
    verdict (rs_Seccomp c) "mount" [] = ActErrno.
Proof.
  destruct Sample.built as [c Hc]. exists c. split; [exact Hc|].
  destruct (Build_confined Sample.files Sample.sandbox "/state/bundle/rootfs" "/run/netns/app" c Hc) as (_ & H & _).
  apply H. left.
Defined.

Lemma Build_correct_witness :
  Validate Sample.spec = Ok tt /\
  match Build Sample.files Sample.sandbox "/state/bundle/rootfs" "/run/netns/app" with
  | Ok c => rp_User (rs_Process c) = mkRtUser 1000 4 /\ rs_CPUQuota c = 2 * rs_CPUPeriod c
  | Err _ => False
  end.
Proof.
  split; [vm_compute; reflexivity|].
  assert (Hv : Validate (sb_Spec Sample.sandbox) = Ok tt) by (vm_compute; reflexivity).
  pose proof (Build_correct Sample.files Sample.sandbox "/state/bundle/rootfs" "/run/netns/app" Hv) as H.
  assert (Hu : User Sample.files (pr_User (sb_Process Sample.sandbox)) = Ok (mkRtUser 1000 4)) by (vm_compute; reflexivity).
  rewrite Hu in H. destruct (Build _ _ _ _) as [c|e]; [|exact H].
  destruct H as (H1 & _ & _ & _ & _ & H2 & _). split; [exact H1|exact H2].
Defined.
