(* ===== verification/Wire.v ===== *)
(** * Wire: framed JSON streams and remote calls (internal/wire/wire.go)

    A [Stream] carries one JSON value per line.  What has been written to a
    connection and not yet read is a byte string; a write may be short or fail,
    and the connection may end after any byte.  [ReadLine] is the method of
    [bufio.Reader] with a buffer of [n] bytes.  The JSON codec is a parameter:
    the statements need that an encoding has no line break, decodes to its
    value, and that no proper part of it decodes. *)

From S2P Require Import Prelude GoLib Api.
Import Strings.
Local Open Scope Z_scope.
Local Open Scope go_scope.

Definition MaxFrame : Z := 1048576.
Definition newline : ascii := "010"%char.
Definition carriage : ascii := "013"%char.
Definition EOF : error := Errorf "EOF".

Definition len (s : string) : Z := Z.of_nat (String.length s).

(** ** Writing *)

(** The loop of [Send]: the t-th call of [conn.Write] reports a number of
    bytes and possibly an error.  The result has the bytes that were written
    and the number of calls. *)
Fixpoint write_loop (write : nat -> nat * option error) (fuel t : nat) (b : string)
  : string * result unit * nat :=
  match fuel, b with
  | 0%nat, _ | _, EmptyString => ("", Ok tt, t)
  | S fuel, _ =>
      let '(n, e) := write t in
      match e with
      | Some e => (take_str n b, Err e, S t)
      | None =>
          if (n =? 0)%nat then ("", Err (Errorf "short write"), S t)
          else let '(w, r, t') := write_loop write fuel (S t) (drop_str n b) in (take_str n b +:+ w, r, t')
      end
  end.

Section Codec.
Context {V : Type} (encode : V -> result string) (decode : string -> result V).

(** [Stream.Send] *)
Definition Send (write : nat -> nat * option error) (t : nat) (v : V) : string * result unit * nat :=
  match encode v with
  | Err e => ("", Err e, t)
  | Ok b =>
      if MaxFrame <? len b then ("", Err (Errorf "frame too large"), t)
      else let b := b +:+ String newline "" in write_loop write (String.length b) t b
  end.

(** ** Reading *)

(** [bufio.Reader.ReadLine] with a buffer of [n] bytes, on the bytes that come
    before the connection ends. *)
Definition ReadLine (n : nat) (rest : string) : result (string * bool * string) :=
  let head := take_str n rest in
  if ContainsRune head newline then
    let '(line, rest', _) := Cut rest newline in Ok (TrimSuffix line (String carriage ""), false, rest')
  else if (n <=? String.length rest)%nat then
    if HasSuffix head (String carriage "") then Ok (take_str (n - 1) rest, true, drop_str (n - 1) rest)
    else Ok (head, true, drop_str n rest)
  else if bool_decide (rest = "") then Err EOF
  else Ok (rest, false, "").

(** The loop of [Recv]; the result has the bytes left and whether the stream
    was closed. *)
Fixpoint recv_loop (n fuel : nat) (b rest : string) : result string * string * bool :=
  match fuel with
  | 0%nat => (Err (Errorf "out of fuel"), rest, false)
  | S fuel =>
      match ReadLine n rest with
      | Err e => (Err e, rest, true)
      | Ok (p, prefix, rest') =>
          if MaxFrame <? len b + len p then (Err (Errorf "frame too large"), rest', false)
          else if prefix : bool then recv_loop n fuel (b +:+ p) rest'
          else (Ok (b +:+ p), rest', false)
      end
  end.

(** [Stream.Recv]; each round takes a byte, so one round per byte and one for
    the end are enough. *)
Definition Recv (n : nat) (rest : string) : result V * string * bool :=
  match recv_loop n (S (String.length rest)) "" rest with
  | (Ok b, rest', closed) => (decode b, rest', closed)
  | (Err e, rest', closed) => (Err e, rest', closed)
  end.

(** Receiving until an error. *)
Fixpoint recv_all (n fuel : nat) (rest : string) : list V * error :=
  match fuel with
  | 0%nat => ([], Errorf "out of fuel")
  | S fuel =>
      match Recv n rest with
      | (Ok v, rest', _) => let '(vs, e) := recv_all n fuel rest' in (v :: vs, e)
      | (Err e, _, _) => ([], e)
      end
  end.

(** Sending one value after another. *)
Fixpoint send_all (write : nat -> nat * option error) (t : nat) (vs : list V) : string * list (result unit) :=
  match vs with
  | [] => ("", [])
  | v :: vs =>
      let '(w, r, t') := Send write t v in
      let '(ws, rs) := send_all write t' vs in (w +:+ ws, r :: rs)
  end.

(** ** Lemmas on the two loops *)

Definition plain (b : string) : Prop := ContainsRune b newline = false /\ ContainsRune b carriage = false.

Lemma plain_parts (n : nat) (s : string) : plain s -> plain (take_str n s) /\ plain (drop_str n s).
Proof.
  unfold plain. rewrite (ContainsRune_parts n s newline), (ContainsRune_parts n s carriage), !orb_false_iff. tauto.
Qed.

Lemma HasSuffix_plain (s : string) : plain s -> HasSuffix s (String carriage "") = false.
Proof.
  intros [_ H]. destruct (HasSuffix s _) eqn:E; [|done]. apply HasSuffix_spec in E as [t ->].
  rewrite ContainsRune_app in H. apply orb_false_iff in H as [_ H]. done.
Qed.

Lemma TrimSuffix_plain (s : string) : plain s -> TrimSuffix s (String carriage "") = s.
Proof. intros H. unfold TrimSuffix. by rewrite HasSuffix_plain. Qed.

(** A plain frame that is terminated is read back whole. *)
Lemma recv_loop_frame (n fuel : nat) (acc b tail : string) :
  (0 < n)%nat -> plain b -> (String.length b < fuel)%nat -> len acc + len b <= MaxFrame ->
  recv_loop n fuel acc (b +:+ String newline tail) = (Ok (acc +:+ b), tail, false).
Proof.
  intros Hn. revert acc b. induction fuel as [|fuel IH]; intros acc b Hb Hf Hl; [lia|]. cbn [recv_loop].
  unfold ReadLine. destruct (decide (String.length b < n)%nat) as [Hs|Hs].
  - assert (ContainsRune (take_str n (b +:+ String newline tail)) newline = true) as ->.
    { rewrite take_str_app, ContainsRune_app. destruct (n - String.length b)%nat eqn:E; [lia|].
      simpl. by rewrite orb_true_r. }
    rewrite Cut_app by apply Hb. rewrite TrimSuffix_plain by done.
    destruct (MaxFrame <? _) eqn:E; [bool_prop; lia|]. done.
  - assert (take_str n (b +:+ String newline tail) = take_str n b) as Ht.
    { rewrite take_str_app. replace (n - String.length b)%nat with 0%nat by lia. simpl. apply app_nil_r_str. }
    rewrite Ht. destruct (plain_parts n b Hb) as [Hp1 Hp2]. rewrite (proj1 Hp1).
    destruct (n <=? _)%nat eqn:E.
    2: { apply Nat.leb_gt in E. rewrite length_app_str in E. simpl in E. lia. }
    rewrite HasSuffix_plain by done.
    assert (drop_str n (b +:+ String newline tail) = drop_str n b +:+ String newline tail) as ->.
    { rewrite drop_str_app. by replace (n - String.length b)%nat with 0%nat by lia. }
    assert (len b = len (take_str n b) + len (drop_str n b)) as Hlen.
    { unfold len. rewrite <-(take_drop_str n b) at 1. rewrite length_app_str. lia. }
    assert (0 <= len (drop_str n b)) by (unfold len; lia).
    destruct (MaxFrame <? _) eqn:E2; [bool_prop; lia|].
    rewrite IH.
    + by rewrite app_assoc_str, take_drop_str.
    + done.
    + rewrite length_drop_str. lia.
    + unfold len in *. rewrite length_app_str. lia.
Qed.

(** A plain part of a frame that is not terminated gives at most its bytes. *)
Lemma recv_loop_part (n fuel : nat) (acc b : string) :
  (0 < n)%nat -> plain b -> (String.length b < fuel)%nat ->
  exists e rest closed, recv_loop n fuel acc b = (Err e, rest, closed) \/
    (b <> "" /\ recv_loop n fuel acc b = (Ok (acc +:+ b), "", false)).
Proof.
  intros Hn. revert acc b. induction fuel as [|fuel IH]; intros acc b Hb Hf; [lia|]. cbn [recv_loop].
  unfold ReadLine. destruct (plain_parts n b Hb) as [Hp1 Hp2]. rewrite (proj1 Hp1).
  destruct (n <=? _)%nat eqn:E.
  - apply Nat.leb_le in E. rewrite HasSuffix_plain by done.
    destruct (MaxFrame <? _); [exists (Errorf "frame too large"), (drop_str n b), false; by left|].
    destruct (IH (acc +:+ take_str n b) (drop_str n b)) as (e & rest & closed & [H|[Hne H]]).
    + done.
    + rewrite length_drop_str. lia.
    + exists e, rest, closed. by left.
    + exists EOF, "", false. right. rewrite H, app_assoc_str, take_drop_str. split; [|done].
      intros ->. destruct n; done.
  - case_bool_decide as Hbn; [exists EOF, b, true; by left|].
    destruct (MaxFrame <? _); [exists (Errorf "frame too large"), "", false; by left|].
    exists EOF, "", false. by right.
Qed.

Lemma write_loop_calm (write : nat -> nat * option error) (fuel t : nat) (b : string) :
  (forall t, snd (write t) = None /\ (0 < fst (write t))%nat) -> (String.length b <= fuel)%nat ->
  exists t', write_loop write fuel t b = (b, Ok tt, t').
Proof.
  intros Hw. revert t b. induction fuel as [|fuel IH]; intros t b Hf.
  { destruct b; [by exists t|simpl in Hf; lia]. }
  destruct b as [|c b]; [by exists t|]. cbn [write_loop]. destruct (Hw t) as [He Hn].
  destruct (write t) as [n e]. simpl in He, Hn. subst e. destruct n as [|n]; [lia|]. cbn [Nat.eqb].
  destruct (IH (S t) (drop_str (S n) (String c b))) as [t' ->].
  { rewrite length_drop_str. simpl in *. lia. }
  exists t'. by rewrite take_drop_str.
Qed.

(** Whatever the writes do, what reached the connection is a part of the
    frame, all of it on success. *)
Lemma write_loop_prefix (write : nat -> nat * option error) (fuel t : nat) (b : string) :
  (String.length b <= fuel)%nat ->
  let '(w, r, _) := write_loop write fuel t b in
  exists k, w = take_str k b /\ (r = Ok tt -> w = b).
Proof.
  revert t b. induction fuel as [|fuel IH]; intros t b Hf.
  { destruct b; [by exists 0%nat|simpl in Hf; lia]. }
  destruct b as [|c b]; [by exists 0%nat|]. cbn [write_loop]. destruct (write t) as [n [e|]].
  { exists n. by split. }
  destruct n as [|n]; cbn [Nat.eqb]; [exists 0%nat; by split|].
  specialize (IH (S t) (drop_str (S n) (String c b))). rewrite length_drop_str in IH.
  destruct (write_loop write fuel (S t) _) as [[w r] t']. destruct IH as (k & -> & Hr); [simpl in *; lia|].
  exists (S n + k)%nat. split; [symmetry; apply take_str_add|].
  intros E. rewrite (Hr E). apply take_drop_str.
Qed.

(** ** Streams *)

(** The encoding of a value that [Send] accepts. *)
Definition frame (v : V) : option string :=
  match encode v with Ok b => if MaxFrame <? len b then None else Some b | Err _ => None end.

Definition accepted (vs : list V) : list V := filter (fun v => is_Some (frame v)) vs.

(** The bytes of a list of frames. *)
Fixpoint stream (bs : list string) : string :=
  match bs with [] => "" | b :: bs => b +:+ String newline (stream bs) end.

Lemma Send_calm (write : nat -> nat * option error) (t : nat) (v : V) :
  (forall t, snd (write t) = None /\ (0 < fst (write t))%nat) ->
  match frame v with
  | Some b => exists t', Send write t v = (b +:+ String newline "", Ok tt, t')
  | None => exists e, Send write t v = ("", Err e, t)
  end.
Proof.
  intros Hw. unfold frame, Send. destruct (encode v) as [b|e]; [|eauto]. destruct (MaxFrame <? len b); [eauto|].
  by apply write_loop_calm.
Qed.

Lemma send_all_calm (write : nat -> nat * option error) (t : nat) (vs : list V) :
  (forall t, snd (write t) = None /\ (0 < fst (write t))%nat) ->
  exists rs, send_all write t vs = (stream (omap frame vs), rs) /\
    Forall2 (fun v r => r = Ok tt <-> is_Some (frame v)) vs rs.
Proof.
  intros Hw. revert t. induction vs as [|v vs IH]; intros t; [by exists []|]. cbn [send_all].
  pose proof (Send_calm write t v Hw) as HS. destruct (frame v) as [b|] eqn:E.
  - destruct HS as [t' ->]. destruct (IH t') as (rs & -> & HF). exists (Ok tt :: rs). split; [|by constructor; eauto].
    cbn. rewrite E, app_assoc_str, app_cons_str, app_nil_l_str. done.
  - destruct HS as [e ->]. destruct (IH t) as (rs & -> & HF). exists (Err e :: rs). split.
    + cbn. rewrite E. apply f_equal2; [apply app_nil_l_str|done].
    + constructor; [|done]. rewrite E. split; [done|]. by intros [? ?].
Qed.

Section Laws.
(** Encodings have no line break, decode to their value, and no proper part of
    one decodes. *)
Hypothesis encode_plain : forall v b, encode v = Ok b -> plain b.
Hypothesis encode_decode : forall v b, encode v = Ok b -> decode b = Ok v.
Hypothesis encode_part : forall v b k, encode v = Ok b -> (k < String.length b)%nat -> is_ok (decode (take_str k b)) = false.

Lemma frame_inv (v : V) (b : string) : frame v = Some b -> encode v = Ok b /\ len b <= MaxFrame.
Proof.
  unfold frame. destruct (encode v) as [b'|]; [|done]. destruct (MaxFrame <? len b') eqn:E; [done|].
  bool_prop. by intros [= <-].
Qed.

Lemma Recv_frame (n : nat) (v : V) (b tail : string) :
  (0 < n)%nat -> frame v = Some b -> Recv n (b +:+ String newline tail) = (Ok v, tail, false).
Proof.
  intros Hn Hf. apply frame_inv in Hf as [He Hl]. unfold Recv.
  rewrite recv_loop_frame; [|done|by eapply encode_plain|rewrite length_app_str; simpl; lia|unfold len in *; simpl; lia].
  rewrite app_nil_l_str. by rewrite (encode_decode v b He).
Qed.

Lemma Recv_end (n : nat) : (0 < n)%nat -> Recv n "" = (Err EOF, "", true).
Proof. intros Hn. unfold Recv. cbn. unfold ReadLine. by destruct n; [lia|]. Qed.

(** A frame that is cut before its line break is refused, or it was complete. *)
Lemma Recv_part (n k : nat) (v : V) (b : string) :
  (0 < n)%nat -> frame v = Some b -> (k <= String.length b)%nat ->
  (exists e rest c, Recv n (take_str k b) = (Err e, rest, c)) \/ Recv n (take_str k b) = (Ok v, "", false).
Proof.
  intros Hn Hf Hk. apply frame_inv in Hf as [He Hl]. unfold Recv.
  destruct (plain_parts k b (encode_plain v b He)) as [Hp _].
  destruct (recv_loop_part n (S (String.length (take_str k b))) "" (take_str k b) Hn Hp) as (e & rest & c & [->|[_ ->]]);
    [lia|left; eauto|].
  rewrite app_nil_l_str. destruct (decide (k = String.length b)) as [->|Hne].
  - rewrite take_str_all by done. right. by rewrite (encode_decode v b He).
  - left. pose proof (encode_part v b k He) as HP. destruct (decode (take_str k b)) as [?|e']; [|eauto].
    by discriminate HP; lia.
Qed.

Lemma recv_all_end (n fuel : nat) : (0 < n)%nat -> recv_all n (S fuel) "" = ([], EOF).
Proof. intros Hn. cbn [recv_all]. by rewrite Recv_end. Qed.

Lemma accepted_cons (v : V) (vs : list V) :
  accepted (v :: vs) = match frame v with Some _ => v :: accepted vs | None => accepted vs end.
Proof.
  unfold accepted. destruct (frame v) eqn:E.
  - rewrite filter_cons_True; [done|]. rewrite E. eauto.
  - rewrite filter_cons_False; [done|]. rewrite E. by intros [? ?].
Qed.

Lemma omap_cons_frame (v : V) (vs : list V) :
  omap frame (v :: vs) = match frame v with Some b => b :: omap frame vs | None => omap frame vs end.
Proof. cbn. by destruct (frame v). Qed.

Lemma recv_all_stream (n fuel : nat) (vs : list V) :
  (0 < n)%nat -> (length vs < fuel)%nat -> recv_all n fuel (stream (omap frame vs)) = (accepted vs, EOF).
Proof.
  intros Hn. revert fuel. induction vs as [|v vs IH]; intros fuel Hf; simpl in Hf.
  { destruct fuel; [lia|]. by apply recv_all_end. }
  rewrite accepted_cons, omap_cons_frame. destruct (frame v) as [b|] eqn:E; [|apply IH; lia].
  destruct fuel as [|fuel]; [lia|]. cbn [recv_all stream]. rewrite (Recv_frame n v b _ Hn E).
  by rewrite IH by lia.
Qed.

Lemma take_stream (k : nat) (b : string) (bs : list string) :
  take_str k (b +:+ String newline (stream bs)) =
    if (k <=? String.length b)%nat then take_str k b
    else b +:+ String newline (take_str (k - String.length b - 1) (stream bs)).
Proof.
  rewrite take_str_app. destruct (k <=? _)%nat eqn:E.
  - apply Nat.leb_le in E. replace (k - _)%nat with 0%nat by lia. apply app_nil_r_str.
  - apply Nat.leb_gt in E. rewrite take_str_all by lia.
    destruct (k - String.length b)%nat eqn:E2; [lia|]. simpl. by replace (n - 0)%nat with n by lia.
Qed.

Lemma recv_all_cut (n fuel k : nat) (vs : list V) :
  (0 < n)%nat -> (length vs < fuel)%nat ->
  exists i e, recv_all n fuel (take_str k (stream (omap frame vs))) = (take i (accepted vs), e).
Proof.
  intros Hn. revert fuel k. induction vs as [|v vs IH]; intros fuel k Hf; simpl in Hf.
  { destruct fuel; [lia|]. exists 0%nat, EOF. destruct k; by apply recv_all_end. }
  rewrite accepted_cons, omap_cons_frame. destruct (frame v) as [b|] eqn:E; [|apply IH; lia].
  destruct fuel as [|fuel]; [lia|]. cbn [stream]. rewrite take_stream. destruct (k <=? _)%nat eqn:Ek.
  - apply Nat.leb_le in Ek. cbn [recv_all].
    destruct (Recv_part n k v b Hn E Ek) as [(e & rest & c & ->)| ->]; [by exists 0%nat, e|].
    destruct fuel as [|fuel]; [lia|]. rewrite recv_all_end by done. by exists 1%nat, EOF.
  - cbn [recv_all]. rewrite (Recv_frame n v b _ Hn E).
    destruct (IH fuel (k - String.length b - 1)%nat) as (i & e & ->); [lia|]. by exists (S i), e.
Qed.

(** C28. A stream delivers exactly what was accepted for sending: with short writes
    but no failing one, the values whose [Send] succeeded arrive in order and
    unchanged, whatever the size of the reader's buffer, followed by the end of
    the stream; a value that is too large is refused without a byte on the
    wire; and when the connection ends after any number of bytes, what arrives
    is an initial part of these values and never a damaged one. *)
Theorem stream_roundtrip (n : nat) (write : nat -> nat * option error) (vs : list V) :
  (0 < n)%nat -> (forall t, snd (write t) = None /\ (0 < fst (write t))%nat) ->
  exists bytes rs, send_all write 0 vs = (bytes, rs) /\
    Forall2 (fun v r => r = Ok tt <-> is_Some (frame v)) vs rs /\
    recv_all n (S (length vs)) bytes = (accepted vs, EOF) /\
    (forall k, exists i e, recv_all n (S (length vs)) (take_str k bytes) = (take i (accepted vs), e)).
Proof.
  intros Hn Hw. destruct (send_all_calm write 0 vs Hw) as (rs & E & HF).
  exists (stream (omap frame vs)), rs. split_and!; [done|done|apply recv_all_stream; lia || done|].
  intros k. apply recv_all_cut; lia || done.
Qed.
End Laws.
End Codec.

(** ** Bounds of [Recv] *)

Lemma Cut_take (n : nat) (s : string) (c : ascii) :
  ContainsRune (take_str n s) c = true ->
  exists k, Cut s c = (take_str k s, drop_str (S k) s, true) /\ (k < n)%nat /\ (k < String.length s)%nat.
Proof.
  revert n. induction s as [|d s IH]; intros [|n]; try done. simpl. case_bool_decide as Hd.
  - intros _. exists 0%nat. split_and!; [done|lia|lia].
  - simpl. intros H. destruct (IH n H) as (k & -> & H1 & H2). exists (S k). split_and!; [done|lia|lia].
Qed.

Lemma len_TrimSuffix (s q : string) : len (TrimSuffix s q) <= len s.
Proof. unfold TrimSuffix, len. destruct (HasSuffix s q); [|lia]. rewrite length_take_str. lia. Qed.

(** One [ReadLine]: what it takes, and what it returns of it. *)
Lemma ReadLine_spec (n : nat) (rest : string) :
  (2 <= n)%nat ->
  match ReadLine n rest with
  | Err _ => rest = ""
  | Ok (p, prefix, rest') => exists k,
      rest' = drop_str k rest /\ (1 <= k <= n)%nat /\ (k <= String.length rest)%nat /\
      len p <= Z.of_nat k /\ (prefix = true -> len p = Z.of_nat k)
  end.
Proof.
  intros Hn. unfold ReadLine. destruct (ContainsRune _ _) eqn:E.
  - destruct (Cut_take n rest newline E) as (k & -> & H1 & H2). exists (S k). split_and!; try done; try lia.
    etrans; [apply len_TrimSuffix|]. unfold len. rewrite length_take_str. lia.
  - destruct (n <=? _)%nat eqn:E2.
    + apply Nat.leb_le in E2. destruct (HasSuffix _ _).
      * exists (n - 1)%nat. unfold len. rewrite length_take_str. split_and!; try done; lia.
      * exists n. unfold len. rewrite length_take_str. split_and!; try done; lia.
    + apply Nat.leb_gt in E2. case_bool_decide as Hr; [done|]. exists (String.length rest).
      rewrite drop_str_all by lia. unfold len. split_and!; try done; try lia. destruct rest; [done|simpl; lia].
Qed.

Lemma recv_loop_bounds (n fuel fuel' : nat) (b rest : string) :
  (2 <= n)%nat -> (String.length rest < fuel)%nat -> (String.length rest < fuel')%nat -> len b <= MaxFrame ->
  exists r k c, recv_loop n fuel b rest = (r, drop_str k rest, c) /\
    recv_loop n fuel' b rest = (r, drop_str k rest, c) /\
    Z.of_nat k <= MaxFrame - len b + Z.of_nat n /\ (forall v, r = Ok v -> len v <= MaxFrame).
Proof.
  intros Hn. revert fuel' b rest. induction fuel as [|fuel IH]; intros fuel' b rest Hf Hf' Hb; [lia|].
  destruct fuel' as [|fuel']; [lia|]. cbn [recv_loop]. pose proof (ReadLine_spec n rest Hn) as HR.
  destruct (ReadLine n rest) as [[[p prefix] rest']|e].
  2: { subst rest. exists (Err e), 0%nat, true. unfold len in *. split_and!; try done; lia. }
  destruct HR as (k & -> & Hk & Hkl & Hp & Hpk).
  destruct (MaxFrame <? _) eqn:E; bool_prop.
  { exists (Err (Errorf "frame too large")), k, false. split_and!; try done; lia. }
  destruct prefix.
  - destruct (IH fuel' (b +:+ p) (drop_str k rest)) as (r & k' & c & -> & -> & Hk' & Hv).
    + rewrite length_drop_str. lia.
    + rewrite length_drop_str. lia.
    + unfold len in *. rewrite length_app_str. lia.
    + exists r, (k + k')%nat, c. rewrite drop_str_add. split_and!; try done.
      rewrite Nat2Z.inj_add. specialize (Hpk eq_refl). unfold len in *. rewrite length_app_str in Hk'. lia.
  - exists (Ok (b +:+ p)), k, false. split_and!; try done; [lia|]. intros v [= <-]. unfold len in *.
    rewrite length_app_str. lia.
Qed.

(** Whatever a peer sends, receiving one frame ends, takes at most 1 MiB and
    one buffer of bytes, and decodes at most 1 MiB; the rounds given to the
    loop are enough. *)
Theorem Recv_bounded {V : Type} (decode : string -> result V) (n : nat) (rest : string) :
  (2 <= n)%nat ->
  exists r k c, Recv decode n rest = (r, drop_str k rest, c) /\
    Z.of_nat k <= MaxFrame + Z.of_nat n /\
    (forall v, r = Ok v -> exists b, len b <= MaxFrame /\ decode b = Ok v) /\
    (forall fuel, (String.length rest < fuel)%nat ->
       recv_loop n fuel "" rest = recv_loop n (S (String.length rest)) "" rest).
Proof.
  intros Hn. assert (len "" <= MaxFrame) as H0 by (unfold len, MaxFrame; simpl; lia).
  destruct (recv_loop_bounds n (S (String.length rest)) (S (String.length rest)) "" rest Hn) as (r & k & c & E & _ & Hk & Hv);
    [lia|lia|done|].
  unfold Recv. rewrite E.
  exists (match r with Ok b => decode b | Err e => Err e end), k, c. split_and!.
  - by destruct r.
  - unfold len in Hk. simpl in Hk. lia.
  - intros v Hd. destruct r as [b|]; [|done]. exists b. split; [by apply Hv|done].
  - intros fuel Hf. destruct (recv_loop_bounds n fuel (S (String.length rest)) "" rest Hn) as (r' & k' & c' & E1 & E2 & _);
      [done|lia|done|]. by rewrite E1, <-E2, <-E.
Qed.

(** ** Remote calls *)

Record Response : Type := mkResponse { res_Status : Z; res_Body : string }.

Section Calls.
Context {Val : Type}.
(** The JSON codecs of requests, results and error texts; [decode_request]
    takes the first value of its input. *)
Context (encode_request : Request -> result string) (decode_request : string -> result Request).
Context (encode_value : Val -> result string) (decode_value : string -> result Val).
Context (encode_error : string -> string) (decode_error : string -> option string).

Definition with_newline (s : string) : string := s +:+ String newline "".

(** The handler of [/v1/call] in [Serve]. *)
Definition serve_call (call : Request -> result Val) (method body : string) : Response :=
  if negb (bool_decide (method = "POST")) then mkResponse 405 (with_newline "POST required") else
  match decode_request (take_str (Z.to_nat MaxFrame) body) with
  | Err e => mkResponse 400 (with_newline (error_text e))
  | Ok q =>
      match call q with
      | Err e => mkResponse 400 (with_newline (encode_error (error_text e)))
      | Ok v => mkResponse 200 (match encode_value v with Ok b => with_newline b | Err _ => "" end)
      end
  end.

(** [Client.Call]; [send] is the exchange of a request body for a response. *)
Definition client_call (send : string -> string -> result Response) (q : Request) (want : bool)
  : result (option Val) :=
  let* b := encode_request q in
  guard negb (MaxFrame <? len b) else Errorf "request too large" in
  let* res := send "POST" b in
  if negb (res_Status res =? 200) then
    Err (Errorf (default "" (decode_error (take_str (Z.to_nat MaxFrame) (res_Body res)))))
  else if negb want then Ok None
  else let* v := decode_value (take_str (Z.to_nat (16 * MaxFrame)) (res_Body res)) in Ok (Some v).

(** The guard of [/v1/session]: the upgrade header is compared without case. *)
Definition session_admitted (method upgrade : string) : bool :=
  bool_decide (method = "POST") && bool_decide (ToLower upgrade = "niflhel").

(** The handler of [/v1/session] after the guard: the first frame is the
    request; an error of the session is reported in a last frame. *)
Definition serve_session {T} (decode : string -> result T) (n : nat) (rest : string)
    (session : T -> string -> result unit) : option Frame :=
  match Recv decode n rest with
  | (Err _, _, _) => None
  | (Ok q, rest', _) =>
      match session q rest' with
      | Ok _ => None
      | Err e => Some (mkFrame "error" "" (error_text e) None 0 0 0 0)
      end
  end.

(** What decoding the first [k] bytes of a line gives: all of it or nothing.
    [encoding/json] has this for objects, lists and strings; [v] is what the text
    stands for once invalid UTF-8 was replaced. *)
Definition whole_line {A} (decode : string -> result A) (b : string) (v : A) : Prop :=
  forall k, decode (take_str k (with_newline b)) = if (String.length b <=? k)%nat then Ok v else Err (Errorf "unexpected EOF").

(** A call through client and server, in every case.  A request that is too
    large is refused before anything is sent.  Otherwise the call is made, and its
    result comes back as what its JSON text stands for, unless that text is larger
    than 16 MiB, which is an error of the client; a result that has no JSON text is
    the error of an empty answer; the text of an error comes back with invalid
    UTF-8 replaced, and empty when it is larger than 1 MiB. *)
Theorem rpc_transparent (call : Request -> result Val) (q : Request) (b : string) (want : bool)
    (shown : Val -> Val) (clean : string -> string) :
  encode_request q = Ok b -> decode_request b = Ok q ->
  (forall v c, call q = Ok v -> encode_value v = Ok c -> whole_line decode_value c (shown v)) ->
  decode_value "" = Err EOF ->
  (forall e, call q = Err e ->
     whole_line (fun s => match decode_error s with Some t => Ok t | None => Err (Errorf "unexpected EOF") end)
       (encode_error (error_text e)) (clean (error_text e))) ->
  client_call (fun method body => Ok (serve_call call method body)) q want =
    if MaxFrame <? len b then Err (Errorf "request too large")
    else match call q with
         | Ok v =>
             if negb want then Ok None
             else match encode_value v with
                  | Ok c => if len c <=? 16 * MaxFrame then Ok (Some (shown v)) else Err (Errorf "unexpected EOF")
                  | Err _ => Err EOF
                  end
         | Err e => Err (Errorf (if len (encode_error (error_text e)) <=? MaxFrame then clean (error_text e) else ""))
         end.
Proof.
  intros Hb Hq Hv H0 He. unfold client_call. rewrite Hb. cbn [result_bind].
  destruct (MaxFrame <? len b) eqn:El; [done|]. cbn [negb]. bool_prop. cbn [result_bind].
  unfold serve_call. rewrite bool_decide_eq_true_2 by done. cbn [negb].
  rewrite take_str_all by (unfold len in El; lia). rewrite Hq.
  assert (forall m s, 0 <= m -> (String.length s <=? Z.to_nat m)%nat = (len s <=? m)) as Hle.
  { intros m s Hm. unfold len. destruct (Nat.leb_spec (String.length s) (Z.to_nat m)), (Z.leb_spec (Z.of_nat (String.length s)) m);
      try done; lia. }
  destruct (call q) as [v|e]; cbn [res_Status res_Body]; cbn [Z.eqb Pos.eqb negb].
  - destruct want; [|done]. cbn [negb]. destruct (encode_value v) as [c|e] eqn:Ec; [|by rewrite take_str_all by (simpl; lia); rewrite H0].
    rewrite (Hv v c eq_refl Ec), Hle by (unfold MaxFrame; lia). by destruct (len c <=? 16 * MaxFrame).
  - pose proof (He e eq_refl (Z.to_nat MaxFrame)) as Hd. rewrite Hle in Hd by (unfold MaxFrame; lia).
    destruct (decode_error _), (len _ <=? MaxFrame); try done; by injection Hd as ->.
Qed.
End Calls.

(** ** Relaying two streams *)

Definition terminal (f : Frame) : bool :=
  bool_decide (fr_Type f = "exit") || bool_decide (fr_Type f = "error") || bool_decide (fr_Type f = "detached").

(** One goroutine [copyFrames]: it reads, holds a frame, or has reported. *)
Inductive copier : Type := Reading | Holding (f : Frame) | Reported (e : option error).

(** A stream: the frames its peer sends, the error that then ends it if it
    does not stay silent, and what was sent to it. *)
Record End : Type := mkEnd { en_in : list Frame; en_fin : option error; en_out : list Frame }.

(** Both streams and both directions; [rl_first] is what the first report was,
    after which both streams are closed. *)
Record relay : Type := mkRelay {
  rl_a : End; rl_b : End; rl_ab : copier; rl_ba : copier; rl_first : option (option error) }.

(** A step of the direction from [src] to [dst]; [closed] is shared. *)
Inductive copy_step (closed : bool) : copier * End * End -> copier * End * End -> Prop :=
| copy_recv f fs fin so dst :
    closed = false ->
    copy_step closed (Reading, mkEnd (f :: fs) fin so, dst) (Holding f, mkEnd fs fin so, dst)
| copy_recv_end e so dst :
    copy_step closed (Reading, mkEnd [] (Some e) so, dst) (Reported (Some e), mkEnd [] (Some e) so, dst)
| copy_recv_closed e src dst :
    closed = true -> copy_step closed (Reading, src, dst) (Reported (Some e), src, dst)
| copy_send f src di dfin dout :
    closed = false ->
    copy_step closed (Holding f, src, mkEnd di dfin dout)
      (if terminal f then Reported None else Reading, src, mkEnd di dfin (dout ++ [f]))
| copy_send_fail e f src dst :
    copy_step closed (Holding f, src, dst) (Reported (Some e), src, dst).

Definition report (c : copier) : option (option error) := match c with Reported e => Some e | _ => None end.

Inductive relay_step : relay -> relay -> Prop :=
| relay_ab a b ab ba first ab' a' b' :
    copy_step (bool_decide (is_Some first)) (ab, a, b) (ab', a', b') ->
    relay_step (mkRelay a b ab ba first) (mkRelay a' b' ab' ba first)
| relay_ba a b ab ba first ba' a' b' :
    copy_step (bool_decide (is_Some first)) (ba, b, a) (ba', b', a') ->
    relay_step (mkRelay a b ab ba first) (mkRelay a' b' ab ba' first)
| relay_close a b ab ba e :
    report ab = Some e \/ report ba = Some e ->
    relay_step (mkRelay a b ab ba None) (mkRelay a b ab ba (Some e)).

(** [Relay]: the start, and what it returns once both directions reported. *)
Definition relay_start (a b : End) : relay := mkRelay a b Reading Reading None.

Definition relay_result (r : relay) : option (result unit) :=
  match rl_first r, report (rl_ab r), report (rl_ba r) with
  | Some e, Some _, Some _ =>
      Some (match e with None => Ok tt | Some e => if bool_decide (e = EOF) then Ok tt else Err e end)
  | _, _, _ => None
  end.

(** *** What one direction has done *)

(** The frames [sent] are forwarded in order, nothing follows a terminal
    frame, and nothing is lost while the direction still reads. *)
Definition forwards (all left sent : list Frame) (c : copier) : Prop :=
  (exists rest, all = sent ++ rest) /\
  Forall (fun f => terminal f = false) (removelast sent) /\
  match c with
  | Reading => all = sent ++ left /\ Forall (fun f => terminal f = false) sent
  | Holding f => all = sent ++ f :: left /\ Forall (fun f => terminal f = false) sent
  | Reported None => exists s f, sent = s ++ [f] /\ terminal f = true
  | Reported (Some _) => Forall (fun f => terminal f = false) sent
  end.

Lemma forwards_step (closed : bool) (all : list Frame) (c c' : copier) (src dst src' dst' : End) :
  copy_step closed (c, src, dst) (c', src', dst') ->
  forwards all (en_in src) (en_out dst) c ->
  forwards all (en_in src') (en_out dst') c' /\ en_out src' = en_out src /\ en_in dst' = en_in dst.
Proof.
  intros H (Hp & Hr & HF). inversion H; subst; simpl in *.
  - split; [|done]. by split; [|split].
  - split; [|done]. split; [done|split; [done|]]. by destruct HF.
  - split; [|done]. split; [done|split; [done|]]. by destruct HF.
  - split; [|done]. destruct HF as [-> HF]. split_and!.
    + exists (en_in src'). by rewrite <-app_assoc.
    + by rewrite removelast_last.
    + destruct (terminal f) eqn:E.
      * by exists dout, f.
      * split; [by rewrite <-app_assoc|]. apply Forall_app. split; [done|by constructor].
  - split; [|done]. split; [done|split; [done|]]. by destruct HF.
Qed.

Definition relay_ok (ina inb : list Frame) (r : relay) : Prop :=
  forwards ina (en_in (rl_a r)) (en_out (rl_b r)) (rl_ab r) /\
  forwards inb (en_in (rl_b r)) (en_out (rl_a r)) (rl_ba r) /\
  (forall e, rl_first r = Some e -> report (rl_ab r) = Some e \/ report (rl_ba r) = Some e).

Lemma copy_step_report (closed : bool) (c c' : copier) (s d s' d' : End) :
  copy_step closed (c, s, d) (c', s', d') -> report c = None.
Proof. by inversion 1. Qed.

Lemma relay_ok_step (ina inb : list Frame) (r r' : relay) :
  relay_step r r' -> relay_ok ina inb r -> relay_ok ina inb r'.
Proof.
  intros H (H1 & H2 & H3). destruct H as [a b ab ba first ab' a' b' Hs|a b ab ba first ba' a' b' Hs|a b ab ba e He]; simpl in *.
  - pose proof (copy_step_report _ _ _ _ _ _ _ Hs) as Hn.
    destruct (forwards_step _ ina _ _ _ _ _ _ Hs H1) as (HF & E1 & E2). split; [done|split; [by simpl; rewrite E1, E2|]]. simpl.
    intros e He. destruct (H3 e He) as [?|?]; [congruence|by right].
  - pose proof (copy_step_report _ _ _ _ _ _ _ Hs) as Hn.
    destruct (forwards_step _ inb _ _ _ _ _ _ Hs H2) as (HF & E1 & E2). split; [by simpl; rewrite E1, E2|split; [done|]]. simpl.
    intros e He. destruct (H3 e He) as [?|?]; [by left|congruence].
  - split; [done|split; [done|]]. simpl. by intros e' [= <-].
Qed.

(** *** Steps that are left *)

Definition copier_cost (c : copier) : nat := match c with Reading => 1 | Holding _ => 2 | Reported _ => 0 end.
Definition relay_cost (r : relay) : nat :=
  2 * length (en_in (rl_a r)) + 2 * length (en_in (rl_b r)) + copier_cost (rl_ab r) + copier_cost (rl_ba r) +
  match rl_first r with None => 1 | Some _ => 0 end.

Lemma copy_step_cost (closed : bool) (c c' : copier) (s d s' d' : End) :
  copy_step closed (c, s, d) (c', s', d') ->
  (2 * length (en_in s') + copier_cost c' < 2 * length (en_in s) + copier_cost c)%nat /\ en_in d' = en_in d.
Proof. inversion 1; subst; simpl; try (split; [lia|done]). destruct (terminal _); simpl; split; (lia || done). Qed.

Lemma relay_step_cost (r r' : relay) : relay_step r r' -> (relay_cost r' < relay_cost r)%nat.
Proof.
  intros H. destruct H as [a b ab ba first ab' a' b' Hs|a b ab ba first ba' a' b' Hs|a b ab ba e He]; unfold relay_cost; simpl.
  - apply copy_step_cost in Hs as [? ->]. lia.
  - apply copy_step_cost in Hs as [? ->]. lia.
  - lia.
Qed.

(** A relay that can take no step has returned, or both peers are silent. *)
Lemma relay_stuck (ina inb : list Frame) (r : relay) :
  relay_ok ina inb r -> (forall r', ~ relay_step r r') ->
  (exists x, relay_result r = Some x) \/
  (rl_ab r = Reading /\ rl_ba r = Reading /\ en_in (rl_a r) = [] /\ en_in (rl_b r) = [] /\
   en_fin (rl_a r) = None /\ en_fin (rl_b r) = None).
Proof.
  intros _ Hs. destruct r as [[ia fa oa] [ib fb ob] ab ba first]. simpl.
  assert (forall f, ab <> Holding f) as Hab.
  { intros f ->. eapply Hs, relay_ab. by apply (copy_send_fail _ EOF). }
  assert (forall f, ba <> Holding f) as Hba.
  { intros f ->. eapply Hs, relay_ba. by apply (copy_send_fail _ EOF). }
  destruct first as [e|].
  - left. unfold relay_result. simpl.
    destruct ab as [|f|ea]; [|by destruct (Hab f)|].
    { exfalso. eapply Hs, relay_ab. by apply (copy_recv_closed _ EOF). }
    destruct ba as [|f|eb]; [|by destruct (Hba f)|simpl; eauto].
    exfalso. eapply Hs, relay_ba. by apply (copy_recv_closed _ EOF).
  - right.
    destruct ab as [|f|ea]; [|by destruct (Hab f)|exfalso; eapply Hs, (relay_close _ _ _ _ ea); by left].
    destruct ba as [|f|eb]; [|by destruct (Hba f)|exfalso; eapply Hs, (relay_close _ _ _ _ eb); by right].
    destruct ia as [|f ia].
    2: { exfalso. eapply Hs, relay_ab. by apply copy_recv. }
    destruct ib as [|f ib].
    2: { exfalso. eapply Hs, relay_ba. by apply copy_recv. }
    destruct fa as [e|]; [exfalso; eapply Hs, relay_ab; by apply copy_recv_end|].
    destruct fb as [e|]; [exfalso; eapply Hs, relay_ba; by apply copy_recv_end|].
    done.
Qed.

Lemma relay_ok_start (a b : End) : en_out a = [] -> en_out b = [] -> relay_ok (en_in a) (en_in b) (relay_start a b).
Proof.
  intros Ha Hb. unfold relay_ok, forwards. simpl. rewrite Ha, Hb. split_and!; simpl; eauto; done.
Qed.

(** C30. A relay between two streams passes frames on in order and unchanged in
    both directions, nothing after a frame that ends the session; in every
    interleaving of the two directions it takes boundedly many steps, and where
    no step is left it has returned (nil for a normal end, also of the
    connection) unless both peers are silent on open connections. *)
Theorem relay_correct (a b : End) (r : relay) (n : nat) :
  en_out a = [] -> en_out b = [] -> nsteps relay_step n (relay_start a b) r ->
  (n <= 2 * length (en_in a) + 2 * length (en_in b) + 3)%nat /\
  (exists rest, en_in a = en_out (rl_b r) ++ rest) /\ (exists rest, en_in b = en_out (rl_a r) ++ rest) /\
  Forall (fun f => terminal f = false) (removelast (en_out (rl_a r))) /\
  Forall (fun f => terminal f = false) (removelast (en_out (rl_b r))) /\
  (relay_result r = Some (Ok tt) ->
     rl_first r = Some (Some EOF) \/ exists f, terminal f = true /\ (last (en_out (rl_a r)) = Some f \/ last (en_out (rl_b r)) = Some f)) /\
  ((forall r', ~ relay_step r r') ->
     (exists x, relay_result r = Some x) \/
     (en_in (rl_a r) = [] /\ en_in (rl_b r) = [] /\ en_fin (rl_a r) = None /\ en_fin (rl_b r) = None)).
Proof.
  intros Ha Hb Hn.
  assert (relay_ok (en_in a) (en_in b) r /\ (n + relay_cost r <= relay_cost (relay_start a b))%nat) as [Hok Hcost].
  { pose proof (relay_ok_start a b Ha Hb) as H0. induction Hn as [x|n x y z Hxy Hyz IH]; [split; [done|lia]|].
    destruct IH as [H1 H2]; [by eapply relay_ok_step|]. apply relay_step_cost in Hxy. split; [done|lia]. }
  split; [unfold relay_cost, relay_start in Hcost; simpl in Hcost; lia|].
  pose proof Hok as ((P1 & R1 & S1) & (P2 & R2 & S2) & HF). split_and!; try done.
  - intros Hres. unfold relay_result in Hres. destruct (rl_first r) as [e|] eqn:Ef; [|done].
    destruct e as [e|].
    + destruct (report (rl_ab r)), (report (rl_ba r)); try done.
      case_bool_decide; [|done]. subst. by left.
    + right. destruct (HF None eq_refl) as [HN|HN].
      * destruct (rl_ab r) as [| |x]; try done. injection HN as ->. destruct S1 as (s & f & -> & Ht).
        exists f. split; [done|]. right. apply last_snoc.
      * destruct (rl_ba r) as [| |x]; try done. injection HN as ->. destruct S2 as (s & f & -> & Ht).
        exists f. split; [done|]. left. apply last_snoc.
  - intros Hs. destruct (relay_stuck (en_in a) (en_in b) r) as [?|(_ & _ & ?)]; [done|done|by left|by right].
Qed.

(** ** Instances *)

Module Sample.
Definition encode (v : bool) : result string := Ok (if v then "true" else "false").
Definition decode (s : string) : result bool :=
  if bool_decide (s = "true") then Ok true else if bool_decide (s = "false") then Ok false
  else Err (Errorf "invalid JSON").

Lemma encode_plain (v : bool) (b : string) : encode v = Ok b -> plain b.
Proof. intros [= <-]. by destruct v. Qed.
Lemma encode_decode (v : bool) (b : string) : encode v = Ok b -> decode b = Ok v.
Proof. intros [= <-]. by destruct v. Qed.
Lemma encode_part (v : bool) (b : string) (k : nat) :
  encode v = Ok b -> (k < String.length b)%nat -> is_ok (decode (take_str k b)) = false.
Proof. intros [= <-] Hk. destruct v; simpl in Hk; do 5 (destruct k as [|k]; [done || lia|]); lia. Qed.

(** A connection that takes three bytes at a time. *)
Definition write (_ : nat) : nat * option error := (3%nat, None).

Definition request : Request :=
  mkRequest "status" "web" "" None None None "" "" false "" 0 "" "".
Definition encode_request (q : Request) : result string :=
  if bool_decide (q = request) then Ok "{}" else Err (Errorf "unsupported value").
Definition decode_request (s : string) : result Request :=
  if bool_decide (s = "{}") then Ok request else Err (Errorf "invalid JSON").
Definition decode_line (s : string) : result bool :=
  if bool_decide (s = "") then Err EOF else decode (TrimSuffix s (String newline "")).
Definition encode_error (t : string) : string := "(" +:+ t +:+ ")".
Definition decode_error (s : string) : option string :=
  if bool_decide (TrimSuffix s (String newline "") = "(not found)") then Some "not found" else None.
Definition call (_ : Request) : result bool := Err ErrNotFound.

Definition exit_frame : Frame := mkFrame "exit" "" "" (Some 0) 0 0 0 0.
Definition left : End := mkEnd [exit_frame] None [].
Definition right : End := mkEnd [] None [].
End Sample.

Lemma stream_roundtrip_witness :
  exists bytes rs, send_all Sample.encode Sample.write 0 [true; false] = (bytes, rs) /\
    recv_all Sample.decode 16 3 bytes = ([true; false], EOF).
Proof.
  destruct (stream_roundtrip Sample.encode Sample.decode Sample.encode_plain Sample.encode_decode Sample.encode_part
    16 Sample.write [true; false]) as (bytes & rs & H1 & _ & H2 & _).
  - lia.
  - intros t. split; [reflexivity|simpl; lia].
  - exists bytes, rs. split; [exact H1|exact H2].
Defined.

Lemma Recv_bounded_witness :
  exists r k c, Recv Sample.decode 16 "unterminated" = (r, drop_str k "unterminated", c) /\ Z.of_nat k <= MaxFrame + 16.
Proof.
  destruct (Recv_bounded Sample.decode 16 "unterminated") as (r & k & c & H1 & H2 & _).
  - lia.
  - exists r, k, c. split; [exact H1|exact H2].
Defined.

Lemma rpc_transparent_witness :
  client_call Sample.encode_request Sample.decode_line Sample.decode_error
    (fun method body => Ok (serve_call Sample.decode_request Sample.encode Sample.encode_error Sample.call method body))
    Sample.request true = Err (Errorf "not found").
Proof.
  refine (rpc_transparent Sample.encode_request Sample.decode_request Sample.encode Sample.decode_line Sample.encode_error
    Sample.decode_error Sample.call Sample.request "{}" true (fun v => v) (fun t => t) _ _ _ _ _).
  - unfold Sample.encode_request. rewrite bool_decide_eq_true_2 by reflexivity. reflexivity.
  - reflexivity.
  - intros v c H. discriminate H.
  - reflexivity.
  - intros e [= <-] k. do 12 (destruct k as [|k]; [reflexivity|]). rewrite take_str_all by (vm_compute; lia). reflexivity.
Defined.

Lemma relay_correct_witness :
  exists rest, [Sample.exit_frame] = [Sample.exit_frame] ++ rest.
Proof.
  destruct (relay_correct Sample.left Sample.right
    (mkRelay (mkEnd [] None []) (mkEnd [] None [Sample.exit_frame]) (Reported None) Reading None) 2)
    as (_ & H & _).
  - reflexivity.
  - reflexivity.
  - eapply nsteps_l.
    { apply relay_ab. apply copy_recv. reflexivity. }
    eapply nsteps_l; [|apply nsteps_O].
    refine (relay_ab _ _ _ _ _ (Reported None) _ _ _). apply (copy_send _ Sample.exit_frame _ [] None []). reflexivity.
  - exact H.
Defined.
