(* ===== verification/WireSession.v ===== *)
(** * WireSession: opening a session (internal/wire/wire.go, Client.Session and the
    handler of /v1/session)

    A session starts as an HTTP request that asks for an upgrade; the same
    connection then carries frames.  Both sides read the HTTP head through a
    buffered reader that may hold bytes of the first frames already, and go on
    reading from that reader.  A connection is the string of bytes it delivers. *)

From S2P Require Import Prelude GoLib Api Wire.
Import Strings Strconv.
Local Open Scope Z_scope.
Local Open Scope go_scope.

Definition crlf : string := String carriage (String newline "").

(** The head of the request of [Client.Session] and of the server's answer. *)
Definition session_request : string :=
  "POST /v1/session HTTP/1.1" +:+ crlf +:+ "Host: niflhel" +:+ crlf +:+ "Connection: Upgrade" +:+ crlf +:+
  "Upgrade: niflhel" +:+ crlf +:+ "Content-Length: 0" +:+ crlf +:+ crlf.
Definition session_accept : string :=
  "HTTP/1.1 101 Switching Protocols" +:+ crlf +:+ "Connection: Upgrade" +:+ crlf +:+ "Upgrade: niflhel" +:+ crlf +:+ crlf.
Definition session_refuse : string := "HTTP/1.1 400 Bad Request" +:+ crlf +:+ crlf +:+ "upgrade required".

(** ** Heads *)

(** The head of a message, up to the empty line, and the bytes after it. *)
Fixpoint split_header (s : string) : option (string * string) :=
  if HasPrefix s (crlf +:+ crlf) then Some ("", drop_str 4 s)
  else match s with
  | EmptyString => None
  | String c s => match split_header s with None => None | Some (h, rest) => Some (String c h, rest) end
  end.

Definition head_lines (h : string) : list string := (fun l => TrimSuffix l (String carriage "")) <$> Split h newline.
Definition first_line (h : string) : string := default "" (head (head_lines h)).
Definition method_of (h : string) : string := fst (fst (Cut (first_line h) " ")).
(** The value of a field; names are compared without case. *)
Definition field (name : string) (h : string) : string :=
  match filter (fun l => HasPrefix (ToLower l) (name +:+ ":") = true) (tail (head_lines h)) with
  | [] => ""
  | l :: _ => TrimSpace (drop_str (S (String.length name)) l)
  end.
Definition status_of (h : string) : result Z :=
  let '(_, rest, found) := Cut (first_line h) " " in
  guard found else Errorf "malformed HTTP response" in
  let code := fst (fst (Cut rest " ")) in
  guard (String.length code =? 3)%nat else Errorf "malformed HTTP status code" in
  Atoi code.

Section Session.
Context {V : Type} (encode : V -> result string) (decode : string -> result V).

(** [Client.Session]: what is sent, and what of the incoming bytes is left for the
    frames. *)
Definition Session (dial write_head : result unit) (incoming : string) (write : nat -> nat * option error) (q : V)
  : string * result string :=
  match dial, write_head with
  | Err e, _ | _, Err e => ("", Err e)
  | Ok _, Ok _ =>
      match split_header incoming with
      | None => (session_request, Err (Errorf "unexpected EOF"))
      | Some (h, rest) =>
          match status_of h with
          | Err e => (session_request, Err e)
          | Ok code =>
              if negb (code =? 101) then (session_request, Err (Errorf "session rejected"))
              else let '(w, r, _) := Send encode write 0 q in
                   (session_request +:+ w, let* _ := r in Ok rest)
          end
      end
  end.

(** The handler of [/v1/session] up to the call of the session: the answer, the
    request, and the bytes left for its frames. *)
Definition accept_session (n : nat) (hijack flush : result unit) (incoming : string) : string * option (V * string) :=
  match split_header incoming with
  | None => ("", None)
  | Some (h, rest) =>
      if negb (session_admitted (method_of h) (field "upgrade" h)) then (session_refuse, None)
      else match hijack with
      | Err _ => ("", None)
      | Ok _ =>
          match flush with
          | Err _ => ("", None)
          | Ok _ =>
              (session_accept,
               match Recv decode n rest with (Ok q, rest', _) => Some (q, rest') | (Err _, _, _) => None end)
          end
      end
  end.

(** ** Theorems *)

Lemma HasPrefix_longer (s t p : string) : (String.length p <= String.length s)%nat -> HasPrefix (s +:+ t) p = HasPrefix s p.
Proof.
  intros Hl. apply eq_true_iff_eq. rewrite !HasPrefix_spec. split; intros [u Hu].
  - exists (drop_str (String.length p) s). rewrite <- (take_drop_str (String.length p) s) at 1. f_equal.
    apply (f_equal (take_str (String.length p))) in Hu. rewrite take_app_str, take_str_app in Hu.
    replace (String.length p - String.length s)%nat with 0%nat in Hu by lia. cbn in Hu. by rewrite app_nil_r_str in Hu.
  - exists (u +:+ t). by rewrite Hu, app_assoc_str.
Qed.
Lemma split_header_length (s h rest : string) : split_header s = Some (h, rest) -> (4 <= String.length s)%nat.
Proof.
  revert h. induction s as [|c s IH]; intros h; cbn [split_header]; [done|]. destruct (HasPrefix _ _) eqn:E.
  - intros _. apply HasPrefix_spec in E as [t E]. rewrite E, length_app_str. change (String.length (crlf +:+ crlf)) with 4%nat. lia.
  - destruct (split_header s) as [[h' r']|]; [|done]. intros [= <- <-]. specialize (IH _ eq_refl). cbn. lia.
Qed.
(** What follows the head does not change it. *)
Lemma split_header_app (s h rest early : string) :
  split_header s = Some (h, rest) -> split_header (s +:+ early) = Some (h, rest +:+ early).
Proof.
  revert h. induction s as [|c s IH]; intros h Hs; [done|]. pose proof (split_header_length _ _ _ Hs) as Hl.
  rewrite app_cons_str. cbn [split_header] in *. rewrite <- app_cons_str, HasPrefix_longer by exact Hl.
  destruct (HasPrefix _ _).
  - injection Hs as <- <-. f_equal. f_equal. by rewrite drop_str_app, (proj2 (Nat.sub_0_le _ _) Hl).
  - destruct (split_header s) as [[h' r']|]; [|done]. injection Hs as <- <-. by rewrite (IH h' eq_refl).
Qed.

(** The head of a whole message. *)
Definition head_of (s : string) : string := match split_header s with Some (h, _) => h | None => "" end.
Lemma accept_head (early : string) :
  split_header (session_accept +:+ early) = Some (head_of session_accept, early) /\ status_of (head_of session_accept) = Ok 101.
Proof. split; [|by vm_compute]. by apply (split_header_app _ _ ""). Qed.
Lemma request_head (later : string) :
  split_header (session_request +:+ later) = Some (head_of session_request, later) /\
  session_admitted (method_of (head_of session_request)) (field "upgrade" (head_of session_request)) = true.
Proof. split; [|by vm_compute]. by apply (split_header_app _ _ ""). Qed.

Hypothesis encode_plain : forall v b, encode v = Ok b -> plain b.
Hypothesis encode_decode : forall v b, encode v = Ok b -> decode b = Ok v.

(** Opening a session loses nothing.  The server gets exactly the request of the
    client, and every byte that follows it; the client gets every byte the server
    sends after its answer, even when it arrives together with the answer.  A
    server that does not switch protocols gets nothing but the head, and the
    client reports an error. *)
Theorem session_opens (n : nat) (write : nat -> nat * option error) (q : V) (b : string) :
  (0 < n)%nat -> (forall t, snd (write t) = None /\ (0 < fst (write t))%nat) -> frame encode q = Some b ->
  let sent := session_request +:+ b +:+ String newline "" in
  (forall early, Session (Ok tt) (Ok tt) (session_accept +:+ early) write q = (sent, Ok early)) /\
  (forall later, accept_session n (Ok tt) (Ok tt) (sent +:+ later) = (session_accept, Some (q, later))) /\
  (forall incoming h rest, split_header incoming = Some (h, rest) -> status_of h <> Ok 101 ->
     exists e, Session (Ok tt) (Ok tt) incoming write q = (session_request, Err e)).
Proof.
  intros Hn Hw Hf sent. split_and!.
  - intros early. unfold Session. destruct (accept_head early) as [-> ->]. cbn [Z.eqb Pos.eqb negb].
    apply frame_inv in Hf as [He Hl]. unfold Send. rewrite He. destruct (MaxFrame <? len b) eqn:E; [bool_prop; lia|].
    destruct (write_loop_calm write (String.length (b +:+ String newline "")) 0 (b +:+ String newline "") Hw) as [t' Ht]; [lia|].
    by rewrite Ht.
  - intros later. unfold accept_session, sent. rewrite !app_assoc_str.
    destruct (request_head (b +:+ (String newline "" +:+ later))) as [-> ->]. cbn [negb].
    change (String newline "" +:+ later) with (String newline later).
    by rewrite (Recv_frame encode decode encode_plain encode_decode n q b later Hn Hf).
  - intros incoming h rest Hh Hs. unfold Session. rewrite Hh. destruct (status_of h) as [code|e]; [|by exists e].
    destruct (code =? 101) eqn:E; [|by eexists]. apply Z.eqb_eq in E as ->. done.
Qed.
End Session.

Lemma session_opens_witness :
  Session Wire.Sample.encode (Ok tt) (Ok tt) (session_accept +:+ "rest") Wire.Sample.write true =
    (session_request +:+ "true" +:+ String newline "", Ok "rest") /\
  accept_session Wire.Sample.decode 16 (Ok tt) (Ok tt) ((session_request +:+ "true" +:+ String newline "") +:+ "more") =
    (session_accept, Some (true, "more")).
Proof.
  destruct (session_opens Wire.Sample.encode Wire.Sample.decode Wire.Sample.encode_plain Wire.Sample.encode_decode
    16 Wire.Sample.write true "true") as (H1 & H2 & _).
  - lia.
  - intros t. split; [reflexivity|simpl; lia].
  - reflexivity.
  - split; [apply H1|apply H2].
Defined.
