(* ===== verification/RefStore.v ===== *)
(** * RefStore: records that share files

    The image cache (internal/oci/store.go) and the cache of bases
    (internal/base/base.go) list and remove entries the same way: a directory
    of JSON records, where a record names its reference, a digest, and the
    files it uses; removing an entry deletes every record with its digest and
    then the files no remaining record uses.  The loops are written once here,
    over the type of records, and instantiated by [OciStore] and [BaseStore]. *)

From S2P Require Import Prelude GoLib Fs.
Local Open Scope go_scope.

Section RefStore.
Context {R : Type} (K : Kernel) (dir : string) (unmarshal : string -> result R).
(** The reference and the digest of a record, the keys of the files it uses,
    and the file of a key. *)
Context (ref_of digest_of : R -> string) (keys_of : R -> list string) (locate : string -> result path).

(** One iteration of [List]; [out] also plays the part of [seen]. *)
Definition list_entry (out : list R) (name : string) : M (list R) :=
  v ← ReadJSON K unmarshal (dir, name);
  mret (if existsb (fun w => String.eqb (ref_of w) (ref_of v)) out then out else out ++ [v]).

(** [List] *)
Definition list_records : M (list R) :=
  entries ← try (ReadDir K dir);
  match entries with
  | Ok names => foldM list_entry [] names
  | Err e => if bool_decide (e = ErrNotExist) then mret [] else lift (Err e)
  end.

(** One iteration of the first loop of [Remove]: the state is [used]. *)
Definition remove_entry (v : R) (used : list string) (name : string) : M (list string) :=
  other ← ReadJSON K unmarshal (dir, name);
  if bool_decide (digest_of other = digest_of v)
  then Unlink K (dir, name) ;; mret used
  else mret (used ++ keys_of other).

(** One iteration of the second loop. *)
Definition remove_file (used : list string) (key : string) : M unit :=
  if bool_decide (key ∈ used) then mret tt else
  p ← lift (locate key);
  r ← try (Unlink K p);
  match r with
  | Ok _ => mret tt
  | Err e => if bool_decide (e = ErrNotExist) then mret tt else lift (Err e)
  end.

(** [Remove] after the entry [v] has been read. *)
Definition remove_record (v : R) : M unit :=
  entries ← ReadDir K dir;
  used ← foldM (remove_entry v) [] entries;
  mapM_ (remove_file used) (keys_of v).

(** Record [n] of [d] holds [v]. *)
Definition holds (d : disk) (n : string) (v : R) : Prop :=
  exists c, d !! (dir, n) = Some c /\ unmarshal c = Ok v.

Lemma holds_fun (d : disk) (n : string) (v w : R) : holds d n v -> holds d n w -> v = w.
Proof. intros (c & H1 & H2) (c' & H3 & H4). congruence. Qed.

Lemma triple_read_entry (d0 : disk) (n : string) :
  triple (fun d => d = d0) (ReadJSON K unmarshal (dir, n))
    (fun r d => d = d0 /\ forall v, r = Ok v -> holds d0 n v) (fun d => d = d0).
Proof. eapply triple_weaken; [apply triple_ReadJSON|done|done]. Qed.

(** ** Listing *)

Definition listed (d : disk) (done : list string) (out : list R) : Prop :=
  NoDup (ref_of <$> out) /\
  Forall (fun v => exists n, n ∈ done /\ holds d n v) out /\
  Forall (fun n => exists v, holds d n v /\ ref_of v ∈ ref_of <$> out) done.

Lemma listed_step (d : disk) (done : list string) (out : list R) (n : string) (v : R) :
  listed d done out -> holds d n v ->
  listed d (done ++ [n])
    (if existsb (fun w => String.eqb (ref_of w) (ref_of v)) out then out else out ++ [v]).
Proof.
  intros (H1 & H2 & H3) Hv.
  assert (Forall (fun w => exists m, m ∈ done ++ [n] /\ holds d m w) out) as H2'.
  { eapply Forall_impl; [exact H2|]. intros w (m & Hm & Hw). exists m. rewrite elem_of_app. auto. }
  destruct (existsb _ out) eqn:E.
  - split_and!; [done|done|]. apply Forall_app. split; [done|]. apply Forall_singleton. exists v. split; [done|].
    apply existsb_exists in E as (w & Hw & Heq%String.eqb_eq). rewrite <-Heq.
    by apply list_elem_of_fmap_2, list_elem_of_In.
  - assert (ref_of v ∉ ref_of <$> out) as Hn.
    { intros (w & Heq & Hw)%list_elem_of_fmap.
      assert (existsb (fun w => String.eqb (ref_of w) (ref_of v)) out = true) as Hx; [|congruence].
      apply existsb_exists. exists w. split; [by apply list_elem_of_In|]. rewrite Heq. apply String.eqb_refl. }
    split_and!.
    + rewrite fmap_app. simpl. apply NoDup_app. split_and!; [done| |apply NoDup_singleton].
      intros x Hx ->%list_elem_of_singleton. done.
    + apply Forall_app. split; [done|]. apply Forall_singleton. exists n.
      rewrite elem_of_app, list_elem_of_singleton. auto.
    + apply Forall_app. split.
      * eapply Forall_impl; [exact H3|]. intros m (w & Hw & Hin). exists w. rewrite fmap_app, elem_of_app. auto.
      * apply Forall_singleton. exists v. rewrite fmap_app, elem_of_app. split; [done|]. right. by left.
Qed.

Lemma list_records_spec (s s' : FS) (out : list R) :
  honest K ->
  list_records s = (Ret (Ok out), s') ->
  fs_files s' = fs_files s /\ NoDup (ref_of <$> out) /\
  Forall (fun v => exists n, holds (fs_files s) n v) out /\
  forall n c, fs_files s !! (dir, n) = Some c ->
    exists v, unmarshal c = Ok v /\ ref_of v ∈ ref_of <$> out.
Proof.
  intros Hh E. set (d0 := fs_files s).
  assert (triple (fun d => d = d0) list_records
    (fun r d => d = d0 /\ forall out, r = Ok out -> exists names,
       (forall n, n ∈ names <-> is_Some (d0 !! (dir, n))) /\ listed d0 names out) (fun d => d = d0)) as HT.
  { unfold list_records. apply (triple_bind _ _ _ (fun r d => match r with
      | Ok names => forall n, n ∈ names <-> is_Some (d0 !! (dir, n))
      | Err e => e <> ErrNotExist end /\ d = d0)).
    { apply triple_try, triple_call; [|intros t d e n He ->; split; [by eapply Hh|done]|done].
      intros _ d ->. split; [|done]. intros n. by rewrite merge_sort_Permutation, elem_of_names_in. }
    intros [names|e]; apply triple_pure; intros Hn.
    - eapply triple_conseq.
      + apply (triple_foldM_list (fun i out d => listed d0 (take i names) out /\ d = d0)
          list_entry [] names
          (fun r d => d = d0 /\ forall out, r = Ok out -> listed d0 names out) (fun d => d = d0)).
        * intros i acc n Hi. apply triple_pure. intros Hl. unfold list_entry.
          apply (triple_bind _ _ _ (fun v d => holds d0 n v /\ d = d0)).
          { eapply triple_weaken; [apply triple_read_entry| |done].
            intros [v|e] d [-> H]; [|done]. split; [by apply H|done]. }
          intros v. apply triple_pure. intros Hv s1 Hs1. simpl. split; [|done].
          rewrite (take_S_r _ _ _ Hi). by apply listed_step.
        * intros acc d [Hl ->]. rewrite firstn_all in Hl. split; [done|]. by intros out' [= <-].
      + intros d ->. split; [|done]. split_and!; simpl; constructor.
      + intros r d [-> H]. split; [done|]. eauto.
      + done.
    - rewrite bool_decide_eq_false_2 by done. intros s1 Hs1. by split. }
  specialize (HT s eq_refl). rewrite E in HT. destruct HT as [-> HT].
  destruct (HT out eq_refl) as (names & Hn & L1 & L2 & L3). split_and!; [done|done| |].
  - eapply Forall_impl; [exact L2|]. intros v (n & _ & Hv). eauto.
  - intros n c Hc. rewrite Forall_forall in L3. destruct (L3 n) as (v & (c' & Hc' & Hu) & Hv); [apply Hn; by exists c|].
    exists v. split; [|done]. unfold d0 in *. congruence.
Qed.

(** ** Removing *)

(** What the first loop leaves: records with another digest stay, nothing else
    is touched, and [used] names only files of records that stay. *)
Record scan_kept (D : string) (d0 : disk) (used : list string) (d : disk) : Prop := {
  sk_sub : d ⊆ d0;
  sk_other : forall q, fst q <> dir -> d !! q = d0 !! q;
  sk_record : forall n v, holds d0 n v -> digest_of v <> D -> holds d n v;
  sk_used : forall x, x ∈ used -> exists n v, holds d0 n v /\ digest_of v <> D /\ x ∈ keys_of v
}.

(** What it has done for the entries so far. *)
Definition scanned (D : string) (d0 : disk) (used done : list string) (d : disk) : Prop :=
  forall n v, n ∈ done -> holds d0 n v ->
    (digest_of v = D -> d !! (dir, n) = None) /\
    (digest_of v <> D -> forall k, k ∈ keys_of v -> k ∈ used).

Lemma scan_drop (D : string) (d0 : disk) (used done : list string) (d : disk) (n : string) (v : R) :
  holds d0 n v -> digest_of v = D -> scan_kept D d0 used d -> scanned D d0 used done d ->
  scan_kept D d0 used (delete (dir, n) d) /\ scanned D d0 used (done ++ [n]) (delete (dir, n) d).
Proof.
  intros Hv HD [H1 H2 H3 H4] Hs. split; [constructor|].
  - etrans; [apply delete_subseteq|done].
  - intros q Hq. rewrite lookup_delete_ne; [auto|]. by intros <-.
  - intros m w Hw Hne. destruct (H3 m w Hw Hne) as (c & Hc & Hu). exists c. split; [|done].
    rewrite lookup_delete_ne; [done|]. intros [= ->]. rewrite (holds_fun _ _ _ _ Hv Hw) in HD. done.
  - done.
  - intros m w Hm Hw. apply elem_of_app in Hm as [Hm|Hm%list_elem_of_singleton].
    + destruct (Hs m w Hm Hw) as [Ha Hb]. split; [|done]. intros HD'. apply lookup_delete_None. auto.
    + subst m. rewrite (holds_fun _ _ _ _ Hw Hv). split; [|done]. intros _. apply lookup_delete_None. auto.
Qed.

Lemma scan_use (D : string) (d0 : disk) (used done : list string) (d : disk) (n : string) (v : R) :
  holds d0 n v -> digest_of v <> D -> scan_kept D d0 used d -> scanned D d0 used done d ->
  scan_kept D d0 (used ++ keys_of v) d /\ scanned D d0 (used ++ keys_of v) (done ++ [n]) d.
Proof.
  intros Hv HD [H1 H2 H3 H4] Hs. split; [constructor; try done|].
  - intros x [Hx|Hx]%elem_of_app; [auto|]. by exists n, v.
  - intros m w Hm Hw. apply elem_of_app in Hm as [Hm|Hm%list_elem_of_singleton].
    + destruct (Hs m w Hm Hw) as [Ha Hb]. split; [done|]. intros Hne l Hl. apply elem_of_app. auto.
    + subst m. rewrite (holds_fun _ _ _ _ Hw Hv). split; [done|]. intros _ l Hl. apply elem_of_app. auto.
Qed.

Lemma triple_remove_entry (v0 : R) (d0 : disk) (used done : list string) (n : string) :
  triple (fun d => scan_kept (digest_of v0) d0 used d /\ scanned (digest_of v0) d0 used done d)
    (remove_entry v0 used n)
    (fun r d => match r with
                | Ok used' => scan_kept (digest_of v0) d0 used' d /\ scanned (digest_of v0) d0 used' (done ++ [n]) d
                | Err _ => exists used, scan_kept (digest_of v0) d0 used d
                end)
    (fun d => exists used, scan_kept (digest_of v0) d0 used d).
Proof.
  apply triple_from. intros d1 [HK HS]. unfold remove_entry.
  apply (triple_bind _ _ _ (fun v d => holds d1 n v /\ d = d1)).
  { eapply triple_weaken; [apply triple_read_entry| |intros d ->; eauto].
    intros [v|e] d [-> H]; [split; [by apply H|done]|eauto]. }
  intros v. apply triple_pure. intros (c & Hc & Hu).
  assert (holds d0 n v) as Hv.
  { exists c. split; [|done]. eapply lookup_weaken; [exact Hc|apply HK]. }
  case_bool_decide as HD.
  - apply (triple_bind _ _ _ (fun _ d => d = delete (dir, n) d1)).
    { eapply triple_weaken; [apply triple_Unlink| |intros d ->; eauto].
      intros [[]|e] d; [done|]. intros [-> _]. eauto. }
    intros _ s Hs. simpl. rewrite Hs. by apply (scan_drop _ _ _ _ _ n v).
  - intros s Hs. simpl. rewrite Hs. by apply scan_use.
Qed.

(** The second loop removes files that are not in use. *)
Record sweep_kept (v : R) (used : list string) (d1 d : disk) : Prop := {
  sw_sub : d ⊆ d1;
  sw_only : forall q, d !! q = d1 !! q \/ exists k, k ∈ keys_of v /\ k ∉ used /\ locate k = Ok q
}.

Definition swept (used done : list string) (d : disk) : Prop :=
  forall k p, k ∈ done -> locate k = Ok p -> k ∉ used -> d !! p = None.

Lemma triple_remove_file (v : R) (used : list string) (d1 : disk) (done : list string) (k : string) :
  honest K -> k ∈ keys_of v ->
  triple (fun d => sweep_kept v used d1 d /\ swept used done d)
    (remove_file used k)
    (fun r d => sweep_kept v used d1 d /\ (r = Ok tt -> swept used (done ++ [k]) d))
    (sweep_kept v used d1).
Proof.
  intros Hh Hk. apply triple_from. intros d2 [HK HS]. unfold remove_file.
  assert (forall d, d ⊆ d2 -> (forall p, locate k = Ok p -> k ∉ used -> d !! p = None) ->
    swept used (done ++ [k]) d) as Hstep.
  { intros d Hsub Hd m p [Hm|Hm%list_elem_of_singleton]%elem_of_app Hmp Hu; [|subst; auto].
    eapply lookup_weaken_None; [|exact Hsub]. eauto. }
  case_bool_decide as Hu.
  { intros s Hs. simpl. rewrite Hs. split; [done|]. intros _. apply Hstep; done. }
  apply triple_lift_seq; [by intros e d _ ->|intros p Hp].
  assert (sweep_kept v used d1 (delete p d2)) as HK'.
  { destruct HK as [H1 H2]. constructor; [etrans; [apply delete_subseteq|done]|].
    intros q. destruct (decide (q = p)) as [->|Hne]; [right; eauto|]. by rewrite lookup_delete_ne. }
  apply (triple_bind _ _ _ (fun r d => match r with
    | Ok _ => d = delete p d2
    | Err e => d = d2 /\ (e = ErrNotExist -> d2 !! p = None) end)).
  { apply triple_try. eapply triple_weaken; [apply triple_Unlink| |intros d ->; done].
    intros [[]|e] d; [done|]. intros [-> H]. auto. }
  intros [[]|e].
  - intros s Hs. simpl. rewrite Hs. split; [done|]. intros _. apply Hstep; [apply delete_subseteq|].
    intros p' Hp' _. assert (p' = p) as -> by congruence. apply lookup_delete_eq.
  - intros s [Hs He]. case_bool_decide; simpl; rewrite Hs; split; try done. intros _.
    apply Hstep; [done|]. intros p' Hp' _. assert (p' = p) as -> by congruence. auto.
Qed.

(** Every record with another digest stays, with its files. *)
Definition others_kept (D : string) (d0 d : disk) : Prop :=
  d ⊆ d0 /\
  forall n v, holds d0 n v -> digest_of v <> D ->
    holds d n v /\ forall k p, k ∈ keys_of v -> locate k = Ok p -> d !! p = d0 !! p.

(** No record with the digest of [v] is left, and its files are gone unless a
    record uses them. *)
Definition all_gone (v : R) (d : disk) : Prop :=
  (forall n w, holds d n w -> digest_of w <> digest_of v) /\
  (forall k p, k ∈ keys_of v -> locate k = Ok p ->
     d !! p = None \/ exists n w, holds d n w /\ k ∈ keys_of w).

(** Different keys name different files. *)
Hypothesis locate_inj : forall k k' p, locate k = Ok p -> locate k' = Ok p -> k = k'.

(** No record is a file some record uses. *)
Definition separate (d : disk) : Prop :=
  forall n v k p, holds d n v -> k ∈ keys_of v -> locate k = Ok p -> fst p <> dir.

Lemma scan_others (D : string) (d0 d : disk) (used : list string) :
  separate d0 -> scan_kept D d0 used d -> others_kept D d0 d.
Proof.
  intros Hsep [H1 H2 H3 _]. split; [done|]. intros n v Hv HD. split; [auto|]. intros k p Hk Hp. eauto.
Qed.

Lemma sweep_others (v0 : R) (n0 : string) (d0 d1 d : disk) (used names : list string) :
  separate d0 -> holds d0 n0 v0 -> (forall n, n ∈ names <-> is_Some (d0 !! (dir, n))) ->
  scan_kept (digest_of v0) d0 used d1 -> scanned (digest_of v0) d0 used names d1 ->
  sweep_kept v0 used d1 d ->
  others_kept (digest_of v0) d0 d /\ (swept used (keys_of v0) d -> all_gone v0 d).
Proof.
  intros Hsep Hv0 Hn [K1 K2 K3 K4] Hs [S1 S2].
  assert (forall n v, holds d n v <-> holds d1 n v) as Hh.
  { intros n v. unfold holds. destruct (S2 (dir, n)) as [->|(k & Hin & _ & Hk)]; [done|].
    by destruct (Hsep n0 v0 k _ Hv0 Hin Hk). }
  assert (forall n v, holds d1 n v -> holds d0 n v) as Hh0.
  { intros n v (c & Hc & Hu). exists c. split; [|done]. by eapply lookup_weaken. }
  assert (forall n v, holds d0 n v -> n ∈ names) as Hin.
  { intros n v (c & Hc & _). apply Hn. by exists c. }
  split; [split; [by etrans|]|].
  - intros n v Hv HD. split; [apply Hh; auto|]. intros k p Hk Hp. rewrite <-(K2 p) by eauto.
    destruct (S2 p) as [E|(k' & _ & Hu & Hk')]; [done|]. destruct Hu.
    rewrite (locate_inj _ _ _ Hk' Hp). apply (Hs n v); eauto.
  - intros HW. split.
    + intros n v Hv%Hh HD. destruct Hv as (c & Hc & Hu).
      destruct (Hs n v) as [Ha _]; [by eapply Hin, Hh0; exists c|by apply Hh0; exists c|].
      rewrite Ha in Hc; done.
    + intros k p Hk Hp. destruct (decide (k ∈ used)) as [Hu|Hu]; [|left; by apply (HW k)].
      right. destruct (K4 _ Hu) as (n & v & Hv & HD & Hx). exists n, v. split; [|done]. apply Hh. auto.
Qed.

Lemma triple_remove_record (d0 : disk) (v : R) (n0 : string) :
  honest K -> separate d0 -> holds d0 n0 v ->
  triple (fun d => d = d0) (remove_record v)
    (fun r d => others_kept (digest_of v) d0 d /\ (r = Ok tt -> all_gone v d))
    (others_kept (digest_of v) d0).
Proof.
  intros Hh Hsep Hv0. unfold remove_record.
  assert (others_kept (digest_of v) d0 d0) as H0 by (split; auto).
  apply (triple_bind _ _ _ (fun names d => (forall n, n ∈ names <-> is_Some (d0 !! (dir, n))) /\ d = d0)).
  { eapply triple_weaken; [apply triple_ReadDir| |intros d ->; done].
    intros [names|e] d [-> H]; [split; [by apply H|done]|by split]. }
  intros names. apply triple_pure. intros Hn.
  apply (triple_bind _ _ _ (fun used d => scan_kept (digest_of v) d0 used d /\
    scanned (digest_of v) d0 used names d)).
  { eapply triple_conseq.
    - apply (triple_foldM_list (fun i used d => scan_kept (digest_of v) d0 used d /\
        scanned (digest_of v) d0 used (take i names) d)
        (remove_entry v) [] names
        (fun r d => match r with
          | Ok used => scan_kept (digest_of v) d0 used d /\ scanned (digest_of v) d0 used names d
          | Err _ => exists used, scan_kept (digest_of v) d0 used d end)
        (fun d => exists used, scan_kept (digest_of v) d0 used d)).
      + intros i used n Hi. rewrite (take_S_r _ _ _ Hi). apply triple_remove_entry.
      + intros used d. by rewrite firstn_all.
    - intros d ->. split; [|intros n w Hx; by apply not_elem_of_nil in Hx].
      constructor; try done. intros x Hx. by apply not_elem_of_nil in Hx.
    - intros [used|e] d; [done|]. intros [used H]. split; [by eapply scan_others|done].
    - intros d [used H]. by eapply scan_others. }
  intros used. apply triple_from. intros d1 [HK HS].
  assert (forall d, sweep_kept v used d1 d -> others_kept (digest_of v) d0 d) as HO.
  { intros d H. by eapply sweep_others. }
  eapply triple_conseq.
  - apply (triple_mapM_ (fun i d => sweep_kept v used d1 d /\ swept used (take i (keys_of v)) d)
      (remove_file used) (keys_of v)
      (fun r d => sweep_kept v used d1 d /\ (r = Ok tt -> swept used (keys_of v) d))
      (sweep_kept v used d1)).
    + intros i k Hi. eapply triple_weaken; [apply triple_remove_file; [done|by eapply list_elem_of_lookup_2]| |done].
      intros [[]|e] d [H1 H2]; [|done]. split; [done|]. rewrite (take_S_r _ _ _ Hi). by apply H2.
    + intros d. rewrite firstn_all. intros [? ?]. by split.
  - intros d ->. split; [constructor; [done|auto]|]. intros k p Hk. by apply not_elem_of_nil in Hk.
  - intros r d [H1 H2]. split; [auto|]. intros Hr. eapply sweep_others; eauto.
  - exact HO.
Qed.
End RefStore.
