(* ===== verification/Oci.v ===== *)
(** * Oci: application image records (internal/oci/store.go)

    Descriptors and cached images, with the size limits of the store. *)

From S2P Require Import Prelude GoLib Api Fsutil.
Import Strings.
Local Open Scope Z_scope.
Local Open Scope go_scope.

Definition MaxBlob : Z := 8589934592.      (* 8 << 30 *)
Definition MaxImage : Z := 17179869184.    (* 16 << 30 *)
Definition MaxMetadata : Z := 4194304.     (* 4 << 20 *)

Record Descriptor : Type := mkDescriptor {
  d_Digest : string;
  d_Size : Z;
  d_MediaType : string
}.

Record Image : Type := mkImage {
  i_Ref : string;
  i_Digest : string;
  i_Config : ImageConfig;
  i_Layers : list Descriptor;
  i_DiffIDs : list string;
  i_Manifest : string
}.

#[export] Instance Descriptor_eq_dec : EqDecision Descriptor.
Proof. solve_decision. Defined.

(** The byte count of the layers: [size += layer.Size] over an [int64]. *)
Definition layers_size (ls : list Descriptor) : Z :=
  fold_left (fun n d => int64 (n + d_Size d)) ls 0.

(** The size checks of [importImage] on the layers of an image, in order; the
    state is [total]. *)
Definition admit_layer (total : Z) (size : Z) : result Z :=
  if (size <? 0) || (MaxBlob <? size) || (int64 (MaxImage - size) <? total)
  then Err (Errorf "image download size limit exceeded")
  else Ok (int64 (total + size)).

(** The layers of an imported image are each at most [MaxBlob] bytes and
    together at most [MaxImage] bytes; the running total never wraps around. *)
Theorem admit_layers_bounded (sizes : list Z) (total : Z) :
  fold_ok admit_layer 0 sizes = Ok total ->
  Forall (fun s => 0 <= s <= MaxBlob) sizes /\ total = foldr Z.add 0 sizes /\ total <= MaxImage.
Proof.
  assert (forall l t0, 0 <= t0 <= MaxImage -> fold_ok admit_layer t0 l = Ok total ->
    Forall (fun s => 0 <= s <= MaxBlob) l /\ total = t0 + foldr Z.add 0 l /\ total <= MaxImage) as Hg.
  { intros l. induction l as [|s l IH]; intros t0 Ht H; simpl in *.
    { injection H as <-. split_and!; [constructor|lia|lia]. }
    destruct (admit_layer t0 s) as [t1|] eqn:E; [|done]. unfold admit_layer in E. ok_inv.
    bool_prop. unfold MaxBlob, MaxImage in *.
    rewrite (int64_id (17179869184 - s)) in * by (unfold in_int64, two63, max_int64; lia).
    rewrite int64_id in H by (unfold in_int64, two63, max_int64; lia).
    destruct (IH (t0 + s)) as (Hf & -> & Hb); [lia|done|].
    split_and!; [constructor; [lia|done]|lia|lia]. }
  intros H. apply (Hg sizes 0); [unfold MaxImage; lia|done].
Qed.

Lemma admit_layers_bounded_witness :
  Forall (fun s => 0 <= s <= MaxBlob) [1000; 2000] /\ 3000 = foldr Z.add 0 [1000; 2000] /\
  3000 <= MaxImage.
Proof. apply (admit_layers_bounded [1000; 2000] 3000). vm_compute. reflexivity. Defined.
