(* ===== verification/OciStore.v ===== *)
(** * OciStore: the image cache (internal/oci/store.go)

    Application images are cached as layer blobs named by their digest and as
    JSON records of images, named by the digest of the reference they were
    pulled by and by the image digest.  The store runs over the files of [Fs],
    so that every call may fail and the process may die at any point.  Paths
    are relative to the root of the store.  The registry client is a record of
    its answers ([RemoteImage]); SHA-256 and the JSON codecs are parameters. *)

From S2P Require Import Prelude GoLib Api Fsutil Oci Fs RefStore.
From stdpp Require Import pretty.
Import Strings.
Local Open Scope Z_scope.
Local Open Scope go_scope.

Definition blobs_dir : string := "blobs/sha256".
Definition refs_dir : string := "refs".

(** ** What the registry client returns *)

Record RemoteLayer : Type := mkRemoteLayer {
  rl_Digest : result string;
  rl_Size : result Z;
  rl_MediaType : result string;
  rl_Compressed : result Stream
}.

Record RemoteImage : Type := mkRemoteImage {
  ri_RawManifest : result string;
  ri_RawConfigFile : result string;
  ri_Digest : result string;
  ri_Layers : result (list RemoteLayer)
}.

(** The part of [v1.Manifest] and [v1.ConfigFile] the store reads. *)
Record Manifest : Type := mkManifest { mf_ConfigSize : Z; mf_ConfigDigest : string }.
Record ConfigFile : Type := mkConfigFile {
  cf_OS : string;
  cf_Architecture : string;
  cf_Config : ImageConfig;      (* [Volumes] in the order the map is ranged over *)
  cf_DiffIDs : list string
}.

Definition maxMetadataTokens : Z := 100000.
Definition maxMetadataDepth : Z := 100.

Section Store.
Variable K : Kernel.
(** The hexadecimal SHA-256 of a byte string. *)
Variable sha256_hex : string -> string.
(** [encoding/json] on the records of the store and on registry metadata, and
    the tokens [json.Decoder] yields. *)
Variable marshal : Image -> string.
Variable unmarshal : string -> result Image.
Variable tokens : string -> list (result token).
Variable unmarshal_manifest : string -> result Manifest.
Variable unmarshal_config : string -> result ConfigFile.

(** [fsutil.Digest] *)
Definition Digest (b : string) : string := "sha256:" +:+ sha256_hex b.

(** [Store.Blob] *)
Definition Blob (d : string) : result path :=
  let* h := HexDigest d in Ok (blobs_dir, h).

(** [Store.record] *)
Definition record (ref : string) : path := (refs_dir, drop_str 7 (Digest ref) +:+ ".json").

Definition check_blob (d : Descriptor) : M unit :=
  p ← lift (Blob (d_Digest d));
  r ← try (DigestFile K Digest p);
  match r with
  | Ok (actual, n) =>
      if bool_decide (actual <> d_Digest d) || negb (n =? d_Size d)
      then lift (Err (Errorf "cached blob is missing or corrupt")) else mret tt
  | Err _ => lift (Err (Errorf "cached blob is missing or corrupt"))
  end.

(** [Store.Get] *)
Definition Get (ref : string) : M Image :=
  v ← ReadJSON K unmarshal (record ref);
  mapM_ check_blob (i_Layers v) ;;
  mret v.

(** [decodeMetadata] *)
Definition decodeMetadata {A} (unmarshal : string -> result A) (raw : string) : result A :=
  guard negb (MaxMetadata <? Z.of_nat (String.length raw))
    else Errorf "OCI metadata size limit exceeded" in
  match ValidateJSONComplexity maxMetadataTokens maxMetadataDepth MaxMetadata (tokens raw) with
  | Err e => Err (Wrap "invalid OCI metadata" e)
  | Ok _ =>
      match unmarshal raw with
      | Err e => Err (Wrap "invalid OCI metadata" e)
      | Ok v => Ok v
      end
  end.

(** [WriteVerified] *)
Definition WriteVerified (p : path) (r : Stream) (d : Descriptor) : M unit :=
  lift (HexDigest (d_Digest d)) ;;
  if (d_Size d <? 0) || (MaxBlob <? d_Size d) then lift (Err (Errorf "blob too large")) else
  nop K ;;
  tmp ← CreateTemp K (fst p) ".download-";
  defer (Unlink K tmp)
    (r ← try (n ← Copy K tmp r (int64 (d_Size d + 1)); nop K ;; mret n);
     ce ← try (nop K);
     n ← lift r;
     lift ce ;;
     h ← DigestFile K Digest tmp;
     if negb (n =? d_Size d) || bool_decide (fst h <> d_Digest d)
     then lift (Err (Errorf "blob digest/size mismatch"))
     else Rename K tmp p).

(** The metadata part of [importImage]: everything it establishes before the
    first layer. *)
Definition admit_metadata (ref : string) (img : RemoteImage) : result (Image * ConfigFile) :=
  let* raw := ri_RawManifest img in
  guard negb (MaxMetadata <? Z.of_nat (String.length raw)) else Errorf "invalid image manifest" in
  let* manifest := decodeMetadata unmarshal_manifest raw in
  guard negb ((mf_ConfigSize manifest <? 0) || (MaxMetadata <? mf_ConfigSize manifest))
    else Errorf "image config descriptor size limit exceeded" in
  let* _ := HexDigest (mf_ConfigDigest manifest) in
  let* configRaw := ri_RawConfigFile img in
  guard (Z.of_nat (String.length configRaw) =? mf_ConfigSize manifest) &&
        bool_decide (Digest configRaw = mf_ConfigDigest manifest)
    else Errorf "image config descriptor integrity failure" in
  let* cfg := decodeMetadata unmarshal_config configRaw in
  guard bool_decide (cf_OS cfg = "linux") && bool_decide (cf_Architecture cfg = "amd64")
    else Errorf "unsupported image platform" in
  let* digest := ri_Digest img in
  guard bool_decide (Digest raw = digest) else Errorf "invalid image manifest" in
  Ok (mkImage ref digest (cf_Config cfg) [] [] raw, cfg).

(** One iteration of the layer loop; the local state is [total] and [out]. *)
Definition import_layer (ctx_err : nat -> option error) (diffs : list string)
    (st : Z * Image) (x : nat * RemoteLayer) : M (Z * Image) :=
  let '(total, out) := st in
  let '(i, l) := x in
  lift (match ctx_err i with Some e => Err e | None => Ok tt end) ;;
  d ← lift (rl_Digest l);
  size ← lift (rl_Size l);
  total ← lift (admit_layer total size);
  mt ← lift (rl_MediaType l);
  let desc := mkDescriptor d size mt in
  p ← lift (Blob d);
  existing ← try (DigestFile K Digest p);
  (if match existing with
      | Ok (h, n) => bool_decide (h = d) && (n =? size)
      | Err _ => false
      end
   then mret tt
   else r ← lift (rl_Compressed l); WriteVerified p r desc) ;;
  (* the length check before the loop keeps the index in range *)
  diff ← lift (match diffs !! i with Some x => Ok x | None => Err (Errorf "index out of range") end);
  mret (total, mkImage (i_Ref out) (i_Digest out) (i_Config out) (i_Layers out ++ [desc])
                       (i_DiffIDs out ++ [diff]) (i_Manifest out)).

(** [Store.importImage] *)
Definition importImage (ctx_err : nat -> option error) (ref : string) (img : RemoteImage) : M Image :=
  m ← lift (admit_metadata ref img);
  let '(out, cfg) := m in
  layers ← lift (ri_Layers img);
  if (256 <? Z.of_nat (length layers)) || negb (length layers =? length (cf_DiffIDs cfg))%nat
  then lift (Err (Errorf "invalid layer count")) else
  r ← foldM (import_layer ctx_err (cf_DiffIDs cfg)) (0, out) (imap pair layers);
  let out := snd r in
  JSON K (fun i => Ok (marshal i)) (record (i_Digest out)) out ;;
  JSON K (fun i => Ok (marshal i)) (record ref) out ;;
  mret out.

(** [Store.Pull]: [parse] is [name.ParseReference], [remote] the registry's
    answer for the reference. *)
Definition Pull (ctx_err : nat -> option error) (parse : string -> result unit)
    (remote : string -> result RemoteImage) (ref policy : string) : M Image :=
  let fetch :=
    lift (parse ref) ;;
    img ← lift (remote ref);
    importImage ctx_err ref img in
  if bool_decide (policy = "always") then fetch
  else
    r ← try (Get ref);
    match r with
    | Ok v => mret v
    | Err e =>
        if bool_decide (policy = "never")
        then lift (Err (Wrap "offline image unavailable" e)) else fetch
    end.

(** [Store.Import] *)
Definition Import (ctx_err : nat -> option error) (ref : string) (img : RemoteImage) : M Image :=
  importImage ctx_err ref img.

(** [Store.List] *)
Definition List : M (list Image) := list_records K refs_dir unmarshal i_Ref.

(** The layers of an image, as keys of [used]. *)
Definition layer_keys (v : Image) : list string := d_Digest <$> i_Layers v.

(** [Store.Remove] *)
Definition Remove (ref : string) : M unit :=
  image ← Get ref;
  remove_record K refs_dir unmarshal i_Digest layer_keys Blob image.

(** [Store.Carrier]: the directory [dir] is outside the store. *)
Definition link_layer (dir : string) (d : Descriptor) : M unit :=
  p ← lift (Blob (d_Digest d));
  Link K p (dir +:+ "/blobs", drop_str 7 (d_Digest d)).

Definition Carrier (dir : string) (img : Image) : M unit :=
  nop K ;;
  JSON K (fun i => Ok (marshal i)) (dir, "image.json") img ;;
  mapM_ (link_layer dir) (i_Layers img).
End Store.

(** ** Theorems *)

Lemma hex_name_first (h p : string) :
  forallb hex_any (String.list_ascii_of_string h) = true -> (0 < String.length h)%nat ->
  HasPrefix p "." = true -> HasPrefix h p = false.
Proof.
  intros Hh Hl Hp. destruct (HasPrefix h p) eqn:E; [|done].
  apply HasPrefix_spec in Hp as [t ->]. apply HasPrefix_spec in E as [u ->]. done.
Qed.

Lemma drop_sha (h : string) : drop_str 7 ("sha256:" +:+ h) = h.
Proof. done. Qed.

Lemma HexDigest_ok (s h : string) :
  HexDigest s = Ok h ->
  s = "sha256:" +:+ h /\ String.length h = 64%nat /\
  forallb hex_any (String.list_ascii_of_string h) = true.
Proof.
  unfold HexDigest. intros H. ok_inv. bool_prop.
  match goal with H : HasPrefix _ _ = true |- _ => apply HasPrefix_spec in H as [t ->] end.
  rewrite drop_sha in *. subst. split_and!; [done| |done].
  apply Nat.eqb_eq in H. rewrite length_app_str in H. change (7 + String.length t = 71)%nat in H.
  change (String.length t = 64)%nat. lia.
Qed.

Section StoreProofs.
Context (K : Kernel) (sha256_hex : string -> string).
Hypothesis sha_length : forall b, String.length (sha256_hex b) = 64%nat.
Hypothesis sha_digits : forall b, forallb hex_any (String.list_ascii_of_string (sha256_hex b)) = true.
(** Encoding a record and decoding it gives the record back, with its raw
    manifest compacted. *)
Context (marshal : Image -> string) (unmarshal : string -> result Image) (compact : string -> string).
Definition stored (i : Image) : Image :=
  mkImage (i_Ref i) (i_Digest i) (i_Config i) (i_Layers i) (i_DiffIDs i) (compact (i_Manifest i)).
Hypothesis unmarshal_marshal : forall i, unmarshal (marshal i) = Ok (stored i).

#[local] Notation dig := (Digest sha256_hex).
#[local] Notation rec := (record sha256_hex).

(** A blob file has the digest and the size of a descriptor. *)
Definition blob_valid (d : disk) (l : Descriptor) : Prop :=
  exists h c, HexDigest (d_Digest l) = Ok h /\ d !! (blobs_dir, h) = Some c /\
    dig c = d_Digest l /\ Z.of_nat (String.length c) = d_Size l.

(** [ref] is cached as [img]: its record decodes to [img] and every layer is
    there, unaltered. *)
Definition readable (d : disk) (ref : string) (img : Image) : Prop :=
  exists c, d !! rec ref = Some c /\ unmarshal c = Ok img /\ Forall (blob_valid d) (i_Layers img).

Lemma record_name (ref : string) : rec ref = (refs_dir, sha256_hex ref +:+ ".json").
Proof. unfold record, Digest. by rewrite drop_sha. Qed.

Lemma record_plain (ref p : string) : HasPrefix p "." = true -> HasPrefix (snd (rec ref)) p = false.
Proof.
  intros Hp. rewrite record_name. simpl. destruct (HasPrefix _ p) eqn:E; [|done].
  apply HasPrefix_spec in Hp as [t ->]. apply HasPrefix_spec in E as [u E].
  pose proof (sha_length ref) as Hl. pose proof (sha_digits ref) as Hd.
  destruct (sha256_hex ref) as [|a r]; [done|]. simpl in E. injection E as -> _. done.
Qed.

Lemma HexDigest_Digest (c h : string) : dig c = "sha256:" +:+ h -> HexDigest (dig c) = Ok h.
Proof.
  intros H. assert (h = sha256_hex c) as ->.
  { unfold Digest in H. by apply (inj _) in H. }
  unfold HexDigest, Digest. rewrite length_app_str, sha_length, HasPrefix_app, drop_sha, sha_digits.
  done.
Qed.

Lemma digest_not_temp (c h p : string) :
  HasPrefix p "." = true -> HasPrefix h p = true -> dig c <> "sha256:" +:+ h.
Proof.
  intros Hp Hh H. apply HexDigest_Digest in H. apply HexDigest_ok in H as (_ & Hl & Hd).
  rewrite (hex_name_first h p) in Hh; [done|done|lia|done].
Qed.

(** ** Reading *)

Lemma triple_DigestFile (d0 : disk) (p : path) :
  triple (fun d => d = d0) (DigestFile K dig p)
    (fun r d => d = d0 /\ forall h n, r = Ok (h, n) ->
       exists c, d0 !! p = Some c /\ h = dig c /\ n = Z.of_nat (String.length c)) (fun d => d = d0).
Proof.
  unfold DigestFile. apply (triple_bind _ _ _ (fun c d => d0 !! p = Some c /\ d = d0)).
  - eapply triple_weaken; [apply triple_ReadData| |done]. intros [c|e] d [-> H]; [auto|done].
  - intros c. apply triple_pure. intros Hc. intros s Hs. simpl. rewrite Hs. split; [done|]. intros h n [= <- <-]. eauto.
Qed.

Lemma triple_check_blob (d0 : disk) (l : Descriptor) :
  triple (fun d => d = d0) (check_blob K sha256_hex l)
    (fun r d => d = d0 /\ (r = Ok tt -> blob_valid d0 l)) (fun d => d = d0).
Proof.
  unfold check_blob. apply triple_lift_seq; [done|intros p Hp].
  unfold Blob in Hp. ok_inv.
  apply (triple_bind _ _ _ (fun r d => (forall h n, r = Ok (h, n) ->
    exists c, d0 !! (blobs_dir, a) = Some c /\ h = dig c /\ n = Z.of_nat (String.length c)) /\ d = d0)).
  { apply triple_try. eapply triple_weaken; [apply triple_DigestFile| |done]. by intros r d [-> H]. }
  intros r. apply triple_pure. intros Hr s Hs.
  destruct r as [[h n]|]; [|by split]. destruct (_ || _) eqn:Eb; simpl; [by split|]. split; [done|].
  intros _. bool_prop. destruct (Hr h n eq_refl) as (c & Hc & -> & ->).
  exists a, c. split_and!; try done. by apply dec_stable.
Qed.

Lemma triple_check_blobs (d0 : disk) (ls : list Descriptor) :
  triple (fun d => d = d0) (mapM_ (check_blob K sha256_hex) ls)
    (fun r d => d = d0 /\ (r = Ok tt -> Forall (blob_valid d0) ls)) (fun d => d = d0).
Proof.
  induction ls as [|l ls IH]; simpl; [by intros s Hs|].
  apply (triple_bind _ _ _ (fun _ d => blob_valid d0 l /\ d = d0)).
  { eapply triple_weaken; [apply triple_check_blob| |done]. intros [[]|e] d [-> H]; auto. by split. }
  intros _. apply triple_pure. intros Hl.
  eapply triple_weaken; [apply IH| |done]. intros r d [-> H]. split; [done|]. auto.
Qed.

Lemma triple_Get (d0 : disk) (ref : string) :
  triple (fun d => d = d0) (Get K sha256_hex unmarshal ref)
    (fun r d => d = d0 /\ forall img, r = Ok img -> readable d0 ref img) (fun d => d = d0).
Proof.
  unfold Get. apply (triple_bind _ _ _ (fun v d =>
    (exists c, d0 !! rec ref = Some c /\ unmarshal c = Ok v) /\ d = d0)).
  { unfold ReadJSON. apply (triple_bind _ _ _ (fun c d => d0 !! rec ref = Some c /\ d = d0)).
    - eapply triple_weaken; [apply triple_ReadData| |done]. intros [c|e] d [-> H]; [auto|done].
    - intros c. apply triple_pure. intros Hc s Hs. simpl. rewrite Hs. destruct (unmarshal c) eqn:E; [|done]. eauto. }
  intros v. apply triple_pure. intros (c & Hc & Hu).
  apply (triple_bind _ _ _ (fun _ d => Forall (blob_valid d0) (i_Layers v) /\ d = d0)).
  { eapply triple_weaken; [apply triple_check_blobs| |done]. intros [[]|e] d [-> H]; auto. by split. }
  intros _. apply triple_pure. intros Hf s Hs. simpl. rewrite Hs. split; [done|]. intros img [= <-]. by exists c.
Qed.

Lemma check_blob_returns (d : disk) (n : nat) (l : Descriptor) :
  (forall t, k_answer K t = Good) -> blob_valid d l ->
  check_blob K sha256_hex l (mkFS d n) = (Ret (Ok tt), mkFS d (S n)).
Proof.
  intros HG (h & c & Hh & Hc & Hd & Hs).
  unfold check_blob, Blob, DigestFile, ReadData, try, os, lift, mret, M_ret, mbind, M_bind.
  rewrite Hh. simpl. rewrite HG, Hc. simpl. rewrite Hd, Hs, Z.eqb_refl.
  by rewrite bool_decide_eq_false_2 by naive_solver.
Qed.

Lemma check_blobs_return (d : disk) (n : nat) (ls : list Descriptor) :
  (forall t, k_answer K t = Good) -> Forall (blob_valid d) ls ->
  exists t, mapM_ (check_blob K sha256_hex) ls (mkFS d n) = (Ret (Ok tt), mkFS d t).
Proof.
  intros HG Hf. revert n. induction Hf as [|l ls Hl Hf IH]; intros n; [by exists n|].
  cbn [mapM_]. unfold mbind, M_bind. rewrite check_blob_returns by done. apply IH.
Qed.

(** Without faults [Get] returns what is readable. *)
Lemma Get_returns (s : FS) (ref : string) (img : Image) :
  (forall t, k_answer K t = Good) -> readable (fs_files s) ref img ->
  exists t, Get K sha256_hex unmarshal ref s = (Ret (Ok img), mkFS (fs_files s) t).
Proof.
  intros HG (c & Hc & Hu & Hf).
  unfold Get, ReadJSON, ReadData, os, lift, mret, M_ret, mbind, M_bind. rewrite HG, Hc, Hu.
  destruct (check_blobs_return (fs_files s) (S (fs_clock s)) (i_Layers img) HG Hf) as [t Ht].
  rewrite Ht. by exists t.
Qed.

(** ** Writing *)

Lemma triple_WriteVerified (d0 : disk) (p : path) (r : Stream) (l : Descriptor) :
  HasPrefix (snd p) ".download-" = false ->
  triple (fun d => d = d0) (WriteVerified K sha256_hex p r l)
    (fun r d => match r with
                | Ok _ => exists c, dig c = d_Digest l /\ Z.of_nat (String.length c) = d_Size l /\ d = <[p := c]> d0
                | Err _ => d = d0 \/ with_temp (fst p) ".download-" d0 d
                end)
    (fun d => d = d0 \/ with_temp (fst p) ".download-" d0 d \/
       exists c, dig c = d_Digest l /\ Z.of_nat (String.length c) = d_Size l /\ d = <[p := c]> d0).
Proof.
  intros Hp. unfold WriteVerified. apply triple_lift_seq; [auto|intros h _].
  destruct (_ || _) eqn:Eb; [intros s Hs; left; exact Hs|]. bool_prop.
  apply triple_nop_seq; [auto..|].
  apply (triple_bind _ _ _ (fun t d => is_temp (fst p) ".download-" t /\ d0 !! t = None /\ d = <[t := ""]> d0)).
  { eapply triple_weaken; [apply triple_CreateTemp| |auto]. intros [t|e] d Hd; auto. }
  intros t. apply triple_pure. intros Ht. apply triple_pure. intros Hn.
  pose proof (temp_other _ _ _ _ Ht Hp) as Htp.
  assert (forall c, with_temp (fst p) ".download-" d0 (<[t := c]> d0)) as HT by (intros c; by exists t, c).
  apply (triple_defer _ _ _ (fun r d => match r with
    | Ok _ => exists c, dig c = d_Digest l /\ Z.of_nat (String.length c) = d_Size l /\ d = <[p := c]> d0
    | Err _ => exists c, d = <[t := c]> d0 end)).
  - apply (triple_bind _ _ _ (fun e d => match e with
      | Ok n => exists c, n = Z.of_nat (String.length c) /\ d = <[t := c]> d0
      | Err _ => exists c, d = <[t := c]> d0 end)).
    { apply triple_try.
      apply (triple_bind _ _ _ (fun n d => exists c, n = Z.of_nat (String.length c) /\ d = <[t := c]> d0)).
      - unfold Copy. set (data := take_str _ _).
        apply (triple_bind _ _ _ (fun _ d => d = <[t := data]> d0)).
        { eapply triple_weaken; [apply triple_WriteTemp|by intros [?|?]|intros d [c ->]; auto]. }
        intros _ s Hs. destruct (st_error r); [destruct (_ <? _)|]; simpl; eauto.
      - intros n. apply (triple_bind _ _ _ (fun _ d => exists c, n = Z.of_nat (String.length c) /\ d = <[t := c]> d0)).
        { apply triple_nop'; [intros [?|?] d (c & -> & ->); eauto|intros d (c & -> & ->); auto]. }
        intros _ s Hs. exact Hs. }
    intros e. apply (triple_bind _ _ _ (fun _ d => match e with
      | Ok n => exists c, n = Z.of_nat (String.length c) /\ d = <[t := c]> d0
      | Err _ => exists c, d = <[t := c]> d0 end)).
    { apply triple_try, triple_nop'; [auto|]. destruct e; [intros d (c & _ & ->)|intros d [c ->]]; auto. }
    intros ce. apply triple_lift_seq; [intros e' d ->; auto|intros n ->].
    apply triple_exists. intros c. apply triple_pure. intros ->.
    apply triple_lift_seq; [eauto|intros _ _].
    apply (triple_bind _ _ _ (fun h d => fst h = dig c /\ d = <[t := c]> d0)).
    { eapply triple_weaken; [apply triple_DigestFile| |intros d ->; auto].
      intros [[h' n]|e] d [-> Hr]; [|eauto]. destruct (Hr h' n eq_refl) as (c' & Hc & -> & _).
      rewrite lookup_insert_eq in Hc. injection Hc as ->. done. }
    intros hh. apply triple_pure. intros ->. destruct (_ || _) eqn:Em.
    { intros s Hs. simpl. eauto. }
    bool_prop. eapply triple_weaken; [by apply (triple_RenameTemp K t p c d0)| |intros d ->; auto].
    intros [u|e'] d H'; [|eauto]. exists c. split_and!; [by apply dec_stable|done|done].
  - intros [u|e].
    + apply triple_exists. intros c. apply triple_pure. intros H1. apply triple_pure. intros H2.
      eapply triple_weaken; [apply (triple_UnlinkGone K t (<[p := c]> d0)); by rewrite lookup_insert_ne|..];
        [eauto|eauto 10].
    + eapply triple_weaken; [by apply (triple_UnlinkTemp K (fst p) ".download-" t d0)|..]; naive_solver.
Qed.

(** ** Importing *)

(** A size for every digest, which the cached blobs agree with. *)
Definition sized (sizes : string -> Z) (d : disk) : Prop :=
  forall h c, d !! (blobs_dir, h) = Some c -> dig c = "sha256:" +:+ h ->
    Z.of_nat (String.length c) = sizes ("sha256:" +:+ h).

(** What the blobs of [d] may be when the store started from [d0]: an intact
    blob stays intact, and a blob that was not there is intact or a partial
    download. *)
Record blobs_grow (sizes : string -> Z) (d0 d : disk) : Prop := {
  bg_intact : forall h c, d0 !! (blobs_dir, h) = Some c -> dig c = "sha256:" +:+ h ->
    exists c', d !! (blobs_dir, h) = Some c' /\ dig c' = "sha256:" +:+ h;
  bg_new : forall h c, d !! (blobs_dir, h) = Some c ->
    d0 !! (blobs_dir, h) = Some c \/ dig c = "sha256:" +:+ h \/ HasPrefix h ".download-" = true;
  bg_sized : sized sizes d
}.

Lemma blobs_grow_refl (sizes : string -> Z) (d : disk) : sized sizes d -> blobs_grow sizes d d.
Proof. intros H. constructor; [eauto|auto|done]. Qed.

Lemma blobs_grow_other (sizes : string -> Z) (d0 d : disk) (q : path) (c : string) :
  fst q <> blobs_dir -> blobs_grow sizes d0 d -> blobs_grow sizes d0 (<[q := c]> d).
Proof.
  intros Hq [H1 H2 H3].
  assert (forall h, <[q := c]> d !! (blobs_dir, h) = d !! (blobs_dir, h)) as E.
  { intros h. apply lookup_insert_ne. by intros ->. }
  constructor; [|intros h c'; rewrite E; auto|intros h c'; rewrite E; apply H3].
  intros h c'. rewrite E. apply H1.
Qed.

Lemma blobs_grow_blob (sizes : string -> Z) (d0 d : disk) (h c : string) :
  dig c = "sha256:" +:+ h -> Z.of_nat (String.length c) = sizes ("sha256:" +:+ h) ->
  blobs_grow sizes d0 d -> blobs_grow sizes d0 (<[(blobs_dir, h) := c]> d).
Proof.
  intros Hc Hs [H1 H2 H3]. constructor.
  - intros k c' Hk Hd. destruct (decide (k = h)) as [->|Hne]; [rewrite lookup_insert_eq; eauto|].
    rewrite lookup_insert_ne by congruence. eauto.
  - intros k c' Hk. apply lookup_insert_Some in Hk as [[[= <-] <-]|[_ Hk]]; auto.
  - intros k c' Hk Hd. apply lookup_insert_Some in Hk as [[[= <-] <-]|[_ Hk]]; [done|by apply H3].
Qed.

Lemma blobs_grow_temp (sizes : string -> Z) (d0 d d' : disk) :
  with_temp blobs_dir ".download-" d d' -> blobs_grow sizes d0 d -> blobs_grow sizes d0 d'.
Proof.
  intros ([dir t] & c & [Hd Ht] & Hn & ->) [H1 H2 H3]. simpl in *. subst dir. constructor.
  - intros h c' Hh Hc'. destruct (H1 h c' Hh Hc') as (c2 & Hc2 & Hd2). exists c2.
    rewrite lookup_insert_ne; [done|congruence].
  - intros h c' Hh. apply lookup_insert_Some in Hh as [[[= <-] <-]|[_ Hh]]; auto.
  - intros h c' Hh Hc'. apply lookup_insert_Some in Hh as [[[= <-] <-]|[_ Hh]]; [|by apply H3].
    by apply (digest_not_temp _ _ ".download-") in Hc'.
Qed.

Lemma blobs_grow_valid (sizes : string -> Z) (d0 d : disk) (l : Descriptor) :
  sized sizes d0 -> blobs_grow sizes d0 d -> blob_valid d0 l -> blob_valid d l.
Proof.
  intros H0 [H1 H2 H3] (h & c & Hh & Hc & Hd & Hs). pose proof (HexDigest_ok _ _ Hh) as (Hl & _).
  destruct (H1 h c Hc) as (c' & Hc' & Hd'); [congruence|]. exists h, c'. split_and!; [done|done|congruence|].
  rewrite (H3 h c' Hc' Hd'), <-(H0 h c Hc), Hs; [done|congruence].
Qed.

(** The loop only touches the blob directory. *)
Definition only_blobs (d0 d : disk) : Prop := forall q, fst q <> blobs_dir -> d !! q = d0 !! q.

Lemma only_blobs_blob (d0 d : disk) (h c : string) :
  only_blobs d0 d -> only_blobs d0 (<[(blobs_dir, h) := c]> d).
Proof. intros H q Hq. rewrite lookup_insert_ne; [by apply H|]. by intros <-. Qed.

Lemma only_blobs_temp (d0 d d' : disk) (pre : string) :
  with_temp blobs_dir pre d d' -> only_blobs d0 d -> only_blobs d0 d'.
Proof. intros ([dir t] & c & [Hd _] & _ & ->) H. simpl in Hd. subst. by apply only_blobs_blob. Qed.

Definition loop_disk (sizes : string -> Z) (d0 d : disk) : Prop :=
  blobs_grow sizes d0 d /\ only_blobs d0 d.

(** The descriptors the layers announce agree with [sizes]. *)
Definition announced (sizes : string -> Z) (l : RemoteLayer) : Prop :=
  forall dg n, rl_Digest l = Ok dg -> rl_Size l = Ok n -> n = sizes dg.

(** The invariant of the layer loop: what [out] and [total] are after the
    layers so far. *)
Record loop_state (out0 : Image) (diffs : list string) (i : nat) (total : Z) (out : Image) (d : disk) : Prop := {
  ls_same : i_Ref out = i_Ref out0 /\ i_Digest out = i_Digest out0 /\ i_Config out = i_Config out0 /\
            i_Manifest out = i_Manifest out0;
  ls_layers : Forall (blob_valid d) (i_Layers out);
  ls_count : length (i_Layers out) = i;
  ls_diffs : i_DiffIDs out = take i diffs;
  ls_sizes : fold_ok admit_layer 0 (d_Size <$> i_Layers out) = Ok total
}.

Lemma fold_ok_snoc {A S} (f : S -> A -> result S) (s : S) (l : list A) (x : A) :
  fold_ok f s (l ++ [x]) = match fold_ok f s l with Ok s' => f s' x | Err e => Err e end.
Proof.
  revert s. induction l as [|y l IH]; intros s; simpl; [by destruct (f s x)|].
  destruct (f s y); [apply IH|done].
Qed.

Lemma blob_valid_kept (sizes : string -> Z) (d d' : disk) (ls : list Descriptor) :
  sized sizes d -> blobs_grow sizes d d' -> Forall (blob_valid d) ls -> Forall (blob_valid d') ls.
Proof. intros H1 H2 Hf. eapply Forall_impl; [exact Hf|]. intros l. by apply (blobs_grow_valid sizes d). Qed.

Lemma blob_valid_new (d : disk) (h c mt : string) (n : Z) :
  HexDigest ("sha256:" +:+ h) = Ok h -> d !! (blobs_dir, h) = Some c -> dig c = "sha256:" +:+ h ->
  Z.of_nat (String.length c) = n -> blob_valid d (mkDescriptor ("sha256:" +:+ h) n mt).
Proof. intros. by exists h, c. Qed.

(** Fetching a layer that is missing or damaged. *)
Lemma triple_fetch (sizes : string -> Z) (d0 d1 : disk) (l : RemoteLayer) (h mt : string) :
  HexDigest ("sha256:" +:+ h) = Ok h -> loop_disk sizes d0 d1 ->
  triple (fun d => d = d1)
    (r ← lift (rl_Compressed l);
     WriteVerified K sha256_hex (blobs_dir, h) r (mkDescriptor ("sha256:" +:+ h) (sizes ("sha256:" +:+ h)) mt))
    (fun r d => loop_disk sizes d0 d /\ (r = Ok tt -> blobs_grow sizes d1 d /\
       blob_valid d (mkDescriptor ("sha256:" +:+ h) (sizes ("sha256:" +:+ h)) mt)))
    (loop_disk sizes d0).
Proof.
  intros Hh [Hg Ho]. pose proof (HexDigest_ok _ _ Hh) as (_ & Hl & Hd).
  assert (forall d, with_temp blobs_dir ".download-" d1 d -> loop_disk sizes d0 d) as HT.
  { intros d H. split; [by eapply blobs_grow_temp|by eapply only_blobs_temp]. }
  assert (forall c, dig c = "sha256:" +:+ h -> Z.of_nat (String.length c) = sizes ("sha256:" +:+ h) ->
    loop_disk sizes d0 (<[(blobs_dir, h) := c]> d1)) as HN.
  { intros c H1 H2. split; [by apply blobs_grow_blob|by apply only_blobs_blob]. }
  apply triple_lift_seq; [intros e d _ ->; by split|intros r _].
  eapply triple_weaken; [apply triple_WriteVerified; apply hex_name_first; [done|simpl; lia|done]| |]; simpl.
  - intros [[]|e] d; [|intros [->|H]; [by split|split; [auto|done]]].
    intros (c & H1 & H2 & ->). split; [auto|]. intros _. split.
    + apply blobs_grow_blob; [done..|]. apply blobs_grow_refl. apply Hg.
    + apply blob_valid_new with c; [done|apply lookup_insert_eq|done|done].
  - intros d [->|[H|(c & H1 & H2 & ->)]]; [by split|auto|auto].
Qed.

Lemma loop_state_step (out0 : Image) (diffs : list string) (i : nat) (total total' : Z) (out : Image)
    (d : disk) (l : Descriptor) (x : string) :
  loop_state out0 diffs i total out d -> blob_valid d l -> admit_layer total (d_Size l) = Ok total' ->
  diffs !! i = Some x ->
  loop_state out0 diffs (S i) total'
    (mkImage (i_Ref out) (i_Digest out) (i_Config out) (i_Layers out ++ [l]) (i_DiffIDs out ++ [x])
             (i_Manifest out)) d.
Proof.
  intros [H1 H2 H3 H4 H5] Hl Ht Hx. constructor; simpl.
  - done.
  - apply Forall_app. auto.
  - rewrite length_app. simpl. lia.
  - rewrite H4. symmetry. by apply take_S_r.
  - rewrite fmap_app. simpl. rewrite fold_ok_snoc, H5. exact Ht.
Qed.

Lemma loop_state_grow (sizes : string -> Z) (out0 : Image) (diffs : list string) (i : nat) (total : Z)
    (out : Image) (d d' : disk) :
  sized sizes d -> blobs_grow sizes d d' -> loop_state out0 diffs i total out d ->
  loop_state out0 diffs i total out d'.
Proof. intros Hs Hg [H1 H2 H3 H4 H5]. constructor; try done. by apply (blob_valid_kept sizes d). Qed.

Lemma triple_import_layer (sizes : string -> Z) (d0 : disk) (ctx_err : nat -> option error)
    (out0 : Image) (diffs : list string) (i : nat) (st : Z * Image) (l : RemoteLayer) :
  announced sizes l ->
  triple (fun d => loop_disk sizes d0 d /\ loop_state out0 diffs i (fst st) (snd st) d)
    (import_layer K sha256_hex ctx_err diffs st (i, l))
    (fun r d => loop_disk sizes d0 d /\
       match r with Ok st' => loop_state out0 diffs (S i) (fst st') (snd st') d | Err _ => True end)
    (loop_disk sizes d0).
Proof.
  intros Ha. destruct st as [total out]. simpl. apply triple_from. intros d1 [HD HL].
  apply triple_lift_seq; [by intros e d _ ->|intros _ _].
  apply triple_lift_seq; [by intros e d _ ->|intros dg Hdg].
  apply triple_lift_seq; [by intros e d _ ->|intros n Hn].
  apply triple_lift_seq; [by intros e d _ ->|intros total' Ht].
  apply triple_lift_seq; [by intros e d _ ->|intros mt _].
  apply triple_lift_seq; [by intros e d _ ->|intros p Hp].
  unfold Blob in Hp. ok_inv. rename a into h. pose proof (HexDigest_ok _ _ E) as (-> & _).
  pose proof (Ha _ _ Hdg Hn) as ->.
  set (desc := mkDescriptor ("sha256:" +:+ h) (sizes ("sha256:" +:+ h)) mt).
  apply (triple_bind _ _ _ (fun r d => (forall g n, r = Ok (g, n) ->
    exists c, d1 !! (blobs_dir, h) = Some c /\ g = dig c /\ n = Z.of_nat (String.length c)) /\ d = d1)).
  { apply triple_try. eapply triple_weaken; [apply triple_DigestFile| |intros d ->; done].
    intros r d [-> H]. by split. }
  intros r. apply triple_pure. intros Hr.
  apply (triple_bind _ _ _ (fun _ d => loop_disk sizes d0 d /\ blobs_grow sizes d1 d /\ blob_valid d desc)).
  - destruct (match r with Ok _ => _ | Err _ => _ end) eqn:Eb.
    + destruct r as [[g m]|]; [|done]. bool_prop. destruct (Hr _ _ eq_refl) as (c & Hc & -> & ->).
      intros s Hs. simpl. rewrite Hs. split_and!; [done..| |].
      * apply blobs_grow_refl. apply HD.
      * by apply blob_valid_new with c.
    + eapply triple_weaken; [by apply (triple_fetch sizes d0 d1 l h mt)| |done].
      intros [[]|e] d [H1 H2]; [|done]. split; [done|by apply H2].
  - intros _. apply triple_from. intros d2 (H1 & H2 & H3).
    apply triple_lift_seq; [by intros e d _ ->|intros x Hx].
    intros s Hs. simpl. rewrite Hs. split; [done|]. 
    apply (loop_state_step out0 diffs i total total' out d2 desc x); try done.
    + apply (loop_state_grow sizes out0 diffs i total out d1); [apply HD|done|done].
    + by destruct (diffs !! i); simplify_eq.
Qed.

Lemma blob_valid_other (d : disk) (q : path) (c : string) (l : Descriptor) :
  fst q <> blobs_dir -> blob_valid d l -> blob_valid (<[q := c]> d) l.
Proof.
  intros Hq (h & c' & H1 & H2 & H3 & H4). exists h, c'. split_and!; try done.
  rewrite lookup_insert_ne; [done|]. by intros ->.
Qed.

(** What an import of an image with digest [D] under [ref] leaves at any
    point: the two records hold what they held or an image that is fully
    there, and the rest is as before. *)
Record import_kept (sizes : string -> Z) (ref D : string) (d0 d : disk) : Prop := {
  ik_blobs : blobs_grow sizes d0 d;
  ik_records : forall q, q = rec D \/ q = rec ref ->
    d !! q = d0 !! q \/
    exists out, d !! q = Some (marshal out) /\ i_Digest out = D /\ i_Ref out = ref /\
      Forall (blob_valid d) (i_Layers out);
  ik_rest : forall q, fst q <> blobs_dir -> q <> rec D -> q <> rec ref ->
    d !! q = d0 !! q \/ (is_temp refs_dir ".pending-" q /\ d0 !! q = None)
}.

Lemma refs_not_blobs (ref : string) : fst (rec ref) <> blobs_dir.
Proof. by rewrite record_name. Qed.

Lemma import_kept_loop (sizes : string -> Z) (ref D : string) (d0 d : disk) :
  loop_disk sizes d0 d -> import_kept sizes ref D d0 d.
Proof.
  intros [Hg Ho]. constructor; [done| |].
  - intros q Hq. left. apply Ho. destruct Hq as [-> | ->]; apply refs_not_blobs.
  - intros q Hq _ _. left. by apply Ho.
Qed.

Lemma import_kept_put (sizes : string -> Z) (ref D : string) (d0 d : disk) (q : path) (out : Image) :
  q = rec D \/ q = rec ref -> i_Digest out = D -> i_Ref out = ref -> Forall (blob_valid d) (i_Layers out) ->
  import_kept sizes ref D d0 d -> import_kept sizes ref D d0 (<[q := marshal out]> d).
Proof.
  intros Hq HD Hr Hf [H1 H2 H3].
  assert (fst q <> blobs_dir) as Hb by (destruct Hq as [-> | ->]; apply refs_not_blobs).
  assert (forall ls, Forall (blob_valid d) ls -> Forall (blob_valid (<[q := marshal out]> d)) ls) as HF.
  { intros ls Hls. eapply Forall_impl; [exact Hls|]. intros l. by apply blob_valid_other. }
  constructor.
  - by apply blobs_grow_other.
  - intros q' Hq'. destruct (decide (q' = q)) as [->|Hne].
    + right. exists out. rewrite lookup_insert_eq. auto.
    + rewrite lookup_insert_ne by done.
      destruct (H2 q' Hq') as [?|(o & ? & ? & ? & ?)]; [auto|]. right. exists o. auto.
  - intros q' Hq' Hd Hr'. rewrite lookup_insert_ne by naive_solver. auto.
Qed.

Lemma import_kept_temp (sizes : string -> Z) (ref D : string) (d0 d d' : disk) :
  with_temp refs_dir ".pending-" d d' -> import_kept sizes ref D d0 d -> import_kept sizes ref D d0 d'.
Proof.
  intros (t & c & Ht & Hn & ->) [H1 H2 H3].
  assert (fst t <> blobs_dir) as Hb by (destruct Ht as [-> _]; done).
  assert (forall r, t <> rec r) as Hr.
  { intros r. eapply temp_other; [exact Ht|]. by apply record_plain. }
  constructor.
  - by apply blobs_grow_other.
  - intros q Hq. rewrite lookup_insert_ne by naive_solver.
    destruct (H2 q Hq) as [?|(o & ? & ? & ? & Hf)]; [auto|]. right. exists o. split_and!; try done.
    eapply Forall_impl; [exact Hf|]. intros l. by apply blob_valid_other.
  - intros q Hq Hd Hr'. destruct (decide (q = t)) as [->|Hne]; [|rewrite lookup_insert_ne by done; auto].
    destruct (H3 t Hq Hd Hr') as [E|]; [|auto]. right. split; [done|]. congruence.
Qed.

(** Storing one of the two records. *)
Lemma triple_put_record (sizes : string -> Z) (ref D : string) (d0 d1 : disk) (r : string) (out : Image) :
  r = D \/ r = ref -> i_Digest out = D -> i_Ref out = ref -> Forall (blob_valid d1) (i_Layers out) ->
  import_kept sizes ref D d0 d1 ->
  triple (fun d => d = d1) (JSON K (fun i => Ok (marshal i)) (rec r) out)
    (fun res d => import_kept sizes ref D d0 d /\ (res = Ok tt -> d = <[rec r := marshal out]> d1))
    (import_kept sizes ref D d0).
Proof.
  intros Hr HD HR Hf Hk. unfold JSON. apply triple_lift_seq; [done|]. intros b [= <-].
  assert (rec r = rec D \/ rec r = rec ref) as Hr' by naive_solver.
  assert (forall d, replaced ".pending-" (rec r) (marshal out) d1 d -> import_kept sizes ref D d0 d) as HR'.
  { intros d [->|[->|H]]; [done|by apply import_kept_put|].
    rewrite record_name in H. by apply (import_kept_temp _ _ _ _ d1). }
  eapply triple_weaken; [apply triple_Atomic; by apply record_plain| |exact HR'].
  intros [[]|e] d; [|intros H; split; [auto|done]]. intros ->. split; [by apply import_kept_put|done].
Qed.

Context (tokens : string -> list (result token)) (unmarshal_manifest : string -> result Manifest)
        (unmarshal_config : string -> result ConfigFile).

Lemma admit_metadata_ok (ref : string) (img : RemoteImage) (out : Image) (cfg : ConfigFile) :
  admit_metadata sha256_hex tokens unmarshal_manifest unmarshal_config ref img = Ok (out, cfg) ->
  ri_Digest img = Ok (i_Digest out) /\ i_Ref out = ref /\ i_Layers out = [] /\ i_DiffIDs out = [] /\
  i_Config out = cf_Config cfg /\ cf_OS cfg = "linux" /\ cf_Architecture cfg = "amd64" /\
  ri_RawManifest img = Ok (i_Manifest out) /\ dig (i_Manifest out) = i_Digest out.
Proof. unfold admit_metadata. intros H. ok_inv. simplify_eq. bool_prop. subst. simpl. auto 10. Qed.

(** What a successful import establishes about the image it returns. *)
Definition imported (ref : string) (img : RemoteImage) (out : Image) : Prop :=
  i_Ref out = ref /\ ri_RawManifest img = Ok (i_Manifest out) /\ dig (i_Manifest out) = i_Digest out /\
  (length (i_Layers out) <= 256)%nat /\ length (i_DiffIDs out) = length (i_Layers out) /\
  exists total, fold_ok admit_layer 0 (d_Size <$> i_Layers out) = Ok total.

Lemma triple_importImage (sizes : string -> Z) (d0 : disk) (ctx_err : nat -> option error) (ref D : string)
    (img : RemoteImage) :
  sized sizes d0 -> (forall ls, ri_Layers img = Ok ls -> Forall (announced sizes) ls) ->
  (forall D', ri_Digest img = Ok D' -> D' = D) ->
  triple (fun d => d = d0)
    (importImage K sha256_hex marshal tokens unmarshal_manifest unmarshal_config ctx_err ref img)
    (fun r d => import_kept sizes ref D d0 d /\ forall out, r = Ok out ->
       imported ref img out /\ i_Digest out = D /\ Forall (blob_valid d) (i_Layers out) /\
       d !! rec ref = Some (marshal out) /\ d !! rec D = Some (marshal out))
    (import_kept sizes ref D d0).
Proof.
  intros Hs Ha HD. unfold importImage.
  assert (loop_disk sizes d0 d0) as HL0 by (split; [by apply blobs_grow_refl|done]).
  pose proof (import_kept_loop _ ref D _ _ HL0) as HK0.
  apply triple_lift_seq; [intros e d _ ->; by split|intros [out0 cfg] Hm].
  apply admit_metadata_ok in Hm as (Hdg & Href & Hl0 & Hd0 & _ & _ & _ & Hraw & Hman).
  apply HD in Hdg.
  apply triple_lift_seq; [intros e d _ ->; by split|intros layers Hlay]. apply Ha in Hlay.
  destruct (_ || _) eqn:Ec; [intros s Hs'; simpl; rewrite Hs'; by split|]. bool_prop.
  match goal with H : (_ =? _)%nat = true |- _ => apply Nat.eqb_eq in H; rename H into Hlen end.
  apply (triple_bind _ _ _ (fun st d => loop_disk sizes d0 d /\
    loop_state out0 (cf_DiffIDs cfg) (length layers) (fst st) (snd st) d)).
  { eapply triple_conseq.
    - apply (triple_foldM pair (fun i st d => loop_disk sizes d0 d /\
        loop_state out0 (cf_DiffIDs cfg) i (fst st) (snd st) d)
        (import_layer K sha256_hex ctx_err (cf_DiffIDs cfg)) (0, out0) layers
        (fun r d => loop_disk sizes d0 d /\ forall st, r = Ok st ->
           loop_state out0 (cf_DiffIDs cfg) (length layers) (fst st) (snd st) d)
        (loop_disk sizes d0)).
      + intros i st l Hl. eapply triple_weaken; [apply (triple_import_layer sizes d0)| |done].
        * eapply Forall_lookup_1; [exact Hlay|exact Hl].
        * intros [st'|e] d [H1 H2]; [by split|by split].
      + intros st d [H1 H2]. split; [done|]. by intros st' [= <-].
    - intros d ->. split; [done|]. constructor; simpl; rewrite ?Hl0, ?Hd0; try done.
    - intros [st|e] d [H1 H2]; [by auto|]. split; [by apply import_kept_loop|done].
    - intros d. apply import_kept_loop. }
  intros [total out]. simpl. apply triple_from. intros d1 [HL [(S1 & S2 & S3 & S4) S5 S6 S7 S8]].
  assert (i_Digest out = D) as HoD by congruence. assert (i_Ref out = ref) as HoR by congruence.
  rewrite HoD.
  apply (triple_bind _ _ _ (fun _ d => import_kept sizes ref D d0 d /\ d = <[rec D := marshal out]> d1)).
  { eapply triple_weaken; [apply (triple_put_record sizes ref D d0 d1 D out); auto; by apply import_kept_loop| |done].
    intros [[]|e] d [H1 H2]; [by auto|]. by split. }
  intros _. apply triple_from. intros d2 [HK2 ->].
  assert (Forall (blob_valid (<[rec D := marshal out]> d1)) (i_Layers out)) as Hf2.
  { eapply Forall_impl; [exact S5|]. intros l. apply blob_valid_other, refs_not_blobs. }
  apply (triple_bind _ _ _ (fun _ d => import_kept sizes ref D d0 d /\
    d = <[rec ref := marshal out]> (<[rec D := marshal out]> d1))).
  { eapply triple_weaken; [by apply (triple_put_record sizes ref D d0 _ ref out); auto| |done].
    intros [[]|e] d [H1 H2]; [by auto|]. by split. }
  intros _ s [HK3 Hd]. simpl. rewrite Hd in *. split; [done|]. intros out' [= <-].
  split_and!; [|done| |apply lookup_insert_eq|].
  - split_and!; [done|congruence|congruence|lia| |eauto].
    rewrite S7, S6, length_take. lia.
  - eapply Forall_impl; [exact Hf2|]. intros l. apply blob_valid_other, refs_not_blobs.
  - destruct (decide (rec D = rec ref)) as [->|]; [apply lookup_insert_eq|].
    rewrite lookup_insert_ne by done. apply lookup_insert_eq.
Qed.

(** ** Removing *)

Lemma Blob_inj (k k' : string) (p : path) : Blob k = Ok p -> Blob k' = Ok p -> k = k'.
Proof.
  unfold Blob. intros H H'. ok_inv. simplify_eq.
  repeat match goal with H : HexDigest _ = Ok _ |- _ => apply HexDigest_ok in H as [-> _] end. done.
Qed.

Lemma Blob_dir (k : string) (p : path) : Blob k = Ok p -> fst p <> refs_dir.
Proof. unfold Blob. intros H. ok_inv. done. Qed.

#[local] Notation holds := (holds refs_dir unmarshal).
#[local] Notation others_kept := (others_kept refs_dir unmarshal i_Digest layer_keys Blob).
#[local] Notation all_gone := (all_gone refs_dir unmarshal i_Digest layer_keys Blob).

Lemma triple_Remove (d0 : disk) (ref : string) :
  honest K ->
  triple (fun d => d = d0) (Remove K sha256_hex unmarshal ref)
    (fun r d => match r with
                | Ok _ => exists img, readable d0 ref img /\ others_kept (i_Digest img) d0 d /\ all_gone img d
                | Err _ => d = d0 \/ exists img, readable d0 ref img /\ others_kept (i_Digest img) d0 d
                end)
    (fun d => d = d0 \/ exists img, readable d0 ref img /\ others_kept (i_Digest img) d0 d).
Proof.
  intros Hh. unfold Remove. apply (triple_bind _ _ _ (fun v d => readable d0 ref v /\ d = d0)).
  { eapply triple_weaken; [apply triple_Get| |auto]. intros [v|e] d [-> H]; auto. }
  intros img. apply triple_pure. intros Hr. pose proof Hr as (c & Hc & Hu & _). rewrite record_name in Hc.
  assert (separate refs_dir unmarshal layer_keys Blob d0) as Hsep by (intros n v k p _ _; apply Blob_dir).
  eapply triple_weaken; [eapply (triple_remove_record K refs_dir unmarshal i_Digest layer_keys Blob Blob_inj);
    [done|done|by exists c]| |]; [|eauto]. intros [[]|e] d [H1 H2]; [exists img; auto|eauto].
Qed.

Lemma others_readable (D : string) (d0 d : disk) (r : string) (v : Image) :
  others_kept D d0 d -> readable d0 r v -> i_Digest v <> D -> readable d r v.
Proof.
  intros [Hs Ho] (c & Hc & Hu & Hf) HD. rewrite record_name in Hc.
  destruct (Ho (sha256_hex r +:+ ".json") v) as [(c' & Hc' & Hu') Hb]; [by exists c|done|].
  exists c'. rewrite record_name. split_and!; [done|done|].
  apply Forall_forall. intros l Hl. rewrite Forall_forall in Hf. destruct (Hf l Hl) as (h & c2 & H1 & H2 & H3 & H4).
  exists h, c2. split_and!; try done. rewrite (Hb (d_Digest l)); [done|by apply list_elem_of_fmap_2|].
  unfold Blob. by rewrite H1.
Qed.

(** ** The store's contract *)

(** C16. Importing an image is crash safe.  Whatever fails and wherever the process
    dies, every blob that appears under a digest has that digest, and every
    reference that could be read before can still be read, as the image it was
    or as a complete image imported under [ref].  When the import returns an
    image, [ref] and the image digest both resolve to it, its manifest has the
    digest the registry announced, and the limits on layers and sizes hold.
    Assumed is that descriptors and cached blobs agree about the size of a
    digest. *)
Theorem importImage_correct (sizes : string -> Z) (ctx_err : nat -> option error) (ref : string)
    (img : RemoteImage) (s s' : FS) (o : outcome Image) :
  sized sizes (fs_files s) -> (forall ls, ri_Layers img = Ok ls -> Forall (announced sizes) ls) ->
  importImage K sha256_hex marshal tokens unmarshal_manifest unmarshal_config ctx_err ref img s = (o, s') ->
  (forall h c, fs_files s' !! (blobs_dir, h) = Some c ->
     fs_files s !! (blobs_dir, h) = Some c \/ dig c = "sha256:" +:+ h \/ HasPrefix h ".download-" = true) /\
  (forall r v, readable (fs_files s) r v ->
     exists v', readable (fs_files s') r v' /\ (v' = v \/ i_Ref v' = ref)) /\
  (forall out, o = Ret (Ok out) ->
     readable (fs_files s') ref (stored out) /\ readable (fs_files s') (i_Digest out) (stored out) /\
     i_Ref out = ref /\ ri_RawManifest img = Ok (i_Manifest out) /\ dig (i_Manifest out) = i_Digest out /\
     (length (i_Layers out) <= 256)%nat /\ length (i_DiffIDs out) = length (i_Layers out) /\
     Forall (fun l => 0 <= d_Size l <= MaxBlob) (i_Layers out) /\
     foldr Z.add 0 (d_Size <$> i_Layers out) <= MaxImage).
Proof.
  intros Hs Ha E. set (D := match ri_Digest img with Ok D => D | Err _ => "" end).
  pose proof (triple_importImage sizes (fs_files s) ctx_err ref D img Hs Ha) as HT.
  specialize (HT ltac:(intros D' HD'; unfold D; by rewrite HD') s eq_refl). rewrite E in HT.
  assert (import_kept sizes ref D (fs_files s) (fs_files s')) as [I1 I2 I3].
  { destruct o as [r|]; [apply HT|done]. }
  split_and!.
  - apply I1.
  - intros r v (c & Hc & Hu & Hf).
    assert (Forall (blob_valid (fs_files s')) (i_Layers v)) as Hf' by by apply (blob_valid_kept sizes (fs_files s)).
    destruct (decide (rec r = rec D \/ rec r = rec ref)) as [Hq|Hq].
    + destruct (I2 _ Hq) as [Heq|(out & Hout & HD & HR & Hv)].
      * exists v. split; [|by left]. exists c. by rewrite Heq.
      * exists (stored out). split; [|by right]. exists (marshal out). rewrite unmarshal_marshal. done.
    + exists v. split; [|by left]. exists c. split_and!; try done.
      destruct (I3 (rec r)) as [->|[_ Hn]]; [apply refs_not_blobs|by intros ?; apply Hq; left|by intros ?; apply Hq; right|done|].
      by rewrite Hn in Hc.
  - intros out ->. destruct HT as [_ HT]. destruct (HT out eq_refl) as ((R1 & R2 & R3 & R4 & R5 & total & R6) & HD & Hf & H1 & H2).
    apply admit_layers_bounded in R6 as (B1 & -> & B3).
    split_and!; try done.
    + exists (marshal out). rewrite unmarshal_marshal. done.
    + exists (marshal out). rewrite HD, unmarshal_marshal. done.
    + by apply Forall_fmap in B1.
Qed.

(** Removing an image never harms another one, even when it fails half way
    or the process dies: files are only deleted, and every reference to an
    image with a different digest still reads as before.  When it succeeds, no
    record of the image is left, and each of its layers is deleted unless a
    remaining record uses it. *)
Theorem Remove_correct (ref : string) (s s' : FS) (o : outcome unit) :
  honest K ->
  Remove K sha256_hex unmarshal ref s = (o, s') ->
  fs_files s' ⊆ fs_files s /\
  (forall r v, readable (fs_files s) r v ->
     (forall img, readable (fs_files s) ref img -> i_Digest v <> i_Digest img) -> readable (fs_files s') r v) /\
  (o = Ret (Ok tt) -> exists img, readable (fs_files s) ref img /\ all_gone img (fs_files s')).
Proof.
  intros Hh E. pose proof (triple_Remove (fs_files s) ref Hh s eq_refl) as HT. rewrite E in HT.
  assert (fs_files s' = fs_files s \/
    exists img, readable (fs_files s) ref img /\ others_kept (i_Digest img) (fs_files s) (fs_files s')) as HO.
  { destruct o as [[[]|e]|]; [|done|done]. destruct HT as (img & H1 & H2 & _). eauto. }
  split_and!.
  - by destruct HO as [->|(img & _ & [? _])].
  - intros r v Hv Hne. destruct HO as [->|(img & Hi & Ho)]; [done|]. by eapply others_readable; eauto.
  - intros ->. destruct HT as (img & H1 & _ & H3). eauto.
Qed.
End StoreProofs.

(** ** Carriers *)

Section CarrierProofs.
Context (K : Kernel) (marshal : Image -> string).

Lemma triple_Link (a b : path) (d0 : disk) :
  triple (fun d => d = d0) (Link K a b)
    (fun r d => match r with
                | Ok _ => d0 !! b = None /\ exists c, d0 !! a = Some c /\ d = <[b := c]> d0
                | Err _ => d = d0
                end) (fun d => d = d0).
Proof. apply triple_os; [|done|done]. intros _ d ->. destruct (d0 !! a), (d0 !! b) eqn:E; simpl; eauto. Qed.

(** The target of a layer in a carrier. *)
Definition carrier_blob (dir : string) (l : Descriptor) : path := (dir +:+ "/blobs", drop_str 7 (d_Digest l)).

(** After linking [ls] into the carrier [dir] of [d0]. *)
Record linked (dir : string) (ls : list Descriptor) (d0 d : disk) : Prop := {
  lk_sub : d0 ⊆ d;
  lk_new : forall q c, d !! q = Some c -> d0 !! q = None -> exists l, l ∈ ls /\ q = carrier_blob dir l;
  lk_fresh : Forall (fun l => d0 !! carrier_blob dir l = None) ls;
  lk_nodup : NoDup (d_Digest <$> ls);
  lk_blob : Forall (fun l => exists h, HexDigest (d_Digest l) = Ok h /\ is_Some (d !! carrier_blob dir l) /\
              d !! carrier_blob dir l = d !! (blobs_dir, h)) ls
}.

Lemma linked_step (dir h c : string) (ls : list Descriptor) (l : Descriptor) (d0 d : disk) :
  linked dir ls d0 d -> HexDigest (d_Digest l) = Ok h -> d !! (blobs_dir, h) = Some c ->
  d !! carrier_blob dir l = None -> linked dir (ls ++ [l]) d0 (<[carrier_blob dir l := c]> d).
Proof.
  intros [H1 H2 H3 H4 H5] Hh Hc Hn.
  assert (d0 !! carrier_blob dir l = None) as Hn0 by by eapply lookup_weaken_None.
  constructor.
  - etrans; [exact H1|]. by apply insert_subseteq.
  - intros q c' Hq Hq0. apply lookup_insert_Some in Hq as [[<- _]|[_ Hq]].
    + exists l. split; [apply elem_of_app; right; by apply list_elem_of_singleton|done].
    + destruct (H2 q c' Hq Hq0) as (m & Hm & ->). exists m. split; [apply elem_of_app; auto|done].
  - apply Forall_app. auto.
  - rewrite fmap_app. simpl. apply NoDup_app. split_and!; [done| |apply NoDup_singleton].
    intros x Hx ->%list_elem_of_singleton. apply list_elem_of_fmap in Hx as (m & Hm & Hin).
    rewrite Forall_forall in H5. destruct (H5 m Hin) as (_ & _ & [c' Hc'] & _).
    unfold carrier_blob in *. rewrite <-Hm in Hc'. congruence.
  - assert (forall q, is_Some (d !! q) -> <[carrier_blob dir l := c]> d !! q = d !! q) as HE.
    { intros q [x Hx]. rewrite lookup_insert_ne; [done|]. intros <-. congruence. }
    apply Forall_app. split.
    + eapply Forall_impl; [exact H5|]. intros m (k & Hk & Hs & E). exists k.
      rewrite (HE (carrier_blob dir m)) by done. split_and!; [done|done|]. rewrite HE, <-E; [done|]. by rewrite <-E.
    + apply Forall_singleton. exists h. rewrite lookup_insert_eq. split_and!; [done|by eexists|].
      rewrite HE; [done|by eexists].
Qed.

Lemma triple_link_layers (dir : string) (ls : list Descriptor) (d0 : disk) :
  triple (fun d => d = d0) (mapM_ (link_layer K dir) ls)
    (fun r d => exists done, done `prefix_of` ls /\ linked dir done d0 d /\ (r = Ok tt -> done = ls))
    (fun d => exists done, done `prefix_of` ls /\ linked dir done d0 d).
Proof.
  eapply triple_conseq.
  - apply (triple_mapM_ (fun i d => linked dir (take i ls) d0 d) (link_layer K dir) ls
      (fun r d => exists done, done `prefix_of` ls /\ linked dir done d0 d /\ (r = Ok tt -> done = ls))
      (fun d => exists done, done `prefix_of` ls /\ linked dir done d0 d)).
    + intros i l Hi. apply triple_from. intros d1 HL.
      assert (take i ls `prefix_of` ls) as Hp by apply prefix_take.
      unfold link_layer. apply triple_lift_seq.
      { intros e d _ ->. exists (take i ls). split_and!; try done. }
      intros p Hp'. unfold Blob in Hp'. ok_inv.
      eapply triple_weaken; [apply triple_Link| |intros d ->; eauto].
      intros [[]|e] d; [|intros ->; exists (take i ls); split_and!; done].
      intros (Hn & c & Hc & ->). rewrite (take_S_r _ _ _ Hi). by apply (linked_step dir a).
    + intros d. rewrite firstn_all. intros H. exists ls. split_and!; done.
  - intros d ->. rewrite take_0. constructor; try done; [congruence|constructor].
  - done.
  - done.
Qed.

(** [Carrier] returns only when the layers have pairwise different digests;
    the carrier directory then holds the image record and, for every layer,
    the bytes of its blob.  Nothing that was there before is changed apart
    from the record, and only the carrier gets new files.  An image that
    repeats a layer can be imported but never becomes a carrier. *)
Theorem Carrier_correct (dir : string) (img : Image) (s s' : FS) (o : outcome unit) :
  fs_files s !! (dir, "image.json") = None ->
  Carrier K marshal dir img s = (o, s') ->
  fs_files s ⊆ fs_files s' /\
  (forall q c, fs_files s' !! q = Some c -> fs_files s !! q = None -> fst q = dir \/ fst q = dir +:+ "/blobs") /\
  (o = Ret (Ok tt) ->
     NoDup (d_Digest <$> i_Layers img) /\ fs_files s' !! (dir, "image.json") = Some (marshal img) /\
     Forall (fun l => exists h c, HexDigest (d_Digest l) = Ok h /\ fs_files s' !! (blobs_dir, h) = Some c /\
               fs_files s' !! carrier_blob dir l = Some c) (i_Layers img)).
Proof.
  intros Hn E.
  set (ok d := fs_files s ⊆ d /\ forall q c, d !! q = Some c -> fs_files s !! q = None ->
    fst q = dir \/ fst q = dir +:+ "/blobs").
  assert (ok (<[(dir, "image.json") := marshal img]> (fs_files s))) as HJ.
  { split; [by apply insert_subseteq|]. intros q c Hq Hq0.
    apply lookup_insert_Some in Hq as [[<- _]|[_ Hq]]; [by left|congruence]. }
  assert (forall ls d, linked dir ls (<[(dir, "image.json") := marshal img]> (fs_files s)) d -> ok d) as HL.
  { intros ls d [L1 L2 _ _ _]. destruct HJ as [J1 J2]. split; [by etrans|]. intros q c Hq Hq0.
    destruct (<[(dir, "image.json") := marshal img]> (fs_files s) !! q) as [x|] eqn:Ex; [by eapply J2|].
    destruct (L2 q c Hq Ex) as (l & _ & ->). by right. }
  assert (triple (fun d => d = fs_files s) (Carrier K marshal dir img)
    (fun r d => ok d /\ (r = Ok tt -> linked dir (i_Layers img)
       (<[(dir, "image.json") := marshal img]> (fs_files s)) d)) ok) as HT.
  { unfold Carrier. assert (ok (fs_files s)) as H0 by (split; [done|intros; congruence]).
    apply triple_nop_seq; [by intros e d ->|by intros d ->|].
    apply (triple_bind _ _ _ (fun _ d => d = <[(dir, "image.json") := marshal img]> (fs_files s))).
    - unfold JSON. apply triple_lift_seq; [done|]. intros b [= <-].
      assert (forall d, replaced ".pending-" (dir, "image.json") (marshal img) (fs_files s) d -> ok d) as HR.
      { intros d [->|[->|(t & c & [Ht _] & Htn & ->)]]; [done|done|]. split; [by apply insert_subseteq|].
        intros q c' Hq Hq0. apply lookup_insert_Some in Hq as [[<- _]|[_ Hq]]; [by left|congruence]. }
      eapply triple_weaken; [by apply triple_Atomic| |exact HR].
      intros [[]|e] d; [done|]. intros H. split; [auto|done].
    - intros _. eapply triple_weaken; [apply triple_link_layers| |].
      + intros r d (ls & _ & H & Hr). split; [by eapply HL|]. intros Hok. by rewrite <-(Hr Hok).
      + intros d (ls & _ & H). by eapply HL. }
  specialize (HT s eq_refl). rewrite E in HT.
  assert (ok (fs_files s')) as [O1 O2] by (destruct o as [r|]; [apply HT|done]).
  split_and!; [done|done|]. intros ->. destruct HT as [_ HT]. destruct (HT eq_refl) as [L1 _ _ L4 L5].
  split_and!; [done| |].
  - eapply lookup_weaken; [|exact L1]. apply lookup_insert_eq.
  - eapply Forall_impl; [exact L5|]. intros l (h & Hh & [c Hc] & E'). exists h, c. by rewrite <-E', Hc.
Qed.
End CarrierProofs.

(** ** Listing *)

(** A list of the cached images names every reference once: each entry is a
    record of the store, and each record's reference has an entry. *)
Theorem List_correct (K : Kernel) (unmarshal : string -> result Image) (s s' : FS) (out : list Image) :
  honest K ->
  List K unmarshal s = (Ret (Ok out), s') ->
  fs_files s' = fs_files s /\ NoDup (i_Ref <$> out) /\
  Forall (fun v => exists n, holds refs_dir unmarshal (fs_files s) n v) out /\
  forall n c, fs_files s !! (refs_dir, n) = Some c ->
    exists v, unmarshal c = Ok v /\ i_Ref v ∈ i_Ref <$> out.
Proof. apply list_records_spec. Qed.

(** ** A concrete store

    A short stand-in for SHA-256 and an encoding of records in binary digits,
    to run the store on small inputs. *)
Module Sample.

Definition digit (c : ascii) : ascii :=
  let n := (N_of_ascii c mod 16)%N in ascii_of_N (if (n <? 10)%N then 48 + n else 87 + n)%N.

(** The low halves of the bytes, as [n] hexadecimal digits. *)
Fixpoint hexes (n : nat) (b : string) : string :=
  match n, b with
  | O, _ => ""
  | S n, String c b => String (digit c) (hexes n b)
  | S n, EmptyString => String "0" (hexes n "")
  end.

Definition sha (b : string) : string := hexes 64 b.

Fixpoint bits (p : positive) : string :=
  match p with xH => "" | xO p => String "0" (bits p) | xI p => String "1" (bits p) end.

Fixpoint of_bits (s : string) : positive :=
  match s with
  | EmptyString => xH
  | String c s => if ascii_dec c "0" then xO (of_bits s) else xI (of_bits s)
  end.

Lemma of_bits_bits (p : positive) : of_bits (bits p) = p.
Proof. induction p; simpl; congruence. Qed.

(** Fields one after the other: every byte of a string is marked, and so are
    the elements of a list. *)
Fixpoint put_str (s k : string) : string :=
  match s with EmptyString => String "|" k | String c s => String "." (String c (put_str s k)) end.
Fixpoint get_str (t : string) : option (string * string) :=
  match t with
  | String a (String c k as t') =>
      if ascii_dec a "." then '(s, r) ← get_str k; Some (String c s, r) else Some ("", t')
  | String _ EmptyString => Some ("", "")
  | EmptyString => None
  end.

Definition put_Z (z : Z) (k : string) : string :=
  match z with
  | Z0 => String "0" k
  | Zpos p => String "+" (put_str (bits p) k)
  | Zneg p => String "-" (put_str (bits p) k)
  end.
Definition get_Z (t : string) : option (Z * string) :=
  match t with
  | EmptyString => None
  | String a k =>
      if ascii_dec a "0" then Some (0, k)
      else '(s, r) ← get_str k; Some (if ascii_dec a "+" then Zpos (of_bits s) else Zneg (of_bits s), r)
  end.

Fixpoint put_list {A} (put : A -> string -> string) (l : list A) (k : string) : string :=
  match l with [] => String "-" k | x :: l => String "+" (put x (put_list put l k)) end.
Fixpoint get_list {A} (get : string -> option (A * string)) (fuel : nat) (t : string)
  : option (list A * string) :=
  match fuel, t with
  | S fuel, String a k =>
      if ascii_dec a "+"
      then '(x, r) ← get k; '(l, r') ← get_list get fuel r; Some (x :: l, r')
      else Some ([], k)
  | _, _ => None
  end.

Definition put_desc (l : Descriptor) (k : string) : string :=
  put_str (d_Digest l) (put_Z (d_Size l) (put_str (d_MediaType l) k)).
Definition get_desc (t : string) : option (Descriptor * string) :=
  '(d, t) ← get_str t; '(n, t) ← get_Z t; '(m, t) ← get_str t; Some (mkDescriptor d n m, t).

Definition put_strs := put_list put_str.
Definition get_strs (t : string) := get_list get_str (String.length t) t.

Definition marshal (i : Image) : string :=
  let c := i_Config i in
  put_str (i_Ref i) (put_str (i_Digest i) (put_strs (ic_Entrypoint c) (put_strs (ic_Cmd c)
    (put_strs (ic_Env c) (put_str (ic_User c) (put_str (ic_WorkingDir c) (put_str (ic_StopSignal c)
      (put_strs (ic_Volumes c) (put_Z (if ic_Healthcheck c then 1 else 0)
        (put_list put_desc (i_Layers i) (put_strs (i_DiffIDs i) (put_str (i_Manifest i) "")))))))))))).

Definition get_image (t : string) : option Image :=
  '(r, t) ← get_str t; '(d, t) ← get_str t; '(e, t) ← get_strs t; '(c, t) ← get_strs t;
  '(v, t) ← get_strs t; '(u, t) ← get_str t; '(w, t) ← get_str t; '(g, t) ← get_str t;
  '(vs, t) ← get_strs t; '(h, t) ← get_Z t; '(ls, t) ← get_list get_desc (String.length t) t;
  '(ds, t) ← get_strs t; '(m, t) ← get_str t;
  Some (mkImage r d (mkImageConfig e c v u w g vs (h =? 1)) ls ds m).

Definition unmarshal (s : string) : result Image :=
  match get_image s with Some i => Ok i | None => Err (Errorf "unexpected end of JSON input") end.

Lemma get_put_str (s k : string) : get_str (put_str s k) = Some (s, k).
Proof. induction s as [|c s IH]; simpl; [by destruct k|]. by rewrite IH. Qed.

Lemma get_put_Z (z : Z) (k : string) : get_Z (put_Z z k) = Some (z, k).
Proof. destruct z; simpl; [done|..]; rewrite get_put_str; simpl; by rewrite of_bits_bits. Qed.

Lemma get_put_desc (l : Descriptor) (k : string) : get_desc (put_desc l k) = Some (l, k).
Proof.
  unfold get_desc, put_desc. rewrite get_put_str. simpl. rewrite get_put_Z. simpl. rewrite get_put_str.
  by destruct l.
Qed.

Lemma put_list_length {A} (put : A -> string -> string) (l : list A) (k : string) :
  (forall x k, String.length k <= String.length (put x k))%nat ->
  (length l < String.length (put_list put l k))%nat.
Proof.
  intros Hp. induction l as [|x l IH]; simpl; [lia|]. specialize (Hp x (put_list put l k)). lia.
Qed.

Lemma get_put_list {A} (put : A -> string -> string) (get : string -> option (A * string)) (l : list A)
    (k : string) (n : nat) :
  (forall x k, get (put x k) = Some (x, k)) -> (length l < n)%nat ->
  get_list get n (put_list put l k) = Some (l, k).
Proof.
  intros Hg. revert n. induction l as [|x l IH]; intros [|n] Hn; simpl in *; try lia; [done|].
  rewrite Hg. simpl. rewrite IH by lia. done.
Qed.

Lemma put_str_length (s k : string) : (String.length k <= String.length (put_str s k))%nat.
Proof. induction s; simpl; lia. Qed.

Lemma put_desc_length (l : Descriptor) (k : string) : (String.length k <= String.length (put_desc l k))%nat.
Proof.
  unfold put_desc. etrans; [|apply put_str_length].
  assert (forall z k, String.length k <= String.length (put_Z z k))%nat as HZ.
  { intros [|p|p] k'; simpl; [lia|..]; pose proof (put_str_length (bits p) k'); lia. }
  etrans; [|apply HZ]. apply put_str_length.
Qed.

Lemma get_put_strs (l : list string) (k : string) : get_strs (put_strs l k) = Some (l, k).
Proof. apply get_put_list; [apply get_put_str|]. apply put_list_length, put_str_length. Qed.

Lemma unmarshal_marshal (i : Image) : unmarshal (marshal i) = Ok (stored id i).
Proof.
  unfold unmarshal, get_image, marshal. cbv zeta.
  repeat first [rewrite get_put_str; simpl | rewrite get_put_strs; simpl | rewrite get_put_Z; simpl].
  rewrite get_put_list; [simpl|apply get_put_desc|apply put_list_length, put_desc_length].
  rewrite get_put_strs. simpl. rewrite get_put_str. simpl. by destruct i as [? ? [? ? ? ? ? ? ? []] ? ? ?].
Qed.

Lemma sha_length (b : string) : String.length (sha b) = 64%nat.
Proof.
  unfold sha. generalize 64%nat. intros n. revert b.
  induction n as [|n IH]; intros [|c b]; simpl; [done..| |]; by rewrite IH.
Qed.

Lemma sha_digits (b : string) : forallb hex_any (String.list_ascii_of_string (sha b)) = true.
Proof.
  unfold sha. generalize 64%nat. intros n. revert b.
  induction n as [|n IH]; intros [|c b]; try done; [apply (IH "")|].
  cbn [hexes String.list_ascii_of_string forallb]. rewrite IH, andb_true_r.
  by destruct c as [[] [] [] [] [] [] [] []].
Qed.

Definition tokens (_ : string) : list (result token) := [Ok TOpen; Ok TClose].
Definition config_file (_ : string) : result ConfigFile :=
  Ok (mkConfigFile "linux" "amd64" (mkImageConfig ["/bin/app"] [] [] "" "" "" [] false) ["sha256:aa"]).
Definition manifest_file (_ : string) : result Manifest := Ok (mkManifest 2 (Digest sha "{}")).

Definition layer (content : string) : RemoteLayer :=
  mkRemoteLayer (Ok (Digest sha content)) (Ok (Z.of_nat (String.length content))) (Ok "tar")
    (Ok (mkStream content None)).

(** An image whose manifest is [m], with one layer. *)
Definition image (m content : string) : RemoteImage :=
  mkRemoteImage (Ok m) (Ok "{}") (Ok (Digest sha m)) (Ok [layer content]).

Definition import (K : Kernel) (ref : string) (img : RemoteImage) (s : FS) : outcome Image * FS :=
  importImage K sha marshal tokens manifest_file config_file (fun _ => None) ref img s.

Definition empty : FS := mkFS ∅ 0.
Definition one : FS := snd (import calm "app" (image "1" "tar1") empty).
Definition app : Image :=
  mkImage "app" (Digest sha "1") (mkImageConfig ["/bin/app"] [] [] "" "" "" [] false)
    [mkDescriptor (Digest sha "tar1") 4 "tar"] ["sha256:aa"] "1".

Lemma import_one : import calm "app" (image "1" "tar1") empty = (Ret (Ok app), one).
Proof. vm_cast_no_check (@eq_refl (outcome Image * FS) (Ret (Ok app), one)). Qed.

Lemma remove_one : Remove calm sha unmarshal "app" one = (Ret (Ok tt), mkFS ∅ 39).
Proof. vm_cast_no_check (@eq_refl (outcome unit * FS) (Ret (Ok tt), mkFS ∅ 39)). Qed.

Lemma calm_honest : honest calm.
Proof. intros t e n H. discriminate H. Qed.
End Sample.

Lemma importImage_correct_witness :
  Sample.import calm "app" (Sample.image "1" "tar1") Sample.empty = (Ret (Ok Sample.app), Sample.one) /\
  readable Sample.sha Sample.unmarshal (fs_files Sample.one) "app" (stored id Sample.app).
Proof.
  split; [exact Sample.import_one|].
  assert (sized Sample.sha (fun _ => 4) (fs_files Sample.empty)) as H1.
  { intros h c Hc. unfold Sample.empty in Hc. simpl in Hc. rewrite lookup_empty in Hc. discriminate. }
  assert (forall ls, ri_Layers (Sample.image "1" "tar1") = Ok ls -> Forall (announced (fun _ => 4)) ls) as H2.
  { intros ls [= <-]. constructor; [|constructor]. intros dg n [= <-] [= <-]. reflexivity. }
  destruct (importImage_correct calm Sample.sha Sample.sha_length Sample.sha_digits Sample.marshal Sample.unmarshal id
    Sample.unmarshal_marshal Sample.tokens Sample.manifest_file Sample.config_file (fun _ => 4) (fun _ => None) "app"
    (Sample.image "1" "tar1") Sample.empty Sample.one (Ret (Ok Sample.app)) H1 H2 Sample.import_one) as (_ & _ & H).
  exact (proj1 (H Sample.app eq_refl)).
Defined.

Lemma Remove_correct_witness :
  exists img, readable Sample.sha Sample.unmarshal (fs_files Sample.one) "app" img /\
    all_gone refs_dir Sample.unmarshal i_Digest layer_keys Blob img (fs_files (mkFS ∅ 39)).
Proof.
  destruct (Remove_correct calm Sample.sha Sample.unmarshal "app" Sample.one (mkFS ∅ 39) (Ret (Ok tt))
    Sample.calm_honest Sample.remove_one) as (_ & _ & H).
  exact (H eq_refl).
Defined.

Lemma Carrier_correct_witness :
  exists s', Carrier calm Sample.marshal "run" Sample.app Sample.one = (Ret (Ok tt), s') /\
    NoDup (d_Digest <$> i_Layers Sample.app).
Proof.
  set (s' := snd (Carrier calm Sample.marshal "run" Sample.app Sample.one)).
  assert (Carrier calm Sample.marshal "run" Sample.app Sample.one = (Ret (Ok tt), s')) as E
    by (vm_cast_no_check (@eq_refl (outcome unit * FS) (Ret (Ok tt), s'))).
  assert (fs_files Sample.one !! ("run", "image.json") = None) as Hn
    by (vm_cast_no_check (@eq_refl (option string) None)).
  exists s'. split; [exact E|].
  destruct (Carrier_correct calm Sample.marshal "run" Sample.app Sample.one s' (Ret (Ok tt)) Hn E) as (_ & _ & H).
  exact (proj1 (H eq_refl)).
Defined.

Lemma List_correct_witness :
  exists out s', List calm Sample.unmarshal Sample.one = (Ret (Ok out), s') /\ NoDup (i_Ref <$> out).
Proof.
  set (s' := snd (List calm Sample.unmarshal Sample.one)).
  assert (List calm Sample.unmarshal Sample.one = (Ret (Ok [Sample.app]), s')) as E
    by (vm_cast_no_check (@eq_refl (outcome (list Image) * FS) (Ret (Ok [Sample.app]), s'))).
  exists [Sample.app], s'. split; [exact E|].
  exact (proj1 (proj2 (List_correct calm Sample.unmarshal Sample.one s' [Sample.app] Sample.calm_honest E))).
Defined.

Module Findings.
Import Sample.
(** The reference [zoo] pulled twice, with a new image the second time. *)
Definition repulled : FS :=
  snd (import calm "zoo" (image "2" "tar2") (snd (import calm "zoo" (image "1" "tar1") empty))).

(** A kernel under which the process dies in call [n]. *)
Definition dies_at (n : nat) : Kernel :=
  mkKernel (fun t => if (t =? n)%nat then Crash 3 else Good) (fun t => pretty t).

(** The store with [app] cached, after the process died while it wrote a
    record of a second image. *)
Definition torn : FS := snd (import (dies_at 42) "zoo" (image "2" "tar2") one).
End Findings.

(** The list of images can name a stale image: after [zoo] was pulled a second
    time, [Get] returns the new image, while [List] reports the old one for the
    same reference, since the record named by the old digest still carries the
    reference and comes first in the directory. *)
Theorem List_stale :
  fst (List calm Sample.unmarshal Findings.repulled) =
    Ret (Ok [mkImage "zoo" (Digest Sample.sha "1") (i_Config Sample.app) (i_Layers Sample.app)
                     (i_DiffIDs Sample.app) "1"]) /\
  match fst (Get calm Sample.sha Sample.unmarshal "zoo" Findings.repulled) with
  | Ret (Ok v) => i_Ref v = "zoo" /\ i_Digest v = Digest Sample.sha "2"
  | _ => False
  end.
Proof. vm_compute. repeat split. Qed.

(** A temporary record left by a crash disables the store: [app] was listed and
    removable before; after the process died while it wrote another record,
    [List] and [Remove app] fail although [app] is intact. *)
Theorem pending_record_blocks :
  fst (List calm Sample.unmarshal Sample.one) = Ret (Ok [Sample.app]) /\
  fst (Get calm Sample.sha Sample.unmarshal "app" Findings.torn) = Ret (Ok Sample.app) /\
  fst (List calm Sample.unmarshal Findings.torn) = Ret (Err (Errorf "unexpected end of JSON input")) /\
  fst (Remove calm Sample.sha Sample.unmarshal "app" Findings.torn) =
    Ret (Err (Errorf "unexpected end of JSON input")).
Proof. vm_compute. repeat split. Qed.
