(* ===== verification/Metadata.v ===== *)
(** * Metadata: bounded registry metadata (internal/oci/metadata.go)

    The transport that bounds what a registry can make the daemon read, and the
    admission of an image in an OCI layout directory.  Responses are read by
    concurrent goroutines: a [Read] reserves its share of the budget, reads
    from the network without holding the lock, and settles afterwards, so that
    the model has one step for each half. *)

From S2P Require Import Prelude GoLib Api Fsutil Oci Fs OciStore.
Import Strings.
Local Open Scope Z_scope.
Local Open Scope go_scope.

Definition maxMetadataResponses : Z := 32.
Definition ErrMetadataLimit : error := Errorf "OCI metadata response limit exceeded".

(** ** The transport *)

Record MetadataTransport : Type := mkTransport {
  t_max : Z;
  t_total : Z;
  t_active : Z;
  t_responses : Z;
  t_used : Z
}.

Definition NewMetadataTransport (max total : Z) : MetadataTransport := mkTransport max total 0 0 0.

(** A response body; [mb_reserved] is the share reserved by a [Read] that
    waits for the network (the body's own lock allows one). *)
Record metadataBody : Type := mkBody { mb_read : Z; mb_reserved : option Z }.

(** [Limit], and the function it returns: [stop] runs its body once. *)
Definition Limit (t : MetadataTransport) : MetadataTransport :=
  mkTransport (t_max t) (t_total t) (int64 (t_active t + 1)) (t_responses t) (t_used t).
Definition stop (t : MetadataTransport) : MetadataTransport :=
  mkTransport (t_max t) (t_total t) (int64 (t_active t - 1)) (t_responses t) (t_used t).

(** [RoundTrip] on a response with [ContentLength] (-1 when it is unknown):
    whether the body is limited, or the refusal. *)
Definition RoundTrip (t : MetadataTransport) (resp : result Z) : MetadataTransport * result bool :=
  match resp with
  | Err e => (t, Err e)
  | Ok length =>
      if t_active t <=? 0 then (t, Ok false) else
      let t := mkTransport (t_max t) (t_total t) (t_active t) (int64 (t_responses t + 1)) (t_used t) in
      if (maxMetadataResponses <? t_responses t) || (t_max t <? 0) || (t_total t <? 0) ||
         (t_max t <? length) || ((0 <=? length) && (int64 (t_total t - t_used t) <? length))
      then (t, Err ErrMetadataLimit)
      else (t, Ok true)
  end.

(** The first half of [Read] with a buffer of [len] bytes: how much may be
    read. *)
Definition reserve (t : MetadataTransport) (b : metadataBody) (len : Z) : result Z :=
  let perRemaining := int64 (t_max t - mb_read b) in
  let totalRemaining := int64 (t_total t - t_used t) in
  if (perRemaining <? 0) || (totalRemaining <? 0) then Err ErrMetadataLimit else
  let allowed := len in
  let allowed := if int64 (perRemaining + 1) <? allowed then int64 (perRemaining + 1) else allowed in
  let allowed := if int64 (totalRemaining + 1) <? allowed then int64 (totalRemaining + 1) else allowed in
  if allowed <=? 0 then Err ErrMetadataLimit else Ok allowed.

Definition add_used (t : MetadataTransport) (n : Z) : MetadataTransport :=
  mkTransport (t_max t) (t_total t) (t_active t) (t_responses t) (int64 (t_used t + n)).

(** The second half: [n] bytes of the [allowed] were read, the reader said
    [e]. *)
Definition settle (t : MetadataTransport) (b : metadataBody) (allowed n : Z) (e : option error)
  : MetadataTransport * metadataBody * option error :=
  let t := add_used t (- int64 (allowed - n)) in
  let b := mkBody (int64 (mb_read b + n)) None in
  (t, b, if (t_max t <? mb_read b) || (t_total t <? t_used t) then Some ErrMetadataLimit else e).

(** ** Interleaved reads

    The transport and its limited bodies; [step] is one atomic section of some
    goroutine. *)
Definition state : Type := MetadataTransport * list metadataBody.

Inductive step : state -> state -> Prop :=
| step_Limit t bs : step (t, bs) (Limit t, bs)
| step_stop t bs : 0 < t_active t -> step (t, bs) (stop t, bs)
| step_RoundTrip t bs resp t' r :
    RoundTrip t resp = (t', r) ->
    step (t, bs) (t', if bool_decide (r = Ok true) then bs ++ [mkBody 0 None] else bs)
| step_reserve t bs i b len allowed :
    bs !! i = Some b -> mb_reserved b = None -> 0 < len <= max_int64 ->
    reserve t b len = Ok allowed ->
    step (t, bs) (add_used t allowed, <[i := mkBody (mb_read b) (Some allowed)]> bs)
| step_settle t bs i b allowed n e t' b' e' :
    bs !! i = Some b -> mb_reserved b = Some allowed -> 0 <= n <= allowed ->
    settle t b allowed n e = (t', b', e') ->
    step (t, bs) (t', <[i := b']> bs).

Definition delivered (bs : list metadataBody) : Z := foldr Z.add 0 (mb_read <$> bs).
Definition reserved (bs : list metadataBody) : Z :=
  foldr Z.add 0 ((fun b => default 0 (mb_reserved b)) <$> bs).

Record bounded (max total : Z) (s : state) : Prop := {
  bd_max : t_max (fst s) = max;
  bd_total : t_total (fst s) = total;
  bd_used : t_used (fst s) = delivered (snd s) + reserved (snd s);
  bd_limit : 0 <= t_used (fst s) <= total + 1;
  bd_bodies : Forall (fun b => 0 <= mb_read b /\ 0 <= default 0 (mb_reserved b) /\
                 mb_read b + default 0 (mb_reserved b) <= max + 1) (snd s)
}.

Lemma sum_insert {A} (f : A -> Z) (l : list A) (i : nat) (x y : A) :
  l !! i = Some x ->
  foldr Z.add 0 (f <$> <[i := y]> l) = foldr Z.add 0 (f <$> l) - f x + f y.
Proof.
  revert i. induction l as [|z l IH]; intros [|i] H; simpl in *; simplify_eq; [lia|].
  specialize (IH i H). unfold fmap in *. lia.
Qed.

Lemma sum_snoc {A} (f : A -> Z) (l : list A) (x : A) :
  foldr Z.add 0 (f <$> (l ++ [x])) = foldr Z.add 0 (f <$> l) + f x.
Proof. induction l as [|z l IH]; simpl; [lia|]. unfold fmap in *. lia. Qed.

Lemma sum_nonneg {A} (f : A -> Z) (l : list A) :
  Forall (fun x => 0 <= f x) l -> 0 <= foldr Z.add 0 (f <$> l).
Proof. induction 1; simpl; unfold fmap in *; lia. Qed.

Lemma sum_elem {A} (f : A -> Z) (l : list A) (i : nat) (x : A) :
  l !! i = Some x -> Forall (fun x => 0 <= f x) l -> f x <= foldr Z.add 0 (f <$> l).
Proof.
  intros Hi Hf. revert i Hi. induction Hf as [|y l Hy Hf IH]; intros [|i] Hi; simplify_eq/=.
  - pose proof (sum_nonneg f l Hf). unfold fmap in *. lia.
  - specialize (IH i Hi). unfold fmap in *. lia.
Qed.

Lemma RoundTrip_budget (t t' : MetadataTransport) (resp : result Z) (r : result bool) :
  RoundTrip t resp = (t', r) -> t_max t' = t_max t /\ t_total t' = t_total t /\ t_used t' = t_used t.
Proof. unfold RoundTrip. intros H. repeat split_match; simplify_eq; done. Qed.

Lemma reserve_ok (t : MetadataTransport) (b : metadataBody) (len allowed : Z) :
  0 <= mb_read b <= t_max t + 1 -> 0 <= t_used t <= t_total t + 1 ->
  0 <= t_max t < 4611686018427387904 -> 0 <= t_total t < 4611686018427387904 ->
  reserve t b len = Ok allowed ->
  0 < allowed <= len /\ mb_read b + allowed <= t_max t + 1 /\ t_used t + allowed <= t_total t + 1.
Proof.
  intros H1 H2 H3 H4. unfold reserve.
  rewrite (int64_id (t_max t - mb_read b)) by (unfold in_int64, max_int64, two63; lia).
  rewrite (int64_id (t_total t - t_used t)) by (unfold in_int64, max_int64, two63; lia).
  rewrite !int64_id by (unfold in_int64, max_int64, two63; lia).
  intros H. ok_inv. bool_prop.
  repeat match goal with H : context [if ?b then _ else _] |- _ => destruct b eqn:? end; bool_prop; lia.
Qed.

Lemma step_bounded (max total : Z) (s s' : state) :
  0 <= max < 4611686018427387904 -> 0 <= total < 4611686018427387904 ->
  step s s' -> bounded max total s -> bounded max total s'.
Proof.
  intros Hm Ht Hstep [H1 H2 H3 H4 H5]. destruct Hstep as [t bs|t bs Ha|t bs resp t' r HR|
    t bs i b len allowed Hi Hn Hl HR|t bs i b allowed n e t' b' e' Hi Ha Hn HS]; simpl in *.
  - by constructor.
  - by constructor.
  - apply RoundTrip_budget in HR as (E1 & E2 & E3). case_bool_decide; [|constructor; simpl; congruence].
    constructor; simpl; [congruence|congruence| |congruence|].
    + rewrite E3, H3. unfold delivered, reserved. rewrite !sum_snoc. simpl. lia.
    + apply Forall_app. split; [done|]. apply Forall_singleton. simpl. lia.
  - pose proof (Forall_lookup_1 _ _ _ _ H5 Hi) as Hb. simpl in Hb. rewrite Hn in Hb. simpl in Hb.
    apply reserve_ok in HR as (R1 & R2 & R3); [|lia..].
    constructor; simpl; [done|done|..].
    + rewrite int64_id by (unfold in_int64, max_int64, two63; lia).
      unfold delivered, reserved in *. rewrite (sum_insert mb_read bs i b _ Hi).
      rewrite (sum_insert (fun b => default 0 (mb_reserved b)) bs i b _ Hi). rewrite Hn. simpl. lia.
    + rewrite int64_id by (unfold in_int64, max_int64, two63; lia). lia.
    + apply Forall_insert; [done|]. simpl. lia.
  - pose proof (Forall_lookup_1 _ _ _ _ H5 Hi) as Hb. simpl in Hb. rewrite Ha in Hb. simpl in Hb.
    unfold settle in HS. injection HS as <- <- _. 
    assert (allowed <= reserved bs) as Hr.
    { replace allowed with (default 0 (mb_reserved b)) by (by rewrite Ha).
      apply (sum_elem (fun b => default 0 (mb_reserved b)) bs i b Hi).
      eapply Forall_impl; [exact H5|]. simpl. lia. }
    assert (0 <= delivered bs) as Hd.
    { apply sum_nonneg. eapply Forall_impl; [exact H5|]. simpl. lia. }
    rewrite (int64_id (allowed - n)) by (unfold in_int64, max_int64, two63; lia).
    rewrite (int64_id (mb_read b + n)) by (unfold in_int64, max_int64, two63; lia).
    constructor; simpl; [done|done|..].
    + rewrite int64_id by (unfold in_int64, max_int64, two63; lia).
      unfold delivered, reserved in *. rewrite (sum_insert mb_read bs i b _ Hi).
      rewrite (sum_insert (fun b => default 0 (mb_reserved b)) bs i b _ Hi). rewrite Ha. simpl. lia.
    + rewrite int64_id by (unfold in_int64, max_int64, two63; lia). lia.
    + apply Forall_insert; [done|]. simpl. lia.
Qed.

(** Responses admitted after [n] steps. *)
Record counted (n : Z) (s : state) : Prop := {
  ct_responses : 0 <= t_responses (fst s) <= n;
  ct_bodies : Z.of_nat (length (snd s)) <= t_responses (fst s);
  ct_limit : Z.of_nat (length (snd s)) <= maxMetadataResponses
}.

Lemma step_counted (n : Z) (s s' : state) :
  n < 4611686018427387904 -> step s s' -> counted n s -> counted (n + 1) s'.
Proof.
  intros Hn Hstep [H1 H2 H3]. destruct Hstep as [t bs|t bs Ha|t bs resp t' r HR|
    t bs i b len allowed Hi Hr Hl HR|t bs i b allowed k e t' b' e' Hi Ha Hk HS]; simpl in *.
  - constructor; simpl; lia.
  - constructor; simpl; lia.
  - unfold RoundTrip in HR. destruct resp as [len|e].
    2: { injection HR as <- <-. rewrite bool_decide_eq_false_2 by done. constructor; simpl; lia. }
    destruct (t_active t <=? 0).
    { injection HR as <- <-. rewrite bool_decide_eq_false_2 by done. constructor; simpl; lia. }
    simpl in HR. rewrite int64_id in HR by (unfold in_int64, max_int64, two63; lia).
    destruct (_ || _) eqn:E.
    + injection HR as <- <-. rewrite bool_decide_eq_false_2 by done. constructor; simpl; lia.
    + injection HR as <- <-. rewrite bool_decide_eq_true_2 by done. bool_prop. simpl in *.
      constructor; simpl; rewrite ?length_app; simpl; lia.
  - constructor; simpl; rewrite ?length_insert; lia.
  - unfold settle in HS. injection HS as <- <- _. constructor; simpl; rewrite ?length_insert; lia.
Qed.

(** However the goroutines interleave, a registry cannot make a pull read more
    than the budgets: the limited bodies deliver at most one byte more than
    [total] together and than [max] each, at most 32 responses are admitted,
    and a read that does not fail with the limit error leaves the body within
    [max] and all of them, with what is still reserved, within [total]. *)
Theorem metadata_bounded (max total : Z) (n : nat) (s : state) :
  0 <= max < 4611686018427387904 -> 0 <= total < 4611686018427387904 -> Z.of_nat n < 4611686018427387904 ->
  nsteps step n (NewMetadataTransport max total, []) s ->
  delivered (snd s) <= total + 1 /\ Forall (fun b => mb_read b <= max + 1) (snd s) /\
  Z.of_nat (length (snd s)) <= maxMetadataResponses /\
  forall i b allowed k e t' b' e',
    snd s !! i = Some b -> mb_reserved b = Some allowed -> 0 <= k <= allowed ->
    settle (fst s) b allowed k e = (t', b', e') -> e' <> Some ErrMetadataLimit ->
    mb_read b' <= max /\ delivered (<[i := b']> (snd s)) + reserved (<[i := b']> (snd s)) <= total.
Proof.
  intros Hm Ht Hn Hsteps.
  assert (bounded max total s /\ counted (Z.of_nat n) s) as [HB HC].
  { revert s Hsteps. induction n as [|n IH]; intros s Hsteps.
    - inversion Hsteps; subst. split; constructor; simpl; unfold delivered, reserved; simpl; try lia; [constructor|].
      unfold maxMetadataResponses. lia.
    - apply nsteps_inv_r in Hsteps as (s1 & Hs1 & Hstep). destruct (IH ltac:(lia) s1 Hs1) as [HB HC].
      split; [by eapply step_bounded|]. replace (Z.of_nat (S n)) with (Z.of_nat n + 1) by lia.
      eapply step_counted; [lia|done|done]. }
  pose proof HB as [B1 B2 B3 B4 B5]. split_and!.
  - assert (0 <= reserved (snd s)); [|lia]. apply sum_nonneg. eapply Forall_impl; [exact B5|]. simpl. lia.
  - eapply Forall_impl; [exact B5|]. simpl. lia.
  - apply HC.
  - intros i b allowed k e t' b' e' Hi Ha Hk HS He. destruct s as [t bs].
    pose proof (step_bounded max total _ _ Hm Ht (step_settle t bs i b allowed k e t' b' e' Hi Ha Hk HS) HB)
      as [C1 C2 C3 C4 C5].
    unfold settle in HS. injection HS as <- <- <-.
    destruct (_ || _) eqn:Eb in He; [done|]. bool_prop. simpl in *. lia.
Qed.

Lemma metadata_bounded_witness :
  delivered [mkBody 5 None] <= 8 + 1 /\ Forall (fun b => mb_read b <= 6 + 1) [mkBody 5 None].
Proof.
  assert (nsteps step 4 (NewMetadataTransport 6 8, []) (mkTransport 6 8 1 1 5, [mkBody 5 None])) as H.
  { eapply nsteps_l; [apply step_Limit|].
    eapply nsteps_l; [eapply (step_RoundTrip _ _ (Ok (-1))); reflexivity|].
    eapply nsteps_l; [eapply (step_reserve _ _ 0%nat (mkBody 0 None) 5 5); [reflexivity|reflexivity|unfold max_int64; lia|reflexivity]|].
    eapply nsteps_l; [eapply (step_settle _ _ 0%nat (mkBody 0 (Some 5)) 5 5 None); [reflexivity|reflexivity|lia|reflexivity]|].
    apply nsteps_O. }
  destruct (metadata_bounded 6 8 4 _ ltac:(lia) ltac:(lia) ltac:(lia) H) as (H1 & H2 & _).
  exact (conj H1 H2).
Defined.

(** ** OCI layout directories *)

(** The descriptors of [v1.IndexManifest] and [v1.Manifest], as far as they
    are read here. *)
Record LayoutDescriptor : Type := mkLayoutDescriptor {
  ld_MediaType : string;
  ld_Size : Z;
  ld_Digest : string;
  ld_Data : string
}.

Definition OCIManifestSchema1 : string := "application/vnd.oci.image.manifest.v1+json".
Definition DockerManifestSchema2 : string := "application/vnd.docker.distribution.manifest.v2+json".

Section Layout.
Variable sha256_hex : string -> string.
Variable tokens : string -> list (result token).
(** The decoders of an index, of a manifest (its config descriptor) and of a
    config file. *)
Variable unmarshal_index : string -> result (list LayoutDescriptor).
Variable unmarshal_manifest : string -> result LayoutDescriptor.
Variable unmarshal_config : string -> result ConfigFile.
(** Opening a file of the layout, by its path below the root. *)
Variable files : string -> result FileView.
(** [layout.FromPath] and [Path.Image] of the registry library. *)
Variable layout_image : string -> result RemoteImage.

(** [layoutBlob] *)
Definition layoutBlob (d : LayoutDescriptor) : result string :=
  guard negb ((ld_Size d <? 0) || (MaxMetadata <? ld_Size d))
    else Errorf "OCI metadata descriptor size limit exceeded" in
  let* hex := HexDigest (ld_Digest d) in
  guard (String.length (ld_Data d) =? 0)%nat else Errorf "inline OCI layout metadata is unsupported" in
  let* raw := ReadFileLimit (files ("blobs/sha256/" +:+ hex)) MaxMetadata in
  guard (Z.of_nat (String.length raw) =? ld_Size d) && bool_decide (Digest sha256_hex raw = ld_Digest d)
    else Errorf "OCI metadata descriptor integrity failure" in
  Ok raw.

(** [LoadLayoutImage] *)
Definition LoadLayoutImage : result RemoteImage :=
  let* layoutRaw := ReadFileLimit (files "oci-layout") MaxMetadata in
  match ValidateJSONComplexity 64 8 4096 (tokens layoutRaw) with
  | Err e => Err (Wrap "invalid OCI layout metadata" e)
  | Ok _ =>
      let* indexRaw := ReadFileLimit (files "index.json") MaxMetadata in
      let* index := decodeMetadata tokens unmarshal_index indexRaw in
      match index with
      | [selected] =>
          guard bool_decide (ld_MediaType selected = OCIManifestSchema1) ||
                bool_decide (ld_MediaType selected = DockerManifestSchema2)
            else Errorf "build/load must select an OCI or Docker schema-2 image" in
          let* manifestRaw := layoutBlob selected in
          let* manifest := decodeMetadata tokens unmarshal_manifest manifestRaw in
          let* configRaw := layoutBlob manifest in
          let* _ := decodeMetadata tokens unmarshal_config configRaw in
          layout_image (ld_Digest selected)
      | _ => Err (Errorf "build/load must contain exactly one platform image")
      end
  end.

(** A metadata object of the layout that may be parsed: a regular file of
    bounded size, whose JSON is one value within the token limits. *)
Definition admitted (name raw : string) : Prop :=
  exists f, files name = Ok f /\ f_regular f = true /\ f_bytes f = raw /\
    Z.of_nat (String.length raw) <= MaxMetadata /\
    ValidateJSONComplexity maxMetadataTokens maxMetadataDepth MaxMetadata (tokens raw) = Ok tt.

Lemma decodeMetadata_ok {A} (dec : string -> result A) (raw : string) (v : A) :
  decodeMetadata tokens dec raw = Ok v ->
  ValidateJSONComplexity maxMetadataTokens maxMetadataDepth MaxMetadata (tokens raw) = Ok tt /\ dec raw = Ok v.
Proof.
  unfold decodeMetadata. intros H. ok_inv. destruct (ValidateJSONComplexity _ _ _ _) as [[]|] eqn:E2; [|done].
  destruct (dec raw) eqn:E3; [|done]. ok_inv. done.
Qed.

Lemma read_metadata_ok (name raw : string) :
  ReadFileLimit (files name) MaxMetadata = Ok raw ->
  exists f, files name = Ok f /\ f_regular f = true /\ f_bytes f = raw /\
    Z.of_nat (String.length raw) <= MaxMetadata.
Proof.
  intros H. apply ReadFileLimit_correct in H as (f & H1 & H2 & -> & H4); [eauto|].
  unfold MaxMetadata, max_int64. lia.
Qed.

Lemma layoutBlob_ok (d : LayoutDescriptor) (raw : string) :
  layoutBlob d = Ok raw ->
  exists h f, ld_Digest d = "sha256:" +:+ h /\ files ("blobs/sha256/" +:+ h) = Ok f /\ f_regular f = true /\
    f_bytes f = raw /\ Z.of_nat (String.length raw) <= MaxMetadata /\
    Digest sha256_hex raw = ld_Digest d /\ ld_Data d = "".
Proof.
  unfold layoutBlob. intros H. ok_inv. bool_prop.
  match goal with H : HexDigest _ = Ok _ |- _ => apply HexDigest_ok in H as (Hd & _) end.
  match goal with H : ReadFileLimit _ _ = Ok _ |- _ => apply read_metadata_ok in H as (f & ? & ? & ? & ?) end.
  exists a, f. split_and!; try done.
  match goal with H : (_ =? 0)%nat = true |- _ => apply Nat.eqb_eq in H end.
  by destruct (ld_Data d).
Qed.

(** An image is taken from a layout directory only when the index names
    exactly one image manifest, and the index, the manifest and the config are
    regular files of bounded size and complexity; the manifest and the config
    are the files named by their digests and have these digests, so what was
    checked is what the registry library reads. *)
Theorem LoadLayoutImage_correct (img : RemoteImage) :
  LoadLayoutImage = Ok img ->
  exists indexRaw selected manifestRaw manifest configRaw cfg h h',
    admitted "index.json" indexRaw /\ unmarshal_index indexRaw = Ok [selected] /\
    (ld_MediaType selected = OCIManifestSchema1 \/ ld_MediaType selected = DockerManifestSchema2) /\
    ld_Digest selected = "sha256:" +:+ h /\ admitted ("blobs/sha256/" +:+ h) manifestRaw /\
    Digest sha256_hex manifestRaw = ld_Digest selected /\ unmarshal_manifest manifestRaw = Ok manifest /\
    ld_Digest manifest = "sha256:" +:+ h' /\ admitted ("blobs/sha256/" +:+ h') configRaw /\
    Digest sha256_hex configRaw = ld_Digest manifest /\ unmarshal_config configRaw = Ok cfg /\
    layout_image (ld_Digest selected) = Ok img.
Proof.
  unfold LoadLayoutImage. intros H. ok_inv. destruct (ValidateJSONComplexity 64 _ _ _); [|done]. ok_inv.
  destruct a2 as [|selected [|]]; [done| |done]. ok_inv.
  match goal with H : decodeMetadata _ unmarshal_index _ = Ok _ |- _ => apply decodeMetadata_ok in H as [V1 U1] end.
  match goal with H : decodeMetadata _ unmarshal_manifest _ = Ok _ |- _ => apply decodeMetadata_ok in H as [V2 U2] end.
  match goal with H : decodeMetadata _ unmarshal_config _ = Ok _ |- _ => apply decodeMetadata_ok in H as [V3 U3] end.
  match goal with H : ReadFileLimit (files "index.json") _ = Ok _ |- _ => apply read_metadata_ok in H as (f1 & ? & ? & ? & ?) end.
  match goal with H : layoutBlob selected = Ok _ |- _ => apply layoutBlob_ok in H as (h & f2 & ? & ? & ? & ? & ? & ? & ?) end.
  match goal with H : layoutBlob _ = Ok _ |- _ => apply layoutBlob_ok in H as (h' & f3 & ? & ? & ? & ? & ? & ? & ?) end.
  do 8 eexists. split_and!; try eassumption; unfold admitted; eauto 10.
  match goal with H : _ || _ = true |- _ => apply orb_true_iff in H as [?|?]; bool_prop; auto end.
Qed.
End Layout.

Module SampleLayout.
Definition describe (raw : string) : LayoutDescriptor :=
  mkLayoutDescriptor OCIManifestSchema1 (Z.of_nat (String.length raw)) (Digest Sample.sha raw) "".
Definition files (name : string) : result FileView :=
  if bool_decide (name = "blobs/sha256/" +:+ Sample.sha "mf") then Ok (mkFileView true 2 "mf")
  else if bool_decide (name = "blobs/sha256/" +:+ Sample.sha "{}") then Ok (mkFileView true 2 "{}")
  else Ok (mkFileView true 1 "x").
Definition load : result RemoteImage :=
  LoadLayoutImage Sample.sha Sample.tokens (fun _ => Ok [describe "mf"]) (fun _ => Ok (describe "{}"))
    Sample.config_file files (fun _ => Ok (Sample.image "mf" "tar1")).
End SampleLayout.

Lemma LoadLayoutImage_correct_witness :
  exists indexRaw, admitted Sample.tokens SampleLayout.files "index.json" indexRaw.
Proof.
  assert (SampleLayout.load = Ok (Sample.image "mf" "tar1")) as E by (vm_compute; reflexivity).
  destruct (LoadLayoutImage_correct Sample.sha Sample.tokens (fun _ => Ok [SampleLayout.describe "mf"])
    (fun _ => Ok (SampleLayout.describe "{}")) Sample.config_file SampleLayout.files
    (fun _ => Ok (Sample.image "mf" "tar1")) (Sample.image "mf" "tar1") E) as (r & _ & _ & _ & _ & _ & _ & _ & H & _).
  exists r. exact H.
Defined.
