(* ===== verification/Base.v ===== *)
(** * Base: signed VM bases (internal/base/base.go)

    The signed configuration of a base, its validation, signing and
    verification.  JSON encoding, base64 and Ed25519 are parameters of a
    section, with the documented behaviour the code relies on as hypotheses of
    the theorems that need it. *)

From S2P Require Import Prelude GoLib Api Fsutil Oci.
Local Open Scope Z_scope.
Local Open Scope go_scope.

Record Config : Type := mkConfig {
  c_SchemaVersion : Z;
  c_OS : string;
  c_Architecture : string;
  c_AgentProtocol : Z;
  c_InitPath : string;
  c_Runtime : string;
  c_GuestReserveMiB : Z;
  c_FirecrackerVersions : list string;
  c_Kernel : Descriptor;
  c_RootFS : Descriptor
}.

Record Signed : Type := mkSigned {
  sg_Config : Config;
  sg_KeyID : string;
  sg_Signature : string
}.

Record Bundle : Type := mkBundle {
  b_Ref : string;
  b_Digest : string;
  b_Signed : Signed;
  b_KernelPath : string;
  b_RootFSPath : string
}.

(** The checks on one component descriptor. *)
Definition validate_component (d : Descriptor) : result unit :=
  let* _ := HexDigest (d_Digest d) in
  if (d_Size d <=? 0) || (MaxBlob <? d_Size d)
  then Err (Errorf "invalid base artifact size") else Ok tt.

(** [base.Validate] *)
Definition ValidateConfig (c : Config) : result unit :=
  guard (c_SchemaVersion c =? 1) && bool_decide (c_OS c = "linux") &&
        bool_decide (c_Architecture c = "amd64") && (c_AgentProtocol c =? Protocol)
    else Errorf "incompatible base schema/platform/protocol" in
  guard bool_decide (c_InitPath c = "/sbin/niflhel-init") && bool_decide (c_Runtime c = "runc")
    else Errorf "unsupported base init/runtime" in
  guard negb ((c_GuestReserveMiB c <? 64) || (4096 <? c_GuestReserveMiB c))
    else Errorf "invalid guest memory reserve" in
  guard (0 <? Z.of_nat (length (c_FirecrackerVersions c)))
    else Errorf "base must declare qualified Firecracker versions" in
  all_ok validate_component [c_Kernel c; c_RootFS c].

Section Crypto.
(** [json.Marshal] of a configuration, base64 (standard encoding) and Ed25519
    signing and verification on byte strings. *)
Variable marshal : Config -> string.
Variable b64_encode : string -> string.
Variable b64_decode : string -> result string.
Variable ed_sign : string -> string -> string.
Variable ed_verify : string -> string -> string -> bool.

(** [Sign] *)
Definition Sign (c : Config) (keyID key : string) : result Signed :=
  let* _ := ValidateConfig c in
  guard (String.length key =? 64)%nat else Errorf "invalid Ed25519 key" in
  Ok (mkSigned c keyID (b64_encode (ed_sign key (marshal c)))).

(** [Store.Verify]; a missing key reads as the empty string from the map. *)
Definition Verify (trust : gmap string string) (v : Signed) : result unit :=
  let* _ := ValidateConfig (sg_Config v) in
  match b64_decode (default "" (trust !! sg_KeyID v)) with
  | Err _ => Err (Errorf "untrusted base publisher %q")
  | Ok pub =>
      guard (String.length pub =? 32)%nat else Errorf "untrusted base publisher %q" in
      match b64_decode (sg_Signature v) with
      | Err _ => Err (Errorf "invalid base signature encoding")
      | Ok sig =>
          guard (String.length sig =? 64)%nat && bool_decide (sg_Signature v = b64_encode sig)
            else Errorf "invalid base signature encoding" in
          guard ed_verify pub (marshal (sg_Config v)) sig else Errorf "invalid base signature" in
          Ok tt
      end
  end.
End Crypto.

(** The part of a validated configuration the rest of the program relies on. *)
Record valid_config (c : Config) : Prop := {
  vc_platform : c_SchemaVersion c = 1 /\ c_OS c = "linux" /\ c_Architecture c = "amd64" /\
                c_AgentProtocol c = Protocol;
  vc_runtime : c_InitPath c = "/sbin/niflhel-init" /\ c_Runtime c = "runc";
  vc_reserve : 64 <= c_GuestReserveMiB c <= 4096;
  vc_versions : c_FirecrackerVersions c <> [];
  vc_components : Forall (fun d => is_ok (HexDigest (d_Digest d)) = true /\ 0 < d_Size d <= MaxBlob)
                    [c_Kernel c; c_RootFS c]
}.

Lemma ValidateConfig_ok (c : Config) : ValidateConfig c = Ok tt -> valid_config c.
Proof.
  unfold ValidateConfig. intros H. ok_inv. bool_prop. split; try done; try lia.
  - intros Hn. rewrite Hn in *. simpl in *. lia.
  - apply all_ok_spec in H. eapply Forall_impl; [done|]. intros d Hd.
    unfold validate_component in Hd. destruct (HexDigest (d_Digest d)); [|done]. simpl in Hd.
    ok_inv. bool_prop. split; [done|lia].
Qed.

Section CryptoFacts.
Variable marshal : Config -> string.
Variable b64_encode : string -> string.
Variable b64_decode : string -> result string.
Variable ed_sign : string -> string -> string.
Variable ed_verify : string -> string -> string -> bool.

Definition published (trust : gmap string string) (v : Signed) : Prop :=
  valid_config (sg_Config v) /\
  exists pub sig, b64_decode (default "" (trust !! sg_KeyID v)) = Ok pub /\
    String.length pub = 32%nat /\ String.length sig = 64%nat /\ sg_Signature v = b64_encode sig /\
    ed_verify pub (marshal (sg_Config v)) sig = true.

Lemma Verify_published (trust : gmap string string) (v : Signed) :
  Verify marshal b64_encode b64_decode ed_verify trust v = Ok tt -> published trust v.
Proof.
  unfold Verify. intros H. ok_inv. split; [by apply ValidateConfig_ok; destruct a|].
  destruct (b64_decode (default _ _)) as [pub|]; [|done].
  ok_inv. destruct (b64_decode (sg_Signature v)) as [sig|]; [|done]. ok_inv.
  bool_prop. exists pub, sig. split_and!; try done; by apply Nat.eqb_eq.
Qed.

(** A base that passes verification is valid, was published under a key
    the operator trusts, carries a signature in canonical base64 and the
    signature verifies over the encoded configuration under that key. *)
Theorem Verify_sound (trust : gmap string string) (v : Signed) :
  Verify marshal b64_encode b64_decode ed_verify trust v = Ok tt ->
  valid_config (sg_Config v) /\
  exists pub sig, b64_decode (default "" (trust !! sg_KeyID v)) = Ok pub /\
    String.length pub = 32%nat /\ String.length sig = 64%nat /\ sg_Signature v = b64_encode sig /\
    ed_verify pub (marshal (sg_Config v)) sig = true.
Proof. apply Verify_published. Qed.

(** Base64 decodes what it encodes; Ed25519 signatures are 64 bytes and verify
    under the public key of the signing key. *)
Hypothesis b64_roundtrip : forall s, b64_decode (b64_encode s) = Ok s.
Hypothesis ed_length : forall key m, String.length (ed_sign key m) = 64%nat.
Variable public : string -> string.
Hypothesis ed_correct : forall key m, ed_verify (public key) m (ed_sign key m) = true.

(** What [Sign] produces, [Verify] accepts in every store that trusts the
    matching public key under the same key identifier. *)
Theorem Sign_Verify (trust : gmap string string) (c : Config) (keyID key : string) (v : Signed) :
  Sign marshal b64_encode ed_sign c keyID key = Ok v ->
  trust !! keyID = Some (b64_encode (public key)) -> String.length (public key) = 32%nat ->
  Verify marshal b64_encode b64_decode ed_verify trust v = Ok tt.
Proof.
  unfold Sign, Verify. intros H Ht Hl. ok_inv. simpl. rewrite Ht. simpl.
  rewrite !b64_roundtrip, Hl, ed_length. destruct (ValidateConfig c) eqn:Ev; [|done]. simpl.
  by rewrite bool_decide_eq_true_2, ed_correct.
Qed.
End CryptoFacts.

Definition hex64 : string := "0123456789abcdef0123456789abcdef0123456789abcdef0123456789abcdef".
Definition sample_config : Config :=
  mkConfig 1 "linux" "amd64" 1 "/sbin/niflhel-init" "runc" 128 ["1.16.1"]
    (mkDescriptor ("sha256:" +:+ hex64) 1000 "k") (mkDescriptor ("sha256:" +:+ hex64) 2000 "r").
(** A toy scheme with the shape of Ed25519: a signature is the secret key. *)
Definition toy_public (key : string) : string := Strings.take_str 32 hex64.
Definition toy_trust : gmap string string := {[ "team" := toy_public "" ]}.

Lemma Sign_Verify_witness :
  Verify (fun _ => "cfg") (fun s => s) (fun s => Ok s) (fun _ _ s => bool_decide (s = hex64))
    toy_trust (mkSigned sample_config "team" hex64) = Ok tt.
Proof.
  apply (Sign_Verify (fun _ => "cfg") (fun s => s) (fun s => Ok s) (fun _ _ => hex64)
           (fun _ _ s => bool_decide (s = hex64)) ltac:(reflexivity) ltac:(reflexivity)
           toy_public ltac:(intros; vm_compute; reflexivity) toy_trust sample_config "team" hex64);
    vm_compute; reflexivity.
Defined.

Lemma Verify_sound_witness :
  valid_config sample_config /\
  exists pub sig, Ok (default "" (toy_trust !! "team")) = Ok pub /\
    String.length pub = 32%nat /\ String.length sig = 64%nat /\ hex64 = sig /\
    bool_decide (sig = hex64) = true.
Proof.
  apply (Verify_sound (fun _ => "cfg") (fun s => s) (fun s => Ok s)
           (fun _ _ s => bool_decide (s = hex64)) toy_trust (mkSigned sample_config "team" hex64)).
  vm_compute. reflexivity.
Defined.
