(* ===== verification/BaseStore.v ===== *)
(** * BaseStore: the cache of signed guest bases (internal/base/base.go)

    A bundle is a signed description of a kernel and a root file system, with
    the two files named by their digests.  The store runs over the files of
    [Fs]; path strings are relative to its root, and [file_of] gives the
    directory and the name.  Verification is that of [Base]; SHA-256, JSON and
    the registry are parameters. *)

From S2P Require Import Prelude GoLib Api Fsutil Oci Fs RefStore OciStore Base.
Import Strings.
Local Open Scope Z_scope.
Local Open Scope go_scope.

Definition ArtifactType : string := "application/vnd.niflhel.base.v1".
Definition MaxSignedMetadata : Z := 1048576.   (* 1 << 20 *)
Definition maxSignedTokens : Z := 4096.
Definition maxSignedDepth : Z := 16.
Definition maxSignedStringBytes : Z := 262144.

Definition base_refs : string := "refs/".
Definition base_blobs : string := "blobs/".

(** A path as a directory (with its slash) and a name without one. *)
Fixpoint file_of (p : string) : path :=
  match p with
  | EmptyString => ("", "")
  | String c r =>
      let '(d, n) := file_of r in
      if bool_decide (d = "") && negb (Ascii.eqb c "/") then ("", String c n)
      else (String c d, n)
  end.

Lemma file_of_app (p : string) : fst (file_of p) +:+ snd (file_of p) = p.
Proof.
  induction p as [|c p IH]; [done|]. simpl. destruct (file_of p) as [d n]. simpl in IH.
  destruct (_ && _) eqn:E; cbn; [bool_prop; by subst|]. by rewrite <-IH.
Qed.

Lemma file_of_inj (p q : string) : file_of p = file_of q -> p = q.
Proof. intros H. by rewrite <-(file_of_app p), H, file_of_app. Qed.

Record descriptor : Type := mkdescriptor { de_MediaType : string; de_Digest : string; de_Size : Z }.
Record manifest : Type := mkmanifest {
  m_SchemaVersion : Z;
  m_ArtifactType : string;
  m_Config : descriptor;
  m_Layers : list descriptor
}.

(** What the registry answers: the raw manifest of the reference and the blob
    of a digest. *)
Record BaseRemote : Type := mkBaseRemote {
  br_Manifest : result string;
  br_Blob : string -> result Stream
}.

(** [io.ReadAll(io.LimitReader(r, n))] *)
Definition ReadAllLimit (r : Stream) (n : Z) : result string :=
  let data := take_str (Z.to_nat n) (st_data r) in
  match st_error r with
  | Some e => if Z.of_nat (String.length data) <? n then Err e else Ok data
  | None => Ok data
  end.

(** The check of [checkKernel] on the first bytes of a file. *)
Definition byte_at (s : string) (i : nat) : N := match String.get i s with Some c => N_of_ascii c | None => 0%N end.
Definition is_kernel (c : string) : result unit :=
  guard (20 <=? String.length c)%nat else Errorf "unexpected EOF" in
  guard String.eqb (take_str 4 c) (String (ascii_of_N 127) "ELF") && (byte_at c 4 =? 2)%N &&
        (byte_at c 5 =? 1)%N && (byte_at c 18 =? 62)%N && (byte_at c 19 =? 0)%N
    else Errorf "kernel must be an amd64 ELF vmlinux" in
  Ok tt.

Section Store.
Variable K : Kernel.
Variable sha256_hex : string -> string.
Variable trust : gmap string string.
(** [json] and base64 codecs, Ed25519. *)
Variable marshal_config : Config -> string.
Variable b64_encode : string -> string.
Variable b64_decode : string -> result string.
Variable ed_verify : string -> string -> string -> bool.
Variable marshal_signed : Signed -> string.
Variable marshal : Bundle -> string.
Variable unmarshal : string -> result Bundle.
(** The strict decoder of [ParseSigned], and whether nothing follows the
    value. *)
Variable tokens : string -> list (result token).
Variable decode_signed : string -> result Signed.
Variable nothing_follows : string -> bool.
Variable unmarshal_manifest : string -> result manifest.

#[local] Notation Verify := (Verify marshal_config b64_encode b64_decode ed_verify trust).

(** [Store.record] *)
Definition record (ref : string) : path := (base_refs, drop_str 7 (Digest sha256_hex ref) +:+ ".json").

(** The check of one component in [Get]. *)
Definition check_component (p : string) (d : Descriptor) : M unit :=
  r ← try (DigestFile K (Digest sha256_hex) (file_of p));
  match r with
  | Ok (actual, n) =>
      if bool_decide (actual <> d_Digest d) || negb (n =? d_Size d)
      then lift (Err (Errorf "corrupt base component")) else mret tt
  | Err _ => lift (Err (Errorf "corrupt base component"))
  end.

(** [Store.Get] *)
Definition Get (ref : string) : M Bundle :=
  b ← ReadJSON K unmarshal (record ref);
  lift (Verify (b_Signed b)) ;;
  check_component (b_KernelPath b) (c_Kernel (sg_Config (b_Signed b))) ;;
  check_component (b_RootFSPath b) (c_RootFS (sg_Config (b_Signed b))) ;;
  mret b.

(** [checkKernel] *)
Definition checkKernel (p : string) : M unit :=
  c ← ReadData K (file_of p);
  lift (is_kernel c).

(** One iteration of the loop of [Import]: copy a component into the store. *)
Definition import_component (source : string) (d : Descriptor) : M string :=
  let target := base_blobs +:+ drop_str 7 (d_Digest d) in
  c ← ReadData K (file_of source);
  WriteVerified K sha256_hex (file_of target) (mkStream c None) d ;;
  mret target.

(** [Store.Import] *)
Definition Import (ref : string) (v : Signed) (kernel rootfs : string) : M Bundle :=
  lift (Verify v) ;;
  kp ← import_component kernel (c_Kernel (sg_Config v));
  rp ← import_component rootfs (c_RootFS (sg_Config v));
  checkKernel kp ;;
  let b := mkBundle ref (Digest sha256_hex (marshal_signed v)) v kp rp in
  JSON K (fun i => Ok (marshal i)) (record (b_Digest b)) b ;;
  JSON K (fun i => Ok (marshal i)) (record ref) b ;;
  mret b.

(** [ParseSigned] *)
Definition ParseSigned (raw : string) : result Signed :=
  guard negb (MaxSignedMetadata <? Z.of_nat (String.length raw))
    else Errorf "base signed metadata size limit exceeded" in
  match ValidateJSONComplexity maxSignedTokens maxSignedDepth maxSignedStringBytes (tokens raw) with
  | Err e => Err (Wrap "invalid base signed metadata" e)
  | Ok _ =>
      match decode_signed raw with
      | Err e => Err (Wrap "invalid base signed metadata" e)
      | Ok v => if nothing_follows raw then Ok v else Err (Errorf "invalid base signed metadata")
      end
  end.

(** The closure [readBlob] of [Pull]. *)
Definition readBlob (remote : BaseRemote) (d : descriptor) : result Stream :=
  let* _ := HexDigest (de_Digest d) in
  br_Blob remote (de_Digest d).

(** The part of [Pull] before it writes: the manifest and the signed
    description of a base. *)
Definition fetch_signed (remote : BaseRemote) : result (manifest * Signed) :=
  let* raw := br_Manifest remote in
  guard negb (MaxSignedMetadata <? Z.of_nat (String.length raw)) else Errorf "manifest too large" in
  match ValidateJSONComplexity maxSignedTokens maxSignedDepth maxSignedStringBytes (tokens raw) with
  | Err e => Err (Wrap "invalid base manifest" e)
  | Ok _ =>
      let* m := unmarshal_manifest raw in
      guard bool_decide (m_ArtifactType m = ArtifactType) && (m_SchemaVersion m =? 2) &&
            (length (m_Layers m) =? 2)%nat
        else Errorf "not a niflhel base artifact" in
      guard negb ((de_Size (m_Config m) <=? 0) || (MaxSignedMetadata <? de_Size (m_Config m)))
        else Errorf "invalid base config size" in
      let* r := readBlob remote (m_Config m) in
      let* raw := ReadAllLimit r (int64 (de_Size (m_Config m) + 1)) in
      guard (Z.of_nat (String.length raw) =? de_Size (m_Config m)) &&
            bool_decide (Digest sha256_hex raw = de_Digest (m_Config m))
        else Errorf "base config integrity failure" in
      let* signed := ParseSigned raw in
      let* _ := Verify signed in
      Ok (m, signed)
  end.

(** The directory of [os.MkdirTemp(s.Root, "pull-")], and its removal, which
    may stop after [n] files. *)
Definition in_dir (dir : string) (d : disk) : list path :=
  filter (fun q => fst q = dir) (fst <$> map_to_list d).
Definition MkdirTemp : M string :=
  os K (fun t d =>
    let dir := "pull-" +:+ k_random K t +:+ "/" in
    match in_dir dir d with [] => (Ok dir, d) | _ => (Err ErrExists, d) end) untouched.
Definition RemoveAll (dir : string) : M unit :=
  os K (fun _ d => (Ok tt, foldr delete d (in_dir dir d)))
       (fun n d => foldr delete d (take n (in_dir dir d))).

(** One iteration of the download loop of [Pull]. *)
Definition pull_component (remote : BaseRemote) (tmp : string) (i : nat) (layers : list descriptor) (d : Descriptor)
  : M path :=
  l ← lift (match layers !! i with Some l => Ok l | None => Err (Errorf "index out of range") end);
  if bool_decide (de_Digest l <> d_Digest d) || negb (de_Size l =? d_Size d)
  then lift (Err (Errorf "signed base descriptors do not match manifest")) else
  r ← lift (readBlob remote l);
  let p := (tmp, Strconv.Itoa (Z.of_nat i)) in
  WriteVerified K sha256_hex p r d ;;
  mret p.

(** [Store.Pull]: [parse] is [name.ParseReference]. *)
Definition Pull (parse : string -> result unit) (remote : string -> BaseRemote) (ref policy : string) : M Bundle :=
  let fetch :=
    lift (parse ref) ;;
    ms ← lift (fetch_signed (remote ref));
    let '(m, signed) := ms in
    try (nop K) ;;
    tmp ← MkdirTemp;
    defer (RemoveAll tmp)
      (k ← pull_component (remote ref) tmp 0 (m_Layers m) (c_Kernel (sg_Config signed));
       r ← pull_component (remote ref) tmp 1 (m_Layers m) (c_RootFS (sg_Config signed));
       Import ref signed (fst k +:+ snd k) (fst r +:+ snd r)) in
  if bool_decide (policy = "always") then fetch
  else
    r ← try (Get ref);
    match r with
    | Ok b => mret b
    | Err e => if bool_decide (policy = "never") then lift (Err e) else fetch
    end.

(** [Store.List] *)
Definition List : M (list Bundle) := list_records K base_refs unmarshal b_Ref.

(** The two files of a bundle, as keys of [used]. *)
Definition bundle_files (b : Bundle) : list string := [b_KernelPath b; b_RootFSPath b].

(** [Store.Remove] *)
Definition Remove (ref : string) : M unit :=
  b ← Get ref;
  remove_record K base_refs unmarshal b_Digest bundle_files (fun p => Ok (file_of p)) b.
End Store.

(** ** Theorems *)

Definition no_slash (n : string) : Prop := forallb (fun c => negb (Ascii.eqb c "/")) (String.list_ascii_of_string n) = true.

Lemma file_of_name (n : string) : no_slash n -> file_of n = ("", n).
Proof.
  unfold no_slash. induction n as [|c n IH]; [done|]. simpl. intros [Hc Hn]%andb_prop.
  rewrite IH by done. rewrite Hc. done.
Qed.

Lemma hex_no_slash (h : string) : forallb hex_any (String.list_ascii_of_string h) = true -> no_slash h.
Proof.
  unfold no_slash. rewrite !forallb_forall. intros H c Hc. specialize (H c Hc).
  destruct (Ascii.eqb_spec c "/") as [->|]; done.
Qed.

Lemma file_of_blob (h : string) : no_slash h -> file_of (base_blobs +:+ h) = (base_blobs, h).
Proof. intros H. unfold base_blobs. simpl. by rewrite file_of_name. Qed.

Section StoreProofs.
Context (K : Kernel) (sha256_hex : string -> string) (trust : gmap string string).
Hypothesis sha_length : forall b, String.length (sha256_hex b) = 64%nat.
Hypothesis sha_digits : forall b, forallb hex_any (String.list_ascii_of_string (sha256_hex b)) = true.
Context (marshal_config : Config -> string) (b64_encode : string -> string)
        (b64_decode : string -> result string) (ed_verify : string -> string -> string -> bool).
Context (marshal_signed : Signed -> string) (marshal : Bundle -> string) (unmarshal : string -> result Bundle).
Hypothesis unmarshal_marshal : forall b, unmarshal (marshal b) = Ok b.

#[local] Notation dig := (Digest sha256_hex).
#[local] Notation rec := (record sha256_hex).
#[local] Notation Verify := (Verify marshal_config b64_encode b64_decode ed_verify trust).
#[local] Notation published := (published marshal_config b64_encode b64_decode ed_verify trust).
#[local] Notation kernel_of b := (c_Kernel (sg_Config (b_Signed b))).
#[local] Notation rootfs_of b := (c_RootFS (sg_Config (b_Signed b))).

(** The file [p] is the component [l]. *)
Definition component (d : disk) (p : string) (l : Descriptor) : Prop :=
  exists c, d !! file_of p = Some c /\ dig c = d_Digest l /\ Z.of_nat (String.length c) = d_Size l.

(** [ref] resolves to [b], which is verified and complete. *)
Definition usable (d : disk) (ref : string) (b : Bundle) : Prop :=
  (exists c, d !! rec ref = Some c /\ unmarshal c = Ok b) /\ Verify (b_Signed b) = Ok tt /\
  component d (b_KernelPath b) (kernel_of b) /\ component d (b_RootFSPath b) (rootfs_of b).

Lemma base_record_name (ref : string) : rec ref = (base_refs, sha256_hex ref +:+ ".json").
Proof. unfold record, Digest. by rewrite drop_sha. Qed.

Lemma base_record_plain (ref : string) : HasPrefix (snd (rec ref)) ".pending-" = false.
Proof. apply (OciStore.record_plain sha256_hex sha_length sha_digits ref ".pending-"). done. Qed.

Lemma triple_check_component (d0 : disk) (p : string) (l : Descriptor) :
  triple (fun d => d = d0) (check_component K sha256_hex p l)
    (fun r d => d = d0 /\ (r = Ok tt -> component d0 p l)) (fun d => d = d0).
Proof.
  unfold check_component. apply (triple_bind _ _ _ (fun r d => (forall h n, r = Ok (h, n) ->
    exists c, d0 !! file_of p = Some c /\ h = dig c /\ n = Z.of_nat (String.length c)) /\ d = d0)).
  { apply triple_try. eapply triple_weaken; [apply triple_DigestFile| |done]. by intros r d [-> H]. }
  intros r. apply triple_pure. intros Hr s Hs.
  destruct r as [[h n]|]; [|by split]. destruct (_ || _) eqn:Eb; simpl; [by split|]. split; [done|].
  intros _. bool_prop. destruct (Hr h n eq_refl) as (c & Hc & -> & ->).
  exists c. split_and!; try done. by apply dec_stable.
Qed.

Lemma triple_base_Get (d0 : disk) (ref : string) :
  triple (fun d => d = d0)
    (Get K sha256_hex trust marshal_config b64_encode b64_decode ed_verify unmarshal ref)
    (fun r d => d = d0 /\ forall b, r = Ok b -> usable d0 ref b) (fun d => d = d0).
Proof.
  unfold Get. apply (triple_bind _ _ _ (fun b d =>
    (exists c, d0 !! rec ref = Some c /\ unmarshal c = Ok b) /\ d = d0)).
  { eapply triple_weaken; [apply triple_ReadJSON| |done]. intros [b|e] d [-> H]; [|done]. split; [by apply H|done]. }
  intros b. apply triple_pure. intros Hc.
  apply triple_lift_seq; [done|intros [] Hv].
  apply (triple_bind _ _ _ (fun _ d => component d0 (b_KernelPath b) (kernel_of b) /\ d = d0)).
  { eapply triple_weaken; [apply triple_check_component| |done]. intros [[]|e] d [-> H]; [by auto|done]. }
  intros _. apply triple_pure. intros Hk.
  apply (triple_bind _ _ _ (fun _ d => component d0 (b_RootFSPath b) (rootfs_of b) /\ d = d0)).
  { eapply triple_weaken; [apply triple_check_component| |done]. intros [[]|e] d [-> H]; [by auto|done]. }
  intros _. apply triple_pure. intros Hr s Hs. simpl. split; [done|]. intros b' [= <-]. by split_and!.
Qed.

(** ** Importing *)

(** The file of a component in the store. *)
Definition blob_of (l : Descriptor) : path := (base_blobs, drop_str 7 (d_Digest l)).

(** What importing [b] may do to one file. *)
Definition change_ok (b : Bundle) (q : path) (old new : option string) : Prop :=
  new = old \/
  ((is_temp base_blobs ".download-" q \/ is_temp base_refs ".pending-" q) /\ old = None) \/
  (exists l c, (l = kernel_of b \/ l = rootfs_of b) /\ q = blob_of l /\ new = Some c /\
     dig c = d_Digest l /\ Z.of_nat (String.length c) = d_Size l) \/
  ((q = rec (b_Digest b) \/ q = rec (b_Ref b)) /\ new = Some (marshal b)).

Definition kept (b : Bundle) (d0 d : disk) : Prop := forall q, change_ok b q (d0 !! q) (d !! q).

Lemma kept_refl (b : Bundle) (d : disk) : kept b d d.
Proof. intros q. by left. Qed.

Lemma kept_put (b : Bundle) (d0 d : disk) (q : path) (c : string) :
  change_ok b q (d0 !! q) (Some c) -> kept b d0 d -> kept b d0 (<[q := c]> d).
Proof.
  intros Hc Hk q'. destruct (decide (q' = q)) as [->|Hne]; [by rewrite lookup_insert_eq|].
  rewrite lookup_insert_ne by done. apply Hk.
Qed.

Lemma kept_temp (b : Bundle) (d0 d d' : disk) (dir pre : string) :
  (dir = base_blobs /\ pre = ".download-") \/ (dir = base_refs /\ pre = ".pending-") ->
  with_temp dir pre d d' -> kept b d0 d -> kept b d0 d'.
Proof.
  intros Hd (t & c & Ht & Hn & ->) Hk. apply kept_put; [|done]. right. left.
  split; [destruct Hd as [[-> ->]|[-> ->]]; auto|].
  destruct (Hk t) as [E|[[_ E]|[(l & c' & _ & _ & E & _)|[_ E]]]]; congruence.
Qed.

Lemma kept_component (b : Bundle) (d0 d : disk) (l : Descriptor) (c : string) :
  l = kernel_of b \/ l = rootfs_of b -> dig c = d_Digest l -> Z.of_nat (String.length c) = d_Size l ->
  kept b d0 d -> kept b d0 (<[blob_of l := c]> d).
Proof. intros Hl Hc Hs. apply kept_put. right. right. left. exists l, c. auto. Qed.

Lemma file_of_component (l : Descriptor) :
  is_ok (HexDigest (d_Digest l)) = true ->
  file_of (base_blobs +:+ drop_str 7 (d_Digest l)) = blob_of l.
Proof.
  intros H. destruct (HexDigest (d_Digest l)) as [h|] eqn:Eh; [|done].
  apply HexDigest_ok in Eh as (Hd & _ & Hh). unfold blob_of. rewrite Hd, drop_sha.
  by apply file_of_blob, hex_no_slash.
Qed.

Definition refs_same (d1 d : disk) : Prop := forall q, fst q = base_refs -> d !! q = d1 !! q.

Lemma triple_import_component (b : Bundle) (d0 d1 : disk) (source : string) (l : Descriptor) :
  l = kernel_of b \/ l = rootfs_of b -> is_ok (HexDigest (d_Digest l)) = true -> kept b d0 d1 ->
  triple (fun d => d = d1) (import_component K sha256_hex source l)
    (fun r d => (kept b d0 d /\ refs_same d1 d) /\ forall p, r = Ok p ->
       p = base_blobs +:+ drop_str 7 (d_Digest l) /\ file_of p = blob_of l /\
       exists c, dig c = d_Digest l /\ Z.of_nat (String.length c) = d_Size l /\ d = <[blob_of l := c]> d1)
    (fun d => kept b d0 d /\ refs_same d1 d).
Proof.
  intros Hl Hx Hk. pose proof (file_of_component l Hx) as Hf.
  assert (forall c, refs_same d1 (<[blob_of l := c]> d1)) as HR.
  { intros c q Hq. rewrite lookup_insert_ne; [done|]. by intros <-. }
  assert (forall d, with_temp base_blobs ".download-" d1 d -> refs_same d1 d) as HR'.
  { intros d (t & c & [Ht _] & _ & ->) q Hq. rewrite lookup_insert_ne; [done|]. intros <-. by rewrite Hq in Ht. } destruct (HexDigest (d_Digest l)) as [h|] eqn:Eh; [|done].
  apply HexDigest_ok in Eh as (Hd & Hlen & Hh).
  unfold import_component. rewrite Hf.
  apply (triple_bind _ _ _ (fun _ d => d = d1)).
  { eapply triple_weaken; [apply triple_ReadData| |intros d ->; done]. intros [c|e] d [-> _]; [done|by split]. }
  intros c0. apply (triple_bind _ _ _ (fun _ d => (kept b d0 d /\ refs_same d1 d) /\
    exists c, dig c = d_Digest l /\ Z.of_nat (String.length c) = d_Size l /\ d = <[blob_of l := c]> d1)).
  { eapply triple_weaken; [apply triple_WriteVerified| |].
    - unfold blob_of. rewrite Hd, drop_sha. apply hex_name_first; [done|simpl; lia|done].
    - intros [[]|e] d; simpl.
      + intros (c & H1 & H2 & ->). split; [split; [by apply kept_component|done]|eauto].
      + intros [->|H]; (split; [|done]); [done|]. split; [|auto]. eapply kept_temp; [by left|done|done].
    - intros d [->|[H|(c & H1 & H2 & ->)]]; [done| |split; [by apply kept_component|done]].
      split; [|auto]. eapply kept_temp; [by left|exact H|done]. }
  intros _ s [H1 H2]. simpl. split; [done|]. intros p [= <-]. auto.
Qed.

(** Storing a record of the bundle. *)
Lemma triple_put_bundle (b : Bundle) (d0 d1 : disk) (r : string) :
  r = b_Digest b \/ r = b_Ref b -> kept b d0 d1 ->
  triple (fun d => d = d1) (JSON K (fun i => Ok (marshal i)) (rec r) b)
    (fun res d => (kept b d0 d /\ (forall q, fst q <> base_refs -> d !! q = d1 !! q)) /\
       (res = Ok tt -> d = <[rec r := marshal b]> d1))
    (fun d => kept b d0 d /\ forall q, fst q <> base_refs -> d !! q = d1 !! q).
Proof.
  intros Hr Hk. unfold JSON. apply triple_lift_seq; [done|]. intros x [= <-].
  assert (forall d, replaced ".pending-" (rec r) (marshal b) d1 d ->
    kept b d0 d /\ forall q, fst q <> base_refs -> d !! q = d1 !! q) as HR.
  { intros d [->|[->|H]]; [done| |].
    - split; [apply kept_put; [|done]; right; right; right; split; [|done]; destruct Hr as [-> | ->]; auto|].
      intros q Hq. rewrite lookup_insert_ne; [done|]. intros <-. by rewrite base_record_name in Hq.
    - split; [eapply kept_temp; [by right|by rewrite base_record_name in H|done]|].
      destruct H as (t & c & [Ht _] & _ & ->). intros q Hq. rewrite lookup_insert_ne; [done|].
      intros <-. by rewrite base_record_name in Ht. }
  eapply triple_weaken; [apply triple_Atomic, base_record_plain| |exact HR].
  intros [[]|e] d; [|intros H; split; [auto|done]]. intros ->. split; [apply HR; by right; left|done].
Qed.

(** Both components of [b] are in the store. *)
Definition complete (b : Bundle) (d : disk) : Prop :=
  component d (b_KernelPath b) (kernel_of b) /\ component d (b_RootFSPath b) (rootfs_of b).

Lemma complete_refs (b : Bundle) (d d' : disk) :
  file_of (b_KernelPath b) = blob_of (kernel_of b) -> file_of (b_RootFSPath b) = blob_of (rootfs_of b) ->
  (forall q, fst q <> base_refs -> d' !! q = d !! q) -> complete b d -> complete b d'.
Proof.
  intros Hk Hr H [(c & H1 & H2) (c' & H3 & H4)].
  split; [exists c|exists c']; (split; [|done]); rewrite H; try done; by rewrite ?Hk, ?Hr.
Qed.

(** The state of an import: allowed changes only, and the records of [b] are
    untouched or [b] is complete. *)
Definition importing (b : Bundle) (d0 d : disk) : Prop :=
  kept b d0 d /\
  ((forall r, d !! rec r = d0 !! rec r) \/ complete b d).

Lemma kept_records (b : Bundle) (d0 d : disk) :
  kept b d0 d -> (forall q, fst q = base_refs -> d !! q = d0 !! q) -> importing b d0 d.
Proof. intros Hk Hq. split; [done|]. left. intros r. apply Hq. by rewrite base_record_name. Qed.

(** The bundle [Import] builds. *)
Definition bundle_for (ref : string) (v : Signed) : Bundle :=
  mkBundle ref (dig (marshal_signed v)) v
    (base_blobs +:+ drop_str 7 (d_Digest (c_Kernel (sg_Config v))))
    (base_blobs +:+ drop_str 7 (d_Digest (c_RootFS (sg_Config v)))).

Lemma blob_of_inj (l l' : Descriptor) :
  is_ok (HexDigest (d_Digest l)) = true -> is_ok (HexDigest (d_Digest l')) = true ->
  blob_of l = blob_of l' -> d_Digest l = d_Digest l'.
Proof.
  intros H H' E. apply (f_equal snd) in E. change (drop_str 7 (d_Digest l) = drop_str 7 (d_Digest l')) in E.
  destruct (HexDigest (d_Digest l)) eqn:E1; [|done]. destruct (HexDigest (d_Digest l')) eqn:E2; [|done].
  apply HexDigest_ok in E1 as (E1 & _). apply HexDigest_ok in E2 as (E2 & _).
  rewrite E1, E2, !drop_sha in E. congruence.
Qed.

Lemma component_put (d : disk) (p c : string) (l l' : Descriptor) :
  component d p l -> file_of p = blob_of l -> is_ok (HexDigest (d_Digest l)) = true ->
  is_ok (HexDigest (d_Digest l')) = true -> (d_Digest l = d_Digest l' -> d_Size l = d_Size l') ->
  dig c = d_Digest l' -> Z.of_nat (String.length c) = d_Size l' ->
  component (<[blob_of l' := c]> d) p l.
Proof.
  intros (c0 & H1 & H2 & H3) Hp Hh Hh' Hs Hc Hl. unfold component. rewrite Hp in *.
  destruct (decide (blob_of l = blob_of l')) as [E|Hne].
  - pose proof (blob_of_inj l l' Hh Hh' E) as Hd.
    rewrite E, lookup_insert_eq. exists c. rewrite Hs by done. split_and!; congruence.
  - rewrite lookup_insert_ne by done. eauto.
Qed.

Lemma triple_base_Import (sizes : string -> Z) (d0 : disk) (ref : string) (v : Signed) (kernel rootfs : string) :
  Forall (fun l => d_Size l = sizes (d_Digest l)) [c_Kernel (sg_Config v); c_RootFS (sg_Config v)] ->
  let b := bundle_for ref v in
  triple (fun d => d = d0)
    (Import K sha256_hex trust marshal_config b64_encode b64_decode ed_verify marshal_signed marshal
       ref v kernel rootfs)
    (fun r d => importing b d0 d /\ forall b', r = Ok b' ->
       b' = b /\ Verify v = Ok tt /\ complete b d /\ d !! rec ref = Some (marshal b) /\
       d !! rec (b_Digest b) = Some (marshal b) /\
       exists c, d !! file_of (b_KernelPath b) = Some c /\ is_kernel c = Ok tt)
    (importing b d0).
Proof.
  intros Hs b. apply Forall_cons in Hs as [Hs1 Hs2]. apply Forall_cons in Hs2 as [Hs2 _].
  unfold Import.
  apply triple_lift_seq; [intros e d _ ->; split; [apply kept_records; [apply kept_refl|done]|done]|intros [] Hv].
  destruct (Verify_published _ _ _ _ _ _ Hv) as [Hval _].
  apply vc_components in Hval. apply Forall_cons in Hval as [[Hx1 _] Hval]. apply Forall_cons in Hval as [[Hx2 _] _].
  apply (triple_bind _ _ _ (fun kp d => (kept b d0 d /\ refs_same d0 d) /\
    kp = b_KernelPath b /\ file_of kp = blob_of (kernel_of b) /\ component d kp (kernel_of b))).
  { eapply triple_weaken; [apply (triple_import_component b d0 d0 kernel (kernel_of b)); [auto|done|apply kept_refl]| |].
    - intros [kp|e] d [[H1 H2] H3]; [|split; [by apply kept_records|done]].
      destruct (H3 kp eq_refl) as (-> & Hf & c & Hc & Hl & ->). split_and!; try done.
      exists c. rewrite Hf, lookup_insert_eq. done.
    - intros d [H1 H2]. by apply kept_records. }
  intros kp. apply triple_from. intros d1 [[HK1 HR1] (-> & Hf1 & Hc1)].
  apply (triple_bind _ _ _ (fun rp d => (kept b d0 d /\ refs_same d0 d) /\
    rp = b_RootFSPath b /\ file_of rp = blob_of (rootfs_of b) /\ complete b d)).
  { eapply triple_weaken; [apply (triple_import_component b d0 d1 rootfs (rootfs_of b)); [auto|done|done]| |].
    - intros [rp|e] d [[H1 H2] H3].
      + destruct (H3 rp eq_refl) as (-> & Hf & c & Hc & Hl & ->). split_and!; try done.
        * intros q Hq. rewrite H2, HR1; done.
        * split; [apply component_put; try done; simpl; intros Hd; by rewrite Hs1, Hs2, Hd|].
          exists c. change (file_of (b_RootFSPath b) = blob_of (rootfs_of b)) in Hf.
          rewrite Hf, lookup_insert_eq. done.
      + split; [|done]. apply kept_records; [done|]. intros q Hq. rewrite H2, HR1; done.
    - intros d [H1 H2]. apply kept_records; [done|]. intros q Hq. rewrite H2, HR1; done. }
  intros rp. apply triple_from. intros d2 [[HK2 HR2] (-> & Hf2 & Hc2)].
  assert (importing b d0 d2) as HI2 by by apply kept_records.
  apply (triple_bind _ _ _ (fun _ d => (exists c, d2 !! file_of (b_KernelPath b) = Some c /\ is_kernel c = Ok tt) /\ d = d2)).
  { unfold checkKernel. apply (triple_bind _ _ _ (fun c d => d2 !! file_of (b_KernelPath b) = Some c /\ d = d2)).
    - eapply triple_weaken; [apply triple_ReadData| |intros d ->; done]. intros [c|e] d [-> H]; [auto|by split].
    - intros c. apply triple_pure. intros Hc s Hs. simpl. rewrite Hs. destruct (is_kernel c) as [[]|] eqn:E; [eauto|by split]. }
  intros _. apply triple_pure. intros (ck & Hck & Hisk).
  assert (forall d, (kept b d0 d /\ forall q, fst q <> base_refs -> d !! q = d2 !! q) -> importing b d0 d /\ complete b d) as HC.
  { intros d [H1 H2]. assert (complete b d) by by apply (complete_refs b d2). split; [split; auto|done]. }
  apply (triple_bind _ _ _ (fun _ d => d = <[rec (b_Digest b) := marshal b]> d2)).
  { eapply triple_weaken; [apply (triple_put_bundle b d0 d2 (b_Digest b)); auto| |intros d H; by apply HC].
    intros [[]|e] d [H1 H2]; [by apply H2|]. split; [by apply HC|done]. }
  intros _. set (d3 := <[rec (b_Digest b) := marshal b]> d2).
  assert (kept b d0 d3) as HK3 by (apply kept_put; [right; right; right; auto|done]).
  assert (forall q, fst q <> base_refs -> d3 !! q = d2 !! q) as HR3.
  { intros q Hq. unfold d3. rewrite lookup_insert_ne; [done|]. intros <-. by rewrite base_record_name in Hq. }
  assert (forall d, (kept b d0 d /\ forall q, fst q <> base_refs -> d !! q = d3 !! q) -> importing b d0 d /\ complete b d) as HC'.
  { intros d [H1 H2]. apply HC. split; [done|]. intros q Hq. by rewrite H2, HR3. }
  apply (triple_bind _ _ _ (fun _ d => d = <[rec ref := marshal b]> d3)).
  { eapply triple_weaken; [apply (triple_put_bundle b d0 d3 ref); auto| |intros d H; by apply HC'].
    intros [[]|e] d [H1 H2]; [by apply H2|]. split; [by apply HC'|done]. }
  intros _ s Hd. simpl. rewrite Hd.
  assert (kept b d0 (<[rec ref := marshal b]> d3) /\
    forall q, fst q <> base_refs -> <[rec ref := marshal b]> d3 !! q = d3 !! q) as HF.
  { split; [apply kept_put; [right; right; right; auto|done]|].
    intros q Hq. rewrite lookup_insert_ne; [done|]. intros <-. by rewrite base_record_name in Hq. }
  destruct (HC' _ HF) as [HI HCo]. split; [done|]. intros b' [= <-].
  split_and!; [done|done|done|apply lookup_insert_eq| |].
  - apply lookup_insert_Some. destruct (decide (rec ref = rec (b_Digest b))) as [E|Hne]; [by left|].
    right. split; [done|]. apply lookup_insert_eq.
  - exists ck. split; [|done]. destruct HF as [_ HF]. change (<[rec ref := marshal b]> d3 !! file_of (b_KernelPath b) = Some ck).
    rewrite Hf1 in *. rewrite HF, HR3; done.
Qed.

(** The records of the store name files by the digests they sign, and agree
    about the size of a digest. *)
Definition consistent (sizes : string -> Z) (d : disk) : Prop :=
  forall n b, holds base_refs unmarshal d n b ->
    Forall (fun '(p, l) => file_of p = blob_of l /\ is_ok (HexDigest (d_Digest l)) = true /\
              d_Size l = sizes (d_Digest l))
      [(b_KernelPath b, kernel_of b); (b_RootFSPath b, rootfs_of b)].

(** A component survives an import. *)
Lemma kept_keeps_component (sizes : string -> Z) (b : Bundle) (d0 d : disk) (p : string) (l : Descriptor) :
  kept b d0 d -> file_of p = blob_of l -> is_ok (HexDigest (d_Digest l)) = true ->
  d_Size l = sizes (d_Digest l) ->
  Forall (fun l => is_ok (HexDigest (d_Digest l)) = true /\ d_Size l = sizes (d_Digest l)) [kernel_of b; rootfs_of b] ->
  component d0 p l -> component d p l.
Proof.
  intros Hk Hp Hx Hs Hb (c & Hc & Hd & Hl). unfold component. rewrite Hp in *.
  destruct (Hk (blob_of l)) as [E|[[_ E]|[(l' & c' & Hl' & Eq & E & Hd' & Hs')|[[Eq|Eq] _]]]].
  - rewrite E. eauto.
  - congruence.
  - assert (is_ok (HexDigest (d_Digest l')) = true /\ d_Size l' = sizes (d_Digest l')) as [Hx' Hz].
    { apply Forall_cons in Hb as [Hb1 Hb2]. apply Forall_cons in Hb2 as [Hb2 _]. by destruct Hl' as [-> | ->]. }
    pose proof (blob_of_inj l l' Hx Hx' Eq) as Hdd. exists c'. split_and!; [done|congruence|]. by rewrite Hs', Hz, <-Hdd.
  - rewrite base_record_name in Eq. done.
  - rewrite base_record_name in Eq. done.
Qed.

Lemma usable_holds (d : disk) (ref : string) (b : Bundle) :
  usable d ref b -> holds base_refs unmarshal d (sha256_hex ref +:+ ".json") b.
Proof. intros [(c & Hc & Hu) _]. rewrite base_record_name in Hc. by exists c. Qed.

(** Importing a base is crash safe: whatever fails and wherever the process
    dies, every reference that resolved to a verified and complete base still
    does, to the same one or to the new one.  An import that returns has
    verified the signature against the trusted keys, has stored a kernel that
    is an amd64 ELF image, and makes the reference and the digest resolve to
    the new base.  Assumed is that the records of the store and the new base
    agree about the size of a digest. *)
Theorem base_Import_correct (sizes : string -> Z) (ref : string) (v : Signed) (kernel rootfs : string)
    (s s' : FS) (o : outcome Bundle) :
  consistent sizes (fs_files s) ->
  Forall (fun l => d_Size l = sizes (d_Digest l)) [c_Kernel (sg_Config v); c_RootFS (sg_Config v)] ->
  Import K sha256_hex trust marshal_config b64_encode b64_decode ed_verify marshal_signed marshal
    ref v kernel rootfs s = (o, s') ->
  (forall r b, usable (fs_files s) r b ->
     exists b', usable (fs_files s') r b' /\ (b' = b \/ b_Ref b' = ref)) /\
  (forall b, o = Ret (Ok b) ->
     b_Ref b = ref /\ b_Signed b = v /\ published v /\ usable (fs_files s') ref b /\
     usable (fs_files s') (b_Digest b) b /\
     exists c, fs_files s' !! file_of (b_KernelPath b) = Some c /\ is_kernel c = Ok tt).
Proof.
  intros Hcon Hs E. set (b0 := bundle_for ref v).
  pose proof (triple_base_Import sizes (fs_files s) ref v kernel rootfs Hs s eq_refl) as HT. rewrite E in HT.
  fold b0 in HT. split.
  2: { intros b ->. destruct HT as [_ HT].
    destruct (HT b eq_refl) as (-> & Hv & [Hc1 Hc2] & H1 & H2 & Hk).
    split_and!; try done; [by apply Verify_published|..]; (split; [by eexists; split; [done|apply unmarshal_marshal]|done]). }
  assert (importing b0 (fs_files s) (fs_files s')) as [HK HI] by (destruct o; [apply HT|done]).
  destruct (decide (Verify v = Ok tt)) as [Hv|Hv].
  2: { intros r b Hb. assert (s' = s) as ->; [|by exists b; auto].
    unfold Import, lift, mbind, M_bind in E. destruct (Verify v) as [[]|]; [done|]. by injection E. }
  destruct (Verify_published _ _ _ _ _ _ Hv) as [Hval _]. apply vc_components in Hval.
  assert (Forall (fun l => is_ok (HexDigest (d_Digest l)) = true /\ d_Size l = sizes (d_Digest l))
    [kernel_of b0; rootfs_of b0]) as Hb0.
  { apply Forall_cons in Hval as [[? _] Hval]. apply Forall_cons in Hval as [[? _] _].
    apply Forall_cons in Hs as [? Hs]. apply Forall_cons in Hs as [? _]. repeat constructor; done. }
  intros r b Hb. pose proof (Hcon _ _ (usable_holds _ _ _ Hb)) as Hp.
  apply Forall_cons in Hp as [(P1 & P2 & P3) Hp]. apply Forall_cons in Hp as [(P4 & P5 & P6) _].
  destruct Hb as ((c & Hc & Hu) & Hvb & Hk & Hr).
  assert (component (fs_files s') (b_KernelPath b) (kernel_of b)) as Hk'
    by by apply (kept_keeps_component sizes b0 (fs_files s)).
  assert (component (fs_files s') (b_RootFSPath b) (rootfs_of b)) as Hr'
    by by apply (kept_keeps_component sizes b0 (fs_files s)).
  destruct (decide (fs_files s' !! rec r = fs_files s !! rec r)) as [Eq|Hne].
  { exists b. split; [|by left]. split_and!; try done. exists c. by rewrite Eq. }
  destruct HI as [HI|[HC1 HC2]]; [by rewrite HI in Hne|].
  exists b0. split; [|by right]. split_and!; try done. exists (marshal b0). split; [|done].
  destruct (HK (rec r)) as [?|[[_ ?]|[(l & ? & _ & Eq & _)|[_ ?]]]]; [done|congruence| |done].
  by rewrite base_record_name in Eq.
Qed.

(** Removing a base never harms another one, and when it succeeds no record
    of the base is left and its files are gone unless another base uses
    them. *)
Theorem base_Remove_correct (sizes : string -> Z) (ref : string) (s s' : FS) (o : outcome unit) :
  honest K -> consistent sizes (fs_files s) ->
  Remove K sha256_hex trust marshal_config b64_encode b64_decode ed_verify unmarshal ref s = (o, s') ->
  fs_files s' ⊆ fs_files s /\
  (forall r b, usable (fs_files s) r b ->
     (forall b', usable (fs_files s) ref b' -> b_Digest b <> b_Digest b') -> usable (fs_files s') r b) /\
  (o = Ret (Ok tt) -> exists b, usable (fs_files s) ref b /\
     all_gone base_refs unmarshal b_Digest bundle_files (fun p => Ok (file_of p)) b (fs_files s')).
Proof.
  intros Hh Hcon E. set (d0 := fs_files s).
  assert (separate base_refs unmarshal bundle_files (fun p => Ok (file_of p)) d0) as Hsep.
  { intros n b k p Hb Hin [= <-]. pose proof (Hcon n b Hb) as Hp.
    apply Forall_cons in Hp as [(P1 & _) Hp]. apply Forall_cons in Hp as [(P2 & _) _].
    unfold bundle_files in Hin. rewrite !elem_of_cons in Hin.
    destruct Hin as [->|[->|Hin%not_elem_of_nil]]; [by rewrite P1|by rewrite P2|done]. }
  set (others := others_kept base_refs unmarshal b_Digest bundle_files (fun p => Ok (file_of p))).
  assert (triple (fun d => d = d0)
    (Remove K sha256_hex trust marshal_config b64_encode b64_decode ed_verify unmarshal ref)
    (fun r d => (d = d0 /\ r <> Ok tt) \/ exists b, usable d0 ref b /\ others (b_Digest b) d0 d /\
       (r = Ok tt -> all_gone base_refs unmarshal b_Digest bundle_files (fun p => Ok (file_of p)) b d))
    (fun d => d = d0 \/ exists b, usable d0 ref b /\ others (b_Digest b) d0 d)) as HT.
  { unfold Remove. apply (triple_bind _ _ _ (fun b d => usable d0 ref b /\ d = d0)).
    - eapply triple_weaken; [apply triple_base_Get| |auto]. intros [b|e] d [-> H]; [auto|by left].
    - intros b. apply triple_pure. intros Hb.
      eapply triple_weaken; [eapply (triple_remove_record K base_refs unmarshal b_Digest bundle_files
        (fun p => Ok (file_of p))); [|done|done|by apply usable_holds]| |].
      + intros k k' p [= <-] [= Heq]. symmetry. by apply file_of_inj.
      + intros r d [H1 H2]. right. exists b. auto.
      + intros d H. right. eauto. }
  specialize (HT s eq_refl). rewrite E in HT.
  assert (fs_files s' = d0 \/ exists b, usable d0 ref b /\ others (b_Digest b) d0 (fs_files s')) as HO.
  { destruct o as [r|]; [|done]. destruct HT as [[? _]|(b & ? & ? & _)]; eauto. }
  split_and!.
  - by destruct HO as [->|(b & _ & [? _])].
  - intros r b Hb Hne. destruct HO as [->|(b' & Hb' & [_ Ho])]; [done|].
    destruct (Ho _ b (usable_holds _ _ _ Hb) (Hne b' Hb')) as [(c & Hc & Hu) Hf].
    destruct Hb as (_ & Hv & (c1 & H1 & H1') & (c2 & H2 & H2')). split_and!; [|done|exists c1|exists c2].
    + exists c. by rewrite base_record_name.
    + split; [|done]. rewrite (Hf (b_KernelPath b)); [done|by left|done].
    + split; [|done]. rewrite (Hf (b_RootFSPath b)); [done|by right; left|done].
  - intros ->. destruct HT as [[_ []]|(b & Hb & _ & Hg)]; [done|]. eauto.
Qed.

(** ** Pulling *)

Context (tokens : string -> list (result token)) (decode_signed : string -> result Signed)
        (nothing_follows : string -> bool) (unmarshal_manifest : string -> result manifest).

Lemma triple_any {A : Type} (m : M A) : triple (fun _ => True) m (fun _ _ => True) (fun _ => True).
Proof. intros s _. by destruct (m s) as [[?|] ?]. Qed.

Lemma in_dir_spec (dir : string) (d : disk) (q : path) : q ∈ in_dir dir d -> fst q = dir.
Proof. unfold in_dir. by intros [? _]%list_elem_of_filter. Qed.

Lemma foldr_delete_other (l : list path) (d : disk) (q : path) : q ∉ l -> foldr delete d l !! q = d !! q.
Proof.
  induction l as [|p l IH]; simpl; [done|]. intros Hq. apply not_elem_of_cons in Hq as [H1 H2].
  rewrite lookup_delete_ne; auto.
Qed.

(** What does not depend on the temporary directory survives its removal. *)
Lemma triple_RemoveAll (dir : string) (d0 : disk) :
  triple (fun d => d = d0) (RemoveAll K dir)
    (fun _ d => forall q, fst q <> dir -> d !! q = d0 !! q) (fun _ => True).
Proof.
  apply triple_os; [intros t d -> q Hq|intros d e n -> q Hq|done]; simpl; apply foldr_delete_other.
  - by intros H%in_dir_spec.
  - intros H. apply Hq, (in_dir_spec dir d0). by apply (subseteq_take n) in H.
Qed.

(** A base that [Pull] returns is signed by a trusted publisher and complete. *)
Lemma base_Pull_trusted (parse : string -> result unit) (remote : string -> BaseRemote) (ref policy : string)
    (s s' : FS) (b : Bundle) :
  (forall m v, fetch_signed sha256_hex trust marshal_config b64_encode b64_decode ed_verify tokens
       decode_signed nothing_follows unmarshal_manifest (remote ref) = Ok (m, v) ->
     d_Digest (c_Kernel (sg_Config v)) = d_Digest (c_RootFS (sg_Config v)) ->
     d_Size (c_Kernel (sg_Config v)) = d_Size (c_RootFS (sg_Config v))) ->
  Pull K sha256_hex trust marshal_config b64_encode b64_decode ed_verify marshal_signed marshal unmarshal
    tokens decode_signed nothing_follows unmarshal_manifest parse remote ref policy s = (Ret (Ok b), s') ->
  published (b_Signed b) /\ usable (fs_files s') ref b.
Proof.
  intros Hsz E.
  assert (forall d, usable d ref b -> published (b_Signed b) /\ usable d ref b) as HU.
  { intros d H. split; [|done]. by apply Verify_published, H. }
  apply HU. revert E. unfold Pull. set (fetch := mbind _ _).
  assert (triple (fun _ => True) fetch (fun r d => forall b, r = Ok b -> usable d ref b) (fun _ => True)) as HF.
  { unfold fetch. apply triple_lift_seq; [done|intros _ _]. apply triple_lift_seq; [done|intros [m v] Hf].
    apply (triple_bind _ _ _ (fun _ _ => True)); [apply triple_try, triple_any|intros _].
    apply (triple_bind _ _ _ (fun tmp _ => exists x, tmp = "pull-" +:+ x)).
    { apply triple_os; [|done|done]. intros t d _. simpl. destruct (in_dir _ d); simpl; [|done]. eexists. done. }
    intros tmp. apply triple_from. intros dt [x ->].
    eapply triple_conseq with (P' := fun _ => True); [|done|intros r d H; exact H|done].
    apply (triple_defer _ _ _ (fun r d => forall b, r = Ok b ->
      usable d ref b /\ file_of (b_KernelPath b) = blob_of (kernel_of b) /\
      file_of (b_RootFSPath b) = blob_of (rootfs_of b))).
    - apply (triple_bind _ _ _ (fun _ _ => True)).
      { eapply triple_weaken; [apply triple_any|intros [?|?] ? _; done|done]. }
      intros k. apply (triple_bind _ _ _ (fun _ _ => True)).
      { eapply triple_weaken; [apply triple_any|intros [?|?] ? _; done|done]. }
      intros r. apply triple_from. intros d1 _.
      set (sizes dg := if decide (dg = d_Digest (c_Kernel (sg_Config v))) then d_Size (c_Kernel (sg_Config v))
                       else d_Size (c_RootFS (sg_Config v))).
      eapply triple_weaken; [apply (triple_base_Import sizes)| |done].
      + repeat constructor; unfold sizes; case_decide; try done. symmetry. eauto.
      + intros res d [_ H] b' ->. destruct (H b' eq_refl) as (-> & Hv & [Hc1 Hc2] & H1 & H2 & _).
        assert (Forall (fun l => is_ok (HexDigest (d_Digest l)) = true) [c_Kernel (sg_Config v); c_RootFS (sg_Config v)]) as Hx.
        { destruct (Verify_published _ _ _ _ _ _ Hv) as [Hval _]. apply vc_components in Hval.
          eapply Forall_impl; [exact Hval|]. by intros l [? _]. }
        apply Forall_cons in Hx as [Hx1 Hx2]. apply Forall_cons in Hx2 as [Hx2 _].
        split_and!; [|by apply file_of_component|by apply file_of_component].
        split_and!; try done. by exists (marshal (bundle_for ref v)).
    - intros r. apply triple_from. intros d2 H.
      eapply triple_weaken; [apply triple_RemoveAll| |done].
      intros r' d Hd b' Hb'. destruct (H b' Hb') as (((c & Hc & Hu) & Hv & (c1 & K1 & K1') & (c2 & K2 & K2')) & F1 & F2).
      split_and!; [exists c|done|exists c1|exists c2]; (split; [|done]); rewrite Hd; try done.
      all: by rewrite ?F1, ?F2. }
  intros E. assert (triple (fun _ => True) (Pull K sha256_hex trust marshal_config b64_encode b64_decode ed_verify
    marshal_signed marshal unmarshal tokens decode_signed nothing_follows unmarshal_manifest parse remote ref policy)
    (fun r d => forall b, r = Ok b -> usable d ref b) (fun _ => True)) as HP.
  { unfold Pull. fold fetch. case_bool_decide; [done|].
    apply (triple_bind _ _ _ (fun r d => forall b, r = Ok b -> usable d ref b)).
    - apply triple_try, triple_from. intros d0 _.
      eapply triple_weaken; [apply triple_base_Get| |done]. by intros r d [-> Hr].
    - intros [b'|e]; [intros s1 Hs1; simpl; intros b2 [= <-]; by apply Hs1|].
      case_bool_decide; [by intros s1 _|]. eapply triple_conseq; [exact HF|done..]. }
  specialize (HP s I). unfold Pull in HP. fold fetch in HP. rewrite E in HP. by apply HP.
Qed.
End StoreProofs.

(** ** A concrete store *)
Module SampleBase.
Import OciStore.Sample.

Definition put_config (c : Config) (k : string) : string :=
  put_Z (c_SchemaVersion c) (put_str (c_OS c) (put_str (c_Architecture c) (put_Z (c_AgentProtocol c)
    (put_str (c_InitPath c) (put_str (c_Runtime c) (put_Z (c_GuestReserveMiB c)
      (put_strs (c_FirecrackerVersions c) (put_desc (c_Kernel c) (put_desc (c_RootFS c) k))))))))).
Definition get_config (t : string) : option (Config * string) :=
  '(v, t) ← get_Z t; '(os, t) ← get_str t; '(ar, t) ← get_str t; '(ap, t) ← get_Z t;
  '(ip, t) ← get_str t; '(rt, t) ← get_str t; '(gr, t) ← get_Z t; '(fv, t) ← get_strs t;
  '(kd, t) ← get_desc t; '(rd, t) ← get_desc t; Some (mkConfig v os ar ap ip rt gr fv kd rd, t).

Definition put_signed (v : Signed) (k : string) : string :=
  put_config (sg_Config v) (put_str (sg_KeyID v) (put_str (sg_Signature v) k)).
Definition get_signed (t : string) : option (Signed * string) :=
  '(c, t) ← get_config t; '(i, t) ← get_str t; '(g, t) ← get_str t; Some (mkSigned c i g, t).

Definition marshal_bundle (b : Bundle) : string :=
  put_str (b_Ref b) (put_str (b_Digest b) (put_signed (b_Signed b)
    (put_str (b_KernelPath b) (put_str (b_RootFSPath b) "")))).
Definition unmarshal_bundle (t : string) : result Bundle :=
  match ('(r, t) ← get_str t; '(d, t) ← get_str t; '(v, t) ← get_signed t; '(k, t) ← get_str t;
         '(f, t) ← get_str t; Some (mkBundle r d v k f)) with
  | Some b => Ok b
  | None => Err (Errorf "unexpected end of JSON input")
  end.

Lemma get_put_config (c : Config) (k : string) : get_config (put_config c k) = Some (c, k).
Proof.
  unfold get_config, put_config.
  repeat first [rewrite get_put_Z; simpl | rewrite get_put_str; simpl | rewrite get_put_strs; simpl
               | rewrite get_put_desc; simpl]. by destruct c.
Qed.

Lemma unmarshal_bundle_marshal (b : Bundle) : unmarshal_bundle (marshal_bundle b) = Ok b.
Proof.
  unfold unmarshal_bundle, marshal_bundle, put_signed, get_signed.
  repeat first [rewrite get_put_str; simpl | rewrite get_put_config; simpl]. by destruct b as [? ? [] ? ?].
Qed.

Definition elf : string :=
  String (ascii_of_N 127) ("ELF" +:+ String (ascii_of_N 2) (String (ascii_of_N 1)
    ("------------" +:+ String (ascii_of_N 62) (String (ascii_of_N 0) "kernel")))).

Definition config : Config :=
  mkConfig 1 "linux" "amd64" 1 "/sbin/niflhel-init" "runc" 128 ["1.16.1"]
    (mkDescriptor (Digest sha elf) 26 "k") (mkDescriptor (Digest sha "rootfs") 6 "r").
Definition signed : Signed := mkSigned config "team" hex64.

Definition import (s : FS) : outcome Bundle * FS :=
  Import calm sha toy_trust (fun _ => "cfg") (fun s => s) (fun s => Ok s) (fun _ _ s => bool_decide (s = hex64))
    (fun v => put_signed v "") marshal_bundle "stable" signed "kernel" "root" s.
Definition sources : FS := mkFS {[ ("", "kernel") := elf; ("", "root") := "rootfs" ]} 0.
Definition stored_base : FS := snd (import sources).
Definition bundle : Bundle := bundle_for sha (fun v => put_signed v "") "stable" signed.
Definition sizes (dg : string) : Z := if decide (dg = Digest sha elf) then 26 else 6.

Lemma import_returns : import sources = (Ret (Ok bundle), stored_base).
Proof. vm_cast_no_check (@eq_refl (outcome Bundle * FS) (Ret (Ok bundle), stored_base)). Qed.

Lemma sources_consistent : consistent unmarshal_bundle sizes (fs_files sources).
Proof.
  intros n b (c & Hc & _). exfalso. unfold sources, fs_files in Hc.
  apply lookup_insert_Some in Hc as [[[=] _]|[_ Hc]]. apply lookup_singleton_Some in Hc as [[=] _].
Qed.

Lemma signed_sizes :
  Forall (fun l => d_Size l = sizes (d_Digest l)) [c_Kernel (sg_Config signed); c_RootFS (sg_Config signed)].
Proof. repeat constructor; vm_compute; reflexivity. Qed.

(** A registry that serves the base. *)
Definition remote (_ : string) : BaseRemote :=
  mkBaseRemote (Ok "m") (fun dg =>
    Ok (mkStream (if decide (dg = Digest sha elf) then elf
                  else if decide (dg = Digest sha "rootfs") then "rootfs" else "s") None)).
Definition manifest_of (_ : string) : result manifest :=
  Ok (mkmanifest 2 ArtifactType (mkdescriptor "" (Digest sha "s") 1)
        [mkdescriptor "k" (Digest sha elf) 26; mkdescriptor "r" (Digest sha "rootfs") 6]).
Definition pull (s : FS) : outcome Bundle * FS :=
  Pull calm sha toy_trust (fun _ => "cfg") (fun s => s) (fun s => Ok s) (fun _ _ s => bool_decide (s = hex64))
    (fun v => put_signed v "") marshal_bundle unmarshal_bundle tokens (fun _ => Ok signed) (fun _ => true)
    manifest_of (fun _ => Ok tt) remote "stable" "missing" s.
Definition pulled : FS := snd (pull (mkFS ∅ 0)).

Lemma pull_returns : pull (mkFS ∅ 0) = (Ret (Ok bundle), pulled).
Proof. vm_cast_no_check (@eq_refl (outcome Bundle * FS) (Ret (Ok bundle), pulled)). Qed.

Lemma stored_records :
  map_Forall (fun q c => fst q = base_refs -> c = marshal_bundle bundle) (fs_files stored_base).
Proof. eapply (bool_decide_unpack _). vm_cast_no_check I. Qed.

Lemma stored_consistent : consistent unmarshal_bundle sizes (fs_files stored_base).
Proof.
  intros n b (c & Hc & Hu). pose proof (stored_records _ _ Hc eq_refl) as Hm. simpl in Hm. subst c.
  rewrite unmarshal_bundle_marshal in Hu. injection Hu as <-.
  repeat constructor; vm_compute; reflexivity.
Qed.

Definition remove (s : FS) : outcome unit * FS :=
  Remove calm sha toy_trust (fun _ => "cfg") (fun s => s) (fun s => Ok s) (fun _ _ s => bool_decide (s = hex64))
    unmarshal_bundle "stable" s.
Definition removed : FS := snd (remove stored_base).

Lemma remove_returns : remove stored_base = (Ret (Ok tt), removed).
Proof. vm_cast_no_check (@eq_refl (outcome unit * FS) (Ret (Ok tt), removed)). Qed.
End SampleBase.

Lemma base_Import_correct_witness :
  usable OciStore.Sample.sha toy_trust (fun _ => "cfg") (fun s => s) (fun s => Ok s)
    (fun _ _ s => bool_decide (s = hex64)) SampleBase.unmarshal_bundle (fs_files SampleBase.stored_base) "stable"
    SampleBase.bundle.
Proof.
  destruct (base_Import_correct calm OciStore.Sample.sha toy_trust OciStore.Sample.sha_length OciStore.Sample.sha_digits
    (fun _ => "cfg") (fun s => s) (fun s => Ok s) (fun _ _ s => bool_decide (s = hex64))
    (fun v => SampleBase.put_signed v "") SampleBase.marshal_bundle SampleBase.unmarshal_bundle
    SampleBase.unmarshal_bundle_marshal SampleBase.sizes "stable" SampleBase.signed "kernel" "root"
    SampleBase.sources SampleBase.stored_base (Ret (Ok SampleBase.bundle)) SampleBase.sources_consistent
    SampleBase.signed_sizes SampleBase.import_returns) as (_ & H).
  exact (proj1 (proj2 (proj2 (proj2 (H SampleBase.bundle eq_refl))))).
Defined.

Lemma base_Remove_correct_witness :
  exists b, usable OciStore.Sample.sha toy_trust (fun _ => "cfg") (fun s => s) (fun s => Ok s)
      (fun _ _ s => bool_decide (s = hex64)) SampleBase.unmarshal_bundle (fs_files SampleBase.stored_base) "stable" b /\
    all_gone base_refs SampleBase.unmarshal_bundle b_Digest bundle_files (fun p => Ok (file_of p)) b
      (fs_files SampleBase.removed).
Proof.
  destruct (base_Remove_correct calm OciStore.Sample.sha toy_trust (fun _ => "cfg") (fun s => s) (fun s => Ok s)
    (fun _ _ s => bool_decide (s = hex64)) SampleBase.unmarshal_bundle SampleBase.sizes "stable"
    SampleBase.stored_base SampleBase.removed (Ret (Ok tt)) OciStore.Sample.calm_honest
    SampleBase.stored_consistent SampleBase.remove_returns) as (_ & _ & H).
  exact (H eq_refl).
Defined.
