(* ===== verification/BaseHistory.v ===== *)
(** * BaseHistory: every state of the base store

    The store of internal/base is changed by [Pull], [Import] and [Remove] only.
    A history of the store is any sequence of these calls, with file system
    errors and crashes at any operation.  Over every history the bases that
    [Pull] and [Get] return are signed by a trusted publisher, and no base is
    found under the empty reference; the host service relies on both
    (BaseEnv.v). *)

From S2P Require Import Prelude GoLib Api Fsutil Oci Fs RefStore OciStore Base BaseStore.
Import Strings.

(** ** Frames: programs that keep a property of the files *)

Definition frame {A : Type} (P : disk -> Prop) (m : M A) : Prop := triple P m (fun _ => P) P.

Section Frames.
Context (P : disk -> Prop).

Lemma frame_bind {A B : Type} (m : M A) (k : A -> M B) : frame P m -> (forall a, frame P (k a)) -> frame P (m ≫= k).
Proof.
  intros Hm Hk. apply (triple_bind _ _ _ (fun _ => P)); [|exact Hk].
  eapply triple_weaken; [exact Hm|by intros [?|?]|done].
Qed.

Lemma frame_lift {A : Type} (r : result A) : frame P (lift r).
Proof. by intros s Hs. Qed.

Lemma frame_try {A : Type} (m : M A) : frame P m -> frame P (try m).
Proof. intros H. by apply triple_try. Qed.

(** Operations whose effect is known, file by file. *)
Lemma frame_from {A : Type} (m : M A) (Q : disk -> result A -> disk -> Prop) (C : disk -> disk -> Prop) :
  (forall d0, triple (fun d => d = d0) m (Q d0) (C d0)) ->
  (forall d0 r d, P d0 -> Q d0 r d -> P d) -> (forall d0 d, P d0 -> C d0 d -> P d) -> frame P m.
Proof.
  intros H HQ HC. apply triple_from. intros d0 H0. eapply triple_weaken; [apply (H d0)|..]; cbn; eauto.
Qed.

Lemma frame_foldM {A S : Type} (f : S -> A -> M S) (acc : S) (l : list A) :
  (forall acc x, frame P (f acc x)) -> frame P (foldM f acc l).
Proof.
  intros Hf. apply (triple_foldM_list (fun _ _ => P)); [|done]. intros i a x _.
  eapply triple_weaken; [apply Hf|by intros [?|?]|done].
Qed.

Lemma frame_mapM_ {A : Type} (f : A -> M unit) (l : list A) : (forall x, frame P (f x)) -> frame P (mapM_ f l).
Proof.
  intros Hf. apply (triple_mapM_ (fun _ => P)); [|done]. intros i x _.
  eapply triple_weaken; [apply Hf|by intros [?|?]|done].
Qed.
End Frames.

(** ** No record under a name *)

Definition absent (q : path) (d : disk) : Prop := d !! q = None.

Lemma absent_insert (q p : path) (c : string) (d : disk) : p <> q -> absent q d -> absent q (<[p := c]> d).
Proof. intros Hne H. unfold absent. by rewrite lookup_insert_ne. Qed.

Lemma absent_deletes (q : path) (l : list path) (d : disk) : absent q d -> absent q (foldr delete d l).
Proof.
  intros H. induction l as [|p l IH]; [done|]. unfold absent in *. simpl. rewrite lookup_delete. by case_decide.
Qed.

Lemma frame_RemoveAll (K : Kernel) (q : path) (dir : string) : frame (absent q) (BaseStore.RemoveAll K dir).
Proof. apply triple_os; intros; by apply absent_deletes. Qed.

(** Texts of one length before a common end. *)
Lemma append_end_eq (a b t : string) : String.length a = String.length b -> a +:+ t = b +:+ t -> a = b.
Proof.
  revert b. induction a as [|x a IH]; intros [|y b]; simpl; try done. intros [= Hl] H.
  rewrite !app_cons_str in H. injection H as -> H. f_equal. by apply IH.
Qed.

Section Named.
Context (sha256_hex : string -> string) (trust : gmap string string).
Hypothesis sha_length : forall b, String.length (sha256_hex b) = 64%nat.
Hypothesis sha_digits : forall b, forallb hex_any (String.list_ascii_of_string (sha256_hex b)) = true.
(** The empty string is the only known text with its digest. *)
Hypothesis sha_empty : forall b, sha256_hex b = sha256_hex "" -> b = "".
Context (marshal_config : Config -> string) (b64_encode : string -> string)
        (b64_decode : string -> result string) (ed_verify : string -> string -> string -> bool).
Context (marshal_signed : Signed -> string) (marshal : Bundle -> string) (unmarshal : string -> result Bundle).
Context (tokens : string -> list (result token)) (decode_signed : string -> result Signed)
        (nothing_follows : string -> bool) (unmarshal_manifest : string -> result manifest).
(** [name.ParseReference], which refuses the empty reference. *)
Context (parse : string -> result unit).
Hypothesis parse_empty : forall u, parse "" <> Ok u.

#[local] Notation rec := (BaseStore.record sha256_hex).
#[local] Notation Verify := (Base.Verify marshal_config b64_encode b64_decode ed_verify trust).
#[local] Notation Get K := (BaseStore.Get K sha256_hex trust marshal_config b64_encode b64_decode ed_verify unmarshal).
#[local] Notation Import K := (BaseStore.Import K sha256_hex trust marshal_config b64_encode b64_decode ed_verify
  marshal_signed marshal).
#[local] Notation Remove K := (BaseStore.Remove K sha256_hex trust marshal_config b64_encode b64_decode ed_verify unmarshal).
#[local] Notation Pull K := (BaseStore.Pull K sha256_hex trust marshal_config b64_encode b64_decode ed_verify
  marshal_signed marshal unmarshal tokens decode_signed nothing_follows unmarshal_manifest parse).
#[local] Notation unnamed := (absent (rec "")).

Lemma rec_other (ref : string) : ref <> "" -> rec ref <> rec "".
Proof.
  intros Hne. rewrite !base_record_name. intros [= H]. apply Hne, sha_empty. 
  apply (append_end_eq _ _ ".json"); [by rewrite !sha_length|done].
Qed.

Lemma rec_dir (p : path) : fst p <> base_refs -> p <> rec "".
Proof. intros Hp ->. by rewrite base_record_name in Hp. Qed.

Lemma unnamed_temp (dir pre : string) (d0 d : disk) :
  dir <> base_refs \/ pre = ".pending-" -> with_temp dir pre d0 d -> unnamed d0 -> unnamed d.
Proof.
  intros Hd (q & c & [Hq Hp] & _ & ->). apply absent_insert. intros ->. rewrite base_record_name in Hq. cbn in Hq.
  destruct Hd as [Hd| ->]; [by rewrite Hq in Hd|].
  by rewrite (base_record_plain sha256_hex sha_length sha_digits "") in Hp.
Qed.

(** The base store's own steps. *)
Lemma unnamed_WriteVerified (K : Kernel) (p : path) (r : Stream) (l : Descriptor) :
  fst p <> base_refs -> HasPrefix (snd p) ".download-" = false ->
  frame unnamed (WriteVerified K sha256_hex p r l).
Proof.
  intros Hd Hp. eapply frame_from; [intros d0; by apply triple_WriteVerified|..]; cbn.
  - intros d0 [u|e] d H0.
    + intros (c & _ & _ & ->). by apply absent_insert; [apply rec_dir|].
    + intros [->|H]; [done|]. by eapply unnamed_temp; [left|..].
  - intros d0 d H0 [->|[H|(c & _ & _ & ->)]]; [done| |].
    + by eapply unnamed_temp; [left|..].
    + by apply absent_insert; [apply rec_dir|].
Qed.

Lemma unnamed_JSON (K : Kernel) (ref : string) (b : Bundle) :
  ref <> "" -> frame unnamed (JSON K (fun i => Ok (marshal i)) (rec ref) b).
Proof.
  intros Hne. unfold JSON. apply triple_lift_seq; [done|]. intros x [= <-].
  assert (forall d0 d, unnamed d0 -> replaced ".pending-" (rec ref) (marshal b) d0 d -> unnamed d) as HR.
  { intros d0 d H0 [->|[->|H]]; [done|by apply absent_insert; [apply rec_other|]|].
    eapply unnamed_temp; [by right|exact H|done]. }
  eapply frame_from; [intros d0; by apply triple_Atomic, base_record_plain|..]; cbn; [|done].
  intros d0 [u|e] d H0; [intros ->; by apply absent_insert; [apply rec_other|]|by apply HR].
Qed.

Lemma frame_same {A : Type} (P : disk -> Prop) (m : M A) (Q : disk -> result A -> Prop) :
  (forall d0, triple (fun d => d = d0) m (fun r d => d = d0 /\ Q d0 r) (fun d => d = d0)) -> frame P m.
Proof. intros H. eapply frame_from; [exact H|by intros d0 r d H0 [-> _]|by intros d0 d H0 ->]. Qed.

Lemma unnamed_import_component (K : Kernel) (source : string) (l : Descriptor) :
  is_ok (HexDigest (d_Digest l)) = true -> frame unnamed (import_component K sha256_hex source l).
Proof.
  intros Hx. unfold import_component. pose proof (file_of_component l Hx) as ->.
  destruct (HexDigest (d_Digest l)) as [h|] eqn:Eh; [|done]. apply HexDigest_ok in Eh as (Hd & Hl & Hh).
  apply frame_bind; [eapply frame_same; intros; apply triple_ReadData|]. intros c.
  apply frame_bind; [|intros []; apply frame_lift]. apply unnamed_WriteVerified; [done|].
  unfold blob_of. rewrite Hd, drop_sha. apply hex_name_first; [done|simpl in *; lia|done].
Qed.

(** [Import] of a named base. *)
Lemma Import_named (K : Kernel) (ref : string) (v : Signed) (kernel rootfs : string) :
  ref <> "" ->
  triple unnamed (Import K ref v kernel rootfs)
    (fun r d => unnamed d /\ forall b, r = Ok b -> Verify (b_Signed b) = Ok tt) unnamed.
Proof.
  intros Hne. unfold BaseStore.Import. apply triple_lift_seq; [by intros|]. intros [] Hv.
  destruct (Verify_published _ _ _ _ _ _ Hv) as [Hval _].
  apply vc_components in Hval. apply Forall_cons in Hval as [[Hx1 _] Hval]. apply Forall_cons in Hval as [[Hx2 _] _].
  assert (forall (A B : Type) (m : M A) (k : A -> M B) (Q : result B -> disk -> Prop),
    frame unnamed m -> (forall e d, unnamed d -> Q (Err e) d) -> (forall a, triple unnamed (k a) Q unnamed) ->
    triple unnamed (m ≫= k) Q unnamed) as seq.
  { intros A B m k Q Hm HQ Hk. apply (triple_bind _ _ _ (fun _ => unnamed)); [|exact Hk].
    eapply triple_weaken; [exact Hm|intros [?|?] d Hd; auto|done]. }
  apply seq; [by apply unnamed_import_component|by intros|intros kp].
  apply seq; [by apply unnamed_import_component|by intros|intros rp].
  apply seq; [|by intros|intros _].
  { unfold checkKernel. apply frame_bind; [eapply frame_same; intros; apply triple_ReadData|].
    intros c. apply frame_lift. }
  apply seq; [by apply unnamed_JSON|by intros|intros _].
  apply seq; [by apply unnamed_JSON|by intros|intros _].
  intros s Hs. split; [done|]. by intros b [= <-].
Qed.

(** [Pull], whatever the registry sends. *)
Lemma Pull_named (K : Kernel) (remote : string -> BaseRemote) (ref policy : string) :
  triple unnamed (Pull K remote ref policy)
    (fun r d => unnamed d /\ forall b, r = Ok b -> Verify (b_Signed b) = Ok tt) unnamed.
Proof.
  unfold BaseStore.Pull. set (fetch := mbind _ _).
  assert (triple unnamed fetch (fun r d => unnamed d /\ forall b, r = Ok b -> Verify (b_Signed b) = Ok tt) unnamed) as HF.
  { unfold fetch. apply triple_lift_seq; [by intros|]. intros [] Hp.
    assert (ref <> "") as Hne by (intros ->; by destruct (parse_empty tt)).
    apply triple_lift_seq; [by intros|]. intros [m v] Hf.
    apply (triple_bind _ _ _ (fun _ => unnamed)); [apply triple_try, triple_nop|intros _].
    apply (triple_bind _ _ _ (fun tmp d => (exists x, tmp = "pull-" +:+ x) /\ unnamed d)).
    { apply triple_os; [|done|done]. intros t d Hd. simpl. destruct (in_dir _ d); simpl; [|done].
      split; [by eexists|done]. }
    intros tmp. apply triple_pure. intros [x ->].
    assert (forall i layers l, (i < 2)%nat ->
      frame unnamed (pull_component K sha256_hex (remote ref) ("pull-" +:+ x) i layers l)) as Hpc.
    { intros i layers l Hi. unfold pull_component. apply frame_bind; [apply frame_lift|]. intros lay.
      destruct (_ || _); [apply frame_lift|]. apply frame_bind; [apply frame_lift|]. intros st.
      apply frame_bind; [|intros []; apply frame_lift]. apply unnamed_WriteVerified; [done|].
      by destruct i as [|[|i]]; [reflexivity|reflexivity|lia]. }
    apply (triple_defer _ _ _ (fun r d => unnamed d /\ forall b, r = Ok b -> Verify (b_Signed b) = Ok tt)).
    - apply (triple_bind _ _ _ (fun _ => unnamed)).
      { eapply triple_weaken; [apply Hpc; lia|by intros [?|?]|done]. }
      intros k. apply (triple_bind _ _ _ (fun _ => unnamed)).
      { eapply triple_weaken; [apply Hpc; lia|by intros [?|?]|done]. }
      intros r. by apply Import_named.
    - intros r s [H0 Hv]. pose proof (frame_RemoveAll K (rec "") ("pull-" +:+ x) s H0) as H.
      by destruct (BaseStore.RemoveAll K _ s) as [[?|] ?]. }
  case_bool_decide; [done|].
  apply (triple_bind _ _ _ (fun r d => unnamed d /\ forall b, r = Ok b -> Verify (b_Signed b) = Ok tt)).
  - apply triple_try, triple_from. intros d0 H0. eapply triple_weaken; [apply triple_base_Get| |by intros d ->].
    intros r d [-> Hr]. split; [done|]. intros b Hb. by apply Hr.
  - intros [b'|e]; [intros s1 [H1 H2]; by split; [|intros b2 [= <-]; apply H2]|].
    case_bool_decide; [by intros s1 [H1 _]|]. eapply triple_conseq; [exact HF|by intros d [? _]|done|done].
Qed.

(** [Remove] deletes files only. *)
Lemma Remove_named (K : Kernel) (ref : string) : frame unnamed (Remove K ref).
Proof.
  unfold BaseStore.Remove. apply frame_bind; [eapply frame_same; intros; apply triple_base_Get|]. intros b.
  assert (forall p, frame unnamed (Unlink K p)) as HU.
  { intros p. eapply frame_from; [intros d0; apply triple_Unlink|..]; cbn; [|by intros d0 d H0 ->].
    intros d0 [u|e] d H0; [intros ->|by intros [-> _]]. unfold absent. rewrite lookup_delete. by case_decide. }
  unfold remove_record. apply frame_bind; [eapply frame_same; intros; apply triple_ReadDir|]. intros names.
  apply frame_bind.
  - apply frame_foldM. intros used n. unfold remove_entry.
    apply frame_bind; [eapply frame_same; intros; apply triple_ReadJSON|]. intros other.
    case_bool_decide; [|apply frame_lift]. apply frame_bind; [apply HU|]. intros _. apply frame_lift.
  - intros used. apply frame_mapM_. intros key. unfold remove_file. case_bool_decide; [apply frame_lift|].
    apply frame_bind; [apply frame_lift|]. intros p. apply frame_bind; [apply frame_try, HU|].
    intros [u|e]; [apply frame_lift|]. case_bool_decide; apply frame_lift.
Qed.

(** ** Histories *)

(** One call on the store, to its end or to a crash; [load] of the host service
    refuses to import under the empty reference.  Files outside the records (of
    uploads, for instance) may change in between. *)
Inductive store_step : FS -> FS -> Prop :=
| store_pull (K : Kernel) (remote : string -> BaseRemote) (ref policy : string) (s s' : FS) (o : outcome Bundle) :
    Pull K remote ref policy s = (o, s') -> store_step s s'
| store_import (K : Kernel) (ref : string) (v : Signed) (kernel rootfs : string) (s s' : FS) (o : outcome Bundle) :
    ref <> "" -> Import K ref v kernel rootfs s = (o, s') -> store_step s s'
| store_remove (K : Kernel) (ref : string) (s s' : FS) (o : outcome unit) :
    Remove K ref s = (o, s') -> store_step s s'
| store_other (s s' : FS) :
    (forall q, fst q = base_refs -> fs_files s' !! q = fs_files s !! q) -> store_step s s'.

Lemma store_step_unnamed (s s' : FS) : store_step s s' -> unnamed (fs_files s) -> unnamed (fs_files s').
Proof.
  intros [K remote ref policy s1 s2 o E|K ref v k r s1 s2 o Hne E|K ref s1 s2 o E|s1 s2 Hq] H.
  - pose proof (Pull_named K remote ref policy s1 H) as HP. rewrite E in HP. by destruct o; [apply HP|].
  - pose proof (Import_named K ref v k r Hne s1 H) as HP. rewrite E in HP. by destruct o; [apply HP|].
  - pose proof (Remove_named K ref s1 H) as HP. rewrite E in HP. by destruct o.
  - unfold absent. rewrite Hq; [done|]. by rewrite base_record_name.
Qed.

Lemma history_unnamed (s0 s : FS) :
  rtc store_step s0 s -> unnamed (fs_files s0) -> unnamed (fs_files s).
Proof. induction 1; eauto using store_step_unnamed. Qed.

#[local] Notation published := (Base.published marshal_config b64_encode b64_decode ed_verify trust).
#[local] Notation usable := (BaseStore.usable sha256_hex trust marshal_config b64_encode b64_decode ed_verify unmarshal).

Hypothesis unmarshal_marshal : forall b, unmarshal (marshal b) = Ok b.

(** C24. Whatever was pulled, imported and removed before, with whatever errors
    and crashes, and whatever the registry (which is not trusted) answers: a base
    that [Get] or [Pull] returns carries a signature of a trusted publisher over a
    valid configuration, and its kernel and root file system are on disk with the
    signed digests and sizes (for [Pull]: unless the signed configuration gives
    one digest two sizes); and no base is ever found under the empty reference. *)
Theorem base_store_trusted (s0 s s' : FS) (K : Kernel) (ref : string) (b : Bundle) :
  unnamed (fs_files s0) -> rtc store_step s0 s ->
  (Get K ref s = (Ret (Ok b), s') -> ref <> "" /\ published (b_Signed b) /\ usable (fs_files s') ref b) /\
  (forall remote policy, Pull K remote ref policy s = (Ret (Ok b), s') ->
     published (b_Signed b) /\
     ((forall m v, fetch_signed sha256_hex trust marshal_config b64_encode b64_decode ed_verify tokens
          decode_signed nothing_follows unmarshal_manifest (remote ref) = Ok (m, v) ->
        d_Digest (c_Kernel (sg_Config v)) = d_Digest (c_RootFS (sg_Config v)) ->
        d_Size (c_Kernel (sg_Config v)) = d_Size (c_RootFS (sg_Config v))) ->
      usable (fs_files s') ref b)).
Proof.
  intros H0 Hs. pose proof (history_unnamed s0 s Hs H0) as H. split.
  - intros E. pose proof (triple_base_Get K sha256_hex trust marshal_config b64_encode b64_decode ed_verify
      unmarshal (fs_files s) ref s eq_refl) as HG. rewrite E in HG. destruct HG as [-> HG]. specialize (HG b eq_refl).
    split_and!; [|by apply Verify_published, HG|done]. intros ->. destruct HG as ((c & Hc & _) & _).
    unfold absent in H. congruence.
  - intros remote policy E. split.
    + pose proof (Pull_named K remote ref policy s H) as HP. rewrite E in HP. by apply Verify_published, HP.
    + intros Hsz. by apply (base_Pull_trusted K sha256_hex trust sha_length sha_digits marshal_config b64_encode
        b64_decode ed_verify marshal_signed marshal unmarshal unmarshal_marshal tokens decode_signed nothing_follows
        unmarshal_manifest parse remote ref policy s s' b).
Qed.
End Named.

(** ** A concrete history: one base, pulled *)
Module SampleHistory.
Import OciStore.Sample SampleBase.

(** A toy digest that marks every text but the empty one. *)
Definition sha_marked (b : string) : string :=
  match b with EmptyString => hexes 64 "" | _ => String "1" (hexes 63 b) end.

Lemma hexes_length (n : nat) (b : string) : String.length (hexes n b) = n.
Proof. revert b. induction n as [|n IH]; intros [|c b]; simpl; [done..| |]; by rewrite IH. Qed.

Lemma hexes_digits (n : nat) (b : string) : forallb hex_any (String.list_ascii_of_string (hexes n b)) = true.
Proof.
  revert b. induction n as [|n IH]; intros [|c b]; try done; [apply (IH "")|].
  cbn [hexes String.list_ascii_of_string forallb]. rewrite IH, andb_true_r.
  by destruct c as [[] [] [] [] [] [] [] []].
Qed.

Lemma marked_length (b : string) : String.length (sha_marked b) = 64%nat.
Proof. destruct b as [|c b]; [reflexivity|]. cbn [sha_marked String.length]. by rewrite hexes_length. Qed.

Lemma marked_digits (b : string) : forallb hex_any (String.list_ascii_of_string (sha_marked b)) = true.
Proof. destruct b as [|c b]; [reflexivity|]. cbn [sha_marked String.list_ascii_of_string forallb]. apply hexes_digits. Qed.

Lemma marked_empty (b : string) : sha_marked b = sha_marked "" -> b = "".
Proof. by destruct b. Qed.

Definition marked_config : Config :=
  mkConfig 1 "linux" "amd64" 1 "/sbin/niflhel-init" "runc" 128 ["1.16.1"]
    (mkDescriptor (Digest sha_marked elf) 26 "k") (mkDescriptor (Digest sha_marked "rootfs") 6 "r").
Definition marked_signed : Signed := mkSigned marked_config "team" hex64.
Definition marked_remote (_ : string) : BaseRemote :=
  mkBaseRemote (Ok "m") (fun dg =>
    Ok (mkStream (if decide (dg = Digest sha_marked elf) then elf
                  else if decide (dg = Digest sha_marked "rootfs") then "rootfs" else "s") None)).
Definition marked_manifest (_ : string) : result manifest :=
  Ok (mkmanifest 2 ArtifactType (mkdescriptor "" (Digest sha_marked "s") 1)
        [mkdescriptor "k" (Digest sha_marked elf) 26; mkdescriptor "r" (Digest sha_marked "rootfs") 6]).
Definition parse (ref : string) : result unit :=
  if String.eqb ref "" then Err (Errorf "could not parse reference") else Ok tt.

Lemma parse_empty (u : unit) : parse "" <> Ok u.
Proof. discriminate. Qed.

Definition pull_marked (s : FS) : outcome Bundle * FS :=
  Pull calm sha_marked toy_trust (fun _ => "cfg") (fun s => s) (fun s => Ok s) (fun _ _ s => bool_decide (s = hex64))
    (fun v => put_signed v "") marshal_bundle unmarshal_bundle tokens (fun _ => Ok marked_signed) (fun _ => true)
    marked_manifest parse marked_remote "stable" "missing" s.
Definition get_marked (s : FS) : outcome Bundle * FS :=
  Get calm sha_marked toy_trust (fun _ => "cfg") (fun s => s) (fun s => Ok s) (fun _ _ s => bool_decide (s = hex64))
    unmarshal_bundle "stable" s.
Definition marked_bundle : Bundle := bundle_for sha_marked (fun v => put_signed v "") "stable" marked_signed.
Definition empty_store : FS := mkFS ∅ 0.
Definition pulled_store : FS := snd (pull_marked empty_store).

Lemma pull_marked_returns : pull_marked empty_store = (Ret (Ok marked_bundle), pulled_store).
Proof. vm_cast_no_check (@eq_refl (outcome Bundle * FS) (Ret (Ok marked_bundle), pulled_store)). Qed.

Definition read_store : FS := snd (get_marked pulled_store).
Lemma get_marked_returns : get_marked pulled_store = (Ret (Ok marked_bundle), read_store).
Proof. vm_cast_no_check (@eq_refl (outcome Bundle * FS) (Ret (Ok marked_bundle), read_store)). Qed.
End SampleHistory.

(** The base is pulled and found again. *)
Lemma base_store_trusted_witness :
  "stable" <> "" /\
  published (fun _ => "cfg") (fun s => s) (fun s => Ok s) (fun _ _ s => bool_decide (s = hex64)) toy_trust
    (b_Signed SampleHistory.marked_bundle).
Proof.
  destruct (proj1 (base_store_trusted SampleHistory.sha_marked toy_trust SampleHistory.marked_length
    SampleHistory.marked_digits SampleHistory.marked_empty (fun _ => "cfg") (fun s => s) (fun s => Ok s)
    (fun _ _ s => bool_decide (s = hex64)) (fun v => SampleBase.put_signed v "") SampleBase.marshal_bundle
    SampleBase.unmarshal_bundle OciStore.Sample.tokens (fun _ => Ok SampleHistory.marked_signed) (fun _ => true)
    SampleHistory.marked_manifest SampleHistory.parse SampleHistory.parse_empty SampleBase.unmarshal_bundle_marshal
    SampleHistory.empty_store SampleHistory.pulled_store SampleHistory.read_store calm "stable"
    SampleHistory.marked_bundle eq_refl
    (rtc_once _ _ (store_pull _ _ _ _ _ _ _ _ _ _ _ _ _ _ _ _ _ _ _ _ _ SampleHistory.pull_marked_returns)))
    SampleHistory.get_marked_returns) as (Hne & Hp & _).
  exact (conj Hne Hp).
Defined.
