(* ===== verification/BasePush.v ===== *)
(** * BasePush: publishing a base to a registry (internal/base/base.go, [Store.Push])

    A registry holds blobs under their digests and a manifest under a reference.
    [Push] writes the signed description, the kernel and the root file system,
    and the manifest last; what it writes is what [Pull] of [BaseStore] reads. *)

From S2P Require Import Prelude GoLib Api Fsutil Oci Fs RefStore OciStore Base BaseStore.
Import Strings.
Local Open Scope Z_scope.
Local Open Scope go_scope.

Record registry : Type := mkRegistry { rg_blobs : gmap string string; rg_manifest : option string }.

(** What [Pull] sees of it. *)
Definition remote_of (r : registry) : BaseRemote :=
  mkBaseRemote (match rg_manifest r with Some m => Ok m | None => Err ErrNotFound end)
    (fun d => match rg_blobs r !! d with Some c => Ok (mkStream c None) | None => Err ErrNotFound end).

(** [remote.WriteLayer]: a blob that is there is not sent again. *)
Definition write_blob (digest content : string) (r : registry) : registry :=
  match rg_blobs r !! digest with
  | Some _ => r
  | None => mkRegistry (<[digest := content]> (rg_blobs r)) (rg_manifest r)
  end.

Section Push.
Variable sha256_hex : string -> string.
Variable marshal_signed : Signed -> string.
Variable marshal_manifest : manifest -> string.
Variable read : string -> result string.        (* [os.Open] of a component *)
Variable fault : nat -> option error.           (* the n-th request to the registry *)

Definition config_type : string := ArtifactType +:+ ".config+json".

(** A request, which fails or takes effect. *)
Definition request (n : nat) (f : registry -> registry) (k : registry -> registry * result unit) (r : registry)
  : registry * result unit :=
  match fault n with Some e => (r, Err e) | None => k (f r) end.

(** The descriptor of a layer in the manifest. *)
Definition layer_of (d : Descriptor) : descriptor := mkdescriptor (d_MediaType d) (d_Digest d) (d_Size d).

Definition pushed_manifest (b : Bundle) : manifest :=
  let raw := marshal_signed (b_Signed b) in
  mkmanifest 2 ArtifactType (mkdescriptor config_type (Digest sha256_hex raw) (Z.of_nat (String.length raw)))
    [layer_of (c_Kernel (sg_Config (b_Signed b))); layer_of (c_RootFS (sg_Config (b_Signed b)))].

(** One iteration of the loop over the components. *)
Definition push_layer (n : nat) (path : string) (d : Descriptor) (k : registry -> registry * result unit) (r : registry)
  : registry * result unit :=
  match read path with
  | Err e => (r, Err e)
  | Ok c => request n (write_blob (d_Digest d) c) k r
  end.

(** [Store.Push] *)
Definition Push (got : result Bundle) (parse : result unit) (r : registry) : registry * result unit :=
  match (let* b := got in let* _ := parse in Ok b) with
  | Err e => (r, Err e)
  | Ok b =>
      let raw := marshal_signed (b_Signed b) in
      let c := sg_Config (b_Signed b) in
      request 0 (write_blob (Digest sha256_hex raw) raw)
        (push_layer 1 (b_KernelPath b) (c_Kernel c)
          (push_layer 2 (b_RootFSPath b) (c_RootFS c)
            (request 3 (fun r => mkRegistry (rg_blobs r) (Some (marshal_manifest (pushed_manifest b)))) (fun r => (r, Ok tt))))) r
  end.
End Push.

(** ** Theorems *)

Lemma write_blob_keeps (d c : string) (r : registry) :
  rg_blobs r ⊆ rg_blobs (write_blob d c r) /\ rg_manifest (write_blob d c r) = rg_manifest r.
Proof.
  unfold write_blob. destruct (rg_blobs r !! d) eqn:E; [done|]. split; [|done]. cbn. by apply insert_subseteq.
Qed.

Lemma write_blob_there (d c : string) (r : registry) :
  (forall c', rg_blobs r !! d = Some c' -> c' = c) -> rg_blobs (write_blob d c r) !! d = Some c.
Proof.
  unfold write_blob. intros H. destruct (rg_blobs r !! d) as [c'|] eqn:E.
  - rewrite E. f_equal. by apply H.
  - apply lookup_insert_eq.
Qed.

(** ** Runs in which no call fails

    On a host where every call succeeds and no temporary file is left over, the
    operations of the store are plain updates of the disk. *)

Definition good (K : Kernel) : Prop := forall t, k_answer K t = Good.
Definition no_temp (d : disk) : Prop :=
  forall dir x, d !! (dir, ".pending-" +:+ x) = None /\ d !! (dir, ".download-" +:+ x) = None.

Lemma no_temp_insert (d : disk) (p : path) (c : string) :
  no_temp d -> HasPrefix (snd p) ".pending-" = false -> HasPrefix (snd p) ".download-" = false -> no_temp (<[p := c]> d).
Proof.
  intros Hd H1 H2 dir x. rewrite !lookup_insert_ne; [apply Hd| |].
  - intros ->. cbn [snd] in H2. by rewrite HasPrefix_app in H2.
  - intros ->. cbn [snd] in H1. by rewrite HasPrefix_app in H1.
Qed.

Lemma moved (d : disk) (t p : path) (c : string) :
  d !! t = None -> <[p := c]> (delete t (<[t := c]> d)) = <[p := c]> d.
Proof. intros H. by rewrite delete_insert_id. Qed.

Section Good.
Context (K : Kernel) (HK : good K).

Lemma os_good {A} (f : nat -> disk -> result A * disk) (part : nat -> disk -> disk) (s : FS) :
  os K f part s = (Ret (fst (f (fs_clock s) (fs_files s))), mkFS (snd (f (fs_clock s) (fs_files s))) (S (fs_clock s))).
Proof. unfold os. rewrite HK. by destruct (f _ _). Qed.

Lemma Atomic_good (p : path) (data : string) (d : disk) (n : nat) :
  no_temp d -> HasPrefix (snd p) ".pending-" = false ->
  exists n', Atomic K p data (mkFS d n) = (Ret (Ok tt), mkFS (<[p := data]> d) n').
Proof.
  intros Hd Hp. set (tmp := (fst p, ".pending-" +:+ k_random K (S n))).
  assert (d !! tmp = None) as Ht by exact (proj1 (Hd _ _)).
  assert (p <> tmp) as Hne by (intros E; rewrite E in Hp; unfold tmp in Hp; cbn [snd] in Hp; by rewrite HasPrefix_app in Hp).
  unfold Atomic, nop, CreateTemp, WriteData, Rename, Unlink, mbind, M_bind, defer, try, lift.
  repeat (rewrite os_good; cbn [fst snd fs_files fs_clock]). fold tmp. rewrite Ht. cbn [fst snd].
  repeat (rewrite os_good; cbn [fst snd fs_files fs_clock]). unfold append_file.
  rewrite lookup_insert_eq. cbn [default]. rewrite insert_insert_eq, lookup_insert_eq. cbn [fst snd].
  repeat (rewrite os_good; cbn [fst snd fs_files fs_clock]).
  rewrite app_nil_l_str, (moved d tmp p data Ht), lookup_insert_ne, Ht by done. cbn. by eexists.
Qed.

Lemma WriteVerified_good (sha256_hex : string -> string) (p : path) (content h : string) (l : Descriptor) (d : disk) (n : nat) :
  no_temp d -> HasPrefix (snd p) ".download-" = false -> HexDigest (d_Digest l) = Ok h ->
  d_Digest l = Digest sha256_hex content -> d_Size l = Z.of_nat (String.length content) -> d_Size l <= MaxBlob ->
  exists n', WriteVerified K sha256_hex p (mkStream content None) l (mkFS d n) = (Ret (Ok tt), mkFS (<[p := content]> d) n').
Proof.
  intros Hd Hp Hh Hdig Hsz Hmax. set (tmp := (fst p, ".download-" +:+ k_random K (S n))).
  assert (d !! tmp = None) as Ht by exact (proj2 (Hd _ _)).
  assert (p <> tmp) as Hne by (intros E; rewrite E in Hp; unfold tmp in Hp; cbn [snd] in Hp; by rewrite HasPrefix_app in Hp).
  assert (int64 (d_Size l + 1) = d_Size l + 1) as Hi by (apply int64_id; unfold in_int64, two63, max_int64, MaxBlob in *; lia).
  unfold WriteVerified, DigestFile, Copy, ReadData, nop, CreateTemp, WriteData, Rename, Unlink, mbind, M_bind, mret, M_ret, defer, try, lift.
  rewrite Hh, Hi. destruct ((d_Size l <? 0) || (MaxBlob <? d_Size l)) eqn:Eb; [bool_prop; lia|].
  repeat (rewrite os_good; cbn [fst snd fs_files fs_clock st_data st_error]). fold tmp. rewrite Ht. cbn [fst snd].
  repeat (rewrite os_good; cbn [fst snd fs_files fs_clock st_data st_error]). unfold append_file.
  rewrite take_str_all by lia. rewrite !lookup_insert_eq. change (default "" (Some "") +:+ content) with content.
  rewrite insert_insert_eq. cbn [fst snd].
  rewrite <-Hsz, Z.eqb_refl, <-Hdig, bool_decide_eq_false_2 by tauto. cbn [negb orb].
  repeat (rewrite os_good; cbn [fst snd fs_files fs_clock]). rewrite !lookup_insert_eq. cbn [fst snd].
  rewrite (moved d tmp p content Ht), lookup_insert_ne, Ht by done. cbn. by eexists.
Qed.
End Good.

Section PushProofs.
Context (sha256_hex : string -> string) (trust : gmap string string).
Hypothesis sha_length : forall b, String.length (sha256_hex b) = 64%nat.
Hypothesis sha_digits : forall b, forallb hex_any (String.list_ascii_of_string (sha256_hex b)) = true.
Context (marshal_config : Config -> string) (b64_encode : string -> string)
        (b64_decode : string -> result string) (ed_verify : string -> string -> string -> bool).
Context (marshal_signed : Signed -> string) (marshal_manifest : manifest -> string)
        (tokens : string -> list (result token)) (decode_signed : string -> result Signed)
        (nothing_follows : string -> bool) (unmarshal_manifest : string -> result manifest).
Hypothesis decode_marshal : forall v, decode_signed (marshal_signed v) = Ok v /\ nothing_follows (marshal_signed v) = true.
Hypothesis manifest_roundtrip : forall m, unmarshal_manifest (marshal_manifest m) = Ok m.

#[local] Notation dig := (Digest sha256_hex).

(** A document within the limits of [Pull]. *)
Definition fits (raw : string) : Prop :=
  0 < Z.of_nat (String.length raw) <= MaxSignedMetadata /\
  ValidateJSONComplexity maxSignedTokens maxSignedDepth maxSignedStringBytes (tokens raw) = Ok tt.

(** The registry has no other blob under the digest of a content. *)
Definition agrees (r : registry) (d c : string) : Prop := forall c', rg_blobs r !! d = Some c' -> c' = c.

Lemma ReadAllLimit_exact (c : string) : ReadAllLimit (mkStream c None) (Z.of_nat (String.length c) + 1) = Ok c.
Proof. unfold ReadAllLimit. cbn [st_data st_error]. f_equal. apply take_str_all. lia. Qed.

(** A registry with the manifest and the description of a base is one from which
    they are fetched. *)
Lemma fetch_pushed (b : Bundle) (r : registry) :
  let raw := marshal_signed (b_Signed b) in
  let m := pushed_manifest sha256_hex marshal_signed b in
  fits raw -> fits (marshal_manifest m) -> Verify marshal_config b64_encode b64_decode ed_verify trust (b_Signed b) = Ok tt ->
  rg_manifest r = Some (marshal_manifest m) -> rg_blobs r !! dig raw = Some raw ->
  fetch_signed sha256_hex trust marshal_config b64_encode b64_decode ed_verify tokens decode_signed nothing_follows
    unmarshal_manifest (remote_of r) = Ok (m, b_Signed b).
Proof.
  intros raw m [Hr1 Hr2] [Hm1 Hm2] Hv HM HB.
  assert (m_ArtifactType m = ArtifactType) as Ea by done. assert (m_SchemaVersion m = 2) as Es by done.
  assert (length (m_Layers m) = 2%nat) as El by done.
  assert (m_Config m = mkdescriptor config_type (dig raw) (Z.of_nat (String.length raw))) as Ec by done.
  clearbody m. destruct (decode_marshal (b_Signed b)) as [Ed1 Ed2]. fold raw in Ed1, Ed2. clearbody raw.
  unfold fetch_signed, remote_of, readBlob. cbn [br_Manifest br_Blob]. rewrite HM. cbn [result_bind].
  destruct (MaxSignedMetadata <? Z.of_nat (String.length (marshal_manifest m))) eqn:E1; bool_prop; [lia|]. cbn [negb].
  rewrite Hm2, manifest_roundtrip. cbn [result_bind]. rewrite Ea, Es, El, Ec. cbn [de_Size de_Digest].
  rewrite (bool_decide_eq_true_2 (ArtifactType = ArtifactType)) by done. cbn [andb Z.eqb Nat.eqb Pos.eqb].
  destruct ((Z.of_nat (String.length raw) <=? 0) || (MaxSignedMetadata <? Z.of_nat (String.length raw))) eqn:E2; bool_prop; [lia|].
  cbn [negb]. rewrite (HexDigest_Digest sha256_hex sha_length sha_digits raw (sha256_hex raw)) by done. cbn [result_bind].
  rewrite HB. cbn [result_bind]. rewrite int64_id by (unfold in_int64, MaxSignedMetadata, two63, max_int64 in *; lia).
  rewrite ReadAllLimit_exact. cbn [result_bind]. rewrite Z.eqb_refl, bool_decide_eq_true_2 by done. cbn [andb].
  unfold ParseSigned. destruct (MaxSignedMetadata <? Z.of_nat (String.length raw)) eqn:E3; bool_prop; [lia|]. cbn [negb].
  rewrite Hr2, Ed1, Ed2. cbn [result_bind]. by rewrite Hv.
Qed.

(** *** Pulling what a registry has *)

Lemma file_of_dir (d n : string) : no_slash n -> file_of ((d +:+ "/") +:+ n) = (d +:+ "/", n).
Proof.
  intros Hn. induction d as [|c d IH].
  { change (file_of (String "/" n) = ("/", n)). cbn [file_of]. by rewrite (file_of_name n Hn). }
  change (file_of (String c ((d +:+ "/") +:+ n)) = (String c (d +:+ "/"), n)). cbn [file_of]. rewrite IH.
  by destruct d.
Qed.

Lemma digest_plain (c p : string) : HasPrefix p "." = true -> HasPrefix (sha256_hex c) p = false.
Proof.
  intros [t ->]%HasPrefix_spec. destruct (HasPrefix _ _) eqn:E; [|done]. apply HasPrefix_spec in E as [u E].
  pose proof (sha_length c) as Hl. pose proof (sha_digits c) as Hd.
  destruct (sha256_hex c) as [|a r]; [done|]. simpl in E. injection E as -> _. done.
Qed.

Lemma blob_file (c : string) (l : Descriptor) :
  d_Digest l = dig c -> file_of (base_blobs +:+ drop_str 7 (d_Digest l)) = (base_blobs, sha256_hex c).
Proof. intros ->. unfold Digest. rewrite drop_sha. apply file_of_blob, hex_no_slash, sha_digits. Qed.

(** A component of a base, as its description has it. *)
Definition describes (l : Descriptor) (c : string) : Prop :=
  d_Digest l = dig c /\ d_Size l = Z.of_nat (String.length c) /\ d_Size l <= MaxBlob.

Section PullRun.
Context (K : Kernel) (HK : good K) (marshal : Bundle -> string) (unmarshal : string -> result Bundle).

Lemma component_written (p : path) (c : string) (l : Descriptor) (d : disk) (n : nat) :
  no_temp d -> HasPrefix (snd p) ".download-" = false -> describes l c ->
  exists n', WriteVerified K sha256_hex p (mkStream c None) l (mkFS d n) = (Ret (Ok tt), mkFS (<[p := c]> d) n').
Proof.
  intros Hd Hp (H1 & H2 & H3). apply (WriteVerified_good K HK sha256_hex p c (sha256_hex c)); try done.
  rewrite H1. by apply (HexDigest_Digest sha256_hex sha_length sha_digits).
Qed.

Lemma import_good (source : string) (c : string) (l : Descriptor) (d : disk) (n : nat) :
  no_temp d -> describes l c -> d !! file_of source = Some c ->
  exists n', import_component K sha256_hex source l (mkFS d n) =
    (Ret (Ok (base_blobs +:+ drop_str 7 (d_Digest l))), mkFS (<[(base_blobs, sha256_hex c) := c]> d) n').
Proof.
  intros Hd Hl Hs. unfold import_component, ReadData, mbind, M_bind. rewrite (os_good K HK). cbn [fst snd fs_files fs_clock].
  rewrite Hs. cbn [fst snd]. rewrite (blob_file c l (proj1 Hl)).
  destruct (component_written (base_blobs, sha256_hex c) c l d (S n)) as [n' ->]; [done|by apply digest_plain|done|].
  by exists n'.
Qed.

Lemma pull_component_good (remote : BaseRemote) (tmp : string) (i : nat) (layers : list descriptor) (l : Descriptor) (c : string)
    (d : disk) (n : nat) :
  no_temp d -> HasPrefix (Strconv.Itoa (Z.of_nat i)) ".download-" = false -> describes l c ->
  layers !! i = Some (layer_of l) -> readBlob remote (layer_of l) = Ok (mkStream c None) ->
  exists n', pull_component K sha256_hex remote tmp i layers l (mkFS d n) =
    (Ret (Ok (tmp, Strconv.Itoa (Z.of_nat i))), mkFS (<[(tmp, Strconv.Itoa (Z.of_nat i)) := c]> d) n').
Proof.
  intros Hd Hi Hl Hlay Hb. unfold pull_component, mbind, M_bind, lift. rewrite Hlay. cbn [layer_of de_Digest de_Size].
  rewrite bool_decide_eq_false_2 by tauto. rewrite Z.eqb_refl. cbn [orb negb]. rewrite Hb.
  destruct (component_written (tmp, Strconv.Itoa (Z.of_nat i)) c l d n) as [n' ->]; [done..|]. by exists n'.
Qed.
(** The last steps of [Import] and the whole of it. *)
Lemma Import_good (ref : string) (v : Signed) (kpath rpath kernel rootfs : string) (d : disk) (n : nat) :
  no_temp d -> Verify marshal_config b64_encode b64_decode ed_verify trust v = Ok tt ->
  describes (c_Kernel (sg_Config v)) kernel -> describes (c_RootFS (sg_Config v)) rootfs -> is_kernel kernel = Ok tt ->
  (dig kernel = dig rootfs -> kernel = rootfs) ->
  d !! file_of kpath = Some kernel -> d !! file_of rpath = Some rootfs -> fst (file_of rpath) <> base_blobs ->
  let b := bundle_for sha256_hex marshal_signed ref v in
  exists n', Import K sha256_hex trust marshal_config b64_encode b64_decode ed_verify marshal_signed marshal ref v kpath rpath
      (mkFS d n) =
    (Ret (Ok b), mkFS (<[record sha256_hex ref := marshal b]> (<[record sha256_hex (b_Digest b) := marshal b]>
       (<[(base_blobs, sha256_hex rootfs) := rootfs]> (<[(base_blobs, sha256_hex kernel) := kernel]> d)))) n').
Proof.
  intros Hd Hv Hk Hr Hker Hkr Hkp Hrp Hdir b. unfold Import. unfold mbind at 1, M_bind at 1, lift at 1. rewrite Hv.
  unfold mbind at 1, M_bind at 1. destruct (import_good kpath kernel _ d n Hd Hk Hkp) as [n1 ->].
  set (d1 := <[(base_blobs, sha256_hex kernel) := kernel]> d).
  assert (no_temp d1) as Hd1 by (apply no_temp_insert; [done|by apply digest_plain..]).
  assert (d1 !! file_of rpath = Some rootfs) as Hrp1.
  { unfold d1. rewrite lookup_insert_ne; [done|]. intros E. by rewrite <-E in Hdir. }
  unfold mbind at 1, M_bind at 1. destruct (import_good rpath rootfs _ d1 n1 Hd1 Hr Hrp1) as [n2 ->].
  set (d2 := <[(base_blobs, sha256_hex rootfs) := rootfs]> d1).
  assert (no_temp d2) as Hd2 by (apply no_temp_insert; [done|by apply digest_plain..]).
  assert (d2 !! (base_blobs, sha256_hex kernel) = Some kernel) as Hk2.
  { unfold d2. destruct (decide (sha256_hex rootfs = sha256_hex kernel)) as [E|E].
    - rewrite E, lookup_insert_eq. f_equal. symmetry. apply Hkr. unfold Digest. by rewrite E.
    - rewrite lookup_insert_ne by congruence. apply lookup_insert_eq. }
  unfold mbind at 1, M_bind at 1, checkKernel. unfold mbind at 1, M_bind at 1, ReadData. rewrite (os_good K HK).
  cbn [fst snd fs_files fs_clock]. rewrite (blob_file kernel _ (proj1 Hk)), Hk2. cbn [fst snd]. unfold lift at 1. rewrite Hker.
  change (mkBundle ref (dig (marshal_signed v)) v _ _) with b. cbv zeta. unfold JSON. unfold mbind, M_bind, lift.
  destruct (Atomic_good K HK (record sha256_hex (b_Digest b)) (marshal b) d2 (S n2) Hd2
              (base_record_plain sha256_hex sha_length sha_digits _)) as [n3 ->].
  destruct (Atomic_good K HK (record sha256_hex ref) (marshal b) (<[record sha256_hex (b_Digest b) := marshal b]> d2) n3)
    as [n4 ->]; [apply no_temp_insert; [done|by apply (OciStore.record_plain sha256_hex sha_length sha_digits)..]
                |by apply (base_record_plain sha256_hex sha_length sha_digits)|].
  by exists n4.
Qed.

(** [Pull] from a registry that has a base, on a host where nothing fails. *)
Lemma Pull_good (parse : string -> result unit) (remote : string -> BaseRemote) (ref policy : string) (m : manifest) (v : Signed)
    (kernel rootfs : string) (d : disk) (n : nat) :
  fetch_signed sha256_hex trust marshal_config b64_encode b64_decode ed_verify tokens decode_signed nothing_follows
    unmarshal_manifest (remote ref) = Ok (m, v) ->
  Verify marshal_config b64_encode b64_decode ed_verify trust v = Ok tt ->
  m_Layers m = [layer_of (c_Kernel (sg_Config v)); layer_of (c_RootFS (sg_Config v))] ->
  readBlob (remote ref) (layer_of (c_Kernel (sg_Config v))) = Ok (mkStream kernel None) ->
  readBlob (remote ref) (layer_of (c_RootFS (sg_Config v))) = Ok (mkStream rootfs None) ->
  describes (c_Kernel (sg_Config v)) kernel -> describes (c_RootFS (sg_Config v)) rootfs -> is_kernel kernel = Ok tt ->
  (dig kernel = dig rootfs -> kernel = rootfs) ->
  parse ref = Ok tt -> no_temp d -> (forall x, in_dir ("pull-" +:+ x +:+ "/") d = []) ->
  policy = "always" \/ (policy <> "never" /\ d !! record sha256_hex ref = None) ->
  let b := bundle_for sha256_hex marshal_signed ref v in
  exists s', Pull K sha256_hex trust marshal_config b64_encode b64_decode ed_verify marshal_signed marshal unmarshal tokens
      decode_signed nothing_follows unmarshal_manifest parse remote ref policy (mkFS d n) = (Ret (Ok b), s') /\
    fs_files s' !! file_of (b_KernelPath b) = Some kernel /\ fs_files s' !! file_of (b_RootFSPath b) = Some rootfs /\
    fs_files s' !! record sha256_hex ref = Some (marshal b).
Proof.
  intros Hf Hv Hlay Hbk Hbr Hk Hr Hker Hkr Hp Hd Hdir Hpol b. unfold Pull. cbv zeta.
  match goal with |- exists s', (if _ then ?f else _) _ = _ /\ _ => set (fetch := f) end.
  assert (forall n, exists s', fetch (mkFS d n) = (Ret (Ok b), s') /\
    fs_files s' !! file_of (b_KernelPath b) = Some kernel /\ fs_files s' !! file_of (b_RootFSPath b) = Some rootfs /\
    fs_files s' !! record sha256_hex ref = Some (marshal b)) as Hfetch.
  { clear n Hpol. intros n. unfold fetch. unfold mbind at 1, M_bind at 1, lift at 1. rewrite Hp.
    unfold mbind at 1, M_bind at 1, lift at 1. rewrite Hf.
    unfold mbind at 1, M_bind at 1, try, nop. rewrite (os_good K HK). cbn [fst snd fs_files fs_clock].
    unfold mbind at 1, M_bind at 1, MkdirTemp. rewrite (os_good K HK). cbn [fst snd fs_files fs_clock]. rewrite Hdir. cbn [fst snd].
    set (tmp := "pull-" +:+ k_random K (S n) +:+ "/").
    assert (tmp <> base_blobs /\ tmp <> base_refs) as [Nb Nr] by (split; discriminate).
    assert (forall x, no_slash x -> file_of (tmp +:+ x) = (tmp, x)) as Hfile.
    { intros x Hx. assert (tmp = ("pull-" +:+ k_random K (S n)) +:+ "/") as -> by (symmetry; apply app_assoc_str).
      by apply file_of_dir. }
    unfold defer, mbind at 1, M_bind at 1.
    destruct (pull_component_good (remote ref) tmp 0 (m_Layers m) _ kernel d (S (S n)) Hd eq_refl Hk) as [n1 ->]; [by rewrite Hlay|done|].
    change (Strconv.Itoa (Z.of_nat 0)) with "0". set (d1 := <[(tmp, "0") := kernel]> d).
    assert (no_temp d1) as Hd1 by (by apply no_temp_insert).
    unfold mbind at 1, M_bind at 1.
    destruct (pull_component_good (remote ref) tmp 1 (m_Layers m) _ rootfs d1 n1 Hd1 eq_refl Hr) as [n2 ->]; [by rewrite Hlay|done|].
    change (Strconv.Itoa (Z.of_nat 1)) with "1". cbn [fst snd]. set (d2 := <[(tmp, "1") := rootfs]> d1).
    assert (no_temp d2) as Hd2 by (by apply no_temp_insert).
    destruct (Import_good ref v (tmp +:+ "0") (tmp +:+ "1") kernel rootfs d2 n2) as [n3 ->]; try done.
    { rewrite Hfile by done. unfold d2, d1. rewrite lookup_insert_ne by congruence. apply lookup_insert_eq. }
    { rewrite Hfile by done. apply lookup_insert_eq. }
    { by rewrite Hfile by done. }
    fold b. unfold RemoveAll. rewrite (os_good K HK). cbn [fst snd fs_files fs_clock]. eexists. split; [done|]. cbn [fs_files].
    rewrite !foldr_delete_other; [|intros H%in_dir_spec; revert H..].
    { cbn [b_KernelPath b_RootFSPath b bundle_for]. rewrite (blob_file kernel _ (proj1 Hk)), (blob_file rootfs _ (proj1 Hr)).
      rewrite (base_record_name sha256_hex ref), (base_record_name sha256_hex (b_Digest _)).
      split; [|split; [|by rewrite lookup_insert_eq]].
      - rewrite !(lookup_insert_ne _ (base_refs, _)) by discriminate.
        destruct (decide (sha256_hex rootfs = sha256_hex kernel)) as [E|E].
        + rewrite E, lookup_insert_eq. f_equal. symmetry. apply Hkr. unfold Digest. by rewrite E.
        + rewrite lookup_insert_ne by congruence. apply lookup_insert_eq.
      - rewrite !(lookup_insert_ne _ (base_refs, _)) by discriminate. apply lookup_insert_eq. }
    all: unfold b, bundle_for; cbn [b_KernelPath b_RootFSPath].
    all: rewrite ?(blob_file kernel _ (proj1 Hk)), ?(blob_file rootfs _ (proj1 Hr)), ?(base_record_name sha256_hex ref).
    all: cbn [fst]; congruence. }
  destruct (bool_decide (policy = "always")) eqn:Ea; [apply Hfetch|].
  destruct Hpol as [->|[Hnever Hrec]]; [done|].
  unfold mbind at 1, M_bind at 1, try, Get, ReadJSON. unfold mbind at 1, M_bind at 1. unfold mbind at 1, M_bind at 1, ReadData.
  rewrite (os_good K HK). cbn [fst snd fs_files fs_clock]. rewrite Hrec. cbn [fst snd].
  rewrite bool_decide_eq_false_2 by done. apply Hfetch.
Qed.
End PullRun.

End PushProofs.

Module SamplePush.
Import OciStore.Sample SampleBase.

Definition of_desc (d : descriptor) : Descriptor := mkDescriptor (de_Digest d) (de_Size d) (de_MediaType d).
Definition to_desc (d : Descriptor) : descriptor := mkdescriptor (d_MediaType d) (d_Digest d) (d_Size d).
Definition marshal_manifest (m : manifest) : string :=
  put_Z (m_SchemaVersion m) (put_str (m_ArtifactType m) (put_desc (of_desc (m_Config m)) (put_list put_desc (of_desc <$> m_Layers m) ""))).
Definition unmarshal_manifest (t : string) : result manifest :=
  match ('(v, t) ← get_Z t; '(a, t) ← get_str t; '(c, t) ← get_desc t; '(l, t) ← get_list get_desc (String.length t) t;
         Some (mkmanifest v a (to_desc c) (to_desc <$> l))) with
  | Some m => Ok m
  | None => Err (Errorf "unexpected end of JSON input")
  end.
Definition marshal_signed (v : Signed) : string := put_signed v "".
Definition decode_signed (t : string) : result Signed :=
  match get_signed t with Some (v, _) => Ok v | None => Err (Errorf "unexpected end of JSON input") end.

Lemma decode_marshal (v : Signed) : decode_signed (marshal_signed v) = Ok v /\ (fun _ : string => true) (marshal_signed v) = true.
Proof.
  split; [|done]. unfold decode_signed, marshal_signed, put_signed, get_signed.
  repeat first [rewrite get_put_str; simpl | rewrite get_put_config; simpl]. by destruct v.
Qed.

Lemma manifest_roundtrip (m : manifest) : unmarshal_manifest (marshal_manifest m) = Ok m.
Proof.
  unfold unmarshal_manifest, marshal_manifest. rewrite get_put_Z. simpl. rewrite get_put_str. simpl. rewrite get_put_desc. simpl.
  rewrite get_put_list; [simpl|apply get_put_desc|apply put_list_length, put_desc_length]. rewrite <-list_fmap_compose. rewrite (list_fmap_ext _ id), list_fmap_id.
  - by destruct m as [? ? [] ?].
  - by intros ? [].
Qed.
Definition encode (s : string) : string := s.
Definition decode (s : string) : result string := Ok s.
Definition check (_ _ s : string) : bool := bool_decide (s = hex64).
Definition cfg (_ : Config) : string := "cfg".
Definition read (p : string) : result string := Ok (if decide (p = b_KernelPath bundle) then elf else "rootfs").
Definition no_fault (_ : nat) : option error := None.
Definition pushed : registry * result unit :=
  Push sha marshal_signed marshal_manifest read no_fault (Ok bundle) (Ok tt) (mkRegistry ∅ (Some "old")).

Lemma distinct_digests : bool_decide (NoDup [Digest sha (marshal_signed signed); Digest sha elf; Digest sha "rootfs"]) = true.
Proof. vm_compute. reflexivity. Qed.
Lemma signed_fits : fits tokens (marshal_signed signed).
Proof. split; [split; [reflexivity|discriminate]|reflexivity]. Qed.
Lemma manifest_fits : fits tokens (marshal_manifest (pushed_manifest sha marshal_signed bundle)).
Proof. split; [split; [reflexivity|discriminate]|reflexivity]. Qed.
End SamplePush.

