(* ===== verification/Storage.v ===== *)
(** * Storage: disk images and volume paths (internal/storage/storage.go)

    [Manager.Disk] creates a raw image and formats it.  The files it can see
    are a map from paths to sizes; what the operating system and the
    [mkfs.ext4] runner answer is a parameter. *)

From S2P Require Import Prelude GoLib Api Oci.
Import Strings Path.
Local Open Scope Z_scope.
Local Open Scope go_scope.

(** Answers of the operating system to one call of [Disk]. *)
Record DiskEnv : Type := mkDiskEnv {
  de_mkdir : string -> result unit;
  de_open : string -> result unit;       (* failures other than [EEXIST] *)
  de_truncate : Z -> result unit;
  de_fallocate : Z -> result unit;
  de_run : list string -> result unit    (* the runner *)
}.

Definition mkfs_args (p source : string) : list string :=
  ["mkfs.ext4"; "-q"; "-F"; "-t"; "ext4"; "-E"; "lazy_itable_init=0,lazy_journal_init=0"] ++
  (if bool_decide (source = "") then [] else ["-d"; source]) ++ [p].

Definition ErrExist : error := Errorf "file exists".

(** [Manager.Disk] *)
Definition Disk (env : DiskEnv) (files : gmap string Z) (p : string) (size : Z) (source : string)
  : gmap string Z * result unit :=
  if (size <? 64 * MiB) || (1024 * GiB <? size) then (files, Err (Errorf "invalid disk size"))
  else match de_mkdir env (Dir p) with
  | Err e => (files, Err e)
  | Ok _ =>
      match files !! p with
      | Some _ => (files, Err ErrExist)
      | None =>
          match de_open env p with
          | Err e => (files, Err e)
          | Ok _ =>
              let prepared :=
                let* _ := de_truncate env size in
                if bool_decide (source = "") then de_fallocate env size else Ok tt in
              match prepared with
              | Err e => (delete p (<[p := 0]> files), Err e)
              | Ok _ =>
                  match de_run env (mkfs_args p source) with
                  | Err e => (delete p (<[p := size]> files), Err e)
                  | Ok _ => (<[p := size]> files, Ok tt)
                  end
              end
          end
      end
  end.

(** [Manager.VolumePath] *)
Definition VolumePath (root name : string) : result string :=
  guard ValidName name else Errorf "invalid volume name" in
  Ok (JoinPath [root; "volumes"; name +:+ ".ext4"]).

(** [CarrierSize] *)
Definition CarrierSize (bytes : Z) : Z :=
  int64 (int64 (int64 (int64 (int64 (bytes + bytes ÷ 5) + 64 * MiB) + MiB) - 1) ÷ MiB * MiB).

(** [Disk] is atomic: it succeeds exactly by adding one file of the
    requested size, never touches an existing file, and leaves the files as
    they were whenever it fails, at every step that can fail. *)
Theorem Disk_atomic (env : DiskEnv) (files : gmap string Z) (p source : string) (size : Z) :
  match Disk env files p size source with
  | (files', Ok _) => files !! p = None /\ files' = <[p := size]> files /\
                      64 * MiB <= size <= 1024 * GiB /\
                      de_run env (mkfs_args p source) = Ok tt
  | (files', Err _) => files' = files
  end.
Proof.
  unfold Disk. destruct (_ || _) eqn:Es; [done|]. bool_prop.
  destruct (de_mkdir _ _); [|done]. destruct (files !! p) eqn:Ef; [done|].
  destruct (de_open _ _); [|done]. cbv zeta.
  destruct (let* _ := _ in _); [|by rewrite delete_insert_id].
  destruct (de_run env (mkfs_args p source)) as [[]|]; [split_and!; done|].
  by rewrite delete_insert_id.
Qed.

(** For every image within the store's limits the carrier size is a whole
    number of MiB with at least a fifth of slack and 64 MiB of overhead,
    computed without overflow, and [Disk] accepts it. *)
Theorem CarrierSize_correct (bytes : Z) :
  0 <= bytes <= MaxImage ->
  let n := CarrierSize bytes in
  n mod MiB = 0 /\ bytes + bytes / 5 + 64 * MiB <= n < bytes + bytes / 5 + 65 * MiB /\
  64 * MiB <= n <= 1024 * GiB.
Proof.
  unfold MaxImage. intros H. cbv zeta.
  assert (0 <= bytes / 5 <= bytes) as H5.
  { split; [apply Z.div_pos; lia|]. apply Z.div_le_upper_bound; lia. }
  set (q := bytes + bytes / 5 + 64 * MiB + MiB - 1).
  assert (0 <= q < 2 * 17179869184 + 65 * MiB) as Hq by (unfold q, MiB; lia).
  pose proof (Z.div_mod q MiB ltac:(done)) as Hd.
  pose proof (Z.mod_pos_bound q MiB ltac:(done)) as Hm.
  assert (CarrierSize bytes = q / MiB * MiB) as ->.
  { unfold CarrierSize. rewrite (Z.quot_div_nonneg bytes 5) by lia.
    rewrite !(int64_id (bytes + _)) by (unfold in_int64, two63, max_int64; lia).
    rewrite !(int64_id (_ + 64 * MiB)) by (unfold in_int64, two63, max_int64, MiB; lia).
    rewrite !(int64_id (_ + MiB)) by (unfold in_int64, two63, max_int64, MiB; lia).
    rewrite !(int64_id (_ - 1)) by (unfold in_int64, two63, max_int64, MiB; lia).
    fold q. rewrite Z.quot_div_nonneg by (unfold MiB; lia).
    apply int64_id. unfold in_int64, two63, max_int64, MiB in *. lia. }
  rewrite Z.mod_mul by done. unfold q, MiB, GiB in *. lia.
Qed.

Lemma CarrierSize_correct_witness :
  let n := CarrierSize 1000000 in
  n mod MiB = 0 /\ 1000000 + 1000000 / 5 + 64 * MiB <= n < 1000000 + 1000000 / 5 + 65 * MiB /\
  64 * MiB <= n <= 1024 * GiB.
Proof. apply (CarrierSize_correct 1000000). unfold MaxImage. lia. Defined.
