(* ===== verification/Journal.v ===== *)
(** * Journal: bounded application logs (internal/journal)

    A journal keeps recent frames in memory within [Limit] bytes and appends
    every frame to a file that is rotated at [Limit] bytes.  A file is the list
    of the frames encoded in its lines (one JSON line per frame; encoding and
    decoding a frame is taken as the identity) and [enc] is the length of a
    line.  What the operating system answers is a parameter.  [Sink] is the raw
    log of the VMM console, rotated the same way. *)

From S2P Require Import Prelude GoLib Api.
Import Strings.
Local Open Scope Z_scope.

Definition Limit : Z := 8388608.        (* 8 << 20 *)
Definition chunk_size : Z := 32768.     (* 32 << 10 *)
Definition batch_size : Z := 262144.    (* 256 << 10 *)

Record Journal : Type := mkJournal {
  j_frames : list Frame;
  j_bytes : Z;
  j_seq : Z
}.

Definition empty_journal : Journal := mkJournal [] 0 0.

Definition data_len (f : Frame) : Z := Z.of_nat (String.length (fr_Data f)).

(** What a frame counts for in memory. *)
Definition cost (f : Frame) : Z := data_len f + 128.

(** The loop of [append] that drops the oldest frames. *)
Fixpoint trim (bytes : Z) (fs : list Frame) : list Frame * Z :=
  match fs with
  | f :: ((_ :: _) as rest) => if Limit <? bytes then trim (bytes - cost f) rest else (fs, bytes)
  | _ => (fs, bytes)
  end.

(** [Journal.append] *)
Definition append (j : Journal) (f : Frame) : Journal :=
  let '(fs, bytes) := trim (j_bytes j + cost f) (j_frames j ++ [f]) in
  mkJournal fs bytes (j_seq j).

(** The frame [Write] makes of one chunk. *)
Definition new_frame (kind chunk : string) (seq now : Z) : Frame :=
  mkFrame kind chunk "" None 0 0 seq now.

(** The chunks of a write: at most [chunk_size] bytes each; every round
    consumes at least one byte. *)
Fixpoint chunks (b : string) (fuel : nat) : list string :=
  match fuel with
  | O => []
  | S fuel =>
      match b with
      | EmptyString => []
      | _ => let n := Z.to_nat (Z.min (Z.of_nat (String.length b)) chunk_size) in
             take_str n b :: chunks (drop_str n b) fuel
      end
  end.

(** ** Files *)

(** What was written to a file in one go: the line of a frame, or the first [k]
    bytes of it, without its newline. *)
Inductive piece : Type := Whole (f : Frame) | Torn (f : Frame) (k : nat).

Record Files : Type := mkFiles { f_cur : option (list piece); f_old : option (list piece) }.

Record JournalEnv : Type := mkJournalEnv {
  je_now : nat -> Z;
  je_stat : nat -> bool;                      (* [os.Stat] of the file answers *)
  je_remove : nat -> bool;                    (* the rotated file is removed *)
  je_rename : nat -> result unit;
  je_open : nat -> result unit;
  je_encode : nat -> option (error * nat)     (* the write of the line fails after some bytes *)
}.

Section Persistent.
Variable enc : Frame -> Z.
Variable env : JournalEnv.

Definition piece_size (p : piece) : Z := match p with Whole f => enc f | Torn _ k => Z.of_nat k end.
Definition file_size (fs : list piece) : Z := foldr Z.add 0 (piece_size <$> fs).

(** Rotation before a frame is appended: the rotated file is removed first, which
    may fail, and is replaced by the rename in any case. *)
Definition rotate (n : nat) (fl : Files) : Files * result unit :=
  match f_cur fl with
  | Some fs =>
      if je_stat env n && (Limit <? file_size fs)
      then match je_rename env n with
           | Ok _ => (mkFiles None (Some fs), Ok tt)
           | Err e => (mkFiles (Some fs) (if je_remove env n then None else f_old fl), Err e)
           end
      else (fl, Ok tt)
  | None => (fl, Ok tt)
  end.

Definition persist (n : nat) (fl : Files) (f : Frame) : Files * result unit :=
  match rotate n fl with
  | (fl, Err e) => (fl, Err e)
  | (fl, Ok _) =>
      match je_open env n with
      | Err e => (fl, Err e)
      | Ok _ =>
          match je_encode env n with
          | Some (e, k) => (mkFiles (Some (default [] (f_cur fl) ++ [Torn f k])) (f_old fl), Err e)
          | None => (mkFiles (Some (default [] (f_cur fl) ++ [Whole f])) (f_old fl), Ok tt)
          end
      end
  end.

(** The rounds of [Write]; a failure to persist ends it with the frame already
    in memory. *)
Fixpoint write_chunks (durable : bool) (kind : string) (cs : list string) (n : nat)
    (j : Journal) (fl : Files) : Journal * Files * result unit :=
  match cs with
  | [] => (j, fl, Ok tt)
  | c :: cs =>
      let seq := uint64 (j_seq j + 1) in
      let f := new_frame kind c seq (je_now env n) in
      let j := append (mkJournal (j_frames j) (j_bytes j) seq) f in
      if durable then
        match persist n fl f with
        | (fl, Err e) => (j, fl, Err e)
        | (fl, Ok _) => write_chunks durable kind cs (S n) j fl
        end
      else write_chunks durable kind cs (S n) j fl
  end.

(** [Journal.Write]; [durable] when the journal has a path. *)
Definition Write (durable : bool) (kind b : string) (n : nat) (j : Journal) (fl : Files)
  : Journal * Files * result unit :=
  write_chunks durable kind (chunks b (String.length b)) n j fl.
End Persistent.

(** [Open] on the frames of the rotated and the current file. *)
Definition load (j : Journal) (f : Frame) : Journal :=
  let j' := append j f in
  mkJournal (j_frames j') (j_bytes j') (Z.max (j_seq j) (fr_Sequence f)).

(** The frames of a file.  What follows a torn line is on the same line, which
    does not decode; a torn line at the end decodes when only its newline is
    missing. *)
Fixpoint readable (enc : Frame -> Z) (torn : bool) (l : list piece) : list Frame :=
  match l with
  | [] => []
  | Whole f :: l => (if torn then [] else [f]) ++ readable enc false l
  | Torn f k :: l =>
      match l with
      | [] => if negb torn && (Z.of_nat k =? enc f - 1) then [f] else []
      | _ => readable enc (torn || negb (k =? 0)%nat) l
      end
  end.

Definition Open (enc : Frame -> Z) (fl : Files) : Journal :=
  fold_left load (readable enc false (default [] (f_old fl)) ++ readable enc false (default [] (f_cur fl))) empty_journal.

(** ** Reading *)

(** The loop of [Read]: frames after the cursor, up to the batch size. *)
Fixpoint read_batch (after size : Z) (fs : list Frame) : list Frame :=
  match fs with
  | [] => []
  | f :: fs =>
      if after <? fr_Sequence f then
        if batch_size <=? size + data_len f then [f]
        else f :: read_batch after (size + data_len f) fs
      else read_batch after size fs
  end.

Definition gap_frame (first : Z) : Frame :=
  mkFrame "gap" "" "older application logs were rotated" None 0 0 (uint64 (first - 1)) 0.

(** [Journal.Read] *)
Definition Read (j : Journal) (after : Z) : list Frame :=
  match j_frames j with
  | f :: _ => if uint64 (after + 1) <? fr_Sequence f then [gap_frame (fr_Sequence f)] else []
  | [] => []
  end ++ read_batch after 0 (j_frames j).

(** The loop of a reader: each batch moves the cursor to its last frame. *)
Fixpoint read_all (j : Journal) (after : Z) (fuel : nat) : list Frame :=
  match fuel with
  | O => []
  | S fuel =>
      match Read j after with
      | [] => []
      | batch => batch ++ read_all j (List.last (fr_Sequence <$> batch) after) fuel
      end
  end.

(** ** The diagnostic sink *)

(** The contents of the current and of the rotated file ([None]: no file). *)
Record SinkFiles : Type := mkSinkFiles { sk_cur : option string; sk_old : option string }.

(** What the operating system answers at each round; a failed write may have
    written some bytes. *)
Record SinkEnv : Type := mkSinkEnv {
  sk_open : result unit;                     (* opening and sizing the file *)
  sk_close : nat -> result unit;
  sk_remove : nat -> result unit;            (* a missing file is no error *)
  sk_rename : nat -> result unit;
  sk_reopen : nat -> result unit;
  sk_write : nat -> option (nat * error);
  sk_sync : result unit
}.

(** How a stream of reads ends. *)
Inductive read_end : Type := EOF | ReadErr (e : error).

Section Sink.
Variable env : SinkEnv.

(** The rotation: close, remove the old file, rename, create an empty file. *)
Definition sink_rotate (n : nat) (fl : SinkFiles) : SinkFiles * result unit :=
  match sk_close env n with
  | Err e => (fl, Err e)
  | Ok _ =>
      match sk_remove env n with
      | Err e => (fl, Err e)
      | Ok _ =>
          match sk_rename env n with
          | Err e => (mkSinkFiles (sk_cur fl) None, Err e)
          | Ok _ =>
              match sk_reopen env n with
              | Err e => (mkSinkFiles None (sk_cur fl), Err e)
              | Ok _ => (mkSinkFiles (Some "") (sk_cur fl), Ok tt)
              end
          end
      end
  end.

(** The loop of [Sink] over the data of the reads; [size] is what it believes the
    size of the current file is. *)
Fixpoint sink_loop (n : nat) (fl : SinkFiles) (size : Z) (reads : list string) (fin : read_end) :
  SinkFiles * result unit :=
  match reads with
  | [] => (fl, match fin with EOF => sk_sync env | ReadErr e => Err e end)
  | b :: reads =>
      let len := Z.of_nat (String.length b) in
      if 0 <? len then
        let '(fl, size, r) :=
          if Limit <? int64 (size + len)
          then let '(fl, r) := sink_rotate n fl in (fl, 0, r) else (fl, size, Ok tt) in
        match r with
        | Err e => (fl, Err e)
        | Ok _ =>
            match sk_write env n with
            | Some (k, e) => (mkSinkFiles (Some (default "" (sk_cur fl) +:+ take_str k b)) (sk_old fl), Err e)
            | None =>
                sink_loop (S n) (mkSinkFiles (Some (default "" (sk_cur fl) +:+ b)) (sk_old fl))
                  (int64 (size + len)) reads fin
            end
        end
      else sink_loop (S n) fl size reads fin
  end.

(** [Sink] *)
Definition Sink (fl : SinkFiles) (reads : list string) (fin : read_end) : SinkFiles * result unit :=
  match sk_open env with
  | Err e => (fl, Err e)
  | Ok _ =>
      let cur := default "" (sk_cur fl) in
      sink_loop 0 (mkSinkFiles (Some cur) (sk_old fl)) (Z.of_nat (String.length cur)) reads fin
  end.
End Sink.

(** ** The invariant of a journal *)

Definition total (fs : list Frame) : Z := foldr Z.add 0 (cost <$> fs).

(** Consecutive sequence numbers starting at [n]. *)
Fixpoint numbered (n : Z) (fs : list Frame) : Prop :=
  match fs with
  | [] => True
  | f :: fs => fr_Sequence f = n /\ numbered (n + 1) fs
  end.

Record wf (j : Journal) : Prop := mkWf {
  wf_bytes : j_bytes j = total (j_frames j);
  wf_limit : j_bytes j <= Limit;
  wf_small : Forall (fun f => 0 < data_len f <= chunk_size) (j_frames j);
  wf_seq : 0 <= j_seq j < two64;
  wf_numbered : numbered (j_seq j - Z.of_nat (length (j_frames j)) + 1) (j_frames j);
  wf_first : Z.of_nat (length (j_frames j)) <= j_seq j
}.

Lemma total_cons (f : Frame) (fs : list Frame) : total (f :: fs) = cost f + total fs.
Proof. done. Qed.
Lemma total_app (fs gs : list Frame) : total (fs ++ gs) = total fs + total gs.
Proof. induction fs as [|f fs IH]; [done|]. rewrite <-app_comm_cons, !total_cons, IH. lia. Qed.

Lemma numbered_app (n : Z) (fs gs : list Frame) :
  numbered n (fs ++ gs) <-> numbered n fs /\ numbered (n + Z.of_nat (length fs)) gs.
Proof.
  revert n. induction fs as [|f fs IH]; intros n; simpl.
  - rewrite Z.add_0_r. tauto.
  - rewrite IH. replace (n + 1 + Z.of_nat (length fs)) with (n + Z.of_nat (S (length fs))) by lia. tauto.
Qed.

(** Trimming keeps a suffix, counts it right and ends within the limit as soon
    as one frame fits. *)
Lemma trim_spec (fs : list Frame) (bytes : Z) :
  bytes = total fs -> Forall (fun f => 0 <= data_len f <= chunk_size) fs ->
  exists dropped fs' bytes', trim bytes fs = (fs', bytes') /\ fs = dropped ++ fs' /\ bytes' = total fs' /\
    bytes' <= Limit /\ (bytes <= Limit -> dropped = []) /\ (fs <> [] -> fs' <> []).
Proof.
  revert bytes. induction fs as [|f [|g fs] IH]; intros bytes Hb Hs.
  - exists [], [], bytes. split_and!; try done. subst. unfold total, Limit. simpl. lia.
  - exists [], [f], bytes. split_and!; try done. subst. rewrite total_cons. unfold total, cost, Limit, chunk_size in *.
    inversion Hs. simpl. lia.
  - cbn [trim]. destruct (Limit <? bytes) eqn:E; bool_prop.
    + inversion Hs as [|? ? Hf Hs']; subst.
      destruct (IH (total (f :: g :: fs) - cost f)) as (d & fs' & b' & H1 & H2 & H3 & H4 & H5 & H6);
        [rewrite (total_cons f); lia|done|].
      exists (f :: d), fs', b'. split_and!; try done; [by rewrite H2|lia|]. by intros _; apply H6.
    + exists [], (f :: g :: fs), bytes. done.
Qed.

(** ** Chunks *)

Lemma drop_str_length (n : nat) (s : string) : String.length (drop_str n s) = (String.length s - n)%nat.
Proof. revert s. induction n as [|n IH]; intros [|c s]; simpl; done. Qed.

Lemma chunks_spec (fuel : nat) (b : string) :
  (String.length b <= fuel)%nat ->
  concat_str (chunks b fuel) = b /\
  Forall (fun c => 0 < Z.of_nat (String.length c) <= chunk_size) (chunks b fuel).
Proof.
  revert b. induction fuel as [|fuel IH]; intros b Hb; [by destruct b; [|simpl in Hb; lia]|].
  destruct (decide (b = "")) as [->|Hne]; [done|].
  assert (0 < String.length b)%nat as Hpos by (destruct b; [done|simpl; lia]).
  set (n := Z.to_nat (Z.min (Z.of_nat (String.length b)) chunk_size)).
  assert (chunks b (S fuel) = take_str n b :: chunks (drop_str n b) fuel) as -> by by destruct b.
  assert (0 < n <= String.length b)%nat as Hn by (unfold n, chunk_size; lia).
  assert (Z.of_nat n <= chunk_size) as Hc by (unfold n, chunk_size; lia).
  destruct (IH (drop_str n b)) as [H1 H2]; [rewrite drop_str_length; lia|]. split.
  - unfold concat_str in *. cbn [foldr]. rewrite H1. apply take_drop_str.
  - constructor; [|done]. rewrite length_take_str. lia.
Qed.

Lemma chunks_length (fuel : nat) (b : string) : (length (chunks b fuel) <= fuel)%nat.
Proof.
  revert b. induction fuel as [|fuel IH]; intros b; [done|]. destruct b as [|x b]; [simpl; lia|].
  cbn [chunks length]. match goal with |- (S (length (chunks ?y fuel)) <= _)%nat => pose proof (IH y) end. lia.
Qed.

(** ** Writing *)

Lemma append_wf (j : Journal) (f : Frame) :
  wf j -> 0 < data_len f <= chunk_size -> fr_Sequence f = j_seq j + 1 -> j_seq j + 1 < two64 ->
  let j' := append (mkJournal (j_frames j) (j_bytes j) (j_seq j + 1)) f in
  wf j' /\ j_seq j' = j_seq j + 1 /\
  exists dropped, j_frames j ++ [f] = dropped ++ j_frames j' /\
    (total (j_frames j ++ [f]) <= Limit -> dropped = []).
Proof.
  intros [Hb Hl Hs Hq Hn Hf] Hd Hseq Hmax. cbv zeta. unfold append. simpl.
  destruct (trim_spec (j_frames j ++ [f]) (j_bytes j + cost f)) as (dr & fs' & b' & -> & Heq & Hb' & Hl' & Hno & _).
  { rewrite total_app, Hb. unfold total at 3. simpl. lia. }
  { apply Forall_app. split; [|repeat constructor; lia]. eapply Forall_impl; [exact Hs|]. simpl. lia. }
  assert (length (j_frames j) + 1 = length dr + length fs')%nat as Hlen.
  { rewrite <-length_app, <-Heq, length_app. simpl. lia. }
  simpl. split; [|split; [done|]].
  - split; simpl.
    + done.
    + done.
    + eapply (Forall_app _ dr). rewrite <-Heq. apply Forall_app. split; [done|]. by apply Forall_singleton.
    + lia.
    + assert (numbered (j_seq j - Z.of_nat (length (j_frames j)) + 1) (j_frames j ++ [f])) as Hall.
      { apply numbered_app. split; [done|]. simpl. split; [lia|done]. }
      rewrite Heq in Hall. apply numbered_app in Hall as [_ Hall].
      replace (j_seq j + 1 - Z.of_nat (length fs') + 1)
        with (j_seq j - Z.of_nat (length (j_frames j)) + 1 + Z.of_nat (length dr)) by lia. done.
    + lia.
  - exists dr. split; [done|]. intros Ht. apply Hno. rewrite total_app in Ht. rewrite Hb.
    unfold total in Ht at 2. simpl in Ht. lia.
Qed.

(** What a write of the chunks [cs] did to the journal [j]. *)
Definition wrote (kind : string) (cs : list string) (j j' : Journal) (r : result unit) : Prop :=
  wf j' /\
  exists written dropped, j_frames j ++ written = dropped ++ j_frames j' /\
    numbered (j_seq j + 1) written /\ j_seq j' = j_seq j + Z.of_nat (length written) /\
    Forall (fun f => fr_Type f = kind) written /\
    (fr_Data <$> written) `prefix_of` cs /\ (is_ok r = true -> fr_Data <$> written = cs) /\
    (total (j_frames j ++ written) <= Limit -> dropped = []).

Section Writing.
Context (enc : Frame -> Z) (env : JournalEnv).

Lemma wrote_cons (kind c : string) (cs : list string) (f : Frame) (j j1 j' : Journal) (dr : list Frame)
    (r : result unit) :
  j_frames j ++ [f] = dr ++ j_frames j1 -> (total (j_frames j ++ [f]) <= Limit -> dr = []) ->
  fr_Sequence f = j_seq j + 1 -> j_seq j1 = j_seq j + 1 -> fr_Type f = kind -> fr_Data f = c ->
  Forall (fun f => 0 <= data_len f) (j_frames j ++ [f]) ->
  wrote kind cs j1 j' r -> wrote kind (c :: cs) j j' r.
Proof.
  intros Heq Hno Hf Hs Ht Hd Hpos (Hw & wr & dr' & Heq' & Hnum & Hs' & Hty & Hpre & Hok & Hno').
  split; [done|]. exists (f :: wr), (dr ++ dr'). cbn [numbered length]. rewrite !fmap_cons. rewrite Hs in *.
  split_and!; try done.
  - change (f :: wr) with ([f] ++ wr). by rewrite app_assoc, Heq, <-!app_assoc, Heq'.
  - lia.
  - by constructor.
  - rewrite Hd. by apply prefix_cons.
  - intros Hr. by rewrite Hd, Hok.
  - change (f :: wr) with ([f] ++ wr). rewrite app_assoc. intros Hl.
    assert (0 <= total wr) as Hwr.
    { clear. induction wr as [|x wr IH]; [done|]. rewrite total_cons. unfold cost, data_len. lia. }
    assert (dr = []) as -> by (apply Hno; rewrite total_app in Hl; lia).
    simpl in Heq. rewrite Heq in Hl. by apply Hno'.
Qed.

Lemma write_chunks_spec (durable : bool) (kind : string) (cs : list string) (n : nat) (j j' : Journal)
    (fl fl' : Files) (r : result unit) :
  wf j -> Forall (fun c => 0 < Z.of_nat (String.length c) <= chunk_size) cs ->
  j_seq j + Z.of_nat (length cs) < two64 ->
  write_chunks enc env durable kind cs n j fl = (j', fl', r) -> wrote kind cs j j' r.
Proof.
  revert n j fl. induction cs as [|c cs IH]; intros n j fl Hw Hc Hq H; cbn [write_chunks] in H.
  { injection H as <- <- <-. split; [done|]. exists [], []. rewrite app_nil_r. simpl.
    split_and!; try done; lia. }
  inversion Hc as [|? ? Hc1 Hc2]; subst. cbn [length] in Hq.
  rewrite uint64_id in H by (destruct Hw; lia).
  set (f := new_frame kind c (j_seq j + 1) (je_now env n)) in *.
  destruct (append_wf j f) as (Hw1 & Hs1 & dr & Heq & Hno); [done|done|done|lia|].
  set (j1 := append _ f) in *.
  assert (wrote kind cs j1 j' r -> wrote kind (c :: cs) j j' r) as Hcons.
  { apply (wrote_cons kind c cs f j j1 j' dr); try done. apply Forall_app. split; [|apply Forall_singleton; unfold data_len; lia].
    eapply Forall_impl; [apply (wf_small _ Hw)|]. simpl. lia. }
  destruct durable; [|apply Hcons; eapply IH; [done|done|lia|exact H]].
  destruct (persist enc env n fl f) as [fl1 [[]|e]].
  - apply Hcons. eapply IH; [done|done|lia|exact H].
  - injection H as <- <- <-. apply Hcons. split; [done|]. exists [], []. rewrite app_nil_r. simpl.
    split_and!; try done; [lia|apply prefix_nil].
Qed.

(** C37. [Write] keeps the journal within its limit and loses nothing it does
    not report: the bytes written become frames of at most 32 KiB that carry
    exactly the bytes given, in order and with consecutive sequence numbers;
    only oldest frames are dropped, and only when the limit is exceeded.  When
    persisting fails the frames are those of a prefix of the bytes. *)
Theorem Write_correct (durable : bool) (kind b : string) (n : nat) (j j' : Journal) (fl fl' : Files)
    (r : result unit) :
  wf j -> j_seq j + Z.of_nat (String.length b) < two64 ->
  Write enc env durable kind b n j fl = (j', fl', r) ->
  wrote kind (chunks b (String.length b)) j j' r /\ concat_str (chunks b (String.length b)) = b.
Proof.
  intros Hw Hq H. destruct (chunks_spec (String.length b) b) as [Hc Hs]; [lia|]. split; [|done].
  eapply write_chunks_spec; [done|done| |exact H].
  pose proof (chunks_length (String.length b) b). lia.
Qed.
End Writing.

(** ** Reading *)

(** The retained frames after a cursor. *)
Definition later (after : Z) (fs : list Frame) : list Frame := filter (fun f => after < fr_Sequence f) fs.

Definition gap (j : Journal) (after : Z) : list Frame :=
  match j_frames j with
  | f :: _ => if uint64 (after + 1) <? fr_Sequence f then [gap_frame (fr_Sequence f)] else []
  | [] => []
  end.

Lemma later_numbered (n after : Z) (fs : list Frame) :
  numbered n fs -> later after fs = drop (Z.to_nat (after + 1 - n)) fs.
Proof.
  revert n. unfold later. induction fs as [|f fs IH]; intros n; [by rewrite drop_nil|].
  intros [Hf Hn]. rewrite filter_cons, (IH (n + 1) Hn). case_decide as Hd.
  - replace (Z.to_nat (after + 1 - n)) with 0%nat by lia.
    by replace (Z.to_nat (after + 1 - (n + 1))) with 0%nat by lia.
  - by replace (Z.to_nat (after + 1 - n)) with (S (Z.to_nat (after + 1 - (n + 1)))) by lia.
Qed.

Lemma read_batch_take (after size : Z) (fs : list Frame) :
  exists k, read_batch after size fs = take k (later after fs) /\ (k <= length (later after fs))%nat /\
    (later after fs <> [] -> (0 < k)%nat).
Proof.
  revert size. unfold later. induction fs as [|f fs IH]; intros size; [by exists 0%nat|].
  cbn [read_batch]. rewrite filter_cons. destruct (after <? fr_Sequence f) eqn:E; bool_prop.
  - rewrite decide_True by done. destruct (batch_size <=? size + data_len f).
    + exists 1%nat. simpl. rewrite take_0. split; [done|]. split; [lia|]. intros _. lia.
    + destruct (IH (size + data_len f)) as (k & -> & Hk & _). exists (S k). simpl. split_and!; [done|lia|lia].
  - rewrite decide_False by lia. apply IH.
Qed.

Lemma numbered_drop (n : Z) (k : nat) (fs : list Frame) :
  numbered n fs -> (k <= length fs)%nat -> numbered (n + Z.of_nat k) (drop k fs).
Proof.
  intros H Hk. rewrite <-(take_drop k fs) in H. apply numbered_app in H as [_ H].
  by rewrite length_take_le in H by lia.
Qed.

Lemma numbered_last (n d : Z) (fs : list Frame) :
  numbered n fs -> fs <> [] -> List.last (fr_Sequence <$> fs) d = n + Z.of_nat (length fs) - 1.
Proof.
  revert n. induction fs as [|f [|g fs] IH]; intros n H Hne; [done| |]; destruct H as [Hf Hn].
  - simpl. lia.
  - rewrite fmap_cons. change (List.last _ d) with (List.last (fr_Sequence <$> (g :: fs)) d).
    rewrite (IH (n + 1)) by done. simpl. lia.
Qed.

(** One batch: the next frames after the cursor, and where the cursor goes. *)
Lemma batch_step (n after size : Z) (fs : list Frame) :
  numbered n fs -> n <= after + 1 ->
  let b := read_batch after size fs in
  later after fs = b ++ later (List.last (fr_Sequence <$> b) after) fs /\
  List.last (fr_Sequence <$> b) after = after + Z.of_nat (length b) /\ (later after fs <> [] -> b <> []).
Proof.
  intros Hn Ha. cbv zeta. destruct (read_batch_take after size fs) as (k & -> & Hk & Hpos).
  destruct (decide (later after fs = [])) as [He|Hne].
  { rewrite He in *. rewrite take_nil. simpl. rewrite He. split_and!; [done|lia|done]. }
  specialize (Hpos Hne). pose proof (later_numbered n after fs Hn) as Hl.
  set (m := Z.to_nat (after + 1 - n)) in *.
  assert (m < length fs)%nat as Hm.
  { destruct (decide (m < length fs)%nat) as [?|Hge]; [done|]. rewrite drop_ge in Hl by lia. done. }
  assert (numbered (after + 1) (later after fs)) as Hnum.
  { rewrite Hl. replace (after + 1) with (n + Z.of_nat m) by lia. apply numbered_drop; [done|lia]. }
  assert (List.last (fr_Sequence <$> take k (later after fs)) after = after + Z.of_nat k) as ->.
  { rewrite <-(take_drop k (later after fs)) in Hnum. apply numbered_app in Hnum as [Hnum _].
    rewrite (numbered_last (after + 1)); [|done|].
    - rewrite length_take_le by done. lia.
    - destruct (later after fs); [done|]. by destruct k; [lia|]. }
  rewrite (later_numbered n (after + Z.of_nat k) fs Hn).
  replace (Z.to_nat (after + Z.of_nat k + 1 - n)) with (m + k)%nat by lia.
  rewrite <-drop_drop, <-Hl, take_drop. split_and!; [done|by rewrite length_take_le|].
  intros _. destruct (later after fs); [done|]. by destruct k; [lia|].
Qed.

(** A cursor within the retained range sees no gap. *)
Lemma gap_none (j : Journal) (after : Z) :
  wf j -> 0 <= after -> after + 1 < two64 -> j_seq j - Z.of_nat (length (j_frames j)) <= after -> gap j after = [].
Proof.
  intros [_ _ _ _ Hn _] Ha Hb Hc. unfold gap. destruct (j_frames j) as [|f fs]; [done|].
  destruct Hn as [Hf _]. rewrite uint64_id by lia. destruct (after + 1 <? fr_Sequence f) eqn:E; [|done].
  bool_prop. lia.
Qed.

Lemma later_length (j : Journal) (after : Z) :
  wf j -> j_seq j - Z.of_nat (length (j_frames j)) <= after <= j_seq j ->
  Z.of_nat (length (later after (j_frames j))) = j_seq j - after.
Proof. intros [_ _ _ _ Hn _] H. rewrite (later_numbered _ _ _ Hn), length_drop. lia. Qed.

Lemma read_all_no_gap (j : Journal) (fuel : nat) (after : Z) :
  wf j -> j_seq j + 1 < two64 -> 0 <= after <= j_seq j ->
  j_seq j - Z.of_nat (length (j_frames j)) <= after -> (length (later after (j_frames j)) < fuel)%nat ->
  read_all j after fuel = later after (j_frames j).
Proof.
  intros Hw Hmax. revert after. induction fuel as [|fuel IH]; intros after H0 Hc Hf; [lia|].
  cbn [read_all]. unfold Read. fold (gap j after). rewrite (gap_none j after Hw) by lia. cbn [app].
  destruct (batch_step _ after 0 (j_frames j) (wf_numbered j Hw)) as (Hl & Hlast & Hne); [lia|].
  revert Hl Hlast Hne. generalize (read_batch after 0 (j_frames j)). intros b Hl Hlast Hne.
  destruct b as [|f b'].
  { destruct (later after (j_frames j)); [done|]. by destruct Hne. }
  pose proof (later_length j after Hw ltac:(lia)) as Hlen.
  apply (f_equal length) in Hl as Hl'. rewrite length_app in Hl'. cbn [length] in Hlast, Hl'.
  rewrite IH; [exact (eq_sym Hl)|..]; rewrite ?Hlast in *; lia.
Qed.

(** Following the batches reads everything that is retained. *)
Lemma read_all_complete (j : Journal) (after : Z) (fuel : nat) :
  wf j -> j_seq j + 1 < two64 -> 0 <= after <= j_seq j -> (length (j_frames j) < fuel)%nat ->
  read_all j after fuel = gap j after ++ later after (j_frames j) /\
  (gap j after = [] <-> Z.of_nat (length (later after (j_frames j))) = j_seq j - after \/ j_frames j = []).
Proof.
  intros Hw Hmax H0 Hf.
  remember (j_seq j - Z.of_nat (length (j_frames j)) + 1) as first eqn:Hfirst.
  assert (length (later after (j_frames j)) <= length (j_frames j))%nat as Hle by apply length_filter.
  destruct (decide (first - 1 <= after)) as [Hin|Hout].
  - rewrite (gap_none j after Hw) by lia. split; [apply read_all_no_gap; try done; lia|].
    split; [|done]. intros _. left. apply later_length; [done|lia].
  - destruct (j_frames j) as [|f fs] eqn:Ej.
    { unfold gap. rewrite Ej. split; [|by split; [right|]]. destruct fuel; [done|]. cbn. unfold Read. by rewrite Ej. }
    rewrite <-Ej in *.
    pose proof (wf_numbered j Hw) as Hn. pose proof Hn as Hn'. rewrite Ej in Hn'. destruct Hn' as [Hfs _].
    rewrite <-Ej, <-Hfirst in Hfs. rewrite <-Hfirst in Hn.
    assert (gap j after = [gap_frame first]) as Hg.
    { unfold gap. rewrite Ej. rewrite uint64_id by lia. rewrite Hfs.
      by destruct (after + 1 <? first) eqn:E; bool_prop; [|lia]. }
    assert (later after (j_frames j) = j_frames j) as Hall.
    { rewrite (later_numbered _ _ _ Hn). by replace (Z.to_nat _) with 0%nat by lia. }
    rewrite Hg, Hall. split; [|split; [done|]; intros [?|?]; [lia|congruence]].
    destruct fuel as [|fuel]; [lia|]. cbn [read_all]. unfold Read. fold (gap j after). rewrite Hg. cbn [app].
    f_equal. destruct (read_batch_take after 0 (j_frames j)) as (k & -> & Hk & Hpos). rewrite Hall in *.
    assert (0 < k)%nat as Hk0 by (apply Hpos; by rewrite Ej).
    assert (List.last (fr_Sequence <$> gap_frame first :: take k (j_frames j)) after = first + Z.of_nat k - 1) as ->.
    { rewrite fmap_cons. rewrite <-(take_drop k (j_frames j)) in Hn. apply numbered_app in Hn as [Hn _].
      pose proof (numbered_last first after (take k (j_frames j)) Hn) as Hlast.
      rewrite length_take_le in Hlast by done. rewrite Ej in *. destruct k; [lia|]. simpl in *. by apply Hlast. }
    rewrite read_all_no_gap; [|done|done|lia|lia|].
    + rewrite (later_numbered _ _ _ Hn).
      replace (Z.to_nat (first + Z.of_nat k - 1 + 1 - _)) with k by lia. apply take_drop.
    + rewrite (later_numbered _ _ _ Hn), length_drop. lia.
Qed.

(** Reading loses nothing silently.  A reader that starts at a cursor and
    follows the batches (as the monitor and the attach of an exited sandbox
    do) gets, within one round per frame, exactly the retained frames after its cursor, in
    order and once each, preceded by one gap frame when and only when frames
    after the cursor were dropped; without a gap it has every sequence number
    up to the last. *)
Theorem Read_complete (j : Journal) (after : Z) (fuel : nat) :
  wf j -> j_seq j + 1 < two64 -> 0 <= after <= j_seq j -> (length (j_frames j) < fuel)%nat ->
  read_all j after fuel = gap j after ++ later after (j_frames j) /\
  (gap j after = [] <-> Z.of_nat (length (later after (j_frames j))) = j_seq j - after \/ j_frames j = []).
Proof. apply read_all_complete. Qed.

(** ** Order of what is read *)

(** Increasing sequence numbers above a cursor. *)
Fixpoint above (c : Z) (fs : list Frame) : Prop :=
  match fs with [] => True | f :: fs => c < fr_Sequence f /\ above (fr_Sequence f) fs end.

Lemma above_weaken (c c' : Z) (fs : list Frame) : c' <= c -> above c fs -> above c' fs.
Proof. destruct fs as [|f fs]; [done|]. intros Hc [H1 H2]. split; [lia|done]. Qed.

Lemma last_cons_Z (f : Frame) (fs : list Frame) (c : Z) :
  List.last (fr_Sequence <$> f :: fs) c = List.last (fr_Sequence <$> fs) (fr_Sequence f).
Proof.
  revert f c. induction fs as [|g fs IH]; intros f c; [done|].
  change (List.last (fr_Sequence <$> f :: g :: fs) c) with (List.last (fr_Sequence <$> g :: fs) c).
  by rewrite !(IH g).
Qed.

Lemma last_app_Z (fs gs : list Frame) (c : Z) :
  List.last (fr_Sequence <$> (fs ++ gs)) c = List.last (fr_Sequence <$> gs) (List.last (fr_Sequence <$> fs) c).
Proof. revert c. induction fs as [|f fs IH]; intros c; [done|]. rewrite <-app_comm_cons, !last_cons_Z. apply IH. Qed.

Lemma last_mono (fs : list Frame) (c c' : Z) :
  c <= c' -> List.last (fr_Sequence <$> fs) c <= List.last (fr_Sequence <$> fs) c'.
Proof. destruct fs as [|f fs]; [done|]. rewrite !last_cons_Z. done. Qed.

Lemma above_last (c : Z) (fs : list Frame) : above c fs -> c <= List.last (fr_Sequence <$> fs) c.
Proof.
  revert c. induction fs as [|f fs IH]; intros c; [cbn; lia|]. intros [H1 H2]. rewrite last_cons_Z.
  specialize (IH _ H2). lia.
Qed.

Lemma above_app (c : Z) (fs gs : list Frame) :
  above c (fs ++ gs) <-> above c fs /\ above (List.last (fr_Sequence <$> fs) c) gs.
Proof.
  revert c. induction fs as [|f fs IH]; intros c; cbn [app above]; [cbn; tauto|]. rewrite IH, last_cons_Z. tauto.
Qed.

Lemma above_sublist (c : Z) (fs gs : list Frame) : fs `sublist_of` gs -> above c gs -> above c fs.
Proof.
  intros Hs. revert c. induction Hs as [|f fs gs Hs IH|f fs gs Hs IH]; intros c Ha; [done| |].
  - destruct Ha as [H1 H2]. split; [done|by apply IH].
  - destruct Ha as [H1 H2]. apply IH. apply (above_weaken (fr_Sequence f)); [lia|done].
Qed.

Lemma numbered_above (n c : Z) (fs : list Frame) : c < n -> numbered n fs -> above c fs.
Proof. revert n c. induction fs as [|f fs IH]; intros n c Hc; [done|]. intros [H1 H2]. split; [lia|]. apply (IH (n + 1)); [lia|done]. Qed.

Lemma numbered_range (n : Z) (fs : list Frame) :
  numbered n fs -> Forall (fun f => n <= fr_Sequence f < n + Z.of_nat (length fs)) fs.
Proof.
  revert n. induction fs as [|f fs IH]; intros n; [constructor|]. intros [H1 H2]. cbn [length].
  constructor; [lia|]. eapply Forall_impl; [apply IH, H2|]. cbn. lia.
Qed.

Lemma Read_range (j : Journal) (c : Z) : wf j -> Forall (fun f => 0 <= fr_Sequence f <= j_seq j) (Read j c).
Proof.
  intros Hw. pose proof (wf_numbered j Hw) as Hn. pose proof (numbered_range _ _ Hn) as Hr.
  pose proof (wf_seq j Hw). pose proof (wf_first j Hw).
  assert (Forall (fun f => 0 <= fr_Sequence f <= j_seq j) (j_frames j)) as HF.
  { eapply Forall_impl; [exact Hr|]. cbn. lia. }
  unfold Read. apply Forall_app. split.
  - destruct (j_frames j) as [|f fs]; [constructor|]. destruct (_ <? _); constructor; [|constructor].
    apply Forall_cons in Hr as [Hr _]. cbn [length] in *. cbn [gap_frame fr_Sequence].
    rewrite uint64_id by lia. lia.
  - destruct (read_batch_take c 0 (j_frames j)) as (k & -> & _ & _). apply Forall_take, Forall_forall.
    unfold later. intros g [_ Hg]%list_elem_of_filter. rewrite Forall_forall in HF. by apply HF.
Qed.

Lemma Read_above (j : Journal) (c : Z) : wf j -> 0 <= c -> c + 1 < two64 -> above c (Read j c).
Proof.
  intros Hw Hc Hmax. destruct (read_batch_take c 0 (j_frames j)) as (k & Hb & _ & _).
  assert (above c (read_batch c 0 (j_frames j))) as Ha.
  { rewrite Hb. apply (above_sublist c _ (later c (j_frames j))); [apply sublist_take|].
    pose proof (wf_numbered j Hw) as Hn. rewrite (later_numbered _ _ _ Hn).
    set (n := j_seq j - Z.of_nat (length (j_frames j)) + 1) in *.
    destruct (decide (length (j_frames j) <= Z.to_nat (c + 1 - n))%nat) as [Hle|Hgt].
    - rewrite drop_ge by done. done.
    - apply (numbered_above (n + Z.of_nat (Z.to_nat (c + 1 - n)))); [lia|]. apply numbered_drop; [done|lia]. }
  unfold Read. destruct (j_frames j) as [|f fs] eqn:Ej; [done|]. destruct (_ <? fr_Sequence f) eqn:E; [|done].
  rewrite uint64_id in E by lia. bool_prop. cbn [app above gap_frame fr_Sequence].
  pose proof (wf_numbered j Hw) as Hn. rewrite Ej in Hn. destruct Hn as [Hf Hn].
  assert (0 <= j_seq j < two64) as Hs by apply Hw. cbn [length] in Hf.
  assert (uint64 (fr_Sequence f - 1) = fr_Sequence f - 1) as -> by (apply uint64_id; lia).
  split; [lia|].
  assert (Forall (fun g => fr_Sequence f <= fr_Sequence g) (read_batch c 0 (f :: fs))) as HF.
  { rewrite Hb. apply Forall_take, Forall_forall. unfold later. intros g [_ Hg]%list_elem_of_filter. revert g Hg.
    apply Forall_forall, Forall_cons. split; [lia|].
    eapply Forall_impl; [apply (numbered_range _ _ Hn)|]. cbn. lia. }
  revert Ha HF. generalize (read_batch c 0 (f :: fs)). intros [|g gs]; [done|]. intros [Ha1 Ha2] HF.
  apply Forall_cons in HF as [HF _]. split; [lia|done].
Qed.

Lemma last_sublist (fs gs : list Frame) (d : Z) :
  above d gs -> fs `sublist_of` gs -> List.last (fr_Sequence <$> fs) d <= List.last (fr_Sequence <$> gs) d.
Proof.
  intros Ha Hs. revert d Ha. induction Hs as [|f fs gs Hs IH|f fs gs Hs IH]; intros d Ha; [cbn; lia| |].
  - destruct Ha as [H1 H2]. rewrite !last_cons_Z. by apply IH.
  - destruct Ha as [H1 H2]. rewrite last_cons_Z. etrans; [|apply (IH (fr_Sequence f)); done]. apply last_mono. lia.
Qed.

Lemma last_range (fs : list Frame) (d hi : Z) :
  fs <> [] -> Forall (fun f => 0 <= fr_Sequence f <= hi) fs -> 0 <= List.last (fr_Sequence <$> fs) d <= hi.
Proof.
  intros Hne HF. destruct fs as [|f fs]; [done|]. rewrite last_cons_Z. apply Forall_cons in HF as [Hf HF]. clear Hne.
  revert f Hf. induction HF as [|g fs Hg HF IH]; intros f Hf; [done|]. rewrite last_cons_Z. by apply IH.
Qed.

(** ** Restart *)

Lemma load_append (j : Journal) (f : Frame) :
  fr_Sequence f = j_seq j + 1 -> load j f = append (mkJournal (j_frames j) (j_bytes j) (j_seq j + 1)) f.
Proof.
  intros Hf. unfold load, append. simpl. destruct (trim _ _) as [fs b]. simpl. f_equal. lia.
Qed.

Lemma load_all (fs : list Frame) (j : Journal) :
  wf j -> numbered (j_seq j + 1) fs -> Forall (fun f => 0 < data_len f <= chunk_size) fs ->
  j_seq j + Z.of_nat (length fs) < two64 ->
  let j' := fold_left load fs j in
  wf j' /\ j_seq j' = j_seq j + Z.of_nat (length fs) /\ exists lost, j_frames j ++ fs = lost ++ j_frames j'.
Proof.
  revert j. induction fs as [|f fs IH]; intros j Hw Hn Hs Hq; cbv zeta; cbn [fold_left length] in *.
  { split; [done|]. split; [lia|]. exists []. by rewrite app_nil_r. }
  destruct Hn as [Hf Hn]. inversion Hs as [|? ? Hs1 Hs2]; subst.
  destruct (append_wf j f) as (Hw1 & Hq1 & dr & Heq & _); [done|done|done|lia|].
  rewrite <-load_append in Hw1, Hq1, Heq by done.
  destruct (IH (load j f)) as (Hw' & Hq' & lost & Hl); [done|by rewrite Hq1|done|lia|].
  split; [done|]. split; [lia|]. exists (dr ++ lost).
  change (f :: fs) with ([f] ++ fs). by rewrite app_assoc, Heq, <-!app_assoc, Hl.
Qed.

(** The journal [j] and the files [fl] after the frames [all] were written,
    all of them persisted. *)
Record stored (all : list Frame) (j : Journal) (fl : Files) : Prop := mkStored {
  st_wf : wf j;
  st_seq : j_seq j = Z.of_nat (length all);
  st_numbered : numbered 1 all;
  st_small : Forall (fun f => 0 < data_len f <= chunk_size) all;
  st_memory : exists lost, all = lost ++ j_frames j;
  st_files : exists lost old cur, all = lost ++ old ++ cur /\
    default [] (f_old fl) = Whole <$> old /\ default [] (f_cur fl) = Whole <$> cur;
  st_last : all <> [] -> default [] (f_cur fl) <> []
}.

Lemma stored_empty : stored [] empty_journal (mkFiles None None).
Proof. split; try done; [by exists []|by exists [], [], []]. Qed.

Lemma readable_whole (enc : Frame -> Z) (l : list Frame) : readable enc false (Whole <$> l) = l.
Proof. induction l as [|f l IH]; [done|]. rewrite fmap_cons. cbn. by rewrite IH. Qed.

Section Restart.
Context (enc : Frame -> Z) (env : JournalEnv).

Lemma persist_files (n : nat) (fl fl' : Files) (f : Frame) :
  persist enc env n fl f = (fl', Ok tt) ->
  (default [] (f_old fl') = default [] (f_old fl) /\ default [] (f_cur fl') = default [] (f_cur fl) ++ [Whole f]) \/
  (default [] (f_old fl') = default [] (f_cur fl) /\ default [] (f_cur fl') = [Whole f]).
Proof.
  unfold persist, rotate. destruct fl as [[cur|] old]; simpl.
  - destruct (je_stat env n && (Limit <? file_size enc cur)); [destruct (je_rename env n); [|done]|];
      (destruct (je_open env n); [|done]); (destruct (je_encode env n) as [[]|]; [done|]); intros [= <-]; simpl; auto.
  - destruct (je_open env n); [|done]. destruct (je_encode env n) as [[]|]; [done|]. intros [= <-]. simpl. auto.
Qed.

Lemma stored_write (kind : string) (cs : list string) (n : nat) (all : list Frame) (j j' : Journal) (fl fl' : Files) :
  stored all j fl -> Forall (fun c => 0 < Z.of_nat (String.length c) <= chunk_size) cs ->
  j_seq j + Z.of_nat (length cs) < two64 ->
  write_chunks enc env true kind cs n j fl = (j', fl', Ok tt) ->
  exists written, fr_Data <$> written = cs /\ stored (all ++ written) j' fl'.
Proof.
  revert n all j fl. induction cs as [|c cs IH]; intros n all j fl Hst Hc Hq H; cbn [write_chunks] in H.
  { injection H as <- <-. exists []. by rewrite app_nil_r. }
  inversion Hc as [|? ? Hc1 Hc2]; subst. cbn [length] in Hq. destruct Hst as [Hw Hsq Hn Hs [l1 Hm] (l2 & old & cur & Hf & Hfo & Hfc) Hlast].
  rewrite uint64_id in H by (destruct Hw; lia).
  set (f := new_frame kind c (j_seq j + 1) (je_now env n)) in *.
  destruct (append_wf j f) as (Hw1 & Hs1 & dr & Heq & _); [done|done|done|lia|].
  destruct (persist enc env n fl f) as [fl1 [[]|e]] eqn:Ep; [|done].
  assert (exists lost old' cur', all ++ [f] = lost ++ old' ++ cur' /\ default [] (f_old fl1) = Whole <$> old' /\
    default [] (f_cur fl1) = Whole <$> cur' /\ cur' <> []) as (l3 & old' & cur' & Hf' & Hfo' & Hfc' & Hne).
  { destruct (persist_files _ _ _ _ Ep) as [[-> ->]|[-> ->]]; rewrite ?Hfo, ?Hfc.
    - exists l2, old, (cur ++ [f]). rewrite fmap_app. split_and!; [by rewrite Hf, <-!app_assoc|done|done|by destruct cur].
    - exists (l2 ++ old), cur, [f]. split_and!; [by rewrite Hf, <-!app_assoc|done|done|done]. }
  set (j1 := append _ f) in *.
  destruct (IH (S n) (all ++ [f]) j1 fl1) as (wr & Hwr & Hst'); [|done|lia|exact H|].
  - split.
    + done.
    + rewrite Hs1, length_app, Hsq. simpl. lia.
    + apply numbered_app. split; [done|]. simpl. split; [lia|done].
    + apply Forall_app. split; [done|]. by apply Forall_singleton.
    + exists (l1 ++ dr). by rewrite Hm, <-!app_assoc, Heq.
    + by exists l3, old', cur'.
    + intros _. rewrite Hfc'. by destruct cur'.
  - exists (f :: wr). split; [by rewrite fmap_cons, Hwr|].
    change (f :: wr) with ([f] ++ wr). by rewrite app_assoc.
Qed.

(** A session of writes, all successful. *)
Fixpoint write_all (ws : list (string * string)) (n : nat) (j : Journal) (fl : Files) : option (Journal * Files) :=
  match ws with
  | [] => Some (j, fl)
  | (kind, b) :: ws =>
      match Write enc env true kind b n j fl with
      | (j, fl, Ok _) => write_all ws (n + String.length b) j fl
      | _ => None
      end
  end.

Lemma stored_write_all (ws : list (string * string)) (n : nat) (all : list Frame) (j j' : Journal) (fl fl' : Files) :
  stored all j fl -> j_seq j + foldr Z.add 0 ((fun w => Z.of_nat (String.length w.2)) <$> ws) < two64 ->
  write_all ws n j fl = Some (j', fl') ->
  exists written, concat_str (fr_Data <$> written) = concat_str (ws.*2) /\ stored (all ++ written) j' fl'.
Proof.
  revert n all j fl. induction ws as [|[kind b] ws IH]; intros n all j fl Hst Hq H; cbn [write_all] in H.
  { injection H as <- <-. exists []. by rewrite app_nil_r. }
  rewrite fmap_cons in Hq. cbn [foldr snd] in Hq.
  destruct (Write enc env true kind b n j fl) as [[j1 fl1] [[]|e]] eqn:Ew; [|done].
  destruct (chunks_spec (String.length b) b) as [Hc Hs]; [lia|].
  pose proof (chunks_length (String.length b) b) as Hlen.
  assert (0 <= foldr Z.add 0 ((fun w : string * string => Z.of_nat (String.length w.2)) <$> ws)) as Hpos.
  { clear. induction ws as [|w ws IH]; [done|]. rewrite fmap_cons. cbn [foldr]. lia. }
  destruct (stored_write kind _ n all j j1 fl fl1 Hst Hs) as (wr & Hwr & Hst1); [lia|done|].
  destruct (IH (n + String.length b)%nat (all ++ wr) j1 fl1 Hst1) as (wr' & Hwr' & Hst'); [|done|].
  { apply st_seq in Hst1 as ->. apply st_seq in Hst as Hj. rewrite length_app.
    assert (length wr = length (chunks b (String.length b))) by (by rewrite <-Hwr, length_fmap). lia. }
  exists (wr ++ wr'). rewrite app_assoc. split; [|done].
  by rewrite fmap_app, fmap_cons, Hwr, concat_str_app, Hwr', Hc.
Qed.

(** A restart never goes back.  After any session of successful writes to
    fresh files, opening the files again gives a well-formed journal whose
    sequence number is the one of the journal that wrote them (so no number is
    used twice), and both the frames in memory and the frames recovered are a
    suffix of everything written. *)
Theorem Open_restores (ws : list (string * string)) (j : Journal) (fl : Files) :
  foldr Z.add 0 ((fun w => Z.of_nat (String.length w.2)) <$> ws) < two64 ->
  write_all ws 0 empty_journal (mkFiles None None) = Some (j, fl) ->
  wf (Open enc fl) /\ j_seq (Open enc fl) = j_seq j /\
  exists all lost lost', concat_str (fr_Data <$> all) = concat_str (ws.*2) /\
    all = lost ++ j_frames j /\ all = lost' ++ j_frames (Open enc fl).
Proof.
  intros Hq H. destruct (stored_write_all ws 0 [] _ _ _ _ stored_empty Hq H) as (all & Hall & Hst). simpl in Hst.
  destruct Hst as [Hw Hsq Hn Hs [l1 Hm] (l2 & old & cur & Hf & Hfo & Hfc) Hlast].
  set (L := old ++ cur) in *.
  rewrite Hf in Hn, Hs. apply numbered_app in Hn as [_ Hn]. apply Forall_app in Hs as [_ Hs].
  assert (length all = length l2 + length L)%nat as Hlen by (by rewrite Hf, length_app).
  assert (wf (mkJournal [] 0 (Z.of_nat (length l2)))) as Hw0.
  { destruct Hw. split; simpl; try done; unfold Limit; lia. }
  destruct (load_all L (mkJournal [] 0 (Z.of_nat (length l2)))) as (Hwo & Hqo & lost & Hlo);
    [done| |done|simpl; destruct Hw; lia|].
  { simpl. by replace (Z.of_nat (length l2) + 1) with (1 + Z.of_nat (length l2)) by lia. }
  assert (Open enc fl = fold_left load L (mkJournal [] 0 (Z.of_nat (length l2)))) as Hopen.
  { unfold Open. rewrite Hfo, Hfc, !readable_whole. fold L. destruct L as [|f L'] eqn:EL.
    - destruct (decide (all = [])) as [->|Hne]; [by destruct l2|].
      apply Hlast in Hne. rewrite Hfc in Hne. apply app_eq_nil in EL as [_ ->]. done.
    - destruct Hn as [Hfs _]. cbn [fold_left]. f_equal. unfold load. simpl. f_equal. lia. }
  rewrite Hopen. split; [done|]. split; [rewrite Hqo; simpl; lia|].
  exists all, l1, (l2 ++ lost). split_and!; [done|done|]. rewrite Hf at 1. by rewrite <-app_assoc, <-Hlo.
Qed.
End Restart.

(** The length of a file. *)
Definition file_len (f : option string) : Z := Z.of_nat (String.length (default "" f)).

(** Everything the two files hold, oldest first. *)
Definition sink_text (fl : SinkFiles) : string := default "" (sk_old fl) +:+ default "" (sk_cur fl).

Lemma file_len_app (a b : string) : file_len (Some (a +:+ b)) = file_len (Some a) + file_len (Some b).
Proof. unfold file_len. cbn. rewrite length_app_str. lia. Qed.

Lemma file_len_take (k : nat) (b : string) : file_len (Some (take_str k b)) <= file_len (Some b).
Proof. unfold file_len. cbn. rewrite length_take_str. lia. Qed.

(** The files stay within the limit, and what is dropped is a prefix. *)
Lemma sink_loop_spec (env : SinkEnv) (reads : list string) (fin : read_end) (n : nat) (fl fl' : SinkFiles) (r : result unit) :
  file_len (sk_cur fl) <= Limit -> file_len (sk_old fl) <= Limit ->
  Forall (fun b => file_len (Some b) <= chunk_size) reads ->
  sink_loop env n fl (file_len (sk_cur fl)) reads fin = (fl', r) ->
  file_len (sk_cur fl') <= Limit /\ file_len (sk_old fl') <= Limit /\
  (r = Ok tt -> exists dropped, dropped +:+ sink_text fl' = sink_text fl +:+ concat_str reads).
Proof.
  intros Hc Ho Hr. revert n fl Hc Ho. induction Hr as [|b reads Hb _ IH]; intros n fl Hc Ho H.
  { cbn in H. injection H as <- <-. split_and!; [done|done|]. intros _. exists "". by rewrite app_nil_r_str. }
  cbn [sink_loop] in H. fold (file_len (Some b)) in H. change (Z.of_nat (String.length b)) with (file_len (Some b)) in H.
  destruct (0 <? file_len (Some b)) eqn:E0.
  2: { bool_prop. destruct b as [|c b]; [|unfold file_len in E0; cbn in E0; lia]. by apply IH in H. }
  assert (0 <= file_len (sk_cur fl)) by (unfold file_len; lia). bool_prop.
  assert (forall fl1, file_len (sk_cur fl1) + file_len (Some b) <= Limit -> file_len (sk_old fl1) <= Limit ->
    match sk_write env n with
    | Some (k, e) => (mkSinkFiles (Some (default "" (sk_cur fl1) +:+ take_str k b)) (sk_old fl1), Err e)
    | None => sink_loop env (S n) (mkSinkFiles (Some (default "" (sk_cur fl1) +:+ b)) (sk_old fl1))
                (int64 (file_len (sk_cur fl1) + file_len (Some b))) reads fin
    end = (fl', r) ->
    file_len (sk_cur fl') <= Limit /\ file_len (sk_old fl') <= Limit /\
    (r = Ok tt -> exists dropped, dropped +:+ sink_text fl' = sink_text fl1 +:+ concat_str (b :: reads))) as Step.
  { clear H. intros fl1 Hl Ho1 H. assert (0 <= file_len (sk_cur fl1)) by (unfold file_len; lia).
    pose proof (file_len_app (default "" (sk_cur fl1)) b) as E.
    change (file_len (Some (default "" (sk_cur fl1)))) with (file_len (sk_cur fl1)) in E.
    destruct (sk_write env n) as [[k e]|].
    - injection H as <- <-. split_and!; [|done|done]. cbn [sk_cur]. rewrite file_len_app. pose proof (file_len_take k b).
      change (file_len (Some (default "" (sk_cur fl1)))) with (file_len (sk_cur fl1)). lia.
    - rewrite int64_id in H by (unfold in_int64, two63, max_int64, Limit, chunk_size in *; lia).
      rewrite <-E in H. apply IH in H as (B1 & B2 & B3); [|cbn [sk_cur]; lia|done]. split_and!; [done|done|].
      intros Hok. destruct (B3 Hok) as [dropped Hd]. exists dropped. rewrite Hd. unfold sink_text.
      cbn [sk_cur sk_old concat_str foldr from_option id]. by rewrite !app_assoc_str. }
  rewrite int64_id in H by (unfold in_int64, two63, max_int64, Limit, chunk_size in *; lia).
  destruct (Limit <? _) eqn:EL; bool_prop; [|by apply Step].
  unfold sink_rotate in H. destruct (sk_close env n); [|by injection H as <- <-].
  destruct (sk_remove env n); [|by injection H as <- <-].
  destruct (sk_rename env n); [|by injection H as <- <-]. destruct (sk_reopen env n); [|by injection H as <- <-].
  apply (Step (mkSinkFiles (Some "") (sk_cur fl))) in H as (B1 & B2 & B3);
    [|unfold Limit, chunk_size in *; cbn [sk_cur]; change (file_len (Some "")) with 0; lia|done].
  split_and!; [done|done|]. intros Hok. destruct (B3 Hok) as [dropped Hd]. exists (default "" (sk_old fl) +:+ dropped).
  rewrite app_assoc_str, Hd. unfold sink_text. cbn [sk_cur sk_old from_option id]. by rewrite app_nil_r_str, app_assoc_str.
Qed.

(** The diagnostic sink never holds more than [Limit] bytes in either of its
    two files, whatever operation fails on the way; and when it ends normally, the
    two files hold the end of everything that was ever written, in order: only a
    prefix was dropped. *)
Theorem Sink_bounded (env : SinkEnv) (fl fl' : SinkFiles) (reads : list string) (fin : read_end) (r : result unit) :
  file_len (sk_cur fl) <= Limit -> file_len (sk_old fl) <= Limit ->
  Forall (fun b => file_len (Some b) <= chunk_size) reads ->
  Sink env fl reads fin = (fl', r) ->
  file_len (sk_cur fl') <= Limit /\ file_len (sk_old fl') <= Limit /\
  (r = Ok tt -> exists dropped, dropped +:+ sink_text fl' = sink_text fl +:+ concat_str reads).
Proof.
  intros Hc Ho Hr. unfold Sink. destruct (sk_open env) as [u|e]; [|by intros [= <- <-]].
  intros H. by apply (sink_loop_spec env reads fin 0 (mkSinkFiles (Some (default "" (sk_cur fl))) (sk_old fl))) in H.
Qed.

Definition sink_env : SinkEnv :=
  mkSinkEnv (Ok tt) (fun _ => Ok tt) (fun _ => Ok tt) (fun _ => Ok tt) (fun _ => Ok tt) (fun _ => None) (Ok tt).

Lemma Sink_bounded_witness :
  exists fl, Sink sink_env (mkSinkFiles None (Some "old ")) ["console "; "log"] EOF = (fl, Ok tt) /\
    exists dropped, dropped +:+ sink_text fl = "old console log".
Proof.
  eexists. split; [reflexivity|].
  apply (Sink_bounded sink_env (mkSinkFiles None (Some "old ")) _ ["console "; "log"] EOF (Ok tt)).
  - vm_compute. discriminate.
  - vm_compute. discriminate.
  - repeat constructor; vm_compute; discriminate.
  - reflexivity.
  - reflexivity.
Defined.

(** ** Witnesses *)

Definition plain_env : JournalEnv :=
  mkJournalEnv (fun _ => 0) (fun _ => true) (fun _ => true) (fun _ => Ok tt) (fun _ => Ok tt) (fun _ => None).

Lemma empty_wf : wf empty_journal.
Proof. by split. Qed.

Definition written_journal : Journal * Files * result unit :=
  Write cost plain_env true "stdout" "hello" 0 empty_journal (mkFiles None None).

Lemma Write_correct_witness :
  wrote "stdout" (chunks "hello" 5) empty_journal written_journal.1.1 (Ok tt) /\
  concat_str (chunks "hello" 5) = "hello".
Proof.
  apply (Write_correct cost plain_env true "stdout" "hello" 0 empty_journal written_journal.1.1
           (mkFiles None None) written_journal.1.2 (Ok tt)); [apply empty_wf|reflexivity|].
  vm_compute. reflexivity.
Defined.

Lemma Read_complete_witness :
  read_all written_journal.1.1 0 2 = gap written_journal.1.1 0 ++ later 0 (j_frames written_journal.1.1).
Proof.
  assert (wf written_journal.1.1) as Hw.
  { apply (write_chunks_spec cost plain_env true "stdout" ["hello"] 0 empty_journal written_journal.1.1
             (mkFiles None None) written_journal.1.2 (Ok tt)); [apply empty_wf| |reflexivity|].
    - repeat constructor; unfold chunk_size; simpl; lia.
    - vm_compute. reflexivity. }
  apply (Read_complete written_journal.1.1 0 2); [exact Hw|reflexivity| |].
  - vm_compute. split; discriminate.
  - vm_compute. lia.
Defined.

Lemma Open_restores_witness :
  exists j fl, write_all cost plain_env [("stdout", "a"); ("stderr", "b")] 0 empty_journal (mkFiles None None) =
      Some (j, fl) /\ wf (Open cost fl) /\ j_seq (Open cost fl) = j_seq j.
Proof.
  eexists _, _. split; [vm_compute; reflexivity|].
  match goal with |- wf (Open _ ?fl) /\ _ = j_seq ?j =>
    destruct (Open_restores cost plain_env [("stdout", "a"); ("stderr", "b")] j fl) as (H1 & H2 & _) end;
    [reflexivity|vm_compute; reflexivity|]. split; [exact H1|exact H2].
Defined.
