(* ===== verification/Network.v ===== *)
(** * Network: addresses, firewall scripts and DNS admission (internal/network)

    [For] derives the names and addresses of a sandbox from its identifier and
    slot; [Prepare] and [Remove] run a fixed plan of commands through a runner
    (a parameter); [HostRules] and [NamespaceRules] print the firewall scripts;
    the DNS forwarder admits queries through two token buckets and two
    semaphores. *)

From S2P Require Import Prelude GoLib Api.
Import Strings Strconv.
Local Open Scope Z_scope.
Local Open Scope go_scope.

Record NetConfig : Type := mkNetConfig {
  n_Namespace : string;
  n_HostVeth : string;
  n_PeerVeth : string;
  n_HostIP : string;
  n_PeerIP : string;
  n_Table : string;
  n_GuestIP : string;
  n_Gateway : string
}.

(** [fmt.Sprintf("10.240.%d.%d", hi, lo)] *)
Definition address (hi lo : Z) : string := "10.240." +:+ Itoa hi +:+ "." +:+ Itoa lo.

(** [For] *)
Definition For (id : string) (slot : Z) : result NetConfig :=
  guard (String.length id =? 32)%nat && negb (slot <? 1) && negb (16000 <? slot)
    else Errorf "invalid network allocation" in
  guard forallb is_hex (String.list_ascii_of_string id) else Errorf "invalid sandbox ID" in
  let a := int64 (slot * 4) in
  Ok (mkNetConfig ("nf-" +:+ take_str 12 id) ("nh" +:+ take_str 10 id) ("np" +:+ take_str 10 id)
        (address (a ÷ 256) (Z.rem a 256 + 1)) (address (a ÷ 256) (Z.rem a 256 + 2))
        ("nf_" +:+ take_str 12 id) "172.30.0.2" "172.30.0.1").

(** ** Command plans *)

(** The commands of [Prepare], in order. *)
Definition prepare_plan (c : NetConfig) : list (list string) :=
  [["ip"; "netns"; "add"; n_Namespace c];
   ["ip"; "link"; "add"; n_HostVeth c; "type"; "veth"; "peer"; "name"; n_PeerVeth c];
   ["ip"; "link"; "set"; n_PeerVeth c; "netns"; n_Namespace c];
   ["ip"; "addr"; "add"; n_HostIP c +:+ "/30"; "dev"; n_HostVeth c];
   ["ip"; "link"; "set"; n_HostVeth c; "up"];
   ["ip"; "-n"; n_Namespace c; "addr"; "add"; n_PeerIP c +:+ "/30"; "dev"; n_PeerVeth c];
   ["ip"; "-n"; n_Namespace c; "link"; "set"; n_PeerVeth c; "up"];
   ["ip"; "-n"; n_Namespace c; "link"; "set"; "lo"; "up"];
   ["ip"; "-n"; n_Namespace c; "route"; "add"; "default"; "via"; n_HostIP c];
   ["ip"; "netns"; "exec"; n_Namespace c; "ip"; "tuntap"; "add"; "dev"; "tap0"; "mode"; "tap"];
   ["ip"; "-n"; n_Namespace c; "addr"; "add"; n_Gateway c +:+ "/30"; "dev"; "tap0"];
   ["ip"; "-n"; n_Namespace c; "link"; "set"; "tap0"; "up"];
   ["ip"; "netns"; "exec"; n_Namespace c; "sysctl"; "-qw"; "net.ipv4.ip_forward=1"];
   ["ip"; "netns"; "exec"; n_Namespace c; "sysctl"; "-qw"; "net.ipv6.conf.all.disable_ipv6=1"]].

Definition remove_plan (c : NetConfig) : list (list string) :=
  [["nft"; "delete"; "table"; "inet"; n_Table c];
   ["ip"; "link"; "delete"; n_HostVeth c];
   ["ip"; "netns"; "delete"; n_Namespace c]].

(** ** Firewall scripts *)

Definition nl : string := String "010"%char EmptyString.
Definition quoted (s : string) : string := String "034"%char (s +:+ String "034"%char EmptyString).

(** A script is its lines, each ended by a newline. *)
Fixpoint script (lines : list string) : string :=
  match lines with
  | [] => EmptyString
  | l :: lines => l +:+ nl +:+ script lines
  end.

Definition iif (c : NetConfig) (rest : string) : string := "  iifname " +:+ quoted (n_HostVeth c) +:+ rest.
Definition oif (c : NetConfig) (rest : string) : string := "  oifname " +:+ quoted (n_HostVeth c) +:+ rest.

Definition private_ranges : string :=
  "{ 0.0.0.0/8, 10.0.0.0/8, 100.64.0.0/10, 127.0.0.0/8, 169.254.0.0/16, 172.16.0.0/12, 192.0.0.0/24, 192.168.0.0/16, 198.18.0.0/15, 224.0.0.0/4, 240.0.0.0/4 }".

(** The fixed part of the host script. *)
Definition host_head (c : NetConfig) : list string :=
  ["table inet " +:+ n_Table c +:+ " {";
   " chain input { type filter hook input priority -20; policy accept;";
   iif c (" ip saddr != " +:+ n_PeerIP c +:+ " drop");
   iif c (" ip daddr " +:+ n_HostIP c +:+ " udp dport 53 accept");
   iif c (" ip daddr " +:+ n_HostIP c +:+ " tcp dport 53 accept");
   iif c " ct state established,related accept";
   iif c " drop";
   " }";
   " chain forward { type filter hook forward priority -20; policy accept;";
   iif c " meta nfproto ipv6 drop";
   iif c (" ip saddr != " +:+ n_PeerIP c +:+ " drop");
   iif c " ct state established,related accept";
   iif c (" ip daddr " +:+ private_ranges +:+ " drop");
   iif c " accept";
   oif c " ct state established,related accept";
   oif c " ct status dnat accept";
   oif c " drop";
   " }";
   " chain postrouting { type nat hook postrouting priority srcnat; policy accept;";
   "  ip saddr " +:+ n_PeerIP c +:+ " masquerade";
   oif c " ct status dnat masquerade";
   " }";
   " chain prerouting { type nat hook prerouting priority dstnat; policy accept;"].

Definition dnat (c : NetConfig) (target : string) (p : Port) : string :=
  " " +:+ target +:+ " tcp dport " +:+ Itoa (p_HostPort p) +:+ " dnat ip to " +:+ n_PeerIP c +:+ ":" +:+
  Itoa (p_ContainerPort p).

Definition any_local : string := "fib daddr type local".

Definition is_public (p : Port) : bool := bool_decide (p_HostIP p = "0.0.0.0").

Definition host_lines (c : NetConfig) (ports : list Port) : list string :=
  host_head c ++
  (dnat c any_local <$> filter (fun p => is_public p = true) ports) ++
  [" }"; " chain output { type nat hook output priority dstnat; policy accept;"] ++
  ((fun p => dnat c (if is_public p then any_local else "ip daddr 127.0.0.1") p) <$> ports) ++
  [" }"; "}"].

(** [HostRules] *)
Definition HostRules (c : NetConfig) (ports : list Port) : string := script (host_lines c ports).

Definition namespace_lines (c : NetConfig) (ports : list Port) : list string :=
  ["table ip niflhel {";
   " chain postrouting { type nat hook postrouting priority srcnat; policy accept; oifname " +:+
     quoted (n_PeerVeth c) +:+ " ip saddr 172.30.0.2 masquerade; }";
   " chain prerouting { type nat hook prerouting priority dstnat; policy accept;"] ++
  ((fun p => " iifname " +:+ quoted (n_PeerVeth c) +:+ " tcp dport " +:+ Itoa (p_ContainerPort p) +:+
             " dnat to 172.30.0.2:" +:+ Itoa (p_ContainerPort p)) <$> ports) ++
  [" }";
   " chain forward { type filter hook forward priority filter; policy drop;";
   " iifname " +:+ quoted "tap0" +:+ " ip saddr != 172.30.0.2 drop";
   " ct state established,related accept";
   " iifname " +:+ quoted "tap0" +:+ " accept";
   " ct status dnat accept";
   " }";
   "}"].

(** [NamespaceRules] *)
Definition NamespaceRules (c : NetConfig) (ports : list Port) : string := script (namespace_lines c ports).

(** ** Prepare and Remove *)

(** A field of a dotted address: 1 to 3 digits, no leading zero, at most 255. *)
Definition octet (s : string) : option Z :=
  match numeral s with
  | Some n =>
      if (String.length s <=? 3)%nat && (n <=? 255) &&
         negb (HasPrefix s "0" && negb (String.length s =? 1)%nat)
      then Some n else None
  | None => None
  end.

(** [net.ParseIP] on an IPv4 address, as its 32-bit number. *)
Definition ParseIP (s : string) : option Z :=
  match Split s "." with
  | [a; b; c; d] =>
      a ← octet a; b ← octet b; c ← octet c; d ← octet d;
      Some (((a * 256 + b) * 256 + c) * 256 + d)
  | _ => None
  end.

(** [net.ParseCIDR] on an IPv4 prefix: its address and its length.  (The host's
    route list is the IPv4 table; an IPv6 prefix contains no IPv4 address.) *)
Definition ParseCIDR (s : string) : option (Z * Z) :=
  let '(addr, mask, found) := Cut s "/" in
  if found then
    a ← ParseIP addr; n ← numeral mask; if n <=? 32 then Some (a, n) else None
  else None.

(** [IPNet.Contains]: the first [snd net] bits agree. *)
Definition net_contains (net : Z * Z) (ip : Z) : bool :=
  Z.shiftr (fst net) (32 - snd net) =? Z.shiftr ip (32 - snd net).

(** What the checks of [Prepare] read of the host: the forwarding switch and the
    destinations of [ip -j route show] (a failed or undecodable command is an
    error). *)
Record HostView : Type := mkHostView {
  hv_forwarding : result string;
  hv_routes : result (list string)
}.

(** One route of the host: does it contain the address of the sandbox? *)
Definition route_conflicts (host_ip dst : string) : bool :=
  if bool_decide (dst = "default") || bool_decide (dst = "") then false
  else match ParseCIDR dst, ParseIP host_ip with
       | Some net, Some ip => net_contains net ip
       | _, _ => false
       end.

(** The checks [Prepare] makes when it runs real commands. *)
Definition preflight (h : HostView) (c : NetConfig) : result unit :=
  let forwarding := match hv_forwarding h with Ok v => bool_decide (TrimSpace v = "1") | Err _ => false end in
  guard forwarding else Errorf "enable host net.ipv4.ip_forward before bridge networking" in
  let* routes := hv_routes h in
  guard negb (existsb (route_conflicts (n_HostIP c)) routes)
    else Errorf "sandbox address conflicts with host route" in
  Ok tt.

(** A command and its standard input. *)
Record Command : Type := mkCommand { cmd_argv : list string; cmd_stdin : string }.

Definition plain (argv : list string) : Command := mkCommand argv "".

(** [Manager.nft]: with an injected runner, the pseudo command "nft-script". *)
Definition nft_command (injected : bool) (ns text : string) : Command :=
  if injected then plain ["nft-script"; ns; text]
  else if bool_decide (ns = "") then mkCommand ["nft"; "-f"; "-"] text
  else mkCommand ["ip"; "netns"; "exec"; ns; "nft"; "-f"; "-"] text.

(** Failures of [Remove] that mean the resource is already gone. *)
Definition missing (e : error) : bool :=
  Contains (error_text e) "No such" || Contains (error_text e) "Cannot find" ||
  Contains (error_text e) "does not exist".

Section Runner.
(** What running a command answers. *)
Variable runner : Command -> result unit.

(** Run commands in order and stop at the first failure that is not
    [tolerated]; the commands that were run, and the outcome. *)
Fixpoint run_plan (tolerated : error -> bool) (cmds : list Command) : list Command * result unit :=
  match cmds with
  | [] => ([], Ok tt)
  | c :: cmds =>
      let continue := match runner c with Ok _ => Ok tt | Err e => if tolerated e then Ok tt else Err e end in
      match continue with
      | Err e => ([c], Err e)
      | Ok _ => let '(ran, r) := run_plan tolerated cmds in (c :: ran, r)
      end
  end.

(** Everything [Prepare] runs for [c], in order. *)
Definition prepare_commands (injected : bool) (c : NetConfig) (ports : list Port) : list Command :=
  (plain <$> prepare_plan c) ++
  [nft_command injected "" (HostRules c ports);
   nft_command injected (n_Namespace c) (NamespaceRules c ports)].

(** [Manager.Prepare]; [host] is [None] for an injected runner. *)
Definition Prepare (host : option HostView) (s : Sandbox) : list Command * result unit :=
  if bool_decide (s_Network (sb_Spec s) = "none") then ([], Ok tt)
  else match For (sb_ID s) (sb_Slot s) with
       | Err e => ([], Err e)
       | Ok c =>
           match match host with Some h => preflight h c | None => Ok tt end with
           | Err e => ([], Err e)
           | Ok _ =>
               run_plan (fun _ => false)
                 (prepare_commands (match host with None => true | _ => false end) c (s_Ports (sb_Spec s)))
           end
       end.

(** [Manager.Remove] *)
Definition NetRemove (s : Sandbox) : list Command * result unit :=
  if bool_decide (s_Network (sb_Spec s) = "none") then ([], Ok tt)
  else match For (sb_ID s) (sb_Slot s) with
       | Err e => ([], Err e)
       | Ok c => run_plan missing (plain <$> remove_plan c)
       end.
End Runner.

(** ** What the host firewall means

    A rule of a chain is a list of conditions and a verdict; a packet takes the
    verdict of the first rule whose conditions all hold, and the chains' policy
    is [accept]. *)

Inductive cond : Type :=
| Iif (veth : string)
| Oif (veth : string)
| IPv6
| SrcNot (ip : string)
| DstIs (ip : string)
| DstIn (nets : list string)
| Dport (proto : string) (port : Z)
| Established
| DNATed.

Inductive verdict : Type := Accept | Drop.

Record Packet : Type := mkPacket {
  pk_iif : string;
  pk_oif : string;
  pk_ipv6 : bool;
  pk_src : Z;
  pk_dst : Z;
  pk_proto : string;
  pk_dport : Z;
  pk_established : bool;
  pk_dnat : bool
}.

(** The text of a condition, of a verdict and of a rule. *)
Fixpoint comma_list (l : list string) : string :=
  match l with
  | [] => ""
  | [x] => x
  | x :: l => x +:+ ", " +:+ comma_list l
  end.

Definition show_cond (k : cond) : string :=
  match k with
  | Iif v => "iifname " +:+ quoted v
  | Oif v => "oifname " +:+ quoted v
  | IPv6 => "meta nfproto ipv6"
  | SrcNot ip => "ip saddr != " +:+ ip
  | DstIs ip => "ip daddr " +:+ ip
  | DstIn nets => "ip daddr { " +:+ comma_list nets +:+ " }"
  | Dport proto port => proto +:+ " dport " +:+ Itoa port
  | Established => "ct state established,related"
  | DNATed => "ct status dnat"
  end.

Definition show_verdict (v : verdict) : string :=
  match v with Accept => " accept" | Drop => " drop" end.

Definition show_rule (r : list cond * verdict) : string :=
  " " +:+ foldr (fun k rest => " " +:+ show_cond k +:+ rest) (show_verdict (snd r)) (fst r).

Definition cond_holds (p : Packet) (k : cond) : bool :=
  match k with
  | Iif v => bool_decide (pk_iif p = v)
  | Oif v => bool_decide (pk_oif p = v)
  | IPv6 => pk_ipv6 p
  | SrcNot ip => negb (pk_ipv6 p) && negb (bool_decide (ParseIP ip = Some (pk_src p)))
  | DstIs ip => negb (pk_ipv6 p) && bool_decide (ParseIP ip = Some (pk_dst p))
  | DstIn nets =>
      negb (pk_ipv6 p) &&
      existsb (fun n => match ParseCIDR n with Some net => net_contains net (pk_dst p) | None => false end) nets
  | Dport proto port => bool_decide (pk_proto p = proto) && (pk_dport p =? port)
  | Established => pk_established p
  | DNATed => pk_dnat p
  end.

Fixpoint chain_verdict (rules : list (list cond * verdict)) (p : Packet) : verdict :=
  match rules with
  | [] => Accept
  | (ks, v) :: rules => if forallb (cond_holds p) ks then v else chain_verdict rules p
  end.

Definition input_rules (c : NetConfig) : list (list cond * verdict) :=
  [([Iif (n_HostVeth c); SrcNot (n_PeerIP c)], Drop);
   ([Iif (n_HostVeth c); DstIs (n_HostIP c); Dport "udp" 53], Accept);
   ([Iif (n_HostVeth c); DstIs (n_HostIP c); Dport "tcp" 53], Accept);
   ([Iif (n_HostVeth c); Established], Accept);
   ([Iif (n_HostVeth c)], Drop)].

Definition private_nets : list string :=
  ["0.0.0.0/8"; "10.0.0.0/8"; "100.64.0.0/10"; "127.0.0.0/8"; "169.254.0.0/16"; "172.16.0.0/12";
   "192.0.0.0/24"; "192.168.0.0/16"; "198.18.0.0/15"; "224.0.0.0/4"; "240.0.0.0/4"].

Definition forward_rules (c : NetConfig) : list (list cond * verdict) :=
  [([Iif (n_HostVeth c); IPv6], Drop);
   ([Iif (n_HostVeth c); SrcNot (n_PeerIP c)], Drop);
   ([Iif (n_HostVeth c); Established], Accept);
   ([Iif (n_HostVeth c); DstIn private_nets], Drop);
   ([Iif (n_HostVeth c)], Accept);
   ([Oif (n_HostVeth c); Established], Accept);
   ([Oif (n_HostVeth c); DNATed], Accept);
   ([Oif (n_HostVeth c)], Drop)].

(** An address of one of the ranges a sandbox may not open connections to. *)
Definition private_address (ip : Z) : Prop :=
  exists n net, n ∈ private_nets /\ ParseCIDR n = Some net /\ net_contains net ip = true.

(** ** Addresses *)

(** Characters that separate fields of addresses and lines of scripts. *)
Definition separators : list ascii := ["."; "/"; "010"]%char.

Lemma octet_table :
  forallb (fun n => bool_decide (octet (Itoa n) = Some n) &&
                    forallb (fun c => negb (ContainsRune (Itoa n) c)) separators) (seqZ 0 256) = true.
Proof. vm_compute. reflexivity. Qed.

(** A printed octet reads back and holds no separator. *)
Lemma octet_Itoa (n : Z) :
  0 <= n <= 255 ->
  octet (Itoa n) = Some n /\ Forall (fun c => ContainsRune (Itoa n) c = false) separators.
Proof.
  intros H. pose proof (proj1 (forallb_forall _ _) octet_table n) as T.
  assert (In n (seqZ 0 256)) as Hn by (apply list_elem_of_In, elem_of_seqZ; lia).
  specialize (T Hn). cbv beta in T. apply andb_prop in T as [T1 T2]. bool_prop. split; [done|].
  apply Forall_forall. intros c Hc. apply negb_true_iff.
  apply (proj1 (forallb_forall _ _) T2). by apply list_elem_of_In.
Qed.

Lemma Itoa_no_dot (n : Z) : 0 <= n <= 255 -> ContainsRune (Itoa n) "." = false.
Proof. intros H. apply octet_Itoa in H as [_ H]. rewrite Forall_forall in H. apply H. set_solver. Qed.

(** The first address of the sandboxes' range, 10.240.0.0. *)
Definition net_base : Z := (10 * 256 + 240) * 65536.

Lemma ParseIP_address (hi lo : Z) :
  0 <= hi <= 255 -> 0 <= lo <= 255 -> ParseIP (address hi lo) = Some (net_base + hi * 256 + lo).
Proof.
  intros Hhi Hlo. destruct (octet_Itoa hi Hhi) as [Eh _], (octet_Itoa lo Hlo) as [El _].
  unfold ParseIP, address.
  change ("10.240." +:+ ?x) with ("10" +:+ String "." ("240" +:+ String "." x)).
  change ("." +:+ ?x) with (String "." x).
  rewrite !Split_app, Split_atom by (done || by apply Itoa_no_dot).
  change (octet "10") with (Some 10). change (octet "240") with (Some 240).
  rewrite Eh, El. cbn [mbind option_bind]. f_equal. unfold net_base. lia.
Qed.

Lemma For_ok (id : string) (slot : Z) (c : NetConfig) :
  For id slot = Ok c ->
  is_id id = true /\ 1 <= slot <= 16000 /\
  n_HostVeth c = "nh" +:+ take_str 10 id /\ n_Table c = "nf_" +:+ take_str 12 id /\
  n_HostIP c = address (slot * 4 ÷ 256) (Z.rem (slot * 4) 256 + 1) /\
  n_PeerIP c = address (slot * 4 ÷ 256) (Z.rem (slot * 4) 256 + 2).
Proof.
  unfold For. intros H. ok_inv. bool_prop. rewrite int64_id by (unfold in_int64, two63, max_int64; lia).
  cbn [n_HostVeth n_Table n_HostIP n_PeerIP]. split_and!; try done; try lia. unfold is_id. by apply andb_true_intro.
Qed.

(** The two last octets a slot gives. *)
Lemma slot_octets (slot : Z) :
  1 <= slot <= 16000 -> 0 <= slot * 4 ÷ 256 <= 250 /\ 0 <= Z.rem (slot * 4) 256 <= 252.
Proof.
  intros Hs. assert (Z.rem (slot * 4) 256 = 4 * (slot `mod` 64)) as ->.
  { rewrite Z.rem_mod_nonneg by lia. replace (slot * 4) with (4 * slot) by lia.
    change 256 with (4 * 64). by rewrite Z.mul_mod_distr_l. }
  rewrite Z.quot_div_nonneg by lia. pose proof (Z.mod_pos_bound slot 64).
  Z.div_mod_to_equations. lia.
Qed.

(** The 32-bit numbers of the two addresses of a sandbox. *)
Lemma For_addresses (id : string) (slot : Z) (c : NetConfig) :
  For id slot = Ok c ->
  ParseIP (n_HostIP c) = Some (net_base + 4 * slot + 1) /\
  ParseIP (n_PeerIP c) = Some (net_base + 4 * slot + 2).
Proof.
  intros H. destruct (For_ok _ _ _ H) as (_ & Hs & _ & _ & -> & ->).
  destruct (slot_octets slot Hs) as [? ?]. pose proof (Z.quot_rem' (slot * 4) 256).
  rewrite !ParseIP_address by lia. split; f_equal; lia.
Qed.

Lemma net_contains_30 (a ip : Z) : net_contains (a, 30) ip = true <-> a `div` 4 = ip `div` 4.
Proof.
  unfold net_contains. cbn [fst snd]. change (32 - 30) with 2. rewrite !Z.shiftr_div_pow2 by lia.
  change (2 ^ 2) with 4. apply Z.eqb_eq.
Qed.

Lemma ParseCIDR_30 (ip : string) (a : Z) :
  ContainsRune ip "/" = false -> ParseIP ip = Some a -> ParseCIDR (ip +:+ "/30") = Some (a, 30).
Proof.
  intros H E. unfold ParseCIDR. change "/30" with (String "/" "30"). rewrite Cut_app by done.
  rewrite E. done.
Qed.

Lemma address_no_slash (hi lo : Z) :
  0 <= hi <= 255 -> 0 <= lo <= 255 -> ContainsRune (address hi lo) "/" = false.
Proof.
  intros Hh Hl. apply octet_Itoa in Hh as [_ Hh], Hl as [_ Hl]. rewrite Forall_forall in Hh, Hl.
  unfold address. rewrite !ContainsRune_app, Hh, Hl by set_solver. done.
Qed.

(** The /30 network [Prepare] gives to a sandbox holds both of its
    addresses and neither address of a sandbox in another slot. *)
Theorem For_disjoint (id1 id2 : string) (slot1 slot2 : Z) (c1 c2 : NetConfig) :
  For id1 slot1 = Ok c1 -> For id2 slot2 = Ok c2 -> slot1 <> slot2 ->
  exists net host1 peer1 host2 peer2,
    ParseCIDR (n_HostIP c1 +:+ "/30") = Some net /\
    ParseIP (n_HostIP c1) = Some host1 /\ ParseIP (n_PeerIP c1) = Some peer1 /\
    ParseIP (n_HostIP c2) = Some host2 /\ ParseIP (n_PeerIP c2) = Some peer2 /\
    net_contains net host1 = true /\ net_contains net peer1 = true /\ host1 <> peer1 /\
    net_contains net host2 = false /\ net_contains net peer2 = false.
Proof.
  intros H1 H2 Hne. destruct (For_addresses _ _ _ H1) as [A1 B1], (For_addresses _ _ _ H2) as [A2 B2].
  destruct (For_ok _ _ _ H1) as (_ & Hs & _ & _ & EH & _).
  eexists _, _, _, _, _. split_and!; try done.
  - destruct (slot_octets slot1 Hs). apply ParseCIDR_30; [|done]. rewrite EH. apply address_no_slash; lia.
  - by apply net_contains_30.
  - apply net_contains_30. unfold net_base. Z.div_mod_to_equations. lia.
  - lia.
  - apply not_true_iff_false. rewrite net_contains_30. unfold net_base. Z.div_mod_to_equations. lia.
  - apply not_true_iff_false. rewrite net_contains_30. unfold net_base. Z.div_mod_to_equations. lia.
Qed.

Definition web : string := "0123456789abcdef0123456789abcdef".

Lemma For_disjoint_witness :
  exists c1 c2 net, For web 1 = Ok c1 /\ For web 64 = Ok c2 /\
    ParseCIDR (n_HostIP c1 +:+ "/30") = Some net /\
    net_contains net (net_base + 5) = true /\ net_contains net (net_base + 257) = false.
Proof.
  destruct (For_disjoint web web 1 64 _ _ eq_refl eq_refl ltac:(lia))
    as (net & h1 & p1 & h2 & p2 & N & A & _ & B & _ & C & _ & _ & D & _).
  eexists _, _, net. split; [reflexivity|]. split; [reflexivity|]. split; [exact N|].
  vm_compute in A, B. injection A as <-. injection B as <-. split; [exact C|exact D].
Defined.

(** ** The firewall script *)

Lemma hex_take_no_nl (n : nat) (s : string) :
  forallb is_hex (String.list_ascii_of_string s) = true -> ContainsRune (take_str n s) "010" = false.
Proof.
  revert n. induction s as [|c s IH]; intros n H; [by destruct n|].
  destruct n as [|n]; [done|]. cbn in H |- *. apply andb_prop in H as [Hc H].
  rewrite IH by done. rewrite orb_false_r. apply bool_decide_eq_false_2. by intros ->.
Qed.

(** No field a script prints holds a newline. *)
Record one_line (c : NetConfig) : Prop := mk_one_line {
  ol_table : ContainsRune (n_Table c) "010" = false;
  ol_veth : ContainsRune (n_HostVeth c) "010" = false;
  ol_host : ContainsRune (n_HostIP c) "010" = false;
  ol_peer : ContainsRune (n_PeerIP c) "010" = false
}.

Lemma For_one_line (id : string) (slot : Z) (c : NetConfig) : For id slot = Ok c -> one_line c.
Proof.
  intros H. apply For_ok in H as (Hid & Hs & EV & ET & EH & EP). unfold is_id in Hid. bool_prop.
  constructor; rewrite ?EV, ?ET, ?EH, ?EP; unfold address; rewrite !ContainsRune_app, ?Itoa_no_rune by done;
    try done; by rewrite hex_take_no_nl.
Qed.

Lemma Split_script (lines : list string) :
  Forall (fun l => ContainsRune l "010" = false) lines -> Split (script lines) "010" = lines ++ [""].
Proof.
  induction 1 as [|l lines Hl _ IH]; [done|]. cbn [script].
  change (nl +:+ ?s) with (String "010"%char s). by rewrite Split_app, IH.
Qed.

Lemma host_head_one_line (c : NetConfig) :
  one_line c -> Forall (fun l => ContainsRune l "010" = false) (host_head c).
Proof.
  intros [Ht Hv Hh Hp]. unfold host_head, iif, oif, quoted, private_ranges.
  repeat (apply Forall_cons; split; [|]); try apply Forall_nil; try done; cbn [ContainsRune];
    rewrite ?ContainsRune_app, ?Ht, ?Hv, ?Hh, ?Hp; cbn [ContainsRune];
    rewrite ?ContainsRune_app, ?Ht, ?Hv, ?Hh, ?Hp; vm_compute; reflexivity.
Qed.

Lemma dnat_one_line (c : NetConfig) (target : string) (p : Port) :
  one_line c -> ContainsRune target "010" = false -> ContainsRune (dnat c target p) "010" = false.
Proof.
  intros [_ _ _ Hp] Ht. unfold dnat. rewrite !ContainsRune_app, Ht, Hp, !Itoa_no_rune by done. done.
Qed.

Lemma host_lines_one_line (c : NetConfig) (ports : list Port) :
  one_line c -> Forall (fun l => ContainsRune l "010" = false) (host_lines c ports).
Proof.
  intros Hc. unfold host_lines. repeat (apply Forall_app; split).
  - by apply host_head_one_line.
  - apply Forall_fmap, Forall_true. intros p. by apply dnat_one_line.
  - by repeat constructor.
  - apply Forall_fmap, Forall_true. intros p. apply dnat_one_line; [done|]. by destruct (is_public p).
  - by repeat constructor.
Qed.

Lemma quoted_app (v rest : string) :
  quoted v +:+ rest = String "034" (v +:+ String "034" rest).
Proof. unfold quoted. by rewrite app_cons_str, app_assoc_str. Qed.

Lemma show_iif (v rest : string) :
  show_cond (Iif v) +:+ rest = "iifname " +:+ String "034" (v +:+ String "034" rest).
Proof. cbn [show_cond]. by rewrite app_assoc_str, quoted_app. Qed.

Lemma show_oif (v rest : string) :
  show_cond (Oif v) +:+ rest = "oifname " +:+ String "034" (v +:+ String "034" rest).
Proof. cbn [show_cond]. by rewrite app_assoc_str, quoted_app. Qed.

(** The filter chains of the script print the rules below. *)
Lemma host_head_rules (c : NetConfig) :
  host_head c =
    ["table inet " +:+ n_Table c +:+ " {";
     " chain input { type filter hook input priority -20; policy accept;"] ++
    (show_rule <$> input_rules c) ++
    [" }"; " chain forward { type filter hook forward priority -20; policy accept;"] ++
    (show_rule <$> forward_rules c) ++
    [" }";
     " chain postrouting { type nat hook postrouting priority srcnat; policy accept;";
     "  ip saddr " +:+ n_PeerIP c +:+ " masquerade";
     oif c " ct status dnat masquerade";
     " }";
     " chain prerouting { type nat hook prerouting priority dstnat; policy accept;"].
Proof.
  unfold host_head, input_rules, forward_rules, show_rule, iif, oif.
  cbn [fmap list_fmap app foldr fst snd]. rewrite !quoted_app, !show_iif, !show_oif. reflexivity.
Qed.

Lemma private_address_spec (ip : Z) :
  existsb (fun n => match ParseCIDR n with Some net => net_contains net ip | None => false end)
    private_nets = true <-> private_address ip.
Proof.
  rewrite existsb_exists. unfold private_address. split.
  - intros (n & Hn & H). destruct (ParseCIDR n) as [net|] eqn:E; [|done].
    exists n, net. by rewrite list_elem_of_In.
  - intros (n & net & Hn & E & H). exists n. rewrite <-list_elem_of_In. by rewrite E.
Qed.

(** What the two filter chains accept, for the interface of one sandbox. *)
Lemma input_policy (c : NetConfig) (host peer : Z) (p : Packet) :
  ParseIP (n_HostIP c) = Some host -> ParseIP (n_PeerIP c) = Some peer -> pk_iif p = n_HostVeth c ->
  (chain_verdict (input_rules c) p = Accept <->
   (pk_ipv6 p = true \/ pk_src p = peer) /\
   (pk_established p = true \/
    pk_ipv6 p = false /\ pk_dst p = host /\ pk_dport p = 53 /\ (pk_proto p = "udp" \/ pk_proto p = "tcp"))).
Proof.
  intros Hh Hp Hi. unfold input_rules. cbn [chain_verdict forallb cond_holds].
  rewrite Hh, Hp, Hi, !andb_true_r, bool_decide_eq_true_2 by done. cbn [andb].
  destruct (pk_ipv6 p), (pk_established p); cbn [negb andb];
    destruct (Z.eqb_spec (pk_dport p) 53); repeat case_bool_decide; cbn [negb andb]; naive_solver.
Qed.

Lemma forward_policy (c : NetConfig) (peer : Z) (p : Packet) :
  ParseIP (n_PeerIP c) = Some peer -> pk_iif p = n_HostVeth c ->
  (chain_verdict (forward_rules c) p = Accept <->
   pk_ipv6 p = false /\ pk_src p = peer /\ (pk_established p = true \/ ~ private_address (pk_dst p))).
Proof.
  intros Hp Hi. rewrite <-private_address_spec. unfold forward_rules.
  cbn [chain_verdict forallb cond_holds].
  rewrite Hp, Hi, !andb_true_r, bool_decide_eq_true_2 by done. cbn [andb].
  destruct (pk_ipv6 p), (pk_established p), (existsb _ private_nets); cbn [negb andb];
    repeat case_bool_decide; cbn [negb andb]; naive_solver.
Qed.

Lemma inbound_policy (c : NetConfig) (p : Packet) :
  pk_iif p <> n_HostVeth c -> pk_oif p = n_HostVeth c ->
  (chain_verdict (forward_rules c) p = Accept <-> pk_established p = true \/ pk_dnat p = true).
Proof.
  intros Hi Ho. unfold forward_rules. cbn [chain_verdict forallb cond_holds].
  rewrite Ho, (bool_decide_eq_false_2 (pk_iif p = _)), (bool_decide_eq_true_2 (n_HostVeth c = _)) by done. cbn [andb].
  destruct (pk_established p), (pk_dnat p); naive_solver.
Qed.

Lemma foreign_policy (c : NetConfig) (p : Packet) :
  pk_iif p <> n_HostVeth c -> pk_oif p <> n_HostVeth c ->
  chain_verdict (input_rules c) p = Accept /\ chain_verdict (forward_rules c) p = Accept.
Proof.
  intros Hi Ho. unfold input_rules, forward_rules. cbn [chain_verdict forallb cond_holds].
  by rewrite (bool_decide_eq_false_2 (pk_iif p = _)), (bool_decide_eq_false_2 (pk_oif p = _)) by done.
Qed.

(** C39. The host firewall script of a sandbox is, line by line, the intended
    one whatever ports are published, and its filter chains mean: the sandbox
    reaches the host only with its own source address, on port 53 of its host
    address or on an established connection; it reaches other networks only over
    IPv4, with its own source address, and opens no connection to a private,
    link-local, loopback or multicast range; it is reached only over established
    or published (DNAT) connections; traffic of other interfaces is untouched. *)
Theorem HostRules_policy (id : string) (slot : Z) (c : NetConfig) (ports : list Port) :
  For id slot = Ok c ->
  Split (HostRules c ports) "010" = host_lines c ports ++ [""] /\
  (exists before between after,
     host_lines c ports =
       before ++ [" chain input { type filter hook input priority -20; policy accept;"] ++
       (show_rule <$> input_rules c) ++ [" }"] ++
       between ++ [" chain forward { type filter hook forward priority -20; policy accept;"] ++
       (show_rule <$> forward_rules c) ++ [" }"] ++ after) /\
  (forall p, pk_iif p = n_HostVeth c ->
     (chain_verdict (input_rules c) p = Accept <->
      (pk_ipv6 p = true \/ pk_src p = net_base + 4 * slot + 2) /\
      (pk_established p = true \/
       pk_ipv6 p = false /\ pk_dst p = net_base + 4 * slot + 1 /\ pk_dport p = 53 /\
       (pk_proto p = "udp" \/ pk_proto p = "tcp"))) /\
     (chain_verdict (forward_rules c) p = Accept <->
      pk_ipv6 p = false /\ pk_src p = net_base + 4 * slot + 2 /\
      (pk_established p = true \/ ~ private_address (pk_dst p)))) /\
  (forall p, pk_iif p <> n_HostVeth c ->
     (pk_oif p = n_HostVeth c ->
      (chain_verdict (forward_rules c) p = Accept <-> pk_established p = true \/ pk_dnat p = true)) /\
     (pk_oif p <> n_HostVeth c ->
      chain_verdict (input_rules c) p = Accept /\ chain_verdict (forward_rules c) p = Accept)).
Proof.
  intros H. destruct (For_addresses _ _ _ H) as [Hh Hp]. split_and!.
  - apply Split_script, host_lines_one_line. by eapply For_one_line.
  - unfold host_lines. rewrite host_head_rules. rewrite <-!app_assoc.
    eexists ["table inet " +:+ n_Table c +:+ " {"], [], _. reflexivity.
  - intros p Hi. split; [by apply input_policy|by apply forward_policy].
  - intros p Hi. split; [by apply inbound_policy|by apply foreign_policy].
Qed.

(** A packet of the sandbox [web] in slot 1 to 8.0.0.0, port 443. *)
Definition web_packet : Packet :=
  mkPacket "nh0123456789" "eth0" false (net_base + 6) (8 * 16777216) "tcp" 443 false false.

Lemma HostRules_policy_witness :
  exists c, For web 1 = Ok c /\ chain_verdict (forward_rules c) web_packet = Accept.
Proof.
  destruct (HostRules_policy web 1 _ [] eq_refl) as (_ & _ & H & _).
  eexists. split; [reflexivity|]. apply (H web_packet (@eq_refl string "nh0123456789")).
  split; [reflexivity|]. split; [reflexivity|]. right. rewrite <-private_address_spec. vm_compute. discriminate.
Defined.

(** ** Prepare and Remove *)

Section Plans.
Variable runner : Command -> result unit.

(** A failure of [c] that ends a plan. *)
Definition fatal (tolerated : error -> bool) (c : Command) (e : error) : Prop :=
  runner c = Err e /\ tolerated e = false.

(** A plan runs to its end, or stops right after its first fatal command. *)
Lemma run_plan_spec (tolerated : error -> bool) (cmds : list Command) :
  (run_plan runner tolerated cmds = (cmds, Ok tt) /\
   Forall (fun c => forall e, ~ fatal tolerated c e) cmds) \/
  (exists before c after e,
     cmds = before ++ c :: after /\ run_plan runner tolerated cmds = (before ++ [c], Err e) /\
     Forall (fun c => forall e, ~ fatal tolerated c e) before /\ fatal tolerated c e).
Proof.
  induction cmds as [|c cmds IH]; [by left|]. cbn [run_plan].
  assert (runner c = Ok tt \/ (exists e, runner c = Err e /\ tolerated e = true) \/
          (exists e, fatal tolerated c e)) as [E|[(e & E & Et)|(e & E & Et)]].
  { unfold fatal. destruct (runner c) as [[]|e]; [by left|]. destruct (tolerated e) eqn:?; eauto. }
  3: { right. exists [], c, cmds, e. rewrite E, Et. by unfold fatal. }
  all: rewrite E, ?Et; destruct (run_plan runner tolerated cmds) as [ran r];
    assert (forall e, ~ fatal tolerated c e) as Hc by (unfold fatal; intros ? [? ?]; congruence);
    destruct IH as [[[= -> ->] H]|(b & d & a & e' & -> & [= -> ->] & H & Hd)];
    [left; eauto|right; exists (c :: b), d, a, e'; split_and!; eauto].
Qed.
End Plans.

Lemma preflight_ok (h : HostView) (c : NetConfig) :
  preflight h c = Ok tt <->
  (exists v, hv_forwarding h = Ok v /\ TrimSpace v = "1") /\
  (exists routes, hv_routes h = Ok routes /\ Forall (fun dst => route_conflicts (n_HostIP c) dst = false) routes).
Proof.
  unfold preflight. destruct (hv_forwarding h) as [v|]; [|naive_solver].
  case_bool_decide; [|naive_solver]. destruct (hv_routes h) as [routes|]; [|naive_solver]. cbn [result_bind].
  destruct (existsb _ routes) eqn:E; cbn [negb].
  - split; [done|]. intros (_ & ? & [= <-] & HF). exfalso. apply existsb_exists in E as (dst & Hd & E).
    rewrite Forall_forall in HF. rewrite HF in E; [done|by apply list_elem_of_In].
  - split; [|done]. intros _. split; [by eauto|]. eexists; split; [done|]. apply Forall_forall. intros dst Hd.
    apply not_true_iff_false. intros Hc. apply not_true_iff_false in E. apply E, existsb_exists.
    exists dst. by rewrite <-list_elem_of_In.
Qed.

(** [Prepare] for a bridged sandbox succeeds only when forwarding is on, no
    host route contains the sandbox's address, and every command of the plan ran
    in order and succeeded; it fails before running anything when the identifier,
    the slot or the host does not allow it, and otherwise right after the first
    command that fails, with that command's error. *)
Theorem Prepare_correct (runner : Command -> result unit) (host : option HostView) (s : Sandbox) :
  s_Network (sb_Spec s) <> "none" ->
  match Prepare runner host s with
  | (ran, Ok _) =>
      exists c, For (sb_ID s) (sb_Slot s) = Ok c /\
        ran = prepare_commands (bool_decide (host = None)) c (s_Ports (sb_Spec s)) /\
        Forall (fun cmd => exists u, runner cmd = Ok u) ran /\
        forall h, host = Some h ->
          (exists v, hv_forwarding h = Ok v /\ TrimSpace v = "1") /\
          (exists routes, hv_routes h = Ok routes /\
             Forall (fun dst => route_conflicts (n_HostIP c) dst = false) routes)
  | (ran, Err e) =>
      (ran = [] /\ (For (sb_ID s) (sb_Slot s) = Err e \/
                    exists c h, For (sb_ID s) (sb_Slot s) = Ok c /\ host = Some h /\ preflight h c = Err e)) \/
      (exists c before cmd after,
         For (sb_ID s) (sb_Slot s) = Ok c /\ ran = before ++ [cmd] /\
         prepare_commands (bool_decide (host = None)) c (s_Ports (sb_Spec s)) = before ++ cmd :: after /\
         Forall (fun cmd => exists u, runner cmd = Ok u) before /\ runner cmd = Err e)
  end.
Proof.
  intros Hn. unfold Prepare. rewrite bool_decide_eq_false_2 by done.
  destruct (For _ _) as [c|e] eqn:EF; [|by left; auto].
  destruct (match host with Some h => preflight h c | None => Ok tt end) as [[]|e] eqn:EP.
  2: { destruct host as [h|]; [|done]. left. eauto 8. }
  replace (match host with None => true | _ => false end) with (bool_decide (host = None)) by (by destruct host).
  assert (forall l, Forall (fun c => forall e, ~ fatal runner (fun _ => false) c e) l ->
                    Forall (fun cmd => exists u, runner cmd = Ok u) l) as Hok.
  { intros l Hl. eapply Forall_impl; [exact Hl|]. intros x Hx. destruct (runner x) as [u|e] eqn:E; [by exists u|].
    by destruct (Hx e). }
  destruct (run_plan_spec runner (fun _ => false) (prepare_commands (bool_decide (host = None)) c (s_Ports (sb_Spec s))))
    as [[-> H]|(b & d & a & e & E & -> & H & [Hd _])].
  - exists c. split_and!; [done|done|by apply Hok|]. intros h ->. by apply preflight_ok.
  - right. exists c, b, d, a. split_and!; eauto.
Qed.

(** [Remove] for a bridged sandbox succeeds exactly when each of its three
    deletions, all of them attempted, succeeded or found nothing to delete; any
    other failure stops it and is returned, so that it can be retried. *)
Theorem NetRemove_correct (runner : Command -> result unit) (s : Sandbox) (c : NetConfig) :
  s_Network (sb_Spec s) <> "none" -> For (sb_ID s) (sb_Slot s) = Ok c ->
  (forall e, snd (NetRemove runner s) = Err e -> missing e = false) /\
  (snd (NetRemove runner s) = Ok tt <->
   fst (NetRemove runner s) = plain <$> remove_plan c /\
   Forall (fun cmd => match runner cmd with Ok _ => True | Err e => missing e = true end)
     (plain <$> remove_plan c)).
Proof.
  intros Hn Hc. unfold NetRemove. rewrite bool_decide_eq_false_2 by done. rewrite Hc.
  destruct (run_plan_spec runner missing (plain <$> remove_plan c))
    as [[-> H]|(b & d & a & e & E & -> & H & [Hd He])]; cbn [fst snd].
  - split; [done|]. split; [|done]. intros _. split; [done|]. eapply Forall_impl; [exact H|]. intros x Hx.
    destruct (runner x) as [|e] eqn:Ex; [done|]. apply not_false_is_true. intros Em. by apply (Hx e).
  - split; [by intros ? [= <-]|]. split; [done|]. intros [_ HF]. exfalso. rewrite E in HF.
    apply Forall_app in HF as [_ HF]. apply Forall_cons in HF as [HF _]. rewrite Hd in HF. congruence.
Qed.

(** A bridged sandbox in slot 1, on a host whose only route is the default one. *)
Definition web_sandbox : Sandbox :=
  mkSandbox web "web" DefaultSpec (mkProcess [] [] "" "" "" false false) "" "" "created" "" [] 0 0 0 None 0 "" 0 1 false.
Definition quiet_host : HostView := mkHostView (Ok ("1" +:+ nl)) (Ok ["default"; "192.168.0.0/24"]).

Lemma Prepare_correct_witness :
  exists ran, Prepare (fun _ => Ok tt) (Some quiet_host) web_sandbox = (ran, Ok tt) /\
    exists c, For web 1 = Ok c /\ ran = prepare_commands false c [].
Proof.
  pose proof (Prepare_correct (fun _ => Ok tt) (Some quiet_host) web_sandbox ltac:(discriminate)) as H.
  destruct (Prepare (fun _ => Ok tt) (Some quiet_host) web_sandbox) as [ran [[]|e]] eqn:E;
    [|vm_compute in E; discriminate E].
  exists ran. split; [reflexivity|]. destruct H as (c & Hc & Hr & _). exists c. split; [exact Hc|exact Hr].
Defined.

Lemma NetRemove_correct_witness :
  snd (NetRemove (fun _ => Err (Errorf "No such file or directory")) web_sandbox) = Ok tt.
Proof.
  apply (NetRemove_correct (fun _ => Err (Errorf "No such file or directory")) web_sandbox
           (mkNetConfig _ _ _ _ _ _ _ _) ltac:(discriminate) eq_refl).
  split; [reflexivity|]. repeat constructor.
Defined.
