(* ===== verification/Dns.v ===== *)
(** * Dns: admission of DNS queries (internal/network/dns.go)

    Every query takes a token of its sandbox's bucket and of the process-wide
    bucket, then a place in two counting semaphores (buffered channels).  The
    calls of [acquire] and the releases run concurrently in many goroutines: the
    channel operations and the bucket updates (each under its own mutex) are the
    atomic steps.  Token counts are Go's [float64]: they are rational numbers here,
    and every operation that may round applies [round], a parameter of the model
    with the properties of rounding to nearest. *)

From Stdlib Require Import QArith Lqa.
From S2P Require Import Prelude.
Local Open Scope Z_scope.

Definition perSandboxDNSRate : Z := 256.
Definition perSandboxDNSBurst : Z := 512.
Definition perSandboxDNSConcurrent : Z := 64.
Definition globalDNSRate : Z := 4096.
Definition globalDNSBurst : Z := 8192.
Definition globalDNSConcurrent : Z := 256.

Record tokenBucket : Type := mkBucket {
  tb_rate : Q;
  tb_burst : Q;
  tb_tokens : Q;
  tb_last : option Z   (* nanoseconds; [None] is the zero time *)
}.

Definition newTokenBucket (rate burst : Z) : tokenBucket :=
  mkBucket (inject_Z rate) (inject_Z burst) (inject_Z burst) None.

Definition set_tokens (t : Q) (last : option Z) (b : tokenBucket) : tokenBucket :=
  mkBucket (tb_rate b) (tb_burst b) t last.

(** [x < y] on [float64] values. *)
Definition Qlt_bool (x y : Q) : bool := negb (Qle_bool y x).

Definition Second : Z := 1000000000.

(** Where a goroutine is in [acquire] and in the release it returns. *)
Inductive phase : Type :=
| Calling        (* acquire was called *)
| LocalToken     (* took a token of its sandbox *)
| Tokens         (* took both tokens *)
| LocalPlace     (* sent to localWork *)
| Undo           (* globalWork was full: about to receive from localWork *)
| Serving       (* acquire returned true: the query is being served *)
| Releasing      (* received from globalWork, about to receive from localWork *)
| Rejected       (* acquire returned false *)
| Served.        (* released *)

#[export] Instance phase_eq_dec : EqDecision phase.
Proof. solve_decision. Defined.

(** One [dnsAdmission]: its bucket and the length of its [localWork] channel. *)
Record dnsAdmission : Type := mkAdmission { localTokens : tokenBucket; localWork : Z }.

(** The process: the global bucket, the length of [globalWork], every admission
    created so far, and the goroutines (their admission and phase). *)
Record Dns : Type := mkDns {
  globalTokens : tokenBucket;
  globalWork : Z;
  admissions : list dnsAdmission;
  queries : list (nat * phase)
}.

Section Float.
Variable round : Q -> Q.

(** [Duration.Seconds()]: whole seconds plus the fraction, in [float64]. *)
Definition Seconds (ns : Z) : Q :=
  round (inject_Z (ns `div` Second) + round (inject_Z (ns `mod` Second) / inject_Z Second)).

(** The refill of [allow]: [b.tokens += now.Sub(b.last).Seconds() * b.rate],
    capped at the burst. *)
Definition refill (b : tokenBucket) (ns : Z) : Q :=
  let t := round (tb_tokens b + round (Seconds ns * tb_rate b)) in
  if Qlt_bool (tb_burst b) t then tb_burst b else t.

(** [tokenBucket.allow] *)
Definition allow (b : tokenBucket) (now : Z) : bool * tokenBucket :=
  if Qle_bool (tb_rate b) 0 || Qlt_bool (tb_burst b) 1 then (false, b)
  else
    let b :=
      match tb_last b with
      | None => set_tokens (tb_tokens b) (Some now) b
      | Some last =>
          if last <? now then set_tokens (refill b (now - last)) (Some now) b else b
      end in
    if Qlt_bool (tb_tokens b) 1 then (false, b)
    else (true, set_tokens (round (tb_tokens b - 1)) (tb_last b) b).

Definition newDNSAdmission : dnsAdmission :=
  mkAdmission (newTokenBucket perSandboxDNSRate perSandboxDNSBurst) 0.

Definition initial : Dns := mkDns (newTokenBucket globalDNSRate globalDNSBurst) 0 [] [].

(** The next atomic action of a goroutine in phase [ph] of an admission whose
    state is [a]: the global bucket and channel length, the admission and the
    phase after it; [None] when a receive would block or nothing is left. *)
Definition advance (now : Z) (g : tokenBucket) (gw : Z) (a : dnsAdmission) (ph : phase) :
  option (tokenBucket * Z * dnsAdmission * phase) :=
  match ph with
  | Calling =>
      let '(ok, b) := allow (localTokens a) now in
      Some (g, gw, mkAdmission b (localWork a), if ok then LocalToken else Rejected)
  | LocalToken =>
      let '(ok, b) := allow g now in Some (b, gw, a, if ok then Tokens else Rejected)
  | Tokens =>
      if localWork a <? perSandboxDNSConcurrent
      then Some (g, gw, mkAdmission (localTokens a) (localWork a + 1), LocalPlace)
      else Some (g, gw, a, Rejected)
  | LocalPlace =>
      if gw <? globalDNSConcurrent then Some (g, gw + 1, a, Serving) else Some (g, gw, a, Undo)
  | Undo =>
      if 0 <? localWork a then Some (g, gw, mkAdmission (localTokens a) (localWork a - 1), Rejected) else None
  | Serving => if 0 <? gw then Some (g, gw - 1, a, Releasing) else None
  | Releasing =>
      if 0 <? localWork a then Some (g, gw, mkAdmission (localTokens a) (localWork a - 1), Served) else None
  | Rejected | Served => None
  end.

(** The steps of the process: a forwarder starts, a query arrives, a goroutine
    takes its next action at some time. *)
Inductive dns_step (d : Dns) : Dns -> Prop :=
| step_forwarder :
    dns_step d (mkDns (globalTokens d) (globalWork d) (admissions d ++ [newDNSAdmission]) (queries d))
| step_query (i : nat) :
    (i < length (admissions d))%nat ->
    dns_step d (mkDns (globalTokens d) (globalWork d) (admissions d) (queries d ++ [(i, Calling)]))
| step_goroutine (k : nat) (now : Z) (i : nat) (ph : phase) (a : dnsAdmission)
    (g' : tokenBucket) (gw' : Z) (a' : dnsAdmission) (ph' : phase) :
    queries d !! k = Some (i, ph) -> admissions d !! i = Some a ->
    advance now (globalTokens d) (globalWork d) a ph = Some (g', gw', a', ph') ->
    dns_step d (mkDns g' gw' (<[i := a']> (admissions d)) (<[k := (i, ph')]> (queries d))).

Definition dns_reachable : Dns -> Prop := rtc dns_step initial.

End Float.

(** ** Semaphores *)

(** Does a goroutine hold a place of admission [i], or a global place? *)
Definition holds_local (i : nat) (q : nat * phase) : bool :=
  bool_decide (fst q = i) &&
  match snd q with LocalPlace | Undo | Serving | Releasing => true | _ => false end.
Definition holds_global (q : nat * phase) : bool :=
  match snd q with Serving => true | _ => false end.

Definition count {A} (f : A -> bool) (l : list A) : Z := Z.of_nat (length (List.filter f l)).

Lemma count_app {A} (f : A -> bool) (l k : list A) : count f (l ++ k) = count f l + count f k.
Proof. unfold count. rewrite List.filter_app, length_app. lia. Qed.

Lemma count_insert {A} (f : A -> bool) (l : list A) (k : nat) (x y : A) :
  l !! k = Some x -> count f (<[k := y]> l) = count f l - Z.b2z (f x) + Z.b2z (f y).
Proof.
  unfold count. revert k. induction l as [|z l IH]; intros k H; [done|]. destruct k as [|k].
  - injection H as ->. change (<[0%nat:=y]> (x :: l)) with (y :: l). cbn [List.filter].
    destruct (f x), (f y); unfold Z.b2z; cbn [length]; lia.
  - specialize (IH k H). change (<[S k:=y]> (z :: l)) with (z :: <[k:=y]> l). cbn [List.filter].
    destruct (f z); cbn [length]; lia.
Qed.

Lemma count_nonneg {A} (f : A -> bool) (l : list A) : 0 <= count f l.
Proof. unfold count. lia. Qed.

Lemma count_pos {A} (f : A -> bool) (l : list A) (k : nat) (x : A) :
  l !! k = Some x -> f x = true -> 0 < count f l.
Proof.
  unfold count. revert k. induction l as [|z l IH]; intros k H Hf; [done|]. destruct k as [|k]; cbn in *.
  - injection H as ->. rewrite Hf. cbn. lia.
  - specialize (IH k H Hf). destruct (f z); cbn [length]; lia.
Qed.

Lemma count_mono {A} (f g : A -> bool) (l : list A) :
  (forall x, f x = true -> g x = true) -> count f l <= count g l.
Proof.
  intros H. unfold count. induction l as [|x l IH]; [done|]. cbn [List.filter].
  pose proof (H x). destruct (f x), (g x); cbn [length]; naive_solver lia.
Qed.

Lemma count_zero {A} (f : A -> bool) (l : list A) : Forall (fun x => f x = false) l -> count f l = 0.
Proof. unfold count. induction 1 as [|x l Hx _ IH]; [done|]. cbn [List.filter]. by rewrite Hx. Qed.

Section Semaphores.
Variable round : Q -> Q.

(** A goroutine that has finished. *)
Definition finished (q : nat * phase) : bool :=
  match snd q with Rejected | Served => true | _ => false end.

Record dns_inv (d : Dns) : Prop := mk_dns_inv {
  di_queries : Forall (fun q => (fst q < length (admissions d))%nat) (queries d);
  di_local : forall i a, admissions d !! i = Some a ->
    localWork a = count (holds_local i) (queries d) /\ localWork a <= perSandboxDNSConcurrent;
  di_global : globalWork d = count holds_global (queries d) /\ globalWork d <= globalDNSConcurrent
}.

(** One action changes the channel lengths exactly as it changes what its
    goroutine holds, and never overfills a channel. *)
Lemma advance_counts now g gw a i ph g' gw' a' ph' :
  advance round now g gw a ph = Some (g', gw', a', ph') ->
  gw' = gw - Z.b2z (holds_global (i, ph)) + Z.b2z (holds_global (i, ph')) /\
  localWork a' = localWork a - Z.b2z (holds_local i (i, ph)) + Z.b2z (holds_local i (i, ph')) /\
  (gw <= globalDNSConcurrent -> gw' <= globalDNSConcurrent) /\
  (localWork a <= perSandboxDNSConcurrent -> localWork a' <= perSandboxDNSConcurrent).
Proof.
  unfold holds_global, holds_local. cbn [fst snd]. rewrite bool_decide_eq_true_2 by done. cbn [andb].
  destruct ph; cbn [advance]; intros H; repeat case_match; simplify_eq; bool_prop;
    unfold Z.b2z; cbn [localWork]; lia.
Qed.

Lemma holds_local_other (i j : nat) (ph : phase) : i <> j -> holds_local j (i, ph) = false.
Proof. intros H. unfold holds_local. by rewrite bool_decide_eq_false_2. Qed.

Lemma dns_step_inv (d d' : Dns) : dns_inv d -> dns_step round d d' -> dns_inv d'.
Proof.
  intros [Hq Hl [Hg Hgb]] [|i Hi|k now i ph a g' gw' a' ph' Ek Ea Ha].
  - constructor; cbn [queries admissions globalWork]; [| |done].
    + eapply Forall_impl; [exact Hq|]. intros q. rewrite length_app. lia.
    + intros i a Hi. apply lookup_app_Some in Hi as [Hi|[Hge Hi]]; [by apply Hl|].
      apply list_lookup_singleton_Some in Hi as [Hi <-]. rewrite count_zero; [done|].
      eapply Forall_impl; [exact Hq|]. intros [j ph] Hj. apply holds_local_other. cbn in Hj. lia.
  - constructor; cbn [queries admissions globalWork].
    + apply Forall_app. split; [done|]. by repeat constructor.
    + intros j a Hj. destruct (Hl _ _ Hj) as [-> ?]. rewrite count_app, (count_zero _ [_]); [lia|].
      repeat constructor. unfold holds_local. cbn. by rewrite andb_false_r.
    + rewrite count_app, (count_zero _ [_]); [lia|]. by repeat constructor.
  - destruct (advance_counts _ _ _ _ i _ _ _ _ _ Ha) as (Eg & El & Bg & Bl).
    destruct (Hl _ _ Ea) as [Ela Bla].
    constructor; cbn [queries admissions globalWork].
    + rewrite length_insert. apply Forall_insert; [done|]. rewrite Forall_lookup in Hq. by apply (Hq k (i, ph)).
    + intros j b Hj. rewrite (count_insert _ _ _ _ _ Ek). apply list_lookup_insert_Some in Hj as [(-> & <- & _)|[Hne Hj]].
      * split; [lia|by apply Bl].
      * rewrite !holds_local_other by done. destruct (Hl _ _ Hj). unfold Z.b2z. lia.
    + rewrite (count_insert _ _ _ _ _ Ek). split; [lia|by apply Bg].
Qed.

Lemma dns_reachable_inv (d : Dns) : dns_reachable round d -> dns_inv d.
Proof.
  intros H. assert (dns_inv initial) as H0 by (constructor; cbn; [constructor|done|done]).
  revert H0. induction H as [|x y z Hxy _ IH]; eauto using dns_step_inv.
Qed.

(** C29. However forwarders start and queries of all sandboxes interleave, at most
    64 queries of one forwarder and 256 queries of the process are served at a
    time; no goroutine ever blocks on giving a place back, so every query is
    rejected or served and released; and once all have finished every place is
    free again. *)
Theorem dns_bounded (d : Dns) :
  dns_reachable round d ->
  (forall i, count (fun q => bool_decide (q = (i, Serving))) (queries d) <= perSandboxDNSConcurrent) /\
  count holds_global (queries d) <= globalDNSConcurrent /\
  (forall k i ph now, queries d !! k = Some (i, ph) -> finished (i, ph) = false ->
     exists a, admissions d !! i = Some a /\
       is_Some (advance round now (globalTokens d) (globalWork d) a ph)) /\
  (Forall (fun q => finished q = true) (queries d) ->
   globalWork d = 0 /\ Forall (fun a => localWork a = 0) (admissions d)).
Proof.
  intros H. apply dns_reachable_inv in H as [Hq Hl [Hg Hgb]]. split_and!.
  - intros i. destruct (admissions d !! i) as [a|] eqn:Ea.
    + destruct (Hl _ _ Ea) as [E B]. rewrite E in B. etrans; [|exact B]. apply count_mono.
      intros [j ph] Hj. bool_prop. injection Hj as -> ->. unfold holds_local. cbn. by rewrite bool_decide_eq_true_2.
    + rewrite count_zero; [done|]. eapply Forall_impl; [exact Hq|]. intros [j ph] Hj. apply bool_decide_eq_false_2.
      intros [= -> ->]. cbn in Hj. apply lookup_ge_None in Ea. lia.
  - by rewrite <-Hg.
  - intros k i ph now Hk Hf. pose proof (proj1 (Forall_lookup _ _) Hq _ _ Hk) as Hi. cbn in Hi.
    destruct (lookup_lt_is_Some_2 _ _ Hi) as [a Ea]. exists a. split; [done|].
    destruct (Hl _ _ Ea) as [El _].
    pose proof (count_pos (holds_local i) _ _ _ Hk) as Pl. pose proof (count_pos holds_global _ _ _ Hk) as Pg.
    unfold holds_local, holds_global in Pl, Pg. cbn [fst snd] in Pl, Pg.
    rewrite bool_decide_eq_true_2 in Pl by done. unfold finished in Hf. cbn [snd] in Hf.
    destruct ph; try done; cbn [advance]; repeat case_match; bool_prop; try (by eexists);
      first [specialize (Pl eq_refl); unfold holds_local in El; lia | specialize (Pg eq_refl); unfold holds_global in Hg; lia].
  - intros HF. split.
    + rewrite Hg. apply count_zero. eapply Forall_impl; [exact HF|]. by intros [j []].
    + apply Forall_lookup. intros i a Ea. destruct (Hl _ _ Ea) as [-> _]. apply count_zero.
      eapply Forall_impl; [exact HF|]. intros [j []]; try done; unfold holds_local; cbn; by rewrite andb_false_r.
Qed.
End Semaphores.

(** Two queries of a fresh forwarder, the first admitted. *)
Definition one_served : Dns :=
  let b := mkBucket (inject_Z 256) (inject_Z 512) (inject_Z 512 - 1)%Q (Some 0) in
  let g := mkBucket (inject_Z 4096) (inject_Z 8192) (inject_Z 8192 - 1)%Q (Some 0) in
  mkDns g 1 [mkAdmission b 1] [(0%nat, Serving)].

Lemma dns_bounded_witness :
  exists d, dns_reachable id d /\ queries d = [(0%nat, Serving)] /\
    (forall i, count (fun q => bool_decide (q = (i, Serving))) (queries d) <= perSandboxDNSConcurrent).
Proof.
  assert (dns_reachable id one_served) as H.
  { eapply rtc_l; [apply step_forwarder|]. eapply rtc_l; [apply (step_query _ _ 0%nat); cbn; lia|].
    do 4 (eapply rtc_l; [eapply (step_goroutine _ _ 0%nat 0); reflexivity|]). apply rtc_refl. }
  exists one_served. split; [exact H|]. split; [reflexivity|]. exact (proj1 (dns_bounded id one_served H)).
Defined.

(** ** Token buckets *)

(** The calls of [allow] at the times of a list: how many were admitted, and the
    bucket after them. *)
Fixpoint allow_all (round : Q -> Q) (b : tokenBucket) (times : list Z) : Z * tokenBucket :=
  match times with
  | [] => (0, b)
  | now :: times =>
      let '(ok, b) := allow round b now in
      let '(n, b) := allow_all round b times in (Z.b2z ok + n, b)
  end.

Section Rate.
Local Open Scope Q_scope.
Variable round : Q -> Q.
(** Rounding to nearest in [float64]: it is monotone, keeps integers up to 2^53,
    and errs by at most half a unit in the last place. *)
Hypothesis round_mono : forall x y, x <= y -> round x <= round y.
Hypothesis round_int : forall n, (0 <= n <= 9007199254740992)%Z -> round (inject_Z n) == inject_Z n.
Hypothesis round_up : forall x, 0 <= x -> round x <= x * (1 + (1 # 9007199254740992)) + (1 # 1152921504606846976).

(** A bucket as [newTokenBucket] makes it, with its tokens within bounds. *)
Record bucket_ok (b : tokenBucket) : Prop := mk_bucket_ok {
  bo_rate : 0 < tb_rate b <= 4096;
  bo_burst : exists n, (1 <= n <= 8192)%Z /\ tb_burst b = inject_Z n;
  bo_tokens : 0 <= tb_tokens b <= tb_burst b
}.

Lemma burst_bounds (b : tokenBucket) : bucket_ok b -> 1 <= tb_burst b <= 8192.
Proof.
  intros [_ (n & Hn & ->) _]. change 1 with (inject_Z 1). change 8192 with (inject_Z 8192).
  rewrite <-!Zle_Qle. lia.
Qed.

Lemma inject_Z_pred (n : Z) : inject_Z (n - 1) == inject_Z n - 1.
Proof. unfold Z.sub. rewrite inject_Z_plus, inject_Z_opp. change (inject_Z 1) with 1. lra. Qed.

Lemma round_nonneg (x : Q) : 0 <= x -> 0 <= round x.
Proof. intros H. apply round_mono in H. rewrite (round_int 0) in H by lia. exact H. Qed.

Lemma seconds_split (ns : Z) :
  inject_Z (ns `div` Second) + inject_Z (ns `mod` Second) / inject_Z Second == inject_Z ns / inject_Z Second.
Proof.
  rewrite (Z.div_mod ns Second) at 3 by done. rewrite inject_Z_plus, inject_Z_mult.
  unfold Second. field.
Qed.

Lemma Seconds_bounds (ns : Z) :
  (0 <= ns)%Z ->
  0 <= Seconds round ns <= inject_Z ns / inject_Z Second * (1 + (3 # 9007199254740992)) + (3 # 1152921504606846976).
Proof.
  intros H. unfold Seconds. pose proof (seconds_split ns) as E.
  set (s := inject_Z (ns `div` Second)) in *. set (f := inject_Z (ns `mod` Second) / inject_Z Second) in *.
  set (t := inject_Z ns / inject_Z Second) in *.
  assert (0 <= s) as Hs by (unfold s; rewrite <-(Zle_Qle 0); apply Z.div_pos; lia || done).
  assert (0 <= f) as Hf.
  { unfold f, Qdiv. apply Qmult_le_0_compat; [|done]. rewrite <-(Zle_Qle 0). by apply Z.mod_pos_bound. }
  pose proof (round_nonneg f Hf) as H1. pose proof (round_up f Hf) as H2.
  split; [apply round_nonneg; lra|].
  pose proof (round_up (s + round f)) as H3. assert (0 <= s + round f) by lra. specialize (H3 ltac:(lra)).
  lra.
Qed.

(** What [ns] nanoseconds add at most, at the bucket's rate. *)
Definition earned (b : tokenBucket) (ns : Z) : Q :=
  tb_rate b * (inject_Z ns / inject_Z Second) * (1 + (1 # 1125899906842624)).

Lemma Qlt_bool_spec (x y : Q) : if Qlt_bool x y then x < y else y <= x.
Proof.
  unfold Qlt_bool. destruct (Qle_bool y x) eqn:E; cbn [negb]; [by apply Qle_bool_iff|].
  apply Qnot_le_lt. rewrite <-Qle_bool_iff. by rewrite E.
Qed.

Lemma refill_bounds (b : tokenBucket) (ns : Z) :
  bucket_ok b -> (0 <= ns)%Z ->
  0 <= refill round b ns <= tb_burst b /\
  refill round b ns <= tb_tokens b + earned b ns + (1 # 549755813888).
Proof.
  intros Hb Hns. destruct (burst_bounds b Hb) as [B0 B1]. destruct Hb as [[R0 R1] _ [T0 T1]]. destruct (Seconds_bounds ns Hns) as [S0 S1].
  assert (0 <= Seconds round ns * tb_rate b) as P0 by (apply Qmult_le_0_compat; lra).
  assert (Seconds round ns * tb_rate b <=
          (inject_Z ns / inject_Z Second * (1 + (3 # 9007199254740992)) + (3 # 1152921504606846976)) * tb_rate b)
    as P1 by (apply Qmult_le_compat_r; lra).
  assert (0 <= inject_Z ns / inject_Z Second * tb_rate b) as P2.
  { apply Qmult_le_0_compat; [|lra]. apply Qmult_le_0_compat; [|done]. by rewrite <-(Zle_Qle 0). }
  pose proof (round_nonneg _ P0) as Q0. pose proof (round_up _ P0) as Q1.
  assert (0 <= tb_tokens b + round (Seconds round ns * tb_rate b)) as V by lra.
  pose proof (round_nonneg _ V) as V0. pose proof (round_up _ V) as V1.
  unfold refill, earned. cbv zeta.
  pose proof (Qlt_bool_spec (tb_burst b) (round (tb_tokens b + round (Seconds round ns * tb_rate b)))) as C.
  destruct (Qlt_bool _ _); split; lra.
Qed.

(** A whole number of tokens is not lost by a refill. *)
Lemma refill_keeps (b : tokenBucket) (ns m : Z) :
  bucket_ok b -> (0 <= ns)%Z -> (0 <= m)%Z -> inject_Z m <= tb_tokens b -> inject_Z m <= refill round b ns.
Proof.
  intros Hb Hns Hm Ht. destruct (burst_bounds b Hb) as [B0 B1]. destruct Hb as [[R0 R1] _ [T0 T1]]. destruct (Seconds_bounds ns Hns) as [S0 _].
  assert (0 <= Seconds round ns * tb_rate b) as P0 by (apply Qmult_le_0_compat; lra).
  pose proof (round_nonneg _ P0) as Q0.
  assert (m <= 8192)%Z as Hm' by (rewrite Zle_Qle; change (inject_Z 8192) with 8192; lra).
  assert (inject_Z m <= tb_tokens b + round (Seconds round ns * tb_rate b)) as V by lra.
  apply round_mono in V. rewrite (round_int m) in V by lia.
  unfold refill. cbv zeta.
  pose proof (Qlt_bool_spec (tb_burst b) (round (tb_tokens b + round (Seconds round ns * tb_rate b)))) as C.
  destruct (Qlt_bool _ _); lra.
Qed.

(** The time of a bucket's last update after a call at [now], and what elapsed. *)
Definition last_after (b : tokenBucket) (now : Z) : Z :=
  match tb_last b with None => now | Some l => Z.max l now end.
Definition elapsed (b : tokenBucket) (now : Z) : Z :=
  match tb_last b with None => 0 | Some l => Z.max l now - l end%Z.

(** The bucket [allow] takes a token from. *)
Lemma allow_refilled (b : tokenBucket) (now : Z) :
  bucket_ok b ->
  exists t,
    allow round b now =
      (let b' := set_tokens t (Some (last_after b now)) b in
       if Qlt_bool t 1 then (false, b') else (true, set_tokens (round (t - 1)) (tb_last b') b')) /\
    0 <= t <= tb_burst b /\ t <= tb_tokens b + earned b (elapsed b now) + (1 # 549755813888) /\
    forall m, (0 <= m)%Z -> inject_Z m <= tb_tokens b -> inject_Z m <= t.
Proof.
  intros Hb. destruct (burst_bounds b Hb) as [B0 B1]. pose proof Hb as [[R0 R1] _ T]. unfold allow, last_after, elapsed.
  replace (Qle_bool (tb_rate b) 0) with false.
  2: { symmetry. apply not_true_iff_false. rewrite Qle_bool_iff. lra. }
  pose proof (Qlt_bool_spec (tb_burst b) 1) as C. destruct (Qlt_bool (tb_burst b) 1); [lra|]. cbn [orb].
  assert (tb_tokens b <= tb_tokens b + earned b 0 + (1 # 549755813888)) as Z0 .
  { assert (earned b 0 == 0) as -> by (unfold earned, Qdiv; change (inject_Z 0) with 0; ring). lra. }
  destruct (tb_last b) as [l|] eqn:El.
  - destruct (l <? now)%Z eqn:E; bool_prop.
    + rewrite Z.max_r by lia. destruct (refill_bounds b (now - l) Hb ltac:(lia)) as [RA RB].
      exists (refill round b (now - l)). split; [done|]. split; [done|]. split; [done|].
      intros m Hm Ht. apply refill_keeps; [done|lia|done|done].
    + rewrite Z.max_l, Z.sub_diag by lia. exists (tb_tokens b). split; [|done].
      destruct b; cbn in *; by subst.
  - exists (tb_tokens b). split; [|done]. by destruct b.
Qed.

Lemma allow_bounds (b b' : tokenBucket) (now : Z) (ok : bool) :
  bucket_ok b -> allow round b now = (ok, b') ->
  bucket_ok b' /\ tb_rate b' = tb_rate b /\ tb_burst b' = tb_burst b /\ tb_last b' = Some (last_after b now) /\
  tb_tokens b' + inject_Z (Z.b2z ok) <= tb_tokens b + earned b (elapsed b now) + (1 # 274877906944) /\
  forall m, (1 <= m)%Z -> inject_Z m <= tb_tokens b -> ok = true /\ inject_Z (m - 1) <= tb_tokens b'.
Proof.
  intros Hb. destruct (allow_refilled b now Hb) as (t & -> & T0 & T1 & TM).
  pose proof (burst_bounds b Hb) as BB. destruct Hb as [R (n & Hn & B) T]. cbv zeta.
  pose proof (Qlt_bool_spec t 1) as C. destruct (Qlt_bool t 1); intros [= <- <-];
    cbn [tb_rate tb_burst tb_tokens tb_last set_tokens]; split_and!; try done.
  - constructor; eauto.
  - change (inject_Z (Z.b2z false)) with 0. lra.
  - intros m Hm Ht. apply (TM m) in Ht; [|lia]. assert (inject_Z 1 <= inject_Z m) by (rewrite <-Zle_Qle; lia).
    change (inject_Z 1) with 1 in *. lra.
  - assert (0 <= t - 1) as V by lra. pose proof (round_nonneg _ V).
    constructor; cbn [tb_rate tb_burst tb_tokens set_tokens]; [done|by eauto|]. split; [done|].
    assert (t - 1 <= inject_Z (n - 1)) as W by (rewrite inject_Z_pred, <-B; lra).
    apply round_mono in W. rewrite (round_int (n - 1)) in W by lia. rewrite inject_Z_pred, <-B in W. lra.
  - pose proof (round_up (t - 1) ltac:(lra)). change (inject_Z (Z.b2z true)) with 1. lra.
  - intros m Hm Ht. split; [done|]. apply (TM m) in Ht; [|lia].
    assert (m <= 8192)%Z by (rewrite Zle_Qle; change (inject_Z 8192) with 8192; lra).
    assert (inject_Z (m - 1) <= t - 1) as W by (rewrite inject_Z_pred; lra).
    apply round_mono in W. by rewrite (round_int (m - 1)) in W by lia.
Qed.

Lemma earned_plus (b b' : tokenBucket) (m n : Z) :
  tb_rate b' = tb_rate b -> earned b m + earned b' n == earned b (m + n).
Proof. intros E. unfold earned, Qdiv. rewrite E, inject_Z_plus. ring. Qed.

Lemma foldl_max_le (l : Z) (times : list Z) : (l <= foldl Z.max l times)%Z.
Proof. revert l. induction times as [|t times IH]; intros l; cbn; [done|]. specialize (IH (Z.max l t)). lia. Qed.

(** Over several calls: what was admitted is paid by the tokens and by time. *)
Lemma allow_all_upper (times : list Z) (b : tokenBucket) (l : Z) :
  bucket_ok b -> tb_last b = Some l ->
  inject_Z (fst (allow_all round b times)) <=
  tb_tokens b + earned b (foldl Z.max l times - l) +
  inject_Z (Z.of_nat (length times)) * (1 # 274877906944).
Proof.
  revert b l. induction times as [|now times IH]; intros b l Hb Hl.
  - cbn [allow_all fst length foldl]. rewrite Z.sub_diag. unfold earned, Qdiv. change (inject_Z 0) with 0.
    change (inject_Z (Z.of_nat 0)) with 0. destruct Hb as [_ _ [T _]]. lra.
  - cbn [allow_all length foldl]. destruct (allow round b now) as [ok b1] eqn:E.
    destruct (allow_bounds _ _ _ _ Hb E) as (Hb1 & ER & _ & El & U & _).
    unfold last_after in El. unfold elapsed in U. rewrite Hl in El, U. specialize (IH b1 _ Hb1 El).
    destruct (allow_all round b1 times) as [n b2]. cbn [fst] in IH |- *.
    rewrite Nat2Z.inj_succ, <-Z.add_1_r, !inject_Z_plus. change (inject_Z 1) with 1.
    set (x := (foldl Z.max (Z.max l now) times - Z.max l now)%Z) in IH.
    assert (earned b (foldl Z.max (Z.max l now) times - l) == earned b (Z.max l now - l) + earned b1 x) as EE.
    { rewrite earned_plus by done. unfold x. by replace (_ + _)%Z with (foldl Z.max (Z.max l now) times - l)%Z by lia. }
    rewrite EE. lra.
Qed.

(** A bucket with [m] whole tokens admits the next [m] calls. *)
Lemma allow_all_lower (times : list Z) (b : tokenBucket) (m : Z) :
  bucket_ok b -> inject_Z m <= tb_tokens b -> (Z.of_nat (length times) <= m)%Z ->
  fst (allow_all round b times) = Z.of_nat (length times).
Proof.
  revert b m. induction times as [|now times IH]; intros b m Hb Hm Hk; [done|].
  cbn [allow_all length] in *. destruct (allow round b now) as [ok b1] eqn:E.
  destruct (allow_bounds _ _ _ _ Hb E) as (Hb1 & _ & _ & _ & _ & L).
  destruct (L m ltac:(lia) Hm) as [-> L']. specialize (IH b1 (m - 1)%Z Hb1 L' ltac:(lia)).
  destruct (allow_all round b1 times) as [n b2]. cbn [fst] in IH |- *. unfold Z.b2z. lia.
Qed.

Lemma new_bucket_ok (rate burst : Z) :
  (0 < rate <= 4096)%Z -> (1 <= burst <= 8192)%Z -> bucket_ok (newTokenBucket rate burst).
Proof.
  intros Hr Hb. constructor; cbn [tb_rate tb_burst tb_tokens newTokenBucket].
  - change 0 with (inject_Z 0). change 4096 with (inject_Z 4096). rewrite <-Zlt_Qlt, <-Zle_Qle. lia.
  - eauto.
  - split; [|apply Qle_refl]. change 0 with (inject_Z 0). rewrite <-Zle_Qle. lia.
Qed.

(** A token bucket limits the rate: over any sequence of calls it admits at
    most its burst plus its rate times the time elapsed (up to the rounding of
    [float64]: a relative 2^-50 of the earned tokens and 2^-38 of a token per
    call); and it never refuses a call while its burst is not used up. *)
Theorem allow_rate (rate burst first : Z) (times : list Z) :
  (0 < rate <= 4096)%Z -> (1 <= burst <= 8192)%Z ->
  let n := fst (allow_all round (newTokenBucket rate burst) (first :: times)) in
  let k := Z.of_nat (length (first :: times)) in
  inject_Z n <=
    inject_Z burst +
    inject_Z rate * (inject_Z (foldl Z.max first times - first) / inject_Z Second) * (1 + (1 # 1125899906842624)) +
    inject_Z k * (1 # 274877906944) /\
  ((k <= burst)%Z -> n = k).
Proof.
  intros Hr Hb. cbv zeta. pose proof (new_bucket_ok _ _ Hr Hb) as Hok. split.
  - cbn [allow_all]. destruct (allow round _ first) as [ok b1] eqn:E.
    destruct (allow_bounds _ _ _ _ Hok E) as (Hb1 & ER & _ & El & U & _).
    pose proof (allow_all_upper times b1 first Hb1 El) as IH.
    destruct (allow_all round b1 times) as [n b2]. cbn [fst length] in IH |- *.
    rewrite Nat2Z.inj_succ, <-Z.add_1_r, !inject_Z_plus. change (inject_Z 1) with 1.
    unfold earned in IH, U. rewrite ER in IH. cbn [tb_rate tb_tokens newTokenBucket elapsed tb_last] in IH, U.
    unfold Qdiv in U. change (inject_Z 0) with 0 in U. lra.
  - intros Hk. apply (allow_all_lower _ _ burst); [done|apply Qle_refl|done].
Qed.
End Rate.

Lemma allow_rate_witness :
  fst (allow_all id (newTokenBucket perSandboxDNSRate perSandboxDNSBurst) [0; 1; 2]) = 3.
Proof.
  apply (allow_rate id) with (rate := perSandboxDNSRate) (burst := perSandboxDNSBurst) (first := 0) (times := [1; 2]).
  - intros x y H. exact H.
  - intros n _. apply Qeq_refl.
  - intros x H. unfold id. lra.
  - unfold perSandboxDNSRate. lia.
  - unfold perSandboxDNSBurst. lia.
  - vm_compute. discriminate.
Defined.
