(* ===== verification/DnsServe.v ===== *)
(** * DnsServe: forwarding DNS messages (internal/network/dns.go, network.go)

    The forwarder takes messages from a sandbox over UDP and TCP, passes those
    that are admitted to a fixed upstream server and returns the answers.
    Buffers come from a pool that all sandboxes share, so they hold old messages
    of others: a buffer is a string of its fixed length, and reading into it
    replaces only a first part. *)

From S2P Require Import Prelude GoLib.
Import Strings.
Local Open Scope Z_scope.
Local Open Scope go_scope.

Definition maxDNSMessage : Z := 4096.
Definition len (s : string) : Z := Z.of_nat (String.length s).
Definition max_nat : nat := Z.to_nat maxDNSMessage.

(** [copy(buf[i:], data)] *)
Definition overwrite (i : nat) (data buf : string) : string :=
  take_str i buf +:+ data +:+ drop_str (i + String.length data) buf.

(** A message of acceptable size. *)
Definition message_size (n : Z) : bool := negb ((n <? 12) || (maxDNSMessage <? n)).

(** ** UDP *)

(** What [ReadFrom] leaves of a datagram in a buffer of [n] bytes. *)
Definition received (n : nat) (datagram : string) : string := take_str n datagram.

(** The outside of a query: whether the upstream can be dialled and written to,
    and the datagram that it answers. *)
Record Upstream : Type := mkUpstream { up_dial : result unit; up_write : result unit; up_answer : result string }.

(** The goroutine of [serveUDP] for a message in [buf]: what goes to the upstream
    and what comes back to the sandbox. *)
Definition udp_query (up : Upstream) (size : nat) (buf : string) : option string * option string :=
  let id := take_str 2 buf in
  match up_dial up with
  | Err _ => (None, None)
  | Ok _ =>
      let sent := take_str size buf in
      match up_write up with
      | Err _ => (Some sent, None)
      | Ok _ =>
          match up_answer up with
          | Err _ => (Some sent, None)
          | Ok datagram =>
              let answer := received (S max_nat) datagram in
              let buf := overwrite 0 answer buf in
              let n := String.length answer in
              if message_size (Z.of_nat n) && bool_decide (take_str 2 buf = id)
              then (Some sent, Some (take_str n buf)) else (Some sent, None)
          end
      end
  end.

(** The loop of [serveUDP]: for each datagram until the socket is closed, the
    query that is started, if any.  [acquire] says whether the admission succeeds,
    [pool] is the buffer that the pool gives. *)
Fixpoint serveUDP (acquire : nat -> bool) (pool : nat -> string) (up : nat -> Upstream) (t : nat)
    (datagrams : list (option string)) : list (option (option string * option string)) :=
  match datagrams with
  | [] | None :: _ => []
  | Some d :: datagrams =>
      let incoming := received (S max_nat) d in
      (if negb (message_size (len incoming)) then None
       else if negb (acquire t) then None
       else Some (udp_query (up t) (String.length incoming) (overwrite 0 incoming (pool t)))) ::
      serveUDP acquire pool up (S t) datagrams
  end.

(** ** TCP *)

Definition byte_at (i : nat) (s : string) : Z :=
  match drop_str i s with String c _ => Z.of_N (N_of_ascii c) | EmptyString => 0 end.

(** [binary.BigEndian.Uint16(buf[:2])] *)
Definition Uint16 (s : string) : Z := byte_at 0 s * 256 + byte_at 1 s.

(** [io.ReadFull] of [n] bytes from a stream. *)
Definition read_full (n : nat) (stream : string) : option (string * string) :=
  if (n <=? String.length stream)%nat then Some (take_str n stream, drop_str n stream) else None.

(** The goroutine of [serveTCP]: what goes to the upstream and what comes back;
    [answer] is the stream of the upstream. *)
Definition tcp_query (up : Upstream) (client : string) (buf : string) : option string * option string :=
  match read_full 2 client with
  | None => (None, None)
  | Some (prefix, client) =>
      let buf := overwrite 0 prefix buf in
      let n := Uint16 (take_str 2 buf) in
      if negb (message_size n) then (None, None)
      else match read_full (Z.to_nat n) client with
           | None => (None, None)
           | Some (message, _) =>
               let buf := overwrite 2 message buf in
               match up_dial up with
               | Err _ => (None, None)
               | Ok _ =>
                   let sent := take_str (Z.to_nat n + 2) buf in
                   match up_write up with
                   | Err _ => (Some sent, None)
                   | Ok _ =>
                       (Some sent, match up_answer up with Ok s => Some (take_str (max_nat + 2) s) | Err _ => None end)
                   end
               end
           end
  end.

(** The loop of [serveTCP]: a connection that is not admitted is closed. *)
Fixpoint serveTCP (acquire : nat -> bool) (pool : nat -> string) (up : nat -> Upstream) (t : nat)
    (clients : list (option string)) : list (option (option string * option string)) :=
  match clients with
  | [] | None :: _ => []
  | Some c :: clients =>
      (if negb (acquire t) then None else Some (tcp_query (up t) c (pool t))) ::
      serveTCP acquire pool up (S t) clients
  end.

(** [DNS]: the sockets that stay open. *)
Definition DNS (udp tcp : result unit) : list string * result unit :=
  match udp with
  | Err e => ([], Err e)
  | Ok _ => match tcp with Err e => ([], Err e) | Ok _ => (["udp"; "tcp"], Ok tt) end
  end.

(** ** Theorems *)

Lemma overwrite_take (data buf : string) : take_str (String.length data) (overwrite 0 data buf) = data.
Proof. unfold overwrite. cbn [take_str]. rewrite app_nil_l_str. apply take_app_str. Qed.

Lemma take_overwrite (k : nat) (data buf : string) :
  (k <= String.length data)%nat -> take_str k (overwrite 0 data buf) = take_str k data.
Proof.
  intros Hk. unfold overwrite. cbn [take_str]. rewrite app_nil_l_str, take_str_app.
  replace (k - String.length data)%nat with 0%nat by lia. cbn [take_str]. by rewrite app_nil_r_str.
Qed.

Lemma max_nat_Z : Z.of_nat max_nat = maxDNSMessage.
Proof. unfold max_nat, maxDNSMessage. rewrite Z2Nat.id; lia. Qed.

Lemma message_size_spec (n : Z) : message_size n = true <-> 12 <= n <= maxDNSMessage.
Proof. unfold message_size. rewrite negb_true_iff, orb_false_iff. rewrite Z.ltb_ge, Z.ltb_ge. lia. Qed.

(** A datagram of acceptable size was not cut off. *)
Lemma received_whole (d : string) : message_size (len (received (S max_nat) d)) = true -> received (S max_nat) d = d.
Proof.
  rewrite message_size_spec. unfold received, len. rewrite length_take_str. pose proof max_nat_Z. intros H1.
  apply take_str_all. lia.
Qed.

Lemma received_small (d : string) : len d <= maxDNSMessage -> received (S max_nat) d = d.
Proof. unfold received, len. pose proof max_nat_Z. intros H1. apply take_str_all. lia. Qed.

(** Messages pass unchanged and nothing leaks from a buffer.  Over UDP the
    upstream gets exactly the sandbox's datagram, of 12 to 4096 bytes, and the
    sandbox gets exactly the upstream's datagram, of such a size and with the
    identifier of its query, or nothing; a good answer does come back.  Neither
    depends on what an earlier query of this or another sandbox left in the
    buffer. *)
Theorem udp_exact (up : Upstream) (datagram buf : string) :
  let incoming := received (S max_nat) datagram in
  message_size (len incoming) = true ->
  let r := udp_query up (String.length incoming) (overwrite 0 incoming buf) in
  (forall s, fst r = Some s -> s = datagram /\ 12 <= len s <= maxDNSMessage) /\
  (forall a, snd r = Some a -> up_answer up = Ok a /\ 12 <= len a <= maxDNSMessage /\ take_str 2 a = take_str 2 datagram) /\
  (forall a, up_dial up = Ok tt -> up_write up = Ok tt -> up_answer up = Ok a -> 12 <= len a <= maxDNSMessage ->
     take_str 2 a = take_str 2 datagram -> r = (Some datagram, Some a)) /\
  (forall buf', udp_query up (String.length incoming) (overwrite 0 incoming buf') = r).
Proof.
  intros incoming Hm. subst incoming. pose proof (received_whole datagram Hm) as Hi. rewrite Hi in Hm |- *. clear Hi.
  apply message_size_spec in Hm. unfold len in Hm.
  assert (forall b, take_str 2 (overwrite 0 datagram b) = take_str 2 datagram) as Hid by (intros b; apply take_overwrite; lia).
  intros r. unfold r, udp_query. rewrite !Hid, !overwrite_take.
  assert (forall b, (if message_size (Z.of_nat (String.length (received (S max_nat) b))) &&
      bool_decide (take_str 2 (overwrite 0 (received (S max_nat) b) (overwrite 0 datagram buf)) = take_str 2 datagram)
      then (Some datagram, Some (take_str (String.length (received (S max_nat) b)) (overwrite 0 (received (S max_nat) b) (overwrite 0 datagram buf))))
      else (Some datagram, None)) =
    (if message_size (len (received (S max_nat) b)) && bool_decide (take_str 2 (received (S max_nat) b) = take_str 2 datagram)
      then (Some datagram, Some b) else (Some datagram, None))) as HA.
  { intros b. fold (len (received (S max_nat) b)). destruct (message_size (len (received (S max_nat) b))) eqn:Em; [|done].
    pose proof (received_whole b Em) as Hb. rewrite Hb in *. apply message_size_spec in Em. unfold len in Em.
    by rewrite take_overwrite, overwrite_take by lia. }
  split_and!.
  - intros s. destruct (up_dial up); [|done]. destruct (up_write up); [|by intros [= <-]].
    destruct (up_answer up) as [b|]; [|by intros [= <-]]. rewrite HA. destruct (_ && _); by intros [= <-].
  - intros a. destruct (up_dial up); [|done]. destruct (up_write up); [|done]. destruct (up_answer up) as [b|]; [|done].
    rewrite HA. destruct (_ && _) eqn:E; [|done]. intros [= <-]. apply andb_true_iff in E as [E1 E2].
    apply bool_decide_eq_true in E2. pose proof (received_whole b E1) as Hb. rewrite Hb in E1, E2.
    apply message_size_spec in E1. split_and!; try done; lia.
  - intros a -> -> -> Ha Hida. rewrite HA, received_small by lia.
    assert (message_size (len a) = true) as -> by by apply message_size_spec. by rewrite bool_decide_eq_true_2.
  - intros buf'. rewrite !Hid, !overwrite_take. destruct (up_dial up); [|done]. destruct (up_write up); [|done].
    destruct (up_answer up) as [b|]; [|done]. rewrite HA. fold (len (received (S max_nat) b)).
    destruct (message_size (len (received (S max_nat) b))) eqn:Em; [|done].
    pose proof (received_whole b Em) as Hb. rewrite Hb in *. apply message_size_spec in Em. unfold len in Em.
    by rewrite take_overwrite, overwrite_take by lia.
Qed.

Lemma udp_exact_witness :
  udp_query (mkUpstream (Ok tt) (Ok tt) (Ok "ab answer 123")) 12 (overwrite 0 "ab query 456" "old message of another sandbox")
  = (Some "ab query 456", Some "ab answer 123").
Proof.
  destruct (udp_exact (mkUpstream (Ok tt) (Ok tt) (Ok "ab answer 123")) "ab query 456" "old message of another sandbox" eq_refl)
    as (_ & _ & H & _).
  apply H; [reflexivity|reflexivity|reflexivity|split; discriminate|reflexivity].
Defined.

Lemma read_full_length (n : nat) (s p r : string) : read_full n s = Some (p, r) -> String.length p = n /\ p +:+ r = s.
Proof.
  unfold read_full. destruct (n <=? String.length s)%nat eqn:El; [|done]. apply Nat.leb_le in El.
  intros [= <- <-]. split; [rewrite length_take_str; lia|apply take_drop_str].
Qed.

(** Over TCP the upstream gets one whole message of 12 to 4096 bytes with its
    length prefix, exactly as the sandbox sent it, and the sandbox gets at most
    one message's length of the answer; neither depends on the old content of
    the buffer. *)
Theorem tcp_exact (up : Upstream) (client buf buf' : string) :
  (forall s, fst (tcp_query up client buf) = Some s ->
     exists rest, client = s +:+ rest /\ len s = Uint16 s + 2 /\ 12 <= Uint16 s <= maxDNSMessage) /\
  (forall a, snd (tcp_query up client buf) = Some a ->
     exists s, up_answer up = Ok s /\ a = take_str (max_nat + 2) s /\ len a <= maxDNSMessage + 2) /\
  tcp_query up client buf = tcp_query up client buf'.
Proof.
  assert (forall b, tcp_query up client b =
    match read_full 2 client with
    | None => (None, None)
    | Some (prefix, rest) =>
        if negb (message_size (Uint16 prefix)) then (None, None)
        else match read_full (Z.to_nat (Uint16 prefix)) rest with
             | None => (None, None)
             | Some (message, _) =>
                 match up_dial up with
                 | Err _ => (None, None)
                 | Ok _ => match up_write up with
                           | Err _ => (Some (prefix +:+ message), None)
                           | Ok _ => (Some (prefix +:+ message), match up_answer up with Ok s => Some (take_str (max_nat + 2) s) | Err _ => None end)
                           end
                 end
             end
    end) as HQ.
  { intros b. unfold tcp_query. destruct (read_full 2 client) as [[p rest]|] eqn:E2; [|done].
    assert (String.length p = 2%nat) as Hp.
    { by destruct (read_full_length _ _ _ _ E2). }
    assert (take_str 2 (overwrite 0 p b) = p) as Hp2 by (rewrite <-Hp; apply overwrite_take). rewrite Hp2.
    destruct (negb (message_size (Uint16 p))); [done|]. destruct (read_full (Z.to_nat (Uint16 p)) rest) as [[msg rest']|] eqn:En; [|done].
    assert (String.length msg = Z.to_nat (Uint16 p)) as Hm.
    { by destruct (read_full_length _ _ _ _ En). }
    assert (take_str (Z.to_nat (Uint16 p) + 2) (overwrite 2 msg (overwrite 0 p b)) = p +:+ msg) as ->; [|done].
    unfold overwrite at 1. rewrite Hp2, <-app_assoc_str.
    replace (Z.to_nat (Uint16 p) + 2)%nat with (String.length (p +:+ msg)) by (rewrite length_app_str; lia). apply take_app_str. }
  split_and!.
  - intros s. rewrite HQ. destruct (read_full 2 client) as [[p rest]|] eqn:E2; [|done]. destruct (negb _) eqn:Em; [done|].
    apply negb_false_iff, message_size_spec in Em. destruct (read_full _ rest) as [[msg rest']|] eqn:En; [|done].
    apply read_full_length in E2 as [L2 <-]. apply read_full_length in En as [Ln <-].
    destruct (up_dial up); [|done]. intros Hs. assert (s = p +:+ msg) as -> by (destruct (up_write up); cbn in Hs; congruence).
    exists rest'. assert (Uint16 (p +:+ msg) = Uint16 p) as ->.
    { destruct p as [|c1 [|c2 [|c3 t]]]; done. }
    split_and!; [by rewrite app_assoc_str|unfold len; rewrite length_app_str; lia|lia|lia].
  - intros a. rewrite HQ. destruct (read_full 2 client) as [[p rest]|]; [|done]. destruct (negb _); [done|].
    destruct (read_full _ rest) as [[msg rest']|]; [|done]. destruct (up_dial up); [|done]. destruct (up_write up); [|done].
    destruct (up_answer up) as [s|]; [|done].
    cbn [snd]. intros Ha. apply (inj Some) in Ha as <-. exists s. split_and!; [done|done|].
    unfold len. rewrite length_take_str. pose proof max_nat_Z. lia.
  - by rewrite !HQ.
Qed.
