(* ===== verification/Firecracker.v ===== *)
(** * Firecracker: process identity, VM configuration and launch
    (internal/firecracker/vm.go)

    The manager finds, kills and launches VMMs.  Everything it reads of the host
    ([/proc], the jailer's pidfile) is read at a time, and two reads at different
    times may differ: processes die, and PIDs are reused.  [Discover] and [Kill]
    are written over these timed reads; [Start] is written over the outside
    operations it performs, each of which may fail. *)

From S2P Require Import Prelude GoLib Api Base Storage Network.
Import Strings Strconv Path.
Local Open Scope Z_scope.
Local Open Scope go_scope.

(** The outcome of reading a file: its content, [os.IsNotExist], or another error. *)
Inductive outcome (A : Type) : Type :=
| Got (a : A)
| Gone
| Failed (e : error).
Arguments Got {A} a.
Arguments Gone {A}.
Arguments Failed {A} e.

(** What the host answers at each time. *)
Record Host : Type := mkHost {
  h_boot_id : nat -> outcome string;               (* /proc/sys/kernel/random/boot_id *)
  h_stat : nat -> Z -> outcome string;             (* /proc/<pid>/stat *)
  h_cgroup : nat -> Z -> outcome string;           (* /proc/<pid>/cgroup *)
  h_pidfile : nat -> string -> outcome string;     (* the jailer's pidfile of a sandbox *)
  h_pidfd_open : nat -> Z -> outcome unit;         (* [Gone] is ESRCH *)
  h_pidfd_kill : nat -> Z -> outcome unit;         (* SIGKILL through the pidfd; [Gone] is ESRCH *)
  h_ctx_done : nat -> bool                         (* the caller's context has ended *)
}.

(** Timed computations: the time moves at every read of the host. *)
Definition timed (A : Type) : Type := nat -> nat * A.
Definition tret {A} (a : A) : timed A := fun t => (t, a).
Definition tbind {A B} (m : timed A) (k : A -> timed B) : timed B :=
  fun t => let '(t, a) := m t in k a t.
Definition ask {A} (f : nat -> A) : timed A := fun t => (S t, f t).
Notation "'do' x <- m ; k" := (tbind m (fun x => k)) (at level 200, x name, m at level 100, right associativity).

(** The text after the last [") "]. *)
Fixpoint after_last_paren (s : string) : option string :=
  match s with
  | EmptyString => None
  | String _ rest =>
      match after_last_paren rest with
      | Some r => Some r
      | None => if HasPrefix s ") " then Some (drop_str 2 s) else None
      end
  end.

Section Process.
Variable h : Host.

(** The start time field of a stat line. *)
Definition start_ticks (stat : string) : option string :=
  rest ← after_last_paren stat;
  let p := Fields rest in
  if (length p <? 20)%nat then None else p !! 19%nat.

(** [pidStartAt] *)
Definition pidStartAt (pid : Z) : timed (outcome string) :=
  do boot <- ask (h_boot_id h);
  match boot with
  | Gone => tret Gone
  | Failed e => tret (Failed e)
  | Got raw =>
      let bootID := TrimSpace raw in
      if bool_decide (bootID = "") || ContainsRune bootID ":" then tret (Failed (Errorf "malformed host boot ID"))
      else
        do stat <- ask (fun t => h_stat h t pid);
        match stat with
        | Gone => tret Gone
        | Failed e => tret (Failed e)
        | Got b =>
            match start_ticks b with
            | None => tret (Failed (Errorf "malformed process stat"))
            | Some ticks => tret (Got (bootID +:+ ":" +:+ ticks))
            end
        end
  end.

(** A line of a cgroup file that names the sandbox's own group. *)
Definition owned_line (id line : string) : bool :=
  match SplitN line ":" 3 with
  | [_; _; path] => bool_decide (path = "/niflhel/" +:+ id)
  | _ => false
  end.

(** [cgroupOwnedAt] *)
Definition cgroupOwnedAt (s : Sandbox) : timed (result bool) :=
  do group <- ask (fun t => h_cgroup h t (sb_PID s));
  tret match group with
       | Gone => Ok false
       | Failed e => Err e
       | Got text => Ok (existsb (owned_line (sb_ID s)) (Split text "010"))
       end.

(** Does the identity read now match the recorded one?  A record without a boot
    identifier is a legacy one. *)
Definition identity_matches (recorded current : string) : bool :=
  bool_decide (current = recorded) ||
  negb (ContainsRune recorded ":") && HasSuffix current (":" +:+ recorded).

(** [aliveAt] *)
Definition aliveAt (s : Sandbox) : timed bool :=
  if (sb_PID s <=? 1) || bool_decide (sb_PIDStart s = "") then tret false
  else
    do current <- pidStartAt (sb_PID s);
    match current with
    | Got current =>
        if identity_matches (sb_PIDStart s) current then
          do owned <- cgroupOwnedAt s;
          tret match owned with Ok b => b | Err _ => false end
        else tret false
    | _ => tret false
    end.

(** [Manager.ownedAlive] *)
Definition ownedAlive (s : Sandbox) : timed (result bool) :=
  do alive <- aliveAt s;
  if alive then cgroupOwnedAt s else tret (Ok false).

Definition set_process (pid : Z) (start : string) (s : Sandbox) : Sandbox :=
  set_PIDStart start (set_PID pid s).

(** [Manager.Discover] *)
Definition Discover (s : Sandbox) : timed (Sandbox * option error) :=
  do owned <- ownedAlive s;
  match owned with
  | Err e => tret (s, Some e)
  | Ok true => tret (s, None)
  | Ok false =>
      do raw <- ask (fun t => h_pidfile h t (sb_ID s));
      match raw with
      | Gone => tret (set_process 0 "" s, None)
      | Failed e => tret (s, Some e)
      | Got raw =>
          let invalid := tret (s, Some (Errorf "invalid jailer PID record")) in
          match Atoi (TrimSpace raw) with
          | Err _ => invalid
          | Ok pid =>
              if pid <? 2 then invalid
              else
                do start <- pidStartAt pid;
                match start with
                | Gone => tret (set_process 0 "" s, None)
                | Failed e => tret (s, Some e)
                | Got start =>
                    let s := set_process pid start s in
                    do owned <- ownedAlive s;
                    match owned with
                    | Err e => tret (s, Some e)
                    | Ok true => tret (s, None)
                    | Ok false => tret (set_process 0 "" s, None)
                    end
                end
          end
      end
  end.

(** The wait of [Kill]: poll until the VMM is gone or the context has ended;
    [fuel] bounds the polls. *)
Fixpoint wait_dead (fuel : nat) (s : Sandbox) : timed (option (result unit)) :=
  match fuel with
  | O => tret None
  | S fuel =>
      do alive <- aliveAt s;
      if alive then
        do over <- ask (h_ctx_done h);
        if over then tret (Some (Err (Errorf "context done"))) else wait_dead fuel s
      else tret (Some (Ok tt))
  end.

(** A signal [Kill] sent: to the process that had PID [sg_pid] at time [sg_time],
    when the pidfd was opened. *)
Record Signal : Type := mkSignal { sg_pid : Z; sg_time : nat }.

(** [Manager.Kill]: its result ([None] when the poll is still going on) and the
    signal it sent, if any. *)
Definition Kill (fuel : nat) (s : Sandbox) : timed (option (result unit) * option Signal) :=
  let return_ (r : result unit) := tret (Some r, None) in
  do found <- Discover s;
  match found with
  | (_, Some e) => return_ (Err e)
  | (s, None) =>
      do owned <- ownedAlive s;
      match owned with
      | Err e => return_ (Err e)
      | Ok false => return_ (Ok tt)
      | Ok true =>
          do opened <- ask (fun t => (t, h_pidfd_open h t (sb_PID s)));
          match opened with
          | (_, Gone) => return_ (Ok tt)
          | (_, Failed e) => return_ (Err e)
          | (at_, Got _) =>
              do owned <- ownedAlive s;
              match owned with
              | Err e => return_ (Err e)
              | Ok false => return_ (Ok tt)
              | Ok true =>
                  let sent := Some (mkSignal (sb_PID s) at_) in
                  do killed <- ask (fun t => h_pidfd_kill h t (sb_PID s));
                  match killed with
                  | Failed e => tret (Some (Err e), sent)
                  | _ => do r <- wait_dead fuel s; tret (r, sent)
                  end
              end
          end
      end
  end.
End Process.

(** ** Which process is signalled *)

Section Identity.
Variable h : Host.

(** What one run of [ownedAlive] that answers yes has seen, between [t] and
    [t']: the boot identifier, then the start time, then the cgroup. *)
Record sighting (s : Sandbox) (t t' : nat) (boot ticks : string) (at_ : nat) : Prop := mk_sighting {
  sg_order : (t < at_)%nat /\ (S at_ < t')%nat;
  sg_alive : 1 < sb_PID s;
  sg_boot : exists t0 raw, h_boot_id h t0 = Got raw /\ boot = TrimSpace raw;
  sg_boot_plain : ContainsRune boot ":" = false;
  sg_stat : exists text, h_stat h at_ (sb_PID s) = Got text /\ start_ticks text = Some ticks;
  sg_identity : identity_matches (sb_PIDStart s) (boot +:+ ":" +:+ ticks) = true;
  sg_group : exists text, h_cgroup h (S at_) (sb_PID s) = Got text /\
    existsb (owned_line (sb_ID s)) (Split text "010") = true
}.

Ltac step H := unfold tbind, ask, tret in H; cbn beta iota zeta in H.

Lemma pidStartAt_got (pid : Z) (t t' : nat) (v : string) :
  pidStartAt h pid t = (t', Got v) ->
  exists raw text ticks,
    t' = S (S t) /\ h_boot_id h t = Got raw /\ h_stat h (S t) pid = Got text /\ start_ticks text = Some ticks /\
    ContainsRune (TrimSpace raw) ":" = false /\ v = TrimSpace raw +:+ ":" +:+ ticks.
Proof.
  unfold pidStartAt. intros H. step H. destruct (h_boot_id h t) as [raw| |]; [|done|done].
  destruct (bool_decide _ || _) eqn:E; [done|]. bool_prop. destruct (h_stat h (S t) pid) as [text| |]; [|done|done].
  destruct (start_ticks text) as [ticks|] eqn:Et; [|done]. injection H as <- <-. eauto 10.
Qed.

Lemma pidStartAt_time (pid : Z) (t : nat) : (t <= fst (pidStartAt h pid t))%nat.
Proof. unfold pidStartAt, tbind, ask, tret. repeat (case_match; simplify_eq; cbn [fst]); lia. Qed.

Lemma ownedAlive_true (s : Sandbox) (t t' : nat) :
  ownedAlive h s t = (t', Ok true) -> exists boot ticks at_, sighting s t t' boot ticks at_.
Proof.
  unfold ownedAlive, aliveAt. intros H.
  destruct ((sb_PID s <=? 1) || _) eqn:E; [done|]. bool_prop.
  step H. destruct (pidStartAt h (sb_PID s) t) as [t1 [v| |]] eqn:EP; [|done|done].
  destruct (pidStartAt_got _ _ _ _ EP) as (raw & text & ticks & -> & Hb & Hs & Ht & Hc & ->).
  destruct (identity_matches _ _) eqn:EI; [|done].
  unfold cgroupOwnedAt in H. step H. destruct (h_cgroup h (S (S t)) _) as [group| |] eqn:EG; try done.
  destruct (existsb _ _) eqn:EX; [|done]. injection H as <- _.
  exists (TrimSpace raw), ticks, (S t). constructor; eauto; lia.
Qed.

Lemma ownedAlive_time (s : Sandbox) (t : nat) : (t <= fst (ownedAlive h s t))%nat.
Proof.
  unfold ownedAlive, aliveAt, pidStartAt, cgroupOwnedAt, tbind, ask, tret.
  repeat (case_match; simplify_eq; cbn [fst]); lia.
Qed.

(** What [Discover] found: nothing, or a process seen in the sandbox's group. *)
Lemma Discover_found (s s' : Sandbox) (t t' : nat) :
  Discover h s t = (t', (s', None)) ->
  (t <= t')%nat /\
  (s' = set_process 0 "" s \/
   (s' = s \/ exists pid start, s' = set_process pid start s) /\
   exists t0 boot ticks at_, (t <= t0)%nat /\ sighting s' t0 t' boot ticks at_).
Proof.
  unfold Discover. intros H. step H.
  pose proof (ownedAlive_time s t) as T1.
  destruct (ownedAlive h s t) as [t1 [[]|]] eqn:E1; cbn [fst] in T1; [| |done].
  { injection H as -> ->. destruct (ownedAlive_true _ _ _ E1) as (b & k & a & Hs).
    split; [done|]. right. split; [by left|]. eauto 10. }
  destruct (h_pidfile h t1 (sb_ID s)) as [raw| |]; [|injection H as <- <-; split; [lia|by left]|done].
  destruct (Atoi (TrimSpace raw)) as [pid|]; [|done]. destruct (pid <? 2); [done|].
  pose proof (pidStartAt_time pid (S t1)) as T2.
  destruct (pidStartAt h pid (S t1)) as [t2 [start| |]]; cbn [fst] in T2;
    [|injection H as <- <-; split; [lia|by left]|done].
  pose proof (ownedAlive_time (set_process pid start s) t2) as T3.
  destruct (ownedAlive h (set_process pid start s) t2) as [t3 [[]|]] eqn:E3; cbn [fst] in T3; [| |done].
  - injection H as <- <-. destruct (ownedAlive_true _ _ _ E3) as (b & k & a & Hs).
    split; [lia|]. right. split; [by eauto|]. exists t2, b, k, a. split; [lia|done].
  - injection H as <- <-. split; [lia|]. left. by destruct s.
Qed.

(** A signal is sent between two sightings of the same record: one before the
    pidfd was opened, one after. *)
Lemma Kill_sightings (fuel : nat) (s : Sandbox) (t t' : nat) (r : option (result unit)) (sig : Signal) :
  Kill h fuel s t = (t', (r, Some sig)) ->
  exists s1 t0 boot1 ticks1 at1 t2 boot2 ticks2 at2,
    sb_ID s1 = sb_ID s /\ sb_PID s1 = sg_pid sig /\ (t <= t0)%nat /\
    sighting s1 t0 (sg_time sig) boot1 ticks1 at1 /\ sighting s1 (S (sg_time sig)) t2 boot2 ticks2 at2.
Proof.
  unfold Kill. intros H. step H.
  destruct (Discover h s t) as [t1 [s1 [e|]]] eqn:ED; [done|].
  destruct (Discover_found _ _ _ _ ED) as [T1 HD].
  destruct (ownedAlive h s1 t1) as [t2 [[]|]] eqn:E1; [|done|done].
  destruct (h_pidfd_open h t2 (sb_PID s1)) as [u| |]; [|done|done].
  destruct (ownedAlive h s1 (S t2)) as [t3 [[]|]] eqn:E2; [|done|done].
  assert (sig = mkSignal (sb_PID s1) t2) as ->.
  { destruct (h_pidfd_kill h t3 (sb_PID s1)); try destruct (wait_dead _ _ _ _); congruence. }
  destruct (ownedAlive_true _ _ _ E1) as (b1 & k1 & a1 & S1), (ownedAlive_true _ _ _ E2) as (b2 & k2 & a2 & S2).
  exists s1, t1, b1, k1, a1, t3, b2, k2, a2. split_and!; try done.
  destruct HD as [->|[[->|(p & q & ->)] _]]; by destruct s.
Qed.
End Identity.

Lemma Cut_none (s a b : string) (c : ascii) : Cut s c = (a, b, false) -> ContainsRune s c = false.
Proof.
  revert a b. induction s as [|d s IH]; intros a b; cbn [Cut ContainsRune]; [done|].
  case_bool_decide; [done|]. destruct (Cut s c) as [[a' b'] ok] eqn:E. intros [= _ _ ->]. by rewrite (IH _ _ eq_refl).
Qed.

(** The start time a record matches is determined by the record. *)
Lemma identity_unique (recorded boot k1 k2 : string) :
  ContainsRune boot ":" = false -> ContainsRune k1 ":" = false -> ContainsRune k2 ":" = false ->
  identity_matches recorded (boot +:+ ":" +:+ k1) = true ->
  identity_matches recorded (boot +:+ ":" +:+ k2) = true -> k1 = k2.
Proof.
  intros Hb H1 H2 M1 M2. change (":" +:+ ?k) with (String ":" k) in *.
  assert (forall k, ContainsRune k ":" = false -> identity_matches recorded (boot +:+ String ":" k) = true ->
    recorded = boot +:+ String ":" k \/ ContainsRune recorded ":" = false /\ recorded = k) as M.
  { intros k Hk. unfold identity_matches. intros M. apply orb_prop in M as [M|M]; bool_prop; [by left|right].
    split; [done|]. apply HasSuffix_spec in H0 as [u Hu]. change (":" +:+ recorded) with (String ":" recorded) in Hu.
    destruct (ContainsRune u ":") eqn:Eu.
    - assert (exists a b, u = a +:+ String ":" b /\ ContainsRune a ":" = false) as (a & b & -> & Ha).
      { destruct (Cut u ":") as [[a b] []] eqn:Ec.
        - apply Cut_found in Ec as [-> ?]. eauto.
        - by rewrite (Cut_none _ _ _ _ Ec) in Eu. }
      rewrite app_assoc_str, app_cons_str in Hu. pose proof (Cut_app boot k ":" Hb) as C.
      rewrite Hu, Cut_app in C by done. injection C as _ C. subst k. rewrite ContainsRune_app in Hk.
      cbn in Hk. rewrite orb_true_r in Hk. done.
    - pose proof (Cut_app boot k ":" Hb) as C. rewrite Hu, Cut_app in C by done. congruence. }
  destruct (M _ H1 M1) as [->|[N1 ->]], (M _ H2 M2) as [E|[N2 E]]; subst; try done.
  - pose proof (Cut_app boot k1 ":" Hb) as C. rewrite E, Cut_app in C by done. congruence.
  - rewrite ContainsRune_app in N2. cbn in N2. by rewrite orb_true_r in N2.
  - rewrite ContainsRune_app in N1. cbn in N1. by rewrite orb_true_r in N1.
Qed.

Section Processes.
Variable h : Host.
(** The processes of the host: which one has a PID at a time, and when it
    started. *)
Variable process : Type.
Variable who : nat -> Z -> option process.
Variable started : process -> string.

(** A PID names one process from its start to its end. *)
Hypothesis who_interval : forall t1 t t2 pid x,
  (t1 <= t <= t2)%nat -> who t1 pid = Some x -> who t2 pid = Some x -> who t pid = Some x.
(** A PID is not reused within one clock tick. *)
Hypothesis started_unique : forall t1 t2 pid x y,
  who t1 pid = Some x -> who t2 pid = Some y -> started x = started y -> x = y.
(** A stat file shows the start time, in digits, of the process of its PID. *)
Hypothesis stat_shows : forall t pid text ticks,
  h_stat h t pid = Got text -> start_ticks text = Some ticks ->
  ContainsRune ticks ":" = false /\ exists x, who t pid = Some x /\ started x = ticks.
(** The host does not reboot during the call. *)
Hypothesis one_boot : forall t1 t2 raw1 raw2,
  h_boot_id h t1 = Got raw1 -> h_boot_id h t2 = Got raw2 -> raw1 = raw2.

Lemma sighting_process (s : Sandbox) (t t' : nat) (boot ticks : string) (at_ : nat) :
  sighting h s t t' boot ticks at_ ->
  ContainsRune ticks ":" = false /\ exists x, who at_ (sb_PID s) = Some x /\ started x = ticks.
Proof. intros [_ _ _ _ (text & H1 & H2) _ _]. by eapply stat_shows. Qed.

(** C38. [Kill] never signals a foreign process, however PIDs are reused while it
    runs: the process behind the pidfd it signals is one whose cgroup was read,
    while that process had the PID, and was exactly the sandbox's own. *)
Theorem Kill_own_process (fuel : nat) (s : Sandbox) (t t' : nat) (r : option (result unit)) (sig : Signal) :
  Kill h fuel s t = (t', (r, Some sig)) ->
  exists x t1 text,
    who (sg_time sig) (sg_pid sig) = Some x /\
    (t < t1 < sg_time sig)%nat /\ who t1 (sg_pid sig) = Some x /\
    h_cgroup h t1 (sg_pid sig) = Got text /\ existsb (owned_line (sb_ID s)) (Split text "010") = true.
Proof.
  intros H. destruct (Kill_sightings _ _ _ _ _ _ _ H) as
    (s1 & t0 & b1 & k1 & a1 & t2 & b2 & k2 & a2 & Eid & Epid & Ht & S1 & S2).
  destruct (sighting_process _ _ _ _ _ _ S1) as (C1 & x & W1 & X1).
  destruct (sighting_process _ _ _ _ _ _ S2) as (C2 & y & W2 & X2).
  destruct S1 as [O1 _ (u1 & r1 & B1 & ->) P1 _ I1 (text & G1 & G2)].
  destruct S2 as [O2 _ (u2 & r2 & B2 & ->) _ _ I2 _].
  rewrite <-(one_boot _ _ _ _ B1 B2) in I2. pose proof (identity_unique _ _ _ _ P1 C1 C2 I1 I2) as Ek.
  assert (x = y) as <- by (eapply started_unique; [exact W1|exact W2|congruence]).
  assert (forall v, (a1 <= v <= a2)%nat -> who v (sb_PID s1) = Some x) as W by (intros v Hv; by eapply who_interval).
  rewrite <-Epid, <-Eid. exists x, (S a1), text. split_and!; [apply W; lia|lia|lia|apply W; lia|done|done].
Qed.
End Processes.

(** ** Kill ends *)

Lemma aliveAt_time (h : Host) (s : Sandbox) (t : nat) : (t <= fst (aliveAt h s t))%nat.
Proof.
  unfold aliveAt, pidStartAt, cgroupOwnedAt, tbind, ask, tret.
  repeat (case_match; simplify_eq; cbn [fst]); lia.
Qed.

Lemma aliveAt_false (h : Host) (s : Sandbox) (t : nat) :
  snd (aliveAt h s t) = false -> snd (ownedAlive h s t) = Ok false.
Proof. intros H. unfold ownedAlive, tbind. destruct (aliveAt h s t) as [t1 b]. cbn in H. by subst. Qed.

Lemma wait_dead_ends (h : Host) (s : Sandbox) (deadline fuel t : nat) :
  (forall u, (deadline <= u)%nat -> h_ctx_done h u = true) -> (deadline < t + fuel)%nat -> (0 < fuel)%nat ->
  exists t' v, wait_dead h fuel s t = (t', Some v) /\ (t <= t')%nat /\
    (v = Ok tt -> exists u, (t <= u <= t')%nat /\ snd (ownedAlive h s u) = Ok false).
Proof.
  intros Hd. revert t. induction fuel as [|fuel IH]; intros t Hf Hp; [lia|]. cbn [wait_dead].
  unfold tbind at 1. pose proof (aliveAt_time h s t) as Ht. pose proof (aliveAt_false h s t) as Hn.
  destruct (aliveAt h s t) as [t1 []]; cbn [fst snd] in *.
  - unfold tbind, ask. destruct (h_ctx_done h t1) eqn:E; [eexists _, _; split; [done|]; split; [lia|done]|].
    assert (~ (deadline <= t1)%nat) by (intros Hc; rewrite Hd in E; done).
    destruct (IH (S t1)) as (t' & v & -> & Ht' & Hv); [lia|lia|]. eexists _, _. split; [done|]. split; [lia|].
    intros Ev. destruct (Hv Ev) as (u & ? & ?). exists u. split; [lia|done].
  - eexists _, _. split; [done|]. split; [lia|]. intros _. exists t. split; [lia|auto].
Qed.

(** The record [Kill] works on: the caller's, or one with another process. *)
Definition same_sandbox (s s' : Sandbox) : Prop :=
  s' = s \/ exists pid start, s' = set_process pid start s.

(** [Kill] ends once its context has ended (polling never outlives the
    deadline), and when it reports success the VMM it found was observed to be
    gone: during the call it was no longer the sandbox's own live process, or its
    PID no longer existed. *)
Theorem Kill_outcome (h : Host) (s : Sandbox) (deadline t : nat) :
  (forall u, (deadline <= u)%nat -> h_ctx_done h u = true) ->
  exists t' v sig, Kill h (S deadline) s t = (t', (Some v, sig)) /\
    (v = Ok tt -> exists s1 u, same_sandbox s s1 /\ (t <= u <= t')%nat /\
       (snd (ownedAlive h s1 u) = Ok false \/ h_pidfd_open h u (sb_PID s1) = Gone)).
Proof.
  intros Hd. unfold Kill, tbind at 1.
  destruct (Discover h s t) as [t1 [s1 [e|]]] eqn:ED; [by eexists _, _, _|].
  destruct (Discover_found _ _ _ _ _ ED) as [T1 HD].
  assert (same_sandbox s s1) as Hs by (unfold same_sandbox; naive_solver). clear HD ED.
  unfold tbind at 1. pose proof (ownedAlive_time h s1 t1) as T2.
  destruct (ownedAlive h s1 t1) as [t2 [[]|]] eqn:E1; cbn [fst] in T2; [| |by eexists _, _, _].
  2: { eexists _, _, _. split; [done|]. intros _. exists s1, t1. split; [done|]. split; [lia|]. left. by rewrite E1. }
  unfold tbind at 1, ask at 1. destruct (h_pidfd_open h t2 (sb_PID s1)) as [u| |] eqn:EO; [| |by eexists _, _, _].
  2: { eexists _, _, _. split; [done|]. intros _. exists s1, t2. split; [done|]. split; [lia|by right]. }
  unfold tbind at 1. pose proof (ownedAlive_time h s1 (S t2)) as T3.
  destruct (ownedAlive h s1 (S t2)) as [t3 [[]|]] eqn:E2; cbn [fst] in T3; [| |by eexists _, _, _].
  2: { eexists _, _, _. split; [done|]. intros _. exists s1, (S t2). split; [done|]. split; [lia|]. left. by rewrite E2. }
  unfold tbind at 1, ask at 1.
  destruct (wait_dead_ends h s1 deadline (S deadline) (S t3) Hd ltac:(lia) ltac:(lia)) as (t4 & v & EW & T4 & HW).
  destruct (h_pidfd_kill h t3 (sb_PID s1)) as [w| |e]; [| |by eexists _, _, _].
  all: unfold tbind; rewrite EW; eexists _, _, _; split; [done|]; intros Ev;
    destruct (HW Ev) as (u' & ? & ?); exists s1, u'; split; [done|]; split; [lia|by left].
Qed.

(** A host whose PID 42 is the VMM of [web] until time [death]. *)
Definition stat_text : string := "42 (firecracker) S 1 1 1 1 1 1 1 1 1 1 1 1 1 1 1 1 1 1 777 1".
Definition web_host (death : nat) : Host :=
  let during {A} (t : nat) (v : A) : outcome A := if (t <? death)%nat then Got v else Gone in
  mkHost (fun _ => Got "boot") (fun t pid => if pid =? 42 then during t stat_text else Gone)
    (fun t pid => if pid =? 42 then during t ("0::/niflhel/" +:+ web) else Gone)
    (fun _ _ => Got "42") (fun t pid => if pid =? 42 then during t tt else Gone)
    (fun t pid => if pid =? 42 then during t tt else Gone) (fun t => (100 <=? t)%nat).

Definition web_process (t : nat) (pid : Z) : option unit :=
  if (pid =? 42) && (t <? 30)%nat then Some tt else None.

Example Kill_web :
  Kill (web_host 30) 10 web_sandbox 0%nat = (31%nat, (Some (Ok tt), Some (mkSignal 42 11))).
Proof. vm_compute. reflexivity. Qed.

Lemma Kill_own_process_witness :
  exists sig, Kill (web_host 30) 10 web_sandbox 0%nat = (31%nat, (Some (Ok tt), Some sig)) /\
    web_process (sg_time sig) (sg_pid sig) = Some tt.
Proof.
  exists (mkSignal 42 11). split; [exact Kill_web|].
  destruct (Kill_own_process (web_host 30) unit web_process (fun _ => "777")) with
    (fuel := 10%nat) (s := web_sandbox) (t := 0%nat) (t' := 31%nat) (r := Some (Ok tt : result unit)) (sig := mkSignal 42 11)
    as ([] & _ & _ & W & _); [| | | |exact Kill_web|exact W].
  - intros t1 t t2 pid [] Ht. unfold web_process. destruct (pid =? 42); [|done]. cbn [andb].
    destruct (Nat.ltb_spec t2 30); [|done]. destruct (Nat.ltb_spec t 30); [done|lia].
  - intros t1 t2 pid [] [] _ _ _. reflexivity.
  - intros t pid text ticks. unfold web_process, web_host. cbn [h_stat]. destruct (pid =? 42); [|done]. cbn [andb].
    destruct (t <? 30)%nat; [|done]. intros [= <-] H. vm_compute in H. injection H as <-.
    split; [reflexivity|]. exists tt. done.
  - intros t1 t2 r1 r2 [= <-] [= <-]. reflexivity.
Defined.

Lemma Kill_outcome_witness :
  exists t' v sig, Kill (web_host 1000) 101 web_sandbox 0%nat = (t', (Some v, sig)).
Proof.
  destruct (Kill_outcome (web_host 1000) web_sandbox 100 0%nat) as (t' & v & sig & H & _).
  - intros u Hu. apply Nat.leb_le. exact Hu.
  - exists t', v, sig. exact H.
Defined.

(** ** The VM configuration *)

Record Drive : Type := mkDrive { d_ID : string; d_Path : string; d_Root : bool; d_ReadOnly : bool }.

Record VMConfig : Type := mkVMConfig {
  vc_Kernel : string;
  vc_Args : string;
  vc_CPUs : Z;
  vc_Memory : Z;
  vc_Drives : list Drive;
  vc_Network : list (list (string * string));
  vc_GuestCID : Z;
  vc_UDSPath : string
}.

(** A name with an index: [fmt.Sprintf("volume-%d", i)]. *)
Definition volume_id (i : nat) : string := "volume-" +:+ Itoa (Z.of_nat i).

(** [BuildConfig] *)
Definition BuildConfig (s : Sandbox) : VMConfig :=
  mkVMConfig "/kernel"
    "console=ttyS0 reboot=k panic=1 pci=off root=/dev/vda ro init=/sbin/niflhel-init random.trust_cpu=on"
    (s_CPUs (sb_Spec s)) (sb_GuestMemory s ÷ MiB)
    ([mkDrive "base-root" "/base.ext4" true true; mkDrive "bootstrap" "/bootstrap.ext4" false true;
      mkDrive "app-image" "/app.ext4" false true; mkDrive "state" "/state.ext4" false false] ++
     imap (fun i m => mkDrive (volume_id i) ("/" +:+ volume_id i +:+ ".ext4") false (m_ReadOnly m))
       (s_Mounts (sb_Spec s)))
    (if bool_decide (s_Network (sb_Spec s) = "bridge")
     then [[("iface_id", "eth0"); ("guest_mac", "06:00:ac:1e:00:02"); ("host_dev_name", "tap0")]] else [])
    ((3 + sb_Slot s) `mod` 4294967296) "/run/vsock".

(** ** Launch *)

Record Manager : Type := mkManager { mg_Root : string; mg_Firecracker : string; mg_Jailer : string; mg_Storage : string }.

(** [Manager.Dir] and [Manager.Jail] *)
Definition Dir_ (m : Manager) (id : string) : string := JoinPath [mg_Root m; "sandboxes"; id].
Definition Jail (m : Manager) (id : string) : string :=
  JoinPath [mg_Root m; "jailer"; Path.Base (mg_Firecracker m); id; "root"].

(** The outside operations of [Start]. *)
Inductive act : Type :=
| AEuid
| ALookPath (p : string)
| AOpenKVM
| AStatCgroup
| AVersion
| AMkdirAll (p : string)
| AChown (p : string) (uid : Z)
| ARemove (p : string)
| ALink (source p : string)
| AChmod (p : string) (mode : Z)
| ACredentials (id : string)
| AWrite (p : string)
| AMkTemp (dir : string)
| ARemoveAll (p : string)
| ADisk (p : string) (size : Z) (seed : string)
| APipe
| AClose (what : string)
| AExecutable
| ALogger (p : string)
| AJailer (args : list string)
| APIDStart (pid : Z)
| AKillWait (pid : Z).

#[export] Instance act_eq_dec : EqDecision act.
Proof. solve_decision. Defined.

Section Start.
(** What an operation answers, given the operations before it. *)
Variable answer : list act -> act -> result string.
(** The PID of the jailer process. *)
Variable spawn : list act -> list string -> result Z.

(** A computation extends the trace of operations and returns or fails. *)
Definition launch (A : Type) : Type := list act -> list act * result A.
Definition lret {A} (a : A) : launch A := fun tr => (tr, Ok a).
Definition lfail {A} (e : error) : launch A := fun tr => (tr, Err e).
Definition lbind {A B} (m : launch A) (k : A -> launch B) : launch B :=
  fun tr => match m tr with (tr, Ok a) => k a tr | (tr, Err e) => (tr, Err e) end.
Definition perform (a : act) : launch string := fun tr => (tr ++ [a], answer tr a).
(** An operation whose error is ignored. *)
Definition attempt (a : act) : launch unit := fun tr => (tr ++ [a], Ok tt).
(** [defer]: [a] runs after [m], whatever its result. *)
Definition deferred {A} (a : act) (m : launch A) : launch A :=
  fun tr => let '(tr, r) := m tr in (tr ++ [a], r).
(** On failure run [a], then fail with the same error. *)
Definition on_failure {A} (a : act) (m : launch A) : launch A :=
  fun tr => match m tr with (tr, Err e) => (tr ++ [a], Err e) | ok => ok end.
Notation "'run' x <- m ; k" := (lbind m (fun x => k)) (at level 200, x name, m at level 99, right associativity).
Notation "m ;; k" := (lbind m (fun _ => k)) (at level 100, k at level 200, right associativity).

Variable m : Manager.
Variable s : Sandbox.
Variable b : Bundle.

(** [Manager.Check]; the effective user is root when [AEuid] answers "0". *)
Definition Check_ : launch unit :=
  run euid <- perform AEuid;
  if negb (bool_decide (euid = "0")) then lfail (Errorf "niflheld must run as root") else
  if bool_decide (mg_Firecracker m = "") then lfail (Errorf "Firecracker and jailer paths must be configured") else
  perform (ALookPath (mg_Firecracker m)) ;;
  if bool_decide (mg_Jailer m = "") then lfail (Errorf "Firecracker and jailer paths must be configured") else
  perform (ALookPath (mg_Jailer m)) ;;
  perform AOpenKVM ;;
  perform AStatCgroup ;;
  lret tt.

(** Is the base qualified for the installed Firecracker? *)
Definition qualified (version : string) : bool :=
  existsb (fun v => Contains version ("Firecracker v" +:+ v +:+ nl)) (c_FirecrackerVersions (sg_Config (b_Signed b))).

Definition uid : Z := 100000 + sb_Slot s.

Definition in_jail (target : string) : string := JoinPath [Jail m (sb_ID s); target].

(** The closure [link] of [Start]. *)
Definition link (source target : string) (writable : bool) : launch unit :=
  let p := in_jail target in
  attempt (ARemove p) ;;
  perform (ALink source p) ;;
  if writable then
    perform (AChown p uid) ;;
    perform (AChmod p 384) ;;
    lret tt
  else
    perform (AChmod p 292) ;;
    lret tt.

(** The files linked before the volumes: source, name in the jail, writable. *)
Definition fixed_links : list (string * string * bool) :=
  [(b_KernelPath b, "kernel", false); (b_RootFSPath b, "base.ext4", false);
   (JoinPath [Dir_ m (sb_ID s); "app.ext4"], "app.ext4", false);
   (JoinPath [Dir_ m (sb_ID s); "state.ext4"], "state.ext4", true)].

Fixpoint link_all (l : list (string * string * bool)) : launch unit :=
  match l with
  | [] => lret tt
  | (source, target, rw) :: l => link source target rw ;; link_all l
  end.

Fixpoint link_volumes (i : nat) (mounts : list Mount) : launch unit :=
  match mounts with
  | [] => lret tt
  | v :: mounts =>
      match VolumePath (mg_Storage m) (m_Name v) with
      | Err e => lfail e
      | Ok p => link p (volume_id i +:+ ".ext4") true ;; link_volumes (S i) mounts
      end
  end.

(** The arguments of the jailer. *)
Definition jailer_args : list string :=
  ["--id"; sb_ID s; "--exec-file"; mg_Firecracker m; "--uid"; Itoa uid; "--gid"; Itoa uid;
   "--chroot-base-dir"; JoinPath [mg_Root m; "jailer"]; "--cgroup-version"; "2"; "--parent-cgroup"; "niflhel";
   "--cgroup"; "memory.max=" +:+ Itoa (int64 (sb_GuestMemory s + 64 * MiB));
   "--cgroup"; "cpu.max=" +:+ Itoa (int64 (s_CPUs (sb_Spec s) * 100000)) +:+ " 100000"] ++
  (if bool_decide (s_Network (sb_Spec s) = "bridge") then
     ["--netns"; "/var/run/netns/" +:+
        match For (sb_ID s) (sb_Slot s) with Ok n => n_Namespace n | Err _ => "" end]
   else []) ++
  ["--"; "--api-sock"; "/run/firecracker.sock"; "--config-file"; "/vm.json"].

(** From the pipe of the console log to the running jailer. *)
Definition start_jailer : launch (Z * string) :=
  perform APipe ;;
  deferred (AClose "log")
    (on_failure (AClose "readLog")
       (perform AExecutable ;; perform (ALogger (JoinPath [Dir_ m (sb_ID s); "console.log"]))) ;;
     attempt (AClose "readLog") ;;
     run pid <- (fun tr => (tr ++ [AJailer jailer_args], spawn tr jailer_args));
     run start <- on_failure (AKillWait pid) (perform (APIDStart pid));
     lret (pid, start)).

(** [Manager.Start] *)
Definition Start : launch (Z * string) :=
  Check_ ;;
  run version <- perform AVersion;
  if negb (qualified version) then lfail (Errorf "base is not qualified for installed Firecracker") else
  perform (AMkdirAll (in_jail "run")) ;;
  attempt (AChown (Jail m (sb_ID s)) uid) ;;
  attempt (AChown (in_jail "run") uid) ;;
  link_all fixed_links ;;
  link_volumes 0 (s_Mounts (sb_Spec s)) ;;
  perform (ACredentials (sb_ID s)) ;;
  perform (AWrite (JoinPath [Dir_ m (sb_ID s); "control.json"])) ;;
  run seed <- perform (AMkTemp (Dir_ m (sb_ID s)));
  deferred (ARemoveAll seed)
    (perform (AWrite (JoinPath [seed; "bootstrap.json"])) ;;
     attempt (ARemove (in_jail "bootstrap.ext4")) ;;
     perform (ADisk (in_jail "bootstrap.ext4") (64 * MiB) seed) ;;
     attempt (AChmod (in_jail "bootstrap.ext4") 292) ;;
     perform (AWrite (in_jail "vm.json")) ;;
     start_jailer).

(** *** Lemmas on launches *)

(** Operations that start or stop no process. *)
Definition quiet_act (a : act) : Prop :=
  match a with AJailer _ | APIDStart _ | AKillWait _ => False | _ => True end.

Definition quiet {A} (c : launch A) : Prop :=
  forall tr, exists suf, fst (c tr) = tr ++ suf /\ Forall quiet_act suf.

Lemma quiet_perform (a : act) : quiet_act a -> quiet (perform a).
Proof. intros Ha tr. exists [a]. by repeat constructor. Qed.
Lemma quiet_attempt (a : act) : quiet_act a -> quiet (attempt a).
Proof. intros Ha tr. exists [a]. by repeat constructor. Qed.
Lemma quiet_lret {A} (a : A) : quiet (lret a).
Proof. intros tr. exists []. by rewrite app_nil_r. Qed.
Lemma quiet_lfail {A} (e : error) : quiet (@lfail A e).
Proof. intros tr. exists []. by rewrite app_nil_r. Qed.
Lemma quiet_lbind {A B} (c : launch A) (k : A -> launch B) :
  quiet c -> (forall a, quiet (k a)) -> quiet (lbind c k).
Proof.
  intros Hc Hk tr. unfold lbind. destruct (Hc tr) as (suf & E & HF).
  destruct (c tr) as [tr1 [a|e]]; cbn [fst] in E; subst tr1; [|by exists suf].
  destruct (Hk a (tr ++ suf)) as (suf' & -> & HF'). exists (suf ++ suf'). rewrite app_assoc.
  split; [done|]. by apply Forall_app.
Qed.
Lemma quiet_on_failure {A} (a : act) (c : launch A) : quiet_act a -> quiet c -> quiet (on_failure a c).
Proof.
  intros Ha Hc tr. unfold on_failure. destruct (Hc tr) as (suf & E & HF).
  destruct (c tr) as [tr1 [x|e]]; cbn [fst] in *; subst tr1; [by exists suf|].
  exists (suf ++ [a]). rewrite app_assoc. split; [done|]. apply Forall_app. by repeat constructor.
Qed.

Hint Resolve quiet_perform quiet_attempt quiet_lret quiet_lfail quiet_lbind quiet_on_failure : quiet.
Hint Extern 1 (quiet_act _) => exact I : quiet.
Hint Extern 1 (quiet (if ?c then _ else _)) => destruct c : quiet.

Lemma quiet_Check : quiet Check_.
Proof. unfold Check_. auto 20 with quiet. Qed.
Lemma quiet_link (source target : string) (rw : bool) : quiet (link source target rw).
Proof. unfold link. auto 20 with quiet. Qed.
Lemma quiet_link_all (l : list (string * string * bool)) : quiet (link_all l).
Proof. induction l as [|[[source target] rw] l IH]; cbn [link_all]; auto using quiet_link with quiet. Qed.
Lemma quiet_link_volumes (i : nat) (mounts : list Mount) : quiet (link_volumes i mounts).
Proof.
  revert i. induction mounts as [|v mounts IH]; intros i; cbn [link_volumes]; [auto with quiet|].
  destruct (VolumePath _ _); auto using quiet_link with quiet.
Qed.

(** What became of the jailer: started and not stopped when the launch returns
    its PID; otherwise never started, or killed and reaped. *)
Definition jailer_outcome (tr suf : list act) (r : result (Z * string)) : Prop :=
  exists pre mid post, suf = pre ++ mid ++ post /\ Forall quiet_act pre /\ Forall quiet_act post /\
    match r with
    | Ok (pid, _) => mid = [AJailer jailer_args; APIDStart pid] /\ spawn (tr ++ pre) jailer_args = Ok pid
    | Err _ =>
        mid = [] \/ (mid = [AJailer jailer_args] /\ is_ok (spawn (tr ++ pre) jailer_args) = false) \/
        exists pid, mid = [AJailer jailer_args; APIDStart pid; AKillWait pid] /\
                    spawn (tr ++ pre) jailer_args = Ok pid
    end.

Definition accounted (c : launch (Z * string)) : Prop :=
  forall tr, exists suf, fst (c tr) = tr ++ suf /\ jailer_outcome tr suf (snd (c tr)).

Lemma accounted_quiet (c : launch (Z * string)) : quiet c -> (forall tr, is_ok (snd (c tr)) = false) -> accounted c.
Proof.
  intros Hq Hf tr. destruct (Hq tr) as (suf & E & HF). exists suf. split; [done|].
  exists suf, [], []. rewrite !app_nil_r. split_and!; [done|done|constructor|].
  specialize (Hf tr). destruct (snd (c tr)) as [[]|]; [done|by left].
Qed.

Lemma accounted_lbind {A} (c : launch A) (k : A -> launch (Z * string)) :
  quiet c -> (forall a, accounted (k a)) -> accounted (lbind c k).
Proof.
  intros Hc Hk tr. unfold lbind. destruct (Hc tr) as (suf & E & HF).
  destruct (c tr) as [tr1 [a|e]]; cbn [fst] in E; subst tr1.
  - destruct (Hk a (tr ++ suf)) as (suf' & E & pre & mid & post & -> & H1 & H2 & H3). exists (suf ++ pre ++ mid ++ post).
    split; [by rewrite app_assoc|]. exists (suf ++ pre), mid, post. rewrite !app_assoc in *.
    split_and!; [done|by apply Forall_app|done|]. destruct (snd _) as [[]|]; done.
  - exists suf. split; [done|]. exists suf, [], []. rewrite !app_nil_r. split_and!; [done|done|constructor|by left].
Qed.

Lemma accounted_deferred (a : act) (c : launch (Z * string)) :
  quiet_act a -> accounted c -> accounted (deferred a c).
Proof.
  intros Ha Hc tr. unfold deferred. destruct (Hc tr) as (suf & E & pre & mid & post & -> & H1 & H2 & H3).
  destruct (c tr) as [tr1 r]. cbn [fst snd] in *. subst tr1. exists (pre ++ mid ++ post ++ [a]).
  split; [by rewrite !app_assoc|]. exists pre, mid, (post ++ [a]). split_and!; [done|done|by apply Forall_app; repeat constructor|done].
Qed.

Lemma accounted_jailer :
  accounted (run pid <- (fun tr => (tr ++ [AJailer jailer_args], spawn tr jailer_args));
             run start <- on_failure (AKillWait pid) (perform (APIDStart pid));
             lret (pid, start)).
Proof.
  intros tr. unfold lbind, on_failure, perform, lret. destruct (spawn tr jailer_args) as [pid|e] eqn:E.
  - destruct (answer _ (APIDStart pid)) as [start|e]; eexists; (split; [cbn [fst]; by rewrite <-!app_assoc|]).
    + exists [], [AJailer jailer_args; APIDStart pid], []. cbn [snd]. rewrite !app_nil_r.
      split_and!; [done|by apply Forall_nil|by apply Forall_nil|done|done].
    + exists [], [AJailer jailer_args; APIDStart pid; AKillWait pid], []. cbn [snd]. rewrite !app_nil_r.
      split_and!; [done|by apply Forall_nil|by apply Forall_nil|]. right. right. by exists pid.
  - eexists; (split; [cbn [fst]; reflexivity|]). exists [], [AJailer jailer_args], []. cbn [snd].
    rewrite !app_nil_r. split_and!; [done|by apply Forall_nil|by apply Forall_nil|]. right. left. by rewrite E.
Qed.

Lemma accounted_Start : accounted Start.
Proof.
  unfold Start, start_jailer.
  repeat first
    [ apply accounted_lbind; [solve [auto using quiet_Check, quiet_link_all, quiet_link_volumes with quiet]|intros ?]
    | apply accounted_deferred; [exact I|]
    | apply accounted_jailer
    | match goal with |- accounted (if ?c then _ else _) => destruct c end
    | apply accounted_quiet; [apply quiet_lfail|done] ].
Qed.

(** The operation was performed and succeeded. *)
Definition did (tr : list act) (a : act) : Prop :=
  exists pre post v, tr = pre ++ a :: post /\ answer pre a = Ok v.

Lemma did_app (tr suf : list act) (a : act) : did tr a -> did (tr ++ suf) a.
Proof.
  intros (pre & post & v & -> & H). exists pre, (post ++ suf), v. split; [|done]. by rewrite <-app_assoc.
Qed.

Lemma did_quiet {A} (c : launch A) (tr tr' : list act) (r : result A) (a : act) :
  quiet c -> c tr = (tr', r) -> did tr a -> did tr' a.
Proof. intros Hq E. destruct (Hq tr) as (suf & E' & _). rewrite E in E'. cbn in E'. subst. apply did_app. Qed.

Lemma perform_ok (a : act) (tr tr' : list act) (v : string) :
  perform a tr = (tr', Ok v) -> did tr' a /\ tr' = tr ++ [a].
Proof. intros [= <- H]. split; [|done]. by exists tr, [], v. Qed.

Lemma lbind_ok {A B} (c : launch A) (k : A -> launch B) (tr tr' : list act) (x : B) :
  lbind c k tr = (tr', Ok x) -> exists tr1 a, c tr = (tr1, Ok a) /\ k a tr1 = (tr', Ok x).
Proof. unfold lbind. destruct (c tr) as [tr1 [a|e]]; [eauto|done]. Qed.

Ltac inv_bind H := let tr := fresh "tr" in let a := fresh "a" in let E := fresh "E" in
  apply lbind_ok in H as (tr & a & E & H).

Lemma link_ok (source target : string) (rw : bool) (tr tr' : list act) (u : unit) :
  link source target rw tr = (tr', Ok u) ->
  did tr' (ALink source (in_jail target)) /\ (rw = true -> did tr' (AChown (in_jail target) uid)).
Proof.
  unfold link. intros H. inv_bind H. injection E as <-. inv_bind H. apply perform_ok in E as [D ->].
  destruct rw; inv_bind H; apply perform_ok in E as [D' ->]; [inv_bind H; apply perform_ok in E as [_ ->]|];
    injection H as <-; (split; [|intros ?; try done]); auto using did_app.
Qed.

Lemma link_all_ok (l : list (string * string * bool)) (tr tr' : list act) (u : unit) :
  link_all l tr = (tr', Ok u) ->
  Forall (fun '(source, target, rw) => did tr' (ALink source (in_jail target)) /\
                                       (rw = true -> did tr' (AChown (in_jail target) uid))) l.
Proof.
  revert tr. induction l as [|[[source target] rw] l IH]; intros tr H; [constructor|].
  cbn [link_all] in H. inv_bind H. apply link_ok in E as [D1 D2]. constructor; [|by eapply IH].
  pose proof (quiet_link_all l). split; [|intros Hr; specialize (D2 Hr)]; eapply did_quiet; eauto.
Qed.

Lemma link_volumes_ok (mounts : list Mount) (i : nat) (tr tr' : list act) (u : unit) :
  link_volumes i mounts tr = (tr', Ok u) ->
  forall j v, mounts !! j = Some v ->
    exists p, VolumePath (mg_Storage m) (m_Name v) = Ok p /\
      did tr' (ALink p (in_jail (volume_id (i + j) +:+ ".ext4"))) /\
      did tr' (AChown (in_jail (volume_id (i + j) +:+ ".ext4")) uid).
Proof.
  revert i tr. induction mounts as [|w mounts IH]; intros i tr H j v Hj; [done|].
  cbn [link_volumes] in H. destruct (VolumePath (mg_Storage m) (m_Name w)) as [p|] eqn:Ep; [|done].
  inv_bind H. apply link_ok in E as [D1 D2]. destruct j as [|j].
  - injection Hj as <-. exists p. rewrite Nat.add_0_r. pose proof (quiet_link_volumes (S i) mounts).
    split; [done|]. specialize (D2 eq_refl). split; eapply did_quiet; eauto.
  - rewrite <-Nat.add_succ_comm. by eapply IH.
Qed.

(** A drive's file is in the jail, and belongs to the VMM's user if the guest may
    write to it. *)
Definition provisioned (tr : list act) (d : Drive) : Prop :=
  exists target, d_Path d = "/" +:+ target /\
    ((exists source, did tr (ALink source (in_jail target))) \/
     (exists seed, did tr (ADisk (in_jail target) (64 * MiB) seed))) /\
    (d_ReadOnly d = false -> did tr (AChown (in_jail target) uid)).

Lemma drives_provisioned (tr : list act) (seed : string) :
  Forall (fun '(source, target, rw) => did tr (ALink source (in_jail target)) /\
                                       (rw = true -> did tr (AChown (in_jail target) uid))) fixed_links ->
  (forall j v, s_Mounts (sb_Spec s) !! j = Some v ->
     exists p, VolumePath (mg_Storage m) (m_Name v) = Ok p /\
       did tr (ALink p (in_jail (volume_id j +:+ ".ext4"))) /\
       did tr (AChown (in_jail (volume_id j +:+ ".ext4")) uid)) ->
  did tr (ADisk (in_jail "bootstrap.ext4") (64 * MiB) seed) ->
  Forall (provisioned tr) (vc_Drives (BuildConfig s)).
Proof.
  intros HF HV HB. unfold fixed_links in HF. rewrite !Forall_cons in HF.
  destruct HF as ([_ _] & [Hbase _] & [Happ _] & [Hst Hst'] & _).
  cbn [vc_Drives BuildConfig]. apply Forall_app. split.
  - repeat (apply Forall_cons; split); [| | | |by apply Forall_nil].
    + exists "base.ext4". split; [done|]. split; [by eauto|done].
    + exists "bootstrap.ext4". split; [done|]. split; [by eauto|done].
    + exists "app.ext4". split; [done|]. split; [by eauto|done].
    + exists "state.ext4". split; [done|]. split; [by eauto|]. intros _. by apply Hst'.
  - apply Forall_lookup. intros j d Hd. rewrite list_lookup_imap in Hd. apply fmap_Some in Hd as (v & Hv & ->).
    destruct (HV j v Hv) as (p & _ & Hl & Ho). exists (volume_id j +:+ ".ext4"). cbn [d_Path d_ReadOnly]. eauto.
Qed.

(** The trace of a jailer launch that returns a PID. *)
Lemma start_jailer_ok (tr tr' : list act) (pid : Z) (start : string) :
  start_jailer tr = (tr', Ok (pid, start)) ->
  exists pre, tr' = (tr ++ pre) ++ [AJailer jailer_args; APIDStart pid; AClose "log"] /\
    Forall quiet_act pre /\ spawn (tr ++ pre) jailer_args = Ok pid.
Proof.
  unfold start_jailer. intros H. inv_bind H. apply perform_ok in E as [_ ->].
  unfold deferred in H. destruct (lbind _ _ (tr ++ [APipe])) as [tr1 r1] eqn:E. injection H as <- ->.
  inv_bind E. unfold on_failure in E0. destruct (lbind _ _ (tr ++ [APipe])) as [tr3 r3] eqn:E3.
  destruct r3 as [|]; [|done]. injection E0 as -> ->. inv_bind E3. apply perform_ok in E0 as [_ ->].
  apply perform_ok in E3 as [_ ->].
  inv_bind E. injection E0 as <- <-. inv_bind E. injection E0 as <- Hs. inv_bind E.
  unfold on_failure in E0. destruct (perform _ _) as [tr5 r5] eqn:E5. destruct r5; [|done].
  injection E0 as -> ->. apply perform_ok in E5 as [_ ->]. injection E as <- <- <-.
  exists [APipe; AExecutable; ALogger (JoinPath [Dir_ m (sb_ID s); "console.log"]); AClose "readLog"].
  rewrite <-!app_assoc in *. split; [done|]. split; [by repeat constructor|done].
Qed.

Ltac inv_perform H := inv_bind H; match goal with
  | E : perform _ _ = _ |- _ => apply perform_ok in E as [? ->]
  | E : attempt _ _ = _ |- _ => injection E as <- _
  end.

(** The base was checked against the version the VMM reported. *)
Definition version_checked (tr : list act) : Prop :=
  exists pre post v, tr = pre ++ AVersion :: post /\ answer pre AVersion = Ok v /\ qualified v = true.

Lemma version_checked_app (tr suf : list act) : version_checked tr -> version_checked (tr ++ suf).
Proof.
  intros (pre & post & v & -> & H). exists pre, (post ++ suf), v. split; [|done]. by rewrite <-app_assoc.
Qed.

Lemma quiet_extends {A} (c : launch A) (tr tr' : list act) (r : result A) :
  quiet c -> c tr = (tr', r) -> exists suf, tr' = tr ++ suf.
Proof. intros Hq E. destruct (Hq tr) as (suf & E' & _). rewrite E in E'. cbn in E'. eauto. Qed.

(** From the credentials on. *)
Definition start_tail : launch (Z * string) :=
  perform (ACredentials (sb_ID s)) ;;
  perform (AWrite (JoinPath [Dir_ m (sb_ID s); "control.json"])) ;;
  run seed <- perform (AMkTemp (Dir_ m (sb_ID s)));
  deferred (ARemoveAll seed)
    (perform (AWrite (JoinPath [seed; "bootstrap.json"])) ;;
     attempt (ARemove (in_jail "bootstrap.ext4")) ;;
     perform (ADisk (in_jail "bootstrap.ext4") (64 * MiB) seed) ;;
     attempt (AChmod (in_jail "bootstrap.ext4") 292) ;;
     perform (AWrite (in_jail "vm.json")) ;;
     start_jailer).

Lemma start_tail_ok (tr tr' : list act) (pid : Z) (start : string) :
  start_tail tr = (tr', Ok (pid, start)) ->
  exists mid post seed, tr' = (tr ++ mid) ++ AJailer jailer_args :: APIDStart pid :: post /\
    spawn (tr ++ mid) jailer_args = Ok pid /\ did (tr ++ mid) (ADisk (in_jail "bootstrap.ext4") (64 * MiB) seed).
Proof.
  unfold start_tail. intros H. do 3 inv_perform H. unfold deferred in H.
  destruct (lbind _ _ _) as [tr1 r1] eqn:EB in H. injection H as <- ->.
  do 5 inv_perform EB. apply start_jailer_ok in EB as (pre & -> & _ & Hs).
  match goal with D : did _ (ADisk _ _ _) |- _ => rename D into HD end.
  rewrite <-!app_assoc in *. cbn [app] in *.
  eexists (_ :: _ :: _ :: _ :: _ :: _ :: _ :: _ :: pre), _, _. split; [by rewrite <-!app_assoc|]. split; [exact Hs|].
  destruct HD as (p & q & v & HD & Hv). exists p, (q ++ AChmod (in_jail "bootstrap.ext4") 292 :: AWrite (in_jail "vm.json") :: pre), v.
  split; [|done]. rewrite app_comm_cons, app_assoc, <-HD. rewrite <-!app_assoc. done.
Qed.

(** A launch that returns a PID did everything before the jailer. *)
Lemma launch_ok (tr tr' : list act) (pid : Z) (start : string) :
  Start tr = (tr', Ok (pid, start)) ->
  exists pre post, tr' = pre ++ AJailer jailer_args :: APIDStart pid :: post /\ spawn pre jailer_args = Ok pid /\
    version_checked pre /\ Forall (provisioned pre) (vc_Drives (BuildConfig s)).
Proof.
  unfold Start. intros H. inv_bind H. clear E. inv_bind H. injection E as <- Hv.
  destruct (qualified a0) eqn:Hq; [|done]. cbn [negb] in H.
  assert (version_checked (tr0 ++ [AVersion])) as HV by (exists tr0, [], a0; done).
  do 3 inv_perform H. inv_bind H. rename E into EL. inv_bind H. rename E into EV.
  pose proof (link_all_ok _ _ _ _ EL) as HL. destruct (quiet_extends _ _ _ _ (quiet_link_all _) EL) as [s1 ->].
  pose proof (link_volumes_ok _ _ _ _ _ EV) as HVol.
  destruct (quiet_extends _ _ _ _ (quiet_link_volumes _ _) EV) as [s2 ->].
  apply start_tail_ok in H as (mid & post & seed & -> & Hs & HD).
  eexists _, post. split; [done|]. split; [exact Hs|]. split; [by repeat first [exact HV|apply version_checked_app]|].
  apply (drives_provisioned _ seed); [| |done].
  - eapply Forall_impl; [exact HL|]. intros [[source target] rw] [D1 D2]. split; [by do 2 apply did_app|].
    intros Hr. by do 2 apply did_app; auto.
  - intros j v Hj. destruct (HVol j v Hj) as (p & ? & ? & ?). exists p. eauto using did_app.
Qed.

(** [Start] launches at most one jailer and accounts for it on every path:
    it returns the PID of the process it started, and otherwise no process it
    started is left (none was started, or it was killed and reaped).  When it
    returns, the base had been checked against the installed Firecracker, every
    drive of the VM's configuration had been put into the jail before the jailer
    ran, and the ones the guest may write to belong to the sandbox's own user. *)
Theorem Start_correct :
  let '(tr, r) := Start [] in
  jailer_outcome [] tr r /\
  forall pid start, r = Ok (pid, start) ->
    exists pre post, tr = pre ++ AJailer jailer_args :: APIDStart pid :: post /\ spawn pre jailer_args = Ok pid /\
      version_checked pre /\ Forall (provisioned pre) (vc_Drives (BuildConfig s)).
Proof.
  destruct (accounted_Start []) as (suf & E & HJ). destruct (Start []) as [tr r] eqn:ES. cbn [fst snd app] in E, HJ.
  subst suf. split; [done|]. intros pid start ->. by apply (launch_ok [] tr pid start).
Qed.
End Start.

(** ** Drives *)

Lemma volume_id_inj (i j : nat) : volume_id i = volume_id j -> i = j.
Proof. unfold volume_id. intros H. injection H as H. apply Itoa_inj in H. lia. Qed.

Lemma volume_path_inj (i j : nat) :
  "/" +:+ volume_id i +:+ ".ext4" = "/" +:+ volume_id j +:+ ".ext4" -> i = j.
Proof.
  intros H. apply volume_id_inj. apply (f_equal (fun p => TrimSuffix (drop_str 1 p) ".ext4")) in H.
  change (drop_str 1 ("/" +:+ ?x)) with x in H. by rewrite !TrimSuffix_app in H.
Qed.

Lemma NoDup_imap {A B} (f : nat -> A -> B) (l : list A) :
  (forall i j x y, f i x = f j y -> i = j) -> NoDup (imap f l).
Proof.
  intros Hf. apply NoDup_alt. intros i j x Hi Hj. rewrite list_lookup_imap in Hi, Hj.
  apply fmap_Some in Hi as (u & _ & ->). apply fmap_Some in Hj as (v & _ & E). by apply Hf in E.
Qed.

(** The configuration of a sandbox: drive identifiers and paths are distinct,
    the read-only base is the only root device, the guest can write exactly to its
    state disk and to the volumes it mounted read-write (in mount order), and the
    vsock address of a slot is its own. *)
Theorem BuildConfig_correct (s : Sandbox) :
  1 <= sb_Slot s <= 16000 ->
  NoDup (d_ID <$> vc_Drives (BuildConfig s)) /\ NoDup (d_Path <$> vc_Drives (BuildConfig s)) /\
  (forall d, d ∈ vc_Drives (BuildConfig s) -> d_Root d = true -> d = mkDrive "base-root" "/base.ext4" true true) /\
  (forall d, d ∈ vc_Drives (BuildConfig s) -> d_ReadOnly d = false ->
     d_ID d = "state" \/ exists i v, s_Mounts (sb_Spec s) !! i = Some v /\ m_ReadOnly v = false /\ d_ID d = volume_id i) /\
  (forall i v, s_Mounts (sb_Spec s) !! i = Some v ->
     mkDrive (volume_id i) ("/" +:+ volume_id i +:+ ".ext4") false (m_ReadOnly v) ∈ vc_Drives (BuildConfig s)) /\
  vc_GuestCID (BuildConfig s) = 3 + sb_Slot s.
Proof.
  intros Hs. cbn [BuildConfig vc_Drives vc_GuestCID].
  assert (forall d, d ∈ imap (fun i m => mkDrive (volume_id i) ("/" +:+ volume_id i +:+ ".ext4") false (m_ReadOnly m))
            (s_Mounts (sb_Spec s)) <->
          exists i v, s_Mounts (sb_Spec s) !! i = Some v /\
            d = mkDrive (volume_id i) ("/" +:+ volume_id i +:+ ".ext4") false (m_ReadOnly v)) as HI.
  { intros d. rewrite list_elem_of_lookup. setoid_rewrite list_lookup_imap. setoid_rewrite fmap_Some. naive_solver. }
  split_and!.
  - rewrite fmap_app. apply NoDup_app. split; [by repeat (constructor; [set_solver|]); constructor|]. split.
    + intros x Hx Hi. apply list_elem_of_fmap in Hi as (d & -> & Hd). apply HI in Hd as (i & v & _ & ->).
      cbn in Hx. unfold volume_id in Hx. set_solver.
    + rewrite fmap_imap. apply NoDup_imap. intros i j x y. apply volume_id_inj.
  - rewrite fmap_app. apply NoDup_app. split; [by repeat (constructor; [set_solver|]); constructor|]. split.
    + intros x Hx Hi. apply list_elem_of_fmap in Hi as (d & -> & Hd). apply HI in Hd as (i & v & _ & ->).
      cbn in Hx. unfold volume_id in Hx. set_solver.
    + rewrite fmap_imap. apply NoDup_imap. intros i j x y. apply volume_path_inj.
  - intros d Hd Hr. apply elem_of_app in Hd as [Hd|Hd]; [|by apply HI in Hd as (i & v & _ & ->)].
    rewrite !elem_of_cons, elem_of_nil in Hd. by destruct Hd as [->|[->|[->|[->|[]]]]].
  - intros d Hd Hr. apply elem_of_app in Hd as [Hd|Hd].
    + rewrite !elem_of_cons, elem_of_nil in Hd. left. by destruct Hd as [->|[->|[->|[->|[]]]]].
    + right. apply HI in Hd as (i & v & Hv & ->). by exists i, v.
  - intros i v Hv. apply elem_of_app. right. apply HI. eauto.
  - apply Z.mod_small. lia.
Qed.

Lemma BuildConfig_correct_witness :
  NoDup (d_ID <$> vc_Drives (BuildConfig web_sandbox)) /\ vc_GuestCID (BuildConfig web_sandbox) = 4.
Proof.
  destruct (BuildConfig_correct web_sandbox) as (H & _ & _ & _ & _ & C); [cbn; lia|]. split; [exact H|exact C].
Defined.
