(* ===== verification/FcControl.v ===== *)
(** * FcControl: the control connection to a guest (internal/firecracker/vm.go)

    The host reaches the agent through the socket of the VM: a line-based
    handshake of the VMM, then TLS.  [Ready] polls until the guest answers with
    the right identity; [Remove] deletes what a dead VM left.  The answers, the
    liveness of the VMM and the context at each round are arguments. *)

From S2P Require Import Prelude GoLib Api.
Import Strings.
Local Open Scope Z_scope.
Local Open Scope go_scope.

(** ** The handshake *)

Definition newline : ascii := "010"%char.
Definition buffer_size : nat := 16.

(** [bufio.Reader.ReadString] on a buffer of 16 bytes: the line with its end,
    the bytes that were read beyond it, and what the connection still holds.
    The connection is the list of pieces in which it delivers its bytes; the
    fuel is one unit for each read. *)
Fixpoint ReadString (fuel : nat) (acc : string) (conn : list string) : result (string * string * list string) :=
  match fuel, conn with
  | 0%nat, _ | _, [] => Err (Errorf "EOF")
  | S fuel, c :: conn =>
      let got := take_str buffer_size c in
      let left := drop_str buffer_size c in
      let conn := if bool_decide (left = "") then conn else left :: conn in
      let '(a, b, found) := Cut got newline in
      if (found : bool) then Ok (acc +:+ a +:+ String newline "", b, conn)
      else ReadString fuel (acc +:+ got) conn
  end.

(** The dial function of [Manager.Client] up to TLS: the line that was read and
    the connection that TLS gets, which does not include buffered bytes. *)
Definition dial (connect write : result unit) (fuel : nat) (conn : list string) : result (string * string * list string) :=
  let* _ := connect in
  let* _ := write in
  match ReadString fuel "" conn with
  | Err e => Err (Wrap "vsock handshake" e)
  | Ok (line, lost, conn) =>
      guard HasPrefix line "OK " else Errorf ("vsock handshake: " +:+ line) in
      Ok (line, lost, conn)
  end.

(** [Manager.Client]: the credentials and the TLS configuration. *)
Definition Client (credentials config : result unit) : result unit :=
  let* _ := credentials in config.

(** ** Readiness *)

Record ReadyEnv : Type := mkReadyEnv {
  rd_status : nat -> result GuestStatus;   (* the status call of a round *)
  rd_alive : nat -> bool;
  rd_done : nat -> bool }.                 (* the context ended in the wait *)

Fixpoint ready_loop (env : ReadyEnv) (s : Sandbox) (fuel t : nat) : option (result unit) :=
  match fuel with
  | 0%nat => None
  | S fuel =>
      match rd_status env t with
      | Ok st =>
          Some (guard (gs_Protocol st =? Protocol) && bool_decide (gs_ID st = sb_ID s) && (gs_Generation st =? sb_Generation s)
                  else Errorf "guest identity/protocol mismatch" in Ok tt)
      | Err e =>
          if negb (rd_alive env t) then Some (Err (Errorf "VMM exited before guest ready; see console.log"))
          else if rd_done env t then Some (Err (Wrap "guest readiness timeout" e))
          else ready_loop env s fuel (S t)
      end
  end.

(** [Manager.Ready] *)
Definition Ready (env : ReadyEnv) (client : result unit) (s : Sandbox) (fuel : nat) : option (result unit) :=
  match client with Err e => Some (Err e) | Ok _ => ready_loop env s fuel 0 end.

(** [Manager.Remove]; removing what is not there succeeds. *)
Definition Remove (alive : bool) (removeAll : result unit) (cgroup : result unit) (not_exist : error -> bool) : result unit :=
  guard negb alive else Errorf "refusing to remove live VM" in
  let* _ := removeAll in
  match cgroup with
  | Err e => if not_exist e then Ok tt else Err e
  | Ok _ => Ok tt
  end.

(** ** Theorems *)

(** Readiness is decided within the life of the context.  The poll ends at the
    latest in the round in which the context ends; success means that a guest
    answered with the protocol, the identifier and the generation of this very
    start, so a guest of an earlier start or of another sandbox is never taken
    for it; and a VMM that has died is reported without waiting for the context. *)
Theorem Ready_correct (env : ReadyEnv) (client : result unit) (s : Sandbox) (fuel T : nat) :
  rd_done env T = true -> (T < fuel)%nat ->
  exists r, Ready env client s fuel = Some r /\
    (r = Ok tt -> client = Ok tt /\ exists t st, (t <= T)%nat /\ rd_status env t = Ok st /\
       gs_Protocol st = Protocol /\ gs_ID st = sb_ID s /\ gs_Generation st = sb_Generation s /\
       forall k, (k < t)%nat -> rd_alive env k = true) /\
    (forall k, client = Ok tt -> (forall i, (i <= k)%nat -> is_ok (rd_status env i) = false) -> rd_alive env k = false ->
       (k <= T)%nat -> is_ok r = false).
Proof.
  intros Hd Hf. unfold Ready. destruct client as [[]|e]; [|exists (Err e); split_and!; done].
  assert (forall fuel t, (t <= T)%nat -> (T - t < fuel)%nat -> (forall k, (k < t)%nat -> rd_alive env k = true /\ is_ok (rd_status env k) = false) ->
    exists r, ready_loop env s fuel t = Some r /\
    (r = Ok tt -> exists t st, (t <= T)%nat /\ rd_status env t = Ok st /\
       gs_Protocol st = Protocol /\ gs_ID st = sb_ID s /\ gs_Generation st = sb_Generation s /\
       forall k, (k < t)%nat -> rd_alive env k = true) /\
    (forall k, (forall i, (i <= k)%nat -> is_ok (rd_status env i) = false) -> rd_alive env k = false -> (k <= T)%nat -> is_ok r = false)) as HL.
  { clear fuel Hf. induction fuel as [|fuel IH]; intros t Ht Hf Hbefore; [lia|]. cbn [ready_loop].
    destruct (rd_status env t) as [st|e] eqn:Es.
    - eexists. split; [done|]. split.
      + destruct (_ && _ && _) eqn:E; [|done]. intros _. apply andb_true_iff in E as [E E3]. apply andb_true_iff in E as [E1 E2].
        apply Z.eqb_eq in E1, E3. apply bool_decide_eq_true in E2. exists t, st. split_and!; try done. intros k Hk. by apply Hbefore.
      + intros k Hk Ha Hle. destruct (decide (t <= k)%nat) as [Htk|Htk].
        * specialize (Hk t Htk). by rewrite Es in Hk.
        * destruct (Hbefore k) as [Hb _]; [lia|]. congruence.
    - destruct (rd_alive env t) eqn:Ea; cbn [negb]; [|eexists; split; [done|]; split; [done|]; intros; done].
      destruct (rd_done env t) eqn:Edn; [eexists; split; [done|]; split; [done|]; intros; done|].
      assert (t <> T) as Hne by (intros ->; congruence). apply IH; [lia|lia|].
      intros k Hk. destruct (decide (k = t)) as [->|]; [by rewrite Es|apply Hbefore; lia]. }
  destruct (HL fuel 0%nat) as (r & Hr & H1 & H2); [lia|lia|intros k Hk; lia|]. exists r. split_and!; [done| |].
  - intros Hok. split; [done|]. by apply H1.
  - intros k _. by apply H2.
Qed.

Lemma ReadString_line (fuel : nat) (acc : string) (conn : list string) (line lost : string) (conn' : list string) :
  ReadString fuel acc conn = Ok (line, lost, conn') ->
  acc +:+ concat_str conn = line +:+ lost +:+ concat_str conn' /\ (String.length lost < buffer_size)%nat.
Proof.
  revert acc conn. induction fuel as [|fuel IH]; intros acc conn H; [done|]. destruct conn as [|c conn]; [done|].
  cbn [ReadString] in H. cbv zeta in H. set (conn1 := if bool_decide (drop_str buffer_size c = "") then conn else _) in H.
  assert (concat_str (c :: conn) = take_str buffer_size c +:+ concat_str conn1) as Hc.
  { unfold conn1. cbn [concat_str foldr]. rewrite <-(take_drop_str buffer_size c) at 1. rewrite app_assoc_str.
    case_bool_decide as E; [by rewrite E|done]. }
  rewrite Hc. assert (String.length (take_str buffer_size c) <= buffer_size)%nat as Hl by (rewrite length_take_str; lia).
  destruct (Cut (take_str buffer_size c) newline) as [[a b] found] eqn:Ecut. destruct found.
  - injection H as <- <- <-. apply Cut_found in Ecut as [E _]. rewrite E in *. split.
    + rewrite !app_assoc_str. done.
    + rewrite length_app_str in Hl. cbn [String.length] in Hl. lia.
  - apply IH in H as [H1 H2]. split; [|done]. by rewrite <-H1, app_assoc_str.
Qed.

(** The handshake takes a whole line and fewer than 16 bytes beyond it, and
    these are lost to TLS: the bytes on the connection are the line, the bytes
    that were buffered, and what TLS gets.  A peer that waits for the TLS client
    before it sends more loses nothing. *)
Theorem dial_handshake (connect write : result unit) (fuel : nat) (conn : list string) (line lost : string) (conn' : list string) :
  dial connect write fuel conn = Ok (line, lost, conn') ->
  HasPrefix line "OK " = true /\ concat_str conn = line +:+ lost +:+ concat_str conn' /\ (String.length lost < buffer_size)%nat.
Proof.
  unfold dial. destruct connect; [|done]. destruct write; [|done]. cbn [result_bind].
  destruct (ReadString fuel "" conn) as [[[l b] c']|] eqn:E; [|done]. destruct (HasPrefix l "OK ") eqn:Eh; [|done].
  intros [= <- <- <-]. apply ReadString_line in E as [E1 E2]. by rewrite app_nil_l_str in E1.
Qed.

(** A VM is removed only when it is dead, and a removal that is repeated after a
    success succeeds. *)
Lemma jail_Remove_correct (alive : bool) (removeAll cgroup : result unit) (not_exist : error -> bool) :
  Remove alive removeAll cgroup not_exist = Ok tt <->
  alive = false /\ removeAll = Ok tt /\ (cgroup = Ok tt \/ exists e, cgroup = Err e /\ not_exist e = true).
Proof.
  unfold Remove. destruct alive; cbn [negb]; [split; [done|by intros [? _]]|].
  destruct removeAll as [[]|]; cbn [result_bind]; [|split; [done|by intros (_ & ? & _)]].
  destruct cgroup as [[]|e]; [split; auto|]. destruct (not_exist e) eqn:E; split; try done; eauto 6.
  intros (_ & _ & [?|(e' & [= <-] & ?)]); congruence.
Qed.

Module ControlSample.
Definition sandbox : Sandbox :=
  mkSandbox "a1" "web" DefaultSpec empty_process "" "" "starting" "" [] 7 0 0 None 0 "" 0 1 false.
Definition env : ReadyEnv :=
  mkReadyEnv (fun t => if (t <? 2)%nat then Err ErrNotFound else Ok (mkGuestStatus Protocol "a1" 7 "ready" None 0)) (fun _ => true) (fun t => (5 <=? t)%nat).
End ControlSample.

Lemma Ready_correct_witness :
  Ready ControlSample.env (Ok tt) ControlSample.sandbox 6 = Some (Ok tt) /\
  exists t st, rd_status ControlSample.env t = Ok st /\ gs_ID st = "a1" /\ gs_Generation st = 7.
Proof.
  destruct (Ready_correct ControlSample.env (Ok tt) ControlSample.sandbox 6 5) as (r & H & H1 & _); [reflexivity|lia|].
  assert (r = Ok tt) as -> by (vm_compute in H; congruence). split; [exact H|].
  destruct (H1 eq_refl) as (_ & t & st & _ & H2 & _ & H3 & H4 & _). exists t, st. split; [exact H2|]. split; [exact H3|exact H4].
Defined.
