(* ===== verification/Tls.v ===== *)
(** * Tls: credentials of the control connection (internal/firecracker/tls.go)

    Every start of a VM creates a certificate authority of its own with one
    certificate for the host and one for the guest.  Keys are symbols, a
    certificate records the key that signed it, and whoever presents a
    certificate in a handshake must hold its key.  Certificates are verified the
    way crypto/x509 does: through intermediate authorities up to a root of the
    pool, within their validity, for a purpose and, for a client, a server name. *)

From S2P Require Import Prelude GoLib.
Local Open Scope Z_scope.
Local Open Scope go_scope.

(** ** Certificates *)

Inductive usage : Type := ClientAuth | ServerAuth.
#[export] Instance usage_eq_dec : EqDecision usage.
Proof. solve_decision. Defined.

(** A certificate: its template, the key it certifies, and who signed it. *)
Record cert : Type := mkCert {
  ct_subject : string;
  ct_dns : list string;
  ct_ca : bool;                 (* basic constraints: an authority *)
  ct_certsign : bool;           (* key usage: may sign certificates *)
  ct_usages : list usage;       (* extended key usage; none means any *)
  ct_notBefore : Z; ct_notAfter : Z;
  ct_public : nat;
  ct_issuer : string; ct_signer : nat }.
#[export] Instance cert_eq_dec : EqDecision cert.
Proof. solve_decision. Defined.

Record Credentials : Type := mkCredentials {
  cr_CA : cert; cr_HostCert : cert; cr_HostKey : nat; cr_GuestCert : cert; cr_GuestKey : nat }.

Definition hour : Z := 3600.
Definition year : Z := 365 * 24 * hour.

(** What the generator of keys and the encoders answer. *)
Record CertEnv : Type := mkCertEnv {
  ce_key : nat -> result nat;      (* the keys that are generated *)
  ce_create : nat -> result unit;  (* [x509.CreateCertificate] *)
  ce_marshal : nat -> result unit }.

(** The template of the authority, and of a leaf it signs. *)
Definition authority (id : string) (now : Z) (key : nat) : cert :=
  mkCert ("niflhel-" +:+ id) [] true true [] (now - hour) (now + year) key ("niflhel-" +:+ id) key.
Definition leaf_cert (ca : cert) (cn : string) (u : usage) (now : Z) (k : nat) : cert :=
  mkCert cn [cn] false false [u] (now - hour) (ct_notAfter ca) k (ct_subject ca) (ct_public ca).

(** The closure [leaf] of [CredentialsFor], the [n]-th certificate. *)
Definition leaf (env : CertEnv) (n : nat) (ca : cert) (cn : string) (u : usage) (now : Z) : result (cert * nat) :=
  let* k := ce_key env n in
  let* _ := ce_create env n in
  let* _ := ce_marshal env n in
  Ok (leaf_cert ca cn u now k, k).

(** [CredentialsFor] *)
Definition CredentialsFor (env : CertEnv) (now : Z) (id : string) : result Credentials :=
  let* key := ce_key env 0 in
  let* _ := ce_create env 0 in
  let ca := authority id now key in
  let* host := leaf env 1 ca "host" ClientAuth now in
  let* guest := leaf env 2 ca ("guest-" +:+ id) ServerAuth now in
  Ok (mkCredentials ca (fst host) (snd host) (fst guest) (snd guest)).

(** ** Configuration *)

Record TlsConfig : Type := mkTlsConfig {
  tc_minVersion : Z;
  tc_cert : cert; tc_key : nat;
  tc_roots : list cert;
  tc_serverName : string;
  tc_clientCAs : list cert;
  tc_requireClient : bool }.
Definition VersionTLS13 : Z := 772.

(** [TLSConfig]; [ca] is what [AppendCertsFromPEM] finds. *)
Definition TLSConfig (ca : option cert) (c : cert) (key : nat) (serverName : string) (server : bool) : result TlsConfig :=
  guard (ct_public c =? key)%nat else Errorf "tls: private key does not match public key" in
  match ca with
  | None => Err (Errorf "invalid CA")
  | Some ca =>
      Ok (mkTlsConfig VersionTLS13 c key [ca] serverName (if server then [ca] else []) server)
  end.

(** ** Verification *)

Definition valid_at (now : Z) (c : cert) : bool := (ct_notBefore c <=? now) && (now <=? ct_notAfter c).
Definition serves (u : usage) (c : cert) : bool := bool_decide (ct_usages c = []) || bool_decide (u ∈ ct_usages c).
Definition signed_by (c parent : cert) : bool :=
  ct_ca parent && ct_certsign parent && (ct_signer c =? ct_public parent)%nat && bool_decide (ct_issuer c = ct_subject parent).

(** A chain from [c] over intermediate certificates to a root. *)
Fixpoint verify_chain (roots : list cert) (now : Z) (u : usage) (c : cert) (inters : list cert) : bool :=
  valid_at now c && serves u c &&
  (bool_decide (c ∈ roots) ||
   existsb (fun r => valid_at now r && serves u r && signed_by c r) roots ||
   match inters with
   | [] => false
   | i :: inters => signed_by c i && verify_chain roots now u i inters
   end).

(** What a client and a server require of the peer's certificate. *)
Definition client_accepts (cfg : TlsConfig) (now : Z) (c : cert) (inters : list cert) : bool :=
  verify_chain (tc_roots cfg) now ServerAuth c inters && bool_decide (tc_serverName cfg ∈ ct_dns c).
Definition server_accepts (cfg : TlsConfig) (now : Z) (c : cert) (inters : list cert) : bool :=
  negb (tc_requireClient cfg) || verify_chain (tc_clientCAs cfg) now ClientAuth c inters.

(** ** Mutual authentication *)

Lemma CredentialsFor_shape (env : CertEnv) (now : Z) (id : string) (cr : Credentials) :
  CredentialsFor env now id = Ok cr ->
  exists k, cr_CA cr = authority id now k /\ ce_key env 0 = Ok k /\
    cr_HostCert cr = leaf_cert (cr_CA cr) "host" ClientAuth now (cr_HostKey cr) /\ ce_key env 1 = Ok (cr_HostKey cr) /\
    cr_GuestCert cr = leaf_cert (cr_CA cr) ("guest-" +:+ id) ServerAuth now (cr_GuestKey cr) /\ ce_key env 2 = Ok (cr_GuestKey cr).
Proof.
  unfold CredentialsFor, leaf, result_bind. intros H. repeat case_match; try done; simplify_eq. eexists. split_and!; done.
Qed.

(** The certificates the holder of [known] keys can present: those of this start,
    and any that were not signed with the key of its authority. *)
Definition presentable (cr : Credentials) (c : cert) : Prop :=
  c = cr_CA cr \/ c = cr_HostCert cr \/ c = cr_GuestCert cr \/ ct_signer c <> ct_public (cr_CA cr).

(** Only what the authority signed chains to it. *)
Lemma chain_signed (cr : Credentials) (now : Z) (u : usage) (c : cert) (inters : list cert) :
  ct_signer (cr_CA cr) = ct_public (cr_CA cr) -> ct_ca (cr_HostCert cr) = false -> ct_ca (cr_GuestCert cr) = false ->
  Forall (presentable cr) (c :: inters) ->
  verify_chain [cr_CA cr] now u c inters = true -> ct_signer c = ct_public (cr_CA cr) /\ valid_at now c = true /\ serves u c = true.
Proof.
  intros Hself Hh Hg. revert c. induction inters as [|i inters IH]; intros c Hp Hv; cbn [verify_chain] in Hv;
    apply andb_true_iff in Hv as [[Hval Hs]%andb_true_iff Hv]; (split; [|done]); apply orb_true_iff in Hv as [Hv|Hv]; try done.
  1,2: apply orb_true_iff in Hv as [Hv%bool_decide_eq_true|Hv];
    [by apply list_elem_of_singleton in Hv as ->|]; cbn in Hv; rewrite orb_false_r in Hv; unfold signed_by in Hv; bool_prop;
    by apply Nat.eqb_eq.
  apply andb_true_iff in Hv as [Hsig Hv]. inversion Hp as [|? ? Hc Hrest]; subst.
  destruct (IH i Hrest Hv) as [Hi _]. unfold signed_by in Hsig. bool_prop.
  match goal with H : (ct_signer c =? _)%nat = true |- _ => apply Nat.eqb_eq in H as -> end.
  inversion Hrest as [|? ? Hpi _]; subst. destruct Hpi as [->|[->|[->|Hne]]]; congruence.
Qed.

Section Authentication.
Context (env : CertEnv) (now : Z) (id : string) (cr : Credentials).
Hypothesis Hcr : CredentialsFor env now id = Ok cr.

Lemma credentials_self :
  ct_signer (cr_CA cr) = ct_public (cr_CA cr) /\ ct_ca (cr_HostCert cr) = false /\ ct_ca (cr_GuestCert cr) = false.
Proof. destruct (CredentialsFor_shape _ _ _ _ Hcr) as (k & -> & _ & -> & _ & -> & _). done. Qed.

(** A chain of presentable certificates ends in one of the three of this start. *)
Lemma chain_ours (t : Z) (u : usage) (c : cert) (inters : list cert) :
  Forall (presentable cr) (c :: inters) -> verify_chain [cr_CA cr] t u c inters = true ->
  serves u c = true /\ (c = cr_CA cr \/ c = cr_HostCert cr \/ c = cr_GuestCert cr).
Proof.
  intros Hp Hv. destruct credentials_self as (H1 & H2 & H3).
  destruct (chain_signed cr t u c inters H1 H2 H3 Hp Hv) as (Hs & _ & Hu). split; [done|].
  inversion Hp as [|? ? Hc _]; subst. destruct Hc as [?|[?|[?|?]]]; auto. done.
Qed.

(** An accepted certificate of this start has not expired. *)
Lemma chain_in_time (t : Z) (u : usage) (c : cert) (inters : list cert) :
  Forall (presentable cr) (c :: inters) -> verify_chain [cr_CA cr] t u c inters = true -> t <= now + year.
Proof.
  intros Hp Hv. destruct credentials_self as (H1 & H2 & H3).
  destruct (chain_signed cr t u c inters H1 H2 H3 Hp Hv) as (_ & Hval & _).
  destruct (chain_ours t u c inters Hp Hv) as (_ & Hc).
  assert (ct_notAfter c = now + year) as Hn.
  { destruct (CredentialsFor_shape _ _ _ _ Hcr) as (k & HCA & _ & HH & _ & HG & _).
    destruct Hc as [->|[->| ->]]; rewrite ?HH, ?HG; cbn; by rewrite HCA. }
  unfold valid_at in Hval. bool_prop. lia.
Qed.

(** C15. Host and guest authenticate each other.  Whoever is not told the key of the
    authority, which is dropped when the credentials have been made, and presents
    any certificates that exist, of other starts and self-made ones included: the
    host accepts only the certificate of this very guest, the guest only the one
    of the host, and both only from somebody who holds its key, so a guest can
    neither take the place of the host nor of another guest.  The genuine pair
    accept each other from an hour before the start until a year after it; later
    nothing is accepted any more. *)
Theorem mutual_authentication (known : gset nat) :
  ct_public (cr_CA cr) ∉ known ->
  exists host guest,
    TLSConfig (Some (cr_CA cr)) (cr_HostCert cr) (cr_HostKey cr) ("guest-" +:+ id) false = Ok host /\
    TLSConfig (Some (cr_CA cr)) (cr_GuestCert cr) (cr_GuestKey cr) "" true = Ok guest /\
    (forall t c inters, Forall (presentable cr) (c :: inters) -> ct_public c ∈ known ->
       (client_accepts host t c inters = true -> c = cr_GuestCert cr /\ cr_GuestKey cr ∈ known /\ t <= now + year) /\
       (server_accepts guest t c inters = true -> c = cr_HostCert cr /\ cr_HostKey cr ∈ known /\ t <= now + year)) /\
    (forall t, now - hour <= t <= now + year ->
       client_accepts host t (cr_GuestCert cr) [] = true /\ server_accepts guest t (cr_HostCert cr) [] = true).
Proof.
  intros Hk. destruct (CredentialsFor_shape _ _ _ _ Hcr) as (k & HCA & _ & HH & _ & HG & _).
  assert (ct_public (cr_HostCert cr) = cr_HostKey cr /\ ct_public (cr_GuestCert cr) = cr_GuestKey cr) as [Hh Hg]
    by (rewrite HH, HG; done).
  unfold TLSConfig. rewrite Hh, Hg, !Nat.eqb_refl. do 2 eexists.
  split; [done|]. split; [done|]. split.
  - intros t c inters Hp Hc. unfold client_accepts, server_accepts. cbn [tc_roots tc_serverName tc_clientCAs tc_requireClient negb orb].
    split; intros Hv.
    + apply andb_true_iff in Hv as [Hv Hd%bool_decide_eq_true]. pose proof (chain_in_time _ _ _ _ Hp Hv).
      destruct (chain_ours _ _ _ _ Hp Hv) as (_ & [->|[->| ->]]).
      * rewrite HCA in Hd. by apply elem_of_nil in Hd.
      * rewrite HH in Hd. by apply list_elem_of_singleton in Hd.
      * split_and!; [done|by rewrite <- Hg|done].
    + pose proof (chain_in_time _ _ _ _ Hp Hv). destruct (chain_ours _ _ _ _ Hp Hv) as (Hu & [->|[->| ->]]).
      * done.
      * split_and!; [done|by rewrite <- Hh|done].
      * by rewrite HG in Hu.
  - intros t Ht. assert (forall c, ct_notBefore c = now - hour -> ct_notAfter c = now + year -> valid_at t c = true) as Hval.
    { intros c H1 H2. unfold valid_at. rewrite H1, H2. apply andb_true_iff. by rewrite !Z.leb_le. }
    unfold client_accepts, server_accepts. cbn [tc_roots tc_serverName tc_clientCAs tc_requireClient negb orb verify_chain existsb].
    rewrite HG, HH, HCA, !Hval by done. unfold signed_by. cbn.
    rewrite Nat.eqb_refl, (bool_decide_eq_true_2 ("niflhel-" +:+ id = _)), (bool_decide_eq_true_2 (_ ∈ ["guest-" +:+ id])) by set_solver.
    by rewrite !orb_true_r.
Qed.
End Authentication.

(** The credentials of a start, and what a guest that knows its own key and those of
    another start can present. *)
Definition sample_env : CertEnv := mkCertEnv (fun n => Ok n) (fun _ => Ok tt) (fun _ => Ok tt).
Lemma mutual_authentication_witness :
  exists cr, CredentialsFor sample_env 1000 "web" = Ok cr /\ ct_public (cr_CA cr) ∉ ({[2%nat; 7%nat]} : gset nat) /\
    exists host, TLSConfig (Some (cr_CA cr)) (cr_HostCert cr) (cr_HostKey cr) "guest-web" false = Ok host /\
      client_accepts host 5000 (cr_GuestCert cr) [] = true.
Proof.
  destruct (CredentialsFor sample_env 1000 "web") as [cr|e] eqn:E; [|discriminate E]. exists cr. split; [reflexivity|].
  assert (ct_public (cr_CA cr) ∉ ({[2%nat; 7%nat]} : gset nat)) as Hk.
  { vm_compute in E. injection E as <-. cbn. set_solver. }
  split; [exact Hk|]. destruct (mutual_authentication sample_env 1000 "web" cr E _ Hk) as (host & guest & Hh & _ & _ & Ha).
  exists host. split; [exact Hh|]. apply Ha. unfold year, hour. lia.
Defined.
