(* ===== verification/Unpack.v ===== *)
(** * Unpack: expanding an image inside the guest (internal/guest/unpack.go)

    The guest expands the layers it finds on its image disk.  Every layer is
    checked against the digest of its descriptor and, expanded into a spool
    file, against its uncompressed digest, before it is applied.  A directory
    tree is one entry of the file map with an opaque content; decompression,
    the tar reader and [archive.Apply] are parameters. *)

From S2P Require Import Prelude GoLib Api Fsutil Fs Oci OciStore.
Import Strings Path.
Local Open Scope Z_scope.
Local Open Scope go_scope.

Inductive tarflag : Type := TChar | TBlock | TFifo | TOther.
Record tarheader : Type := mkTarheader { th_Name : string; th_Flag : tarflag }.

#[export] Instance tarflag_eq_dec : EqDecision tarflag.
Proof. solve_decision. Defined.

Definition max_layers : Z := 256.
Definition max_inodes : Z := 200000.

(** One entry of a layer; the state is [entries]. *)
Definition check_entry (entries : Z) (h : tarheader) : result Z :=
  let entries := int64 (entries + 1) in
  let clean := Clean (th_Name h) in
  if (max_inodes <? entries) || IsAbs (th_Name h) || bool_decide (clean = "..") || HasPrefix clean "../"
  then Err (Errorf "unsafe layer path or inode limit")
  else if bool_decide (th_Flag h = TChar \/ th_Flag h = TBlock \/ th_Flag h = TFifo)
  then Err (Errorf "special files not supported in app images")
  else Ok entries.

(** The loop over the entries of a layer, as [tar.Reader.Next] returns them. *)
Fixpoint check_entries (entries : Z) (l : list (result tarheader)) : result Z :=
  match l with
  | [] => Ok entries
  | Err e :: _ => Err e
  | Ok h :: l => let* entries := check_entry entries h in check_entries entries l
  end.

Section Guest.
Variable K : Kernel.
Variable sha256_hex : string -> string.
Variable unmarshal : string -> result Image.
(** Decompression of a stored layer. *)
Variables gunzip unzstd : string -> result Stream.
(** The entries of an archive up to its end or an error. *)
Variable tar_read : string -> list (result tarheader).
(** [archive.Apply] on a tree: its result and the tree it leaves; and the tree
    an interrupted call leaves. *)
Variable apply : string -> string -> result unit * string.
Variable apply_part : nat -> string -> string -> string.

(** [layerReader] on the content of the file. *)
Definition layerReader (content media : string) : result Stream :=
  if Contains media "gzip" then gunzip content
  else if Contains media "zstd" then unzstd content
  else if bool_decide (media = "application/vnd.oci.image.layer.v1.tar" \/
                       media = "application/vnd.docker.image.rootfs.diff.tar")
  then Ok (mkStream content None)
  else Err (Errorf "unsupported layer media type %q").

(** [archive.Apply(ctx, dest, f)] *)
Definition Apply (dest : path) (f : string) : M unit :=
  os K (fun _ d => match d !! dest with
                   | Some tree => let '(r, tree') := apply tree f in (r, <[dest := tree']> d)
                   | None => (Err ErrNotExist, d)
                   end)
       (fun n d => match d !! dest with Some tree => <[dest := apply_part n tree f]> d | None => d end).

Definition blobs (carrier : string) : string := carrier +:+ "/blobs".

(** An error after the spool file was created: it is removed. *)
Definition fail {A : Type} (tmp : path) (e : error) : M A :=
  try (Unlink K tmp) ;; lift (Err e).

(** One round of the loop of [Unpack]; the state is [total] and [entries]. *)
Definition unpack_layer (carrier : string) (dest : path) (maxBytes : Z) (st : Z * Z) (x : Descriptor * string)
  : M (Z * Z) :=
  let '(total, entries) := st in
  let '(d, diffID) := x in
  h ← lift (HexDigest (d_Digest d));
  let p := (blobs carrier, h) in
  r ← try (DigestFile K (Digest sha256_hex) p);
  if negb (bool_decide (r = Ok (d_Digest d, d_Size d))) then lift (Err (Errorf "layer integrity failure")) else
  content ← ReadData K p;
  r ← lift (layerReader content (d_MediaType d));
  tmp ← CreateTemp K (fst dest) ".layer-";
  n ← try (Copy K tmp r (int64 (int64 (maxBytes - total) + 1)));
  match n with
  | Err _ => fail tmp (Errorf "expanded image exceeds disk budget")
  | Ok n =>
      if int64 (maxBytes - total) <? n then fail tmp (Errorf "expanded image exceeds disk budget") else
      let total := int64 (total + n) in
      diff ← try (DigestFile K (Digest sha256_hex) tmp);
      if negb (bool_decide (fst <$> (match diff with Ok x => Some x | Err _ => None end) = Some diffID))
      then fail tmp (Errorf "uncompressed layer digest mismatch") else
      f ← ReadData K tmp;
      match check_entries entries (tar_read f) with
      | Err e => fail tmp e
      | Ok entries =>
          e ← try (Apply dest f);
          try (Unlink K tmp) ;;
          lift e ;;
          mret (total, entries)
      end
  end.

(** [Unpack] *)
Definition Unpack (carrier : string) (dest : path) (maxBytes : Z) : M unit :=
  img ← ReadJSON K unmarshal (carrier, "image.json");
  if negb (length (i_Layers img) =? length (i_DiffIDs img))%nat || (max_layers <? Z.of_nat (length (i_Layers img)))
  then lift (Err (Errorf "invalid layer metadata")) else
  foldM (unpack_layer carrier dest maxBytes) (0, 0) (zip (i_Layers img) (i_DiffIDs img)) ;;
  mret tt.
End Guest.

(** ** What an unpacked image is *)

Section Spec.
Context (sha256_hex : string -> string) (gunzip unzstd : string -> result Stream).
Context (tar_read : string -> list (result tarheader)) (apply : string -> string -> result unit * string).

(** [u] is the verified content of a layer on the carrier. *)
Definition expands (d : disk) (carrier : string) (l : Descriptor) (diffID u : string) : Prop :=
  exists h c, HexDigest (d_Digest l) = Ok h /\ d !! (blobs carrier, h) = Some c /\
    Digest sha256_hex c = d_Digest l /\ Z.of_nat (String.length c) = d_Size l /\
    layerReader gunzip unzstd c (d_MediaType l) = Ok (mkStream u None) /\ Digest sha256_hex u = diffID.

Fixpoint apply_all (tree : string) (us : list string) : option string :=
  match us with
  | [] => Some tree
  | u :: us => match apply tree u with (Ok _, tree') => apply_all tree' us | (Err _, _) => None end
  end.

Definition total_size (us : list string) : Z := foldr (fun u n => Z.of_nat (String.length u) + n) 0 us.

(** [tree] is [tree0] with all layers of the image applied in order. *)
Definition unpacked (d : disk) (carrier : string) (maxBytes : Z) (img : Image) (tree0 tree : string) : Prop :=
  exists us n, Forall2 (fun x u => expands d carrier (fst x) (snd x) u) (zip (i_Layers img) (i_DiffIDs img)) us /\
    length us = length (i_Layers img) /\
    total_size us <= maxBytes /\ check_entries 0 (us ≫= tar_read) = Ok n /\ apply_all tree0 us = Some tree.

(** Everything but [dest] and spool files is as in [d0]. *)
Definition spared (dest : path) (d0 d : disk) : Prop :=
  forall q, q <> dest -> ~ is_temp (fst dest) ".layer-" q -> d !! q = d0 !! q.
End Spec.

(** ** Lemmas *)

Lemma check_entries_app (n : Z) (l1 l2 : list (result tarheader)) :
  check_entries n (l1 ++ l2) = result_bind (check_entries n l1) (fun n' => check_entries n' l2).
Proof.
  revert n. induction l1 as [|[h|e] l1 IH]; intros n; simpl; [done| |done].
  destruct (check_entry n h); simpl; [apply IH|done].
Qed.

Lemma check_entries_ok (n n' : Z) (l : list (result tarheader)) :
  0 <= n <= max_inodes -> check_entries n l = Ok n' ->
  n' = n + Z.of_nat (length l) /\ n' <= max_inodes /\
  Forall (fun r => exists h, r = Ok h /\ IsAbs (th_Name h) = false /\ th_Flag h = TOther /\
            Forall plain_elem (clean_elems (th_Name h))) l.
Proof.
  revert n. induction l as [|[h|e] l IH]; intros n Hn; simpl; [| |done].
  { intros [= <-]. split_and!; [lia|lia|constructor]. }
  unfold check_entry. unfold max_inodes in *.
  rewrite (int64_id (n + 1)) by (unfold in_int64, two63, max_int64; lia).
  destruct (_ || _) eqn:E; [done|]. bool_prop. case_bool_decide as Hf; [done|]. simpl. intros HC.
  apply IH in HC as (-> & Hb & HF); [|lia]. split_and!; [lia|lia|]. constructor; [|done].
  exists h. split_and!; [done|done| |].
  - destruct (th_Flag h); tauto.
  - by apply Clean_confined.
Qed.

Lemma apply_all_app (apply : string -> string -> result unit * string) (tree : string) (us vs : list string) :
  apply_all apply tree (us ++ vs) = apply_all apply tree us ≫= fun t => apply_all apply t vs.
Proof.
  revert tree. induction us as [|u us IH]; intros tree; simpl; [done|]. destruct (apply tree u) as [[[]|] t]; [apply IH|done].
Qed.

Lemma total_size_app (us vs : list string) : total_size (us ++ vs) = total_size us + total_size vs.
Proof. induction us as [|u us IH]; simpl; [done|]. rewrite IH. lia. Qed.

Lemma total_size_pos (us : list string) : 0 <= total_size us.
Proof. induction us; simpl; lia. Qed.

Lemma spared_refl (dest : path) (d : disk) : spared dest d d.
Proof. by intros q. Qed.

Lemma spared_trans (dest : path) (d0 d1 d2 : disk) : spared dest d0 d1 -> spared dest d1 d2 -> spared dest d0 d2.
Proof. intros H1 H2 q Hq Ht. by rewrite H2, H1. Qed.

Lemma spared_temp (dest : path) (d0 d : disk) (t : path) (c : string) :
  spared dest d0 d -> is_temp (fst dest) ".layer-" t -> spared dest d0 (<[t := c]> d).
Proof. intros H Ht q Hq Hn. rewrite lookup_insert_ne; [by apply H|]. by intros ->. Qed.

Lemma spared_dest (dest : path) (d0 d : disk) (c : string) :
  spared dest d0 d -> spared dest d0 (<[dest := c]> d).
Proof. intros H q Hq Hn. rewrite lookup_insert_ne; [by apply H|done]. Qed.

Lemma spared_delete (dest : path) (d0 d : disk) (t : path) :
  spared dest d0 d -> is_temp (fst dest) ".layer-" t -> spared dest d0 (delete t d).
Proof. intros H Ht q Hq Hn. rewrite lookup_delete_ne; [by apply H|]. by intros ->. Qed.

Section Proofs.
Context (K : Kernel) (sha256_hex : string -> string) (unmarshal : string -> result Image).
Context (gunzip unzstd : string -> result Stream) (tar_read : string -> list (result tarheader)).
Context (apply : string -> string -> result unit * string) (apply_part : nat -> string -> string -> string).
Context (carrier : string) (dest : path) (maxBytes : Z).
Hypothesis max_range : 0 <= maxBytes < 2 ^ 62.
Hypothesis dest_plain : HasPrefix (snd dest) ".layer-" = false.
Hypothesis carrier_apart : fst dest <> carrier /\ fst dest <> blobs carrier.

#[local] Notation expands := (expands sha256_hex gunzip unzstd).
#[local] Notation unpack_layer := (unpack_layer K sha256_hex gunzip unzstd tar_read apply apply_part carrier dest maxBytes).

Lemma spared_blob (d0 d : disk) (h : string) : spared dest d0 d -> d !! (blobs carrier, h) = d0 !! (blobs carrier, h).
Proof.
  intros H. destruct carrier_apart as [_ Hc]. apply H.
  - intros <-. done.
  - intros [E _]. simpl in E. done.
Qed.

(** Removing the spool file, whatever the outcome. *)
Lemma triple_unspool (tmp : path) (d0 : disk) (tree : string) :
  is_temp (fst dest) ".layer-" tmp ->
  triple (fun d => spared dest d0 d /\ d !! dest = Some tree) (try (Unlink K tmp))
    (fun r d => is_ok r = true /\ spared dest d0 d /\ d !! dest = Some tree) (spared dest d0).
Proof.
  intros Ht. assert (tmp <> dest) as Hne by by eapply temp_other.
  apply triple_try. apply triple_os.
  - intros _ d [Hs Hd]. destruct (d !! tmp); simpl; [|done]. split_and!; [done|by apply spared_delete|].
    by rewrite lookup_delete_ne.
  - intros d e n [Hs Hd]. done.
  - intros d n [Hs Hd]. done.
Qed.

Lemma triple_fail {A : Type} (tmp : path) (e : error) (d0 d1 : disk) (tree : string) (Q : result A -> disk -> Prop) :
  is_temp (fst dest) ".layer-" tmp -> spared dest d0 d1 -> d1 !! dest = Some tree ->
  (forall e d, spared dest d0 d -> Q (Err e) d) ->
  triple (fun d => d = d1) (fail K tmp e) Q (spared dest d0).
Proof.
  intros Ht Hs Hd HQ. unfold fail.
  apply (triple_bind _ _ _ (fun _ d => spared dest d0 d)).
  - eapply triple_conseq; [apply (triple_unspool tmp d0 tree Ht)|intros d ->; done| |done].
    intros [r|e'] d (Hr & H1 & _); [done|by apply HQ].
  - intros _ s Hs'. by apply HQ.
Qed.

(** The spooled copy of a layer. *)
Lemma triple_spool (tmp : path) (r : Stream) (d1 : disk) (budget : Z) :
  0 <= budget ->
  triple (fun d => d = <[tmp := ""]> d1) (Copy K tmp r (budget + 1))
    (fun n d => match n with
                | Ok n => exists c, d = <[tmp := c]> d1 /\ n = Z.of_nat (String.length c) /\
                    (n <= budget -> r = mkStream c None)
                | Err _ => exists c, d = <[tmp := c]> d1
                end) (fun d => exists c, d = <[tmp := c]> d1).
Proof.
  intros Hb. unfold Copy. set (data := take_str _ _).
  apply (triple_bind _ _ _ (fun _ d => d = <[tmp := data]> d1)).
  { eapply triple_weaken; [apply triple_WriteTemp|by intros [?|?]|done]. }
  assert (Z.of_nat (String.length data) <= budget -> data = st_data r) as Hall.
  { unfold data. rewrite length_take_str. intros Hle.
    assert (String.length (st_data r) <= Z.to_nat (budget + 1))%nat as Hl by lia.
    clear -Hl. revert Hl. generalize (Z.to_nat (budget + 1)). generalize (st_data r).
    induction s as [|c s IH]; intros [|n] Hl; simpl in *; try done; [lia|]. by rewrite IH by lia. }
  intros _ s Hs. destruct r as [u [e|]]; simpl in *.
  - destruct (_ <? _) eqn:E; simpl; [eauto|]. bool_prop. exists data. split_and!; [done|done|]. lia.
  - exists data. split_and!; [done|done|]. intros Hle. by rewrite Hall.
Qed.

(** One layer: it is verified, within the budget and free of unsafe entries
    when it is applied. *)
Lemma triple_unpack_layer (d0 d1 : disk) (total entries : Z) (l : Descriptor) (diffID tree : string) :
  0 <= total <= maxBytes -> spared dest d0 d1 -> d1 !! dest = Some tree ->
  triple (fun d => d = d1) (unpack_layer (total, entries) (l, diffID))
    (fun r d => spared dest d0 d /\ match r with
       | Ok (total', entries') => exists u tree',
           expands d0 carrier l diffID u /\ total' = total + Z.of_nat (String.length u) /\ total' <= maxBytes /\
           check_entries entries (tar_read u) = Ok entries' /\
           apply tree u = (Ok tt, tree') /\ d !! dest = Some tree'
       | Err _ => True
       end) (spared dest d0).
Proof.
  intros Htot Hs Hd. unfold unpack_layer.
  apply triple_lift_seq; [intros e d _ ->; done|intros h Hh].
  apply (triple_bind _ _ _ (fun r d => (forall a n, r = Ok (a, n) -> exists c, d1 !! (blobs carrier, h) = Some c /\
      a = Digest sha256_hex c /\ n = Z.of_nat (String.length c)) /\ d = d1)).
  { apply triple_try. eapply triple_weaken; [apply triple_DigestFile| |by intros d ->]. intros r d [-> H]. done. }
  intros r. apply triple_pure. intros Hr. case_bool_decide as Er; cbn [negb].
  2: { intros s Hs'. simpl. rewrite Hs'. done. }
  subst r. destruct (Hr _ _ eq_refl) as (c & Hc & Edig & Elen).
  apply (triple_bind _ _ _ (fun c' d => c' = c /\ d = d1)).
  { eapply triple_weaken; [apply triple_ReadData| |by intros d ->]. intros [c'|e] d [-> H]; [|done].
    specialize (H c' eq_refl). split; [congruence|done]. }
  intros c'. apply triple_pure. intros ->.
  apply triple_lift_seq; [intros e d _ ->; done|intros st Hst].
  apply (triple_bind _ _ _ (fun t d => is_temp (fst dest) ".layer-" t /\ d1 !! t = None /\ d = <[t := ""]> d1)).
  { eapply triple_weaken; [apply triple_CreateTemp| |by intros d ->]. intros [t|e] d Ht; [done|by subst]. }
  intros t. apply triple_pure. intros Ht. apply triple_pure. intros Hn.
  assert (t <> dest) as Hne by by eapply temp_other.
  assert (forall x, spared dest d0 (<[t := x]> d1)) as HS by (intros x; by apply spared_temp).
  assert (forall x, <[t := x]> d1 !! dest = Some tree) as HD by (intros x; by rewrite lookup_insert_ne).
  rewrite (int64_id (maxBytes - total)) by (unfold in_int64, two63, max_int64; lia).
  rewrite (int64_id (maxBytes - total + 1)) by (unfold in_int64, two63, max_int64; lia).
  eapply triple_bind.
  { apply triple_try. eapply triple_weaken; [apply (triple_spool t st d1 (maxBytes - total)); lia| |by intros d [x ->]].
    intros n d H. exact H. }
  intros [n|e].
  2: { apply triple_exists. intros x. eapply triple_weaken; [by apply (triple_fail t _ d0 (<[t := x]> d1) tree
         (fun r d => spared dest d0 d /\ match r with Ok _ => False | Err _ => True end))| |done].
       intros [[? ?]|?] d [? ?]; done. }
  apply triple_exists. intros u. intros s Hs'. destruct Hs' as (Hs' & Hnu & Hu). revert s Hs'.
  change (triple (fun d => d = <[t := u]> d1) (if maxBytes - total <? n then fail K t (Errorf "expanded image exceeds disk budget") else
     let total := int64 (total + n) in
     diff ← try (DigestFile K (Digest sha256_hex) t);
      if negb (bool_decide (fst <$> (match diff with Ok x => Some x | Err _ => None end) = Some diffID))
      then fail K t (Errorf "uncompressed layer digest mismatch") else
      f ← ReadData K t;
      match check_entries entries (tar_read f) with
      | Err e => fail K t e
      | Ok entries =>
          e ← try (Apply K apply apply_part dest f);
          try (Unlink K t) ;;
          lift e ;;
          mret (total, entries)
      end) (fun r d => spared dest d0 d /\ match r with
       | Ok (total', entries') => exists u tree',
           expands d0 carrier l diffID u /\ total' = total + Z.of_nat (String.length u) /\ total' <= maxBytes /\
           check_entries entries (tar_read u) = Ok entries' /\
           apply tree u = (Ok tt, tree') /\ d !! dest = Some tree'
       | Err _ => True
       end) (spared dest d0)).
  assert (forall (A : Type) e (Q : result A -> disk -> Prop), (forall e d, spared dest d0 d -> Q (Err e) d) ->
    triple (fun d => d = <[t := u]> d1) (fail K t e) Q (spared dest d0)) as HF.
  { intros A e Q HQ. by apply (triple_fail t e d0 (<[t := u]> d1) tree Q). }
  destruct (_ <? _) eqn:En; bool_prop; [apply HF; done|].
  specialize (Hu En). subst st. cbv zeta.
  apply (triple_bind _ _ _ (fun r d => (forall a m, r = Ok (a, m) -> a = Digest sha256_hex u) /\ d = <[t := u]> d1)).
  { apply triple_try. eapply triple_weaken; [apply triple_DigestFile| |by intros d ->]. intros r d [-> H]. split; [|done].
    intros a m E. destruct (H a m E) as (x & Hx & -> & _). rewrite lookup_insert_eq in Hx. by injection Hx as ->. }
  intros r. apply triple_pure. intros Hdiff. case_bool_decide as Ed; cbn [negb]; [|apply HF; done].
  assert (Digest sha256_hex u = diffID) as Hdu.
  { destruct r as [[a m]|]; [|done]. simpl in Ed. injection Ed as <-. symmetry. by eapply Hdiff. }
  apply (triple_bind _ _ _ (fun f d => f = u /\ d = <[t := u]> d1)).
  { eapply triple_weaken; [apply triple_ReadData| |by intros d ->]. intros [f|e] d [-> H]; [|done].
    specialize (H f eq_refl). rewrite lookup_insert_eq in H. by injection H as ->. }
  intros f. apply triple_pure. intros ->.
  destruct (check_entries entries (tar_read u)) as [entries'|e] eqn:Ec; [|apply HF; done].
  destruct (apply tree u) as [res tree'] eqn:Ea.
  apply (triple_bind _ _ _ (fun e d => exists tree2, (e = Ok tt -> res = Ok tt /\ tree2 = tree') /\
     spared dest d0 d /\ d !! dest = Some tree2)).
  { apply triple_try. unfold Apply. apply triple_os.
    - intros _ d ->. rewrite HD, Ea. simpl. exists tree'. split_and!; [by intros ->|by apply spared_dest|apply lookup_insert_eq].
    - intros d e n' ->. rewrite HD. exists (apply_part n' tree u). split_and!; [done|by apply spared_dest|apply lookup_insert_eq].
    - intros d n' ->. rewrite HD. by apply spared_dest. }
  intros e. apply triple_exists. intros tree2. apply triple_pure. intros He.
  apply (triple_bind _ _ _ (fun _ d => spared dest d0 d /\ d !! dest = Some tree2)).
  { eapply triple_weaken; [apply (triple_unspool t d0 tree2 Ht)| |done]. intros [r'|e'] d (Hr' & ? & ?); done. }
  intros _. apply triple_lift_seq; [intros e' d _ [? _]; done|]. intros [] Hok s [Hs1 Hs2]. simpl.
  destruct (He Hok) as [-> ->]. split; [done|]. exists u, tree'.
  rewrite int64_id by (unfold in_int64, two63, max_int64; lia).
  split_and!; try done; try lia.
  exists h, c. rewrite <-(spared_blob d0 d1 h Hs). split_and!; try done.
Qed.

Definition progress (d0 : disk) (img : Image) (tree0 : string) (i : nat) (st : Z * Z) (d : disk) : Prop :=
  exists us tree,
    Forall2 (fun x u => expands d0 carrier (fst x) (snd x) u) (take i (zip (i_Layers img) (i_DiffIDs img))) us /\
    fst st = total_size us /\ fst st <= maxBytes /\ check_entries 0 (us ≫= tar_read) = Ok (snd st) /\
    apply_all apply tree0 us = Some tree /\ d !! dest = Some tree /\ spared dest d0 d.

Lemma progress_step (d0 : disk) (img : Image) (tree0 : string) (i : nat) (st : Z * Z) (x : Descriptor * string) :
  zip (i_Layers img) (i_DiffIDs img) !! i = Some x ->
  triple (progress d0 img tree0 i st) (unpack_layer st x)
    (fun r d => match r with Ok st' => progress d0 img tree0 (S i) st' d | Err _ => spared dest d0 d end)
    (spared dest d0).
Proof.
  intros Hx. apply triple_from. intros d1 (us & tree & HF & Ht & Hm & Hc & Ha & Hd & Hs).
  destruct st as [total entries], x as [l diff]. simpl in *. pose proof (total_size_pos us) as Hp.
  eapply triple_weaken; [apply (triple_unpack_layer d0 d1 total entries l diff tree); [lia|done|done]| |done].
  intros [[total' entries']|e] d [Hs' H]; [|done].
  destruct H as (u & tree' & HE & E1 & E2 & E3 & E4 & E5). exists (us ++ [u]), tree'. simpl. split_and!; try done.
  - rewrite (take_S_r _ _ _ Hx). apply Forall2_app; [done|]. by constructor.
  - rewrite total_size_app. simpl. lia.
  - rewrite bind_app. simpl. rewrite app_nil_r, check_entries_app, Hc. exact E3.
  - rewrite apply_all_app, Ha. simpl. by rewrite E4.
Qed.

Lemma triple_Unpack (d0 : disk) (tree0 : string) :
  d0 !! dest = Some tree0 ->
  triple (fun d => d = d0) (Unpack K sha256_hex unmarshal gunzip unzstd tar_read apply apply_part carrier dest maxBytes)
    (fun r d => spared dest d0 d /\ (r = Ok tt -> exists c img tree,
       d0 !! (carrier, "image.json") = Some c /\ unmarshal c = Ok img /\ d !! dest = Some tree /\
       unpacked sha256_hex gunzip unzstd tar_read apply d0 carrier maxBytes img tree0 tree))
    (spared dest d0).
Proof.
  intros Hd. unfold Unpack.
  apply (triple_bind _ _ _ (fun img d => (exists c, d0 !! (carrier, "image.json") = Some c /\ unmarshal c = Ok img) /\ d = d0)).
  { eapply triple_weaken; [apply triple_ReadJSON| |by intros d ->]. intros [img|e] d [-> H]; [|by split].
    split; [by apply H|done]. }
  intros img. apply triple_pure. intros (c & Hc & Hi).
  destruct (_ || _) eqn:E; [intros s Hs; simpl; rewrite Hs; by split|]. bool_prop. apply Nat.eqb_eq in H.
  assert (length (zip (i_Layers img) (i_DiffIDs img)) = length (i_Layers img)) as HL.
  { rewrite length_zip_with. lia. }
  apply (triple_bind _ _ _ (fun st d => progress d0 img tree0 (length (i_Layers img)) st d)).
  - eapply triple_conseq; [apply (triple_foldM_list (progress d0 img tree0) _ (0, 0) (zip (i_Layers img) (i_DiffIDs img))
      (fun r d => match r with Ok st => progress d0 img tree0 (length (i_Layers img)) st d | Err _ => spared dest d0 d end)
      (spared dest d0))| | |done].
    + intros i st x Hx. by apply progress_step.
    + intros st d Hp. by rewrite HL in Hp.
    + intros d ->. exists [], tree0. simpl. split_and!; try done; lia.
    + intros [st|e] d Hp; [done|]. by split.
  - intros st s Hp. simpl. destruct Hp as (us & tree & HF & Ht & Hm & Hck & Ha & Hdt & Hs). split; [done|].
    intros _. exists c, img, tree. split_and!; try done. exists us, (snd st).
    rewrite take_ge in HF by lia. split_and!; try done; [|lia]. apply Forall2_length in HF. lia.
Qed.
End Proofs.

(** C17. Unpacking never applies anything that was not verified: when it succeeds,
    the tree is the application, in order, of all layers of the image on the
    carrier, each with the digest and size of its descriptor and the
    uncompressed digest of the image, together at most [maxBytes] expanded and
    200000 entries, all under relative names without [..] and none a device or
    FIFO.  On every outcome, also when the process dies in the middle, only the
    destination and spool files have changed. *)
Theorem Unpack_correct (K : Kernel) (sha256_hex : string -> string) (unmarshal : string -> result Image)
    (gunzip unzstd : string -> result Stream) (tar_read : string -> list (result tarheader))
    (apply : string -> string -> result unit * string) (apply_part : nat -> string -> string -> string)
    (carrier : string) (dest : path) (maxBytes : Z) (tree0 : string) (s s' : FS) (o : outcome unit) :
  0 <= maxBytes < 2 ^ 62 -> HasPrefix (snd dest) ".layer-" = false ->
  fst dest <> carrier /\ fst dest <> blobs carrier -> fs_files s !! dest = Some tree0 ->
  Unpack K sha256_hex unmarshal gunzip unzstd tar_read apply apply_part carrier dest maxBytes s = (o, s') ->
  spared dest (fs_files s) (fs_files s') /\
  (o = Ret (Ok tt) -> exists c img us tree,
     fs_files s !! (carrier, "image.json") = Some c /\ unmarshal c = Ok img /\
     Forall2 (fun x u => expands sha256_hex gunzip unzstd (fs_files s) carrier (fst x) (snd x) u)
       (zip (i_Layers img) (i_DiffIDs img)) us /\
     length us = length (i_Layers img) /\ total_size us <= maxBytes /\
     (let entries := us ≫= tar_read in
      Z.of_nat (length entries) <= max_inodes /\
      Forall (fun r => exists h, r = Ok h /\ IsAbs (th_Name h) = false /\ th_Flag h = TOther /\
                Forall plain_elem (clean_elems (th_Name h))) entries) /\
     apply_all apply tree0 us = Some tree /\ fs_files s' !! dest = Some tree).
Proof.
  intros Hm Hp Hc Hd E.
  pose proof (triple_Unpack K sha256_hex unmarshal gunzip unzstd tar_read apply apply_part carrier dest maxBytes
    Hm Hp Hc (fs_files s) tree0 Hd s eq_refl) as H. rewrite E in H. destruct o as [r|]; [|by split].
  destruct H as [Hs Hok]. split; [done|]. intros [= ->].
  destruct (Hok eq_refl) as (c & img & tree & H1 & H2 & H3 & us & n & HF & Hl & Ht & Hck & Ha).
  exists c, img, us, tree.
  apply check_entries_ok in Hck as (-> & Hb & HFo); [|unfold max_inodes; lia]. split_and!; try done; lia.
Qed.

Module UnpackSample.
Definition sha : string -> string := OciStore.Sample.sha.
Definition layer : string := "tar".
Definition image : Image :=
  mkImage "alpine" "" (mkImageConfig [] [] [] "" "" "" [] false)
    [mkDescriptor (Digest sha layer) 3 "application/vnd.oci.image.layer.v1.tar"] [Digest sha layer] "".
Definition unmarshal (_ : string) : result Image := Ok image.
Definition nothing (_ : string) : result Stream := Err (Errorf "invalid header").
Definition tar_read (_ : string) : list (result tarheader) := [Ok (mkTarheader "etc/passwd" TOther)].
Definition apply (tree layer : string) : result unit * string := (Ok tt, tree +:+ layer).
Definition apply_part (_ : nat) (tree _ : string) : string := tree.
Definition state : FS :=
  mkFS (<[("/app-image", "image.json") := "{}"]> (<[("/app-image/blobs", sha layer) := layer]>
        {[("/state", "unpack") := ""]})) 0.
Definition run : outcome unit * FS :=
  Unpack calm sha unmarshal nothing nothing tar_read apply apply_part "/app-image" ("/state", "unpack") 1000 state.

Lemma run_ok : fst run = Ret (Ok tt).
Proof. vm_cast_no_check (@eq_refl (outcome unit) (Ret (Ok tt))). Qed.
End UnpackSample.

Lemma Unpack_correct_witness :
  fst UnpackSample.run = Ret (Ok tt) /\
  exists us tree, apply_all UnpackSample.apply "" us = Some tree /\ length us = 1%nat /\
    fs_files (snd UnpackSample.run) !! ("/state", "unpack") = Some tree.
Proof.
  destruct (Unpack_correct calm UnpackSample.sha UnpackSample.unmarshal UnpackSample.nothing UnpackSample.nothing
    UnpackSample.tar_read UnpackSample.apply UnpackSample.apply_part "/app-image" ("/state", "unpack") 1000 ""
    UnpackSample.state (snd UnpackSample.run) (fst UnpackSample.run)) as (_ & H).
  - split; [lia|reflexivity].
  - reflexivity.
  - split; discriminate.
  - reflexivity.
  - apply surjective_pairing.
  - split; [exact UnpackSample.run_ok|].
    destruct (H UnpackSample.run_ok) as (c & img & us & tree & _ & H2 & _ & Hl & _ & _ & Ha & Hd).
    exists us, tree. injection H2 as <-. split; [exact Ha|split; [exact Hl|exact Hd]].
Defined.
