(* ===== verification/GuestInit.v ===== *)
(** * GuestInit: booting the guest (internal/guest/init.go)

    [Initialize] mounts the guest's file systems and reads the bootstrap record;
    [Prepare] unpacks the image once, mounts the root file system and the
    volumes, and sets up the network.  The files are those of [Fs]; mounts and
    commands leave them unchanged, and the programs return what they mounted
    and ran, in order.  A run may be cut short at any call; the disk is then taken
    to hold the writes made up to that call.  The code does not sync the unpacked
    tree before it writes the marker, so a machine that loses its cache may keep
    less than that. *)

From S2P Require Import Prelude GoLib Api Fsutil Fs Oci OciStore Unpack Network Firecracker RuntimeSpec.
Import Strings Strconv Path.
Local Open Scope Z_scope.
Local Open Scope go_scope.

Record Bootstrap : Type := mkBootstrap {
  b_Protocol : Z; b_ID : string; b_Generation : Z; b_Token : string;
  b_Certificate : string; b_PrivateKey : string; b_CA : string; b_Sandbox : Sandbox }.

Record mountcmd : Type := mkMountcmd {
  mc_source : string; mc_target : string; mc_kind : string; mc_ro : bool; mc_data : string }.

Definition EBUSY : error := Errorf "device or resource busy".

Section Init.
Variable K : Kernel.

(** [mount]: a target that is already mounted is accepted. *)
Definition mount (c : mountcmd) : M mountcmd :=
  nop K ;;
  r ← try (nop K);
  match r with
  | Ok _ => mret c
  | Err e => if bool_decide (e = EBUSY) then mret c else lift (Err e)
  end.

(** A list of mounts, in order. *)
Definition mounts (l : list mountcmd) : M (list mountcmd) :=
  foldM (fun done c => c ← mount c; mret (done ++ [c])) [] l.

(** [os.MkdirAll] and [os.Mkdir] on a directory that is one entry of the map. *)
Definition MkdirAll (p : path) : M unit :=
  os K (fun _ d => (Ok tt, match d !! p with Some _ => d | None => <[p := ""]> d end)) untouched.
Definition Mkdir (p : path) : M unit :=
  os K (fun _ d => match d !! p with Some _ => (Err ErrExists, d) | None => (Ok tt, <[p := ""]> d) end) untouched.

(** [os.Rename] of a directory: the target must be missing or empty. *)
Definition RenameDir (a b : path) : M unit :=
  os K (fun _ d =>
    match d !! a with
    | None => (Err ErrNotExist, d)
    | Some tree =>
        if bool_decide (d !! b = None \/ d !! b = Some "") then (Ok tt, <[b := tree]> (delete a d))
        else (Err (Errorf "directory not empty"), d)
    end) untouched.

(** [os.RemoveAll]; [remove_part] is what an interrupted removal leaves. *)
Variable remove_part : nat -> string -> string.
Definition RemoveAll (p : path) : M unit :=
  os K (fun _ d => (Ok tt, delete p d))
       (fun n d => match d !! p with Some tree => <[p := remove_part n tree]> d | None => d end).

(** [os.WriteFile]: an interrupted one leaves a part. *)
Definition WriteFile (p : path) (data : string) : M unit :=
  os K (fun _ d => (Ok tt, <[p := data]> d)) (fun n d => <[p := take_str n data]> d).

(** ** [Initialize] *)

Definition system_mounts : list mountcmd :=
  (fun '(s, t, k) => mkMountcmd s t k false "") <$>
  [("devtmpfs", "/dev", "devtmpfs"); ("devpts", "/dev/pts", "devpts"); ("proc", "/proc", "proc");
   ("sysfs", "/sys", "sysfs"); ("tmpfs", "/run", "tmpfs"); ("tmpfs", "/tmp", "tmpfs");
   ("cgroup2", "/sys/fs/cgroup", "cgroup2")].

Definition bootstrap_mount : mountcmd := mkMountcmd "/dev/vdb" "/bootstrap" "ext4" true "".
Definition image_mount : mountcmd := mkMountcmd "/dev/vdc" "/app-image" "ext4" true "".
Definition state_mount : mountcmd := mkMountcmd "/dev/vdd" "/state" "ext4" false "".

Definition Initialize (unmarshal : string -> result Bootstrap) (pid : Z) : M (Bootstrap * list mountcmd) :=
  if negb (pid =? 1) then lift (Err (Errorf "guest init must be PID 1; refusing host execution")) else
  m1 ← mounts system_mounts;
  m2 ← mount bootstrap_mount;
  b ← ReadJSON K unmarshal ("/bootstrap", "bootstrap.json");
  if negb (b_Protocol b =? Protocol) || negb (bool_decide (b_ID b = sb_ID (b_Sandbox b)))
  then lift (Err (Errorf "bootstrap identity mismatch")) else
  m3 ← mount image_mount;
  m4 ← mount state_mount;
  mapM_ MkdirAll [("/run", "niflhel"); ("/state", "bundle"); ("/state", "upper"); ("/state", "work"); ("/state", "lower")] ;;
  try (nop K) ;;
  nop K ;;
  try (nop K) ;;
  mret (b, m1 ++ [m2; m3; m4]).

(** ** [Prepare] *)

Definition marker : path := ("/state", "image.digest").
Definition lower : path := ("/state", "lower").
Definition unpack : path := ("/state", "unpack").
Definition carrier : string := "/app-image".

Definition overlay_mount : mountcmd :=
  mkMountcmd "overlay" "/state/bundle/rootfs" "overlay" false
    "lowerdir=/state/lower,upperdir=/state/upper,workdir=/state/work".

(** [fmt.Sprintf("/dev/vd%c", 'e'+i)] *)
Definition volume_device (i : nat) : string := "/dev/vd" +:+ String (ascii_of_nat (101 + i)) "".

Definition guest_volume (i : nat) (v : Mount) : mountcmd :=
  mkMountcmd (volume_device i) ("/run/niflhel/volumes/" +:+ Itoa (Z.of_nat i)) "ext4" (m_ReadOnly v) "".

Definition network_plan : list (list string) :=
  [["ip"; "link"; "set"; "lo"; "up"]; ["ip"; "addr"; "add"; "172.30.0.2/30"; "dev"; "eth0"];
   ["ip"; "link"; "set"; "eth0"; "up"]; ["ip"; "route"; "add"; "default"; "via"; "172.30.0.1"];
   ["ip"; "netns"; "add"; "app"]; ["ip"; "link"; "add"; "veth0"; "type"; "veth"; "peer"; "name"; "veth1"];
   ["ip"; "link"; "set"; "veth1"; "netns"; "app"];
   ["ip"; "addr"; "add"; "10.0.0.1/30"; "dev"; "veth0"]; ["ip"; "link"; "set"; "veth0"; "up"];
   ["ip"; "-n"; "app"; "addr"; "add"; "10.0.0.2/30"; "dev"; "veth1"];
   ["ip"; "-n"; "app"; "link"; "set"; "veth1"; "up"]; ["ip"; "-n"; "app"; "link"; "set"; "lo"; "up"];
   ["ip"; "-n"; "app"; "route"; "add"; "default"; "via"; "10.0.0.1"];
   ["sysctl"; "-qw"; "net.ipv4.ip_forward=1"]; ["sysctl"; "-qw"; "net.ipv6.conf.all.disable_ipv6=1"];
   ["iptables"; "-t"; "nat"; "-A"; "POSTROUTING"; "-s"; "10.0.0.2"; "-o"; "eth0"; "-j"; "MASQUERADE"]].

Definition port_rule (p : Port) : list string :=
  ["iptables"; "-t"; "nat"; "-A"; "PREROUTING"; "-i"; "eth0"; "-p"; "tcp"; "--dport"; Itoa (p_ContainerPort p);
   "-j"; "DNAT"; "--to-destination"; "10.0.0.2:" +:+ Itoa (p_ContainerPort p)].

(** [run], and the commands of [prepareNetwork] in order. *)
Definition guest_run (c : list string) : M (list string) := nop K ;; mret c.
Definition prepareNetwork (b : Bootstrap) : M (list (list string)) :=
  foldM (fun done c => c ← guest_run c; mret (done ++ [c])) []
    (network_plan ++ (port_rule <$> s_Ports (sb_Spec (b_Sandbox b)))).

Section Prepare.
Variable sha256_hex : string -> string.
Variable unmarshal : string -> result Image.
Variables gunzip unzstd : string -> result Stream.
Variable tar_read : string -> list (result tarheader).
Variable apply : string -> string -> result unit * string.
Variable apply_part : nat -> string -> string -> string.

(** The branch of [Prepare] for an image that is not unpacked yet. *)
Definition refresh (b : Bootstrap) : M unit :=
  try (RemoveAll lower) ;;
  try (RemoveAll unpack) ;;
  Mkdir unpack ;;
  Unpack K sha256_hex unmarshal gunzip unzstd tar_read apply apply_part carrier unpack
    (s_DiskSize (sb_Spec (b_Sandbox b)) ÷ 2) ;;
  RenameDir unpack lower ;;
  Atomic K marker (sb_ImageDigest (b_Sandbox b)).

Record prepared : Type := mkPrepared { pp_mounts : list mountcmd; pp_commands : list (list string) }.

(** [Prepare] after the marker was read. *)
Definition prepare_from (b : Bootstrap) (content : string) : M prepared :=
  let spec := sb_Spec (b_Sandbox b) in
  (if bool_decide (content = sb_ImageDigest (b_Sandbox b)) then mret tt else refresh b) ;;
  m1 ← mount overlay_mount;
  m2 ← mounts (imap guest_volume (s_Mounts spec));
  x ← (if bool_decide (s_Network spec = "bridge") then
         let dns := match For (b_ID b) (sb_Slot (b_Sandbox b)) with Ok n => n_HostIP n | Err _ => "" end in
         cs ← prepareNetwork b; mret (dns, cs)
       else mret ("127.0.0.1", []));
  WriteFile ("/run/niflhel", "resolv.conf")
    ("nameserver " +:+ fst x +:+ String newline "options timeout:2 attempts:2" +:+ String newline "") ;;
  mret (mkPrepared (m1 :: m2) (snd x)).

(** [Prepare]; an error of reading the marker is ignored.  Writes count as on
    the disk when their call returns. *)
Definition guest_Prepare (b : Bootstrap) : M prepared :=
  content ← try (ReadData K marker);
  prepare_from b (match content with Ok c => c | Err _ => "" end).
End Prepare.
End Init.

(** ** Volumes from the host to the container *)

(** The device a drive of the VM configuration appears as: virtio block devices
    are named in the order of the drives. *)
Definition drive_device (k : nat) : string := "/dev/vd" +:+ String (ascii_of_nat (97 + k)) "".

Lemma drive_devices_distinct (n : nat) : (n <= 26)%nat -> NoDup (drive_device <$> seq 0 n).
Proof.
  intros Hn. assert (NoDup (drive_device <$> seq 0 26)) as H.
  { apply (bool_decide_unpack _). vm_cast_no_check I. }
  replace 26%nat with (n + (26 - n))%nat in H by lia. rewrite seq_app, fmap_app in H.
  by apply NoDup_app in H as (? & _ & _).
Qed.

Lemma lookup_app_shift {A} (l k : list A) (n i : nat) : length l = n -> (l ++ k) !! (n + i)%nat = k !! i.
Proof. intros <-. rewrite lookup_app_r by lia. by replace (length l + i - length l)%nat with i by lia. Qed.

(** C19. Drives, guest mounts and container mounts agree: the bootstrap, image and
    state disks are mounted from the devices their drives appear as, the first
    two read-only; and the disk of every volume is the drive whose device the
    guest mounts at the place the runtime binds to the target of the volume,
    read-only at every stage exactly when the volume is; no two drives share a
    device. *)
Theorem volumes_wired (open : string -> result string) (s : Sandbox) (root netns : string) (c : RtSpec) :
  Validate (sb_Spec s) = Ok tt -> Build open s root netns = Ok c ->
  NoDup (drive_device <$> seq 0 (length (vc_Drives (BuildConfig s)))) /\
  (forall k m, [bootstrap_mount; image_mount; state_mount] !! k = Some m ->
     exists d, vc_Drives (BuildConfig s) !! S k = Some d /\ mc_source m = drive_device (S k) /\ mc_ro m = d_ReadOnly d) /\
  (forall i v, s_Mounts (sb_Spec s) !! i = Some v ->
     exists d g r,
       vc_Drives (BuildConfig s) !! (4 + i)%nat = Some d /\ d_Path d = "/" +:+ volume_id i +:+ ".ext4" /\
       imap guest_volume (s_Mounts (sb_Spec s)) !! i = Some g /\ mc_source g = drive_device (4 + i) /\
       rs_Mounts c !! (6 + i)%nat = Some r /\ rm_Source r = mc_target g /\ rm_Destination r = m_Target v /\
       d_ReadOnly d = m_ReadOnly v /\ mc_ro g = m_ReadOnly v /\ ("ro" ∈ rm_Options r <-> m_ReadOnly v = true)).
Proof.
  intros Hv HB. apply Validate_iff in Hv. unfold Build in HB. ok_inv. cbn [rs_Mounts]. split_and!.
  - apply drive_devices_distinct. cbn [BuildConfig vc_Drives]. rewrite length_app, length_imap.
    pose proof (vs_mount_count _ Hv). simpl. lia.
  - intros k m Hk. destruct k as [|[|[|k]]]; [| | |done]; injection Hk as <-; eexists; done.
  - intros i v Hi. eexists _, _, (volume_mount i v). cbn [BuildConfig vc_Drives].
    split; [rewrite (lookup_app_shift _ _ 4) by done; rewrite list_lookup_imap, Hi; reflexivity|].
    split; [done|]. split; [rewrite list_lookup_imap, Hi; reflexivity|]. split; [done|].
    split; [refine (eq_trans (lookup_app_shift fixed_mounts (imap volume_mount _) 6 i eq_refl) _);
      rewrite list_lookup_imap, Hi; reflexivity|].
    split_and!; try done; simpl; destruct (m_ReadOnly v); set_solver.
Qed.

(** ** The image is unpacked once *)

Section PrepareProofs.
Context (K : Kernel) (remove_part : nat -> string -> string) (sha256_hex : string -> string).
Context (unmarshal : string -> result Image) (gunzip unzstd : string -> result Stream).
Context (tar_read : string -> list (result tarheader)).
Context (apply : string -> string -> result unit * string) (apply_part : nat -> string -> string -> string).
Context (b : Bootstrap).
#[local] Notation digest := (sb_ImageDigest (b_Sandbox b)).
#[local] Notation maxBytes := (s_DiskSize (sb_Spec (b_Sandbox b)) ÷ 2).
Hypothesis disk_range : 0 <= s_DiskSize (sb_Spec (b_Sandbox b)) < 2 ^ 62.

(** The lower directory is the whole image of the carrier. *)
Definition complete (d : disk) : Prop :=
  exists c img tree, d !! (carrier, "image.json") = Some c /\ unmarshal c = Ok img /\ d !! lower = Some tree /\
    unpacked sha256_hex gunzip unzstd tar_read apply d carrier maxBytes img "" tree.

(** The marker is never there without the image. *)
Definition marked (d : disk) : Prop := d !! marker = Some digest -> complete d.

Definition same_carrier (d0 d : disk) : Prop :=
  forall n, d !! (carrier, n) = d0 !! (carrier, n) /\ d !! (blobs carrier, n) = d0 !! (blobs carrier, n).

Lemma unpacked_same (d0 d : disk) (img : Image) (tree0 tree : string) :
  same_carrier d0 d ->
  unpacked sha256_hex gunzip unzstd tar_read apply d0 carrier maxBytes img tree0 tree ->
  unpacked sha256_hex gunzip unzstd tar_read apply d carrier maxBytes img tree0 tree.
Proof.
  intros Hs (us & n & HF & H). exists us, n. split; [|done]. eapply Forall2_impl; [exact HF|].
  intros x u (h & c & H1 & H2 & H3). exists h, c. split_and!; [done|by rewrite (proj2 (Hs h))|apply H3..].
Qed.

(** What is reached from [d0] without touching marker and carrier. *)
Definition working (d0 d : disk) : Prop := same_carrier d0 d /\ d !! marker = d0 !! marker.

Lemma working_refl (d : disk) : working d d.
Proof. split; [intros n; done|done]. Qed.

Lemma working_other (d0 d d' : disk) :
  working d0 d -> (forall q, q <> marker -> fst q <> "/state" -> d' !! q = d !! q) -> d' !! marker = d !! marker ->
  working d0 d'.
Proof.
  intros [H1 H2] Hq Hm. split; [|by rewrite Hm]. intros n. destruct (H1 n) as [E1 E2].
  split; [rewrite Hq, E1|rewrite Hq, E2]; done.
Qed.

Lemma working_state (d0 d : disk) (p : path) (f : disk -> disk) :
  fst p = "/state" -> p <> marker -> (forall q, q <> p -> f d !! q = d !! q) -> working d0 d -> working d0 (f d).
Proof.
  intros Hp Hm Hf H. eapply working_other; [exact H| |by apply Hf].
  intros q Hq1 Hq2. apply Hf. intros ->. done.
Qed.

Lemma working_marked (d0 d : disk) : working d0 d -> d0 !! marker <> Some digest -> marked d.
Proof. intros [_ H] Hn Hm. congruence. Qed.

Lemma working_spared (d0 d1 d : disk) : working d0 d1 -> spared unpack d1 d -> working d0 d.
Proof.
  intros HW HS. eapply working_other; [exact HW| |].
  - intros q Hq1 Hq2. apply HS; [intros ->; done|]. intros [E _]. done.
  - apply HS; [done|]. intros [_ E]. vm_compute in E. done.
Qed.

Lemma triple_RemoveAll_working (d0 : disk) (p : path) :
  fst p = "/state" -> p <> marker ->
  triple (working d0) (try (RemoveAll K remove_part p))
    (fun r d => is_ok r = true /\ working d0 d) (working d0).
Proof.
  intros Hp Hm. apply triple_try. unfold RemoveAll. apply triple_os.
  - intros _ d Hd. simpl. split; [done|]. apply (working_state d0 d p (delete p)); try done.
    intros q Hq. by apply lookup_delete_ne.
  - intros d e n Hd. split; [done|]. destruct (d !! p) as [tree|]; [|done].
    apply (working_state d0 d p (insert p (remove_part n tree))); try done. intros q Hq. by apply lookup_insert_ne.
  - intros d n Hd. destruct (d !! p) as [tree|]; [|done].
    apply (working_state d0 d p (insert p (remove_part n tree))); try done. intros q Hq. by apply lookup_insert_ne.
Qed.

#[local] Notation run_refresh := (refresh K remove_part sha256_hex unmarshal gunzip unzstd tar_read apply apply_part b).

(** Unpacking anew: on success the image is complete and marked; otherwise it
    is not marked, or it is complete. *)
Lemma triple_refresh (d0 : disk) :
  d0 !! marker <> Some digest ->
  triple (fun d => d = d0) run_refresh
    (fun r d => marked d /\ (r = Ok tt -> d !! marker = Some digest /\ complete d)) marked.
Proof.
  intros Hn. pose proof (fun d H => working_marked d0 d H Hn) as HM.
  unfold refresh.
  apply (triple_bind _ _ _ (fun _ => working d0)).
  { eapply triple_conseq; [by apply (triple_RemoveAll_working d0 lower)|intros d ->; apply working_refl| |exact HM].
    intros [r|e] d [H1 H2]; done. }
  intros _. apply (triple_bind _ _ _ (fun _ => working d0)).
  { eapply triple_weaken; [by apply (triple_RemoveAll_working d0 unpack)| |exact HM]. intros [r|e] d [H1 H2]; done. }
  intros _. apply (triple_bind _ _ _ (fun _ d => working d0 d /\ d !! unpack = Some "")).
  { unfold Mkdir. apply triple_os.
    - intros _ d Hd. destruct (d !! unpack); simpl; [split; [by apply HM|done]|]. split; [|apply lookup_insert_eq].
      apply (working_state d0 d unpack (insert unpack "")); try done. intros q Hq. by apply lookup_insert_ne.
    - intros d e n Hd. split; [by apply HM|done].
    - intros d n Hd. by apply HM. }
  intros _. apply (triple_bind _ _ _ (fun _ d => working d0 d /\ exists c img tree,
     d !! (carrier, "image.json") = Some c /\ unmarshal c = Ok img /\ d !! unpack = Some tree /\
     unpacked sha256_hex gunzip unzstd tar_read apply d carrier maxBytes img "" tree)).
  { apply triple_from. intros d1 [HW Hu]. eapply triple_weaken.
    - apply (triple_Unpack K sha256_hex unmarshal gunzip unzstd tar_read apply apply_part carrier unpack maxBytes) with (tree0 := "").
      + rewrite Z.quot_div_nonneg by lia. split; [apply Z.div_pos; lia|].
        assert (s_DiskSize (sb_Spec (b_Sandbox b)) / 2 <= s_DiskSize (sb_Spec (b_Sandbox b))); [|lia].
        apply Z.div_le_upper_bound; lia.
      + done.
      + done.
      + exact Hu.
    - intros [[]|e] d [HS Hok]; pose proof (working_spared d0 d1 d HW HS) as HW'; [|split; [by apply HM|done]].
      split; [done|]. destruct (Hok eq_refl) as (c & img & tree & H1 & H2 & H3 & H4). exists c, img, tree.
      assert (same_carrier d1 d) as HC.
      { intros n. destruct HW as [HC1 _], HW' as [HC2 _]. destruct (HC1 n) as [-> ->], (HC2 n) as [-> ->]. done. }
      split_and!; [by rewrite (proj1 (HC _))|done|done|by eapply unpacked_same].
    - intros d HS. apply HM. by eapply working_spared. }
  intros _. apply (triple_bind _ _ _ (fun _ d => d !! marker <> Some digest /\ complete d)).
  { unfold RenameDir. apply triple_os.
    - intros _ d (HW & c & img & tree & H1 & H2 & H3 & H4). rewrite H3.
      case_bool_decide; simpl; [|split; [by apply HM|done]].
      assert (working d0 (<[lower := tree]> (delete unpack d))) as HW'.
      { apply (working_state d0 (delete unpack d) lower (insert lower tree)); try done.
        - intros q Hq. by apply lookup_insert_ne.
        - apply (working_state d0 d unpack (delete unpack)); try done. intros q Hq. by apply lookup_delete_ne. }
      split; [rewrite (proj2 HW'); done|]. exists c, img, tree.
      assert (same_carrier d (<[lower := tree]> (delete unpack d))) as HC.
      { intros n. destruct HW as [HC1 _], HW' as [HC2 _]. destruct (HC1 n) as [-> ->], (HC2 n) as [-> ->]. done. }
      split_and!; [by rewrite (proj1 (HC _))|done|apply lookup_insert_eq|by eapply unpacked_same].
    - intros d e n (HW & _). split; [by apply HM|done].
    - intros d n (HW & _). by apply HM. }
  intros _. apply triple_from. intros d1 [Hm1 HC1].
  assert (forall d, (forall q, q <> marker -> ~ is_temp "/state" ".pending-" q -> d !! q = d1 !! q) -> complete d) as HCd.
  { intros d Hq. destruct HC1 as (c & img & tree & H1 & H2 & H3 & H4). exists c, img, tree.
    split_and!; [rewrite Hq; [done|done|]|done|rewrite Hq; [done|done|]|eapply unpacked_same; [|exact H4]].
    - intros [E _]. done.
    - intros [_ E]. vm_compute in E. done.
    - intros n. split; apply Hq; try done; intros [E _]; done. }
  assert (forall d, replaced ".pending-" marker digest d1 d -> marked d) as HR.
  { intros d [->|[->|(t & c & Ht & _ & ->)]] _; apply HCd; intros q Hq1 Hq2; [done|by apply lookup_insert_ne|].
    apply lookup_insert_ne. intros ->. done. }
  eapply triple_weaken; [by apply (triple_Atomic K marker digest d1)| |exact HR].
  intros [[]|e] d H; [|split; [by apply HR|done]]. subst d.
  assert (complete (<[marker := digest]> d1)) as HC by (apply HCd; intros q Hq1 _; by apply lookup_insert_ne).
  split; [by intros _|]. intros _. split; [apply lookup_insert_eq|done].
Qed.

(** The rest of [Prepare] leaves marker, carrier and lower directory alone. *)
Definition settled (d0 d : disk) : Prop :=
  same_carrier d0 d /\ d !! marker = d0 !! marker /\ d !! lower = d0 !! lower.

Lemma settled_complete (d0 d : disk) : settled d0 d -> complete d0 -> complete d.
Proof.
  intros (HC & _ & Hl) (c & img & tree & H1 & H2 & H3 & H4). exists c, img, tree.
  split_and!; [by rewrite (proj1 (HC _))|done|by rewrite Hl|by eapply unpacked_same].
Qed.

Lemma settled_marked (d0 d : disk) : settled d0 d -> marked d0 -> marked d.
Proof. intros HS HM H. eapply settled_complete; [done|]. apply HM. by rewrite <-(proj1 (proj2 HS)). Qed.

Lemma triple_mount (c : mountcmd) (P : disk -> Prop) :
  triple P (mount K c) (fun r d => P d /\ forall c', r = Ok c' -> c' = c) P.
Proof.
  unfold mount. apply triple_nop_seq; [done|done|].
  apply (triple_bind _ _ _ (fun _ => P)); [apply triple_try, triple_nop'; done|].
  intros [[]|e]; [intros s Hs; split; [done|by intros c' [= <-]]|].
  case_bool_decide; intros s Hs; (split; [done|]); [by intros c' [= <-]|done].
Qed.

Lemma triple_guest_run (c : list string) (P : disk -> Prop) :
  triple P (guest_run K c) (fun r d => P d /\ forall c', r = Ok c' -> c' = c) P.
Proof. unfold guest_run. apply triple_nop_seq; [done|done|]. intros s Hs. split; [done|]. by intros c' [= <-]. Qed.

(** A loop that records what it did has done everything, in order. *)
Lemma triple_record {A : Type} (f : A -> M A) (P : disk -> Prop) (done l : list A) :
  (forall a, triple P (f a) (fun r d => P d /\ forall a', r = Ok a' -> a' = a) P) ->
  triple P (foldM (fun done c => c ← f c; mret (done ++ [c])) done l)
    (fun r d => P d /\ forall l', r = Ok l' -> l' = done ++ l) P.
Proof.
  intros Hf. revert done. induction l as [|x l IH]; intros done; simpl.
  { intros s Hs. split; [done|]. intros l' [= <-]. by rewrite app_nil_r. }
  apply (triple_bind _ _ _ (fun done' d => done' = done ++ [x] /\ P d)).
  - apply (triple_bind _ _ _ (fun c d => c = x /\ P d)).
    { eapply triple_weaken; [apply Hf| |done]. intros [a|e] d [Hd Ha]; [split; [by apply Ha|done]|by split]. }
    intros c. apply triple_pure. intros -> s Hs. by split.
  - intros done'. apply triple_pure. intros ->. eapply triple_weaken; [apply IH| |done].
    intros r d [Hd Hl]. split; [done|]. intros l' E. rewrite (Hl l' E), <-app_assoc. done.
Qed.

#[local] Notation run_prepare_from := (prepare_from K remove_part sha256_hex unmarshal gunzip unzstd tar_read apply apply_part b).

Definition resolv (d : disk) (dns : string) : Prop :=
  d !! ("/run/niflhel", "resolv.conf") =
    Some ("nameserver " +:+ dns +:+ String newline "options timeout:2 attempts:2" +:+ String newline "").

Definition dns_address : string :=
  if bool_decide (s_Network (sb_Spec (b_Sandbox b)) = "bridge")
  then match For (b_ID b) (sb_Slot (b_Sandbox b)) with Ok n => n_HostIP n | Err _ => "" end else "127.0.0.1".

Definition guest_commands : list (list string) :=
  if bool_decide (s_Network (sb_Spec (b_Sandbox b)) = "bridge")
  then network_plan ++ (port_rule <$> s_Ports (sb_Spec (b_Sandbox b))) else [].

Definition outcome_of (p : prepared) : Prop :=
  pp_mounts p = overlay_mount :: imap guest_volume (s_Mounts (sb_Spec (b_Sandbox b))) /\ pp_commands p = guest_commands.

Lemma triple_prepare_from (d0 : disk) (content : string) :
  marked d0 -> (content = digest <-> d0 !! marker = Some digest) ->
  triple (fun d => d = d0) (run_prepare_from content)
    (fun r d => marked d /\ forall p, r = Ok p -> d !! marker = Some digest /\ complete d /\ outcome_of p /\ resolv d dns_address)
    marked.
Proof.
  intros HM Hc. unfold prepare_from.
  set (P := fun d : disk => d !! marker = Some digest /\ complete d).
  assert (forall d, P d -> marked d) as HP by (intros d [_ H] _; exact H).
  apply (triple_bind _ _ _ (fun _ => P)).
  { case_bool_decide as E.
    - intros s Hs. cbn. rewrite Hs. split; [by apply Hc|]. by apply HM, Hc.
    - eapply triple_weaken; [apply triple_refresh; by rewrite <-Hc| |done].
      intros [[]|e] d [H1 H2]; [by apply H2|]. by split. }
  intros _. apply (triple_bind _ _ _ (fun m d => m = overlay_mount /\ P d)).
  { eapply triple_weaken; [apply triple_mount| |exact HP]. intros [m|e] d [Hd Hm]; [split; [by apply Hm|done]|].
    split; [by apply HP|done]. }
  intros m1. apply triple_pure. intros ->.
  apply (triple_bind _ _ _ (fun m d => m = imap guest_volume (s_Mounts (sb_Spec (b_Sandbox b))) /\ P d)).
  { eapply triple_weaken; [apply (triple_record (mount K) P); intros a; apply triple_mount| |exact HP].
    intros [m|e] d [Hd Hm]; [split; [by apply Hm|done]|]. split; [by apply HP|done]. }
  intros m2. apply triple_pure. intros ->.
  apply (triple_bind _ _ _ (fun x d => x = (dns_address, guest_commands) /\ P d)).
  { unfold dns_address, guest_commands. case_bool_decide.
    - eapply (triple_bind _ _ _ (fun cs d => cs = network_plan ++ (port_rule <$> s_Ports (sb_Spec (b_Sandbox b))) /\ P d)).
      + eapply triple_weaken; [apply (triple_record (guest_run K) P); intros a; apply triple_guest_run| |exact HP].
        intros [m|e] d [Hd Hm]; [split; [by apply Hm|done]|]. split; [by apply HP|done].
      + intros cs. apply triple_pure. intros -> s Hs. by split.
    - intros s Hs. by split. }
  intros x. apply triple_pure. intros ->.
  assert (forall d c, P d -> P (<[("/run/niflhel", "resolv.conf") := c]> d)) as HW.
  { intros d c [H1 H2]. assert (settled d (<[("/run/niflhel", "resolv.conf") := c]> d)) as HS.
    { split_and!; [intros n; split|..]; by rewrite lookup_insert_ne. }
    split; [by rewrite (proj1 (proj2 HS))|by eapply settled_complete]. }
  apply (triple_bind _ _ _ (fun _ d => P d /\ resolv d dns_address)).
  { unfold WriteFile. apply triple_os.
    - intros _ d Hd. split; [by apply HW|apply lookup_insert_eq].
    - intros d e n Hd. split; [by apply HP, HW|done].
    - intros d n Hd. by apply HP, HW. }
  intros _ s [Hs Hr]. cbn. split; [by apply HP|]. intros p [= <-]. destruct Hs. done.
Qed.
End PrepareProofs.

(** C18. Booting is safe against failing calls: when the marker can be read, and
    whichever of the later calls fail and wherever the run is cut short, the marker
    of an image is never on the state disk without the complete, verified image in
    the lower directory.  Two conditions: reading the marker does not fail (the code
    ignores that failure and removes the image under a marker that is still there),
    and the disk holds the writes made before the run was cut short (the code syncs
    the marker and not the unpacked tree).  A run that returns has the image marked
    and complete, mounted the overlay and every volume on its device, run the whole
    network plan for a bridged sandbox, and pointed the resolver to the gateway. *)
Theorem Prepare_safe (K : Kernel) (remove_part : nat -> string -> string) (sha256_hex : string -> string)
    (unmarshal : string -> result Image) (gunzip unzstd : string -> result Stream)
    (tar_read : string -> list (result tarheader)) (apply : string -> string -> result unit * string)
    (apply_part : nat -> string -> string -> string) (b : Bootstrap) (s s' : FS) (o : Fs.outcome prepared) :
  0 <= s_DiskSize (sb_Spec (b_Sandbox b)) < 2 ^ 62 -> sb_ImageDigest (b_Sandbox b) <> "" ->
  (forall e n, k_answer K (fs_clock s) <> Fault e n) ->
  let M := marked sha256_hex unmarshal gunzip unzstd tar_read apply b in
  let C := complete sha256_hex unmarshal gunzip unzstd tar_read apply b in
  M (fs_files s) ->
  guest_Prepare K remove_part sha256_hex unmarshal gunzip unzstd tar_read apply apply_part b s = (o, s') ->
  M (fs_files s') /\
  (forall p, o = Ret (Ok p) ->
     fs_files s' !! marker = Some (sb_ImageDigest (b_Sandbox b)) /\ C (fs_files s') /\
     outcome_of b p /\ resolv (fs_files s') (dns_address b)).
Proof.
  intros Hr Hne Hread M C HM E. unfold guest_Prepare, mbind, M_bind, try, ReadData, os in E.
  destruct (k_answer K (fs_clock s)) as [|e n|n] eqn:Ek; [|by destruct (Hread e n)|].
  2: { injection E as <- <-. split; [exact HM|done]. }
  set (content := match _ with Ok c => c | Err _ => "" end) in E.
  assert (content = sb_ImageDigest (b_Sandbox b) <-> fs_files s !! marker = Some (sb_ImageDigest (b_Sandbox b))) as Hc.
  { unfold content. destruct (fs_files s !! marker); split; congruence. }
  pose proof (triple_prepare_from K remove_part sha256_hex unmarshal gunzip unzstd tar_read apply apply_part b Hr
    (fs_files s) content HM Hc (mkFS (fs_files s) (S (fs_clock s))) eq_refl) as H.
  rewrite E in H. destruct o as [r|]; [|by split]. destruct H as [H1 H2]. split; [done|]. intros p [= ->].
  by apply H2.
Qed.

Module InitSample.
Definition spec : Spec :=
  mkSpec "alpine" "" "web" [] None [] "" "" 2 (512 * MiB) 4096 256 "bridge" [mkPort "127.0.0.1" 8080 80]
    [mkMount "data" "/var/lib/data" true] "runc" "linux/amd64" "missing" false false false false.
Definition boot : Bootstrap :=
  mkBootstrap 1 "0123456789abcdef0123456789abcdef" 1 "" "" "" ""
    (mkSandbox "0123456789abcdef0123456789abcdef" "web" spec
       (mkProcess ["/bin/sh"] [] "" "/" "SIGTERM" false false)
       "sha256:alpine" "" "running" "" [] 1 0 0 None 0 "" 0 1 false).
Definition state : FS :=
  mkFS (<[("/app-image", "image.json") := "{}"]>
        {[("/app-image/blobs", UnpackSample.sha UnpackSample.layer) := UnpackSample.layer]}) 0.
Definition remove_part (_ : nat) (tree : string) : string := tree.
Definition run : Fs.outcome prepared * FS :=
  guest_Prepare calm remove_part UnpackSample.sha UnpackSample.unmarshal UnpackSample.nothing UnpackSample.nothing
    UnpackSample.tar_read UnpackSample.apply UnpackSample.apply_part boot state.

Lemma returned_ok : match fst run with Fs.Ret (Ok _) => true | _ => false end = true.
Proof. vm_cast_no_check (@eq_refl bool true). Qed.

Lemma returned : exists p, fst run = Fs.Ret (Ok p).
Proof.
  generalize returned_ok. destruct (fst run) as [[p|e]|]; intros H; [exists p; reflexivity|discriminate H|discriminate H].
Qed.
End InitSample.

Lemma volumes_wired_witness :
  exists c, Build RuntimeSpec.Sample.files RuntimeSpec.Sample.sandbox "/state/bundle/rootfs" "/run/netns/app" = Ok c /\
    exists d g r, vc_Drives (BuildConfig RuntimeSpec.Sample.sandbox) !! 4%nat = Some d /\
      mc_source g = drive_device 4 /\ rm_Source r = mc_target g /\ rm_Destination r = "/var/lib/data".
Proof.
  destruct RuntimeSpec.Sample.built as [c Hc]. exists c. split; [exact Hc|].
  assert (Hv : Validate (sb_Spec RuntimeSpec.Sample.sandbox) = Ok tt) by (vm_compute; reflexivity).
  destruct (volumes_wired RuntimeSpec.Sample.files RuntimeSpec.Sample.sandbox "/state/bundle/rootfs" "/run/netns/app" c Hv Hc)
    as (_ & _ & H).
  destruct (H 0%nat (mkMount "data" "/var/lib/data" true) eq_refl) as (d & g & r & H1 & _ & _ & H2 & _ & H3 & H4 & _).
  exists d, g, r. split; [exact H1|split; [exact H2|split; [exact H3|exact H4]]].
Defined.

Lemma Prepare_safe_witness :
  exists p, fst InitSample.run = Fs.Ret (Ok p) /\
    fs_files (snd InitSample.run) !! marker = Some "sha256:alpine".
Proof.
  destruct InitSample.returned as [p Hp]. exists p. split; [exact Hp|].
  destruct (Prepare_safe calm InitSample.remove_part UnpackSample.sha UnpackSample.unmarshal UnpackSample.nothing
    UnpackSample.nothing UnpackSample.tar_read UnpackSample.apply UnpackSample.apply_part InitSample.boot InitSample.state
    (snd InitSample.run) (fst InitSample.run)) as (_ & H).
  - split; [vm_compute; discriminate|vm_compute; reflexivity].
  - vm_compute. discriminate.
  - intros e n. discriminate.
  - intros Hm. vm_compute in Hm. discriminate Hm.
  - apply surjective_pairing.
  - destruct (H p Hp) as (Hd & _). exact Hd.
Defined.
