(* ===== verification/Agent.v ===== *)
(** * Agent: the supervisor inside the guest (internal/guest/agent.go, copy.go)

    The agent runs one container per VM.  Its fields are protected by one
    mutex; every critical section is one atomic transition of [Agent], and the
    answers of the outside world (building the configuration, writing files,
    starting runc, the end of the process) are arguments.  Two ghost fields
    count the runtimes that were launched and list the commands that were
    executed. *)

From S2P Require Import Prelude GoLib Api RuntimeSpec.
Import Strings Strconv Path.
Local Open Scope Z_scope.
Local Open Scope go_scope.

Record Agent : Type := mkAgent {
  a_state : string;
  a_exit : option Exit;
  a_pid : Z;
  a_op : string;
  a_execs : gset string;
  a_stdin : bool;             (* an input of the container is open *)
  a_terminal : bool;
  a_launched : nat;           (* ghost: runtimes started *)
  a_commands : list string    (* ghost: identifiers of executed commands *)
}.

(** [New] *)
Definition New : Agent := mkAgent "ready" None 0 "" ∅ false false 0 [].

Record answers : Type := mkAnswers {
  an_config : result RtSpec;   (* [rt.Build] *)
  an_json : result unit;       (* writing config.json *)
  an_stdin : result unit;      (* [cmd.StdinPipe] *)
  an_launch : result unit      (* [pty.Start] or [cmd.Start] *)
}.

(** [Agent.start] up to the launch of the waiting goroutine, under the lock. *)
Definition start (sandbox : Sandbox) (an : answers) (op : string) (a : Agent) : result unit * Agent :=
  if bool_decide (op = "") then (Err (Errorf "operation ID required"), a)
  else if bool_decide (a_op a = op) then (Ok tt, a)
  else if negb (bool_decide (a_state a = "ready")) then (Err (Errorf "one container per VM; current state %s"), a)
  else match an_config an with
  | Err e => (Err e, a)
  | Ok _ =>
      match an_json an with
      | Err e => (Err e, a)
      | Ok _ =>
          let tty := s_TTY (sb_Spec sandbox) in
          let interactive := s_Interactive (sb_Spec sandbox) in
          let run stdin terminal :=
            mkAgent "running" (a_exit a) (a_pid a) op (a_execs a) stdin terminal (S (a_launched a)) (a_commands a) in
          if tty then
            match an_launch an with Err e => (Err e, a) | Ok _ => (Ok tt, run true true) end
          else
            match (if interactive then an_stdin an else Ok tt) with
            | Err e => (Err e, mkAgent (a_state a) (a_exit a) (a_pid a) (a_op a) (a_execs a) false (a_terminal a)
                                 (a_launched a) (a_commands a))
            | Ok _ =>
                let stdin := interactive || a_stdin a in
                match an_launch an with
                | Err e => (Err e, mkAgent (a_state a) (a_exit a) (a_pid a) (a_op a) (a_execs a) stdin (a_terminal a)
                                     (a_launched a) (a_commands a))
                | Ok _ => (Ok tt, run stdin (a_terminal a))
                end
            end
      end
  end.

(** What [cmd.Wait] returns: success, the exit code and the signal of the
    process, or another error. *)
Inductive waited : Type := WaitOk | WaitExit (code signal : Z) | WaitError.

(** The exit code of the container. *)
Definition exit_code (w : waited) : Z :=
  match w with
  | WaitOk => 0
  | WaitExit code signal => if code <? 0 then int64 (128 + signal) else code
  | WaitError => 125
  end.

(** The exit code of a command in the container. *)
Definition exec_code (w : waited) : Z :=
  match w with
  | WaitOk => 0
  | WaitExit code _ => if code <? 0 then 137 else code
  | WaitError => 125
  end.

(** A line of memory.events that reports a kill. *)
Definition oom_line (line : string) : bool :=
  match Fields line with
  | [k; n] => bool_decide (k = "oom_kill") && negb (bool_decide (n = "0"))
  | _ => false
  end.

Definition exit_of (w : waited) (events : result string) (now : Z) : Exit :=
  let oom := match events with Ok b => existsb oom_line (Split b newline) | Err _ => false end in
  mkExit (Some (exit_code w)) (if oom then "application OOM" else "application exited") oom now.

(** The last critical section of the waiting goroutine. *)
Definition publish (x : Exit) (a : Agent) : Agent :=
  mkAgent "exited" (Some x) (a_pid a) (a_op a) (a_execs a) false (a_terminal a) (a_launched a) (a_commands a).

(** The admission of [Agent.exec]. *)
Definition admit_exec (q : option Exec) (a : Agent) : result Exec * Agent :=
  match q with
  | Some x =>
      if bool_decide (ex_Args x = []) || bool_decide (ex_ID x = "")
      then (Err (Errorf "exec ID and arguments required"), a)
      else if negb (bool_decide (a_state a = "running")) then (Err (Errorf "container not running"), a)
      else if bool_decide (ex_ID x ∈ a_execs a)
      then (Err (Errorf "exec ID already submitted; command will not be replayed"), a)
      else (Ok x, mkAgent (a_state a) (a_exit a) (a_pid a) (a_op a) ({[ex_ID x]} ∪ a_execs a) (a_stdin a) (a_terminal a)
                    (a_launched a) (a_commands a ++ [ex_ID x]))
  | None => (Err (Errorf "exec ID and arguments required"), a)
  end.

(** The process that [Agent.exec] hands to runc. *)
Definition exec_process (open : string -> result string) (s : Sandbox) (root : string) (x : Exec) : result RtProcess :=
  let* cfg := Build open s root "" in
  let p := rs_Process cfg in
  let* cwd := (if bool_decide (ex_Cwd x = "") then Ok (rp_Cwd p)
               else guard IsAbs (ex_Cwd x) else Errorf "exec workdir must be absolute" in Ok (ex_Cwd x)) in
  let* user := (if bool_decide (ex_User x = "") then Ok (rp_User p) else User open (ex_User x)) in
  Ok (mkRtProcess (ex_Args x) (MergeEnv (rp_Env p) (ex_Env x)) cwd user (ex_TTY x) (rp_NoNewPrivileges p)
        (rp_Capabilities p) (rp_Rlimits p)).

(** [streamWriter.Write]: the data of the frames it sends. *)
Fixpoint writer_chunks (fuel : nat) (b : string) : list string :=
  match fuel, b with
  | 0%nat, _ | _, EmptyString => []
  | S fuel, _ => take_str (Z.to_nat 32768) b :: writer_chunks fuel (drop_str (Z.to_nat 32768) b)
  end.
Definition writer_frames (kind b : string) : list Frame :=
  (fun d => mkFrame kind d "" None 0 0 0 0) <$> writer_chunks (String.length b) b.

(** ** Signals *)

Definition signal_names : list (string * Z) :=
  [("TERM", 15); ("KILL", 9); ("INT", 2); ("HUP", 1); ("QUIT", 3); ("USR1", 10); ("USR2", 12); ("WINCH", 28)].

Fixpoint assoc (k : string) (l : list (string * Z)) : option Z :=
  match l with
  | [] => None
  | (k', n) :: l => if bool_decide (k = k') then Some n else assoc k l
  end.

(** [Signal] *)
Definition Signal (s : string) : result Z :=
  let s := TrimPrefix (ToUpper s) "SIG" in
  match assoc s signal_names with
  | Some n => Ok n
  | None =>
      match Atoi s with
      | Err _ => Err (Errorf "invalid signal")
      | Ok n => if (n <? 1) || (64 <? n) then Err (Errorf "invalid signal") else Ok n
      end
  end.

(** [Agent.signal]: the state that was seen under the lock, and the answer of
    runc. *)
Definition agent_signal (running : bool) (kill : result unit) (sig : string) : result unit :=
  let* _ := Signal sig in
  guard running else Errorf "container not running" in
  kill.

(** What [Agent.stop] meets in a round: the state under the lock, and whether
    the context or the timer ended the wait. *)
Inductive tick : Type := Cancelled | Expired | Polled.
Record StopEnv : Type := mkStopEnv {
  se_running : nat -> bool;      (* the n-th look at the state *)
  se_kill : nat -> result unit;  (* [runc kill] after the n-th look *)
  se_tick : nat -> tick
}.

(** The polling loop of [Agent.stop]; the fuel is the number of rounds before
    the timer fires at the latest. *)
Fixpoint stop_loop (env : StopEnv) (fuel t : nat) : option (result unit * nat) :=
  if negb (se_running env t) then Some (Ok tt, t) else
  match se_tick env t with
  | Cancelled => Some (Err (Errorf "context canceled"), t)
  | Expired => Some (agent_signal (se_running env (S t)) (se_kill env (S t)) "SIGKILL", S t)
  | Polled => match fuel with 0%nat => None | S fuel => stop_loop env fuel (S t) end
  end.

(** [Agent.stop] *)
Definition stop (env : StopEnv) (fuel : nat) (stopSignal : string) (seconds : Z) : option (result unit * nat) :=
  if (seconds <? 0) || (300 <? seconds) then Some (Err (Errorf "invalid stop timeout"), 0%nat) else
  if negb (se_running env 0) then Some (Ok tt, 0%nat) else
  let sig := if bool_decide (stopSignal = "") then "SIGTERM" else stopSignal in
  match agent_signal (se_running env 1) (se_kill env 1) sig with
  | Err e => Some (Err e, 1%nat)
  | Ok _ => stop_loop env fuel 2
  end.

(** ** Waiting for the container *)

(** What [Agent.awaitStarted] sees in a round. *)
Record AwaitEnv : Type := mkAwaitEnv {
  ae_pidfile : nat -> result string; ae_exit : nat -> option Exit; ae_tick : nat -> tick }.

(** The process number in the file, if it is one. *)
Definition read_pid (r : result string) : option Z :=
  match r with
  | Ok b => match Atoi (TrimSpace b) with Ok pid => if 1 <? pid then Some pid else None | Err _ => None end
  | Err _ => None
  end.

Fixpoint awaitStarted (env : AwaitEnv) (fuel t : nat) : option (result Z) :=
  match read_pid (ae_pidfile env t) with
  | Some pid => Some (Ok pid)
  | None =>
      match ae_exit env t with
      | Some x => Some (Err (Wrap "container runtime exited before init was started" (Errorf (x_Reason x))))
      | None =>
          match ae_tick env t with
          | Cancelled => Some (Err (Errorf "context canceled"))
          | Expired => Some (Err (Errorf "container init start timeout"))
          | Polled => match fuel with 0%nat => None | S fuel => awaitStarted env fuel (S t) end
          end
      end
  end.

Definition set_pid (pid : Z) (a : Agent) : Agent :=
  mkAgent (a_state a) (a_exit a) pid (a_op a) (a_execs a) (a_stdin a) (a_terminal a) (a_launched a) (a_commands a).

(** ** Requests *)

(** The status request of [Agent.Call]. *)
Definition status (id : string) (generation : Z) (a : Agent) : GuestStatus :=
  mkGuestStatus Protocol id generation (a_state a) (a_exit a) (a_pid a).

(** The guard of the shutdown request. *)
Definition shutdown (a : Agent) : result unit :=
  guard negb (bool_decide (a_state a = "running")) else Errorf "container still running" in Ok tt.

(** The guards of [Agent.copy]: the root directory it opens. *)
Definition copy_root (a : Agent) (pidfile : result string) : result string :=
  guard bool_decide (a_state a = "running") else Errorf "copy requires a running container" in
  let* b := pidfile in
  match Atoi (TrimSpace b) with
  | Err _ => Err (Errorf "invalid container PID")
  | Ok pid => guard negb (pid <? 2) else Errorf "invalid container PID" in
              Ok ("/proc/" +:+ Itoa pid +:+ "/root")
  end.

(** The frames that [Agent.copy] accepts as an upload: data frames up to one
    that says [eof]. *)
Fixpoint copy_frames (l : list (result Frame)) : result string :=
  match l with
  | [] => Err (Errorf "EOF")
  | Err e :: _ => Err e
  | Ok f :: l =>
      if bool_decide (fr_Type f = "eof") then Ok ""
      else if negb (bool_decide (fr_Type f = "data")) then Err (Errorf "invalid copy frame")
      else let* rest := copy_frames l in Ok (fr_Data f +:+ rest)
  end.

(** ** The life of the container *)

(** The critical sections that change the agent; the waiting goroutine exists
    while the container runs. *)
Inductive event : Type :=
| EStart (an : answers) (op : string)
| EFinish (w : waited) (events : result string) (now : Z)
| EExec (q : option Exec)
| EPid (pid : Z).

Definition agent_step (sandbox : Sandbox) (a : Agent) (e : event) : Agent :=
  match e with
  | EStart an op => snd (start sandbox an op a)
  | EFinish w events now => if bool_decide (a_state a = "running") then publish (exit_of w events now) a else a
  | EExec q => snd (admit_exec q a)
  | EPid pid => set_pid pid a
  end.

Definition agent_run (sandbox : Sandbox) (a : Agent) (es : list event) : Agent := fold_left (agent_step sandbox) es a.

Record agent_ok (a : Agent) : Prop := mkAgentOk {
  ao_phase : (a_state a = "ready" /\ a_op a = "" /\ a_launched a = 0%nat /\ a_exit a = None) \/
             (a_state a = "running" /\ a_op a <> "" /\ a_launched a = 1%nat /\ a_exit a = None) \/
             (a_state a = "exited" /\ a_op a <> "" /\ a_launched a = 1%nat /\ a_exit a <> None);
  ao_commands : NoDup (a_commands a);
  ao_execs : forall id, id ∈ a_execs a <-> id ∈ a_commands a }.

(** What one step may do to the phase. *)
Record later (a a' : Agent) : Prop := mkLater {
  lt_op : a_op a <> "" -> a_op a' = a_op a;
  lt_exit : forall x, a_exit a = Some x -> a_exit a' = Some x;
  lt_running : a_state a = "running" -> a_state a' = "running" \/ a_state a' = "exited";
  lt_exited : a_state a = "exited" -> a_state a' = "exited";
  lt_commands : exists l, a_commands a' = a_commands a ++ l }.

Lemma later_refl (a : Agent) : later a a.
Proof. split; auto. exists []. by rewrite app_nil_r. Qed.

Lemma later_trans (a b c : Agent) : later a b -> later b c -> agent_ok b -> later a c.
Proof.
  intros [H1 H2 H3 H4 [l1 H5]] [G1 G2 G3 G4 [l2 G5]] _. split.
  - intros H. rewrite G1, H1; [done|done|by rewrite H1].
  - auto.
  - intros H. destruct (H3 H) as [?|?]; auto.
  - auto.
  - exists (l1 ++ l2). by rewrite G5, H5, app_assoc.
Qed.

(** A start that changes the phase. *)
Lemma start_cases (sandbox : Sandbox) (an : answers) (op : string) (a : Agent) :
  let '(r, a') := start sandbox an op a in
  (a_state a' = a_state a /\ a_op a' = a_op a /\ a_launched a' = a_launched a /\ a_exit a' = a_exit a /\
     a_commands a' = a_commands a /\ a_execs a' = a_execs a) \/
  (r = Ok tt /\ a_state a = "ready" /\ op <> "" /\ a_state a' = "running" /\ a_op a' = op /\
     a_launched a' = S (a_launched a) /\ a_exit a' = a_exit a /\
     a_commands a' = a_commands a /\ a_execs a' = a_execs a).
Proof.
  unfold start. case_bool_decide; [by left|]. case_bool_decide; [by left|]. case_bool_decide; simpl; [|by left].
  destruct (an_config an); [|by left]. destruct (an_json an); [|by left].
  destruct (s_TTY _).
  - destruct (an_launch an); [right|left]; split_and!; done.
  - destruct (if s_Interactive _ then _ else _); [|by left].
    destruct (an_launch an); [right|left]; split_and!; done.
Qed.

Lemma agent_step_ok (sandbox : Sandbox) (a : Agent) (e : event) :
  agent_ok a -> agent_ok (agent_step sandbox a e) /\ later a (agent_step sandbox a e).
Proof.
  intros [HP HC HE]. destruct e as [an op|w ev now|q|pid]; simpl.
  - pose proof (start_cases sandbox an op a) as HS. destruct (start sandbox an op a) as [r a']. simpl.
    destruct HS as [(E1 & E2 & E3 & E4 & E5 & E6)|(_ & R & Ho & E1 & E2 & E3 & E4 & E5 & E6)].
    + split; split; rewrite ?E1, ?E2, ?E3, ?E4, ?E5, ?E6; auto. exists []. by rewrite app_nil_r.
    + destruct HP as [(P1 & P2 & P3 & P4)|[(P1 & _)|(P1 & _)]]; [|congruence..].
      split; split; rewrite ?E1, ?E2, ?E3, ?E4, ?E5, ?E6; auto; try congruence.
      * right. left. rewrite P3. done.
      * exists []. by rewrite app_nil_r.
  - case_bool_decide as Hr; [|split; [done|apply later_refl]].
    destruct HP as [(P1 & _)|[(P1 & P2 & P3 & P4)|(P1 & _)]]; [congruence| |congruence].
    split; split; simpl; auto; try congruence.
    + right. right. done.
    + exists []. by rewrite app_nil_r.
  - unfold admit_exec. destruct q as [x|]; [|split; [done|apply later_refl]].
    destruct (_ || _); [split; [done|apply later_refl]|]. case_bool_decide; simpl; [|split; [done|apply later_refl]].
    case_bool_decide as Hin; simpl; [split; [done|apply later_refl]|].
    split; split; simpl; auto.
    + apply NoDup_app. split_and!; [done| |apply NoDup_singleton].
      intros id Hid Hx. apply list_elem_of_singleton in Hx as ->. apply Hin. by apply HE.
    + intros id. rewrite elem_of_union, elem_of_singleton, elem_of_app, list_elem_of_singleton, HE. tauto.
    + eauto.
  - split; split; simpl; auto. exists []. by rewrite app_nil_r.
Qed.

Lemma agent_run_ok (sandbox : Sandbox) (a : Agent) (es : list event) :
  agent_ok a -> agent_ok (agent_run sandbox a es) /\ later a (agent_run sandbox a es).
Proof.
  revert a. induction es as [|e es IH]; intros a Ha; simpl; [split; [done|apply later_refl]|].
  destruct (agent_step_ok sandbox a e Ha) as [H1 H2]. destruct (IH _ H1) as [H3 H4].
  split; [done|]. by eapply later_trans.
Qed.

Lemma New_ok : agent_ok New.
Proof. split; simpl; [by left|constructor|]. intros id. rewrite elem_of_nil. set_solver. Qed.

(** C20. One container per VM, whatever requests arrive in whatever order and
    whatever fails: at most one runtime is ever launched; the state goes from
    ready over running to exited and never back, and has an exit exactly at the
    end, which is then final; a start is idempotent under its operation and
    refused under any other; no command identifier is executed twice, and none
    outside of running. *)
Theorem agent_lifecycle (sandbox : Sandbox) (es : list event) :
  let a := agent_run sandbox New es in
  a_state a ∈ ["ready"; "running"; "exited"] /\
  (a_launched a <= 1)%nat /\ (a_launched a = 0%nat <-> a_state a = "ready") /\
  (a_exit a <> None <-> a_state a = "exited") /\
  NoDup (a_commands a) /\
  (forall an op, op <> "" -> a_op a = op -> start sandbox an op a = (Ok tt, a)) /\
  (forall an op, a_state a <> "ready" -> a_op a <> op -> exists e, start sandbox an op a = (Err e, a)) /\
  (forall q x a', admit_exec q a = (Ok x, a') -> a_state a = "running" /\ ex_ID x ∉ a_commands a) /\
  (forall es', let a' := agent_run sandbox a es' in
     (forall x, a_exit a = Some x -> a_exit a' = Some x) /\ (a_op a <> "" -> a_op a' = a_op a) /\
     (a_state a <> "ready" -> a_state a' <> "ready") /\ (a_state a = "exited" -> a_state a' = "exited")).
Proof.
  intros a. destruct (agent_run_ok sandbox New es New_ok) as [[HP HC HE] _]. fold a in HP, HC, HE.
  split_and!.
  - destruct HP as [(-> & _)|[(-> & _)|(-> & _)]]; set_solver.
  - destruct HP as [(_ & _ & -> & _)|[(_ & _ & -> & _)|(_ & _ & -> & _)]]; lia.
  - destruct HP as [(E1 & _ & E3 & E4)|[(E1 & _ & E3 & E4)|(E1 & _ & E3 & E4)]]; rewrite ?E1, ?E3, ?E4; (done || tauto).
  - destruct HP as [(E1 & _ & E3 & E4)|[(E1 & _ & E3 & E4)|(E1 & _ & E3 & E4)]]; rewrite ?E1, ?E3, ?E4; (done || tauto).
  - done.
  - intros an op Hne Hop. unfold start. rewrite bool_decide_eq_false_2 by done. by rewrite bool_decide_eq_true_2.
  - intros an op Hs Hop. unfold start. case_bool_decide; [eauto|]. rewrite bool_decide_eq_false_2 by done.
    rewrite bool_decide_eq_false_2 by done. simpl. eauto.
  - intros q x a' H. unfold admit_exec in H. destruct q as [y|]; [|done].
    destruct (_ || _); [done|]. case_bool_decide as Hr; [|done]. simpl in H. case_bool_decide as Hin; [done|].
    injection H as <- _. rewrite <-HE. done.
  - intros es' a'. destruct (agent_run_ok sandbox a es') as [[HP' _ _] [L1 L2 L3 L4 _]]; [by split|]. fold a' in HP', L1, L2, L3, L4.
    split_and!; [done|done| |done]. intros Hs. destruct HP as [(? & _)|[(E & _)|(E & _)]]; [done| |].
    + destruct (L3 E) as [->| ->]; done.
    + by rewrite (L4 E).
Qed.

(** ** Commands *)

(** A command in the container gets no more rights than the container: the same
    capabilities and no new privileges, its own arguments, the environment
    merged over the container's, and an absolute working directory. *)
Theorem exec_confined (open : string -> result string) (s : Sandbox) (root : string) (x : Exec) (p : RtProcess) :
  exec_process open s root x = Ok p ->
  rp_NoNewPrivileges p = true /\
  rp_Capabilities p = mkCaps caps caps caps [] [] /\
  Forall (fun n => n ∉ caps) privileged /\
  rp_Args p = ex_Args x /\ rp_Env p = MergeEnv (pr_Env (sb_Process s)) (ex_Env x) /\
  (if bool_decide (ex_User x = "") then User open (pr_User (sb_Process s)) else User open (ex_User x)) = Ok (rp_User p) /\
  (IsAbs (pr_Cwd (sb_Process s)) = true -> IsAbs (rp_Cwd p) = true).
Proof.
  unfold exec_process, Build. intros H. ok_inv. simpl in *. split_and!; try done; [apply unprivileged|].
  intros Ha. destruct (bool_decide (ex_Cwd x = "")); [by injection E0 as <-|].
  destruct (IsAbs (ex_Cwd x)) eqn:Ex; [|done].
    by injection E0 as <-.
Qed.

(** ** Output and uploads *)

Lemma writer_chunks_spec (fuel : nat) (b : string) :
  (String.length b <= fuel)%nat ->
  foldr String.append "" (writer_chunks fuel b) = b /\
  Forall (fun c => c <> "" /\ Z.of_nat (String.length c) <= 32768) (writer_chunks fuel b).
Proof.
  revert b. induction fuel as [|fuel IH]; intros b Hf.
  { destruct b; [by split|simpl in Hf; lia]. }
  destruct b as [|c b]; [by split|]. cbn [writer_chunks]. remember (String c b) as s.
  assert (exists m, Z.to_nat 32768 = S m /\ Z.of_nat (S m) = 32768) as (m & -> & Em).
  { exists (Z.to_nat 32767). rewrite <-Z2Nat.inj_succ by lia. split; [done|]. rewrite Z2Nat.id; lia. }
  assert (String.length (drop_str (S m) s) <= fuel)%nat as Hd.
  { subst s. simpl in *. clear -Hf. revert b Hf. induction m as [|m IHm]; intros [|c b] Hf; simpl in *; try lia.
    apply (IHm b). lia. }
  destruct (IH _ Hd) as [H1 H2]. split.
  - cbn [foldr]. rewrite H1. apply take_drop_str.
  - constructor; [|done]. split; [by subst s|]. rewrite length_take_str. lia.
Qed.

(** Output reaches the client as frames of at most 32 KiB that hold exactly the
    bytes written, and an upload framed in the same way and ended by [eof]
    arrives as exactly the bytes sent; without the end frame, or with a frame
    of another kind, it is an error. *)
Theorem upload_roundtrip (b : string) (rest : list (result Frame)) (bad : Frame) :
  let frames := writer_frames "data" b in
  let eof := mkFrame "eof" "" "" None 0 0 0 0 in
  foldr String.append "" (fr_Data <$> frames) = b /\
  Forall (fun f => fr_Type f = "data" /\ fr_Data f <> "" /\ Z.of_nat (String.length (fr_Data f)) <= 32768) frames /\
  copy_frames ((Ok <$> frames) ++ Ok eof :: rest) = Ok b /\
  is_ok (copy_frames (Ok <$> frames)) = false /\
  (fr_Type bad ∉ ["data"; "eof"] -> is_ok (copy_frames ((Ok <$> frames) ++ Ok bad :: rest)) = false).
Proof.
  intros frames eof. destruct (writer_chunks_spec (String.length b) b) as [H1 H2]; [done|].
  assert (forall cs tail, copy_frames ((Ok <$> ((fun d => mkFrame "data" d "" None 0 0 0 0) <$> cs)) ++ tail) =
    let* rest := copy_frames tail in Ok (foldr String.append "" cs +:+ rest)) as HC.
  { induction cs as [|c cs IH]; intros tail.
    - cbn. destruct (copy_frames tail); simpl; [by rewrite app_nil_l_str|done].
    - trans (result_bind (copy_frames ((Ok <$> ((fun d => mkFrame "data" d "" None 0 0 0 0) <$> cs)) ++ tail))
           (fun rest => Ok (c +:+ rest))); [reflexivity|].
      rewrite IH. destruct (copy_frames tail) as [r|]; simpl; [|done]. f_equal. symmetry. apply app_assoc_str. }
  unfold frames, writer_frames. split_and!.
  - etrans; [|exact H1]. f_equal. generalize (writer_chunks (String.length b) b). intros cs. clear.
    induction cs as [|c cs IH]; simpl; [done|]. by f_equal.
  - apply Forall_fmap. eapply Forall_impl; [exact H2|]. intros c [? ?]. done.
  - rewrite HC. change (copy_frames (Ok eof :: rest)) with (@Ok string ""). cbn [result_bind].
    by rewrite H1, app_nil_r_str.
  - rewrite <-(app_nil_r (Ok <$> _)), HC. done.
  - intros Hbad. rewrite HC. cbn [copy_frames]. rewrite bool_decide_eq_false_2 by set_solver.
    rewrite bool_decide_eq_false_2 by set_solver. done.
Qed.

(** ** Signals and stopping *)

Lemma assoc_range (s : string) (n : Z) : assoc s signal_names = Some n -> 1 <= n <= 64.
Proof.
  assert (Forall (fun x => 1 <= snd x <= 64) signal_names) as H by (repeat constructor; simpl; lia).
  induction H as [|[k m] l Hm Hl IH]; simpl; [done|]. case_bool_decide; [intros [= <-]; done|done].
Qed.

Lemma Signal_numbers : Forall (fun n => Signal (Itoa n) = Ok n) (Z.of_nat <$> seq 1 64).
Proof. apply (bool_decide_unpack _). vm_cast_no_check I. Qed.

(** Signals: only numbers from 1 to 64 come out; every name is accepted with
    and without its prefix and in lower case, and every number stands for
    itself. *)
Theorem Signal_correct :
  (forall s n, Signal s = Ok n -> 1 <= n <= 64) /\
  Forall (fun x => Signal (fst x) = Ok (snd x) /\ Signal ("SIG" +:+ fst x) = Ok (snd x) /\
            Signal (ToLower ("SIG" +:+ fst x)) = Ok (snd x)) signal_names /\
  (forall n, 1 <= n <= 64 -> Signal (Itoa n) = Ok n).
Proof.
  split_and!.
  - intros s n. unfold Signal. destruct (assoc _ _) eqn:E; [intros [= <-]; by eapply assoc_range|].
    destruct (Atoi _) as [m|]; [|done]. destruct (_ || _) eqn:Eb; [done|]. bool_prop. intros [= <-]. lia.
  - apply (bool_decide_unpack _). vm_cast_no_check I.
  - intros n Hn. pose proof Signal_numbers as HF. rewrite Forall_forall in HF. apply HF.
    apply list_elem_of_fmap. exists (Z.to_nat n). split; [lia|]. apply elem_of_seq. lia.
Qed.

Lemma agent_signal_cases (running : bool) (kill : result unit) (sig : string) :
  match agent_signal running kill sig with
  | Ok _ => is_ok (Signal sig) = true /\ running = true /\ kill = Ok tt
  | Err e => is_ok (Signal sig) = false \/ running = false \/ kill = Err e
  end.
Proof.
  unfold agent_signal. destruct (Signal sig); simpl; [|by left]. destruct running; [|by right; left].
  destruct kill as [[]|]; auto.
Qed.

(** How a stop can end. *)
Definition stopped (env : StopEnv) (t : nat) : Prop :=
  se_running env t = false \/
  (se_running env t = true /\ se_kill env t = Ok tt /\ exists u, t = S u /\ se_tick env u = Expired).

Definition stop_failed (env : StopEnv) (sig : string) (t : nat) (e : error) : Prop :=
  is_ok (Signal sig) = false \/ se_running env t = false \/ se_kill env t = Err e \/ se_tick env t = Cancelled.

Lemma stop_loop_ends (env : StopEnv) (sig : string) (fuel t k : nat) :
  (k <= fuel)%nat -> se_tick env (t + k) <> Polled ->
  exists r t', stop_loop env fuel t = Some (r, t') /\
    match r with Ok _ => stopped env t' | Err e => stop_failed env sig t' e end.
Proof.
  revert t k. induction fuel as [|fuel IH]; intros t k Hk Ht; cbn [stop_loop];
    (destruct (se_running env t) eqn:Er; simpl; [|exists (Ok tt), t; split; [done|by left]]);
    (destruct (se_tick env t) eqn:Et;
      [eexists _, t; split; [done|]; right; right; right; done
      |eexists _, (S t); split; [done|];
       pose proof (agent_signal_cases (se_running env (S t)) (se_kill env (S t)) "SIGKILL") as HC;
       destruct (agent_signal _ _ _) as [[]|e];
       [destruct HC as (_ & H1 & H2); right; eauto 6
       |destruct HC as [HC|[HC|HC]]; [by vm_compute in HC|right; left; done|right; right; left; done]]
      |]).
  - destruct k; [|lia]. rewrite Nat.add_0_r in Ht. congruence.
  - destruct k as [|k]; [rewrite Nat.add_0_r in Ht; congruence|].
    apply (IH (S t) k); [lia|]. by replace (S t + k)%nat with (t + S k)%nat by lia.
Qed.

(** A stop returns when its timer or its context ends.  It succeeds only when
    the container was seen not to run, or runc accepted a kill after the whole
    time had passed; every error is an invalid stop signal, a signal that came
    too late or that runc refused, or a cancelled context. *)
Theorem stop_outcome (env : StopEnv) (fuel k : nat) (stopSignal : string) (seconds : Z) :
  (k <= fuel)%nat -> se_tick env (2 + k) <> Polled -> 0 <= seconds <= 300 ->
  exists r t, stop env fuel stopSignal seconds = Some (r, t) /\
    match r with
    | Ok _ => stopped env t
    | Err e => stop_failed env (if bool_decide (stopSignal = "") then "SIGTERM" else stopSignal) t e
    end.
Proof.
  intros Hk Ht Hs. unfold stop. destruct (_ || _) eqn:Eb; [apply orb_true_iff in Eb as [Eb|Eb]; bool_prop; lia|].
  destruct (se_running env 0) eqn:E0; simpl; [|exists (Ok tt), 0%nat; split; [done|by left]].
  set (sig := if bool_decide (stopSignal = "") then "SIGTERM" else stopSignal).
  pose proof (agent_signal_cases (se_running env 1) (se_kill env 1) sig) as HC.
  destruct (agent_signal _ _ sig) as [[]|e].
  - by apply (stop_loop_ends env sig fuel 2 k).
  - exists (Err e), 1%nat. split; [done|]. destruct HC as [?|[?|?]]; [by left|by right; left|by right; right; left].
Qed.

(** Waiting for the start ends in time, and reports a process number only from
    the runtime's own file. *)
Theorem awaitStarted_outcome (env : AwaitEnv) (fuel k t : nat) :
  (k <= fuel)%nat -> ae_tick env (t + k) <> Polled ->
  exists r, awaitStarted env fuel t = Some r /\
    match r with
    | Ok pid => 1 < pid /\ exists u, read_pid (ae_pidfile env u) = Some pid
    | Err e => exists u, read_pid (ae_pidfile env u) = None /\
        (ae_exit env u <> None \/ ae_tick env u = Cancelled \/ ae_tick env u = Expired)
    end.
Proof.
  assert (forall r pid, read_pid r = Some pid -> 1 < pid) as Hp.
  { intros [b|] pid; [|done]. simpl. destruct (Atoi _); [|done]. destruct (1 <? a) eqn:E; [|done]. bool_prop.
    by intros [= <-]. }
  revert t k. induction fuel as [|fuel IH]; intros t k Hk Ht; cbn [awaitStarted];
    (destruct (read_pid (ae_pidfile env t)) as [pid|] eqn:E; [exists (Ok pid); split; [done|]; split; eauto|]);
    (destruct (ae_exit env t) as [x|] eqn:Ex;
      [eexists; split; [done|]; exists t; split; [done|]; left; by rewrite Ex|]);
    (destruct (ae_tick env t) eqn:Et;
      [eexists; split; [done|]; exists t; auto|eexists; split; [done|]; exists t; auto|]).
  - destruct k; [|lia]. rewrite Nat.add_0_r in Ht. congruence.
  - destruct k as [|k]; [rewrite Nat.add_0_r in Ht; congruence|].
    apply (IH (S t) k); [lia|]. by replace (S t + k)%nat with (t + S k)%nat by lia.
Qed.

Module AgentSample.
(** A container that ignores SIGTERM and is killed after three polls. *)
Definition stop_env : StopEnv :=
  mkStopEnv (fun _ => true) (fun _ => Ok tt) (fun t => if (t <? 5)%nat then Polled else Expired).
Definition await_env : AwaitEnv :=
  mkAwaitEnv (fun t => if (t <? 2)%nat then Err (Errorf "no such file") else Ok "42") (fun _ => None)
    (fun t => if (t <? 5)%nat then Polled else Expired).
Definition command : Exec := mkExec "e1" ["ls"] ["A=1"] "0" "" false false.
End AgentSample.

Lemma stop_outcome_witness :
  exists r t, stop AgentSample.stop_env 10 "" 1 = Some (r, t) /\ stopped AgentSample.stop_env 6.
Proof.
  destruct (stop_outcome AgentSample.stop_env 10 3 "" 1) as (r & t & H & Hr).
  - lia.
  - discriminate.
  - lia.
  - exists r, t. split; [exact H|]. vm_compute in H. injection H as <- <-. exact Hr.
Defined.

Lemma awaitStarted_outcome_witness :
  exists r, awaitStarted AgentSample.await_env 10 0 = Some r /\ r = Ok 42.
Proof.
  destruct (awaitStarted_outcome AgentSample.await_env 10 5 0) as (r & H & _).
  - lia.
  - discriminate.
  - exists r. split; [exact H|]. vm_compute in H. injection H as <-. reflexivity.
Defined.

Lemma exec_confined_witness :
  exists p, exec_process Sample.files Sample.sandbox "/state/bundle/rootfs" AgentSample.command = Ok p /\
    rp_NoNewPrivileges p = true.
Proof.
  destruct (exec_process Sample.files Sample.sandbox "/state/bundle/rootfs" AgentSample.command) as [p|e] eqn:E.
  - exists p. split; [reflexivity|].
    exact (proj1 (exec_confined Sample.files Sample.sandbox "/state/bundle/rootfs" AgentSample.command p E)).
  - exfalso. revert E. vm_compute. discriminate.
Defined.
