(* ===== verification/CliSession.v ===== *)
(** * CliSession: the client side of sessions (internal/cli/session.go, images.go,
    cmd/niflhel/main.go)

    A session has one goroutine that reads the terminal, one that forwards
    signals, and the loop that prints what arrives; they share only the
    connection, whose [Send] is serialised.  What the user types is a list of
    reads, what the daemon sends a list of received frames. *)

From S2P Require Import Prelude GoLib Api RuntimeSpec Agent.
Import Strings Strconv.
Local Open Scope Z_scope.
Local Open Scope go_scope.

(** How a command ends: an error, or the exit code of the application. *)
Inductive failure : Type := Failed (e : error) | ExitError (code : Z).
Definition outcome : Type := option failure.

(** [main]: the exit status of the program. *)
Definition exit_status (o : outcome) : Z :=
  match o with None => 0 | Some (ExitError c) => c | Some (Failed _) => 125 end.

Definition frame_of (kind : string) : Frame := mkFrame kind "" "" None 0 0 0 0.
Definition data_frame (kind data : string) : Frame := mkFrame kind data "" None 0 0 0 0.
Definition uint16 (n : Z) : Z := n mod 65536.
Definition resize (size : Z * Z) : Frame := mkFrame "resize" "" "" None (uint16 (fst size)) (uint16 (snd size)) 0 0.

(** ** Input *)

Definition ctrl_p : ascii := "016"%char.
Definition ctrl_q : ascii := "017"%char.
Definition str1 (c : ascii) : string := String c "".

(** One read of the input: the bytes that go on, and whether a Ctrl-P is held
    back; or the detach sequence. *)
Inductive scanned : Type := Detached | Scanned (pending : bool) (out : string).

Fixpoint scan (tty pending : bool) (out buf : string) : scanned :=
  match buf with
  | EmptyString => Scanned pending out
  | String b buf =>
      if tty && pending && bool_decide (b = ctrl_q) then Detached
      else
        let out := if tty && pending then out +:+ str1 ctrl_p else out in
        let pending := if tty && pending then false else pending in
        if tty && bool_decide (b = ctrl_p) then scan tty true out buf
        else scan tty pending (out +:+ str1 b) buf
  end.

(** The goroutine that reads the input: the frames it sends.  A read gives bytes
    and, at the end, an error; [send] says whether the n-th frame of input
    fails. *)
Fixpoint input_loop (tty : bool) (send : nat -> bool) (t : nat) (pending : bool) (reads : list (string * bool))
  : list Frame :=
  match reads with
  | [] => []
  | (buf, err) :: reads =>
      match scan tty pending "" buf with
      | Detached => [frame_of "detach"]
      | Scanned pending out =>
          if negb (bool_decide (out = "")) && negb (send t) then [data_frame "stdin" out]
          else
            (if bool_decide (out = "") then [] else [data_frame "stdin" out]) ++
            (if err then (if pending then [data_frame "stdin" (str1 ctrl_p)] else []) ++ [frame_of "eof"]
             else input_loop tty send (S t) pending reads)
      end
  end.

(** ** Signals *)

Definition SIGWINCH : Z := 28.

(** The goroutine that forwards signals; [size] is the terminal's, if the input
    is one. *)
Definition signal_frames (fd : option (Z * Z)) (sig : Z) : list Frame :=
  if bool_decide (sig = SIGWINCH) then match fd with Some size => [resize size] | None => [] end
  else [mkFrame "signal" "" (Itoa sig) None 0 0 0 0].

(** ** Output *)

(** What is printed; a write may fail after some bytes. *)
Record screen : Type := mkScreen { s_out : string; s_err : string }.

(** [codeFromFrame] *)
Definition codeFromFrame (f : Frame) : outcome :=
  match fr_Code f with
  | Some c => if bool_decide (c = 0) then None else Some (ExitError c)
  | None => None
  end.

Definition newline : string := str1 "010"%char.

Section Output.
Variable write : nat -> option (nat * error).

Definition written (t : nat) (b : string) : string :=
  match write t with Some (k, _) => take_str k b | None => b end.

(** The loop that prints what arrives; without a further frame it waits
    ([None]). *)
Fixpoint output_loop (t : nat) (frames : list (result Frame)) (s : screen) : option outcome * screen :=
  match frames with
  | [] => (None, s)
  | Err e :: _ => (Some (Some (Failed e)), s)
  | Ok f :: frames =>
      if bool_decide (fr_Type f = "stdout") then
        let s := mkScreen (s_out s +:+ written t (fr_Data f)) (s_err s) in
        match write t with Some (_, e) => (Some (Some (Failed e)), s) | None => output_loop (S t) frames s end
      else if bool_decide (fr_Type f = "stderr") then
        let s := mkScreen (s_out s) (s_err s +:+ written t (fr_Data f)) in
        match write t with Some (_, e) => (Some (Some (Failed e)), s) | None => output_loop (S t) frames s end
      else if bool_decide (fr_Type f = "gap") then
        output_loop (S t) frames (mkScreen (s_out s) (s_err s +:+ written t (fr_Message f +:+ newline)))
      else if bool_decide (fr_Type f = "error") then (Some (Some (Failed (Errorf (fr_Message f)))), s)
      else if bool_decide (fr_Type f = "exit") then (Some (codeFromFrame f), s)
      else if bool_decide (fr_Type f = "detached") then (Some None, s)
      else (Some (Some (Failed (Errorf ("unknown stream frame " +:+ fr_Type f)))), s)
  end.
End Output.

(** ** Sessions *)

(** The standard input: whether it is a file, and the terminal it is. *)
Record Terminal : Type := mkTerminal { tm_file : bool; tm_terminal : bool; tm_raw : result unit; tm_size : Z * Z }.

(** The start of [session]: the terminal that is used, and the frames sent
    before anything else. *)
Definition session_setup (tm : Terminal) (interactive tty : bool) : result (option (Z * Z) * list Frame) :=
  let* fd := (if tm_file tm && tty then
                guard tm_terminal tm else Errorf "stdin is not a terminal" in
                let* _ := tm_raw tm in Ok (Some (tm_size tm))
              else Ok None) in
  Ok (fd, (match fd with Some size => [resize size] | None => [] end) ++ (if interactive then [] else [frame_of "eof"])).

(** [App.session]: the frames of the setup, the outcome and what is printed. *)
Definition session (opened : result unit) (tm : Terminal) (interactive tty : bool)
    (write : nat -> option (nat * error)) (frames : list (result Frame)) : list Frame * option outcome * screen :=
  match (let* _ := opened in session_setup tm interactive tty) with
  | Err e => ([], Some (Some (Failed e)), mkScreen "" "")
  | Ok (_, sent) => let '(o, s) := output_loop write 0 frames (mkScreen "" "") in (sent, o, s)
  end.

(** [App.attachOrWait], after the session; [exit] is the answer to the wait
    request. *)
Definition attachOrWait (session : outcome) (exit : result Exit) : outcome :=
  match session with
  | None => None
  | Some (ExitError c) => Some (ExitError c)
  | Some (Failed e) =>
      match exit with
      | Err _ => Some (Failed e)
      | Ok x =>
          match x_Code x with
          | None => Some (Failed (Errorf (x_Reason x)))
          | Some c => if bool_decide (c = 0) then None else Some (ExitError c)
          end
      end
  end.

(** ** Uploads and copies *)

(** [sessionDataWriter.Write]: the frames handed to the connection, and the
    number of bytes or the error. *)
Fixpoint data_writer (send : nat -> option error) (t fuel : nat) (b : string) : list Frame * result unit :=
  match fuel, b with
  | _, EmptyString | 0%nat, _ => ([], Ok tt)
  | S fuel, _ =>
      let f := data_frame "data" (take_str (Z.to_nat 32768) b) in
      match send t with
      | Some e => ([f], Err e)
      | None =>
          let '(fs, r) := data_writer send (S t) fuel (drop_str (Z.to_nat 32768) b) in (f :: fs, r)
      end
  end.
Definition Write (send : nat -> option error) (t : nat) (b : string) : list Frame * result Z :=
  let '(fs, r) := data_writer send t (String.length b) b in
  (fs, match r with Ok _ => Ok (Z.of_nat (String.length b)) | Err e => Err e end).

(** The goroutine of [App.upload]: what a read gives besides bytes. *)
Inductive read_end : Type := More | EOF | ReadErr (e : error).

Fixpoint upload_sender (send : nat -> option error) (t : nat) (reads : list (string * read_end))
  : list Frame * option (result unit) :=
  match reads with
  | [] => ([], None)
  | (buf, fin) :: reads =>
      let data := if bool_decide (buf = "") then [] else [data_frame "data" buf] in
      match (if bool_decide (buf = "") then None else send t) with
      | Some e => (data, Some (Err e))
      | None =>
          let t := (t + length data)%nat in
          match fin with
          | EOF => (data ++ [frame_of "eof"], Some (match send t with Some e => Err e | None => Ok tt end))
          | ReadErr e => (data, Some (Err e))
          | More => let '(fs, r) := upload_sender send t reads in (data ++ fs, r)
          end
      end
  end.

(** The loop of [App.upload] over the answers; [errch] is what the goroutine
    reports, and [None] means that it waits. *)
Fixpoint upload_receiver (errch : option (result unit)) (frames : list (result Frame)) : option (result string) :=
  match frames with
  | [] => None
  | Err e :: _ => Some (Err e)
  | Ok f :: frames =>
      if bool_decide (fr_Type f = "error") then Some (Err (Errorf (fr_Message f)))
      else if bool_decide (fr_Type f = "exit") then
        match errch with
        | None => None
        | Some (Err e) => Some (Err e)
        | Some (Ok _) => Some (Ok (fr_Message f +:+ newline))
        end
      else upload_receiver errch frames
  end.

(** [App.upload] *)
Definition upload (opened : result unit) (send : nat -> option error) (reads : list (string * read_end))
    (frames : list (result Frame)) : list Frame * option (result string) :=
  match opened with
  | Err e => ([], Some (Err e))
  | Ok _ => let '(fs, errch) := upload_sender send 0 reads in (fs, upload_receiver errch frames)
  end.

(** The sides of [copyCommand]: container, path, and whether it is remote. *)
Definition copy_split (s : string) : string * string * bool :=
  let '(id, p, ok) := Cut s ":" in (id, p, ok && negb (HasPrefix s "/")).

Inductive copy_direction : Type :=
| CopyIn (id dst source : string)
| CopyOut (id src dest : string).

Definition copy_args (src dst : string) : result copy_direction :=
  let '(sid, spath, sremote) := copy_split src in
  let '(did, dpath, dremote) := copy_split dst in
  guard negb (Bool.eqb sremote dremote) else Errorf "exactly one path must be CONTAINER:/path" in
  Ok (if dremote then CopyIn did dpath src else CopyOut sid spath dst).

(** Copying in: the goroutine that sends the archive, which the archiver writes
    in pieces or gives up with an error. *)
Fixpoint copy_in_sender (send : nat -> option error) (t : nat) (writes : list string) (fin : result unit)
  : list Frame * result unit :=
  match writes with
  | [] =>
      match fin with
      | Err e => ([], Err e)
      | Ok _ => ([frame_of "eof"], match send t with Some e => Err e | None => Ok tt end)
      end
  | b :: writes =>
      let '(fs, r) := Write send t b in
      match r with
      | Err e => (fs, Err e)
      | Ok _ => let '(fs', r') := copy_in_sender send (t + length fs) writes fin in (fs ++ fs', r')
      end
  end.

(** The answer to a copy into the container. *)
Definition copy_in_result (answer : result Frame) (done : result unit) : result unit :=
  let* f := answer in
  if bool_decide (fr_Type f = "error") then Err (Errorf (fr_Message f))
  else if negb (bool_decide (fr_Type f = "exit")) then Err (Errorf "invalid copy response")
  else done.

(** Copying out: what the extractor reads from the pipe, and how it ends. *)
Fixpoint copy_out_reader (frames : list (result Frame)) : string * option (result unit) :=
  match frames with
  | [] => ("", None)
  | Err e :: _ => ("", Some (Err e))
  | Ok f :: frames =>
      if bool_decide (fr_Type f = "exit") then ("", Some (Ok tt))
      else if bool_decide (fr_Type f = "error") then ("", Some (Err (Errorf (fr_Message f))))
      else if negb (bool_decide (fr_Type f = "data")) then ("", Some (Err (Errorf "invalid copy frame")))
      else let '(b, r) := copy_out_reader frames in (fr_Data f +:+ b, r)
  end.

(** ** The detach sequence *)

Definition held (pending : bool) : string := if pending then str1 ctrl_p else "".
Definition detach_keys : string := String ctrl_p (str1 ctrl_q).

Lemma str1_app (c : ascii) (s : string) : str1 c +:+ s = String c s.
Proof. done. Qed.

Lemma HasPrefix_two (a b : ascii) (s : string) (c : ascii) :
  HasPrefix (String c s) (String a (str1 b)) = bool_decide (c = a) && match s with "" => false | String d _ => bool_decide (d = b) end.
Proof.
  unfold HasPrefix, str1. cbn [String.prefix]. destruct (ascii_dec a c) as [->|Hn].
  - rewrite bool_decide_eq_true_2 by done. destruct s as [|d s]; [done|]. cbn. destruct (ascii_dec b d) as [->|].
    + rewrite bool_decide_eq_true_2 by done. by destruct s.
    + by rewrite bool_decide_eq_false_2.
  - by rewrite bool_decide_eq_false_2.
Qed.

Lemma Contains_keys (c : ascii) (s : string) :
  Contains (String c s) detach_keys =
  bool_decide (c = ctrl_p) && match s with "" => false | String d _ => bool_decide (d = ctrl_q) end || Contains s detach_keys.
Proof. unfold detach_keys. rewrite <-HasPrefix_two. done. Qed.

Lemma scan_app (tty p : bool) (out a b : string) :
  scan tty p out (a +:+ b) =
  match scan tty p out a with Detached => Detached | Scanned p' out' => scan tty p' out' b end.
Proof.
  revert p out. induction a as [|c a IH]; intros p out; [done|]. rewrite app_cons_str. cbn [scan].
  destruct (tty && p && _); [done|]. destruct (tty && bool_decide (c = ctrl_p)); apply IH.
Qed.

Lemma scan_out (tty p : bool) (out a : string) :
  scan tty p out a = match scan tty p "" a with Detached => Detached | Scanned p' out' => Scanned p' (out +:+ out') end.
Proof.
  revert p out. induction a as [|c a IH]; intros p out; [cbn; by rewrite app_nil_r_str|]. cbn [scan].
  destruct (tty && p && _); [done|].
  destruct (tty && bool_decide (c = ctrl_p)).
  - rewrite (IH _ (if tty && p then out +:+ _ else out)), (IH _ (if tty && p then "" +:+ _ else "")).
    destruct (scan _ _ _ _); [done|]. f_equal. destruct (tty && p); by rewrite ?app_nil_l_str, ?app_assoc_str.
  - rewrite (IH _ ((if tty && p then out +:+ _ else out) +:+ _)), (IH _ ((if tty && p then "" +:+ _ else "") +:+ _)).
    destruct (scan _ _ _ _); [done|]. f_equal. destruct (tty && p); by rewrite ?app_nil_l_str, ?app_assoc_str.
Qed.

(** Nothing is lost in a read without the sequence, and it is found exactly when
    the bytes contain it. *)
Lemma scan_spec (p : bool) (buf : string) :
  match scan true p "" buf with
  | Detached => Contains (held p +:+ buf) detach_keys = true
  | Scanned p' out => Contains (held p +:+ buf) detach_keys = false /\ out +:+ held p' = held p +:+ buf
  end.
Proof.
  revert p. induction buf as [|c buf IH]; intros p.
  { cbn [scan]. destruct p; done. }
  cbn [scan andb]. destruct p; cbn [held].
  - rewrite str1_app, (Contains_keys ctrl_p (String c buf)).
    rewrite (bool_decide_eq_true_2 (ctrl_p = ctrl_p)) by done. cbn [andb].
    case_bool_decide as Hq; [done|]. cbn [orb].
    case_bool_decide as Hp.
    + subst c. rewrite scan_out. specialize (IH true). cbn [held] in IH.
      rewrite str1_app in IH.
      destruct (scan true true "" buf) as [|p' out]; [done|]. destruct IH as [IH1 IH2]. split; [done|].
      by rewrite app_assoc_str, IH2.
    + rewrite scan_out. specialize (IH false). cbn [held] in IH. rewrite app_nil_l_str in IH.
      rewrite Contains_keys, (bool_decide_eq_false_2 (c = ctrl_p)) by done. cbn [andb orb].
      destruct (scan true false "" buf) as [|p' out]; [done|]. destruct IH as [IH1 IH2]. split; [done|].
      by rewrite app_assoc_str, IH2.
  - rewrite (app_nil_l_str (String c buf)), Contains_keys. cbn [andb].
    destruct (decide (c = ctrl_p)) as [Hp|Hp]; [rewrite (bool_decide_eq_true_2 (c = ctrl_p)) by done|rewrite (bool_decide_eq_false_2 (c = ctrl_p)) by done].
    + subst c. specialize (IH true). cbn [held] in IH. rewrite str1_app, Contains_keys in IH.
      rewrite (bool_decide_eq_true_2 (ctrl_p = ctrl_p)) in IH by done. exact IH.
    + cbn [andb orb]. rewrite scan_out. specialize (IH false). cbn [held] in IH. rewrite app_nil_l_str in IH.
      destruct (scan true false "" buf) as [|p' out]; [done|]. destruct IH as [IH1 IH2]. split; [done|].
      by rewrite app_assoc_str, IH2.
Qed.

Lemma scan_plain (buf : string) : scan false false "" buf = Scanned false buf.
Proof.
  induction buf as [|c buf IH]; [done|]. cbn [scan andb]. rewrite scan_out, IH. by rewrite app_nil_l_str.
Qed.

(** The whole input as one read. *)
Definition typed (cs : list string) (last : string) : list (string * bool) := ((fun c => (c, false)) <$> cs) ++ [(last, true)].

Definition sends_ok (_ : nat) : bool := true.

Lemma input_loop_stream (tty p : bool) (t : nat) (cs : list string) (last : string) :
  match scan tty p "" (concat_str (cs ++ [last])) with
  | Scanned p' out => exists ds, input_loop tty sends_ok t p (typed cs last) = (data_frame "stdin" <$> ds) ++ [frame_of "eof"] /\
      Forall (fun d => d <> "") ds /\ concat_str ds = out +:+ held p'
  | Detached => exists cs1 c cs2 ds p' , cs ++ [last] = cs1 ++ c :: cs2 /\
      input_loop tty sends_ok t p (typed cs last) = (data_frame "stdin" <$> ds) ++ [frame_of "detach"] /\
      Forall (fun d => d <> "") ds /\ scan tty p "" (concat_str cs1) = Scanned p' (concat_str ds) /\
      scan tty p' "" c = Detached
  end.
Proof.
  revert p t. induction cs as [|c cs IH]; intros p t.
  - unfold typed. cbn [app fmap list_fmap concat_str foldr]. rewrite app_nil_r_str. cbn [input_loop].
    destruct (scan tty p "" last) as [|p' out] eqn:E.
    + exists [], last, [], [], p. cbn. done.
    + unfold sends_ok. rewrite andb_false_r.
      exists ((if bool_decide (out = "") then [] else [out]) ++ (if p' then [str1 ctrl_p] else [])).
      split_and!.
      * case_bool_decide; destruct p'; done.
      * case_bool_decide; destruct p'; repeat constructor; done.
      * case_bool_decide as Ho; [subst out|]; destruct p'; cbn; by rewrite ?app_nil_r_str.
  - change (concat_str ((c :: cs) ++ [last])) with (c +:+ concat_str (cs ++ [last])). rewrite scan_app.
    unfold typed. cbn [app fmap list_fmap input_loop]. change (((λ c0, (c0, false)) <$> cs) ++ [(last, true)]) with (typed cs last).
    destruct (scan tty p "" c) as [|p1 out] eqn:E.
    + exists [], c, (cs ++ [last]), [], p. cbn. done.
    + unfold sends_ok at 1. rewrite andb_false_r. rewrite scan_out. specialize (IH p1 (S t)).
      destruct (scan tty p1 "" (concat_str (cs ++ [last]))) as [|p2 out2].
      * destruct IH as (cs1 & c' & cs2 & ds & p' & H1 & H2 & H3 & H4 & H5).
        exists (c :: cs1), c', cs2, ((if bool_decide (out = "") then [] else [out]) ++ ds), p'.
        split_and!; [by rewrite <-app_comm_cons, H1| | | |done].
        -- rewrite H2, fmap_app, <-app_assoc. by case_bool_decide.
        -- case_bool_decide; [done|]. by constructor.
        -- change (concat_str (c :: cs1)) with (c +:+ concat_str cs1). rewrite scan_app, E, scan_out, H4.
           case_bool_decide as Ho; [subst out; done|]. done.
      * destruct IH as (ds & H1 & H2 & H3).
        exists ((if bool_decide (out = "") then [] else [out]) ++ ds). split_and!.
        -- rewrite H1, fmap_app, <-app_assoc. by case_bool_decide.
        -- case_bool_decide; [done|]. by constructor.
        -- rewrite concat_str_app, H3, app_assoc_str. case_bool_decide as Ho; [subst out; done|]. cbn. by rewrite app_nil_r_str.
Qed.

Lemma input_loop_prefix (tty p : bool) (send : nat -> bool) (t : nat) (reads : list (string * bool)) :
  input_loop tty send t p reads `prefix_of` input_loop tty sends_ok t p reads.
Proof.
  revert p t. induction reads as [|[buf err] reads IH]; intros p t; [done|]. cbn [input_loop].
  destruct (scan tty p "" buf) as [|p' out]; [done|]. unfold sends_ok at 1. rewrite andb_false_r.
  case_bool_decide as Ho; cbn [negb andb].
  - destruct err; [done|]. apply IH.
  - destruct (send t); cbn [negb].
    + destruct err; [done|]. by apply prefix_app.
    + apply prefix_app_r. done.
Qed.

(** What is sent for a typed input. *)
Lemma session_input_cases (tty : bool) (cs : list string) (last : string) :
  let fs := input_loop tty sends_ok 0 false (typed cs last) in
  (tty && Contains (concat_str (cs ++ [last])) detach_keys = false ->
   exists ds, fs = (data_frame "stdin" <$> ds) ++ [frame_of "eof"] /\ Forall (fun d => d <> "") ds /\
     concat_str ds = concat_str (cs ++ [last])) /\
  (tty && Contains (concat_str (cs ++ [last])) detach_keys = true ->
   exists cs1 c cs2 ds p, cs ++ [last] = cs1 ++ c :: cs2 /\
     fs = (data_frame "stdin" <$> ds) ++ [frame_of "detach"] /\ Forall (fun d => d <> "") ds /\
     concat_str ds +:+ held p = concat_str cs1 /\
     Contains (concat_str cs1) detach_keys = false /\ Contains (held p +:+ c) detach_keys = true).
Proof.
  intros fs. pose proof (input_loop_stream tty false 0 cs last) as HS. fold fs in HS. split.
  - intros H. destruct tty; cbn [andb] in H.
    + pose proof (scan_spec false (concat_str (cs ++ [last]))) as HP. cbn [held] in HP. rewrite app_nil_l_str in HP.
      destruct (scan true false "" _) as [|p' out]; [congruence|]. destruct HP as [_ HP].
      destruct HS as (ds & H1 & H2 & H3). exists ds. by rewrite H3.
    + rewrite scan_plain in HS. destruct HS as (ds & H1 & H2 & H3). exists ds. rewrite H3. by rewrite app_nil_r_str.
  - intros H. destruct tty; [|done]. cbn [andb] in H.
    pose proof (scan_spec false (concat_str (cs ++ [last]))) as HP. cbn [held] in HP. rewrite app_nil_l_str in HP.
    destruct (scan true false "" (concat_str (cs ++ [last]))) as [|p' out]; [|destruct HP; congruence].
    destruct HS as (cs1 & c & cs2 & ds & p & H1 & H2 & H3 & H4 & H5). exists cs1, c, cs2, ds, p.
    pose proof (scan_spec false (concat_str cs1)) as HA. rewrite H4 in HA. cbn [held] in HA. rewrite app_nil_l_str in HA.
    destruct HA as [HA1 HA2].
    pose proof (scan_spec p c) as HB. rewrite H5 in HB. done.
Qed.

(** What the user types reaches the application, independent of how the bytes
    fall into reads.  Without a terminal, or when the bytes do not contain the
    detach sequence Ctrl-P Ctrl-Q, every byte is sent once and in order and then
    the end of input, a lone Ctrl-P at the end included.  With the sequence, the
    client detaches in the first read that completes it and sends exactly the
    bytes of the reads before (the held Ctrl-P apart); the bytes that precede
    the sequence in that same read are dropped.  When a frame cannot be sent,
    what was sent is an initial part of this. *)
Theorem session_input_correct (tty : bool) (cs : list string) (last : string) :
  let fs := input_loop tty sends_ok 0 false (typed cs last) in
  (tty && Contains (concat_str (cs ++ [last])) detach_keys = false ->
   exists ds, fs = (data_frame "stdin" <$> ds) ++ [frame_of "eof"] /\ Forall (fun d => d <> "") ds /\
     concat_str ds = concat_str (cs ++ [last])) /\
  (tty && Contains (concat_str (cs ++ [last])) detach_keys = true ->
   exists cs1 c cs2 ds p, cs ++ [last] = cs1 ++ c :: cs2 /\
     fs = (data_frame "stdin" <$> ds) ++ [frame_of "detach"] /\ Forall (fun d => d <> "") ds /\
     concat_str ds +:+ held p = concat_str cs1 /\
     Contains (concat_str cs1) detach_keys = false /\ Contains (held p +:+ c) detach_keys = true) /\
  (forall send, input_loop tty send 0 false (typed cs last) `prefix_of` fs).
Proof.
  intros fs. destruct (session_input_cases tty cs last) as [H1 H2]. split_and!; [exact H1|exact H2|].
  intros send. apply input_loop_prefix.
Qed.

(** ** Output *)

Definition no_fail (_ : nat) : option (nat * error) := None.

(** What reaches the standard output, and what the standard error. *)
Definition printed (evs : list (string * string)) : screen :=
  mkScreen (concat_str (snd <$> filter (fun e => fst e = "stdout") evs))
           (concat_str (snd <$> filter (fun e => fst e = "stderr") evs)).
Definition seq_screen (s s' : screen) : screen := mkScreen (s_out s +:+ s_out s') (s_err s +:+ s_err s').

Definition exit_frame (code : option Z) : Frame := mkFrame "exit" "" "" code 0 0 0 0.

Lemma printed_out (b : string) : printed [("stdout", b)] = mkScreen b "".
Proof. unfold printed. f_equal. exact (app_nil_r_str b). Qed.
Lemma printed_err (b : string) : printed [("stderr", b)] = mkScreen "" b.
Proof. unfold printed. f_equal. exact (app_nil_r_str b). Qed.

Lemma output_loop_chunks (kind : string) (cs : list string) (t : nat) (rest : list (result Frame)) (s : screen) :
  kind = "stdout" \/ kind = "stderr" ->
  output_loop no_fail t ((Ok <$> (data_frame kind <$> cs)) ++ rest) s =
  output_loop no_fail (t + length cs) rest (seq_screen s (printed [(kind, concat_str cs)])).
Proof.
  intros Hk. revert t s. induction cs as [|c cs IH]; intros t s.
  - cbn [fmap list_fmap app length]. rewrite Nat.add_0_r. f_equal. destruct s as [o e]. unfold seq_screen.
    destruct Hk as [->| ->]; rewrite ?printed_out, ?printed_err; cbn; by rewrite !app_nil_r_str.
  - cbn [fmap list_fmap app length].
    assert (output_loop no_fail t (Ok (data_frame kind c) :: (Ok <$> (data_frame kind <$> cs)) ++ rest) s =
      output_loop no_fail (S t) ((Ok <$> (data_frame kind <$> cs)) ++ rest) (seq_screen s (printed [(kind, c)]))) as E.
    { destruct s as [o e]. unfold seq_screen. destruct Hk as [->| ->]; rewrite ?printed_out, ?printed_err; cbn;
        by rewrite app_nil_r_str. }
    etrans; [exact E|]. rewrite IH, <-Nat.add_succ_comm. f_equal. unfold seq_screen.
    destruct Hk as [->| ->]; rewrite ?printed_out, ?printed_err; cbn; by rewrite ?app_nil_r_str, ?app_assoc_str.
Qed.

Lemma printed_cons (k b : string) (evs : list (string * string)) :
  printed ((k, b) :: evs) = seq_screen (printed [(k, b)]) (printed evs).
Proof.
  unfold printed, seq_screen. cbn [s_out s_err]. f_equal; rewrite !filter_cons; cbn [fst]; case_decide; cbn;
    by rewrite ?filter_nil, ?app_nil_r_str, ?app_nil_l_str.
Qed.

Lemma seq_screen_assoc (a b c : screen) : seq_screen (seq_screen a b) c = seq_screen a (seq_screen b c).
Proof. unfold seq_screen. cbn. by rewrite !app_assoc_str. Qed.

Lemma output_loop_events (evs : list (string * string)) (t : nat) (rest : list (result Frame)) (s : screen) :
  Forall (fun e => fst e = "stdout" \/ fst e = "stderr") evs ->
  exists t', output_loop no_fail t ((Ok <$> (evs ≫= fun e => writer_frames (fst e) (snd e))) ++ rest) s =
  output_loop no_fail t' rest (seq_screen s (printed evs)).
Proof.
  intros H. revert t s. induction H as [|[k b] evs Hk Hevs IH]; intros t s.
  - exists t. cbn. f_equal. destruct s. unfold seq_screen, printed. cbn. by rewrite !app_nil_r_str.
  - cbn [mbind list_bind fst snd]. rewrite fmap_app, <-app_assoc. unfold writer_frames at 1.
    change ((fun d => mkFrame k d "" None 0 0 0 0) <$> writer_chunks (String.length b) b)
      with (data_frame k <$> writer_chunks (String.length b) b).
    rewrite output_loop_chunks by done.
    destruct (IH (t + length (writer_chunks (String.length b) b))%nat (seq_screen s (printed [(k, concat_str (writer_chunks (String.length b) b))]))) as [t' IH'].
    exists t'. rewrite IH'. f_equal. rewrite seq_screen_assoc, (printed_cons k b evs).
    assert (concat_str (writer_chunks (String.length b) b) = b) as ->; [|done].
    by destruct (writer_chunks_spec (String.length b) b) as [H _].
Qed.

(** What the application writes and how it ends reaches the user's shell.  For
    any sequence of writes to standard output and error that the guest's agent
    frames, followed by the exit frame, the client prints exactly those bytes on
    the respective stream and exits with the application's code; the same code
    results when the session breaks off and the exit is asked for.  Without an
    exit frame it does not report success, unless the client detached. *)
Theorem session_exit_correct (evs : list (string * string)) (code : Z) (rest : list (result Frame)) (e : error) (x : Exit) :
  Forall (fun e => fst e = "stdout" \/ fst e = "stderr") evs ->
  x_Code x = Some code ->
  let frames := Ok <$> (evs ≫= fun e => writer_frames (fst e) (snd e)) in
  let status o := exit_status o in
  (exists o, output_loop no_fail 0 (frames ++ Ok (exit_frame (Some code)) :: rest) (mkScreen "" "") = (Some o, printed evs) /\
     status (attachOrWait o (Err e)) = code /\ status (attachOrWait o (Ok x)) = code) /\
  (exists o, output_loop no_fail 0 (frames ++ [Err e]) (mkScreen "" "") = (Some o, printed evs) /\
     status (attachOrWait o (Ok x)) = code /\ status (attachOrWait o (Err e)) = 125) /\
  (output_loop no_fail 0 frames (mkScreen "" "") = (None, printed evs)).
Proof.
  intros Hevs Hx frames status.
  assert (forall s, seq_screen (mkScreen "" "") s = s) as Hs.
  { intros [o e']. unfold seq_screen. cbn. by rewrite !app_nil_l_str. }
  split_and!.
  - destruct (output_loop_events evs 0 (Ok (exit_frame (Some code)) :: rest) (mkScreen "" "") Hevs) as [t' H].
    rewrite Hs in H. exists (if bool_decide (code = 0) then None else Some (ExitError code)). split; [exact H|].
    unfold status. case_bool_decide as H0; cbn; by rewrite ?H0.
  - destruct (output_loop_events evs 0 [Err e] (mkScreen "" "") Hevs) as [t' H].
    rewrite Hs in H. eexists. split; [exact H|]. unfold status. cbn. rewrite Hx. split; [|done].
    case_bool_decide as H0; cbn; by rewrite ?H0.
  - destruct (output_loop_events evs 0 [] (mkScreen "" "") Hevs) as [t' H]. rewrite Hs, app_nil_r in H. exact H.
Qed.

Lemma session_exit_correct_witness :
  exists o, output_loop no_fail 0 (Ok <$> (writer_frames "stdout" "hi" ++ writer_frames "stderr" "no" ++ [exit_frame (Some 3)])) (mkScreen "" "")
    = (Some o, mkScreen "hi" "no") /\ exit_status o = 3.
Proof.
  destruct (session_exit_correct [("stdout", "hi"); ("stderr", "no")] 3 [] (Errorf "EOF") (mkExit (Some 3) "" false 0))
    as [(o & H1 & H2 & H3) _].
  - constructor; [left; reflexivity|constructor; [right; reflexivity|constructor]].
  - reflexivity.
  - exists o. split; [exact H1|]. destruct o as [[?|?]|]; cbn in H2, H3; [discriminate H2|exact H2|discriminate H2].
Defined.

(** ** Transfers *)

Definition calm_send (_ : nat) : option error := None.

(** The frames of data that ends. *)
Definition framed (ds : list string) (fin : string) : list Frame := (data_frame "data" <$> ds) ++ [frame_of fin].

Lemma copy_frames_data (ds : list string) (tail : list (result Frame)) :
  copy_frames ((Ok <$> (data_frame "data" <$> ds)) ++ tail) =
  let* rest := copy_frames tail in Ok (concat_str ds +:+ rest).
Proof.
  induction ds as [|d ds IH].
  - cbn. destruct (copy_frames tail); [|done]. cbn. by rewrite app_nil_l_str.
  - change (copy_frames ((Ok <$> (data_frame "data" <$> d :: ds)) ++ tail)) with
      (let* rest := copy_frames ((Ok <$> (data_frame "data" <$> ds)) ++ tail) in Ok (d +:+ rest)).
    rewrite IH. destruct (copy_frames tail); [|done]. cbn. by rewrite app_assoc_str.
Qed.

Lemma copy_out_data (ds : list string) (tail : list (result Frame)) :
  copy_out_reader ((Ok <$> (data_frame "data" <$> ds)) ++ tail) =
  let '(b, r) := copy_out_reader tail in (concat_str ds +:+ b, r).
Proof.
  induction ds as [|d ds IH].
  - cbn. destruct (copy_out_reader tail). by rewrite app_nil_l_str.
  - change (copy_out_reader ((Ok <$> (data_frame "data" <$> d :: ds)) ++ tail)) with
      (let '(b, r) := copy_out_reader ((Ok <$> (data_frame "data" <$> ds)) ++ tail) in (d +:+ b, r)).
    rewrite IH. destruct (copy_out_reader tail) as [b r]. cbn. by rewrite app_assoc_str.
Qed.

(** A part of the frames of a transfer has its end frame only if it is all. *)
Lemma framed_prefix (ds : list string) (fin : string) (p : list Frame) :
  p `prefix_of` framed ds fin -> p = framed ds fin \/ exists ds', p = data_frame "data" <$> ds' /\ ds' `prefix_of` ds.
Proof.
  unfold framed. revert p. induction ds as [|d ds IH]; intros p Hp.
  - cbn [fmap list_fmap app] in *. destruct p as [|f p]; [right; by exists []|]. left.
    pose proof (prefix_cons_inv_1 _ _ _ _ Hp). apply prefix_cons_inv_2 in Hp. apply prefix_nil_inv in Hp. by subst.
  - destruct p as [|f p]; [right; exists []; split; [done|apply prefix_nil]|].
    pose proof (prefix_cons_inv_1 _ _ _ _ Hp). apply prefix_cons_inv_2 in Hp. subst f.
    destruct (IH p Hp) as [->|(ds' & -> & Hd)]; [by left|]. right. exists (d :: ds'). split; [done|]. by apply prefix_cons.
Qed.

Lemma data_writer_frames (send : nat -> option error) (fuel t : nat) (b : string) (fs : list Frame) (r : result unit) :
  (String.length b <= fuel)%nat -> data_writer send t fuel b = (fs, r) ->
  exists ds, fs = data_frame "data" <$> ds /\ (exists rest, concat_str ds +:+ rest = b) /\
    Forall (fun d => d <> "" /\ Z.of_nat (String.length d) <= 32768) ds /\ (is_ok r = true -> concat_str ds = b).
Proof.
  assert (exists m, Z.to_nat 32768 = S m /\ Z.of_nat (S m) = 32768) as (m & Em & Ez).
  { exists (Z.to_nat 32767). rewrite <-Z2Nat.inj_succ by lia. split; [done|]. rewrite Z2Nat.id; lia. }
  revert t b fs r. induction fuel as [|fuel IH]; intros t b fs r Hf H.
  { destruct b; [|cbn in Hf; lia]. injection H as <- <-. exists []. split_and!; [done|by exists ""|done|done]. }
  destruct b as [|c b]; [injection H as <- <-; exists []; split_and!; [done|by exists ""|done|done]|].
  cbn [data_writer] in H. rewrite Em in H.
  assert (Z.of_nat (String.length (take_str (S m) (String c b))) <= 32768) as Hl.
  { rewrite length_take_str. lia. }
  destruct (send t) as [e|].
  - injection H as <- <-. exists [take_str (S m) (String c b)]. split_and!; [done| | |done].
    + exists (drop_str (S m) (String c b)). cbn [concat_str foldr]. rewrite app_nil_r_str. apply take_drop_str.
    + by constructor.
  - destruct (data_writer send (S t) fuel (drop_str (S m) (String c b))) as [fs' r'] eqn:E. injection H as <- <-.
    apply IH in E as (ds & -> & (rest & Hr) & Hds & Hok).
    2: { rewrite length_drop_str. cbn [String.length] in *. lia. }
    exists (take_str (S m) (String c b) :: ds). split_and!; [done| | |].
    + exists rest. cbn [concat_str foldr]. rewrite app_assoc_str.
      trans (take_str (S m) (String c b) +:+ drop_str (S m) (String c b)); [by rewrite <-Hr|apply take_drop_str].
    + by constructor.
    + intros Hok'. cbn [concat_str foldr]. etrans; [|apply (take_drop_str (S m))]. f_equal. by apply Hok.
Qed.

(** What the goroutine of a copy into the container sends: the data as far as
    it got, and the end only after all of it. *)
Lemma copy_in_sender_frames (send : nat -> option error) (writes : list string) (fin : result unit) (t : nat)
    (fs : list Frame) (r : result unit) :
  copy_in_sender send t writes fin = (fs, r) ->
  exists ds, (fs = data_frame "data" <$> ds /\ is_ok r = false) \/
    (fs = framed ds "eof" /\ concat_str ds = concat_str writes /\ fin = Ok tt).
Proof.
  revert t fs r. induction writes as [|b writes IH]; intros t fs r H; cbn [copy_in_sender] in H.
  - destruct fin as [[]|e]; injection H as <- <-; exists []; [right|left]; done.
  - unfold Write in H. destruct (data_writer send t (String.length b) b) as [fs1 r1] eqn:E.
    apply data_writer_frames in E as (ds & -> & _ & _ & Hok); [|done].
    destruct r1 as [[]|e]; [|injection H as <- <-; exists ds; by left].
    destruct (copy_in_sender _ _ writes fin) as [fs' r'] eqn:E'. injection H as <- <-.
    apply IH in E' as (ds' & [[-> Hr]|(-> & Hc & Hf)]); exists (ds ++ ds').
    + left. by rewrite fmap_app.
    + right. unfold framed. rewrite fmap_app, app_assoc, concat_str_app, Hc, (Hok eq_refl). done.
Qed.

Lemma upload_sender_frames (send : nat -> option error) (reads : list (string * read_end)) (t : nat)
    (fs : list Frame) (r : option (result unit)) :
  upload_sender send t reads = (fs, r) ->
  exists ds, (fs = data_frame "data" <$> ds /\ r <> Some (Ok tt)) \/
    (exists pre buf post, fs = framed ds "eof" /\ reads = pre ++ (buf, EOF) :: post /\
       Forall (fun x => snd x = More) pre /\ concat_str ds = concat_str (fst <$> (pre ++ [(buf, EOF)]))).
Proof.
  revert t fs r. induction reads as [|[buf fin] reads IH]; intros t fs r H; cbn [upload_sender] in H.
  { injection H as <- <-. exists []. by left. }
  assert (exists d, (if bool_decide (buf = "") then [] else [data_frame "data" buf]) = data_frame "data" <$> d /\
    concat_str d = buf) as (d & Hd & Hb).
  { case_bool_decide as Hb; [subst buf; by exists []|]. exists [buf]. split; [done|]. apply app_nil_r_str. }
  rewrite Hd in H. destruct (if bool_decide (buf = "") then None else send t) as [e|].
  { injection H as <- <-. exists d. by left. }
  destruct fin as [| |e].
  - destruct (upload_sender send _ reads) as [fs' r'] eqn:E. injection H as <- <-.
    apply IH in E as (ds & [[-> Hr]|(pre & b & post & -> & -> & HF & HC)]).
    + exists (d ++ ds). left. by rewrite fmap_app.
    + exists (d ++ ds). right. exists ((buf, More) :: pre), b, post. split_and!; [|done|by constructor|].
      * unfold framed. by rewrite fmap_app, app_assoc.
      * rewrite concat_str_app, HC, Hb. done.
  - injection H as <- <-. exists d. right. exists [], buf, reads. split_and!; [done|done|done|].
    rewrite Hb. cbn. by rewrite app_nil_r_str.
  - injection H as <- <-. exists d. by left.
Qed.

Lemma accepted_all (ds : list string) (sent received : list Frame) (lost : error) (b : string) :
  sent = framed ds "eof" \/ sent = data_frame "data" <$> ds ->
  received `prefix_of` sent -> copy_frames ((Ok <$> received) ++ [Err lost]) = Ok b ->
  sent = framed ds "eof" /\ received = sent /\ b = concat_str ds.
Proof.
  intros Hs Hp H.
  assert (received `prefix_of` framed ds "eof") as Hp'.
  { destruct Hs as [->| ->]; [done|]. etrans; [exact Hp|]. apply prefix_app_r. done. }
  destruct (framed_prefix ds "eof" received Hp') as [->|(ds' & -> & _)].
  - unfold framed in H. rewrite fmap_app, <-app_assoc, copy_frames_data in H.
    change (copy_frames ((Ok <$> [frame_of "eof"]) ++ [Err lost])) with (Ok (A := string) "") in H. cbn [result_bind] in H.
    rewrite app_nil_r_str in H. injection H as <-. split_and!; [|apply (prefix_length_eq _ _ Hp)|done].
    + destruct Hs as [->| ->]; [done|]. apply prefix_length in Hp. unfold framed in Hp. rewrite length_app in Hp. cbn in Hp. lia.
    + destruct Hs as [->| ->]; [done|]. unfold framed. rewrite length_app. lia.
  - rewrite copy_frames_data in H. done.
Qed.

Lemma writer_frames_data (writes : list string) :
  exists ds, (writes ≫= writer_frames "data") = data_frame "data" <$> ds /\ concat_str ds = concat_str writes.
Proof.
  induction writes as [|w writes (ds & IH1 & IH2)]; [by exists []|].
  exists (writer_chunks (String.length w) w ++ ds). cbn [mbind list_bind]. split.
  - rewrite fmap_app. f_equal. exact IH1.
  - rewrite concat_str_app, IH2. cbn. f_equal. by destruct (writer_chunks_spec (String.length w) w) as [H _].
Qed.

Lemma copy_out_complete (ds : list string) (received : list Frame) (lost : error) (b : string) :
  received `prefix_of` framed ds "exit" -> copy_out_reader ((Ok <$> received) ++ [Err lost]) = (b, Some (Ok tt)) ->
  b = concat_str ds.
Proof.
  intros Hp H. destruct (framed_prefix ds "exit" received Hp) as [->|(ds' & -> & _)].
  - unfold framed in H. rewrite fmap_app, <-app_assoc, copy_out_data in H. 
    change (copy_out_reader ((Ok <$> [frame_of "exit"]) ++ [Err lost])) with ("", Some (Ok (A := unit) tt)) in H.
    cbv iota beta in H. rewrite app_nil_r_str in H. congruence.
  - rewrite copy_out_data in H. discriminate H.
Qed.

Lemma data_writer_calm (fuel t : nat) (b : string) : snd (data_writer calm_send t fuel b) = Ok tt.
Proof.
  revert t b. induction fuel as [|fuel IH]; intros t [|c b]; try done. cbn [data_writer calm_send].
  generalize (drop_str (Z.to_nat 32768) (String c b)). intros d. specialize (IH (S t) d).
  destruct (data_writer calm_send (S t) fuel d). exact IH.
Qed.

Lemma copy_in_calm (writes : list string) (t : nat) : snd (copy_in_sender calm_send t writes (Ok tt)) = Ok tt.
Proof.
  revert t. induction writes as [|w writes IH]; intros t; [done|]. cbn [copy_in_sender]. unfold Write.
  pose proof (data_writer_calm (String.length w) t w) as Hw. destruct (data_writer _ _ _ _) as [fs r]. cbn in Hw. subst r.
  specialize (IH (t + length fs)%nat). destruct (copy_in_sender _ _ writes _). exact IH.
Qed.

(** What the guest accepts of a copy is all that the archiver gave. *)
Lemma copy_in_accepted (send : nat -> option error) (writes : list string) (fin r : result unit) (fs received : list Frame)
    (lost : error) (b : string) :
  copy_in_sender send 0 writes fin = (fs, r) -> received `prefix_of` fs -> copy_frames ((Ok <$> received) ++ [Err lost]) = Ok b ->
  fin = Ok tt /\ b = concat_str writes.
Proof.
  intros Hs Hp Hc. apply copy_in_sender_frames in Hs as (ds & Hs).
  destruct (accepted_all ds fs received lost b) as (H1 & -> & ->); [naive_solver|done|done|].
  destruct Hs as [[-> _]|(_ & H2 & H3)]; [|done].
  apply (f_equal length) in H1. unfold framed in H1. rewrite length_app in H1. cbn in H1. lia.
Qed.
Lemma copy_in_all (writes : list string) (tail : list (result Frame)) :
  exists fs, copy_in_sender calm_send 0 writes (Ok tt) = (fs, Ok tt) /\ copy_frames ((Ok <$> fs) ++ tail) = Ok (concat_str writes).
Proof.
  pose proof (copy_in_calm writes 0) as Hok. destruct (copy_in_sender calm_send 0 writes (Ok tt)) as [fs r] eqn:E.
  cbn in Hok. subst r. exists fs. split; [done|].
  apply copy_in_sender_frames in E as (ds & [[_ H]|(-> & H2 & _)]); [done|].
  unfold framed. rewrite fmap_app, <- app_assoc, copy_frames_data.
  change (copy_frames ((Ok <$> [frame_of "eof"]) ++ tail)) with (Ok (A := string) ""). cbn [result_bind]. by rewrite app_nil_r_str, H2.
Qed.

(** Copies and uploads are all or nothing at the stream level.  The guest (or the
    daemon) takes an archive as complete only when the frame that ends it has
    arrived, so for every way the archiver, the connection or the peer fails,
    and however many of the frames sent have arrived when the connection is
    lost, what is accepted is exactly what the archiver or the file gave, in
    full.  The same holds in the other direction: the reader of a copy out of
    the container sees a clean end exactly when all of the archive and the exit
    frame have arrived; a successful transfer without failures happens. *)
Theorem transfers_exact (send : nat -> option error) (writes : list string) (fin : result unit)
    (reads : list (string * read_end)) (received : list Frame) (lost : error) (b : string) :
  (forall fs r, copy_in_sender send 0 writes fin = (fs, r) ->
     received `prefix_of` fs -> copy_frames ((Ok <$> received) ++ [Err lost]) = Ok b ->
     fin = Ok tt /\ b = concat_str writes) /\
  (forall fs r, upload_sender send 0 reads = (fs, r) ->
     received `prefix_of` fs -> copy_frames ((Ok <$> received) ++ [Err lost]) = Ok b ->
     exists pre buf post, reads = pre ++ (buf, EOF) :: post /\ b = concat_str (fst <$> (pre ++ [(buf, EOF)]))) /\
  (received `prefix_of` ((writes ≫= writer_frames "data") ++ [exit_frame None]) ->
     copy_out_reader ((Ok <$> received) ++ [Err lost]) = (b, Some (Ok tt)) -> b = concat_str writes) /\
  (exists fs, copy_in_sender calm_send 0 writes (Ok tt) = (fs, Ok tt) /\ copy_frames (Ok <$> fs) = Ok (concat_str writes)) /\
  copy_out_reader (Ok <$> ((writes ≫= writer_frames "data") ++ [exit_frame None])) = (concat_str writes, Some (Ok tt)).
Proof.
  destruct (writer_frames_data writes) as (ws & Hw1 & Hw2). split_and!.
  - intros fs r Hs Hp Hc. by apply (copy_in_accepted send writes fin r fs received lost b).
  - intros fs r Hs Hp Hc. apply upload_sender_frames in Hs as (ds & Hs).
    destruct (accepted_all ds fs received lost b) as (H1 & -> & ->); [naive_solver|done|done|].
    destruct Hs as [[-> _]|(pre & buf & post & _ & H2 & _ & H3)]; [|eauto].
    apply (f_equal length) in H1. unfold framed in H1. rewrite length_app in H1. cbn in H1. lia.
  - rewrite Hw1, <-Hw2. apply copy_out_complete.
  - destruct (copy_in_all writes []) as (fs & H1 & H2). rewrite app_nil_r in H2. by exists fs.
  - rewrite Hw1, fmap_app, copy_out_data.
    change (copy_out_reader (Ok <$> [exit_frame None])) with ("", Some (Ok (A := unit) tt)).
    cbv iota beta. by rewrite app_nil_r_str, Hw2.
Qed.
