(* ===== verification/CliLogs.v ===== *)
(** * CliLogs: the logs command (internal/cli/root.go, [App.logs])

    The command pages through the journal of a sandbox with a cursor, and with
    [--follow] polls until the sandbox has exited.  The answers of the daemon at
    each round are arguments; composed with [Journal.Read] they are what the
    daemon's "logs" action answers. *)

From S2P Require Import Prelude GoLib Api RuntimeSpec Agent CliSession Journal.
Import Strings.
Local Open Scope Z_scope.
Local Open Scope go_scope.

Section Logs.
Variable fetch : nat -> Z -> result (list Frame).  (* the "logs" call of a round *)
Variable inspect : nat -> result string.           (* the state that "inspect" reports *)
Variable cancelled : nat -> bool.
Variable format : Z -> string.                     (* [Time.Format(time.RFC3339Nano)] *)
Variable after : Z.                                (* [--since] *)
Variables follow timestamps : bool.

(** The frames of a batch: the cursor moves over all of them, those before
    [--since] are left out. *)
Definition collect (frames : list Frame) (st : Z * list Frame) : Z * list Frame :=
  fold_left (fun st f => (fr_Sequence f, if fr_Time f <? after then snd st else snd st ++ [f])) frames st.

(** [--tail] *)
Definition tail_frames (tail : Z) (l : list Frame) : list Frame :=
  if (0 <=? tail) && (tail <? Z.of_nat (length l)) then drop (length l - Z.to_nat tail) l else l.

Definition show (s : screen) (f : Frame) : screen :=
  if bool_decide (fr_Type f = "gap") then mkScreen (s_out s) (s_err s +:+ (fr_Message f +:+ CliSession.newline))
  else
    let text := (if timestamps then format (fr_Time f) +:+ " " else "") +:+ fr_Data f in
    if bool_decide (fr_Type f = "stderr") then mkScreen (s_out s) (s_err s +:+ text)
    else mkScreen (s_out s +:+ text) (s_err s).

(** The loop; [None] when the fuel, one unit for each call, is used up. *)
Fixpoint logs_loop (fuel t : nat) (cursor tail : Z) (initial : list Frame) (s : screen)
  : option (result unit) * screen :=
  match fuel with
  | 0%nat => (None, s)
  | S fuel =>
      match fetch t cursor with
      | Err e => (Some (Err e), s)
      | Ok frames =>
          let '(cursor, initial) := collect frames (cursor, initial) in
          if negb (bool_decide (frames = [])) then logs_loop fuel (S t) cursor tail initial s
          else
            let s := fold_left show (tail_frames tail initial) s in
            if negb follow then (Some (Ok tt), s)
            else
              match inspect t with
              | Err e => (Some (Err e), s)
              | Ok state =>
                  if bool_decide (state = "exited" \/ state = "failed") then (Some (Ok tt), s)
                  else if cancelled t then (Some (Err (Errorf "context canceled")), s)
                  else logs_loop fuel (S t) cursor (-1) [] s
              end
      end
  end.

Definition logs (fuel : nat) (tail : Z) : option (result unit) * screen :=
  logs_loop fuel 0 0 tail [] (mkScreen "" "").
End Logs.

(** ** Paging *)

Definition recent (after : Z) (fs : list Frame) : list Frame := filter (fun f => after <= fr_Time f) fs.

Lemma collect_spec (after : Z) (frames : list Frame) (c : Z) (init : list Frame) :
  collect after frames (c, init) = (List.last (fr_Sequence <$> frames) c, init ++ recent after frames).
Proof.
  revert c init. induction frames as [|f frames IH]; intros c init.
  { cbn. by rewrite app_nil_r. }
  cbn [collect fold_left]. fold (collect after). cbn [snd]. unfold collect in IH. rewrite IH. f_equal.
  - clear. revert f c. induction frames as [|g frames IH]; intros f c; [done|].
    change (List.last (fr_Sequence <$> (f :: g :: frames)) c) with (List.last (fr_Sequence <$> (g :: frames)) c).
    cbn [fmap list_fmap]. rewrite <-!(IH g). done.
  - unfold recent. rewrite filter_cons. destruct (fr_Time f <? after) eqn:E; bool_prop.
    + rewrite decide_False by lia. done.
    + rewrite decide_True by lia. by rewrite <-app_assoc.
Qed.

(** Whether a reader that follows the batches meets an empty one. *)
Fixpoint read_done (j : Journal) (after : Z) (fuel : nat) : bool :=
  match fuel with
  | 0%nat => false
  | S fuel =>
      match Read j after with
      | [] => true
      | batch => read_done j (List.last (fr_Sequence <$> batch) after) fuel
      end
  end.

Lemma read_done_length (j : Journal) (after : Z) (fuel : nat) :
  read_done j after fuel = false -> (fuel <= length (read_all j after fuel))%nat.
Proof.
  revert after. induction fuel as [|fuel IH]; intros after H; [cbn; lia|]. cbn [read_done read_all] in *.
  destruct (Read j after) as [|f b]; [done|]. apply IH in H. rewrite length_app. cbn [length]. lia.
Qed.

Lemma logs_loop_read (inspect : nat -> result string) (cancelled : nat -> bool) (format : Z -> string) (since : Z)
    (timestamps : bool) (j : Journal) (fuel t : nat) (c tail : Z) (init : list Frame) (s : screen) :
  read_done j c fuel = true ->
  logs_loop (fun _ c => Ok (Read j c)) inspect cancelled format since false timestamps fuel t c tail init s =
  (Some (Ok tt), fold_left (show format timestamps) (tail_frames tail (init ++ recent since (read_all j c fuel))) s).
Proof.
  revert t c init. induction fuel as [|fuel IH]; intros t c init H; [done|]. cbn [read_done read_all logs_loop] in *.
  rewrite collect_spec. destruct (Read j c) as [|f b] eqn:E.
  - cbn. by rewrite app_nil_r.
  - rewrite bool_decide_eq_false_2 by done. cbn [negb]. rewrite IH by done.
    unfold recent. by rewrite filter_app, app_assoc.
Qed.

(** Paging from the start gets everything that is retained, and ends. *)
Lemma journal_paged (j : Journal) (fuel : nat) :
  wf j -> j_seq j + 1 < two64 -> (length (j_frames j) + 1 < fuel)%nat ->
  read_done j 0 fuel = true /\ read_all j 0 fuel = gap j 0 ++ j_frames j.
Proof.
  intros Hw Hmax Hf.
  pose proof (wf_numbered j Hw) as Hn.
  assert (0 <= j_seq j - Z.of_nat (length (j_frames j))) as Hseq by (destruct Hw; lia).
  destruct (read_all_complete j 0 fuel Hw Hmax) as [HR _]; [lia|lia|].
  assert (later 0 (j_frames j) = j_frames j) as Hl.
  { rewrite (later_numbered _ _ _ Hn). by replace (Z.to_nat _) with 0%nat by lia. }
  rewrite Hl in HR.
  assert (read_done j 0 fuel = true) as Hd.
  { destruct (read_done j 0 fuel) eqn:E; [done|]. apply read_done_length in E. rewrite HR, length_app in E.
    assert (length (gap j 0) <= 1)%nat by (unfold gap; destruct (j_frames j); [cbn; lia|]; destruct (_ <? _); cbn; lia). lia. }
  done.
Qed.

(** Without [--follow] the command ends, after at most one call per retained
    frame and two more, and prints exactly what the journal retains: one notice
    when older output was dropped, then every retained frame from [--since] on,
    once, in order and on its own stream, or the last [--tail] of these. *)
Theorem logs_complete (inspect : nat -> result string) (cancelled : nat -> bool) (format : Z -> string) (since tail : Z)
    (timestamps : bool) (j : Journal) (fuel : nat) :
  wf j -> j_seq j + 1 < two64 -> (length (j_frames j) + 1 < fuel)%nat ->
  logs (fun _ c => Ok (Read j c)) inspect cancelled format since false timestamps fuel tail =
  (Some (Ok tt),
   fold_left (show format timestamps) (tail_frames tail (recent since (gap j 0 ++ j_frames j))) (mkScreen "" "")).
Proof.
  intros Hw Hmax Hf. destruct (journal_paged j fuel Hw Hmax Hf) as [Hd HR]. unfold logs.
  rewrite logs_loop_read by done. by rewrite HR.
Qed.

Module LogsSample.
Definition frame (kind data : string) (n : Z) : Frame := mkFrame kind data "" None 0 0 n n.
Definition journal : Journal :=
  mkJournal [frame "stdout" "b" 2; frame "stderr" "c" 3] (total [frame "stdout" "b" 2; frame "stderr" "c" 3]) 3.
Lemma journal_wf : wf journal.
Proof. split; [reflexivity|done|apply (bool_decide_unpack _); vm_compute; exact I|done|done|done]. Qed.
Definition state (_ : nat) : result string := Ok "exited".
Definition stamp (_ : Z) : string := "".
Definition going (_ : nat) : bool := false.
End LogsSample.

Lemma logs_complete_witness :
  logs (fun _ c => Ok (Read LogsSample.journal c)) LogsSample.state LogsSample.going LogsSample.stamp 0 false false 5 (-1) =
  (Some (Ok tt), mkScreen "b" ("older application logs were rotated" +:+ CliSession.newline +:+ "c")).
Proof.
  rewrite (logs_complete LogsSample.state LogsSample.going LogsSample.stamp 0 (-1) false LogsSample.journal 5
    LogsSample.journal_wf); [reflexivity|reflexivity|cbn; lia].
Defined.

(** ** Following *)

Lemma collect_above (since : Z) (c : Z) (init batch : list Frame) (base : Z) :
  above base init -> List.last (fr_Sequence <$> init) base <= c -> above c batch ->
  above base (init ++ recent since batch) /\ List.last (fr_Sequence <$> (init ++ recent since batch)) base <= List.last (fr_Sequence <$> batch) c.
Proof.
  intros Hi Hl Hb.
  assert (recent since batch `sublist_of` batch) as Hs by apply sublist_filter.
  split.
  - apply above_app. split; [done|]. apply (above_weaken c); [done|]. by apply (above_sublist c _ batch).
  - rewrite last_app_Z. etrans; [apply last_mono; exact Hl|]. by apply last_sublist.
Qed.

Lemma tail_sublist (tail : Z) (l : list Frame) : tail_frames tail l `sublist_of` l.
Proof. unfold tail_frames. destruct (_ && _); [apply sublist_drop|done]. Qed.

Section Follow.
Context (J : nat -> Journal) (inspect : nat -> result string) (cancelled : nat -> bool) (format : Z -> string)
  (since : Z) (follow timestamps : bool).
Hypothesis Jwf : forall t, wf (J t) /\ j_seq (J t) + 1 < two64.

Lemma logs_loop_above (fuel t : nat) (c tail : Z) (sh init : list Frame) (s0 : screen) :
  0 <= c -> c + 1 < two64 -> above 0 (sh ++ init) -> List.last (fr_Sequence <$> (sh ++ init)) 0 <= c ->
  exists sh', snd (logs_loop (fun t c => Ok (Read (J t) c)) inspect cancelled format since follow timestamps fuel t c tail init
                     (fold_left (show format timestamps) sh s0)) = fold_left (show format timestamps) sh' s0 /\ above 0 sh'.
Proof.
  revert t c tail sh init. induction fuel as [|fuel IH]; intros t c tail sh init H0 Hmax Ha Hl.
  { exists sh. split; [done|]. by apply above_app in Ha as [Ha _]. }
  cbn [logs_loop]. rewrite collect_spec. destruct (Jwf t) as [Hw Hb].
  pose proof (Read_above (J t) c Hw H0 Hmax) as HA. pose proof (Read_range (J t) c Hw) as HR.
  case_bool_decide as He; cbn [negb].
  - rewrite He in *. cbn [recent fmap list_fmap List.last]. rewrite app_nil_r, <-fold_left_app.
    assert (above 0 (sh ++ tail_frames tail init)) as Ha'.
    { eapply above_sublist; [|exact Ha]. apply sublist_app; [done|apply tail_sublist]. }
    destruct follow; cbn [negb]; [|eauto]. destruct (inspect t) as [st|]; [|eauto]. case_bool_decide; [eauto|].
    destruct (cancelled t); [eauto|]. apply IH; [done|done|by rewrite app_nil_r|].
    rewrite app_nil_r. etrans; [|exact Hl]. rewrite !last_app_Z. apply above_app in Ha as [_ Ha].
    apply last_sublist; [done|apply tail_sublist].
  - destruct (collect_above since c (sh ++ init) (Read (J t) c) 0 Ha Hl HA) as [H1 H2]. rewrite <-app_assoc in H1, H2.
    destruct (last_range (Read (J t) c) c (j_seq (J t))) as [H3 H4]; [done|done|]. apply IH; try done. lia.
Qed.
End Follow.

(** Following never repeats or reorders output.  While the application writes and
    the journal drops old frames, whatever state each round finds, the frames
    that were printed so far have strictly increasing sequence numbers. *)
Theorem logs_follow_ordered (J : nat -> Journal) (inspect : nat -> result string) (cancelled : nat -> bool)
    (format : Z -> string) (since tail : Z) (follow timestamps : bool) (fuel : nat) :
  (forall t, wf (J t) /\ j_seq (J t) + 1 < two64) ->
  exists shown, snd (logs (fun t c => Ok (Read (J t) c)) inspect cancelled format since follow timestamps fuel tail) =
    fold_left (show format timestamps) shown (mkScreen "" "") /\ above 0 shown.
Proof. intros HJ. apply (logs_loop_above J) with (sh := []); try done. Qed.

Lemma logs_follow_ordered_witness :
  exists shown, snd (logs (fun _ c => Ok (Read LogsSample.journal c)) LogsSample.state LogsSample.going LogsSample.stamp 0 true false 5 (-1)) =
    fold_left (show LogsSample.stamp false) shown (mkScreen "" "") /\ above 0 shown.
Proof.
  apply (logs_follow_ordered (fun _ => LogsSample.journal)). intros _. split; [exact LogsSample.journal_wf|reflexivity].
Defined.

(** The last output can be missed: here the application writes "bye" and exits
    between the empty answer of the journal and the inspection that reports the
    exit, and the command ends without having printed it. *)
Lemma logs_follow_can_miss :
  let bye := LogsSample.frame "stdout" "bye" 1 in
  let J (t : nat) : Journal := if bool_decide (t = 0%nat) then empty_journal else mkJournal [bye] (total [bye]) 1 in
  logs (fun t c => Ok (Read (J t) c)) (fun _ => Ok "exited") (fun _ => false) LogsSample.stamp 0 true false 5 (-1) =
    (Some (Ok tt), mkScreen "" "") /\ j_frames (J 1%nat) = [bye].
Proof. split; reflexivity. Qed.
