(* ===== verification/Cli.v ===== *)
(** * Cli: the commands of the client (internal/cli/root.go, auth.go, images.go,
    doctor.go, keygen.go)

    A command turns flags and arguments into requests to the daemon and prints
    the answers.  The answers are given by a function of the number of the call
    and the request, so that theorems hold for every daemon; a command's result
    is the requests it made, what it printed, and how it ended.  Flag parsing
    itself (cobra) is outside: a command gets the values of its flags. *)

From S2P Require Import Prelude GoLib Api RuntimeSpec Agent CliSession.
Import Strings Strconv.
Local Open Scope Z_scope.
Local Open Scope go_scope.

(** ** Environment files *)

Definition carriage : string := str1 "013"%char.

(** [bufio.ScanLines]: the lines of a text, without their ends; a last line
    needs no end. *)
Definition drop_last_empty (l : list string) : list string :=
  match last l with Some "" => removelast l | _ => l end.
Definition lines (s : string) : list string := drop_last_empty (Split s "010"%char).

(** [bufio.MaxScanTokenSize]: a line that fills the buffer is an error. *)
Definition MaxScanTokenSize : Z := 65536.
Definition ErrTooLong : error := Errorf "bufio.Scanner: token too long".

(** The loop of [readEnv]; [err] is the error that ended the reading. *)
Fixpoint read_lines (ls : list string) (err : option error) (out : list string) : result (list string) :=
  match ls with
  | [] => match err with Some e => Err e | None => Ok out end
  | raw :: ls =>
      if MaxScanTokenSize <=? Z.of_nat (String.length raw) then Err ErrTooLong
      else
        let line := TrimSuffix (TrimSuffix raw carriage) carriage in
        if bool_decide (TrimSpace line = "") || HasPrefix (TrimSpace line) "#" then read_lines ls err out
        else
          let '(k, _, ok) := Cut line "=" in
          if negb ok || bool_decide (k = "") then Err (Errorf "env-file requires KEY=VALUE")
          else read_lines ls err (out ++ [line])
  end.

(** [readEnv]; [opened] is the file: its bytes and the error after them. *)
Definition readEnv (opened : result (string * option error)) : result (list string) :=
  let* f := opened in read_lines (lines (fst f)) (snd f) [].

(** ** Requests *)

Definition request (action id : string) : Request :=
  mkRequest action id "" None None None "" "" false "" 0 "" "".

(** What the daemon may answer. *)
Inductive reply : Type :=
| RNone
| RSandbox (v : Sandbox)
| RSandboxes (l : list Sandbox)
| RExit (x : Exit)
| RVolume (v : Volume)
| RInfo (defaultBase : string)
| RText (json : string).

(** A command: the requests made, what is printed, and how it ends; a command
    that attaches goes on as a session. *)
Inductive ending : Type := Ended (o : outcome) | Attach (v : Sandbox) (interactive tty : bool) | Session (q : Request) (interactive tty : bool).
Record run_of : Type := mkRun { ru_calls : list Request; ru_screen : screen; ru_end : ending }.

Definition fail_with (calls : list Request) (s : screen) (e : error) : run_of := mkRun calls s (Ended (Some (Failed e))).
Definition println (line : string) : screen := mkScreen (line +:+ newline) "".

(** An answer of another kind than expected does not decode. *)
Definition ErrDecode : error := Errorf "json: cannot unmarshal".
Definition sandbox_of (r : result reply) : result Sandbox :=
  let* r := r in match r with RSandbox v => Ok v | _ => Err ErrDecode end.

(** ** Running containers *)

(** The flags of [run] and [create]: [spec] with the fields that flags set
    directly, and the others. *)
Record Flags : Type := mkFlags {
  f_spec : Spec; f_detach : bool; f_memory : string; f_disk : string; f_entry : option string;
  f_envFiles : list string; f_ports : list string; f_mounts : list string; f_volumes : list string }.

(** The flags when none is given. *)
Definition default_flags : Flags := mkFlags DefaultSpec false "512m" "4g" None [] [] [] [].

Fixpoint map_ok {A B} (f : A -> result B) (l : list A) : result (list B) :=
  match l with
  | [] => Ok []
  | x :: l => let* y := f x in let* ys := map_ok f l in Ok (y :: ys)
  end.

Section Commands.
Variable fold : string -> string.  (* lower case of text outside ASCII, see [Api.Size] *)

(** The first part of [run]: the specification from flags and arguments. *)
Definition assemble (open : string -> result (string * option error)) (fl : Flags) (image : string) (command : list string)
  : result Spec :=
  let s := f_spec fl in
  let* memory := Api.Size fold (f_memory fl) in
  let* disk := Api.Size fold (f_disk fl) in
  let entry := match f_entry fl with Some e => Some e | None => s_Entrypoint s end in
  let* ports := map_ok ParsePort (f_ports fl) in
  let* mounts := map_ok ParseMount (f_mounts fl ++ f_volumes fl) in
  let* files := map_ok (fun p => readEnv (open p)) (f_envFiles fl) in
  let spec := mkSpec image (s_Base s) (s_Name s) command entry (MergeEnv (concat files) (s_Env s)) (s_User s) (s_Workdir s)
    (s_CPUs s) memory disk (s_PidsLimit s) (s_Network s) (s_Ports s ++ ports) (s_Mounts s ++ mounts)
    (s_Runtime s) (s_Platform s) (s_Pull s) (s_ReadOnly s) (s_Interactive s) (s_TTY s) (s_AutoRemove s) in
  let* _ := Validate spec in
  Ok spec.

Variable call : nat -> Request -> result reply.
Variable auth : string -> string -> string.  (* [json.Marshal(daemon.Auth{App, Base})] *)

Definition create_request (spec : Spec) : Request :=
  mkRequest "create" "" "" (Some spec) None None "" "" false "" 0 "" (auth (s_Image spec) (s_Base spec)).

Definition warn (warnings : list string) : screen := mkScreen "" (foldr (fun w t => w +:+ newline +:+ t) "" warnings).
Definition and_then (s s' : screen) : screen := mkScreen (s_out s +:+ s_out s') (s_err s +:+ s_err s').

(** [run] from the specification on. *)
Definition run_spec (create detach : bool) (n : nat) (calls : list Request) (spec : Spec) : run_of :=
  let q := create_request spec in
  match sandbox_of (call n q) with
  | Err e => fail_with (calls ++ [q]) (mkScreen "" "") e
  | Ok v =>
      let warned := warn (sb_Warnings v) in
      if create then mkRun (calls ++ [q]) (and_then warned (println (sb_ID v))) (Ended None)
      else
        let start := request "start" (sb_ID v) in
        match sandbox_of (call (S n) start) with
        | Err e => fail_with (calls ++ [q; start]) warned
                     (Errorf (error_text e +:+ " (inspect/remove retained container " +:+ sb_ID v +:+ ")"))
        | Ok v' =>
            if detach then mkRun (calls ++ [q; start]) (and_then warned (println (sb_ID v'))) (Ended None)
            else mkRun (calls ++ [q; start]) warned (Attach v' (s_Interactive spec) (s_TTY (sb_Spec v')))
        end
  end.

(** The handler of [run] and [create]. *)
Definition run (create : bool) (open : string -> result (string * option error)) (fl : Flags)
    (image : string) (command : list string) : run_of :=
  match assemble open fl image command with
  | Err e => fail_with [] (mkScreen "" "") e
  | Ok spec =>
      if bool_decide (s_Base spec = "") then
        let info := request "info" "" in
        match call 0%nat info with
        | Err e => fail_with [info] (mkScreen "" "") e
        | Ok (RInfo base) => run_spec create (f_detach fl) 1 [info] (set_Base base spec)
        | Ok _ => fail_with [info] (mkScreen "" "") ErrDecode
        end
      else run_spec create (f_detach fl) 0 [] spec
  end.

(** ** The other commands *)

(** The flags of the commands on one container. *)
Record LifeFlags : Type := mkLifeFlags {
  lf_attach : bool; lf_interactive : bool; lf_force : bool; lf_seconds : Z; lf_sig : string; lf_format : string }.
Definition life_defaults : LifeFlags := mkLifeFlags false false false 10 "SIGKILL" "json".

Definition full_request (action id : string) (fl : LifeFlags) : Request :=
  mkRequest action id "" None None None "" "" (lf_force fl) (lf_sig fl) (lf_seconds fl) "" "".

(** What inspection prints of a sandbox: never its environment. *)
Definition redact (v : Sandbox) : Sandbox :=
  let s := sb_Spec v in
  let p := sb_Process v in
  mkSandbox (sb_ID v) (sb_Name v)
    (mkSpec (s_Image s) (s_Base s) (s_Name s) (s_Command s) (s_Entrypoint s) [] (s_User s) (s_Workdir s)
       (s_CPUs s) (s_Memory s) (s_DiskSize s) (s_PidsLimit s) (s_Network s) (s_Ports s) (s_Mounts s)
       (s_Runtime s) (s_Platform s) (s_Pull s) (s_ReadOnly s) (s_Interactive s) (s_TTY s) (s_AutoRemove s))
    (mkProcess (pr_Args p) [] (pr_User p) (pr_Cwd p) (pr_StopSignal p) (pr_TTY p) (pr_Interactive p))
    (sb_ImageDigest v) (sb_BaseDigest v) (sb_State v) (sb_Reason v) (sb_Warnings v) (sb_Generation v) (sb_Created v)
    (sb_Updated v) (sb_Exit v) (sb_PID v) (sb_PIDStart v) (sb_GuestMemory v) (sb_Slot v) (sb_VMResourcesReleased v).

Variable json : list Sandbox -> string.   (* [App.print] of sandboxes *)

(** The commands on one container: start, stop, restart, kill, rm, inspect, wait
    and attach. *)
Definition lifecycle (name : string) (fl : LifeFlags) (id : string) : run_of :=
  if bool_decide (name = "attach") then mkRun [] (mkScreen "" "") (Session (request "attach" id) true false)
  else if bool_decide (name = "start" \/ name = "restart") then
    let q := mkRequest name id "" None None None "" "" false "" (lf_seconds fl) "" "" in
    match sandbox_of (call 0%nat q) with
    | Err e => fail_with [q] (mkScreen "" "") e
    | Ok v => if lf_attach fl then mkRun [q] (mkScreen "" "") (Attach v (lf_interactive fl) (s_TTY (sb_Spec v)))
              else mkRun [q] (println (sb_ID v)) (Ended None)
    end
  else if bool_decide (name = "wait") then
    let q := request "wait" id in
    match call 0%nat q with
    | Err e => fail_with [q] (mkScreen "" "") e
    | Ok (RExit x) =>
        match x_Code x with
        | None => fail_with [q] (mkScreen "" "") (Errorf (x_Reason x))
        | Some c => mkRun [q] (println (Itoa c)) (Ended None)
        end
    | Ok _ => fail_with [q] (mkScreen "" "") ErrDecode
    end
  else if bool_decide (name = "inspect") then
    if negb (bool_decide (lf_format fl = "json")) then fail_with [] (mkScreen "" "") (Errorf "only --format json supported")
    else
      let q := request name id in
      match sandbox_of (call 0%nat q) with
      | Err e => fail_with [q] (mkScreen "" "") e
      | Ok v => mkRun [q] (mkScreen (json [redact v]) "") (Ended None)
      end
  else
    let q := full_request name id fl in
    match call 0%nat q with
    | Err e => fail_with [q] (mkScreen "" "") e
    | Ok _ => mkRun [q] (println id) (Ended None)
    end.

(** [ps]; the identifiers of the daemon have 32 digits, of which a row shows
    twelve. *)
Definition tab : string := str1 "009"%char.
Definition ps_row (v : Sandbox) : string :=
  take_str 12 (sb_ID v) +:+ tab +:+ s_Image (sb_Spec v) +:+ tab +:+ sb_State v +:+ tab +:+ sb_Name v +:+ newline.
Definition ps_header : string := "CONTAINER ID" +:+ tab +:+ "IMAGE" +:+ tab +:+ "STATUS" +:+ tab +:+ "NAMES" +:+ newline.

Definition ps (all quiet : bool) (format : string) : run_of :=
  let q := request "ps" "" in
  match call 0%nat q with
  | Err e => fail_with [q] (mkScreen "" "") e
  | Ok (RSandboxes rows) =>
      let selected := filter (fun v => all = true \/ sb_State v = "running") rows in
      if negb (bool_decide (format = "")) && negb (bool_decide (format = "json")) then
        fail_with [q] (mkScreen "" "") (Errorf "only --format json supported")
      else if bool_decide (format = "json") then mkRun [q] (mkScreen (json (redact <$> selected)) "") (Ended None)
      else
        let header := if quiet then "" else ps_header in
        let row v := if quiet then sb_ID v +:+ newline else ps_row v in
        mkRun [q] (mkScreen (header +:+ concat_str (row <$> selected)) "") (Ended None)
  | Ok _ => fail_with [q] (mkScreen "" "") ErrDecode
  end.

(** [exec] *)
Definition execCommand (random : nat -> N) (x : Exec) (container : string) (args : list string) : run_of :=
  let x := mkExec (Api.ID random) args (ex_Env x) (ex_User x) (ex_Cwd x) (ex_TTY x) (ex_Interactive x) in
  mkRun [] (mkScreen "" "")
    (Session (mkRequest "exec" container "" None (Some x) None "" "" false "" 0 "" "") (ex_Interactive x) (ex_TTY x)).

Variable print : reply -> string.   (* [App.print] of an answer that is decoded as any value *)

(** A request whose answer is printed as it is. *)
Definition text_of (q : Request) (r : result reply) : run_of :=
  match r with
  | Err e => fail_with [q] (mkScreen "" "") e
  | Ok v => mkRun [q] (mkScreen (print v) "") (Ended None)
  end.

(** [volume create] and the other volume commands. *)
Definition volume_create (name size : string) : run_of :=
  match Api.Size fold size with
  | Err e => fail_with [] (mkScreen "" "") e
  | Ok n =>
      let q := mkRequest "volume-create" "" "" None None (Some (mkVolume name n 0)) "" "" false "" 0 "" "" in
      match call 0%nat q with
      | Err e => fail_with [q] (mkScreen "" "") e
      | Ok (RVolume v) => mkRun [q] (println (vol_Name v)) (Ended None)
      | Ok _ => fail_with [q] (mkScreen "" "") ErrDecode
      end
  end.
Definition volume_command (name : string) (args : list string) : run_of :=
  let q := request ("volume-" +:+ name) (hd "" args) in text_of q (call 0%nat q).

(** The image commands and the base commands with an argument or none. *)
Definition ref_request (action : string) (args : list string) (data : string) : Request :=
  mkRequest action "" "" None None None (hd "" args) "" false "" 0 "" data.
Definition image_command (action : string) (args : list string) : run_of :=
  let q := ref_request action args (if args is ref :: _ then auth ref "" else "") in text_of q (call 0%nat q).
Definition base_command (name : string) (args : list string) : run_of :=
  let q := ref_request ("base-" +:+ name) args (if args is ref :: _ then auth "busybox:1.37" ref else "") in
  text_of q (call 0%nat q).
End Commands.

(** ** Environment files: theorems *)

(** A line that assigns a variable. *)
Definition assignment (e : string) : Prop := exists k v, e = k +:+ "=" +:+ v /\ k <> "" /\ ContainsRune k "=" = false.

Lemma assignment_cut (e : string) :
  assignment e <-> snd (Cut e "=") = true /\ fst (fst (Cut e "=")) <> "".
Proof.
  split.
  - intros (k & v & -> & Hk & Hc). change ("=" +:+ v) with (String "="%char v). by rewrite Cut_app.
  - destruct (Cut e "=") as [[k v] ok] eqn:E. cbn. intros [-> Hk]. apply Cut_found in E as [-> Hc]. by exists k, v.
Qed.

(** A line as it is written in a file and read back. *)
Record env_line (e : string) : Prop := mkEnvLine {
  el_assignment : assignment e;
  el_no_newline : ContainsRune e "010"%char = false;
  el_no_carriage : HasSuffix e carriage = false;
  el_not_blank : TrimSpace e <> "";
  el_no_comment : HasPrefix (TrimSpace e) "#" = false;
  el_short : Z.of_nat (String.length e) < MaxScanTokenSize }.

Lemma lines_written (es : list string) :
  Forall (fun e => ContainsRune e "010"%char = false) es -> lines (concat_str ((fun e => e +:+ newline) <$> es)) = es.
Proof.
  intros H. unfold lines.
  assert (Split (concat_str ((fun e => e +:+ newline) <$> es)) "010"%char = es ++ [""]) as ->.
  { induction H as [|e es He Hes IH]; [done|]. cbn [fmap list_fmap concat_str foldr].
    rewrite app_assoc_str. change (newline +:+ ?t) with (String "010"%char t).
    rewrite Split_app by done. rewrite <-app_comm_cons. f_equal. exact IH. }
  unfold drop_last_empty. rewrite last_snoc. apply removelast_last.
Qed.

Lemma read_lines_written (es out : list string) (err : option error) :
  Forall env_line es -> read_lines es err out = match err with Some e => Err e | None => Ok (out ++ es) end.
Proof.
  intros H. revert out. induction H as [|e es [Ha Hn Hc Hb Hh Hs] Hes IH]; intros out; cbn [read_lines].
  { by rewrite app_nil_r. }
  destruct (MaxScanTokenSize <=? _) eqn:El; bool_prop; [lia|].
  assert (TrimSuffix e carriage = e) as -> by (unfold TrimSuffix; by rewrite Hc).
  assert (TrimSuffix e carriage = e) as -> by (unfold TrimSuffix; by rewrite Hc).
  rewrite bool_decide_eq_false_2, Hh by done. cbn [orb]. apply assignment_cut in Ha as [Ha1 Ha2].
  destruct (Cut e "=") as [[k v] ok]. cbn in Ha1, Ha2. subst ok. rewrite bool_decide_eq_false_2 by done. cbn [negb orb].
  rewrite IH. by rewrite <-app_assoc.
Qed.

Lemma read_lines_sound (ls out out' : list string) (err : option error) :
  read_lines ls err out = Ok out' ->
  exists es, out' = out ++ es /\ Forall assignment es /\ err = None /\
    es `sublist_of` ((fun raw => TrimSuffix (TrimSuffix raw carriage) carriage) <$> ls).
Proof.
  revert out. induction ls as [|raw ls IH]; intros out H; cbn [read_lines] in H.
  { destruct err; [done|]. injection H as <-. exists []. by rewrite app_nil_r. }
  destruct (MaxScanTokenSize <=? _); [done|]. set (line := TrimSuffix (TrimSuffix raw carriage) carriage) in *.
  destruct (bool_decide (TrimSpace line = "") || _).
  - apply IH in H as (es & -> & H1 & H2 & H3). exists es. split_and!; try done. cbn. by apply sublist_cons.
  - pose proof (assignment_cut line) as Hc. destruct (Cut line "=") as [[k v] ok]. cbn in Hc.
    destruct (negb ok || _) eqn:Eb; [done|]. apply orb_false_iff in Eb as [E1 E2]. apply negb_false_iff in E1.
    apply bool_decide_eq_false in E2. apply IH in H as (es & -> & H1 & H2 & H3).
    exists (line :: es). split_and!; [by rewrite <-app_assoc| |done|].
    + constructor; [|done]. by apply Hc.
    + cbn. by apply sublist_skip.
Qed.

(** Environment files: assignments that were written one per line are read back
    as they are, and whatever a file holds, every entry that is read is a line
    of it (without its end) that assigns a variable with a name; blank lines and
    comments give nothing, and a file that cannot be read to its end gives an
    error. *)
Theorem readEnv_correct (es : list string) (text : string) (err : option error) (out : list string) :
  (Forall env_line es -> readEnv (Ok (concat_str ((fun e => e +:+ newline) <$> es), None)) = Ok es) /\
  (readEnv (Ok (text, err)) = Ok out ->
   Forall assignment out /\ err = None /\
   out `sublist_of` ((fun raw => TrimSuffix (TrimSuffix raw carriage) carriage) <$> lines text)).
Proof.
  split.
  - intros H. unfold readEnv. cbn [result_bind fst snd].
    rewrite lines_written; [by rewrite read_lines_written|]. eapply Forall_impl; [exact H|]. by intros e [].
  - unfold readEnv. cbn [result_bind fst snd]. intros H. apply read_lines_sound in H as (es' & -> & H1 & H2 & H3). done.
Qed.

(** ** Running containers: theorems *)

Lemma map_ok_length {A B} (f : A -> result B) (l : list A) (ys : list B) :
  map_ok f l = Ok ys -> Forall2 (fun x y => f x = Ok y) l ys.
Proof.
  revert ys. induction l as [|x l IH]; intros ys H; cbn in H; [injection H as <-; constructor|].
  destruct (f x) as [y|] eqn:E; [|done]. cbn in H. destruct (map_ok f l) as [ys'|] eqn:E'; [|done]. injection H as <-.
  constructor; [done|]. by apply IH.
Qed.

(** What the specification of a new container says. *)
Record described (fold : string -> string) (open : string -> result (string * option error)) (fl : Flags)
    (image : string) (command : list string) (s : Spec) : Prop := mkDescribed {
  d_image : s_Image s = image;
  d_command : s_Command s = command;
  d_memory : Api.Size fold (f_memory fl) = Ok (s_Memory s);
  d_disk : Api.Size fold (f_disk fl) = Ok (s_DiskSize s);
  d_entry : forall e, f_entry fl = Some e -> s_Entrypoint s = Some e;
  d_ports : exists ps, s_Ports s = s_Ports (f_spec fl) ++ ps /\ Forall2 (fun t p => ParsePort t = Ok p) (f_ports fl) ps;
  d_mounts : exists ms, s_Mounts s = s_Mounts (f_spec fl) ++ ms /\
    Forall2 (fun t m => ParseMount t = Ok m) (f_mounts fl ++ f_volumes fl) ms;
  d_env : exists files, Forall2 (fun p es => readEnv (open p) = Ok es) (f_envFiles fl) files /\
    forall e, e ∈ s_Env s <-> last_assignment (env_key e) (concat files ++ s_Env (f_spec fl)) = Some e }.

Lemma assemble_ok (fold : string -> string) (open : string -> result (string * option error)) (fl : Flags)
    (image : string) (command : list string) (s : Spec) :
  assemble fold open fl image command = Ok s ->
  valid_spec s /\ described fold open fl image command s /\ s_Base s = s_Base (f_spec fl).
Proof.
  intros H. unfold assemble in H.
  destruct (Api.Size fold (f_memory fl)) as [memory|] eqn:E1; [|done]. cbn [result_bind] in H.
  destruct (Api.Size fold (f_disk fl)) as [disk|] eqn:E2; [|done]. cbn [result_bind] in H.
  destruct (map_ok ParsePort _) as [ports|] eqn:E3; [|done]. cbn [result_bind] in H.
  destruct (map_ok ParseMount _) as [mounts|] eqn:E4; [|done]. cbn [result_bind] in H.
  destruct (map_ok _ (f_envFiles fl)) as [files|] eqn:E5; [|done]. cbn [result_bind] in H. cbv zeta in H.
  set (spec := mkSpec _ _ _ _ _ _ _ _ _ _ _ _ _ _ _ _ _ _ _ _ _ _) in H.
  destruct (Validate spec) as [[]|] eqn:E6; [|done]. cbn [result_bind] in H. injection H as <-.
  split_and!; [by apply Validate_iff| |done].
  split; try done.
  - intros e He. unfold spec. cbn [s_Entrypoint]. by rewrite He.
  - exists ports. split; [done|]. by apply map_ok_length.
  - exists mounts. split; [done|]. by apply map_ok_length.
  - exists files. split; [by apply map_ok_length|]. apply MergeEnv_correct.
Qed.

Lemma described_set_Base (fold : string -> string) (open : string -> result (string * option error)) (fl : Flags)
    (image : string) (command : list string) (b : string) (s : Spec) :
  described fold open fl image command s -> described fold open fl image command (set_Base b s).
Proof. intros []. by split. Qed.

Section RunTheorems.
Context (fold : string -> string) (call : nat -> Request -> result reply) (auth : string -> string -> string).
Context (create : bool) (open : string -> result (string * option error)) (fl : Flags) (image : string) (command : list string).

(** The base of a new container: the one asked for, or the daemon's default. *)
Definition base_chosen (b : string) : Prop :=
  if bool_decide (s_Base (f_spec fl) = "") then call 0%nat (request "info" "") = Ok (RInfo b) else b = s_Base (f_spec fl).

Definition proper_create (q : Request) : Prop :=
  exists spec, q = create_request auth spec /\ valid_spec spec /\ described fold open fl image command spec /\ base_chosen (s_Base spec).

Definition proper_start (q : Request) : Prop :=
  create = false /\ exists n qc v, proper_create qc /\ call n qc = Ok (RSandbox v) /\ q = request "start" (sb_ID v).

(** What a finished run of the command says. *)
Definition run_ok (r : run_of) : Prop :=
  Forall (fun q => q = request "info" "" /\ s_Base (f_spec fl) = "" \/ proper_create q \/ proper_start q) (ru_calls r) /\
  match ru_end r with
  | Ended (Some _) => s_out (ru_screen r) = ""
  | Ended None => exists q n v, last (ru_calls r) = Some q /\ call n q = Ok (RSandbox v) /\
      (if create then proper_create q else proper_start q) /\ s_out (ru_screen r) = sb_ID v +:+ newline
  | Attach v i t => exists q n, last (ru_calls r) = Some q /\ call n q = Ok (RSandbox v) /\ proper_start q /\
      f_detach fl = false /\ t = s_TTY (sb_Spec v) /\ s_out (ru_screen r) = ""
  | Session _ _ _ => False
  end.

Lemma run_spec_ok (n : nat) (calls : list Request) (spec : Spec) :
  Forall (fun q => q = request "info" "" /\ s_Base (f_spec fl) = "") calls ->
  valid_spec spec -> described fold open fl image command spec -> base_chosen (s_Base spec) ->
  run_ok (run_spec call auth create (f_detach fl) n calls spec).
Proof.
  intros Hcalls Hv Hd Hb. assert (proper_create (create_request auth spec)) as Hq by (by exists spec).
  assert (Forall (fun q => q = request "info" "" /\ s_Base (f_spec fl) = "" \/ proper_create q \/ proper_start q) calls) as Hc.
  { eapply Forall_impl; [exact Hcalls|]. auto. }
  unfold run_spec. destruct (call n (create_request auth spec)) as [[|v| | | | |]|e] eqn:E; cbn [sandbox_of result_bind].
  all: try (split; [apply Forall_app; split; [done|]; apply Forall_singleton; auto|done]).
  destruct create eqn:Ec.
  { split; [apply Forall_app; split; [done|]; apply Forall_singleton; auto|]. cbn [ru_end ru_calls ru_screen]. rewrite Ec.
    eexists _, n, v. rewrite last_snoc. split_and!; done. }
  assert (proper_start (request "start" (sb_ID v))) as Hs by (split; [done|]; by exists n, (create_request auth spec), v).
  assert (Forall (fun q => q = request "info" "" /\ s_Base (f_spec fl) = "" \/ proper_create q \/ proper_start q)
    (calls ++ [create_request auth spec; request "start" (sb_ID v)])) as Hc2.
  { apply Forall_app. split; [done|]. apply Forall_cons; split; [auto|apply Forall_singleton; auto]. }
  destruct (call (S n) (request "start" (sb_ID v))) as [[|v'| | | | |]|e] eqn:E2; cbn [sandbox_of result_bind].
  all: try (split; [done|done]).
  destruct (f_detach fl) eqn:Ed.
  - split; [done|]. cbn [ru_end ru_calls ru_screen]. rewrite Ec. eexists _, (S n), v'. rewrite last_app_cons. done.
  - split; [done|]. cbn [ru_end ru_calls ru_screen]. eexists _, (S n). rewrite last_app_cons. split_and!; done.
Qed.
End RunTheorems.

(** [run] and [create] ask the daemon only for what the user described.  When a
    flag, a size, a port, a mount or an environment file is wrong, the command
    fails before any request.  Otherwise every create request carries a valid
    specification with the image, command, limits, ports, mounts and environment
    of the flags, where an explicit assignment overrides one of a file, and the
    base asked for or the daemon's default; a container is started only after
    its creation succeeded, under the identifier that was returned, and never by
    [create]; and the command prints an identifier, or attaches, only for a
    sandbox the daemon returned last. *)
Theorem run_correct (fold : string -> string) (call : nat -> Request -> result reply) (auth : string -> string -> string)
    (create : bool) (open : string -> result (string * option error)) (fl : Flags) (image : string) (command : list string) :
  let r := run fold call auth create open fl image command in
  run_ok fold call auth create open fl image command r /\
  (forall e, assemble fold open fl image command = Err e -> ru_calls r = [] /\ ru_end r = Ended (Some (Failed e))).
Proof.
  intros r. unfold r, run. destruct (assemble fold open fl image command) as [spec|e] eqn:E.
  - split; [|done]. apply assemble_ok in E as (Hv & Hd & Hb). rewrite Hb.
    case_bool_decide as He.
    + destruct (call 0%nat (request "info" "")) as [[| | | | |b|]|e] eqn:Ei.
      6: { apply run_spec_ok; [by apply Forall_singleton|by apply valid_spec_set_Base|by apply described_set_Base|].
           unfold base_chosen. by rewrite bool_decide_eq_true_2. }
      all: split; [apply Forall_singleton; auto|done].
    + apply run_spec_ok; [constructor|done|done|]. unfold base_chosen. by rewrite bool_decide_eq_false_2.
  - split; [split; [constructor|done]|]. intros e' [= <-]. done.
Qed.

(** ** Listing *)

(** What [ps] prints: the sandboxes the daemon listed, in its order, all of them
    or the running ones; as JSON, and so for [inspect], without environment, so
    that what is printed does not depend on it. *)
Definition same_but_env (v w : Sandbox) : Prop := redact v = redact w.

Theorem listing_correct (call : nat -> Request -> result reply) (json : list Sandbox -> string) (all quiet : bool)
    (rows : list Sandbox) (id : string) (fl : LifeFlags) (v w : Sandbox) :
  call 0%nat (request "ps" "") = Ok (RSandboxes rows) ->
  let shown := filter (fun v => all = true \/ sb_State v = "running") rows in
  s_out (ru_screen (ps call json all quiet "json")) = json (redact <$> shown) /\
  Forall (fun v => s_Env (sb_Spec v) = [] /\ pr_Env (sb_Process v) = []) (redact <$> shown) /\
  s_out (ru_screen (ps call json all true "")) = concat_str ((fun v => sb_ID v +:+ newline) <$> shown) /\
  (same_but_env v w -> call 0%nat (request "inspect" id) = Ok (RSandbox v) ->
   s_out (ru_screen (lifecycle call json "inspect" fl id)) =
   s_out (ru_screen (lifecycle (fun _ _ => Ok (RSandbox w)) json "inspect" fl id))).
Proof.
  intros H shown. unfold ps. rewrite H. split_and!.
  - done.
  - apply Forall_fmap, Forall_true. done.
  - done.
  - intros Hs Hi. unfold lifecycle.
    repeat (rewrite bool_decide_eq_false_2 by naive_solver). rewrite (bool_decide_eq_true_2 ("inspect" = "inspect")) by done.
    destruct (negb _); [done|]. rewrite Hi. cbn [sandbox_of result_bind ru_screen s_out]. by rewrite Hs.
Qed.

(** With an image alone the specification is the default one. *)
Lemma default_run (fold : string -> string) (open : string -> result (string * option error)) (image : string) :
  image <> "" ->
  assemble fold open default_flags image [] = Ok (mkSpec image "" "" [] None [] "" "" 1 (512 * MiB) (4 * GiB) 256 "bridge"
    [] [] "runc" "linux/amd64" "missing" false false false false).
Proof.
  intros Hi. unfold assemble.
  assert (Api.Size fold (f_memory default_flags) = Ok (512 * MiB)) as -> by reflexivity.
  assert (Api.Size fold (f_disk default_flags) = Ok (4 * GiB)) as -> by reflexivity.
  cbn [result_bind default_flags f_ports f_mounts f_volumes f_envFiles app map_ok]. cbv zeta.
  set (spec := mkSpec _ _ _ _ _ _ _ _ _ _ _ _ _ _ _ _ _ _ _ _ _ _).
  assert (Validate spec = Ok tt) as ->; [|done].
  apply Validate_iff. split; cbn; try done; try (unfold MiB, GiB; lia); auto; try constructor; try lia. set_solver.
Qed.
