(* ===== verification/CliBuild.v ===== *)
(** * CliBuild: building images and bases (internal/cli/build.go, build_snapshot.go,
    keygen.go, doctor.go, auth.go)

    A build runs external programs (buildctl, the packaging worker) and makes
    requests; the model gives the list of these actions with their arguments, in
    order, and how the command ends.  What each external step answers is an
    argument. *)

From S2P Require Import Prelude GoLib Api Oci Base.
Import Strings Strconv Path.
Local Open Scope Z_scope.
Local Open Scope go_scope.

(** [BuildArgs] *)
Definition BuildArgs (endpoint contextDir dockerfile output target : string) (args : list string) : list string :=
  ["--addr"; endpoint; "build"; "--frontend"; "dockerfile.v0"; "--local"; "context=" +:+ contextDir;
   "--local"; "dockerfile=" +:+ Dir dockerfile; "--opt"; "filename=" +:+ Path.Base dockerfile;
   "--opt"; "platform=linux/amd64"; "--output"; "type=oci,dest=" +:+ output] ++
  (if bool_decide (target = "") then [] else ["--opt"; "target=" +:+ target]) ++
  (args ≫= fun arg => ["--opt"; "build-arg:" +:+ arg]).

(** The certificates for a remote endpoint: variable and option. *)
Definition tls_pairs : list (string * string) :=
  [("BUILDKIT_TLS_CA_CERT", "--tlscacert"); ("BUILDKIT_TLS_CERT", "--tlscert"); ("BUILDKIT_TLS_KEY", "--tlskey")].

Fixpoint tls_args (getenv : string -> string) (pairs : list (string * string)) : result (list string) :=
  match pairs with
  | [] => Ok []
  | (name, option) :: pairs =>
      guard negb (bool_decide (getenv name = "")) else Errorf (name +:+ " required for authenticated remote BuildKit") in
      let* rest := tls_args getenv pairs in
      Ok (option :: getenv name :: rest)
  end.

(** The arguments of buildctl. *)
Definition buildctl_args (getenv : string -> string) (endpoint : string) (bargs : list string) : result (list string) :=
  if HasPrefix endpoint "tcp://" then
    let* tls := tls_args getenv tls_pairs in Ok (take 2 bargs ++ tls ++ drop 2 bargs)
  else Ok bargs.

(** What a build does outside. *)
Inductive action : Type :=
| APrepare (keyPath tmp : string) (roots : list string)
| ABuildctl (args : list string)
| APackager (program : string) (args : list string)
| ASign (signed : Signed)
| AUpload (action ref : string)
| AValidate (ref : string)
| AClean (tmp : string).

Record BuildFlags : Type := mkBuildFlags {
  b_tag : string; b_file : string; b_target : string; b_recipe : string; b_keyPath : string; b_keyID : string;
  b_kernel : string; b_fcVersion : string; b_buildArgs : list string }.

(** A base recipe. *)
Record Recipe : Type := mkRecipe { rc_APIVersion : string; rc_Kind : string; rc_Platform : string; rc_KernelRef : string }.

(** The answers of the system and of the programs. *)
Record BuildEnv : Type := mkBuildEnv {
  e_getenv : string -> string;
  e_abs : string -> result string;
  e_stat : string -> result unit;
  e_temp : bool -> result string;           (* [privateBuildTemp] for a base, [os.MkdirTemp] *)
  e_prepare : result string;                (* [prepareBaseBuild]: the key *)
  e_buildctl : result unit;
  e_open : result unit;
  e_recipe : string -> result Recipe;       (* reading and decoding the recipe *)
  e_packager : result unit;
  e_descriptor : string -> string -> result Descriptor;
  e_signed : result unit;                   (* writing signed.json *)
  e_upload : result unit;
  e_validate : result unit }.

Definition joined (dir name : string) : string := if IsAbs name then name else JoinPath [dir; name].

(** The configuration that is signed. *)
Definition base_config (fcVersion : string) (kernel rootfs : Descriptor) : Config :=
  mkConfig 1 "linux" "amd64" 1 "/sbin/niflhel-init" "runc" 128 [fcVersion] kernel rootfs.

(** The arguments of the packaging worker. *)
Definition packager_args (kernel output bundle : string) (rc : Recipe) : result (list string) :=
  if negb (bool_decide (kernel = "")) then Ok ["--image"; output; "--output"; bundle; "--kernel"; kernel]
  else
    guard Contains (rc_KernelRef rc) "@sha256:" else Errorf "kernel image must be digest-pinned" in
    Ok ["--image"; output; "--output"; bundle; "--kernel-image"; rc_KernelRef rc].

Section Build.
Variable env : BuildEnv.
Variable marshal : Config -> string.
Variable b64_encode : string -> string.
Variable ed_sign : string -> string -> string.
Variable fl : BuildFlags.

(** The part of a base build after buildctl: packaging, signing, uploading,
    validating. *)
Definition package_base (contextDir tmp output key packager : string) : list action * result unit :=
  need (e_recipe env (joined contextDir (b_recipe fl))) (fun rc =>
  require (bool_decide (rc_APIVersion rc = "niflhel.dev/v1alpha1") && bool_decide (rc_Kind rc = "BaseRecipe") &&
           bool_decide (rc_Platform rc = "linux/amd64")) "unsupported base recipe" (
  let bundle := JoinPath [tmp; "bundle"] in
  need (packager_args (b_kernel fl) output bundle rc) (fun pargs =>
  perform (APackager packager pargs) (e_packager env) (fun _ =>
  need (e_descriptor env (JoinPath [bundle; "kernel"]) "application/vnd.niflhel.kernel.v1") (fun kd =>
  need (e_descriptor env (JoinPath [bundle; "rootfs.ext4"]) "application/vnd.niflhel.rootfs.ext4.v1") (fun rd =>
  need (Sign marshal b64_encode ed_sign (base_config (b_fcVersion fl) kd rd) (b_keyID fl) key) (fun signed =>
  perform (ASign signed) (e_signed env) (fun _ =>
  perform (AUpload "base-load" (b_tag fl)) (e_upload env) (fun _ =>
  perform (AValidate (b_tag fl))
    (match e_validate env with Err e => Err (Wrap "base staged, but boot validation failed" e) | Ok _ => Ok tt end)
    (fun _ => ([], Ok tt))))))))))).

(** A build in its temporary directory. *)
Definition build_in (isBase : bool) (endpoint contextDir df packager tmp : string) : list action * result unit :=
  let go key buildContext buildDockerfile :=
    let output := JoinPath [tmp; "image.tar"] in
    need (buildctl_args (e_getenv env) endpoint
            (BuildArgs endpoint buildContext buildDockerfile output (b_target fl) (b_buildArgs fl))) (fun bargs =>
    perform (ABuildctl bargs) (e_buildctl env) (fun _ =>
    if isBase then package_base contextDir tmp output key packager
    else need (e_open env) (fun _ =>
         perform (AUpload "image-load" (b_tag fl)) (e_upload env) (fun _ => ([], Ok tt))))) in
  if isBase then
    perform (APrepare (b_keyPath fl) tmp [contextDir; Dir df]) (e_prepare env) (fun key =>
    go key (JoinPath [tmp; "local-0"]) (JoinPath [JoinPath [tmp; "local-1"]; Path.Base df]))
  else go "" contextDir df.

(** [buildCommand]: the temporary directory is removed at the end, whatever
    happens. *)
Definition build (isBase : bool) (arg : string) : list action * result unit :=
  require (negb (bool_decide (b_tag fl = ""))) "--tag required" (
  let endpoint := e_getenv env "BUILDKIT_HOST" in
  require (negb (bool_decide (endpoint = ""))) "set BUILDKIT_HOST to an explicitly configured BuildKit service" (
  need (e_abs env arg) (fun contextDir =>
  let df := joined contextDir (b_file fl) in
  need (e_stat env df) (fun _ =>
  require (negb (isBase && (bool_decide (b_keyPath fl = "") || bool_decide (b_keyID fl = "") || bool_decide (b_fcVersion fl = ""))))
    "base build requires --signing-key, --key-id, and --firecracker-version" (
  let packager := e_getenv env "NIFLHEL_BASE_PACKAGER" in
  require (negb (isBase && bool_decide (packager = ""))) "set NIFLHEL_BASE_PACKAGER to an isolated packaging-worker wrapper" (
  need (e_temp env isBase) (fun tmp =>
  let '(l, r) := build_in isBase endpoint contextDir df packager tmp in (l ++ [AClean tmp], r)))))))).
End Build.

(** ** Temporary directories *)

(** The guard of [privateBuildTemp]: mode and owner of "/tmp". *)
Definition S_IFMT : Z := 61440.
Definition S_IFDIR : Z := 16384.
Definition S_ISVTX : Z := 512.
Definition tmp_protected (mode uid : Z) : bool :=
  negb (negb (Z.land mode S_IFMT =? S_IFDIR) || negb (uid =? 0) ||
        (negb (Z.land mode 18 =? 0) && (Z.land mode S_ISVTX =? 0))).
Definition privateBuildTemp (lstat : result (Z * Z)) (mkdtemp : result string) : result string :=
  let* st := lstat in
  guard tmp_protected (fst st) (snd st)
    else Errorf "base build requires root-owned /tmp with sticky-bit protection when writable by others" in
  mkdtemp.

(** ** Keys, credentials and the host check *)

(** [keygen]: the file is created exclusively and synced before the public key
    is printed.  The result is the content of the key file and what is printed. *)
Record KeygenEnv : Type := mkKeygenEnv {
  k_generate : result (string * string);   (* public and private key *)
  k_mkdir : result unit; k_exists : bool; k_create : result unit;
  k_write : result unit; k_sync : result unit; k_close : result unit }.

Definition keygen (b64 : string -> string) (env : KeygenEnv) (output keyID : string)
  : result (string * (string * string * string)) :=
  guard negb (bool_decide (output = "") || bool_decide (keyID = "")) else Errorf "--output and --key-id required" in
  let* key := k_generate env in
  let* _ := k_mkdir env in
  let p := JoinPath [output; "publisher.key"] in
  guard negb (k_exists env) else Errorf "file exists" in
  let* _ := k_create env in
  let e := (let* _ := k_write env in k_sync env) in
  let* _ := (let* _ := e in k_close env) in
  Ok (b64 (snd key) +:+ String "010"%char "", (keyID, b64 (fst key), p)).

(** [login] and [logout]: the helper's action and its input. *)
Definition login (marshal : string -> string -> string -> string) (helper : string) (logout stdin : bool) (user registry : string)
    (input : result string) : result (string * string * string) :=
  guard negb (bool_decide (helper = "")) else Errorf "set NIFLHEL_CREDENTIAL_HELPER to an installed Docker credential helper" in
  let program := "docker-credential-" +:+ helper in
  if logout then Ok (program, "erase", registry +:+ String "010"%char "")
  else
    guard stdin && negb (bool_decide (user = "")) else Errorf "--username and --password-stdin are required" in
    let* b := input in
    let b := take_str (Z.to_nat 65537) b in
    guard negb (65536 <? Z.of_nat (String.length b)) else Errorf "password too long" in
    Ok (program, "store", marshal registry user (TrimSuffix b (String "010"%char ""))).

(** [doctor]: the checks in order, each reported. *)
Definition doctor (checks : list (string * option error)) : list string * option error :=
  ((fun c => match snd c with None => "OK   " +:+ fst c | Some e => "FAIL " +:+ fst c +:+ ": " +:+ error_text e end) <$> checks,
   if existsb (fun c => match snd c with None => false | Some _ => true end) checks
   then Some (Errorf "host prerequisites are incomplete") else None).

(** ** Theorems *)

Definition no_signed : Signed := mkSigned (base_config "" (mkDescriptor "" 0 "") (mkDescriptor "" 0 "")) "" "".

Section BaseBuild.
Context (env : BuildEnv) (marshal : Config -> string) (b64_encode : string -> string) (b64_decode : string -> result string)
  (ed_sign : string -> string -> string) (ed_verify : string -> string -> string -> bool) (public : string -> string).
Hypothesis b64_roundtrip : forall s, b64_decode (b64_encode s) = Ok s.
Hypothesis ed_length : forall key m, String.length (ed_sign key m) = 64%nat.
Hypothesis ed_correct : forall key m, ed_verify (public key) m (ed_sign key m) = true.
Hypothesis public_length : forall key, String.length (public key) = 32%nat.
Context (fl : BuildFlags).

(** The document that is signed with a key. *)
Definition signed_with (key : string) (v : Signed) : Prop :=
  exists kd rd, Sign marshal b64_encode ed_sign (base_config (b_fcVersion fl) kd rd) (b_keyID fl) key = Ok v.

Lemma package_base_shape (contextDir tmp output key packager : string) (l : list action) (r : result unit) :
  package_base env marshal b64_encode ed_sign fl contextDir tmp output key packager = (l, r) ->
  exists pargs signed n,
    l = take n [APackager packager pargs; ASign signed; AUpload "base-load" (b_tag fl); AValidate (b_tag fl)] /\ (n <= 4)%nat /\
    (2 <= n -> signed_with key signed)%nat /\ (r = Ok tt -> n = 4%nat).
Proof.
  unfold package_base, need, require, perform.
  destruct (e_recipe env _) as [rc|e]; [|intros [= <- <-]; exists [], no_signed, 0%nat; repeat split; [lia|lia|done]].
  destruct (_ && _ && _); [|intros [= <- <-]; exists [], no_signed, 0%nat; repeat split; [lia|lia|done]].
  destruct (packager_args _ _ _ _) as [pargs|e]; [|intros [= <- <-]; exists [], no_signed, 0%nat; repeat split; [lia|lia|done]].
  assert (forall l' e, l' = [APackager packager pargs] -> (l', Err e) = (l, r) ->
    exists pargs signed n,
    l = take n [APackager packager pargs; ASign signed; AUpload "base-load" (b_tag fl); AValidate (b_tag fl)] /\ (n <= 4)%nat /\
    (2 <= n -> signed_with key signed)%nat /\ (r = Ok tt -> n = 4%nat)) as H1.
  { intros l' e -> [= <- <-]. exists pargs, no_signed, 1%nat. repeat split; [lia|lia|done]. }
  destruct (e_packager env) as [[]|e]; [|by apply H1].
  destruct (e_descriptor env _ _) as [kd|e]; [|by apply H1].
  destruct (e_descriptor env _ _) as [rd|e]; [|by apply H1].
  destruct (Sign _ _ _ _ _ _) as [signed|e] eqn:Es; [|by apply H1]. clear H1.
  assert (signed_with key signed) as Hs by (by exists kd, rd).
  destruct (e_signed env) as [[]|e]; [|intros [= <- <-]; exists pargs, signed, 2%nat; repeat split; [lia|done|done]].
  destruct (e_upload env) as [[]|e]; [|intros [= <- <-]; exists pargs, signed, 3%nat; repeat split; [lia|done|done]].
  destruct (e_validate env) as [?|e]; intros [= <- <-]; exists pargs, signed, 4%nat; repeat split; try done; lia.
Qed.

Lemma tls_args_complete (getenv : string -> string) (pairs : list (string * string)) (args : list string) :
  tls_args getenv pairs = Ok args -> Forall (fun p => getenv (fst p) <> "" /\ snd p ∈ args /\ getenv (fst p) ∈ args) pairs.
Proof.
  revert args. induction pairs as [|[name option] pairs IH]; intros args H; [constructor|]. cbn [tls_args] in H.
  case_bool_decide as Hn; [done|]. cbn [negb] in H. destruct (tls_args getenv pairs) as [rest|]; [|done].
  injection H as <-. constructor; [cbn; set_solver|]. eapply Forall_impl; [by apply IH|]. cbn. set_solver.
Qed.

(** C32. A base build never exposes the publisher's directories and publishes only
    what is signed and checked.  Whatever fails, the actions are an initial part
    of: staging private copies, buildctl, packaging, signing, uploading,
    validating, in this order, and then the temporary directory is removed;
    success means that all of them happened.  buildctl gets the copies of the
    staging directory as context and Dockerfile directory, never the original
    paths; with a remote endpoint it is given client certificates or not run at
    all; and a bundle is uploaded only with a signature that every store which
    trusts the publisher's key accepts. *)
Theorem base_build_correct (arg : string) (l : list action) (r : result unit) (trust : gmap string string) :
  build env marshal b64_encode ed_sign fl true arg = (l, r) ->
  let endpoint := e_getenv env "BUILDKIT_HOST" in
  (l = [] /\ is_ok r = false) \/
  exists tmp ctx bargs pargs signed n,
    e_temp env true = Ok tmp /\ e_abs env arg = Ok ctx /\
    l = take n [APrepare (b_keyPath fl) tmp [ctx; Dir (joined ctx (b_file fl))]; ABuildctl bargs;
                APackager (e_getenv env "NIFLHEL_BASE_PACKAGER") pargs; ASign signed;
                AUpload "base-load" (b_tag fl); AValidate (b_tag fl)] ++ [AClean tmp] /\
    (1 <= n <= 6)%nat /\ (r = Ok tt -> n = 6%nat) /\
    ((2 <= n)%nat -> exists rest,
       let staged := BuildArgs endpoint (JoinPath [tmp; "local-0"])
         (JoinPath [JoinPath [tmp; "local-1"]; Path.Base (joined ctx (b_file fl))]) (JoinPath [tmp; "image.tar"])
         (b_target fl) (b_buildArgs fl) in
       bargs = take 2 staged ++ rest ++ drop 2 staged /\
       (HasPrefix endpoint "tcp://" = true ->
        Forall (fun p => e_getenv env (fst p) <> "" /\ snd p ∈ rest /\ e_getenv env (fst p) ∈ rest) tls_pairs)) /\
    ((4 <= n)%nat -> exists key, e_prepare env = Ok key /\
       (trust !! b_keyID fl = Some (b64_encode (public key)) ->
        Verify marshal b64_encode b64_decode ed_verify trust signed = Ok tt)).
Proof.
  intros H endpoint. unfold build, require, need in H. fold endpoint in H.
  destruct (negb (bool_decide (b_tag fl = ""))); [|injection H as <- <-; by left].
  destruct (negb (bool_decide (endpoint = ""))); [|injection H as <- <-; by left].
  destruct (e_abs env arg) as [ctx|] eqn:Ea; [|injection H as <- <-; by left].
  destruct (e_stat env _); [|injection H as <- <-; by left].
  destruct (negb (true && (_ || _ || _))); [|injection H as <- <-; by left].
  destruct (negb (true && _)); [|injection H as <- <-; by left].
  destruct (e_temp env true) as [tmp|] eqn:Et; [|injection H as <- <-; by left]. right.
  unfold build_in in H. cbv zeta in H. unfold perform at 1 in H. destruct (e_prepare env) as [key|e] eqn:Ep.
  2: { injection H as <- <-. exists tmp, ctx, [], [], no_signed, 1%nat. split_and!; try done; try lia. }
  set (staged := BuildArgs endpoint _ _ _ _ _) in *. unfold need in H at 1.
  destruct (buildctl_args (e_getenv env) endpoint staged) as [bargs|e] eqn:Eb.
  2: { injection H as <- <-. exists tmp, ctx, [], [], no_signed, 1%nat. split_and!; try done; try lia. }
  assert (exists rest, bargs = take 2 staged ++ rest ++ drop 2 staged /\ (HasPrefix endpoint "tcp://" = true ->
    Forall (fun p => e_getenv env (fst p) <> "" /\ snd p ∈ rest /\ e_getenv env (fst p) ∈ rest) tls_pairs)) as Hb.
  { unfold buildctl_args in Eb. destruct (HasPrefix endpoint "tcp://").
    - destruct (tls_args _ tls_pairs) as [tls|] eqn:El; [|done]. injection Eb as <-. exists tls. split; [done|].
      intros _. by apply tls_args_complete.
    - injection Eb as <-. exists []. split; [|done]. cbn [app]. by rewrite take_drop. }
  unfold perform in H. destruct (e_buildctl env) as [[]|e].
  2: { injection H as <- <-. exists tmp, ctx, bargs, [], no_signed, 2%nat. split_and!; try done; try lia. }
  destruct (package_base _ _ _ _ _ _ _ _ _ _) as [l' r'] eqn:Epk. injection H as <- <-.
  apply package_base_shape in Epk as (pargs & signed & n & -> & Hn & Hs & Hr).
  exists tmp, ctx, bargs, pargs, signed, (S (S n)). split_and!; try done; try lia.
  - intros Hok. f_equal. f_equal. by apply Hr.
  - intros Hn4. exists key. split; [done|]. intros Ht. destruct Hs as (kd & rd & Hs); [lia|].
    by apply (Sign_Verify marshal b64_encode b64_decode ed_sign ed_verify b64_roundtrip ed_length public ed_correct
      trust _ (b_keyID fl) key signed Hs).
Qed.
End BaseBuild.

Module BuildSample.
Definition getenv (v : string) : string := if bool_decide (v = "BUILDKIT_HOST") then "tcp://build:1234" else "/etc/x".
Definition descriptor (_ media : string) : result Descriptor := Ok (mkDescriptor ("sha256:" +:+ hex64) 1000 media).
Definition env : BuildEnv :=
  mkBuildEnv getenv (fun _ => Ok "/work") (fun _ => Ok tt) (fun _ => Ok "/tmp/b") (Ok hex64) (Ok tt) (Ok tt)
    (fun _ => Ok (mkRecipe "niflhel.dev/v1alpha1" "BaseRecipe" "linux/amd64" "r@sha256:0")) (Ok tt) descriptor (Ok tt) (Ok tt) (Ok tt).
Definition flags : BuildFlags := mkBuildFlags "t" "Dockerfile" "" "base.yaml" "/keys/k" "team" "" "1.16.1" [].
Definition marshal (_ : Config) : string := "cfg".
Definition encode (s : string) : string := s.
Definition decode (s : string) : result string := Ok s.
Definition sign (_ _ : string) : string := hex64.
Definition check (_ _ sig : string) : bool := bool_decide (sig = hex64).
Definition built : list action * result unit := build env marshal encode sign flags true ".".
End BuildSample.

Lemma base_build_correct_witness :
  snd BuildSample.built = Ok tt /\ length (fst BuildSample.built) = 7%nat /\
  exists signed, Verify BuildSample.marshal BuildSample.encode BuildSample.decode BuildSample.check toy_trust signed = Ok tt.
Proof.
  destruct BuildSample.built as [l r] eqn:E. pose proof (f_equal snd E) as Er. vm_compute in Er. subst r.
  destruct (base_build_correct BuildSample.env BuildSample.marshal BuildSample.encode BuildSample.decode BuildSample.sign
    BuildSample.check toy_public (fun s => eq_refl) (fun _ _ => eq_refl) (fun _ _ => eq_refl) (fun _ => eq_refl)
    BuildSample.flags "." l (Ok tt) toy_trust E) as [[_ H]|(tmp & ctx & bargs & pargs & signed & n & _ & _ & Hl & _ & Hn & _ & Hv)].
  - discriminate H.
  - rewrite (Hn eq_refl) in Hl, Hv. subst l. split; [reflexivity|]. split; [reflexivity|].
    destruct (Hv ltac:(lia)) as (key & _ & Hv'). exists signed. apply Hv'. reflexivity.
Defined.

(** ** The host's temporary directory, keys and credentials *)

(** The staging directory of a base build lies in a directory that no other user
    can rearrange: one owned by root, where entries are protected by the sticky
    bit if anyone else may write. *)
Lemma privateBuildTemp_protected (mode uid : Z) (mkdtemp : result string) (d : string) :
  privateBuildTemp (Ok (mode, uid)) mkdtemp = Ok d ->
  uid = 0 /\ Z.land mode S_IFMT = S_IFDIR /\
  (Z.testbit mode 4 = true \/ Z.testbit mode 1 = true -> Z.testbit mode 9 = true).
Proof.
  unfold privateBuildTemp. cbn [result_bind fst snd]. destruct (tmp_protected mode uid) eqn:E; [|done]. intros _.
  unfold tmp_protected in E. apply negb_true_iff, orb_false_iff in E as [E1 E2].
  apply orb_false_iff in E1 as [E0 E1]. apply negb_false_iff in E0, E1. apply Z.eqb_eq in E0, E1.
  split_and!; [done|done|]. intros Hw. destruct (Z.testbit mode 9) eqn:E9; [done|]. exfalso.
  apply andb_false_iff in E2 as [E2|E2].
  - apply negb_false_iff, Z.eqb_eq in E2. destruct Hw as [Hw|Hw].
    + apply (f_equal (fun z => Z.testbit z 4)) in E2. rewrite Z.land_spec, Hw in E2. discriminate E2.
    + apply (f_equal (fun z => Z.testbit z 1)) in E2. rewrite Z.land_spec, Hw in E2. discriminate E2.
  - apply Z.eqb_neq in E2. apply E2. apply Z.bits_inj'. intros i Hi. rewrite Z.land_spec, Z.bits_0.
    unfold S_ISVTX. change 512 with (2 ^ 9). rewrite Z.pow2_bits_eqb by lia.
    destruct (9 =? i) eqn:Ei; [apply Z.eqb_eq in Ei; subst i; by rewrite E9|by rewrite andb_false_r].
Qed.

(** A key is never overwritten, and the file a new one is in holds it in the form
    that the base build reads. *)
Lemma keygen_exclusive (b64 : string -> string) (env : KeygenEnv) (output keyID text : string) (printed : string * string * string) :
  keygen b64 env output keyID = Ok (text, printed) ->
  k_exists env = false /\ k_sync env = Ok tt /\ k_close env = Ok tt /\
  exists pub private, k_generate env = Ok (pub, private) /\ text = b64 private +:+ String "010"%char "" /\
    printed = (keyID, b64 pub, JoinPath [output; "publisher.key"]).
Proof.
  unfold keygen. destruct (negb _); [|done]. destruct (k_generate env) as [[pub private]|]; [|done]. cbn [result_bind].
  destruct (k_mkdir env); [|done]. cbn [result_bind]. destruct (k_exists env); [done|]. cbn [negb].
  destruct (k_create env); [|done]. cbn [result_bind]. destruct (k_write env); [|done]. cbn [result_bind].
  destruct (k_sync env) as [[]|]; [|done]. cbn [result_bind]. destruct (k_close env) as [[]|]; [|done]. cbn [result_bind].
  intros [= <- <-]. split_and!; eauto.
Qed.

(** The host check fails exactly when one of its checks fails, and reports every
    one of them. *)
Lemma doctor_complete (checks : list (string * option error)) :
  length (fst (doctor checks)) = length checks /\
  (snd (doctor checks) = None <-> Forall (fun c => snd c = None) checks).
Proof.
  unfold doctor. cbn [fst snd]. split; [apply length_fmap|]. induction checks as [|[n [e|]] checks IH]; cbn [existsb orb snd].
  - by split.
  - split; [done|]. intros H. apply Forall_cons in H as [H _]. done.
  - rewrite Forall_cons, IH. by split; [intros H|intros [_ H]].
Qed.

(** ** Registry credentials *)

(** What [AuthFor] sees: the registry of a reference, the helper program, its
    answer, and the default keychain. *)
Record AuthEnv : Type := mkAuthEnv {
  au_registry : string -> result string;             (* [name.ParseReference] *)
  au_helper : string;                                (* NIFLHEL_CREDENTIAL_HELPER *)
  au_run : string * string * string -> result string; (* program, argument, input *)
  au_decode : string -> result (string * string);    (* user name and secret *)
  au_keychain : string -> result (string * string) }.

(** [AuthFor]: the programs that are run, and the credentials. *)
Definition AuthFor (env : AuthEnv) (ref : string) : list (string * string * string) * option (string * string) :=
  if bool_decide (ref = "") then ([], None)
  else match au_registry env ref with
  | Err _ => ([], None)
  | Ok registry =>
      if negb (bool_decide (au_helper env = "")) then
        let c := ("docker-credential-" +:+ au_helper env, "get", registry +:+ String "010"%char "") in
        ([c], match au_run env c with
              | Err _ => None
              | Ok b => match au_decode env b with Err _ => None | Ok v => Some v end
              end)
      else ([], match au_keychain env registry with Err _ => None | Ok v => Some v end)
  end.

(** Credentials are those of the registry that is asked: a helper is run only when
    one is configured, and is told nothing but the name of the registry of the
    reference; two references to the same registry get the same credentials; and
    a failure of any part means no credentials, never those of something else. *)
Theorem AuthFor_registry (env : AuthEnv) (ref ref' : string) :
  (forall c, c ∈ fst (AuthFor env ref) -> au_helper env <> "" /\
     exists registry, au_registry env ref = Ok registry /\ c = ("docker-credential-" +:+ au_helper env, "get", registry +:+ String "010"%char "")) /\
  (ref <> "" -> ref' <> "" -> au_registry env ref = au_registry env ref' -> AuthFor env ref = AuthFor env ref') /\
  (forall v, snd (AuthFor env ref) = Some v ->
     exists registry, au_registry env ref = Ok registry /\
       ((exists c b, fst (AuthFor env ref) = [c] /\ au_run env c = Ok b /\ au_decode env b = Ok v) \/ au_keychain env registry = Ok v)).
Proof.
  unfold AuthFor. split_and!.
  - case_bool_decide; [set_solver|]. destruct (au_registry env ref) as [registry|]; [|set_solver].
    case_bool_decide; cbn [negb]; [set_solver|]. intros c ->%list_elem_of_singleton. split; [done|]. by exists registry.
  - intros H1 H2 H3. rewrite (bool_decide_eq_false_2 (ref = "")), (bool_decide_eq_false_2 (ref' = "")) by done. by rewrite H3.
  - intros v. case_bool_decide; [done|]. destruct (au_registry env ref) as [registry|]; [|done].
    case_bool_decide; cbn [negb fst snd]; intros Hv; exists registry; (split; [done|]).
    + right. destruct (au_keychain env registry); [|done]. by injection Hv as ->.
    + left. destruct (au_run env _) as [b|] eqn:Er; [|done]. destruct (au_decode env b) as [v'|] eqn:Ed; [|done].
      injection Hv as ->. eexists _, b. split_and!; [reflexivity|exact Er|exact Ed].
Qed.
