(* ===== verification/PackSsh.v ===== *)
(** * PackSsh: packaging on an SSH worker (cmd/niflhel-pack-ssh/main.go)

    The program copies an image archive to a worker, runs niflhel-pack there and
    copies the result back, by ssh and scp.  The model gives the list of external
    commands with their arguments.  What a command means is given apart from the
    program: [meaning] reads an argument list the way ssh and scp do, and
    [sh_words] splits a command line the way the shell of the worker does. *)

From S2P Require Import Prelude GoLib Api.
Import Strings Path.
Local Open Scope go_scope.

(** ** The program *)

Definition squote : ascii := "'"%char.
Definition dquote : ascii := "034"%char.

(** [strings.ReplaceAll] for a pattern of one byte. *)
Fixpoint ReplaceAll (s : string) (c : ascii) (by_ : string) : string :=
  match s with
  | EmptyString => ""
  | String x s => if Ascii.eqb x c then by_ +:+ ReplaceAll s c by_ else String x (ReplaceAll s c by_)
  end.

(** A quote inside a quoted string: close, the quote in double quotes, open. *)
Definition quote_escape : string := String squote (String dquote (String squote (String dquote (String squote "")))).

Definition quote (s : string) : string :=
  String squote "" +:+ ReplaceAll s squote quote_escape +:+ String squote "".

Definition alphanumeric (c : ascii) : bool :=
  let n := Ascii.N_of_ascii c in
  ((48 <=? n) && (n <=? 57) || (65 <=? n) && (n <=? 90) || (97 <=? n) && (n <=? 122))%N.

(** [^[A-Za-z0-9_][A-Za-z0-9_.@-]*$] *)
Definition host_first (c : ascii) : bool := alphanumeric c || Ascii.eqb c "_".
Definition host_rest (c : ascii) : bool := host_first c || Ascii.eqb c "." || Ascii.eqb c "@" || Ascii.eqb c "-".
Definition host_ok (host : string) : bool :=
  match host with
  | EmptyString => false
  | String c s => host_first c && forallb host_rest (String.list_ascii_of_string s)
  end.

(** An external command: its program and arguments. *)
Definition command : Type := string * list string.

Record SshEnv : Type := mkSshEnv {
  s_host : string;                        (* NIFLHEL_BUILD_SSH *)
  s_id : string;                          (* [api.ID] *)
  s_execute : command -> result unit;
  s_mkdirall : result unit }.

Record SshFlags : Type := mkSshFlags { f_image : string; f_output : string; f_kernel : string; f_kernelImage : string }.

Section Run.
Variable env : SshEnv.
Variable fl : SshFlags.

Definition remote : string := "/tmp/niflhel-pack-" +:+ s_id env.
Definition ssh (line : string) : command := ("ssh", ["-oBatchMode=yes"; "--"; s_host env; line]).
Definition scp (from to : string) : command := ("scp", ["-oBatchMode=yes"; "--"; from; to]).
Definition at_host (path : string) : string := s_host env +:+ ":" +:+ path.

(** A command that is run, and what follows if it succeeds. *)
Definition execute (c : command) (k : list command * result unit) : list command * result unit :=
  match s_execute env c with
  | Err e => ([c], Err e)
  | Ok _ => (c :: k.1, k.2)
  end.

(** The files that are copied back. *)
Fixpoint fetch (names : list string) : list command * result unit :=
  match names with
  | [] => ([], Ok tt)
  | n :: names => execute (scp (at_host (remote +:+ "/output/" +:+ n)) (JoinPath [f_output fl; n])) (fetch names)
  end.

(** Packaging on the worker and fetching the result. *)
Definition pack (args : string) : list command * result unit :=
  execute (ssh ("NIFLHEL_ISOLATED_BUILD_WORKER=1 /usr/local/bin/niflhel-pack" +:+ args))
    match s_mkdirall env with
    | Err e => ([], Err e)
    | Ok _ => fetch ["kernel"; "rootfs.ext4"]
    end.

(** What follows the creation of the directory on the worker. *)
Definition transfer : list command * result unit :=
  execute (scp (f_image fl) (at_host (remote +:+ "/image.tar")))
    (let args := " --image " +:+ quote (remote +:+ "/image.tar") +:+ " --output " +:+ quote (remote +:+ "/output") in
     if negb (bool_decide (f_kernel fl = "")) then
       execute (scp (f_kernel fl) (at_host (remote +:+ "/kernel"))) (pack (args +:+ " --kernel " +:+ quote (remote +:+ "/kernel")))
     else if bool_decide (f_kernelImage fl = "") then ([], Err (Errorf "kernel or kernel-image required"))
     else pack (args +:+ " --kernel-image " +:+ quote (f_kernelImage fl))).

(** [run]; the directory on the worker is removed when the function returns. *)
Definition run : list command * result unit :=
  if negb (host_ok (s_host env)) then ([], Err (Errorf "set NIFLHEL_BUILD_SSH to an SSH host alias or user@host"))
  else if bool_decide (f_image fl = "") || bool_decide (f_output fl = "") then ([], Err (Errorf "--image and --output required"))
  else
    execute (ssh ("mkdir -m 700 " +:+ quote remote))
      (let '(l, r) := transfer in (l ++ [ssh ("rm -rf -- " +:+ quote remote)], r)).
End Run.

(** ** What the commands mean *)

(** A command line is split into words by the shell of the worker.  Only a part
    of the shell language is given a meaning: words of plain characters, single
    quotes, and double quotes around plain characters; everything the shell would
    expand, and a line with a null byte, has none. *)
Inductive quoting : Type := Bare | Single | Double.

Definition bare_char (c : ascii) : bool :=
  alphanumeric c || Ascii.eqb c "_" || Ascii.eqb c "-" || Ascii.eqb c "." || Ascii.eqb c "/" || Ascii.eqb c "=".
Definition expands (c : ascii) : bool := Ascii.eqb c "$" || Ascii.eqb c "`" || Ascii.eqb c "\".

Definition snoc (w : option string) (c : ascii) : option string := Some (default "" w +:+ String c "").
Definition word (w : option string) : list string := option_list w.

Fixpoint lex (q : quoting) (w : option string) (s : string) : option (list string) :=
  match s with
  | EmptyString => match q with Bare => Some (word w) | _ => None end
  | String c s =>
      if Ascii.eqb c zero then None
      else match q with
      | Bare =>
          if Ascii.eqb c " " then (word w ++.) <$> lex Bare None s
          else if Ascii.eqb c squote then lex Single (Some (default "" w)) s
          else if Ascii.eqb c dquote then lex Double (Some (default "" w)) s
          else if bare_char c then lex Bare (snoc w c) s
          else None
      | Single => if Ascii.eqb c squote then lex Bare w s else lex Single (snoc w c) s
      | Double =>
          if Ascii.eqb c dquote then lex Bare w s
          else if expands c then None
          else lex Double (snoc w c) s
      end
  end.
Definition sh_words (line : string) : option (list string) := lex Bare None line.

(** An operand of scp is remote when a colon occurs in it before any slash. *)
Inductive place : Type :=
| Local (path : string)
| Remote (host path : string).
Definition operand (s : string) : place :=
  match Cut s ":" with
  | (h, p, true) => if bool_decide (h = "") || ContainsRune h slash then Local s else Remote h p
  | _ => Local s
  end.

Inductive deed : Type :=
| Runs (host : string) (words : list string)
| Copies (from to : place).

Definition meaning (c : command) : option deed :=
  match c with
  | ("ssh", ["-oBatchMode=yes"; "--"; host; line]) => Runs host <$> sh_words line
  | ("scp", ["-oBatchMode=yes"; "--"; from; to]) => Some (Copies (operand from) (operand to))
  | _ => None
  end.

(** ** Quoting *)

Lemma lex_word (w : option string) (s rest : string) :
  forallb bare_char (String.list_ascii_of_string s) = true -> s <> "" ->
  lex Bare w (s +:+ rest) = lex Bare (Some (default "" w +:+ s)) rest.
Proof.
  revert w. induction s as [|c s IH]; intros w Hs Hne; [done|]. cbn in Hs. apply andb_true_iff in Hs as [Hc Hs].
  rewrite app_cons_str. cbn [lex]. rewrite Hc.
  assert (Ascii.eqb c zero = false /\ Ascii.eqb c " " = false /\ Ascii.eqb c squote = false /\ Ascii.eqb c dquote = false) as (-> & -> & -> & ->).
  { split_and!; apply Ascii.eqb_neq; intros ->; by vm_compute in Hc. }
  destruct s as [|d s].
  - done.
  - rewrite IH by done. do 2 f_equal. exact (app_assoc_str (default "" w) (String c "") (String d s)).
Qed.

Lemma lex_quoted (w : string) (s rest : string) :
  ContainsRune s zero = false ->
  lex Single (Some w) (ReplaceAll s squote quote_escape +:+ String squote rest) = lex Bare (Some (w +:+ s)) rest.
Proof.
  revert w. induction s as [|c s IH]; intros w Hs.
  - cbn [ReplaceAll]. rewrite app_nil_l_str, app_nil_r_str. done.
  - cbn in Hs. apply orb_false_iff in Hs as [Hc Hs]. cbn [ReplaceAll].
    assert (w +:+ String c s = (w +:+ String c "") +:+ s) as -> by (by rewrite app_assoc_str).
    destruct (Ascii.eqb c squote) eqn:Eq.
    + apply Ascii.eqb_eq in Eq as ->. rewrite <- IH by done. rewrite app_assoc_str. done.
    + rewrite app_cons_str. cbn [lex]. rewrite Eq. rewrite <- IH by done.
      destruct (Ascii.eqb c zero) eqn:Ez; [|done]. apply Ascii.eqb_eq in Ez as ->. done.
Qed.

Lemma lex_quote (w : option string) (s rest : string) :
  ContainsRune s zero = false -> lex Bare w (quote s +:+ rest) = lex Bare (Some (default "" w +:+ s)) rest.
Proof.
  intros Hs. unfold quote. rewrite !app_assoc_str, !app_cons_str, !app_nil_l_str.
  rewrite <- lex_quoted by done. done.
Qed.

(** ** What the program does *)

(** The commands of a run mean an initial part of the given deeds, all of them if
    the run succeeds. *)
Definition follows (k : list command * result unit) (ds : list deed) : Prop :=
  exists n, (n <= length ds)%nat /\ mapM meaning k.1 = Some (take n ds) /\ (k.2 = Ok tt -> n = length ds).

Lemma mapM_snoc {A B} (f : A -> option B) (l : list A) (a : A) (m : list B) (b : B) :
  mapM f l = Some m -> f a = Some b -> mapM f (l ++ [a]) = Some (m ++ [b]).
Proof. intros Hl Ha. apply mapM_Some. apply Forall2_app; [by apply mapM_Some|by constructor]. Qed.

Lemma follows_stop (e : error) (ds : list deed) : follows ([], Err e) ds.
Proof. exists 0%nat. split_and!; [lia|done|done]. Qed.
Lemma follows_done : follows ([], Ok tt) [].
Proof. exists 0%nat. done. Qed.
Lemma follows_execute (env : SshEnv) (c : command) (d : deed) (k : list command * result unit) (ds : list deed) :
  meaning c = Some d -> follows k ds -> follows (execute env c k) (d :: ds).
Proof.
  intros Hc (n & Hn & Hk & Hr). unfold execute. destruct (s_execute env c) as [[]|e].
  - exists (S n). cbn [fst snd mapM length take]. rewrite Hc. cbn [mbind option_bind]. rewrite Hk.
    split_and!; [lia|done|intros H; by rewrite Hr].
  - exists 1%nat. cbn [fst snd mapM length take]. rewrite Hc. split_and!; [lia|done|done].
Qed.
Lemma execute_ok (env : SshEnv) (c : command) (k : list command * result unit) :
  s_execute env c = Ok tt -> k.2 = Ok tt -> (execute env c k).2 = Ok tt.
Proof. unfold execute. by intros -> ->. Qed.
#[local] Hint Resolve follows_stop follows_done follows_execute execute_ok : core.

(** Copying the image, packaging, fetching the two results. *)
Definition pack_words (env : SshEnv) (fl : SshFlags) : list string :=
  ["NIFLHEL_ISOLATED_BUILD_WORKER=1"; "/usr/local/bin/niflhel-pack"; "--image"; remote env +:+ "/image.tar";
   "--output"; remote env +:+ "/output"] ++
  (if bool_decide (f_kernel fl = "") then ["--kernel-image"; f_kernelImage fl] else ["--kernel"; remote env +:+ "/kernel"]).
Definition make_words (env : SshEnv) : list string := ["mkdir"; "-m"; "700"; remote env].
Definition clean_words (env : SshEnv) : list string := ["rm"; "-rf"; "--"; remote env].
Definition to_worker (env : SshEnv) (from name : string) : deed := Copies (Local from) (Remote (s_host env) (remote env +:+ name)).
Definition from_worker (env : SshEnv) (name to : string) : deed := Copies (Remote (s_host env) (remote env +:+ name)) (Local to).
Definition deeds (env : SshEnv) (fl : SshFlags) : list deed :=
  [to_worker env (f_image fl) "/image.tar"] ++
  (if bool_decide (f_kernel fl = "") then [] else [to_worker env (f_kernel fl) "/kernel"]) ++
  [Runs (s_host env) (pack_words env fl);
   from_worker env "/output/kernel" (JoinPath [f_output fl; "kernel"]);
   from_worker env "/output/rootfs.ext4" (JoinPath [f_output fl; "rootfs.ext4"])].

Lemma forall_rune (p : ascii -> bool) (s : string) (c : ascii) :
  forallb p (String.list_ascii_of_string s) = true -> p c = false -> ContainsRune s c = false.
Proof.
  induction s as [|x s IH]; [done|]. cbn. intros [Hx Hs]%andb_true_iff Hc. rewrite IH by done.
  destruct (bool_decide (x = c)) eqn:E; [apply bool_decide_eq_true in E as ->; congruence|done].
Qed.

Lemma host_no_rune (h : string) (c : ascii) : host_ok h = true -> host_rest c = false -> ContainsRune h c = false.
Proof.
  destruct h as [|x s]; [done|]. cbn [host_ok]. intros [Hx Hs]%andb_true_iff Hc. apply forall_rune with host_rest; [|done].
  cbn. unfold host_rest at 1. by rewrite Hx, Hs.
Qed.

Lemma operand_at (env : SshEnv) (path : string) :
  host_ok (s_host env) = true -> operand (at_host env path) = Remote (s_host env) path.
Proof.
  intros Hh. unfold operand, at_host. change (":" +:+ path) with (String ":" path). rewrite Cut_app by (by apply host_no_rune).
  rewrite (host_no_rune _ slash Hh) by done. rewrite bool_decide_eq_false_2; [done|]. intros E. by rewrite E in Hh.
Qed.

(** The directory on the worker has no null byte in its name. *)
Lemma remote_clean (env : SshEnv) (s : string) :
  is_id (s_id env) = true -> ContainsRune s zero = false -> ContainsRune (remote env +:+ s) zero = false.
Proof.
  intros [_ Hi]%andb_true_iff Hs. unfold remote. rewrite !ContainsRune_app, Hs.
  by rewrite (forall_rune _ _ zero Hi) by done.
Qed.

(** Plain words, each followed by a space. *)
Definition bare_word (p : string) : bool := forallb bare_char (String.list_ascii_of_string p) && negb (bool_decide (p = "")).
Definition spaced (ps : list string) : string := concat_str ((fun p => p +:+ " ") <$> ps).

Lemma lex_spaced (ps : list string) (rest : string) :
  forallb bare_word ps = true -> lex Bare None (spaced ps +:+ rest) = (ps ++.) <$> lex Bare None rest.
Proof.
  induction ps as [|p ps IH]; intros H; [change (spaced []) with ""; rewrite app_nil_l_str; by destruct (lex Bare None rest)|].
  cbn in H. apply andb_true_iff in H as [[Hp Hne%negb_true_iff%bool_decide_eq_false]%andb_true_iff Hps].
  change (spaced (p :: ps)) with ((p +:+ " ") +:+ spaced ps). rewrite !app_assoc_str, lex_word by done.
  change (" " +:+ (spaced ps +:+ rest)) with (String " " (spaced ps +:+ rest)).
  transitivity ((word (Some p) ++.) <$> lex Bare None (spaced ps +:+ rest)); [done|].
  rewrite IH by done. by destruct (lex Bare None rest).
Qed.
Lemma lex_spaced_after (w : string) (ps : list string) (rest : string) :
  forallb bare_word ps = true -> lex Bare (Some w) (" " +:+ spaced ps +:+ rest) = ((w :: ps) ++.) <$> lex Bare None rest.
Proof.
  intros H. transitivity ((word (Some w) ++.) <$> lex Bare None (spaced ps +:+ rest)); [done|].
  rewrite lex_spaced by done. by destruct (lex Bare None rest).
Qed.

Lemma line_words (env : SshEnv) (fl : SshFlags) :
  is_id (s_id env) = true -> ContainsRune (f_kernelImage fl) zero = false ->
  sh_words ("mkdir -m 700 " +:+ quote (remote env)) = Some (make_words env) /\
  sh_words ("rm -rf -- " +:+ quote (remote env)) = Some (clean_words env) /\
  sh_words ("NIFLHEL_ISOLATED_BUILD_WORKER=1 /usr/local/bin/niflhel-pack" +:+
     (" --image " +:+ quote (remote env +:+ "/image.tar") +:+ " --output " +:+ quote (remote env +:+ "/output")) +:+
     (if bool_decide (f_kernel fl = "") then " --kernel-image " +:+ quote (f_kernelImage fl) else " --kernel " +:+ quote (remote env +:+ "/kernel")))
  = Some (pack_words env fl).
Proof.
  intros Hi Hk.
  pose proof (remote_clean env "" Hi eq_refl) as H0. rewrite app_nil_r_str in H0.
  pose proof (remote_clean env "/image.tar" Hi eq_refl) as H1.
  pose proof (remote_clean env "/output" Hi eq_refl) as H2.
  pose proof (remote_clean env "/kernel" Hi eq_refl) as H3.
  rewrite <- (app_nil_r_str (quote (remote env))), <- (app_nil_r_str (quote (remote env +:+ "/kernel"))),
    <- (app_nil_r_str (quote (f_kernelImage fl))).
  unfold sh_words. split_and!.
  - change "mkdir -m 700 " with (spaced ["mkdir"; "-m"; "700"]). by rewrite lex_spaced, lex_quote.
  - change "rm -rf -- " with (spaced ["rm"; "-rf"; "--"]). by rewrite lex_spaced, lex_quote.
  - change "NIFLHEL_ISOLATED_BUILD_WORKER=1 /usr/local/bin/niflhel-pack" with
      (spaced ["NIFLHEL_ISOLATED_BUILD_WORKER=1"] +:+ "/usr/local/bin/niflhel-pack").
    change " --image " with (" " +:+ spaced ["--image"]). change " --output " with (" " +:+ spaced ["--output"]).
    change " --kernel-image " with (" " +:+ spaced ["--kernel-image"]). change " --kernel " with (" " +:+ spaced ["--kernel"]).
    unfold pack_words. rewrite !app_assoc_str, lex_spaced, lex_word, lex_spaced_after, lex_quote, lex_spaced_after, lex_quote by done.
    destruct (bool_decide _); by rewrite ?app_assoc_str, lex_spaced_after, lex_quote.
Qed.

(** Nothing is run when the worker or an argument is missing or not acceptable. *)
Lemma refused_runs_nothing (env : SshEnv) (fl : SshFlags) :
  host_ok (s_host env) = false \/ f_image fl = "" \/ f_output fl = "" -> (run env fl).1 = [] /\ is_ok (run env fl).2 = false.
Proof.
  unfold run. intros H. destruct (host_ok (s_host env)); [|done]. cbn [negb].
  destruct H as [H|[->| ->]]; [done| |rewrite orb_comm]; done.
Qed.

Section Correct.
Context (env : SshEnv) (fl : SshFlags).
Hypothesis Hhost : host_ok (s_host env) = true.
Hypothesis Hid : is_id (s_id env) = true.
Hypothesis Hkernel : ContainsRune (f_kernelImage fl) zero = false.
Hypothesis Himage_local : operand (f_image fl) = Local (f_image fl).
Hypothesis Hkernel_local : operand (f_kernel fl) = Local (f_kernel fl).
Hypothesis Houtput_local : forall n, n ∈ ["kernel"; "rootfs.ext4"] -> operand (JoinPath [f_output fl; n]) = Local (JoinPath [f_output fl; n]).

Lemma fetch_follows :
  follows (fetch env fl ["kernel"; "rootfs.ext4"])
    [from_worker env "/output/kernel" (JoinPath [f_output fl; "kernel"]);
     from_worker env "/output/rootfs.ext4" (JoinPath [f_output fl; "rootfs.ext4"])].
Proof.
  cbn [fetch]. repeat apply follows_execute; try apply follows_done;
    unfold scp; cbn [meaning]; rewrite operand_at, Houtput_local by (done || set_solver); done.
Qed.

Lemma pack_follows (args : string) :
  sh_words ("NIFLHEL_ISOLATED_BUILD_WORKER=1 /usr/local/bin/niflhel-pack" +:+ args) = Some (pack_words env fl) ->
  follows (pack env fl args)
    [Runs (s_host env) (pack_words env fl);
     from_worker env "/output/kernel" (JoinPath [f_output fl; "kernel"]);
     from_worker env "/output/rootfs.ext4" (JoinPath [f_output fl; "rootfs.ext4"])].
Proof.
  intros Hw. unfold pack. apply follows_execute; [unfold ssh; cbn [meaning]; by rewrite Hw|].
  destruct (s_mkdirall env); [apply fetch_follows|apply follows_stop].
Qed.

Lemma transfer_follows : follows (transfer env fl) (deeds env fl).
Proof.
  destruct (line_words env fl Hid Hkernel) as (_ & _ & Hw). revert Hw. unfold transfer, deeds.
  cbn zeta. intros Hw. apply follows_execute.
  { unfold scp. cbn [meaning]. by rewrite operand_at, Himage_local by done. }
  destruct (bool_decide (f_kernel fl = "")); cbn [negb].
  - destruct (bool_decide (f_kernelImage fl = "")); [apply follows_stop|by apply pack_follows].
  - apply follows_execute; [|by apply pack_follows].
    unfold scp. cbn [meaning]. by rewrite operand_at, Hkernel_local by done.
Qed.

Lemma transfer_succeeds :
  (forall c, s_execute env c = Ok tt) -> s_mkdirall env = Ok tt -> f_kernel fl <> "" \/ f_kernelImage fl <> "" ->
  (transfer env fl).2 = Ok tt.
Proof.
  intros Hx Hm Hk. unfold transfer. cbn zeta.
  assert (forall a, (pack env fl a).2 = Ok tt) as Hp.
  { intros a. unfold pack. rewrite Hm. cbn [fetch]. auto. }
  apply execute_ok; [done|]. case_bool_decide as E1; cbn [negb]; [|auto].
  rewrite bool_decide_eq_false_2 by naive_solver. auto.
Qed.

(** C33. Packaging on a worker does what it says and nothing else.  The commands that
    are run, read the way ssh, scp and the shell of the worker read them, are an
    initial part of: create a private directory, send the image and the kernel
    into it, run niflhel-pack there with exactly these paths, fetch the two
    results; and whenever the directory was created, the last command removes it
    and only it, whatever failed before.  Success means all were run and
    succeeded; nothing but image and kernel leaves the machine.  This holds for a
    host that passes the check, a fresh identifier, a kernel image without a NUL
    byte, and on condition that scp takes the paths of image, kernel and output as
    local ones: the code passes them as they are, and one with a colon before its
    first slash makes scp contact another host. *)
Theorem pack_ssh_correct (Hi : f_image fl <> "") (Ho : f_output fl <> "") :
  let '(l, r) := run env fl in
  exists n, (n <= length (deeds env fl))%nat /\
    (mapM meaning l = Some [Runs (s_host env) (make_words env)] /\ is_ok r = false \/
     mapM meaning l = Some (Runs (s_host env) (make_words env) :: take n (deeds env fl) ++ [Runs (s_host env) (clean_words env)])) /\
    (r = Ok tt -> n = length (deeds env fl)) /\
    ((forall c, s_execute env c = Ok tt) -> s_mkdirall env = Ok tt -> f_kernel fl <> "" \/ f_kernelImage fl <> "" -> r = Ok tt).
Proof.
  destruct (line_words env fl Hid Hkernel) as (Hmk & Hrm & _).
  destruct transfer_follows as (n & Hn & Hl & Hr). pose proof transfer_succeeds as Hs.
  unfold run. rewrite Hhost, !bool_decide_eq_false_2 by done. cbn [negb orb].
  destruct (transfer env fl) as [l r]. cbn [fst snd] in *. unfold execute.
  assert (forall line ws, sh_words line = Some ws -> meaning (ssh env line) = Some (Runs (s_host env) ws)) as Hm.
  { intros line ws Hw. unfold ssh. cbn [meaning]. by rewrite Hw. }
  destruct (s_execute env (ssh env ("mkdir -m 700 " +:+ quote (remote env)))) as [[]|e] eqn:Ex.
  - exists n. split_and!; [done| |done|done]. right. cbn [fst mapM]. rewrite (Hm _ _ Hmk). cbn [mbind option_bind].
    by rewrite (mapM_snoc _ _ _ _ _ Hl (Hm _ _ Hrm)).
  - exists 0%nat. split_and!; [lia| |done|intros Hall; by rewrite Hall in Ex].
    left. cbn [fst mapM]. by rewrite (Hm _ _ Hmk).
Qed.
End Correct.

(** A packaging in which the upload of the kernel
    fails, and the directory is still removed. *)
Definition example_env : SshEnv :=
  mkSshEnv "build@worker-1" "0123456789abcdef0123456789abcdef"
    (fun c => if bool_decide (c.1 = "scp" /\ Exists (fun a => a = "/k/vm linux") c.2) then Err (Errorf "exit status 1") else Ok tt) (Ok tt).
Definition example_flags : SshFlags := mkSshFlags "/tmp/b/image.tar" "/tmp/b/bundle" "/k/vm linux" "".

Lemma pack_ssh_correct_witness :
  host_ok (s_host example_env) = true /\ is_id (s_id example_env) = true /\
  exists l r, run example_env example_flags = (l, r) /\ is_ok r = false /\
    mapM meaning l = Some [Runs "build@worker-1" (make_words example_env); to_worker example_env "/tmp/b/image.tar" "/image.tar";
                           to_worker example_env "/k/vm linux" "/kernel"; Runs "build@worker-1" (clean_words example_env)] /\
    exists n, (n <= length (deeds example_env example_flags))%nat.
Proof.
  assert (forall n, n ∈ ["kernel"; "rootfs.ext4"] ->
    operand (JoinPath [f_output example_flags; n]) = Local (JoinPath [f_output example_flags; n])) as Hout.
  { intros n Hn. repeat (apply elem_of_cons in Hn as [->|Hn]; [vm_compute; reflexivity|]). by apply elem_of_nil in Hn. }
  pose proof (pack_ssh_correct example_env example_flags eq_refl eq_refl eq_refl eq_refl eq_refl Hout ltac:(done) ltac:(done)) as H.
  split; [reflexivity|]. split; [reflexivity|].
  destruct (run example_env example_flags) as [l r] eqn:E. exists l, r. vm_compute in E. injection E as <- <-.
  destruct H as (n & Hn & _). split_and!; [reflexivity..|by exists n].
Defined.
