(* ===== verification/Pack.v ===== *)
(** * Pack: packaging a base on a build worker (cmd/niflhel-pack/main.go)

    niflhel-pack turns an OCI archive and a kernel into the two files of a base.
    It composes the extraction of archives ([Filecopy]), the image store
    ([OciStore]), the unpacking of layers ([Unpack]) and the creation of disks
    ([Storage.Disk]); what the first three answer is an argument here, as their
    own theorems say what they do.  The model gives the stages that are reached,
    in order, and what is written as the kernel. *)

From S2P Require Import Prelude GoLib Api Fs Filecopy Storage.
Import Strings Path.
Local Open Scope Z_scope.
Local Open Scope go_scope.

(** ** The kernel *)

Definition max_kernel : Z := 128 * MiB.

(** The kernel file of the output directory: what is there already, whether it
    can be created, and after how many bytes writing fails, if it does. *)
Record KernelFile : Type := mkKernelFile {
  kf_old : option string;
  kf_create : result unit;
  kf_write : option (nat * error) }.

(** [os.OpenFile] with [O_CREATE|O_EXCL|O_WRONLY], copying, closing: the content
    of the file afterwards and the error of copying, where [e] is the error of
    the reader after [data]. *)
Definition write_new (f : KernelFile) (data : string) (e : option error) : option string * result unit :=
  match kf_old f with
  | Some old => (Some old, Err ErrExist)
  | None =>
      match kf_create f with
      | Err e => (None, Err e)
      | Ok _ =>
          match kf_write f with
          | Some (n, e') => (Some (take_str n data), Err e')
          | None => (Some data, match e with Some e => Err e | None => Ok tt end)
          end
      end
  end.

(** The copy of a local kernel, through a reader limited to 128 MiB. *)
Definition copy_local (source : result Stream) (f : KernelFile) : option string * result unit :=
  match source with
  | Err e => (kf_old f, Err e)
  | Ok s =>
      let data := take_str (Z.to_nat max_kernel) (st_data s) in
      write_new f data (if Z.of_nat (String.length data) <? max_kernel then st_error s else None)
  end.

Definition vmlinux : string := "boot/vmlinux".

(** The search of [writeKernelFromImage] through the entries of the image. *)
Fixpoint find_kernel (f : KernelFile) (l : list (result entry)) : option string * result unit :=
  match l with
  | [] => (kf_old f, Err (Errorf "kernel image lacks regular /boot/vmlinux"))
  | Err e :: _ => (kf_old f, Err e)
  | Ok h :: l =>
      if negb (bool_decide (TrimPrefix (e_Name h) "./" = vmlinux)) then find_kernel f l
      else if match e_Typeflag h with TypeReg => false | _ => true end || (max_kernel <? e_Size h)
      then (kf_old f, Err (Errorf "kernel must be regular /boot/vmlinux under 128 MiB"))
      else
        let data := take_str (Z.to_nat (e_Size h)) (e_Body h) in
        write_new f data (if Z.of_nat (String.length data) <? e_Size h then Some (Errorf "EOF") else None)
  end.

(** [writeKernelFromImage]; [parse] and [image] are [name.ParseReference] and the
    entries of the image that [remote.Image] finds, up to the limit of 512 MiB. *)
Definition writeKernelFromImage (parse : string -> result unit) (image : string -> result (list (result entry)))
    (imageRef : string) (f : KernelFile) : option string * result unit :=
  if negb (Contains imageRef "@sha256:") then (kf_old f, Err (Errorf "kernel image must be digest-pinned"))
  else match parse imageRef with
  | Err e => (kf_old f, Err e)
  | Ok _ => match image imageRef with Err e => (kf_old f, Err e) | Ok l => find_kernel f l end
  end.

(** ** The program *)

Record PackFlags : Type := mkPackFlags { pf_image : string; pf_output : string; pf_kernel : string; pf_kernelImage : string }.

Record PackEnv : Type := mkPackEnv {
  p_worker : string;                            (* NIFLHEL_ISOLATED_BUILD_WORKER *)
  p_euid : Z;
  p_mkdtemp : result string;
  p_open : string -> result unit;
  p_extract : result unit;                      (* [filecopy.Extract] *)
  p_load : result unit;                         (* [oci.LoadLayoutImage] *)
  p_import : result unit;                       (* [cache.Import] *)
  p_carrier : result unit;                      (* [cache.Carrier] *)
  p_unpack : result unit;                       (* [guest.Unpack] *)
  p_stat : string -> result (bool * Z);         (* [os.Stat]: regular, permission bits *)
  p_mkdirall : result unit;
  p_source : string -> result Stream;
  p_file : KernelFile;
  p_parse : string -> result unit;
  p_remote : string -> result (list (result entry));
  p_walk : list (result (bool * Z));            (* what [filepath.Walk] visits: regular, size *)
  p_disk : DiskEnv;
  p_disks : gmap string Z }.

(** The executables a guest needs; the paths of network helpers vary and are
    skipped. *)
Definition required : list string :=
  ["sbin/niflhel-init"; "usr/sbin/niflhel-agent"; "usr/bin/runc"; "usr/sbin/ip"; "usr/sbin/iptables"].
Fixpoint check_required (stat : string -> result (bool * Z)) (root : string) (ps : list string) : result unit :=
  match ps with
  | [] => Ok tt
  | p :: ps =>
      if HasPrefix p "usr/sbin/" && negb (bool_decide (p = "usr/sbin/niflhel-agent")) then check_required stat root ps
      else
        match stat (JoinPath [root; p]) with
        | Ok (true, mode) =>
            guard negb (Z.land mode 73 =? 0) else Errorf ("required guest executable missing: " +:+ p) in
            check_required stat root ps
        | _ => Err (Errorf ("required guest executable missing: " +:+ p))
        end
  end.

(** The bytes of the regular files; the walk ends at its first error. *)
Fixpoint walk_size (size : Z) (l : list (result (bool * Z))) : Z :=
  match l with
  | [] | Err _ :: _ => size
  | Ok (regular, n) :: l => walk_size (if (regular : bool) then int64 (size + n) else size) l
  end.

Inductive stage : Type :=
| SExtract (dir : string)
| SImport (cache : string)
| SCarrier (dir : string)
| SUnpack (carrier root : string) (limit : Z)
| SKernel (content : option string)
| SDisk (path : string) (size : Z) (source : string)
| SClean (dir : string).

Section Run.
Variable env : PackEnv.
Variable fl : PackFlags.

Definition kernel_outcome : option string * result unit :=
  if negb (bool_decide (pf_kernel fl = "")) then copy_local (p_source env (pf_kernel fl)) (p_file env)
  else writeKernelFromImage (p_parse env) (p_remote env) (pf_kernelImage fl) (p_file env).

(** The output: the kernel, then the disk. *)
Definition emit (root : string) : list stage * result unit :=
  need (check_required (p_stat env) root required) (fun _ =>
  need (p_mkdirall env) (fun _ =>
  perform (SKernel (fst kernel_outcome)) (snd kernel_outcome) (fun _ =>
  let path := JoinPath [pf_output fl; "rootfs.ext4"] in
  let size := CarrierSize (walk_size 0 (p_walk env)) in
  perform (SDisk path size root) (snd (Disk (p_disk env) (p_disks env) path size root)) (fun _ => ([], Ok tt))))).

(** The work in the temporary directory. *)
Definition run_in (tmp : string) : list stage * result unit :=
  let layoutDir := JoinPath [tmp; "layout"] in
  let carrier := JoinPath [tmp; "carrier"] in
  let root := JoinPath [tmp; "rootfs"] in
  need (p_open env (pf_image fl)) (fun _ =>
  perform (SExtract layoutDir) (p_extract env) (fun _ =>
  need (p_load env) (fun _ =>
  perform (SImport (JoinPath [tmp; "cache"])) (p_import env) (fun _ =>
  perform (SCarrier carrier) (p_carrier env) (fun _ =>
  perform (SUnpack carrier root (2 * GiB)) (p_unpack env) (fun _ =>
  emit root)))))).

(** [run]; the temporary directory is removed when the function returns. *)
Definition run : list stage * result unit :=
  require (bool_decide (p_worker env = "1")) "refusing to unpack without NIFLHEL_ISOLATED_BUILD_WORKER=1" (
  require (p_euid env =? 0) "base packaging requires root inside the isolated worker to preserve image ownership" (
  require (negb (bool_decide (pf_image fl = "") || bool_decide (pf_output fl = ""))) "--image and --output required" (
  need (p_mkdtemp env) (fun tmp =>
  let '(l, r) := run_in tmp in (l ++ [SClean tmp], r))))).
End Run.

(** ** Theorems *)

(** Which bytes are the kernel: those of the local file, up to 128 MiB, or those
    of the first entry of a pinned image with the right name. *)
Definition kernel_bytes (env : PackEnv) (fl : PackFlags) (k : string) : Prop :=
  if bool_decide (pf_kernel fl = "") then
    Contains (pf_kernelImage fl) "@sha256:" = true /\
    exists pre h post, p_remote env (pf_kernelImage fl) = Ok ((Ok <$> pre) ++ Ok h :: post) /\
      Forall (fun h => TrimPrefix (e_Name h) "./" <> vmlinux) pre /\
      TrimPrefix (e_Name h) "./" = vmlinux /\ e_Typeflag h = TypeReg /\ e_Size h <= max_kernel /\
      k = take_str (Z.to_nat (e_Size h)) (e_Body h) /\ e_Size h <= Z.of_nat (String.length k)
  else
    exists s, p_source env (pf_kernel fl) = Ok s /\ k = take_str (Z.to_nat max_kernel) (st_data s) /\
      (Z.of_nat (String.length k) < max_kernel -> st_error s = None).

Lemma write_new_ok (f : KernelFile) (data : string) (e : option error) (c : option string) :
  write_new f data e = (c, Ok tt) -> kf_old f = None /\ c = Some data /\ e = None.
Proof.
  unfold write_new. destruct (kf_old f); [done|]. destruct (kf_create f); [|done].
  destruct (kf_write f) as [[??]|]; [done|]. destruct e; [done|]. by intros [= <-].
Qed.

(** An existing kernel is never overwritten. *)
Lemma write_new_keeps (f : KernelFile) (data : string) (e : option error) (old : string) :
  kf_old f = Some old -> fst (write_new f data e) = Some old.
Proof. unfold write_new. by intros ->. Qed.

Lemma find_kernel_ok (f : KernelFile) (l : list (result entry)) (c : option string) :
  find_kernel f l = (c, Ok tt) ->
  kf_old f = None /\ exists pre h post k, l = (Ok <$> pre) ++ Ok h :: post /\ c = Some k /\
    Forall (fun h => TrimPrefix (e_Name h) "./" <> vmlinux) pre /\
    TrimPrefix (e_Name h) "./" = vmlinux /\ e_Typeflag h = TypeReg /\ e_Size h <= max_kernel /\
    k = take_str (Z.to_nat (e_Size h)) (e_Body h) /\ e_Size h <= Z.of_nat (String.length k).
Proof.
  induction l as [|[h|e] l IH]; cbn [find_kernel]; intros H; [done| |done].
  case_bool_decide as En; cbn [negb] in H.
  - destruct (e_Typeflag h) eqn:Et; cbn [orb] in H; [|done..]. destruct (max_kernel <? e_Size h) eqn:Es; [done|].
    apply Z.ltb_ge in Es. apply write_new_ok in H as (Hold & -> & He). split; [done|].
    exists [], h, l, (take_str (Z.to_nat (e_Size h)) (e_Body h)). split_and!; try done.
    destruct (_ <? e_Size h) eqn:El; [done|]. by apply Z.ltb_ge in El.
  - destruct (IH H) as (Hold & pre & h' & post & k & -> & Hc & Hpre & Hrest). split; [done|].
    exists (h :: pre), h', post, k. destruct Hrest as (? & ? & ? & ? & ?). split_and!; try done. by constructor.
Qed.

Lemma kernel_ok (env : PackEnv) (fl : PackFlags) (c : option string) :
  kernel_outcome env fl = (c, Ok tt) -> kf_old (p_file env) = None /\ exists k, c = Some k /\ kernel_bytes env fl k.
Proof.
  unfold kernel_outcome, kernel_bytes. case_bool_decide as E; cbn [negb].
  - unfold writeKernelFromImage. destruct (Contains _ _) eqn:Ec; [|done]. cbn [negb].
    destruct (p_parse env _); [|done]. destruct (p_remote env _) as [l|] eqn:Er; [|done].
    intros (Hold & pre & h & post & k & -> & Hc & H)%find_kernel_ok. split; [done|]. exists k. split; [done|].
    split; [done|]. by exists pre, h, post.
  - unfold copy_local. destruct (p_source env _) as [s|]; [|done]. cbv zeta.
    intros (Hold & -> & He)%write_new_ok. split; [done|]. eexists. split; [done|]. exists s. split_and!; [done..|].
    intros Hl. apply Z.ltb_lt in Hl. by rewrite Hl in He.
Qed.

Lemma check_required_ok (stat : string -> result (bool * Z)) (root : string) :
  check_required stat root required = Ok tt ->
  Forall (fun p => exists mode, stat (JoinPath [root; p]) = Ok (true, mode) /\ Z.land mode 73 <> 0)
    ["sbin/niflhel-init"; "usr/sbin/niflhel-agent"; "usr/bin/runc"].
Proof.
  unfold required.
  assert (forall p ps, HasPrefix p "usr/sbin/" && negb (bool_decide (p = "usr/sbin/niflhel-agent")) = false ->
    check_required stat root (p :: ps) = Ok tt ->
    (exists mode, stat (JoinPath [root; p]) = Ok (true, mode) /\ Z.land mode 73 <> 0) /\ check_required stat root ps = Ok tt) as Hstep.
  { intros p ps Hp. cbn [check_required]. rewrite Hp. destruct (stat _) as [[[] mode]|] eqn:Es; [|done..].
    destruct (Z.land mode 73 =? 0) eqn:Em; [done|]. cbn [negb]. apply Z.eqb_neq in Em. eauto. }
  intros H. apply Hstep in H as [H1 H]; [|done]. apply Hstep in H as [H2 H]; [|done]. apply Hstep in H as [H3 _]; [|done].
  by repeat constructor.
Qed.

(** The stages of a packaging in the temporary directory [tmp] with kernel [c]. *)
Definition stages (env : PackEnv) (fl : PackFlags) (tmp : string) : list stage :=
  [SExtract (JoinPath [tmp; "layout"]); SImport (JoinPath [tmp; "cache"]); SCarrier (JoinPath [tmp; "carrier"]);
   SUnpack (JoinPath [tmp; "carrier"]) (JoinPath [tmp; "rootfs"]) (2 * GiB); SKernel (fst (kernel_outcome env fl));
   SDisk (JoinPath [pf_output fl; "rootfs.ext4"]) (CarrierSize (walk_size 0 (p_walk env))) (JoinPath [tmp; "rootfs"])].

(** [goes k ss]: the stages of [k] are an initial part of [ss], all if [k] succeeds. *)
Definition goes {act : Type} (k : list act * result unit) (ss : list act) : Prop :=
  fst k `prefix_of` ss /\ (snd k = Ok tt -> fst k = ss).
Lemma goes_perform {act A : Type} (a : act) (r : result A) (k : A -> list act * result unit) (ss : list act) :
  (forall x, r = Ok x -> goes (k x) ss) -> goes (perform a r k) (a :: ss).
Proof.
  unfold perform. destruct r as [x|e]; intros H.
  - destruct (H x eq_refl) as [Hp Hk]. destruct (k x) as [l r]. cbn in *. split; [by apply prefix_cons|]. intros E. by rewrite Hk.
  - split; [|done]. by exists ss.
Qed.
Lemma goes_need {act A : Type} (r : result A) (k : A -> list act * result unit) (ss : list act) :
  (forall x, r = Ok x -> goes (k x) ss) -> goes (need r k) ss.
Proof. unfold need. destruct r as [x|e]; intros H; [by apply H|]. split; [|done]. apply prefix_nil. Qed.

Lemma run_in_goes (env : PackEnv) (fl : PackFlags) (tmp : string) : goes (run_in env fl tmp) (stages env fl tmp).
Proof.
  unfold run_in, emit, stages.
  repeat first [ apply goes_perform; intros ? _ | apply goes_need; intros ? _ ]. split; done.
Qed.

Lemma run_in_ok (env : PackEnv) (fl : PackFlags) (tmp : string) :
  snd (run_in env fl tmp) = Ok tt ->
  let root := JoinPath [tmp; "rootfs"] in
  p_extract env = Ok tt /\ p_load env = Ok tt /\ p_import env = Ok tt /\ p_carrier env = Ok tt /\ p_unpack env = Ok tt /\
  check_required (p_stat env) root required = Ok tt /\ snd (kernel_outcome env fl) = Ok tt /\
  snd (Disk (p_disk env) (p_disks env) (JoinPath [pf_output fl; "rootfs.ext4"]) (CarrierSize (walk_size 0 (p_walk env))) root) = Ok tt.
Proof.
  unfold run_in, emit, need, perform. cbv zeta. intros H. destruct (p_open env _) as [[]|]; [|done].
  destruct (p_extract env) as [[]|]; [|done]. destruct (p_load env) as [[]|]; [|done]. destruct (p_import env) as [[]|]; [|done].
  destruct (p_carrier env) as [[]|]; [|done]. destruct (p_unpack env) as [[]|]; [|done].
  destruct (check_required _ _ _) as [[]|]; [|done]. destruct (p_mkdirall env) as [[]|]; [|done].
  destruct (snd (kernel_outcome env fl)) as [[]|]; [|done]. destruct (snd (Disk _ _ _ _ _)) as [[]|]; done.
Qed.

(** Packaging a base.  Outside an isolated worker, without root, or without its
    arguments, nothing is unpacked at all.  Otherwise the stages come in the order
    extract, import, carrier, unpack within 2 GiB, kernel, disk, up to the first
    that fails, and the temporary directory is removed at the end whatever
    happens.  Success means that the image has the init, the agent and runc as
    regular executable files, that a new kernel file holds exactly the bytes of
    the local kernel (up to 128 MiB) or of the first /boot/vmlinux of a
    digest-pinned image, and that a new disk of the computed size was made from
    the unpacked tree. *)
Theorem pack_correct (env : PackEnv) (fl : PackFlags) (tmp : string) :
  p_mkdtemp env = Ok tmp ->
  let '(l, r) := run env fl in
  (p_worker env <> "1" \/ p_euid env <> 0 \/ pf_image fl = "" \/ pf_output fl = "" -> l = [] /\ is_ok r = false) /\
  (l = [] \/ exists pre, l = pre ++ [SClean tmp] /\ pre `prefix_of` stages env fl tmp) /\
  (r = Ok tt ->
     let root := JoinPath [tmp; "rootfs"] in
     l = stages env fl tmp ++ [SClean tmp] /\
     p_extract env = Ok tt /\ p_load env = Ok tt /\ p_import env = Ok tt /\ p_carrier env = Ok tt /\ p_unpack env = Ok tt /\
     Forall (fun p => exists mode, p_stat env (JoinPath [root; p]) = Ok (true, mode) /\ Z.land mode 73 <> 0)
       ["sbin/niflhel-init"; "usr/sbin/niflhel-agent"; "usr/bin/runc"] /\
     kf_old (p_file env) = None /\ (exists k, SKernel (Some k) ∈ l /\ kernel_bytes env fl k) /\
     p_disks env !! JoinPath [pf_output fl; "rootfs.ext4"] = None /\
     de_run (p_disk env) (mkfs_args (JoinPath [pf_output fl; "rootfs.ext4"]) root) = Ok tt).
Proof.
  intros Ht. unfold run, require. rewrite Ht. cbn [need].
  destruct (bool_decide (p_worker env = "1")) eqn:Ew; [|split_and!; [done|by left|done]].
  destruct (p_euid env =? 0) eqn:Eu; [|split_and!; [done|by left|done]].
  destruct (negb _) eqn:Ea; [|split_and!; [done|by left|done]].
  apply bool_decide_eq_true in Ew. apply Z.eqb_eq in Eu. apply negb_true_iff, orb_false_iff in Ea as [Ei%bool_decide_eq_false Eo%bool_decide_eq_false].
  destruct (run_in_goes env fl tmp) as [Hpre Hall]. pose proof (run_in_ok env fl tmp) as Hok.
  destruct (run_in env fl tmp) as [l r]. cbn [fst snd] in *. split_and!.
  - intros [H|[H|[H|H]]]; congruence.
  - right. by exists l.
  - intros Hr. destruct (Hok Hr) as (He & Hl & Hi & Hc & Hu & Hq & Hk & Hd). rewrite Hall by done.
    destruct (kernel_outcome env fl) as [c kr] eqn:Ek. cbn [snd] in Hk. subst kr.
    destruct (kernel_ok env fl c Ek) as (Hold & k & -> & Hb).
    pose proof (Disk_atomic (p_disk env) (p_disks env) (JoinPath [pf_output fl; "rootfs.ext4"]) (JoinPath [tmp; "rootfs"])
      (CarrierSize (walk_size 0 (p_walk env)))) as HD.
    destruct (Disk _ _ _ _ _) as [ds dr]. cbn [snd] in Hd. subst dr. destruct HD as (Hnew & _ & _ & Hrun).
    split_and!; try done; [by apply check_required_ok|]. exists k. split; [|done]. unfold stages. rewrite Ek.
    apply elem_of_app. left. do 4 apply list_elem_of_further. apply list_elem_of_here.
Qed.

(** A packaging with the kernel of an image. *)
Definition example_env : PackEnv :=
  mkPackEnv "1" 0 (Ok "/tmp/p") (fun _ => Ok tt) (Ok tt) (Ok tt) (Ok tt) (Ok tt) (Ok tt) (fun _ => Ok (true, 493)) (Ok tt)
    (fun _ => Err (Errorf "no such file")) (mkKernelFile None (Ok tt) None) (fun _ => Ok tt)
    (fun _ => Ok [Ok (mkEntry "./boot/" TypeDir 0 ""); Ok (mkEntry "./boot/vmlinux" TypeReg 3 "ELF")])
    [Ok (false, 0); Ok (true, 1000)]
    (mkDiskEnv (fun _ => Ok tt) (fun _ => Ok tt) (fun _ => Ok tt) (fun _ => Ok tt) (fun _ => Ok tt)) ∅.
Definition example_flags : PackFlags := mkPackFlags "/in.tar" "/out" "" "registry/kernel@sha256:00".

Lemma pack_correct_witness :
  p_mkdtemp example_env = Ok "/tmp/p" /\
  exists l, run example_env example_flags = (l, Ok tt) /\ l = stages example_env example_flags "/tmp/p" ++ [SClean "/tmp/p"] /\
    SKernel (Some "ELF") ∈ l.
Proof.
  pose proof (pack_correct example_env example_flags "/tmp/p" eq_refl) as H.
  split; [reflexivity|]. destruct (run example_env example_flags) as [l r] eqn:E.
  assert (r = Ok tt) as -> by (vm_compute in E; congruence).
  destruct H as (_ & _ & H). destruct (H eq_refl) as (Hl & _). exists l. split_and!; [reflexivity|exact Hl|].
  vm_compute in E. injection E as <-.
  do 4 apply list_elem_of_further. apply list_elem_of_here.
Defined.
