(* ===== verification/Sessions.v ===== *)
(** * Sessions: streams of the daemon and of the agent (internal/daemon/handler.go,
    results.go, internal/guest/agent.go)

    A session of the client is answered by the daemon itself (uploads, the
    retained output of an exited sandbox) or relayed to the agent in the guest,
    which streams the journal of the application or runs a command.  The
    journal, the exit status and the connection change while a session runs: what
    each look at them finds is an argument, indexed by the number of the look. *)

From S2P Require Import Prelude GoLib Api RuntimeSpec Agent CliSession Journal CliLogs.
Import Strings Strconv.
Local Open Scope Z_scope.
Local Open Scope go_scope.

(** ** Input *)

(** What the agent does with the frames it receives. *)
Inductive effect : Type :=
| EWrite (data : string)
| EClose
| EResize (rows cols : Z)
| ESignal (message : string)
| EDetached.

(** The goroutine of [Agent.attach] that serves the client's frames; the end of
    the list is a connection that stays open. *)
Fixpoint attach_input (input terminal : bool) (frames : list (result Frame)) : list effect :=
  match frames with
  | [] => []
  | Err _ :: _ => if input && negb terminal then [EClose] else []
  | Ok f :: frames =>
      if bool_decide (fr_Type f = "stdin") then
        (if input then [EWrite (fr_Data f)] else []) ++ attach_input input terminal frames
      else if bool_decide (fr_Type f = "eof") then
        (if input && negb terminal then [EClose] else []) ++ attach_input input terminal frames
      else if bool_decide (fr_Type f = "resize") then
        (if terminal then [EResize (fr_Height f) (fr_Width f)] else []) ++ attach_input input terminal frames
      else if bool_decide (fr_Type f = "signal") then ESignal (fr_Message f) :: attach_input input terminal frames
      else if bool_decide (fr_Type f = "detach") then [EDetached]
      else attach_input input terminal frames
  end.

(** The goroutine of [Agent.exec]; the signals that are delivered are the valid
    ones. *)
Fixpoint exec_input (input terminal : bool) (frames : list (result Frame)) : list effect :=
  match frames with
  | [] => []
  | Err _ :: _ => if input && negb terminal then [EClose] else []
  | Ok f :: frames =>
      if bool_decide (fr_Type f = "stdin") then
        (if input then [EWrite (fr_Data f)] else []) ++ exec_input input terminal frames
      else if bool_decide (fr_Type f = "eof") then
        (if input && negb terminal then [EClose] else []) ++ exec_input input terminal frames
      else if bool_decide (fr_Type f = "resize") then
        (if terminal then [EResize (fr_Height f) (fr_Width f)] else []) ++ exec_input input terminal frames
      else if bool_decide (fr_Type f = "signal") then
        (if is_ok (Agent.Signal (fr_Message f)) then [ESignal (fr_Message f)] else []) ++ exec_input input terminal frames
      else exec_input input terminal frames
  end.

(** ** The output of a command *)

Inductive stream : Type := Stdout | Stderr.
Definition stream_name (k : stream) : string := match k with Stdout => "stdout" | Stderr => "stderr" end.

(** A terminal is one stream, sent as standard output. *)
Definition via (tty : bool) (k : stream) : stream := if tty then Stdout else k.

(** What happens while a command runs: it writes to a stream (for a terminal,
    what its line discipline puts out), or the goroutine that copies the stream
    reads up to [n] of the bytes that wait there and sends them. *)
Inductive output_event : Type :=
| OutWrite (k : stream) (data : string)
| OutCopy (k : stream) (n : nat).

(** The bytes written and not read yet. *)
Record pipes : Type := mkPipes { p_out : string; p_err : string }.
Definition waiting (k : stream) (b : pipes) : string := match k with Stdout => p_out b | Stderr => p_err b end.
Definition set_waiting (k : stream) (s : string) (b : pipes) : pipes :=
  match k with Stdout => mkPipes s (p_err b) | Stderr => mkPipes (p_out b) s end.

(** The writes of the copying goroutines to their [streamWriter]s, and what is
    left unread. *)
Fixpoint copy_output (tty : bool) (evs : list output_event) (b : pipes) : list (string * string) * pipes :=
  match evs with
  | [] => ([], b)
  | OutWrite k d :: evs => copy_output tty evs (set_waiting (via tty k) (waiting (via tty k) b +:+ d) b)
  | OutCopy k n :: evs =>
      let '(l, b') := copy_output tty evs (set_waiting (via tty k) (drop_str n (waiting (via tty k) b)) b) in
      ((stream_name (via tty k), take_str n (waiting (via tty k) b)) :: l, b')
  end.

(** All that is copied until the exit frame is sent.  Without a terminal
    [cmd.Wait] returns only when the copying goroutines have read their pipes to
    the end.  A terminal is closed as soon as the command has ended, and what was
    not read before that is lost. *)
Definition exec_chunks (tty : bool) (evs : list output_event) : list (string * string) :=
  let '(l, b) := copy_output tty evs (mkPipes "" "") in
  l ++ (if tty then [] else [("stdout", p_out b); ("stderr", p_err b)]).

Definition outputs (evs : list (string * string)) : list Frame := evs ≫= fun e => writer_frames (fst e) (snd e).

(** The frames of [Agent.exec]: what is copied, then the exit. *)
Definition exec_output (tty : bool) (evs : list output_event) (w : waited) : list Frame :=
  outputs (exec_chunks tty evs) ++ [exit_frame (Some (exec_code w))].

(** What the command wrote, with the streams it is sent as. *)
Definition written (tty : bool) (evs : list output_event) : list (string * string) :=
  omap (fun e => match e with OutWrite k d => Some (stream_name (via tty k), d) | OutCopy _ _ => None end) evs.

(** ** The stream of an attached client *)

Fixpoint send_frames (send : nat -> option error) (n : nat) (fs : list Frame) (cursor : Z)
  : list Frame * Z * nat * option error :=
  match fs with
  | [] => ([], cursor, n, None)
  | f :: fs =>
      match send n with
      | Some e => ([], cursor, n, Some e)
      | None => let '(l, c, n, e) := send_frames send (S n) fs (fr_Sequence f) in (f :: l, c, n, e)
      end
  end.

(** What ends the wait of a round. *)
Inductive wake : Type := Canceled | Gone | Tick.

Record AttachEnv : Type := mkAttachEnv {
  at_journal : nat -> Journal;     (* two looks in a round *)
  at_exit : nat -> option Exit;
  at_send : nat -> option error;
  at_wake : nat -> wake }.

Definition exit_of_app (x : Exit) : Frame := mkFrame "exit" "" (x_Reason x) (x_Code x) 0 0 0 0.

(** The loop of [Agent.attach]: the frames that were sent, and the result. *)
Fixpoint attach_output (env : AttachEnv) (fuel t n : nat) (cursor : Z) : option (list Frame * result unit) :=
  match fuel with
  | 0%nat => None
  | S fuel =>
      let '(l, cursor, n, err) := send_frames (at_send env) n (Read (at_journal env (2 * t)) cursor) cursor in
      match err with
      | Some e => Some (l, Err e)
      | None =>
          let wait :=
            match at_wake env t with
            | Canceled => Some (l, Err (Errorf "context canceled"))
            | Gone => Some (l, Ok tt)
            | Tick => match attach_output env fuel (S t) n cursor with
                      | Some (l', r) => Some (l ++ l', r)
                      | None => None
                      end
            end in
          match at_exit env t with
          | Some x =>
              if bool_decide (Read (at_journal env (2 * t + 1)) cursor = []) then
                match at_send env n with
                | Some e => Some (l, Err e)
                | None => Some (l ++ [exit_of_app x], Ok tt)
                end
              else wait
          | None => wait
          end
      end
  end.

(** ** Retained output *)

(** The loop of [Daemon.retainedAttach]. *)
Fixpoint retained_loop (send : nat -> option error) (j : Journal) (fuel n : nat) (seq : Z)
  : option (list Frame * result nat) :=
  match fuel with
  | 0%nat => None
  | S fuel =>
      match Read j seq with
      | [] => Some ([], Ok n)
      | frames =>
          let '(l, seq, n, err) := send_frames send n frames seq in
          match err with
          | Some e => Some (l, Err e)
          | None => match retained_loop send j fuel n seq with
                    | Some (l', r) => Some (l ++ l', r)
                    | None => None
                    end
          end
      end
  end.

(** [Daemon.retainedAttach]: the stored sandbox or the saved result, and the
    journal at a path. *)
Definition retainedAttach (root : string) (get : result Sandbox) (find : result (Exit * string)) (open : string -> Journal)
    (send : nat -> option error) (fuel : nat) : option (list Frame * result unit) :=
  match (match get with
         | Ok v => match sb_Exit v with
                   | None => Err (Errorf "container has no retained exit status")
                   | Some x => Ok (x, Path.JoinPath [Path.JoinPath [root; "sandboxes"; sb_ID v]; "application.log"])
                   end
         | Err _ => let* r := find in Ok (fst r, Path.JoinPath [root; "results"; snd r +:+ ".log"])
         end) with
  | Err e => Some ([], Err e)
  | Ok (x, path) =>
      match retained_loop send (open path) fuel 0 0 with
      | None => None
      | Some (l, Err e) => Some (l, Err e)
      | Some (l, Ok n) =>
          match x_Code x with
          | None => Some (l, Err (Errorf (x_Reason x)))
          | Some _ => match send n with
                      | Some e => Some (l, Err e)
                      | None => Some (l ++ [exit_of_app x], Ok tt)
                      end
          end
      end
  end.

(** ** The daemon's choice *)

(** [Daemon.Session]: who serves a session. *)
Inductive serving : Type := ServeLoad | ServeRetained | ServeGuest (v : Sandbox).

Definition Session_serving (action : string) (get : result Sandbox) : result serving :=
  if bool_decide (action = "image-load" \/ action = "base-load") then Ok ServeLoad
  else
    let retained := match get with Err _ => true | Ok v => bool_decide (sb_State v = "exited" \/ sb_State v = "failed") end in
    if bool_decide (action = "attach") && retained then Ok ServeRetained
    else
      let* v := get in
      guard bool_decide (sb_State v = "running") || bool_decide (sb_State v = "stopping") else Errorf "container not running" in
      guard bool_decide (action ∈ ["exec"; "attach"; "copy-in"; "copy-out"]) else Errorf "unsupported session" in
      Ok (ServeGuest v).

(** ** Uploads *)

(** The goroutine of [Daemon.load]: what the extractor reads. *)
Fixpoint load_frames (l : list (result Frame)) : result string :=
  match l with
  | [] => Err (Errorf "EOF")
  | Err e :: _ => Err e
  | Ok f :: l =>
      if bool_decide (fr_Type f = "eof") then Ok ""
      else if negb (bool_decide (fr_Type f = "data")) then Err (Errorf "invalid upload frame")
      else let* rest := load_frames l in Ok (fr_Data f +:+ rest)
  end.

(** The steps of [Daemon.load] after the transfer. *)
Record LoadEnv : Type := mkLoadEnv {
  ld_tmp : result string;
  ld_extract : string -> string -> result unit;      (* [filecopy.Extract] of an archive *)
  ld_image : string -> string -> result string;      (* [LoadLayoutImage] and [Images.Import] *)
  ld_base : string -> string -> result string }.     (* the signed document and [Bases.Import] *)

(** [Daemon.load]: the frame sent at the end. *)
Definition load (env : LoadEnv) (action ref : string) (frames : list (result Frame)) : result Frame :=
  guard negb (bool_decide (ref = "")) else Errorf "image reference required" in
  let* tmp := ld_tmp env in
  let* data := load_frames frames in
  let* _ := ld_extract env tmp data in
  let* digest := (if bool_decide (action = "image-load") then ld_image env ref tmp else ld_base env ref tmp) in
  Ok (mkFrame "exit" "" digest None 0 0 0 0).

(** ** What a batch covers *)

Lemma above_elem (c : Z) (fs : list Frame) (f : Frame) : above c fs -> f ∈ fs -> c < fr_Sequence f.
Proof.
  intros Ha Hf. revert c Ha. induction Hf as [f fs|f g fs Hf IH]; intros c [H1 H2]; [done|]. specialize (IH _ H2). lia.
Qed.

Lemma last_default (fs : list Frame) (c d : Z) :
  fs <> [] -> List.last (fr_Sequence <$> fs) c = List.last (fr_Sequence <$> fs) d.
Proof. destruct fs as [|f fs]; [done|]. intros _. by rewrite !last_cons_Z. Qed.

Lemma later_above (j : Journal) (c : Z) : wf j -> above c (later c (j_frames j)).
Proof.
  intros Hw. pose proof (wf_numbered j Hw) as Hn. rewrite (later_numbered _ _ _ Hn).
  set (n := j_seq j - Z.of_nat (length (j_frames j)) + 1) in *.
  destruct (decide (length (j_frames j) <= Z.to_nat (c + 1 - n))%nat) as [Hle|Hgt].
  - by rewrite drop_ge.
  - apply (numbered_above (n + Z.of_nat (Z.to_nat (c + 1 - n)))); [lia|]. apply numbered_drop; [done|lia].
Qed.

(** A read returns every retained frame up to where it moves the cursor. *)
Lemma Read_covers (j : Journal) (c : Z) (f : Frame) :
  wf j -> f ∈ j_frames j -> c < fr_Sequence f <= List.last (fr_Sequence <$> Read j c) c -> f ∈ Read j c.
Proof.
  intros Hw Hf Hc. pose proof (later_above j c Hw) as Ha.
  assert (f ∈ later c (j_frames j)) as Hl by (apply list_elem_of_filter; split; [lia|done]).
  destruct (read_batch_take c 0 (j_frames j)) as (k & Hb & Hk & Hpos).
  unfold Read in *. apply elem_of_app. right. rewrite last_app_Z in Hc.
  assert (read_batch c 0 (j_frames j) <> []) as Hne.
  { rewrite Hb. intros E. destruct (later c (j_frames j)); [by apply not_elem_of_nil in Hl|].
    destruct k; [|done]. specialize (Hpos ltac:(done)). lia. }
  rewrite (last_default _ _ c Hne) in Hc. rewrite Hb in *.
  rewrite <-(take_drop k (later c (j_frames j))) in Hl, Ha. apply elem_of_app in Hl as [Hl|Hl]; [done|].
  apply above_app in Ha as [_ Ha]. pose proof (above_elem _ _ _ Ha Hl). lia.
Qed.

(** An empty read means that every retained frame is below the cursor. *)
Lemma Read_empty (j : Journal) (c : Z) : Read j c = [] -> later c (j_frames j) = [].
Proof.
  unfold Read. intros H. apply app_eq_nil in H as [_ H].
  destruct (read_batch_take c 0 (j_frames j)) as (k & Hb & _ & Hpos). rewrite Hb in H.
  destruct (later c (j_frames j)) as [|f l]; [done|]. destruct k; [|done]. specialize (Hpos ltac:(done)). lia.
Qed.

Lemma Read_progress (j : Journal) (c : Z) :
  wf j -> Read j c <> [] -> 0 <= c -> c + 1 < two64 ->
  (length (later (List.last (fr_Sequence <$> Read j c) c) (j_frames j)) < length (later c (j_frames j)))%nat.
Proof.
  intros Hw Hne H0 Hmax. set (c' := List.last _ c).
  assert (later c (j_frames j) <> []) as Hl.
  { intros E. apply Hne. unfold Read. destruct (read_batch_take c 0 (j_frames j)) as (k & -> & _ & _). rewrite E, take_nil, app_nil_r.
    destruct (j_frames j) as [|f fs] eqn:Ej; [done|]. destruct (_ <? fr_Sequence f) eqn:El; [|done].
    rewrite uint64_id in El by lia. bool_prop.
    assert (f ∈ later c (f :: fs)) as Hf by (apply list_elem_of_filter; split; [lia|left]). rewrite E in Hf. by apply not_elem_of_nil in Hf. }
  destruct (read_batch_take c 0 (j_frames j)) as (k & Hb & Hk & Hpos). specialize (Hpos Hl).
  assert (c' = List.last (fr_Sequence <$> take k (later c (j_frames j))) c) as Hc'.
  { unfold c', Read. rewrite last_app_Z, Hb. apply last_default. destruct (later c (j_frames j)); [done|]. by destruct k; [lia|]. }
  destruct (later c (j_frames j)) as [|f l] eqn:E; [done|]. destruct k as [|k]; [lia|].
  assert (above c (f :: l)) as Ha by (rewrite <-E; by apply later_above).
  assert (fr_Sequence f <= c') as Hfc.
  { rewrite Hc'. cbn [take]. rewrite last_cons_Z. apply above_last. destruct Ha as [_ Ha].
    rewrite <-(take_drop k l) in Ha. by apply above_app in Ha as [Ha _]. }
  assert (later c' (j_frames j) = later c' (f :: l)) as ->.
  { rewrite <-E. unfold later. rewrite list_filter_filter. apply list_filter_iff. intros g. destruct Ha as [Ha _]. lia. }
  unfold later at 1. apply (length_filter_lt _ _ f); [left|lia].
Qed.

(** ** Attached clients: theorems *)

Lemma send_frames_calm (send : nat -> option error) (fs : list Frame) (n : nat) (c : Z) :
  let '(l, c', n', err) := send_frames send n fs c in
  l `prefix_of` fs /\ c' = List.last (fr_Sequence <$> l) c /\ (err = None -> l = fs) /\ ((forall k, send k = None) -> err = None).
Proof.
  revert n c. induction fs as [|f fs IH]; intros n c; cbn [send_frames]; [done|].
  destruct (send n) as [e|] eqn:E.
  { split_and!; [apply prefix_nil|done|done|]. intros H. by rewrite H in E. }
  specialize (IH (S n) (fr_Sequence f)). destruct (send_frames send (S n) fs (fr_Sequence f)) as [[[l c'] n'] err].
  destruct IH as (H1 & H2 & H3 & H4). split_and!; [by apply prefix_cons|by rewrite last_cons_Z|intros H; by rewrite H3|done].
Qed.

(** How a journal changes while it is read: frames are added at the end, the
    oldest ones may go. *)
Definition grows (j j' : Journal) : Prop :=
  j_seq j <= j_seq j' /\ forall f, f ∈ j_frames j' -> fr_Sequence f <= j_seq j -> f ∈ j_frames j.

Section Attach.
Context (env : AttachEnv).
Hypothesis Hwf : forall n, wf (at_journal env n) /\ j_seq (at_journal env n) + 1 < two64.
Hypothesis Hgrows : forall n, grows (at_journal env n) (at_journal env (S n)).

(** Everything retained up to the cursor has been sent. *)
Definition caught_up (j : Journal) (sent : list Frame) (c : Z) : Prop :=
  0 <= c <= j_seq j /\ above 0 sent /\ List.last (fr_Sequence <$> sent) 0 = c /\
  forall f, f ∈ j_frames j -> fr_Sequence f <= c -> f ∈ sent.

Lemma caught_up_grows (j j' : Journal) (sent : list Frame) (c : Z) : grows j j' -> caught_up j sent c -> caught_up j' sent c.
Proof.
  intros [Hs Hf] (H1 & H2 & H3 & H4). split_and!; [lia|lia|done|done|]. intros f Hin Hle. apply H4; [|done]. apply Hf; [done|lia].
Qed.

Lemma caught_up_prefix (j : Journal) (sent l : list Frame) (c : Z) :
  caught_up j sent c -> l `prefix_of` Read j c -> wf j -> c + 1 < two64 -> above 0 (sent ++ l).
Proof.
  intros (H1 & H2 & H3 & H4) [k Hk] Hw Hmax. apply above_app. split; [done|]. rewrite H3.
  pose proof (Read_above j c Hw ltac:(lia) Hmax) as Ha. rewrite Hk in Ha. by apply above_app in Ha as [Ha _].
Qed.

Lemma caught_up_read (j : Journal) (sent : list Frame) (c : Z) :
  caught_up j sent c -> wf j -> c + 1 < two64 -> caught_up j (sent ++ Read j c) (List.last (fr_Sequence <$> Read j c) c).
Proof.
  intros Hc Hw Hmax. pose proof Hc as (H1 & H2 & H3 & H4).
  pose proof (Read_above j c Hw ltac:(lia) Hmax) as Ha. pose proof (above_last _ _ Ha) as Hl.
  split_and!.
  - lia.
  - destruct (Read j c) as [|g gs] eqn:E; [cbn; lia|]. rewrite <-E.
    destruct (last_range (Read j c) c (j_seq j)) as [_ ?]; [by rewrite E|by apply Read_range|done].
  - by eapply caught_up_prefix.
  - rewrite last_app_Z. by rewrite H3.
  - intros f Hf Hle. apply elem_of_app. destruct (decide (fr_Sequence f <= c)) as [Hd|Hd]; [left; by apply H4|right].
    apply Read_covers; [done|done|lia].
Qed.

Lemma attach_output_spec (fuel t n : nat) (c : Z) (sent l : list Frame) (r : result unit) :
  caught_up (at_journal env (2 * t)) sent c -> attach_output env fuel t n c = Some (l, r) ->
  exists fs, above 0 (sent ++ fs) /\
    (l = fs \/
     exists x t', at_exit env t' = Some x /\ l = fs ++ [exit_of_app x] /\ r = Ok tt /\
       forall f, f ∈ j_frames (at_journal env (2 * t' + 1)) -> f ∈ sent ++ fs).
Proof.
  revert t n c sent l. induction fuel as [|fuel IH]; intros t n c sent l Hc H; [done|]. cbn [attach_output] in H.
  destruct (Hwf (2 * t)%nat) as [Hw Hmax]. assert (c + 1 < two64) as Hcm by (destruct Hc as (? & _); lia).
  pose proof (send_frames_calm (at_send env) (Read (at_journal env (2 * t)) c) n c) as HS.
  destruct (send_frames _ n _ c) as [[[l1 c1] n1] err]. destruct HS as (S1 & S2 & S3 & _).
  destruct err as [e|].
  { injection H as <- <-. exists l1. split; [by eapply caught_up_prefix|]. by left. }
  specialize (S3 eq_refl). subst l1.
  assert (caught_up (at_journal env (2 * t)) (sent ++ Read (at_journal env (2 * t)) c) c1) as Hc1.
  { rewrite S2. by apply caught_up_read. }
  assert (above 0 (sent ++ Read (at_journal env (2 * t)) c)) as Ha1 by apply Hc1.
  assert (caught_up (at_journal env (2 * t + 1)) (sent ++ Read (at_journal env (2 * t)) c) c1) as Hc2.
  { eapply caught_up_grows; [|exact Hc1]. replace (2 * t + 1)%nat with (S (2 * t)) by lia. apply Hgrows. }
  assert (caught_up (at_journal env (2 * S t)) (sent ++ Read (at_journal env (2 * t)) c) c1) as Hc3.
  { eapply caught_up_grows; [|exact Hc2]. replace (2 * S t)%nat with (S (2 * t + 1)) by lia. apply Hgrows. }
  set (batch := Read (at_journal env (2 * t)) c) in *.
  set (wait := match at_wake env t with Canceled => _ | Gone => _ | Tick => _ end) in H.
  assert (wait = Some (l, r) -> exists fs, above 0 (sent ++ fs) /\
    (l = fs \/
     exists x t', at_exit env t' = Some x /\ l = fs ++ [exit_of_app x] /\ r = Ok tt /\
       forall f, f ∈ j_frames (at_journal env (2 * t' + 1)) -> f ∈ sent ++ fs)) as Hwait.
  { unfold wait. intros HW. destruct (at_wake env t).
    - injection HW as <- <-. exists batch. split; [done|]. by left.
    - injection HW as <- <-. exists batch. split; [done|]. by left.
    - destruct (attach_output env fuel (S t) n1 c1) as [[l' r']|] eqn:E; [|done]. injection HW as <- <-.
      destruct (IH (S t) n1 c1 _ l' Hc3 E) as (fs & Hfs & Hcase). exists (batch ++ fs). rewrite app_assoc. split; [done|].
      destruct Hcase as [->|(x & t' & Hx & -> & Hr & Hall)].
      + by left.
      + right. exists x, t'. by rewrite app_assoc. }
  destruct (at_exit env t) as [x|] eqn:Ex; [|by apply Hwait]. case_bool_decide as He; [|by apply Hwait].
  destruct (at_send env n1) as [e|].
  { injection H as <- <-. exists batch. split; [done|]. by left. }
  injection H as <- <-. exists batch. split; [done|]. right. exists x, t. split_and!; [done..|].
  intros f Hf. apply Hc2; [done|]. apply Read_empty in He.
  destruct (decide (fr_Sequence f <= c1)) as [?|Hgt]; [done|]. exfalso.
  assert (f ∈ later c1 (j_frames (at_journal env (2 * t + 1)))) as Hin by (apply list_elem_of_filter; split; [lia|done]).
  rewrite He in Hin. by apply not_elem_of_nil in Hin.
Qed.

(** Once the application has exited and its output is complete, the stream ends
    within one round per retained frame. *)
Lemma attach_output_returns (j : Journal) (x : Exit) (fuel t n : nat) (c : Z) :
  (forall k, (2 * t <= k)%nat -> at_journal env k = j) -> (forall k, (t <= k)%nat -> at_exit env k = Some x) ->
  (forall k, at_wake env k = Tick) -> (forall k, at_send env k = None) ->
  0 <= c <= j_seq j -> (length (later c (j_frames j)) < fuel)%nat ->
  exists l, attach_output env fuel t n c = Some (l, Ok tt) /\ last l = Some (exit_of_app x).
Proof.
  intros HJ Hx Hwk Hs. revert t n c HJ Hx. induction fuel as [|fuel IH]; intros t n c HJ Hx Hc Hf; [lia|].
  destruct (Hwf (2 * t)%nat) as [Hw Hmax]. cbn [attach_output].
  rewrite (HJ (2 * t)%nat) in * by lia. rewrite (HJ (2 * t + 1)%nat), (Hx t), (Hwk t) by lia.
  pose proof (send_frames_calm (at_send env) (Read j c) n c) as HS.
  destruct (send_frames _ n _ c) as [[[l1 c1] n1] err]. destruct HS as (S1 & S2 & S3 & S4).
  rewrite (S4 Hs). specialize (S3 (S4 Hs)). subst l1. cbv zeta. rewrite (Hs n1).
  case_bool_decide as He; [eexists; split; [done|apply last_snoc]|].
  assert (Read j c <> []) as Hne.
  { intros E. apply He. rewrite S2, E. exact E. }
  pose proof (Read_progress j c Hw Hne ltac:(lia) ltac:(lia)) as Hp. rewrite <-S2 in Hp.
  destruct (last_range (Read j c) c (j_seq j) Hne (Read_range j c Hw)) as [L1 L2]. rewrite <-S2 in L1, L2.
  destruct (IH (S t) n1 c1) as (l & -> & Hl); [intros k Hk; apply HJ; lia|intros k Hk; apply Hx; lia|done|lia|].
  eexists. split; [done|]. by rewrite last_app, Hl.
Qed.
End Attach.

(** C22. An attached client misses nothing.  While the application writes and the
    journal drops its oldest frames, whatever the other side does, the frames
    sent are in order and none is sent twice; when the exit frame is sent, every
    frame that is retained at that moment was sent before it; and when the
    application has exited and its output is complete, the exit frame is sent
    after at most one more round per retained frame. *)
Theorem attach_complete (env : AttachEnv) (fuel : nat) (l : list Frame) (r : result unit) :
  (forall n, wf (at_journal env n) /\ j_seq (at_journal env n) + 1 < two64) ->
  (forall n, grows (at_journal env n) (at_journal env (S n))) ->
  attach_output env fuel 0 0 0 = Some (l, r) ->
  (exists fs, above 0 fs /\
    (l = fs \/ exists x t, at_exit env t = Some x /\ l = fs ++ [exit_of_app x] /\ r = Ok tt /\
       forall f, f ∈ j_frames (at_journal env (2 * t + 1)) -> f ∈ fs)) /\
  (forall j x t n c fuel', (forall k, (2 * t <= k)%nat -> at_journal env k = j) -> (forall k, (t <= k)%nat -> at_exit env k = Some x) ->
     (forall k, at_wake env k = Tick) -> (forall k, at_send env k = None) -> 0 <= c <= j_seq j ->
     (length (later c (j_frames j)) < fuel')%nat ->
     exists l', attach_output env fuel' t n c = Some (l', Ok tt) /\ last l' = Some (exit_of_app x)).
Proof.
  intros Hw Hg H. split.
  - destruct (attach_output_spec env Hw Hg fuel 0 0 0 [] l r) as (fs & Ha & Hc); [|done|by exists fs].
    split_and!; [lia|destruct (Hw (2 * 0)%nat) as [[] _]; lia|done|done|].
    intros f Hf Hle. exfalso. destruct (Hw (2 * 0)%nat) as [Hw0 _].
    pose proof (numbered_range _ _ (wf_numbered _ Hw0)) as HR. rewrite Forall_forall in HR. specialize (HR f Hf).
    pose proof (wf_first _ Hw0). lia.
  - intros j x t n c fuel'. by apply attach_output_returns.
Qed.

(** ** Input: theorems *)

Lemma attach_input_writes (terminal : bool) (ds : list string) (tail : list (result Frame)) :
  attach_input true terminal ((Ok <$> (data_frame "stdin" <$> ds)) ++ tail) = (EWrite <$> ds) ++ attach_input true terminal tail.
Proof.
  induction ds as [|d ds IH]; [done|].
  change (attach_input true terminal ((Ok <$> (data_frame "stdin" <$> d :: ds)) ++ tail)) with
    (EWrite d :: attach_input true terminal ((Ok <$> (data_frame "stdin" <$> ds)) ++ tail)).
  rewrite IH. done.
Qed.

(** What is typed at the client arrives at the application.  The input of an
    application with or without a terminal gets exactly the typed bytes in
    order, and is closed at the end of the input when it is a pipe; the detach
    sequence releases the client without closing the application's input.
    A command run with exec has no such release: its agent skips the frame. *)
Theorem input_delivered (tty : bool) (cs : list string) (last : string) (frames : list (result Frame)) :
  let sent := Ok <$> input_loop tty sends_ok 0 false (typed cs last) in
  (tty && Contains (concat_str (cs ++ [last])) detach_keys = false ->
   exists ds, attach_input true tty sent = (EWrite <$> ds) ++ (if tty then [] else [EClose]) /\
     concat_str ds = concat_str (cs ++ [last])) /\
  (tty && Contains (concat_str (cs ++ [last])) detach_keys = true ->
   exists ds cs1 c cs2 p, attach_input true tty sent = (EWrite <$> ds) ++ [EDetached] /\
     cs ++ [last] = cs1 ++ c :: cs2 /\ concat_str ds +:+ held p = concat_str cs1) /\
  exec_input true tty (Ok (frame_of "detach") :: frames) = exec_input true tty frames.
Proof.
  intros sent. destruct (session_input_cases tty cs last) as [H1 H2]. unfold sent. split_and!.
  - intros H. destruct (H1 H) as (ds & -> & _ & Hd). exists ds. split; [|done].
    rewrite fmap_app, attach_input_writes. destruct tty; done.
  - intros H. destruct (H2 H) as (cs1 & c & cs2 & ds & p & H3 & -> & _ & H4 & _). exists ds, cs1, c, cs2, p.
    split; [|done]. rewrite fmap_app, attach_input_writes. done.
  - done.
Qed.

(** ** The output of a command: theorems *)

(** Frames of output as writes. *)
Definition writes (fs : list Frame) : list (string * string) := (fun f => (fr_Type f, fr_Data f)) <$> fs.
Definition is_output (f : Frame) : Prop := exists k d, f = data_frame k d /\ (k = "stdout" \/ k = "stderr").

Lemma output_loop_frames (fs : list Frame) (t : nat) (rest : list (result Frame)) (s : screen) :
  Forall is_output fs ->
  exists t', output_loop no_fail t ((Ok <$> fs) ++ rest) s = output_loop no_fail t' rest (seq_screen s (printed (writes fs))).
Proof.
  intros H. revert t s. induction H as [|f fs (k & d & -> & Hk) Hfs IH]; intros t s.
  - exists t. destruct s. cbn. unfold seq_screen, printed. cbn. by rewrite !app_nil_r_str.
  - change ((Ok <$> data_frame k d :: fs) ++ rest) with ((Ok <$> (data_frame k <$> [d])) ++ ((Ok <$> fs) ++ rest)).
    rewrite output_loop_chunks by done. edestruct IH as [t' IH']. exists t'. rewrite IH'. f_equal.
    rewrite seq_screen_assoc. f_equal. change (writes (data_frame k d :: fs)) with ((k, d) :: writes fs).
    rewrite (printed_cons k d). f_equal. cbn. by rewrite app_nil_r_str.
Qed.

Lemma printed_app (l l' : list (string * string)) : printed (l ++ l') = seq_screen (printed l) (printed l').
Proof.
  unfold printed, seq_screen. cbn. by rewrite !filter_app, !fmap_app, !concat_str_app.
Qed.

Definition writes_output (evs : list (string * string)) : Prop := Forall (fun e => fst e = "stdout" \/ fst e = "stderr") evs.

Lemma outputs_are (evs : list (string * string)) : writes_output evs -> Forall is_output (outputs evs).
Proof.
  induction 1 as [|[k b] evs Hk Hevs IH]; [constructor|]. change (outputs ((k, b) :: evs)) with (writer_frames k b ++ outputs evs).
  apply Forall_app. split; [|done]. apply Forall_fmap, Forall_forall. intros d _. by exists k, d.
Qed.

Lemma seq_screen_nil (s : screen) : seq_screen (mkScreen "" "") s = s.
Proof. destruct s as [o x]. unfold seq_screen. cbn. by rewrite !app_nil_l_str. Qed.

(** The frames of the output carry exactly what was written. *)
Lemma printed_outputs (evs : list (string * string)) : writes_output evs -> printed (writes (outputs evs)) = printed evs.
Proof.
  intros H. destruct (output_loop_frames (outputs evs) 0 [] (mkScreen "" "") (outputs_are evs H)) as [t1 H1].
  destruct (output_loop_events evs 0 [] (mkScreen "" "") H) as [t2 H2]. unfold outputs in H1 at 1. rewrite H2 in H1.
  cbn [output_loop] in H1. rewrite !seq_screen_nil in H1. congruence.
Qed.

(** The bytes that wait, as they would be printed. *)
Definition waits (b : pipes) : screen := mkScreen (p_out b) (p_err b).

Lemma printed_stream (k : stream) (d : string) :
  printed [(stream_name k, d)] = match k with Stdout => mkScreen d "" | Stderr => mkScreen "" d end.
Proof. destruct k; [apply printed_out|apply printed_err]. Qed.

(** Copying neither adds, drops, changes nor reorders bytes of a stream. *)
Lemma copy_output_printed (tty : bool) (evs : list output_event) (b : pipes) :
  let '(l, b') := copy_output tty evs b in
  seq_screen (waits b) (printed (written tty evs)) = seq_screen (printed l) (waits b').
Proof.
  revert b. induction evs as [|[k d|k n] evs IH]; intros b; cbn [copy_output].
  - destruct b. cbn. unfold seq_screen, printed. cbn. by rewrite !app_nil_r_str.
  - specialize (IH (set_waiting (via tty k) (waiting (via tty k) b +:+ d) b)). destruct (copy_output tty evs _) as [l b'].
    rewrite <-IH. change (written tty (OutWrite k d :: evs)) with ((stream_name (via tty k), d) :: written tty evs).
    rewrite (printed_cons _ d), printed_stream. unfold seq_screen, waits. destruct (via tty k), b; cbn;
      by rewrite ?app_assoc_str, ?app_nil_l_str.
  - specialize (IH (set_waiting (via tty k) (drop_str n (waiting (via tty k) b)) b)). destruct (copy_output tty evs _) as [l b'].
    change (written tty (OutCopy k n :: evs)) with (written tty evs).
    rewrite (printed_cons _ (take_str n _)), seq_screen_assoc, <-IH, printed_stream, <-seq_screen_assoc. f_equal.
    unfold seq_screen, waits. destruct (via tty k), b; cbn; by rewrite take_drop_str, app_nil_l_str.
Qed.

Lemma exec_chunks_streams (tty : bool) (evs : list output_event) : writes_output (exec_chunks tty evs).
Proof.
  assert (forall b, writes_output (copy_output tty evs b).1) as H.
  { induction evs as [|[k d|k n] evs IH]; intros b; cbn [copy_output]; [constructor|apply IH|].
    specialize (IH (set_waiting (via tty k) (drop_str n (waiting (via tty k) b)) b)). destruct (copy_output tty evs _) as [l b'].
    constructor; [|done]. destruct (via tty k); [by left|by right]. }
  specialize (H (mkPipes "" "")). unfold exec_chunks. destruct (copy_output tty evs _) as [l b].
  apply Forall_app. split; [done|]. destruct tty; [constructor|]. constructor; [by left|]. constructor; [by right|constructor].
Qed.

(** What is sent is an initial part of what was written, and without a terminal
    all of it. *)
Lemma exec_chunks_printed (tty : bool) (evs : list output_event) :
  (exists lost, printed (written tty evs) = seq_screen (printed (exec_chunks tty evs)) lost) /\
  (tty = false -> printed (exec_chunks tty evs) = printed (written tty evs)).
Proof.
  pose proof (copy_output_printed tty evs (mkPipes "" "")) as H. unfold exec_chunks.
  destruct (copy_output tty evs (mkPipes "" "")) as [l b]. change (waits (mkPipes "" "")) with (mkScreen "" "") in H.
  rewrite seq_screen_nil in H. destruct tty.
  - rewrite app_nil_r. split; [by exists (waits b)|done].
  - rewrite printed_app.
    assert (printed [("stdout", p_out b); ("stderr", p_err b)] = waits b) as ->.
    { rewrite (printed_cons "stdout"), printed_out, printed_err. unfold seq_screen. cbn. by rewrite app_nil_r_str, app_nil_l_str. }
    rewrite <-H. split; [|done]. exists (mkScreen "" ""). unfold seq_screen. cbn. by rewrite !app_nil_r_str.
Qed.

(** A terminal that was not read to the end when the command ended. *)
Example terminal_output_lost :
  let evs := [OutWrite Stdout "first "; OutCopy Stdout 4096; OutWrite Stdout "last"] in
  printed (written true evs) = mkScreen "first last" "" /\
  exec_output true evs WaitOk = [data_frame "stdout" "first "; exit_frame (Some 0)] /\
  exec_output false evs WaitOk = [data_frame "stdout" "first "; data_frame "stdout" "last"; exit_frame (Some 0)].
Proof. vm_compute. done. Qed.

(** ** Retained output: theorems *)

Lemma retained_loop_read (j : Journal) (send : nat -> option error) (fuel n : nat) (c : Z) :
  (forall k, send k = None) -> read_done j c fuel = true ->
  exists n', retained_loop send j fuel n c = Some (read_all j c fuel, Ok n').
Proof.
  intros Hs. revert n c. induction fuel as [|fuel IH]; intros n c H; [done|]. cbn [read_done retained_loop read_all] in *.
  destruct (Read j c) as [|f b] eqn:E; [by exists n|].
  pose proof (send_frames_calm send (f :: b) n c) as HS.
  destruct (send_frames send n (f :: b) c) as [[[l c1] n1] err]. destruct HS as (_ & S2 & S3 & S4).
  rewrite (S4 Hs). specialize (S3 (S4 Hs)). subst l. rewrite S2.
  destruct (IH n1 _ H) as [n' ->]. by exists n'.
Qed.

Lemma recent_all (after : Z) (fs : list Frame) : Forall (fun f => after <= fr_Time f) fs -> recent after fs = fs.
Proof. unfold recent. induction 1 as [|f fs Hf Hfs IH]; [done|]. rewrite filter_cons_True by done. by rewrite IH. Qed.

(** The client prints a journal's frames as [logs] does. *)
Lemma output_loop_show (format : Z -> string) (fs : list Frame) (t : nat) (rest : list (result Frame)) (s : screen) :
  Forall (fun f => fr_Type f ∈ ["stdout"; "stderr"; "gap"]) fs ->
  exists t', output_loop no_fail t ((Ok <$> fs) ++ rest) s = output_loop no_fail t' rest (fold_left (show format false) fs s).
Proof.
  intros H. revert t s. induction H as [|f fs Hf Hfs IH]; intros t s; [by exists t|].
  assert (output_loop no_fail t ((Ok <$> f :: fs) ++ rest) s = output_loop no_fail (S t) ((Ok <$> fs) ++ rest) (show format false s f)) as E.
  { cbn [fmap list_fmap app output_loop]. unfold show, written, no_fail.
    apply elem_of_cons in Hf as [->|Hf]; [done|]. apply elem_of_cons in Hf as [->|Hf]; [done|].
    apply list_elem_of_singleton in Hf as ->. done. }
  cbn [fold_left]. destruct (IH (S t) (show format false s f)) as [t' IH']. exists t'. by rewrite E.
Qed.

(** Attaching to an exited sandbox, or to one that was removed automatically and
    whose result was saved, shows what [logs] shows and ends with the
    application's exit code: all of the retained output reaches the user, with a
    notice when older output was dropped. *)
Theorem retained_attach_prints (root : string) (get : result Sandbox) (find : result (Exit * string))
    (open : string -> Journal) (path : string) (j : Journal) (x : Exit) (code : Z) (fuel : nat)
    (inspect : nat -> result string) (cancelled : nat -> bool) (format : Z -> string) :
  (exists v, get = Ok v /\ sb_Exit v = Some x /\ path = Path.JoinPath [Path.JoinPath [root; "sandboxes"; sb_ID v]; "application.log"]) \/
  (exists e id, get = Err e /\ find = Ok (x, id) /\ path = Path.JoinPath [root; "results"; id +:+ ".log"]) ->
  open path = j -> wf j -> j_seq j + 1 < two64 -> x_Code x = Some code ->
  Forall (fun f => fr_Type f ∈ ["stdout"; "stderr"] /\ 0 <= fr_Time f) (j_frames j) -> (length (j_frames j) + 1 < fuel)%nat ->
  exists l o,
    retainedAttach root get find open (fun _ => None) fuel = Some (l, Ok tt) /\
    output_loop no_fail 0 (Ok <$> l) (mkScreen "" "") =
      (Some o, snd (logs (fun _ c => Ok (Read j c)) inspect cancelled format 0 false false fuel (-1))) /\
    exit_status o = code.
Proof.
  intros Hsrc Hopen Hw Hmax Hx Hk Hf.
  destruct (journal_paged j fuel Hw Hmax Hf) as [Hd HR].
  destruct (retained_loop_read j (fun _ => None) fuel 0 0) as [n' Hr]; [done|done|].
  exists (gap j 0 ++ j_frames j ++ [exit_of_app x]), (if bool_decide (code = 0) then None else Some (ExitError code)).
  split_and!.
  - unfold retainedAttach. assert (match get with
      | Ok v => match sb_Exit v with None => Err (Errorf "container has no retained exit status")
                | Some x => Ok (x, Path.JoinPath [Path.JoinPath [root; "sandboxes"; sb_ID v]; "application.log"]) end
      | Err _ => let* r := find in Ok (fst r, Path.JoinPath [root; "results"; snd r +:+ ".log"]) end = Ok (x, path)) as ->.
    { destruct Hsrc as [(v & -> & -> & ->)|(e & id & -> & -> & ->)]; done. }
    rewrite Hopen, Hr, Hx, HR. by rewrite app_assoc.
  - unfold logs. rewrite logs_loop_read by done. rewrite HR. cbn [snd app].
    assert (recent 0 (gap j 0 ++ j_frames j) = gap j 0 ++ j_frames j) as ->.
    { apply recent_all, Forall_forall. intros f [Hg|Hg]%elem_of_app.
      - unfold gap in Hg. destruct (j_frames j) as [|g gs]; [by apply not_elem_of_nil in Hg|]. destruct (_ <? _); [|by apply not_elem_of_nil in Hg].
        apply list_elem_of_singleton in Hg as ->. done.
      - rewrite Forall_forall in Hk. by apply Hk. }
    unfold tail_frames. cbn [Z.leb andb]. rewrite app_assoc, fmap_app.
    destruct (output_loop_show format (gap j 0 ++ j_frames j) 0 (Ok <$> [exit_of_app x]) (mkScreen "" "")) as [t' ->].
    + apply Forall_app. split.
      * unfold gap. destruct (j_frames j); [constructor|]. destruct (_ <? _); repeat constructor; set_solver.
      * eapply Forall_impl; [exact Hk|]. cbn. set_solver.
    + cbn [fmap list_fmap output_loop]. unfold exit_of_app. cbn [fr_Type].
      repeat (rewrite bool_decide_eq_false_2 by done). rewrite bool_decide_eq_true_2 by done.
      unfold codeFromFrame. cbn [fr_Code]. rewrite Hx. done.
  - case_bool_decide as H0; cbn; by rewrite ?H0.
Qed.

(** ** Uploads and the choice of a server: theorems *)

Lemma load_frames_copy (l : list (result Frame)) (b : string) : load_frames l = Ok b <-> copy_frames l = Ok b.
Proof.
  revert b. induction l as [|[f|e] l IH]; intros b; cbn [load_frames copy_frames]; try done.
  case_bool_decide; [done|]. destruct (negb _); [done|].
  destruct (load_frames l) as [r|e] eqn:E1, (copy_frames l) as [r'|e'] eqn:E2; cbn [result_bind]; try done.
  - assert (copy_frames l = Ok r) as E by (rewrite E2; by apply IH). rewrite E in E2. by injection E2 as ->.
  - assert (Err e' = Ok r) as E by (by apply IH). done.
  - assert (Err e = Ok r') as E by (by apply IH). done.
Qed.

(** An image or a base is imported only from a complete upload: whatever fails at
    the client and wherever the connection is lost, a digest is answered only if
    the daemon extracted exactly the bytes of the file up to its end. *)
Theorem load_exact (env : LoadEnv) (action ref : string) (send : nat -> option error) (reads : list (string * CliSession.read_end))
    (fs received : list Frame) (r : option (result unit)) (lost : error) (f : Frame) :
  upload_sender send 0 reads = (fs, r) -> received `prefix_of` fs ->
  load env action ref ((Ok <$> received) ++ [Err lost]) = Ok f ->
  ref <> "" /\ exists tmp pre buf post digest, ld_tmp env = Ok tmp /\ reads = pre ++ (buf, CliSession.EOF) :: post /\
    ld_extract env tmp (concat_str (fst <$> (pre ++ [(buf, CliSession.EOF)]))) = Ok tt /\
    (if bool_decide (action = "image-load") then ld_image env ref tmp else ld_base env ref tmp) = Ok digest /\
    f = mkFrame "exit" "" digest None 0 0 0 0.
Proof.
  intros Hs Hp H. unfold load in H. case_bool_decide as Hr; [done|]. cbn [negb] in H.
  destruct (ld_tmp env) as [tmp|]; [|done]. cbn [result_bind] in H.
  destruct (load_frames _) as [data|] eqn:El; [|done]. cbn [result_bind] in H. apply load_frames_copy in El.
  destruct (ld_extract env tmp data) as [[]|] eqn:Ee; [|done]. cbn [result_bind] in H.
  destruct (if bool_decide (action = "image-load") then _ else _) as [digest|] eqn:Ed; [|done]. injection H as <-.
  apply upload_sender_frames in Hs as (ds & Hs).
  destruct (accepted_all ds fs received lost data) as (H1 & -> & ->); [naive_solver|done|done|].
  split; [done|]. destruct Hs as [[-> _]|(pre & buf & post & _ & H2 & _ & H3)].
  - apply (f_equal length) in H1. unfold framed in H1. rewrite length_app in H1. cbn in H1. lia.
  - exists tmp, pre, buf, post, digest. rewrite <-H3. done.
Qed.

(** The guest serves only sessions of sandboxes that run, and only the four kinds
    of sessions it knows; attaching works in every other state that has ended. *)
Lemma Session_serving_correct (action : string) (get : result Sandbox) (v : Sandbox) :
  (Session_serving action get = Ok (ServeGuest v) ->
   get = Ok v /\ (sb_State v = "running" \/ sb_State v = "stopping") /\ action ∈ ["exec"; "attach"; "copy-in"; "copy-out"]) /\
  (get = Ok v -> sb_State v = "exited" \/ sb_State v = "failed" -> Session_serving "attach" get = Ok ServeRetained).
Proof.
  split.
  - unfold Session_serving. case_bool_decide; [done|]. cbv zeta. destruct (_ && _); [done|].
    destruct get as [w|]; [|done]. cbn [result_bind]. 
    destruct (bool_decide (sb_State w = "running") || bool_decide (sb_State w = "stopping")) eqn:E; [|done].
    destruct (bool_decide (action ∈ _)) eqn:Ha; [|done]. apply bool_decide_eq_true in Ha. intros [= ->]. split_and!; [done| |done].
    apply orb_true_iff in E as [E|E]; apply bool_decide_eq_true in E; auto.
  - intros -> Hv. unfold Session_serving. rewrite bool_decide_eq_false_2 by naive_solver. cbv zeta.
    rewrite (bool_decide_eq_true_2 ("attach" = "attach")), (bool_decide_eq_true_2 (_ \/ _)) by done. done.
Qed.

Module SessionSample.
Definition exit : Exit := mkExit (Some 3) "application exited" false 0.
Definition env : AttachEnv := mkAttachEnv (fun _ => LogsSample.journal) (fun _ => Some exit) (fun _ => None) (fun _ => Tick).
Definition sandbox : Sandbox :=
  mkSandbox "a1" "web" DefaultSpec empty_process "" "" "exited" "" [] 1 0 0 (Some exit) 0 "" 0 1 true.
Definition open (_ : string) : Journal := LogsSample.journal.
Definition load_env : LoadEnv := mkLoadEnv (Ok "/t") (fun _ _ => Ok tt) (fun _ _ => Ok "sha256:0") (fun _ _ => Ok "sha256:1").
End SessionSample.

Lemma attach_complete_witness :
  exists l, attach_output SessionSample.env 5 0 0 0 = Some (l, Ok tt) /\ last l = Some (exit_of_app SessionSample.exit) /\ length l = 4%nat.
Proof.
  destruct (attach_output SessionSample.env 5 0 0 0) as [[l r]|] eqn:E; [|vm_compute in E; discriminate E].
  destruct (attach_complete SessionSample.env 5 l r) as [_ H]; [| |exact E|].
  - intros n. split; [exact LogsSample.journal_wf|reflexivity].
  - intros n. split; [reflexivity|]. intros f Hf _. exact Hf.
  - destruct (H LogsSample.journal SessionSample.exit 0%nat 0%nat 0 5%nat) as (l' & H1 & H2);
      [intros; reflexivity|intros; reflexivity|intros; reflexivity|intros; reflexivity|split; discriminate|apply Nat.ltb_lt; reflexivity|].
    rewrite E in H1. injection H1 as -> ->. exists l'. split; [reflexivity|]. split; [exact H2|].
    pose proof (f_equal (fun o => match o with Some (l, _) => length l | None => 0%nat end) E) as El. vm_compute in El. symmetry. exact El.
Defined.

Lemma retained_attach_prints_witness :
  exists l o, retainedAttach "/r" (Ok SessionSample.sandbox) (Err ErrNotFound) SessionSample.open (fun _ => None) 5 = Some (l, Ok tt) /\
    output_loop no_fail 0 (Ok <$> l) (mkScreen "" "") =
      (Some o, mkScreen "b" ("older application logs were rotated" +:+ CliSession.newline +:+ "c")) /\ exit_status o = 3.
Proof.
  apply (retained_attach_prints "/r" (Ok SessionSample.sandbox) (Err ErrNotFound) SessionSample.open
    "/r/sandboxes/a1/application.log" LogsSample.journal SessionSample.exit 3 5 LogsSample.state LogsSample.going LogsSample.stamp).
  - left. exists SessionSample.sandbox. split; [reflexivity|]. split; reflexivity.
  - reflexivity.
  - exact LogsSample.journal_wf.
  - reflexivity.
  - reflexivity.
  - apply (bool_decide_unpack _). vm_compute. exact I.
  - cbn. lia.
Defined.

Lemma load_exact_witness :
  exists f, load SessionSample.load_env "image-load" "r" ((Ok <$> [data_frame "data" "x"; frame_of "eof"]) ++ [Err ErrNotFound]) = Ok f /\
    ("r" <> "")%string.
Proof.
  destruct (load SessionSample.load_env "image-load" "r" ((Ok <$> [data_frame "data" "x"; frame_of "eof"]) ++ [Err ErrNotFound])) as [f|] eqn:E;
    [|vm_compute in E; discriminate E].
  destruct (load_exact SessionSample.load_env "image-load" "r" (fun _ => None) [("x", CliSession.EOF)]
    [data_frame "data" "x"; frame_of "eof"] [data_frame "data" "x"; frame_of "eof"] (Some (Ok tt)) ErrNotFound f) as [H _].
  - reflexivity.
  - reflexivity.
  - exact E.
  - exists f. split; [reflexivity|exact H].
Defined.
