(* ===== verification/AgentExec.v ===== *)
(** * AgentExec: commands in a running container (internal/guest/agent.go, Session and exec)

    The whole handler of an exec session: admission, the process handed to the
    runtime in a file, the start with a terminal or with pipes, the output and the
    exit code.  What it does outside is a list of actions. *)

From S2P Require Import Prelude GoLib Api RuntimeSpec Agent CliSession Journal CliLogs Sessions.
Import Strings Path.
Local Open Scope Z_scope.
Local Open Scope go_scope.

(** [Agent.Session]: which handler serves a session. *)
Inductive handler : Type := HAttach | HExec | HCopy.
Definition session_handler (action : string) : result handler :=
  if bool_decide (action = "attach") then Ok HAttach
  else if bool_decide (action = "exec") then Ok HExec
  else if bool_decide (action = "copy-in" \/ action = "copy-out") then Ok HCopy
  else Err (Errorf "unsupported guest session").

Inductive exec_action : Type :=
| XProcess (file : string) (p : RtProcess)         (* the file for the runtime *)
| XRun (tty : bool) (args : list string)           (* the runtime is started *)
| XRemove (file : string).

Record ExecEnv : Type := mkExecEnv {
  xe_open : string -> result string;               (* files of the container, for [User] *)
  xe_id : string;                                  (* [api.ID] *)
  xe_json : result unit;
  xe_pty : result unit;
  xe_pipe : result unit;
  xe_start : result unit;
  xe_output : list output_event;                   (* its writes, and what is copied of them meanwhile *)
  xe_wait : waited;
  xe_send : result unit }.                         (* sending the exit frame *)

Definition runtime : string := "/usr/bin/runc".
Definition exec_args (file : string) : list string :=
  [runtime; "--root"; "/run/niflhel/runc"; "exec"; "--process"; file; "app"].
Definition proc_file (id : string) : string := JoinPath ["/run/niflhel"; "exec-" +:+ id +:+ ".json"].

(** From the process file on; on success the frames are those of [exec_output]. *)
Definition exec_run (env : ExecEnv) (x : Exec) (p : RtProcess) : list exec_action * result unit :=
  let file := proc_file (xe_id env) in
  let run := perform (XRun (rp_Terminal p) (exec_args file)) in
  perform (XProcess file p) (xe_json env) (fun _ =>
  if rp_Terminal p then run (xe_pty env) (fun _ => ([], xe_send env))
  else need (if ex_Interactive x then xe_pipe env else Ok tt) (fun _ => run (xe_start env) (fun _ => ([], xe_send env)))).

(** [Agent.exec]: the agent afterwards, the actions, and the frames sent. *)
Definition exec (env : ExecEnv) (s : Sandbox) (root : string) (q : option Exec) (a : Agent)
  : Agent * list exec_action * result (list Frame) :=
  match admit_exec q a with
  | (Err e, a) => (a, [], Err e)
  | (Ok x, a) =>
      match exec_process (xe_open env) s root x with
      | Err e => (a, [], Err e)
      | Ok p =>
          let '(l, r) := exec_run env x p in
          (a, l ++ [XRemove (proc_file (xe_id env))],
           let* _ := r in Ok (exec_output (rp_Terminal p) (xe_output env) (xe_wait env)))
      end
  end.

Lemma admit_exec_ok (q : option Exec) (a a' : Agent) (x : Exec) :
  admit_exec q a = (Ok x, a') ->
  q = Some x /\ ex_Args x <> [] /\ ex_ID x <> "" /\ a_state a = "running" /\ a_state a' = "running" /\
  ex_ID x ∉ a_execs a /\ ex_ID x ∈ a_execs a'.
Proof.
  unfold admit_exec. destruct q as [y|]; [|done]. destruct (_ || _) eqn:E; [done|]. bool_prop.
  case_bool_decide; cbn [negb]; [|done]. case_bool_decide; [done|]. intros [= <- <-]. cbn. split_and!; try done. set_solver.
Qed.

(** The stages of a start. *)
Lemma exec_run_cases (env : ExecEnv) (x : Exec) (p : RtProcess) :
  let file := proc_file (xe_id env) in
  let '(l, r) := exec_run env x p in
  (l = [XProcess file p] \/ l = [XProcess file p; XRun (rp_Terminal p) (exec_args file)]) /\
  (r = Ok tt -> l = [XProcess file p; XRun (rp_Terminal p) (exec_args file)] /\ xe_send env = Ok tt).
Proof.
  cbv zeta. unfold exec_run, perform, need. cbv zeta. destruct (xe_json env) as [[]|]; [|split; [by left|done]].
  destruct (rp_Terminal p) eqn:Et.
  - destruct (xe_pty env) as [[]|]; (split; [by right|]); done.
  - destruct (if ex_Interactive x then xe_pipe env else Ok tt) as [[]|]; [|split; [by left|done]].
    destruct (xe_start env) as [[]|]; (split; [by right|]); done.
Qed.

(** C21. A command is run once, as the container's configuration allows, and leaves no
    file.  The runtime is started only for a command with arguments and a new
    identifier while the container runs, with exactly the process derived from
    the sandbox; the identifier is spent, also when the start fails, so sending
    the request again runs nothing; the file with the process is removed in every
    case.  On success the frames are output and then the exit code of the command.
    Without a terminal the output is all that the command wrote to each of its two
    streams, however reading and writing interleaved; with a terminal, one stream,
    it is an initial part of it, since the terminal is closed when the command ends
    and what was not read by then is lost ([terminal_output_lost]). *)
Theorem exec_correct (env : ExecEnv) (s : Sandbox) (root : string) (q : option Exec) (a : Agent) :
  let '(a', l, r) := exec env s root q a in
  (l <> [] -> exists x p, q = Some x /\ ex_Args x <> [] /\ ex_ID x ∉ a_execs a /\ a_state a = "running" /\
     exec_process (xe_open env) s root x = Ok p /\ last l = Some (XRemove (proc_file (xe_id env))) /\
     (forall tty args, XRun tty args ∈ l -> tty = rp_Terminal p /\ args = exec_args (proc_file (xe_id env)) /\
        hd_error l = Some (XProcess (proc_file (xe_id env)) p)) /\
     (forall env', exec env' s root q a' = (a', [], Err (Errorf "exec ID already submitted; command will not be replayed")))) /\
  (forall fs, r = Ok fs -> exists x p out, q = Some x /\ exec_process (xe_open env) s root x = Ok p /\
     XRun (rp_Terminal p) (exec_args (proc_file (xe_id env))) ∈ l /\
     fs = out ++ [exit_frame (Some (exec_code (xe_wait env)))] /\ Forall is_output out /\
     (exists lost, printed (written (rp_Terminal p) (xe_output env)) = seq_screen (printed (writes out)) lost) /\
     (rp_Terminal p = false -> printed (writes out) = printed (written false (xe_output env)))).
Proof.
  unfold exec at 1. destruct (admit_exec q a) as [[x|e] a'] eqn:Ea; [|done].
  destruct (admit_exec_ok q a a' x Ea) as (Hq & Hargs & Hid & Hrun & Hrun' & Hnew & Hspent).
  destruct (exec_process (xe_open env) s root x) as [p|e] eqn:Ep; [|done].
  pose proof (exec_run_cases env x p) as Hc. destruct (exec_run env x p) as [l r]. destruct Hc as [Hl Hr]. split.
  - intros _. exists x, p. split_and!; try done; [by rewrite last_snoc| |].
    + intros tty args Hin. destruct Hl as [->| ->]; cbn in Hin |- *;
        repeat (apply elem_of_cons in Hin as [Hin|Hin]; [try discriminate Hin; by injection Hin as -> ->|]);
        by apply elem_of_nil in Hin.
    + intros env'. unfold exec, admit_exec. rewrite Hq, !bool_decide_eq_false_2 by done. cbn [orb].
      rewrite bool_decide_eq_true_2 by done. cbn [negb]. by rewrite bool_decide_eq_true_2.
  - intros fs Hfs. destruct r as [[]|]; [|done]. cbn in Hfs. injection Hfs as <-.
    pose proof (exec_chunks_streams (rp_Terminal p) (xe_output env)) as Hst.
    destruct (exec_chunks_printed (rp_Terminal p) (xe_output env)) as [Hpart Hall].
    exists x, p, (outputs (exec_chunks (rp_Terminal p) (xe_output env))). rewrite printed_outputs by done.
    split_and!; try done; [|by apply outputs_are|by intros Ht; rewrite Ht in *; apply Hall].
    destruct (Hr eq_refl) as [-> _]. apply elem_of_app. left. apply list_elem_of_further, list_elem_of_here.
Qed.
