(* ===== verification/EndToEnd.v ===== *)
(** * EndToEnd: a command from the guest to the user's shell

    The composition of the agent ([Sessions.exec_output]), two framed connections
    ([Wire.Send], [Wire.Recv]), the relay of the daemon between them
    ([Wire.relay_step]) and the client ([CliSession.output_loop]).  Each connection
    may be lost after any number of bytes, and the relay may stop in any state.
    The output of the command and the copying of it by the agent are the events of
    [Sessions.copy_output]. *)

From S2P Require Import Prelude GoLib Api RuntimeSpec Agent Wire CliSession Journal CliLogs Sessions.
Import Strings.
Local Open Scope Z_scope.

(** What a connection delivers of the frames sent into it when it is lost after
    [k] bytes. *)
Definition hop (encode : Frame -> result string) (decode : string -> result Frame) (n : nat)
    (write : nat -> nat * option error) (k : nat) (fs : list Frame) : list Frame * error :=
  recv_all decode n (S (length fs)) (take_str k (fst (send_all encode write 0 fs))).

(** *** The relay *)

Lemma relay_ok_rtc (ina inb : list Frame) (r r' : relay) : rtc relay_step r r' -> relay_ok ina inb r -> relay_ok ina inb r'.
Proof. induction 1 as [|x y z Hxy _ IH]; [done|]. intros H. by apply IH, (relay_ok_step ina inb x y). Qed.

Lemma relay_forwards (a b : End) (r : relay) :
  en_out a = [] -> en_out b = [] -> rtc relay_step (relay_start a b) r ->
  forwards (en_in b) (en_in (rl_b r)) (en_out (rl_a r)) (rl_ba r).
Proof. intros Ha Hb Hr. apply (relay_ok_rtc _ _ _ _ Hr (relay_ok_start a b Ha Hb)). Qed.

(** *** The client *)

(** What the client makes of an initial part of the frames of a command. *)
Lemma client_cut (evs : list (string * string)) (w : waited) (j : nat) (e : error) :
  writes_output evs ->
  exists o s, output_loop no_fail 0 ((Ok <$> take j (outputs evs ++ [exit_frame (Some (exec_code w))])) ++ [Err e])
      (mkScreen "" "") = (Some o, s) /\
    ((length (outputs evs) < j)%nat /\ exit_status o = exec_code w /\ s = printed evs \/
     (j <= length (outputs evs))%nat /\ exit_status o = 125 /\ exists rest, printed evs = seq_screen s rest).
Proof.
  intros H. pose proof (outputs_are evs H) as Ho.
  destruct (decide (j <= length (outputs evs))%nat) as [Hj|Hj].
  - rewrite take_app_le by done.
    destruct (output_loop_frames (take j (outputs evs)) 0 [Err e] (mkScreen "" "")) as [t' ->]; [by apply Forall_take|].
    rewrite seq_screen_nil. do 2 eexists. split; [done|]. right. split; [done|]. split; [done|]. exists (printed (writes (drop j (outputs evs)))).
    rewrite <- printed_app. unfold writes. rewrite <- fmap_app, take_drop. symmetry. by apply printed_outputs.
  - rewrite take_ge by (rewrite length_app; cbn; lia). rewrite fmap_app, <- app_assoc.
    destruct (output_loop_frames (outputs evs) 0 ((Ok <$> [exit_frame (Some (exec_code w))]) ++ [Err e]) (mkScreen "" "") Ho) as [t' ->].
    rewrite seq_screen_nil, printed_outputs by done.
    exists (if bool_decide (exec_code w = 0) then None else Some (ExitError (exec_code w))), (printed evs).
    split; [done|]. left. split; [lia|]. split; [|done]. case_bool_decide as E; cbn; by rewrite ?E.
Qed.

(** *** The connections *)

(** The frames of a command: no message, and one of three types.  Their data
    travel as base64, so JSON carries them exactly. *)
Definition bare (f : Frame) : Prop := fr_Message f = "" /\ fr_Type f ∈ ["stdout"; "stderr"; "exit"].
#[export] Instance bare_dec (f : Frame) : Decision (bare f).
Proof. unfold bare. apply _. Defined.

Lemma exec_output_bare (tty : bool) (evs : list output_event) (w : waited) : Forall bare (exec_output tty evs w).
Proof.
  apply Forall_app. split; [|repeat constructor; set_solver].
  eapply Forall_impl; [apply outputs_are, exec_chunks_streams|].
  intros f (k & d & -> & [-> | ->]); (split; [done|]); cbn; set_solver.
Qed.

Lemma send_all_ext (enc enc' : Frame -> result string) (write : nat -> nat * option error) (t : nat) (fs : list Frame) :
  Forall (fun f => enc f = enc' f) fs -> send_all enc write t fs = send_all enc' write t fs.
Proof.
  intros H. revert t. induction H as [|f fs Hf _ IH]; intros t; [done|]. cbn [send_all]. unfold Send. rewrite Hf.
  destruct (enc' f); [destruct (_ <? _); [by rewrite IH|]|by rewrite IH].
  destruct (write_loop _ _ _ _) as [[? [?|]] ?]; by rewrite ?IH.
Qed.

Section Connections.
Context (encode : Frame -> result string) (decode : string -> result Frame).
Hypothesis encode_plain : forall v b, bare v -> encode v = Ok b -> plain b.
Hypothesis encode_decode : forall v b, bare v -> encode v = Ok b -> decode b = Ok v.
Hypothesis encode_part : forall v b k,
  bare v -> encode v = Ok b -> (k < String.length b)%nat -> is_ok (decode (take_str k b)) = false.

Definition fits_frame (f : Frame) : Prop := is_Some (frame encode f).

(** The encoding of these frames only. *)
Definition encode_bare (f : Frame) : result string := if decide (bare f) then encode f else Err (Errorf "unsupported").
Lemma encode_bare_ok (f : Frame) (b : string) : encode_bare f = Ok b -> bare f /\ encode f = Ok b.
Proof. unfold encode_bare. by case_decide. Qed.
Lemma encode_bare_eq (f : Frame) : bare f -> encode_bare f = encode f.
Proof. intros H. unfold encode_bare. by rewrite decide_True. Qed.

Definition calm (write : nat -> nat * option error) : Prop := forall t, snd (write t) = None /\ (0 < fst (write t))%nat.

Lemma accepted_fits (fs : list Frame) : Forall bare fs -> Forall fits_frame fs -> accepted encode_bare fs = fs.
Proof.
  intros Hb H. induction H as [|f fs [b Hf] Hfs IH]; [done|]. apply Forall_cons in Hb as [Hb1 Hb2].
  rewrite (accepted_cons encode_bare f fs). unfold frame in *. rewrite (encode_bare_eq f Hb1), Hf. by rewrite IH.
Qed.

(** A connection delivers an initial part, and everything when it is not lost. *)
Lemma hop_part (n : nat) (write : nat -> nat * option error) (k : nat) (fs : list Frame) :
  (0 < n)%nat -> calm write -> Forall bare fs -> Forall fits_frame fs ->
  exists i e, hop encode decode n write k fs = (take i fs, e) /\
    ((String.length (fst (send_all encode write 0 fs)) <= k)%nat -> take i fs = fs).
Proof.
  intros Hn Hw Hb Hf. unfold hop. rewrite (send_all_ext encode encode_bare write 0 fs).
  2: { eapply Forall_impl; [exact Hb|]. intros f H. symmetry. by apply encode_bare_eq. }
  destruct (send_all_calm encode_bare write 0 fs Hw) as (rs & -> & _). cbn [fst].
  assert (forall v b, encode_bare v = Ok b -> plain b) as Hp by (intros v b [? ?]%encode_bare_ok; by eapply encode_plain).
  assert (forall v b, encode_bare v = Ok b -> decode b = Ok v) as Hd by (intros v b [? ?]%encode_bare_ok; by eapply encode_decode).
  assert (forall v b k, encode_bare v = Ok b -> (k < String.length b)%nat -> is_ok (decode (take_str k b)) = false) as Hc
    by (intros v b k' [? ?]%encode_bare_ok; by eapply encode_part).
  destruct (recv_all_cut encode_bare decode Hp Hd Hc n (S (length fs)) k fs Hn) as (i & e & E); [lia|].
  exists i, e. rewrite E, (accepted_fits fs Hb Hf). split; [done|]. intros Hk. rewrite take_str_all in E by done.
  rewrite (recv_all_stream encode_bare decode Hp Hd n (S (length fs)) fs Hn) in E by lia.
  rewrite (accepted_fits fs Hb Hf) in E. congruence.
Qed.

(** C8. A command is never reported wrongly.  The agent sends what it copies of the
    output of a command, then its exit code; the daemon relays it; the client
    prints it.  What the agent sends is, for each stream, an initial part of what
    the command wrote, and all of it when the session has no terminal (the rest of
    a terminal is lost when the agent closes it at the end of the command).  Whatever
    happens on the way - each connection may be lost after any byte, the relay may
    end in any state it can reach, with whatever the client sent - the client
    either prints exactly what the agent sent and exits with the command's code, or
    it prints an initial part of that and exits with 125; so a lost connection is
    never taken for success.  When the relay passed on the end of the session and
    the client's connection was not lost, it is the former.  The encoding of frames
    is any that is exact on frames of this kind, within the frame size, one line
    each, and of which no proper part is a frame. *)
Theorem exec_end_to_end (n1 n2 k1 k2 : nat) (write1 write2 : nat -> nat * option error) (tty : bool)
    (evs : list output_event) (w : waited) (typed : list Frame) (fin : option error) (got arrived : list Frame)
    (lost e : error) (r : relay) :
  (0 < n1)%nat -> (0 < n2)%nat -> calm write1 -> calm write2 -> Forall fits_frame (exec_output tty evs w) ->
  hop encode decode n1 write1 k1 (exec_output tty evs w) = (got, lost) ->
  rtc relay_step (relay_start (mkEnd typed fin []) (mkEnd got (Some lost) [])) r ->
  hop encode decode n2 write2 k2 (en_out (rl_a r)) = (arrived, e) ->
  let sent := printed (exec_chunks tty evs) in
  ((exists unread, printed (written tty evs) = seq_screen sent unread) /\
   (tty = false -> sent = printed (written tty evs))) /\
  exists o s, output_loop no_fail 0 ((Ok <$> arrived) ++ [Err e]) (mkScreen "" "") = (Some o, s) /\
    (exit_status o = exec_code w /\ s = sent \/
     exit_status o = 125 /\ exists rest, sent = seq_screen s rest) /\
    (rl_ba r = Reported None -> (String.length (fst (send_all encode write2 0 (en_out (rl_a r)))) <= k2)%nat ->
     exit_status o = exec_code w /\ s = sent).
Proof.
  intros Hn1 Hn2 Hw1 Hw2 Hf Hgot Hr Harr sent. split; [apply exec_chunks_printed|].
  pose proof (exec_chunks_streams tty evs) as Hevs. pose proof (exec_output_bare tty evs w) as Hbare. unfold sent. clear sent. unfold exec_output in *.
  set (cs := exec_chunks tty evs) in *. set (ex := [exit_frame (Some (exec_code w))]) in *.
  destruct (hop_part n1 write1 k1 _ Hn1 Hw1 Hbare Hf) as (i & e1 & E1 & _). rewrite E1 in Hgot. injection Hgot as <- <-.
  destruct (relay_forwards (mkEnd typed fin []) (mkEnd (take i (outputs cs ++ ex)) (Some e1) []) r eq_refl eq_refl Hr)
    as ((rest & Hpre) & _ & Hlast). cbn [en_in] in Hpre.
  assert (en_out (rl_a r) = take (length (en_out (rl_a r))) (outputs cs ++ ex)) as Hout.
  { assert (en_out (rl_a r) `prefix_of` outputs cs ++ ex) as [x ->].
    { exists (rest ++ drop i (outputs cs ++ ex)). rewrite app_assoc, <- Hpre. by rewrite take_drop. }
    by rewrite take_app_length. }
  destruct (hop_part n2 write2 k2 (en_out (rl_a r)) Hn2 Hw2) as (i2 & e2 & E2 & Hall);
    [rewrite Hout; by apply Forall_take..|].
  rewrite E2 in Harr. injection Harr as <- <-.
  assert (take i2 (en_out (rl_a r)) = take (i2 `min` length (en_out (rl_a r))) (outputs cs ++ ex)) as ->.
  { rewrite Hout at 1. apply take_take. }
  destruct (client_cut cs w (i2 `min` length (en_out (rl_a r))) e2 Hevs) as (o & s & Ho & Hcase). exists o, s. split; [done|].
  split; [naive_solver|]. intros Hend Hk. destruct Hcase as [(_ & H)|(Hj & _)]; [done|exfalso].
  rewrite Hend in Hlast. destruct Hlast as (s0 & f & Hs0 & Hterm). specialize (Hall Hk).
  apply (f_equal length) in Hall. rewrite length_take in Hall.
  assert (f ∈ outputs cs) as Hin.
  { apply (subseteq_take (length (en_out (rl_a r)))).
    rewrite take_app_le in Hout by lia. rewrite <- Hout, Hs0. set_solver. }
  pose proof (outputs_are cs Hevs) as Hall'. rewrite Forall_forall in Hall'. destruct (Hall' f Hin) as (k & d & -> & [->| ->]); done.
Qed.
End Connections.

(** A concrete encoding of the two frames of a command that writes "hi" and exits
    with 3. *)
Module Sample.
Definition out : Frame := data_frame "stdout" "hi".
Definition exit3 : Frame := exit_frame (Some 3).
Definition encode (f : Frame) : result string :=
  if bool_decide (f = out) then Ok "(o)" else if bool_decide (f = exit3) then Ok "(e)" else Err (Errorf "unsupported").
Definition decode (s : string) : result Frame :=
  if bool_decide (s = "(o)") then Ok out else if bool_decide (s = "(e)") then Ok exit3 else Err (Errorf "invalid JSON").
Lemma encode_two (f : Frame) (b : string) : encode f = Ok b -> f = out /\ b = "(o)" \/ f = exit3 /\ b = "(e)".
Proof. unfold encode. repeat case_bool_decide; intros [= <-]; auto. Qed.
Lemma frame_plain (f : Frame) (b : string) : bare f -> encode f = Ok b -> plain b.
Proof. by intros _; intros [[-> ->]|[-> ->]]%encode_two. Qed.
Lemma frame_decode (f : Frame) (b : string) : bare f -> encode f = Ok b -> decode b = Ok f.
Proof. by intros _; intros [[-> ->]|[-> ->]]%encode_two. Qed.
Lemma frame_part (f : Frame) (b : string) (k : nat) :
  bare f -> encode f = Ok b -> (k < String.length b)%nat -> is_ok (decode (take_str k b)) = false.
Proof. intros _ [[-> ->]|[-> ->]]%encode_two Hk; cbn in Hk; do 3 (destruct k as [|k]; [done|]); lia. Qed.
Definition write (_ : nat) : nat * option error := (2%nat, None).
Definition evs : list output_event := [OutWrite Stdout "hi"; OutCopy Stdout 512].
Definition guest : End := mkEnd [out; exit3] (Some Wire.EOF) [].
Definition relayed : relay := mkRelay (mkEnd [] None [out; exit3]) (mkEnd [] (Some Wire.EOF) []) Reading (Reported None) None.
Lemma relayed_reached : rtc relay_step (relay_start (mkEnd [] None []) guest) relayed.
Proof.
  eapply rtc_l; [refine (relay_ba _ _ _ _ _ _ _ _ _); apply copy_recv; reflexivity|].
  eapply rtc_l; [refine (relay_ba _ _ _ _ _ Reading _ _ _); apply (copy_send _ out _ [] None []); reflexivity|].
  eapply rtc_l; [refine (relay_ba _ _ _ _ _ _ _ _ _); apply copy_recv; reflexivity|].
  apply rtc_once. refine (relay_ba _ _ _ _ _ (Reported None) _ _ _). apply (copy_send _ exit3 _ [] None [out]). reflexivity.
Qed.
End Sample.

Lemma exec_end_to_end_witness :
  exists o s, output_loop no_fail 0 ((Ok <$> [Sample.out; Sample.exit3]) ++ [Err Wire.EOF]) (mkScreen "" "") = (Some o, s) /\
    exit_status o = 3 /\ s = printed (written false Sample.evs).
Proof.
  destruct (exec_end_to_end Sample.encode Sample.decode Sample.frame_plain Sample.frame_decode Sample.frame_part
    16 16 8 8 Sample.write Sample.write false Sample.evs (WaitExit 3 0) [] None [Sample.out; Sample.exit3] [Sample.out; Sample.exit3]
    Wire.EOF Wire.EOF Sample.relayed) as (Hsent & o & s & Ho & _ & Hend).
  - lia.
  - lia.
  - intros t. split; [reflexivity|simpl; lia].
  - intros t. split; [reflexivity|simpl; lia].
  - repeat constructor; eexists; vm_compute; reflexivity.
  - vm_compute. reflexivity.
  - exact Sample.relayed_reached.
  - vm_compute. reflexivity.
  - exists o, s. split; [exact Ho|]. rewrite <-(proj2 Hsent eq_refl). apply Hend; [reflexivity|]. vm_compute. lia.
Defined.
