(* ===== verification/Copies.v ===== *)
(** * Copies: niflhel cp from end to end (internal/cli/images.go, internal/guest/copy.go)

    A copy into a container: the client archives the source ([Filecopy.ArchiveTo]),
    sends the archive in frames ([CliSession.copy_in_sender]), the guest feeds
    what arrives to the extractor through a pipe and extracts below the root of
    the container ([Filecopy.ExtractRoot]).  A copy out goes the other way.  The
    encoding of archives is the tar format of the standard library, a parameter. *)

From stdpp Require Import pretty countable.
From S2P Require Import Prelude GoLib Api Filecopy RuntimeSpec Agent CliSession.
Import Strings.
Local Open Scope Z_scope.

(** What the goroutine of [Agent.copy] writes into the pipe, and the error with
    which it closes it, if any. *)
Fixpoint copy_pipe (l : list (result Frame)) : string * option error :=
  match l with
  | [] => ("", Some (Errorf "EOF"))
  | Err e :: _ => ("", Some e)
  | Ok f :: l =>
      if bool_decide (fr_Type f = "eof") then ("", None)
      else if negb (bool_decide (fr_Type f = "data")) then ("", Some (Errorf "invalid copy frame"))
      else let '(b, e) := copy_pipe l in (fr_Data f +:+ b, e)
  end.

Section Tar.
(** [tar.Writer] on entries, and [tar.Reader] on a stream that ends with an error
    or without one. *)
Context (tar : list entry -> string) (untar : string -> option error -> archive).

(** [Agent.copy], both directions, below the opened root of the container. *)
Definition guest_copy_out (a : Agent) (pidfile : result string) (opened : string -> result unit)
    (open : string -> result tree) (path : string) : result (list Frame) :=
  (let* root := copy_root a pidfile in
   let* _ := opened root in
   let* es := ArchiveRoot (Some (Ok true)) open path in
   Ok (writer_frames "data" (tar es) ++ [exit_frame None]))%go.

Definition guest_copy_in (fault : nat -> option (error * nat)) (a : Agent) (pidfile : result string)
    (opened : string -> result unit) (path : string) (frames : list (result Frame)) : T (list Frame) :=
  root ← return_ (copy_root a pidfile);
  return_ (opened root) ;;
  let '(b, e) := copy_pipe frames in
  ExtractRoot fault (Some (Ok true)) path (untar b e) ;;
  mret [exit_frame None].

(** [copyCommand] into a container: the frames sent, and the result, from the
    answer of the guest. *)
Definition cli_copy_in (send : nat -> option error) (open : string -> result tree) (source : string)
    (pieces : string -> list string) (answer : result Frame) : list Frame * result unit :=
  match OpenArchiveSource open source with
  | Err e => ([], Err e)
  | Ok src =>
      let '(writes, fin) := match ArchiveTo (Some src) with Ok es => (pieces (tar es), Ok tt) | Err e => ([], Err e) end in
      let '(fs, sent) := copy_in_sender send 0 writes fin in
      (fs, copy_in_result answer sent)
  end.

Lemma copy_pipe_frames (l : list (result Frame)) (b : string) : copy_pipe l = (b, None) -> copy_frames l = Ok b.
Proof.
  revert b. induction l as [|[f|e] l IH]; intros b; cbn [copy_pipe copy_frames]; [done| |done].
  case_bool_decide; [by intros [= <-]|]. destruct (negb _); [done|]. destruct (copy_pipe l) as [b' [e|]]; [done|].
  intros [= <-]. by rewrite (IH b' eq_refl).
Qed.
Lemma copy_frames_pipe (l : list (result Frame)) (b : string) : copy_frames l = Ok b -> copy_pipe l = (b, None).
Proof.
  revert b. induction l as [|[f|e] l IH]; intros b; cbn [copy_pipe copy_frames]; [done| |done].
  case_bool_decide; [by intros [= <-]|]. destruct (negb _); [done|]. destruct (copy_frames l) as [b'|]; [|done].
  intros [= <-]. by rewrite (IH b' eq_refl).
Qed.

(** The reader finds what was written, and a broken stream is not read to a clean
    end. *)
Hypothesis tar_read : forall es, untar (tar es) None = mkArchive (Ok <$> es) (Ok tt) (Z.of_nat (String.length (tar es))).
Hypothesis tar_broken : forall b e, is_ok (a_rest (untar b (Some e))) = false \/ Exists (fun r => is_ok r = false) (a_entries (untar b (Some e))).

Lemma extract_loop_broken (fault : nat -> option (error * nat)) (dest : string) (st : Z * Z) (ar : archive)
    (l : list (result entry)) (r r' : Root) (x : Z * Z) :
  is_ok (a_rest ar) = false \/ Exists (fun r => is_ok r = false) l -> extract_loop fault dest st ar l r <> (Ok x, r').
Proof.
  revert st r. induction l as [|[h|e] l IH]; intros st r H; cbn [extract_loop].
  - destruct H as [H|H%Exists_nil]; [|done]. unfold mbind, T_bind, return_. by destruct (a_rest ar).
  - unfold mbind, T_bind. destruct (extract_entry _ _ _ _ _) as [[st1|] r1]; [|done]. apply IH.
    destruct H as [H|[H|H]%Exists_cons]; auto. done.
  - done.
Qed.

(** A copy that the guest confirms had the whole archive. *)
Lemma guest_copy_in_complete (fault : nat -> option (error * nat)) (a : Agent) (pidfile : result string)
    (opened : string -> result unit) (path : string) (frames : list (result Frame)) (r r' : Root) (fs : list Frame) :
  guest_copy_in fault a pidfile opened path frames r = (Ok fs, r') ->
  fs = [exit_frame None] /\ exists b st, copy_frames frames = Ok b /\ extract fault path (untar b None) r = (Ok st, r').
Proof.
  unfold guest_copy_in, mbind, T_bind, return_, ExtractRoot. intros H.
  destruct (copy_root a pidfile) as [root|]; [|done]. destruct (opened root) as [[]|]; [|done].
  destruct (copy_pipe frames) as [b e] eqn:Ep. cbn [directoryFD] in H. unfold mbind, T_bind, return_ in H.
  destruct (extract fault path (untar b e) r) as [[st|] r1] eqn:Ex; [|done]. unfold mret, T_ret in H. injection H as <- <-.
  split; [done|]. exists b, st. destruct e as [e|].
  - exfalso. unfold extract, mbind, T_bind, return_ in Ex. destruct (clean path) as [p|]; [|done].
    by apply extract_loop_broken in Ex.
  - split; [by apply copy_pipe_frames|done].
Qed.


(** A copy out of a container is exact or an error: when the client's extractor
    sees a clean end, what it has read is the whole archive of the path, however
    many frames have arrived. *)
Theorem cp_out_exact (ag : Agent) (pidfile : result string) (opened : string -> result unit) (open : string -> result tree)
    (path b : string) (fs received : list Frame) (lost : error) :
  guest_copy_out ag pidfile opened open path = Ok fs -> received `prefix_of` fs ->
  copy_out_reader ((Ok <$> received) ++ [Err lost]) = (b, Some (Ok tt)) ->
  a_state ag = "running" /\ exists es, archiveAt open path = Ok es /\ b = tar es /\ untar b None = mkArchive (Ok <$> es) (Ok tt) (Z.of_nat (String.length b)).
Proof.
  unfold guest_copy_out, ArchiveRoot. intros H Hp Hb. destruct (copy_root ag pidfile) as [root|] eqn:Er; [|done].
  cbn [result_bind] in H. destruct (opened root); [|done]. cbn [result_bind directoryFD] in H.
  destruct (archiveAt open path) as [es|] eqn:Ea; [|done]. injection H as <-. split.
  { unfold copy_root in Er. by case_bool_decide. }
  exists es. split; [done|]. destruct (writer_frames_data [tar es]) as (ws & Hw1 & Hw2).
  assert (writer_frames "data" (tar es) = data_frame "data" <$> ws) as Hw by (rewrite <- Hw1; cbn; by rewrite app_nil_r).
  rewrite Hw in Hp. apply (copy_out_complete ws received lost b Hp) in Hb. rewrite Hw2 in Hb.
  assert (b = tar es) as -> by (rewrite Hb; exact (app_nil_r_str (tar es))). split; [done|]. apply tar_read.
Qed.
End Tar.

(** ** An instance *)

Module Sample.
#[export] Instance typeflag_eq_dec : EqDecision typeflag.
Proof. solve_decision. Defined.
#[export] Instance entry_eq_dec : EqDecision entry.
Proof. solve_decision. Defined.
Definition of_flag (f : typeflag) : nat := match f with TypeReg => 0 | TypeDir => 1 | TypeOther => 2 end.
Definition to_flag (n : nat) : typeflag := match n with 0%nat => TypeReg | 1%nat => TypeDir | _ => TypeOther end.
#[export] Program Instance entry_countable : Countable entry :=
  inj_countable' (fun e => (e_Name e, of_flag (e_Typeflag e), e_Size e, e_Body e))
                 (fun x => mkEntry x.1.1.1 (to_flag x.1.1.2) x.1.2 x.2) _.
Next Obligation. by intros [n [] s b]. Qed.

(** An archive as the number of its entries; every number is an archive. *)
Definition tar (es : list entry) : string := pretty (N.pos (encode es)).
Definition untar (b : string) (e : option error) : archive :=
  match e, Strconv.numeral b with
  | None, Some z =>
      match decode (A := list entry) (Z.to_pos z) with
      | Some es => mkArchive (Ok <$> es) (Ok tt) (Z.of_nat (String.length b))
      | None => mkArchive [] (Err ENOENT) 0
      end
  | _, _ => mkArchive [] (Err ENOENT) 0
  end.
Lemma tar_read (es : list entry) : untar (tar es) None = mkArchive (Ok <$> es) (Ok tt) (Z.of_nat (String.length (tar es))).
Proof. unfold untar, tar. rewrite numeral_pretty_N. cbn [Z.of_N Z.to_pos]. by rewrite decode_encode. Qed.
Lemma tar_broken (b : string) (e : error) :
  is_ok (a_rest (untar b (Some e))) = false \/ Exists (fun r => is_ok r = false) (a_entries (untar b (Some e))).
Proof. by left. Qed.

Lemma small (es : list entry) : ArchiveTo (Some (Leaf "x", "a")) = Ok es -> Z.of_nat (String.length (tar es)) < max_stream.
Proof. intros [= <-]. vm_compute. reflexivity. Qed.
#[global] Opaque tar untar.

Definition open (_ : string) : result tree := Ok (Leaf "x").
Definition pieces (b : string) : list string := [b].
Definition agent : Agent := mkAgent "running" None 0 "op" ∅ false false 1 [].
Definition sent : list Frame * result unit := cli_copy_in tar calm_send open "a" pieces (Ok (exit_frame None)).
End Sample.

