(* ===== verification/Results.v ===== *)
(** * Results: exit results kept after removal (internal/daemon/results.go)

    A removed sandbox leaves its exit result and its log in the directory
    [results].  The directory is bounded: records expire after a day, and the
    oldest go first when there are more than 128 records or 256 MiB.  All
    operations hold [resultMu], so they are modelled as functions of the
    directory; removing a file of the directory is taken to succeed. *)

From Stdlib Require Import Sorted Permutation.
From S2P Require Import Prelude GoLib Api.
Import Strings.
Local Open Scope Z_scope.

(** The type [result] of the source. *)
Record Saved : Type := mkSaved { r_Exit : Exit; r_ID : string; r_Name : string }.

#[export] Instance Saved_eq_dec : EqDecision Saved.
Proof. solve_decision. Defined.

(** A file of the directory: times in nanoseconds, and the record it decodes to
    ([None] for a log, or a file [fsutil.ReadJSON] refuses). *)
Record RFile : Type := mkRFile {
  rf_modified : Z;
  rf_size : Z;
  rf_regular : bool;
  rf_record : option Saved
}.

(** A directory lists its entries in the order of [os.ReadDir]: by name. *)
Notation Directory := (list (string * RFile)).

Fixpoint dir_lookup (d : Directory) (name : string) : option RFile :=
  match d with
  | [] => None
  | (n, f) :: d => if bool_decide (n = name) then Some f else dir_lookup d name
  end.

Definition dir_remove (name : string) (d : Directory) : Directory :=
  filter (fun e => fst e <> name) d.

(** Put an entry at its place by name. *)
Fixpoint dir_place (name : string) (f : RFile) (d : Directory) : Directory :=
  match d with
  | [] => [(name, f)]
  | (n, g) :: d => if String.leb name n then (name, f) :: (n, g) :: d else (n, g) :: dir_place name f d
  end.

Definition dir_insert (name : string) (f : RFile) (d : Directory) : Directory :=
  dir_place name f (dir_remove name d).

Definition resultRetention : Z := 24 * 3600 * 1000000000.
Definition max_bytes : Z := 268435456.
Definition max_records : Z := 128.

(** The local type [saved] of [pruneResultsLocked]. *)
Record saved : Type := mkSavedFile { sv_id : string; sv_at : Z; sv_size : Z }.

(** What [os.Stat] adds to a record's size. *)
Definition file_size (d : Directory) (name : string) : Z :=
  match dir_lookup d name with Some f => rf_size f | None => 0 end.

(** One entry of a scan, with the sizes read in [env]. *)
Definition scan_entry (env : Directory) (e : string * RFile) : option saved :=
  if HasSuffix (fst e) ".json" then
    let id := TrimSuffix (fst e) ".json" in
    Some (mkSavedFile id (rf_modified (snd e))
            (rf_size (snd e) + file_size env (id +:+ ".log") + file_size env (id +:+ ".log.1")))
  else None.

(** The records of the directory with the sizes of their files. *)
Definition scan (d : Directory) : list saved := omap (scan_entry d) d.

Definition sum_sizes (l : list saved) : Z := foldr (fun v n => sv_size v + n) 0 l.

(** The removal loop on the sorted records: the identifiers it removes. *)
Fixpoint prune_loop (now total : Z) (l : list saved) : list saved :=
  match l with
  | [] => []
  | v :: rest =>
      if (now - sv_at v <? resultRetention) && (total <=? max_bytes) && (Z.of_nat (length l) <=? max_records)
      then []
      else v :: prune_loop now (total - sv_size v) rest
  end.

(** Remove the three files of a record. *)
Definition remove_record (d : Directory) (v : saved) : Directory :=
  foldl (fun d ext => dir_remove (sv_id v +:+ ext) d) d [".json"; ".log"; ".log.1"].

Section Results.
(** [sort.Slice] by time; the order of records of the same time is not
    specified. *)
Variable sort : list saved -> list saved.

(** [pruneResultsLocked] *)
Definition pruneResults (now : Z) (d : Directory) : Directory :=
  let all := scan d in
  foldl remove_record d (prune_loop now (sum_sizes all) (sort all)).

(** The lookup loop: the exact match, or the last prefix match and their number. *)
Fixpoint find_loop (now : Z) (id : string) (d : Directory) (found : option Saved) (matches : nat) :
  option Saved * option Saved * nat :=
  match d with
  | [] => (None, found, matches)
  | (name, f) :: d =>
      if negb (HasSuffix name ".json") then find_loop now id d found matches
      else if negb (rf_regular f) || (resultRetention <=? now - rf_modified f) then find_loop now id d found matches
      else match rf_record f with
           | None => find_loop now id d found matches
           | Some v =>
               if bool_decide (r_ID v = id) || bool_decide (r_Name v = id) then (Some v, found, matches)
               else if HasPrefix (r_ID v) id then find_loop now id d (Some v) (S matches)
               else find_loop now id d found matches
           end
  end.

(** [findResult]; [None] is a directory that does not exist yet. *)
Definition findResult (now : Z) (id : string) (dir : option Directory) : option Directory * result Saved :=
  if negb (ValidName id) then (dir, Err ErrNotFound)
  else match dir with
       | None => (None, Err ErrNotFound)
       | Some d =>
           let d := pruneResults now d in
           (Some d,
            match find_loop now id d None 0 with
            | (Some v, _, _) => Ok v
            | (None, Some v, 1%nat) => Ok v
            | (None, _, S (S _)) => Err (Errorf "ambiguous removed container ID")
            | (None, _, _) => Err ErrNotFound
            end)
       end.

(** What the filesystem answers while a result is saved: the directory can be
    made, the size of a live log ([None]: it does not exist) and whether linking
    it fails for another reason than an existing target, and writing the record. *)
Record SaveEnv : Type := mkSaveEnv {
  se_mkdir : option error;
  se_log : string -> option (Z * Z);      (* suffix -> modification time and size *)
  se_link : string -> option error;
  se_write : option error
}.

(** [os.Link] of one log. *)
Definition link_log (E : SaveEnv) (id suffix : string) (d : Directory) : result Directory :=
  let target := id +:+ ".log" +:+ suffix in
  match se_log E suffix with
  | None => Ok d
  | Some (at_, size) =>
      match dir_lookup d target with
      | Some _ => Ok d
      | None => match se_link E suffix with
                | Some e => Err e
                | None => Ok (dir_insert target (mkRFile at_ size true None) d)
                end
      end
  end.

(** [saveResult]: the record, of [size] bytes, is written at time [written] and
    the directory is pruned at time [now]. *)
Definition saveResult (E : SaveEnv) (written now size : Z) (v : Sandbox) (exit : Exit) (dir : option Directory) :
  option Directory * result unit :=
  match se_mkdir E with
  | Some e => (dir, Err e)
  | None =>
      let d := default [] dir in
      match link_log E (sb_ID v) "" d with
      | Err e => (Some d, Err e)
      | Ok d =>
          match link_log E (sb_ID v) ".1" d with
          | Err e => (Some d, Err e)
          | Ok d =>
              match se_write E with
              | Some e => (Some d, Err e)
              | None =>
                  let r := mkSaved exit (sb_ID v) (sb_Name v) in
                  (Some (pruneResults now (dir_insert (sb_ID v +:+ ".json") (mkRFile written size true (Some r)) d)), Ok tt)
              end
          end
      end
  end.
End Results.

(** ** The removal loop *)

Definition expired (now : Z) (v : saved) : Prop := resultRetention <= now - sv_at v.

Lemma sum_sizes_cons (v : saved) (l : list saved) : sum_sizes (v :: l) = sv_size v + sum_sizes l.
Proof. done. Qed.

(** It removes a prefix: what is left starts with a record that may stay, and each
    removed record had to go when it was reached. *)
Lemma prune_loop_spec (now : Z) (l : list saved) :
  exists kept, l = prune_loop now (sum_sizes l) l ++ kept /\
    (kept = [] \/ exists v rest, kept = v :: rest /\ ~ expired now v /\ sum_sizes kept <= max_bytes /\
                                 Z.of_nat (length kept) <= max_records) /\
    (forall pre v post, l = pre ++ v :: post -> v ∈ prune_loop now (sum_sizes l) l -> NoDup (sv_id <$> l) ->
       expired now v \/ max_bytes < sum_sizes (v :: post) \/ max_records < Z.of_nat (length (v :: post))).
Proof.
  induction l as [|v l IH].
  - exists []. split; [done|]. split; [by left|]. intros pre v post H. by destruct pre.
  - cbn [prune_loop]. destruct (_ && _ && _) eqn:E.
    + bool_prop. exists (v :: l). split; [done|]. split.
      * right. exists v, l. unfold expired. split_and!; [done|lia|done|done].
      * intros pre w post _ Hw. set_solver.
    + rewrite sum_sizes_cons in *. replace (sv_size v + sum_sizes l - sv_size v) with (sum_sizes l) by lia.
      destruct IH as (kept & Hl & Hk & Hr). exists kept. split; [by rewrite <-app_comm_cons, <-Hl|]. split; [done|].
      intros pre w post Hw Hin Hnd. destruct pre as [|u pre].
      * injection Hw as <- <-. apply andb_false_iff in E. rewrite andb_false_iff in E. unfold expired.
        rewrite sum_sizes_cons.
        destruct E as [[E|E]|E]; bool_prop; [left|right; left|right; right]; cbn [length] in *; lia.
      * injection Hw as <- Hw. rewrite fmap_cons in Hnd. apply NoDup_cons in Hnd as [Hv Hnd].
        apply elem_of_cons in Hin as [->|Hin]; [|by eapply Hr].
        exfalso. apply Hv, list_elem_of_fmap. exists v. split; [done|]. rewrite Hw. set_solver.
Qed.

Lemma sum_sizes_perm (l k : list saved) : l ≡ₚ k -> sum_sizes l = sum_sizes k.
Proof. unfold sum_sizes. induction 1; cbn [foldr]; lia. Qed.

(** ** Files of a record *)

Definition record_files (id : string) : list string := [id +:+ ".json"; id +:+ ".log"; id +:+ ".log.1"].

Lemma suffix_inj (a b q : string) : a +:+ q = b +:+ q -> a = b.
Proof. intros H. rewrite <-(TrimSuffix_app a q), <-(TrimSuffix_app b q). by rewrite H. Qed.

(** Strings that end in different characters differ. *)
Lemma last_char_ne (a b q r : string) (c d : ascii) :
  c <> d -> a +:+ (q +:+ String c "") <> b +:+ (r +:+ String d "").
Proof.
  intros Hc H. apply Hc. rewrite <-!app_assoc_str in H.
  assert (forall x y, x +:+ String c "" = y +:+ String d "" -> c = d) as L.
  { intros x. induction x as [|e x IH]; intros y Hy.
    - destruct y as [|f y]; [by injection Hy|]. rewrite app_cons_str in Hy. injection Hy as _ Hy. by destruct y.
    - destruct y as [|f y]; rewrite app_cons_str in Hy.
      + injection Hy as _ Hy. by destruct x.
      + rewrite app_cons_str in Hy. injection Hy as _ Hy. by eapply IH. }
  by eapply L.
Qed.

(** The files of two records are apart. *)
Lemma record_files_apart (a b : string) (x : string) :
  x ∈ record_files a -> x ∈ record_files b -> a = b.
Proof.
  unfold record_files. rewrite !elem_of_cons, !elem_of_nil.
  pose proof (last_char_ne a b ".jso" ".lo" "n" "g"). pose proof (last_char_ne a b ".jso" ".log." "n" "1").
  pose proof (last_char_ne a b ".lo" ".jso" "g" "n"). pose proof (last_char_ne a b ".lo" ".log." "g" "1").
  pose proof (last_char_ne a b ".log." ".jso" "1" "n"). pose proof (last_char_ne a b ".log." ".lo" "1" "g").
  cbn in *.
  intros [->|[->|[->|[]]]] [E|[E|[E|[]]]]; try (by apply suffix_inj in E); exfalso; naive_solver.
Qed.

Lemma dir_lookup_remove (d : Directory) (n name : string) :
  name <> n -> dir_lookup (dir_remove n d) name = dir_lookup d name.
Proof.
  intros Hne. unfold dir_remove. induction d as [|[k f] d IH]; [done|]. rewrite filter_cons. cbn [fst dir_lookup].
  case_decide as Hk; cbn [dir_lookup].
  - by rewrite IH.
  - rewrite IH, bool_decide_eq_false_2; [done|]. congruence.
Qed.

Lemma remove_record_eq (d : Directory) (v : saved) :
  remove_record d v = filter (fun e => fst e ∉ record_files (sv_id v)) d.
Proof.
  unfold remove_record, record_files, dir_remove. cbn [foldl]. rewrite !list_filter_filter.
  apply list_filter_iff. intros e. set_solver.
Qed.

Lemma lookup_remove_record (d : Directory) (v : saved) (name : string) :
  name ∉ record_files (sv_id v) -> dir_lookup (remove_record d v) name = dir_lookup d name.
Proof.
  intros H. unfold remove_record. cbn [foldl]. unfold record_files in H.
  rewrite !dir_lookup_remove by set_solver. done.
Qed.

Lemma HasSuffix_split (s q : string) : HasSuffix s q = true -> s = TrimSuffix s q +:+ q.
Proof. intros H. apply HasSuffix_spec in H as [t ->]. by rewrite TrimSuffix_app. Qed.

Lemma scan_entry_Some (env : Directory) (e : string * RFile) (w : saved) :
  scan_entry env e = Some w ->
  fst e = sv_id w +:+ ".json" /\ sv_at w = rf_modified (snd e) /\
  sv_size w = rf_size (snd e) + file_size env (sv_id w +:+ ".log") + file_size env (sv_id w +:+ ".log.1").
Proof.
  unfold scan_entry. destruct (HasSuffix (fst e) ".json") eqn:E; [|done]. intros [= <-].
  split; [by apply HasSuffix_split|done].
Qed.

(** Removing a record removes it, and only it, from the scan. *)
Lemma scan_remove (d : Directory) (v : saved) :
  scan (remove_record d v) = filter (fun w => sv_id w <> sv_id v) (scan d).
Proof.
  unfold scan. rewrite remove_record_eq at 2.
  assert (forall id, id <> sv_id v -> file_size (remove_record d v) (id +:+ ".log") = file_size d (id +:+ ".log") /\
            file_size (remove_record d v) (id +:+ ".log.1") = file_size d (id +:+ ".log.1")) as Hsz.
  { intros id Hid. unfold file_size.
    rewrite !lookup_remove_record; [done| |]; intros Hin; apply Hid; eapply record_files_apart; try exact Hin;
      unfold record_files; set_solver. }
  generalize d at 2 4. intros l. induction l as [|e l IH]; [done|].
  rewrite filter_cons. cbn [omap list_omap]. 
  destruct (scan_entry d e) as [w|] eqn:E.
  - destruct (scan_entry_Some _ _ _ E) as (En & Et & Es). rewrite filter_cons. 
    destruct (decide (sv_id w = sv_id v)) as [Ev|Ev].
    + rewrite (decide_False (P := sv_id w <> sv_id v)) by (intros Hc; by apply Hc).
      rewrite decide_False; [done|]. intros Hc. apply Hc. rewrite En, Ev. unfold record_files. set_solver.
    + rewrite (decide_True (P := sv_id w <> sv_id v)) by done.
      rewrite decide_True.
      2: { rewrite En. intros Hc. apply Ev. eapply record_files_apart; [|exact Hc]. unfold record_files. set_solver. }
      cbn [omap list_omap]. rewrite IH. replace (scan_entry (remove_record d v) e) with (Some w); [done|].
      revert E. unfold scan_entry. destruct (HasSuffix (fst e) ".json") eqn:Ej; [|done]. intros [= <-].
      cbn [sv_id] in *. destruct (Hsz _ Ev) as [-> ->]. done.
  - assert (scan_entry (remove_record d v) e = None) as E'.
    { revert E. unfold scan_entry. by destruct (HasSuffix (fst e) ".json"). }
    case_decide; cbn [omap list_omap]; rewrite ?E'; exact IH.
Qed.

Lemma filter_all {A} (P : A -> Prop) `{forall x, Decision (P x)} (l : list A) : Forall P l -> filter P l = l.
Proof. induction 1 as [|x l Hx _ IH]; [done|]. by rewrite filter_cons_True, IH. Qed.

Lemma filter_none {A} (P : A -> Prop) `{forall x, Decision (P x)} (l : list A) :
  Forall (fun x => ~ P x) l -> filter P l = [].
Proof. induction 1 as [|x l Hx _ IH]; [done|]. by rewrite filter_cons_False, IH. Qed.

Lemma scan_removes (rs : list saved) (d : Directory) :
  scan (foldl remove_record d rs) = filter (fun w => sv_id w ∉ (sv_id <$> rs)) (scan d).
Proof.
  revert d. induction rs as [|v rs IH]; intros d; cbn [foldl fmap list_fmap].
  - symmetry. apply filter_all. apply Forall_true. set_solver.
  - rewrite IH, scan_remove, list_filter_filter. apply list_filter_iff. intros w. set_solver.
Qed.

Lemma lookup_removes (rs : list saved) (d : Directory) (name : string) :
  (forall v, v ∈ rs -> name ∉ record_files (sv_id v)) ->
  dir_lookup (foldl remove_record d rs) name = dir_lookup d name.
Proof.
  revert d. induction rs as [|v rs IH]; intros d H; cbn [foldl]; [done|].
  rewrite IH by set_solver. apply lookup_remove_record. set_solver.
Qed.

Lemma removes_sublist (rs : list saved) (d : Directory) : foldl remove_record d rs `sublist_of` d.
Proof.
  revert d. induction rs as [|v rs IH]; intros d; cbn [foldl]; [done|]. etrans; [apply IH|].
  rewrite remove_record_eq. apply sublist_filter.
Qed.

(** Distinct names give distinct records. *)
Lemma scan_ids (d : Directory) : NoDup (fst <$> d) -> NoDup (sv_id <$> scan d).
Proof.
  unfold scan. generalize d at 2. intros env. induction d as [|e d IH]; intros H; [constructor|].
  rewrite fmap_cons in H. apply NoDup_cons in H as [He H]. cbn [omap list_omap].
  destruct (scan_entry env e) as [w|] eqn:E; [|by apply IH]. rewrite fmap_cons. constructor; [|by apply IH].
  intros Hin. apply list_elem_of_fmap in Hin as (u & Hu & Hin). apply list_elem_of_omap in Hin as (e' & He' & E').
  apply scan_entry_Some in E as (E & _), E' as (E' & _). apply He, list_elem_of_fmap. exists e'.
  split; [congruence|done].
Qed.

Section Bounds.
Variable sort : list saved -> list saved.
Hypothesis sort_perm : forall l, sort l ≡ₚ l.
Hypothesis sort_sorted : forall l, StronglySorted (fun v w => sv_at v <= sv_at w) (sort l).

(** What pruning removes: a prefix of the records in the order of time. *)
Lemma prune_split (now : Z) (d : Directory) :
  NoDup (fst <$> d) ->
  exists removed kept,
    sort (scan d) = removed ++ kept /\ pruneResults sort now d = foldl remove_record d removed /\
    scan (pruneResults sort now d) ≡ₚ kept /\
    (kept = [] \/ exists v rest, kept = v :: rest /\ ~ expired now v /\ sum_sizes kept <= max_bytes /\
                                 Z.of_nat (length kept) <= max_records) /\
    (forall pre v post, removed = pre ++ v :: post -> expired now v \/
       max_bytes < sum_sizes (v :: post ++ kept) \/ max_records < Z.of_nat (length (v :: post ++ kept))).
Proof.
  intros Hnd. set (l := sort (scan d)). pose proof (sort_perm (scan d)) as HP. fold l in HP.
  assert (NoDup (sv_id <$> l)) as Hids by (rewrite HP; by apply scan_ids).
  destruct (prune_loop_spec now l) as (kept & Hl & Hk & Hr).
  exists (prune_loop now (sum_sizes l) l), kept. unfold pruneResults. fold l.
  rewrite <-(sum_sizes_perm l (scan d)) by done.
  set (removed := prune_loop now (sum_sizes l) l) in *. split; [done|]. split; [done|]. split; [|split; [done|]].
  - rewrite scan_removes, <-HP, Hl at 1. rewrite filter_app.
    rewrite Hl, fmap_app in Hids. apply NoDup_app in Hids as (_ & Hd & _).
    rewrite filter_none, filter_all; [done| |].
    + apply Forall_forall. intros w Hw Hin. eapply Hd; [exact Hin|]. apply list_elem_of_fmap. eauto.
    + apply Forall_forall. intros w Hw Hn. apply Hn, list_elem_of_fmap. eauto.
  - intros pre v post E. apply (Hr pre v (post ++ kept)); [|rewrite E; apply elem_of_app; right; by left|done].
    rewrite Hl at 1. by rewrite E, <-app_assoc.
Qed.

Lemma StronglySorted_app_r {A} (R : A -> A -> Prop) (l k : list A) :
  StronglySorted R (l ++ k) -> StronglySorted R k.
Proof. induction l as [|x l IH]; [done|]. cbn. intros H. apply StronglySorted_inv in H as [H _]. by apply IH. Qed.

Lemma StronglySorted_head {A} (R : A -> A -> Prop) (x : A) (l : list A) :
  StronglySorted R (x :: l) -> Forall (R x) l.
Proof. intros H. by apply StronglySorted_inv in H as [_ H]. Qed.

(** Pruning bounds the directory of results: no record a day old, at most
    256 MiB and at most 128 records are left; a record is removed only because it
    is a day old or because it and the records at least as recent exceed a bound;
    and the files of the records that stay, and other files, are not touched. *)
Theorem prune_bounds (now : Z) (d : Directory) :
  NoDup (fst <$> d) ->
  let d' := pruneResults sort now d in
  Forall (fun v => ~ expired now v) (scan d') /\
  sum_sizes (scan d') <= max_bytes /\ Z.of_nat (length (scan d')) <= max_records /\
  (forall v, v ∈ scan d -> v ∉ scan d' ->
     expired now v \/
     exists newer, v ∈ newer /\ newer ⊆+ scan d /\ Forall (fun w => sv_at v <= sv_at w) newer /\
       (max_bytes < sum_sizes newer \/ max_records < Z.of_nat (length newer))) /\
  (forall name, (forall v, v ∈ scan d -> v ∉ scan d' -> name ∉ record_files (sv_id v)) ->
     dir_lookup d' name = dir_lookup d name).
Proof.
  intros Hnd. cbv zeta. destruct (prune_split now d Hnd) as (removed & kept & Hs & Hd & HP & Hk & Hr).
  pose proof (sort_sorted (scan d)) as HS. rewrite Hs in HS. pose proof (sort_perm (scan d)) as Hperm. rewrite Hs in Hperm.
  assert (NoDup (removed ++ kept)) as Hnd'.
  { apply (NoDup_fmap_1 sv_id). rewrite Hperm. by apply scan_ids. }
  split_and!.
  - rewrite HP. destruct Hk as [->|(v & rest & -> & Hv & _)]; [constructor|]. constructor; [done|].
    apply StronglySorted_app_r, StronglySorted_head in HS. eapply Forall_impl; [exact HS|].
    unfold expired in *. cbn. intros w Hw. lia.
  - rewrite (sum_sizes_perm _ _ HP). destruct Hk as [->|(v & rest & -> & _ & ? & _)]; [done|lia].
  - rewrite HP. destruct Hk as [->|(v & rest & -> & _ & _ & ?)]; [done|lia].
  - intros v Hv Hn. rewrite HP in Hn. rewrite <-Hperm in Hv. apply elem_of_app in Hv as [Hv|Hv]; [|done].
    apply list_elem_of_split in Hv as (pre & post & E). destruct (Hr pre v post E) as [H|H]; [by left|right].
    exists (v :: post ++ kept). split; [set_solver|]. rewrite E, <-app_assoc in HS, Hperm.
    split; [|split; [|done]].
    + rewrite <-Hperm. cbn [app]. apply submseteq_inserts_l. done.
    + apply StronglySorted_app_r, StronglySorted_head in HS. constructor; [lia|done].
  - intros name Hn. rewrite Hd. apply lookup_removes. intros v Hv. apply Hn.
    + rewrite <-Hperm. set_solver.
    + rewrite HP. intros Hin. apply NoDup_app in Hnd' as (_ & Hnd' & _). by eapply Hnd'.
Qed.
End Bounds.

(** ** Lookup *)

(** The record of an entry that may answer a lookup at [now]. *)
Definition eligible (now : Z) (e : string * RFile) : option Saved :=
  if HasSuffix (fst e) ".json" && rf_regular (snd e) && (now - rf_modified (snd e) <? resultRetention)
  then rf_record (snd e) else None.

Definition candidates (now : Z) (d : Directory) : list Saved := omap (eligible now) d.

Definition is_exact (id : string) (v : Saved) : Prop := r_ID v = id \/ r_Name v = id.
Definition is_prefix (id : string) (v : Saved) : Prop := HasPrefix (r_ID v) id = true.
#[export] Instance is_exact_dec id v : Decision (is_exact id v).
Proof. unfold is_exact. apply _. Defined.
#[export] Instance is_prefix_dec id v : Decision (is_prefix id v).
Proof. unfold is_prefix. apply _. Defined.

Lemma find_loop_step (now : Z) (id : string) (e : string * RFile) (d : Directory) (found : option Saved) (n : nat) :
  find_loop now id (e :: d) found n =
  match eligible now e with
  | None => find_loop now id d found n
  | Some v => if decide (is_exact id v) then (Some v, found, n)
              else if decide (is_prefix id v) then find_loop now id d (Some v) (S n)
              else find_loop now id d found n
  end.
Proof.
  destruct e as [name f]. cbn [find_loop]. unfold eligible. cbn [fst snd].
  destruct (HasSuffix name ".json"); cbn [negb andb]; [|done]. destruct (rf_regular f); cbn [negb andb orb]; [|done].
  rewrite Z.ltb_antisym. destruct (resultRetention <=? _); cbn [negb]; [done|].
  destruct (rf_record f) as [v|]; [|done].
  destruct (bool_decide (r_ID v = id)) eqn:E1, (bool_decide (r_Name v = id)) eqn:E2; bool_prop; cbn [orb].
  4: { rewrite decide_False by (unfold is_exact; naive_solver).
       destruct (decide (is_prefix id v)) as [P|P]; unfold is_prefix in P; [by rewrite P|].
       apply not_true_is_false in P. by rewrite P. }
  all: rewrite decide_True by (unfold is_exact; naive_solver); done.
Qed.

Lemma find_loop_exact (now : Z) (id : string) (d : Directory) (found : option Saved) (n : nat) :
  fst (fst (find_loop now id d found n)) = head (filter (is_exact id) (candidates now d)).
Proof.
  revert found n. induction d as [|e d IH]; intros found n; [done|]. rewrite find_loop_step.
  unfold candidates in *. cbn [omap list_omap]. destruct (eligible now e) as [v|]; [|apply IH].
  rewrite filter_cons. destruct (decide (is_exact id v)); [done|]. by destruct (decide (is_prefix id v)).
Qed.

Lemma find_loop_prefix (now : Z) (id : string) (d : Directory) (found : option Saved) (n : nat) :
  filter (is_exact id) (candidates now d) = [] ->
  find_loop now id d found n =
    (None, match last (filter (is_prefix id) (candidates now d)) with Some v => Some v | None => found end,
     (n + length (filter (is_prefix id) (candidates now d)))%nat).
Proof.
  revert found n. induction d as [|e d IH]; intros found n; [by rewrite Nat.add_0_r|]. rewrite find_loop_step.
  unfold candidates in *. cbn [omap list_omap]. destruct (eligible now e) as [v|]; [|apply IH].
  rewrite !filter_cons. destruct (decide (is_exact id v)); [done|]. intros H.
  destruct (decide (is_prefix id v)); rewrite IH by done; [|done]. rewrite last_cons. cbn [length].
  destruct (last _); f_equal; lia.
Qed.

Lemma findResult_spec (sort : list saved -> list saved) (now : Z) (id : string) (d : Directory) :
  snd (findResult sort now id (Some d)) =
  if ValidName id then
    let fresh := candidates now (pruneResults sort now d) in
    match filter (is_exact id) fresh, filter (is_prefix id) fresh with
    | v :: _, _ => Ok v
    | [], [v] => Ok v
    | [], [] => Err ErrNotFound
    | [], _ => Err (Errorf "ambiguous removed container ID")
    end
  else Err ErrNotFound.
Proof.
  unfold findResult. destruct (ValidName id); cbn [negb snd]; [|done]. cbv zeta.
  set (d' := pruneResults sort now d). pose proof (find_loop_exact now id d' None 0) as HE.
  destruct (filter (is_exact id) (candidates now d')) as [|v vs] eqn:Ex.
  - rewrite find_loop_prefix by done. destruct (filter (is_prefix id) (candidates now d')) as [|v [|w vs]]; [done|done|]. by destruct (last _).
  - destruct (find_loop now id d' None 0) as [[[]] ]; cbn in HE; by simplify_eq.
Qed.

(** [findResult] answers, after pruning, with the first fresh record whose
    identifier or name is the given one; otherwise with the only fresh record whose
    identifier it abbreviates; and it fails when there are several or none. *)
Theorem findResult_correct (sort : list saved -> list saved) (now : Z) (id : string) (d : Directory) :
  snd (findResult sort now id (Some d)) =
  if ValidName id then
    let fresh := candidates now (pruneResults sort now d) in
    match filter (is_exact id) fresh, filter (is_prefix id) fresh with
    | v :: _, _ => Ok v
    | [], [v] => Ok v
    | [], [] => Err ErrNotFound
    | [], _ => Err (Errorf "ambiguous removed container ID")
    end
  else Err ErrNotFound.
Proof. apply findResult_spec. Qed.

(** ** A saved result is found *)

Lemma elem_of_dir_insert (name : string) (f : RFile) (d : Directory) (e : string * RFile) :
  e ∈ dir_insert name f d <-> e = (name, f) \/ (e ∈ d /\ fst e <> name).
Proof.
  unfold dir_insert, dir_remove. transitivity (e = (name, f) \/ e ∈ filter (fun e => fst e <> name) d).
  - generalize (filter (fun e : string * RFile => fst e <> name) d). intros l.
    induction l as [|[n g] l IH]; cbn [dir_place]; [set_solver|]. destruct (String.leb name n); set_solver.
  - rewrite list_elem_of_filter. tauto.
Qed.

Lemma NoDup_dir_insert (name : string) (f : RFile) (d : Directory) :
  NoDup (fst <$> d) -> NoDup (fst <$> dir_insert name f d).
Proof.
  intros H. unfold dir_insert, dir_remove. assert (name ∉ (fst <$> filter (fun e => fst e <> name) d)) as Hn.
  { intros Hin. apply list_elem_of_fmap in Hin as (e & -> & He). by apply list_elem_of_filter in He as [He _]. }
  assert (NoDup (fst <$> filter (fun e : string * RFile => fst e <> name) d)) as H'.
  { eapply sublist_NoDup; [exact H|]. apply fmap_sublist, sublist_filter. }
  revert Hn H'. clear H. generalize (filter (fun e : string * RFile => fst e <> name) d). intros l Hn Hl.
  induction l as [|[n g] l IH]; cbn [dir_place].
  - constructor; [set_solver|constructor].
  - destruct (String.leb name n); [by constructor|]. cbn [fmap list_fmap fst] in *. apply NoDup_cons in Hl as [H1 H2].
    constructor; [|apply IH; set_solver].
    intros Hin. assert (n = name \/ n ∈ (fst <$> l)) as [->|?]; [|set_solver|done].
    clear -Hin. induction l as [|[k h] l IH]; cbn [dir_place] in Hin; [set_solver|].
    destruct (String.leb name k); set_solver.
Qed.

Lemma dir_lookup_elem (d : Directory) (name : string) (f : RFile) :
  NoDup (fst <$> d) -> dir_lookup d name = Some f <-> (name, f) ∈ d.
Proof.
  induction d as [|[n g] d IH]; intros H; cbn [dir_lookup]; [set_solver|].
  cbn [fmap list_fmap fst] in H. apply NoDup_cons in H as [Hn H]. case_bool_decide as E.
  - subst n. split; [intros [= ->]; set_solver|]. intros Hin. apply elem_of_cons in Hin as [[= ->]|Hin]; [done|].
    exfalso. apply Hn, list_elem_of_fmap. by exists (name, f).
  - rewrite IH by done. set_solver.
Qed.

Section RoundTrip.
Variable sort : list saved -> list saved.
Hypothesis sort_perm : forall l, sort l ≡ₚ l.
Hypothesis sort_sorted : forall l, StronglySorted (fun v w => sv_at v <= sv_at w) (sort l).

(** Pruning keeps the files of the most recent record, if it is fresh and fits. *)
Lemma prune_keeps_newest (now : Z) (d : Directory) (v : saved) :
  NoDup (fst <$> d) -> v ∈ scan d -> ~ expired now v -> sv_size v <= max_bytes ->
  (forall w, w ∈ scan d -> sv_id w <> sv_id v -> sv_at w < sv_at v) ->
  v ∈ scan (pruneResults sort now d) /\
  forall name, name ∈ record_files (sv_id v) -> dir_lookup (pruneResults sort now d) name = dir_lookup d name.
Proof.
  intros Hnd Hv He Hs Hnew.
  destruct (prune_split sort sort_perm now d Hnd) as (removed & kept & Hl & Hd & HP & _ & Hr).
  pose proof (sort_sorted (scan d)) as HS. pose proof (sort_perm (scan d)) as Hperm. rewrite Hl in HS, Hperm.
  assert (NoDup (sv_id <$> removed ++ kept)) as Hids by (rewrite Hperm; by apply scan_ids).
  assert (v ∉ removed) as Hn.
  { intros Hin. apply list_elem_of_split in Hin as (pre & post & ->). rewrite <-app_assoc in HS, Hperm, Hids. cbn in HS, Hperm, Hids.
    assert (post ++ kept = []) as E.
    { destruct (post ++ kept) as [|w rest] eqn:E; [done|]. exfalso. apply StronglySorted_app_r, StronglySorted_head in HS.
      apply Forall_cons in HS as [HS _]. assert (w ∈ scan d) as Hw by (rewrite <-Hperm; set_solver).
      assert (sv_id w <> sv_id v) as Hne; [|specialize (Hnew w Hw Hne); lia].
      intros Heq. rewrite fmap_app in Hids. apply NoDup_app in Hids as (_ & _ & Hids). cbn in Hids.
      apply NoDup_cons in Hids as [Hids _]. apply Hids. rewrite <-Heq. by left. }
    destruct (Hr pre v post eq_refl) as [H|[H|H]]; [done| |]; rewrite E in H; cbn in H;
      unfold sum_sizes, max_records, max_bytes in *; cbn in H; lia. }
  assert (v ∈ kept) as Hk by (rewrite <-Hperm in Hv; set_solver).
  split; [by rewrite HP|]. intros name Hname. rewrite Hd. apply lookup_removes. intros w Hw Hin.
  assert (sv_id w = sv_id v) as Heq by (eapply record_files_apart; [exact Hin|exact Hname]).
  rewrite fmap_app in Hids. apply NoDup_app in Hids as (_ & Hids & _). apply (Hids (sv_id w)).
  - apply list_elem_of_fmap. eauto.
  - rewrite Heq. apply list_elem_of_fmap. eauto.
Qed.

Lemma prune_sublist (now : Z) (d : Directory) : pruneResults sort now d `sublist_of` d.
Proof. apply removes_sublist. Qed.

Lemma NoDup_sublist (d d' : Directory) : d' `sublist_of` d -> NoDup (fst <$> d) -> NoDup (fst <$> d').
Proof. intros Hs H. eapply sublist_NoDup; [exact H|]. by apply fmap_sublist. Qed.

(** A fresh record that no other file claims answers a lookup by its identifier. *)
Lemma find_unique (now : Z) (d : Directory) (r : Saved) (f : RFile) :
  NoDup (fst <$> d) -> (r_ID r +:+ ".json", f) ∈ d -> rf_record f = Some r -> rf_regular f = true ->
  now - rf_modified f < resultRetention ->
  (forall e r', e ∈ d -> rf_record (snd e) = Some r' -> is_exact (r_ID r) r' -> fst e = r_ID r +:+ ".json") ->
  exists rest, filter (is_exact (r_ID r)) (candidates now d) = r :: rest.
Proof.
  intros Hnd Hin Hr Hreg Hfresh Huniq.
  assert (eligible now (r_ID r +:+ ".json", f) = Some r) as He.
  { unfold eligible. cbn [fst snd]. rewrite (proj2 (HasSuffix_spec _ _)) by eauto. rewrite Hreg.
    by rewrite (proj2 (Z.ltb_lt _ _) Hfresh). }
  assert (r ∈ filter (is_exact (r_ID r)) (candidates now d)) as Hmem.
  { apply list_elem_of_filter. split; [by left|]. apply list_elem_of_omap. eauto. }
  destruct (filter (is_exact (r_ID r)) (candidates now d)) as [|r' rest] eqn:E; [set_solver|]. exists rest. f_equal.
  assert (r' ∈ filter (is_exact (r_ID r)) (candidates now d)) as Hr' by (rewrite E; by left).
  apply list_elem_of_filter in Hr' as [Hx Hc]. apply list_elem_of_omap in Hc as (e & Hed & Hel).
  unfold eligible in Hel. destruct (_ && _); [|done]. pose proof (Huniq e r' Hed Hel Hx) as Hname.
  destruct e as [n g]. cbn in Hname, Hel. subst n.
  apply (dir_lookup_elem _ _ _ Hnd) in Hed, Hin. congruence.
Qed.

(** The bytes of a log after [os.Link]: an earlier link stays. *)
Definition log_size (E : SaveEnv) (d : Directory) (id suffix : string) : Z :=
  match dir_lookup d (id +:+ ".log" +:+ suffix) with
  | Some f => rf_size f
  | None => match se_log E suffix with Some (_, n) => n | None => 0 end
  end.

Lemma dir_lookup_insert (name n : string) (f : RFile) (d : Directory) :
  NoDup (fst <$> d) ->
  dir_lookup (dir_insert name f d) n = if bool_decide (n = name) then Some f else dir_lookup d n.
Proof.
  intros H. pose proof (NoDup_dir_insert name f d H) as H'. case_bool_decide as E.
  - subst n. apply dir_lookup_elem; [done|]. apply elem_of_dir_insert. by left.
  - apply option_eq. intros g. rewrite !dir_lookup_elem by done. rewrite elem_of_dir_insert. cbn. naive_solver.
Qed.

Lemma link_log_ok (E : SaveEnv) (id suffix : string) (d d1 : Directory) :
  NoDup (fst <$> d) -> link_log E id suffix d = Ok d1 ->
  NoDup (fst <$> d1) /\ file_size d1 (id +:+ ".log" +:+ suffix) = log_size E d id suffix /\
  (forall n, n <> id +:+ ".log" +:+ suffix -> dir_lookup d1 n = dir_lookup d n) /\
  (forall e, e ∈ d1 -> e ∈ d \/ (fst e = id +:+ ".log" +:+ suffix /\ rf_record (snd e) = None)).
Proof.
  intros Hnd. unfold link_log, file_size, log_size.
  destruct (se_log E suffix) as [[at_ n]|] eqn:El.
  2: { intros [= <-]. split_and!; auto. }
  destruct (dir_lookup d (id +:+ ".log" +:+ suffix)) as [f|] eqn:Ed.
  { intros [= <-]. rewrite Ed. split_and!; auto. }
  destruct (se_link E suffix); [done|]. intros [= <-]. split_and!.
  - by apply NoDup_dir_insert.
  - rewrite dir_lookup_insert, bool_decide_eq_true_2 by done. done.
  - intros k Hk. by rewrite dir_lookup_insert, bool_decide_eq_false_2 by done.
  - intros e He. apply elem_of_dir_insert in He as [->|[He _]]; [by right|by left].
Qed.

Lemma HasSuffix_json_log (a b q : string) (c : ascii) :
  c <> "n"%char -> a +:+ q +:+ String c "" <> b +:+ ".json".
Proof. intros Hc. by apply (last_char_ne a b q ".jso" c "n"). Qed.

(** The directory [saveResult] prunes. *)
Lemma saved_dir (E : SaveEnv) (id : string) (d d1 d2 : Directory) (f : RFile) :
  NoDup (fst <$> d) -> link_log E id "" d = Ok d1 -> link_log E id ".1" d1 = Ok d2 ->
  let d3 := dir_insert (id +:+ ".json") f d2 in
  NoDup (fst <$> d3) /\ (id +:+ ".json", f) ∈ d3 /\
  file_size d3 (id +:+ ".log") = log_size E d id "" /\ file_size d3 (id +:+ ".log.1") = log_size E d id ".1" /\
  (forall e, e ∈ d3 -> e = (id +:+ ".json", f) \/ (e ∈ d /\ fst e <> id +:+ ".json") \/
     (rf_record (snd e) = None /\ HasSuffix (fst e) ".json" = false)).
Proof.
  intros H0 L1 L2. destruct (link_log_ok _ _ _ _ _ H0 L1) as (H1 & S1 & K1 & M1).
  destruct (link_log_ok _ _ _ _ _ H1 L2) as (H2 & S2 & K2 & M2). cbv zeta.
  change (".log" +:+ "") with ".log" in *. change (".log" +:+ ".1") with ".log.1" in *.
  pose proof (last_char_ne id id ".lo" ".log." "g" "1" ltac:(done)) as N1. cbn in N1.
  pose proof (HasSuffix_json_log id id ".lo" "g" ltac:(done)) as N2. cbn in N2.
  pose proof (HasSuffix_json_log id id ".log." "1" ltac:(done)) as N3. cbn in N3.
  assert (forall q c, c <> "n"%char -> HasSuffix (id +:+ q +:+ String c "") ".json" = false) as NS.
  { intros q c Hc. apply not_true_iff_false. intros Hs. apply HasSuffix_spec in Hs as [t Ht].
    by apply (HasSuffix_json_log id t q c Hc). }
  split_and!.
  - by apply NoDup_dir_insert.
  - apply elem_of_dir_insert. by left.
  - unfold file_size in *. rewrite dir_lookup_insert, bool_decide_eq_false_2, K2 by done. done.
  - unfold file_size in *. rewrite dir_lookup_insert, bool_decide_eq_false_2, S2 by done.
    unfold log_size. change (".log" +:+ ".1") with ".log.1". by rewrite K1.
  - intros e He. apply elem_of_dir_insert in He as [->|[He Hne]]; [by left|].
    apply M2 in He as [He|[-> Hr]]; [apply M1 in He as [He|[-> Hr]]|]; [by auto| |].
    + right. right. split; [done|]. by apply (NS ".lo" "g"%char).
    + right. right. split; [done|]. by apply (NS ".log." "1"%char).
Qed.

(** A result that was saved is found: for a day after it was written,
    [findResult] with the sandbox's identifier returns the exit that [saveResult]
    stored, provided it is the most recent record, fits into the directory, and no
    other record claims the identifier. *)
Theorem save_find (E : SaveEnv) (written now later size : Z) (v : Sandbox) (exit : Exit) (d d' : Directory) :
  NoDup (fst <$> d) -> ValidName (sb_ID v) = true ->
  saveResult sort E written now size v exit (Some d) = (Some d', Ok tt) ->
  written <= now <= later -> later - written < resultRetention ->
  size + log_size E d (sb_ID v) "" + log_size E d (sb_ID v) ".1" <= max_bytes ->
  (forall name f, (name, f) ∈ d -> HasSuffix name ".json" = true -> name <> sb_ID v +:+ ".json" ->
     rf_modified f < written) ->
  (forall e r, e ∈ d -> rf_record (snd e) = Some r -> is_exact (sb_ID v) r -> fst e = sb_ID v +:+ ".json") ->
  snd (findResult sort later (sb_ID v) (Some d')) = Ok (mkSaved exit (sb_ID v) (sb_Name v)).
Proof.
  intros Hnd Hid Hsave Hnow Hfresh Hsize Hold Huniq. unfold saveResult in Hsave. cbn [from_option id] in Hsave.
  destruct (se_mkdir E); [done|]. destruct (link_log E (sb_ID v) "" d) as [d1|] eqn:L1; [|done].
  destruct (link_log E (sb_ID v) ".1" d1) as [d2|] eqn:L2; [|done]. destruct (se_write E); [done|].
  set (r := mkSaved exit (sb_ID v) (sb_Name v)) in *. set (f := mkRFile written size true (Some r)) in *.
  destruct (saved_dir E (sb_ID v) d d1 d2 f Hnd L1 L2) as (N3 & Hin & S1 & S2 & HM).
  set (d3 := dir_insert (sb_ID v +:+ ".json") f d2) in *. injection Hsave as <-.
  set (rec := mkSavedFile (sb_ID v) written (size + file_size d3 (sb_ID v +:+ ".log") + file_size d3 (sb_ID v +:+ ".log.1"))).
  assert (rec ∈ scan d3) as Hrec.
  { apply list_elem_of_omap. exists (sb_ID v +:+ ".json", f). split; [done|]. unfold scan_entry. cbn [fst snd].
    rewrite (proj2 (HasSuffix_spec _ _)) by eauto. by rewrite TrimSuffix_app. }
  assert (forall w, w ∈ scan d3 -> sv_id w <> sv_id rec -> sv_at w < sv_at rec) as Hnewest.
  { intros w Hw Hne. apply list_elem_of_omap in Hw as (e & He & Hse). apply scan_entry_Some in Hse as (En & -> & _).
    assert (fst e <> sb_ID v +:+ ".json") as Hn by (rewrite En; intros Hc; apply Hne; by apply suffix_inj in Hc).
    assert (HasSuffix (fst e) ".json" = true) as Hj by (rewrite En; apply HasSuffix_spec; eauto).
    apply HM in He as [->|[[He _]|[_ He]]]; [done| |congruence]. by apply (Hold (fst e)); [destruct e|..]. }
  assert (sv_size rec <= max_bytes) as Hfits by (unfold rec; cbn [sv_size]; rewrite S1, S2; lia).
  assert (forall t, t <= later -> ~ expired t rec) as Hlive by (unfold expired, rec; cbn [sv_at]; lia).
  destruct (prune_keeps_newest now d3 rec N3 Hrec (Hlive now ltac:(lia)) Hfits Hnewest) as [Hrec' Hkeep].
  set (d4 := pruneResults sort now d3) in *. pose proof (prune_sublist now d3 : d4 `sublist_of` d3) as Hsub4.
  pose proof (NoDup_sublist _ _ Hsub4 N3) as N4.
  destruct (prune_keeps_newest later d4 rec N4 Hrec' (Hlive later ltac:(lia)) Hfits) as [_ Hkeep'].
  { intros w Hw. apply Hnewest. unfold d4, pruneResults in Hw. rewrite scan_removes in Hw.
    by apply list_elem_of_filter in Hw as [_ Hw]. }
  set (d5 := pruneResults sort later d4) in *. pose proof (prune_sublist later d4 : d5 `sublist_of` d4) as Hsub5.
  pose proof (NoDup_sublist _ _ Hsub5 N4) as N5.
  assert (sb_ID v +:+ ".json" ∈ record_files (sv_id rec)) as Hfile by by left.
  rewrite findResult_spec, Hid. cbv zeta. fold d5.
  destruct (find_unique later d5 r f) as [rest Hf]; [done| |done|done|cbn [rf_modified f]; lia| |].
  - apply (dir_lookup_elem _ _ _ N5). rewrite Hkeep', Hkeep by done. by apply (dir_lookup_elem _ _ _ N3).
  - intros e r' He Hr' Hx. assert (e ∈ d3) as He3.
    { eapply elem_of_sublist; [eapply elem_of_sublist|]; eauto. }
    apply HM in He3 as [->|[[He3 _]|[He3 _]]]; [done|by eapply Huniq|congruence].
  - change (r_ID r) with (sb_ID v) in Hf. by rewrite Hf.
Qed.
End RoundTrip.

(** A sort by time. *)
Definition older (v w : saved) : Prop := sv_at v <= sv_at w.
#[export] Instance older_dec v w : Decision (older v w).
Proof. unfold older. apply _. Defined.
#[export] Instance older_total : Total older.
Proof. intros v w. unfold older. lia. Qed.
#[export] Instance older_trans : Transitive older.
Proof. intros u v w. unfold older. lia. Qed.
Definition by_time : list saved -> list saved := merge_sort older.

Definition old_dir : Directory :=
  [("a.json", mkRFile 5 40 true (Some (mkSaved (mkExit (Some 0) "" false 5) "a" "old")));
   ("a.log", mkRFile 5 100 true None)].

Lemma prune_bounds_witness :
  NoDup (fst <$> old_dir) /\ sum_sizes (scan (pruneResults by_time 10 old_dir)) <= max_bytes.
Proof.
  assert (NoDup (fst <$> old_dir)) as H by (apply (bool_decide_unpack _); vm_compute; exact I).
  split; [exact H|].
  apply (prune_bounds by_time (merge_sort_Permutation older) (StronglySorted_merge_sort older) 10 old_dir H).
Defined.

Definition gone_sandbox : Sandbox :=
  mkSandbox "b1" "web" DefaultSpec (mkProcess [] [] "" "" "" false false) "" "" "exited" "" [] 0 0 0 None 0 "" 0 1 false.

Lemma save_find_witness :
  exists d', saveResult by_time (mkSaveEnv None (fun _ => None) (fun _ => None) None) 10 11 40 gone_sandbox
               (mkExit (Some 3) "" false 10) (Some old_dir) = (Some d', Ok tt) /\
    snd (findResult by_time 12 "b1" (Some d')) = Ok (mkSaved (mkExit (Some 3) "" false 10) "b1" "web").
Proof.
  eexists. split; [reflexivity|].
  eapply (save_find by_time (merge_sort_Permutation older) (StronglySorted_merge_sort older)
           (mkSaveEnv None (fun _ => None) (fun _ => None) None) 10 11 12 40 gone_sandbox _ old_dir).
  - apply (bool_decide_unpack _). vm_compute. exact I.
  - reflexivity.
  - reflexivity.
  - lia.
  - unfold resultRetention. lia.
  - vm_compute. discriminate.
  - intros name f Hin _ _. unfold old_dir in Hin. rewrite !elem_of_cons, elem_of_nil in Hin.
    destruct Hin as [[= -> ->]|[[= -> ->]|[]]]; reflexivity.
  - intros e r Hin Hr Hx. unfold old_dir in Hin. rewrite !elem_of_cons, elem_of_nil in Hin.
    destruct Hin as [->|[->|[]]]; [|discriminate Hr]. injection Hr as <-. destruct Hx as [Hx|Hx]; discriminate Hx.
Defined.
