(* ===== verification/DaemonSem.v ===== *)
(** * DaemonSem: the world of the host service and its atomic operations

    The handlers of internal/daemon run concurrently.  A handler is a program
    over atomic operations ([Prog]); this file defines the operations, the
    world they act on and their effect.  One operation is one critical section
    of the code: a store call (serialised by the store's mutex and its
    transaction), taking or releasing a named lock of [Daemon.lock], a section
    under [d.mu], or a call to something outside the daemon (the VM backend,
    the network, images, disks, time).  What an outside call returns is given
    by an environment [Env], a function of the time of the call, so that a
    theorem for every environment covers every behaviour; a database error can
    be injected at every store call. *)

From S2P Require Import Prelude GoLib Api State Oci Base.
Local Open Scope Z_scope.

(** ** Configuration and credentials *)

Record DaemonConfig : Type := mkDaemonConfig {
  cfg_Root : string;
  cfg_Socket : string;
  cfg_SocketGroup : string;
  cfg_Firecracker : string;
  cfg_Jailer : string;
  cfg_DefaultBase : string;
  cfg_TrustedKeys : gmap string string;
  cfg_DNSUpstream : string;
  cfg_BootTimeoutSeconds : Z
}.

(** [DefaultConfig] *)
Definition DefaultConfig : DaemonConfig :=
  mkDaemonConfig "/var/lib/niflhel" "/run/niflhel/niflhel.sock" "" "/usr/local/bin/firecracker"
    "/usr/local/bin/jailer" "" ∅ "1.1.1.1:53" 60.

(** [Config.Validate] *)
Definition ValidateDaemonConfig (c : DaemonConfig) : result unit :=
  (let* _ := all_ok (fun p => if negb (Path.IsAbs p)
                              then Err (Errorf "configured paths must be absolute") else Ok tt)
               [cfg_Root c; cfg_Socket c; cfg_Firecracker c; cfg_Jailer c] in
   guard negb ((cfg_BootTimeoutSeconds c <? 1) || (600 <? cfg_BootTimeoutSeconds c))
     else Errorf "invalid boot timeout" in
   Ok tt)%go.

(** [Load]: the defaults, overwritten by the file ([json.Unmarshal] decodes into
    the given configuration). *)
Definition Load (file : result string) (unmarshal : string -> DaemonConfig -> result DaemonConfig) :
    result DaemonConfig :=
  (let* b := file in
   let* c := unmarshal b DefaultConfig in
   let* _ := ValidateDaemonConfig c in
   Ok c)%go.

Record Auth : Type := mkAuth { au_App : option string; au_Base : option string }.

(** ** The world *)

(** The shared state on which safety depends: the database, the named locks
    with the thread that holds each, and two auxiliary sets.  [live] holds the
    sandboxes for which the backend was asked to start a VMM and no later kill
    was confirmed; [holders] those whose row was moved to [starting] and no
    later kill was confirmed. *)
Record Core : Type := mkCore {
  db : DB;
  locks : gmap string nat;
  holders : gset string;
  live : gset string
}.

(** Calls to the outside, recorded in order with their success. *)
Inductive call : Type :=
| CKill (id : string) (ok : bool)
| CNetPrepare (id : string) (ok : bool)
| CNetRemove (id : string) (ok : bool)
| CVMStart (id : string) (ok : bool)
| CVMRemove (id : string) (ok : bool)
| CGuest (id : string) (q : Request) (ok : bool)
| CDisk (path : string) (ok : bool)
| CRemoveFile (path : string)
| CRemoveAll (path : string) (ok : bool)
| CDelete (id : string) (ok : bool)
| CSaveResult (id : string) (ok : bool)
| CLog (id kind data : string)
| CSleep.

Record World : Type := mkWorld {
  core : Core;
  tick : nat;
  dns : gset string;                  (* d.dns: sandboxes with a DNS server *)
  ports : gmap string (list Port);    (* d.ports: listeners held per sandbox *)
  monitors : gmap string Z;           (* d.monitors: generation monitored *)
  spawned : list Sandbox;             (* monitor goroutines started *)
  trace : list call
}.

Definition set_core (c : Core) (w : World) : World :=
  mkWorld c (tick w) (dns w) (ports w) (monitors w) (spawned w) (trace w).
Definition set_db (d : DB) (c : Core) : Core := mkCore d (locks c) (holders c) (live c).
Definition set_locks (l : gmap string nat) (c : Core) : Core := mkCore (db c) l (holders c) (live c).
Definition set_holders (h : gset string) (c : Core) : Core := mkCore (db c) (locks c) h (live c).
Definition set_live (l : gset string) (c : Core) : Core := mkCore (db c) (locks c) (holders c) l.
Definition next_tick (w : World) : World :=
  mkWorld (core w) (S (tick w)) (dns w) (ports w) (monitors w) (spawned w) (trace w).
Definition set_dns (d : gset string) (w : World) : World :=
  mkWorld (core w) (tick w) d (ports w) (monitors w) (spawned w) (trace w).
Definition set_ports (p : gmap string (list Port)) (w : World) : World :=
  mkWorld (core w) (tick w) (dns w) p (monitors w) (spawned w) (trace w).
Definition set_monitors (m : gmap string Z) (s : list Sandbox) (w : World) : World :=
  mkWorld (core w) (tick w) (dns w) (ports w) m s (trace w).
Definition record_call (c : call) (w : World) : World :=
  mkWorld (core w) (tick w) (dns w) (ports w) (monitors w) (spawned w) (trace w ++ [c]).

Definition rows (c : Core) : gmap string Row := sandboxes (db c).

(** ** The environment: results of outside calls, by time *)

Record Env : Type := mkEnv {
  e_db : nat -> option error;                        (* an SQLite failure *)
  e_now : nat -> Z;
  e_random : nat -> nat -> N;
  e_meminfo : nat -> result string;                  (* the text of /proc/meminfo *)
  e_check : nat -> result unit;                      (* VM.Check *)
  e_vm_start : nat -> Sandbox -> Bundle -> Z * string * option error;
  e_vm_ready : nat -> Sandbox -> result unit;
  e_vm_client : nat -> Sandbox -> result unit;
  e_vm_kill : nat -> Sandbox -> result unit;
  e_vm_remove : nat -> Sandbox -> result unit;
  e_alive : nat -> Sandbox -> bool;                  (* firecracker.Alive *)
  e_guest : nat -> Sandbox -> Request -> result unit; (* control calls *)
  e_logs : nat -> Sandbox -> Z -> result (list Frame);
  e_status : nat -> Sandbox -> result GuestStatus;
  e_net_prepare : nat -> Sandbox -> result unit;
  e_net_remove : nat -> Sandbox -> result unit;
  e_dns : nat -> Sandbox -> result unit;             (* network.For and network.DNS *)
  e_listen : nat -> Port -> bool;                    (* net.Listen *)
  e_image_pull : nat -> string -> string -> Auth -> result Image;
  e_image_get : nat -> string -> result Image;
  e_image_list : nat -> result (list Image);
  e_image_remove : nat -> string -> result unit;
  e_base_pull : nat -> string -> string -> Auth -> result Bundle;
  e_base_get : nat -> string -> result Bundle;
  e_base_list : nat -> result (list Bundle);
  e_base_push : nat -> string -> Auth -> result unit;
  e_base_remove : nat -> string -> result unit;
  e_fs : nat -> string -> result unit;               (* mkdir, write, unlink *)
  e_mktemp : nat -> string -> result string;         (* os.MkdirTemp *)
  e_carrier : nat -> string -> Image -> result unit; (* Images.Carrier *)
  e_cursor : nat -> Sandbox -> Z;                    (* the saved log cursor, 0 if none *)
  e_session : nat -> Sandbox -> Request -> result (list Frame); (* frames an exec session sends *)
  e_disk : nat -> string -> Z -> string -> result unit; (* Storage.Disk *)
  e_save_result : nat -> string -> result unit;
  e_find_result : nat -> string -> result (string * Exit);  (* its ID and exit *)
  e_read_log : nat -> string -> Z -> list Frame;     (* Journal.Read *)
  e_ctx_done : nat -> bool
}.

(** ** Operations *)

Inductive Op : Type -> Type :=
| OLock (l : string) : Op unit
| OUnlock (l : string) : Op unit
| OList : Op (result (list Sandbox))
| OGet (id : string) : Op (result Sandbox)
| OCreate (v : Sandbox) : Op (result unit)
| OUpdate (id : string) (fn : Sandbox -> result Sandbox) : Op (result unit)
| OIntent (id action : string) : Op (result unit)
| ODelete (id : string) : Op (result unit)
| OVolume (name : string) : Op (result Volume)
| OVolumes : Op (result (list Volume))
| OPutVolume (v : Volume) : Op (result unit)
| ODeleteVolume (name : string) : Op (result unit)
| ONow : Op Z
| ONewID : Op string
| OMeminfo : Op (result string)
| OVMCheck : Op (result unit)
| OVMStart (v : Sandbox) (b : Bundle) : Op (Z * string * option error)
| OVMReady (v : Sandbox) : Op (result unit)
| OVMClient (v : Sandbox) : Op (result unit)
| OVMKill (v : Sandbox) : Op (result unit)
| OVMRemove (v : Sandbox) : Op (result unit)
| OAlive (v : Sandbox) : Op bool
| OGuest (v : Sandbox) (q : Request) : Op (result unit)
| OLogs (v : Sandbox) (cursor : Z) : Op (result (list Frame))
| OStatus (v : Sandbox) : Op (result GuestStatus)
| ONetPrepare (v : Sandbox) : Op (result unit)
| ONetRemove (v : Sandbox) : Op (result unit)
| OStartDNS (v : Sandbox) : Op (result unit)
| OStopDNS (id : string) : Op unit
| OReservePorts (v : Sandbox) : Op (result unit)
| OMonitor (v : Sandbox) : Op unit
| OMonitorDone (v : Sandbox) : Op unit
| OImagePull (ref policy : string) (auth : Auth) : Op (result Image)
| OImageGet (ref : string) : Op (result Image)
| OImageList : Op (result (list Image))
| OImageRemove (ref : string) : Op (result unit)
| OBasePull (ref policy : string) (auth : Auth) : Op (result Bundle)
| OBaseGet (ref : string) : Op (result Bundle)
| OBaseList : Op (result (list Bundle))
| OBasePush (ref : string) (auth : Auth) : Op (result unit)
| OBaseRemove (ref : string) : Op (result unit)
| OFs (path : string) : Op (result unit)
| OMkTemp (dir : string) : Op (result string)
| OCarrier (dir : string) (img : Image) : Op (result unit)
| OCursor (v : Sandbox) : Op Z
| OSession (v : Sandbox) (q : Request) : Op (result (list Frame))
| ODisk (path : string) (size : Z) (source : string) : Op (result unit)
| ORemoveFile (path : string) : Op (result unit)
| ORemoveAll (path : string) : Op (result unit)
| OLogWrite (id kind data : string) : Op unit
| OReadLog (path : string) (cursor : Z) : Op (list Frame)
| OSaveResult (v : Sandbox) (exit : Exit) : Op (result unit)
| OFindResult (id : string) : Op (result (string * Exit))
| OCtxDone : Op bool
| OSleep : Op unit.

(** ** Effects *)

Definition is_starting (v : Sandbox) : bool := bool_decide (sb_State v = "starting").

(** The auxiliary set [holders] after the row of [id] changed from [r] to
    [r']. *)
Definition claim (id : string) (m m' : gmap string Row) (h : gset string) : gset string :=
  match m !! id, m' !! id with
  | Some r, Some r' =>
      if negb (is_starting (r_body r)) && is_starting (r_body r') then {[id]} ∪ h else h
  | _, _ => h
  end.

(** Opening the listeners of a sandbox in order; a failure gives all up. *)
Definition reserve (E : Env) (n : nat) (w : World) (v : Sandbox) : World * result unit :=
  match ports w !! sb_ID v with
  | Some (_ :: _) => (w, Ok tt)
  | _ =>
      if forallb (e_listen E n) (s_Ports (sb_Spec v))
      then (set_ports (<[sb_ID v := s_Ports (sb_Spec v)]> (ports w)) w, Ok tt)
      else (w, Err (Errorf "host port unavailable: %w"))
  end.

(** [Daemon.startDNS], after [network.For] and [network.DNS] answered [e_dns]. *)
Definition start_dns (E : Env) (n : nat) (w : World) (v : Sandbox) : World * result unit :=
  if bool_decide (sb_ID v ∈ dns w) then (w, Ok tt)
  else match e_dns E n v with
       | Ok _ => (set_dns ({[sb_ID v]} ∪ dns w) w, Ok tt)
       | Err e => (w, Err e)
       end.

(** [Daemon.stopDNS] *)
Definition stop_dns (w : World) (id : string) : World :=
  set_ports (delete id (ports w)) (set_dns (dns w ∖ {[id]}) w).

(** The two critical sections of [Daemon.monitor]; a missing map entry reads as
    generation 0. *)
Definition monitor_enter (w : World) (v : Sandbox) : World :=
  if default 0 (monitors w !! sb_ID v) =? sb_Generation v then w
  else set_monitors (<[sb_ID v := sb_Generation v]> (monitors w)) (spawned w ++ [v]) w.
Definition monitor_leave (w : World) (v : Sandbox) : World :=
  if default 0 (monitors w !! sb_ID v) =? sb_Generation v
  then set_monitors (delete (sb_ID v) (monitors w)) (spawned w) w
  else w.

Section Exec.
Variable E : Env.

(** A store call: an injected database error leaves everything unchanged. *)
Definition db_call {A} (n : nat) (w : World) (f : Core -> Core * result A) : World * result A :=
  match e_db E n with
  | Some e => (w, Err e)
  | None => let '(c, r) := f (core w) in (set_core c w, r)
  end.

(** A store statement that succeeds with a new database or fails. *)
Definition db_write (r : result DB) (upd : DB -> Core -> Core) (c : Core) : Core * result unit :=
  match r with Ok d => (upd d c, Ok tt) | Err e => (c, Err e) end.

Definition db_read {A} (f : DB -> result A) (c : Core) : Core * result A := (c, f (db c)).

(** The effect of one operation by thread [t]; [None] when it has to wait for a
    lock. *)
Definition exec (t : nat) {R} (op : Op R) (w0 : World) : option (World * R) :=
  let n := tick w0 in
  let w := next_tick w0 in
  match op in Op R return option (World * R) with
  | OLock l =>
      match locks (core w) !! l with
      | None => Some (set_core (set_locks (<[l := t]> (locks (core w))) (core w)) w, tt)
      | Some _ => None
      end
  | OUnlock l =>
      match locks (core w) !! l with
      | Some t' =>
          if (t' =? t)%nat
          then Some (set_core (set_locks (delete l (locks (core w))) (core w)) w, tt)
          else None
      | None => None
      end
  | OList => Some (db_call n w (db_read (fun d => Ok (List d))))
  | OGet id => Some (db_call n w (db_read (fun d => Get d id)))
  | OCreate v => Some (db_call n w (fun c => db_write (Create (db c) (e_now E n) v) set_db c))
  | OUpdate id fn =>
      Some (db_call n w (fun c =>
        db_write (Update (db c) (e_now E n) id fn)
          (fun d c => set_holders (claim id (rows c) (sandboxes d) (holders c)) (set_db d c)) c))
  | OIntent id action =>
      Some (db_call n w (fun c => db_write (Ok (Intent (db c) (e_now E n) id action)) set_db c))
  | ODelete id =>
      let '(w', r) := db_call n w (fun c => db_write (Ok (Delete (db c) id)) set_db c) in
      Some (record_call (CDelete id (is_ok r)) w', r)
  | OVolumes => Some (db_call n w (db_read (fun d => Ok (Volumes d))))
  | OVolume name => Some (db_call n w (db_read (fun d => GetVolume d name)))
  | OPutVolume v => Some (db_call n w (fun c => db_write (PutVolume (db c) v) set_db c))
  | ODeleteVolume name =>
      Some (db_call n w (fun c => db_write (Ok (DeleteVolume (db c) name)) set_db c))
  | ONow => Some (w, e_now E n)
  | ONewID => Some (w, ID (e_random E n))
  | OMeminfo => Some (w, e_meminfo E n)
  | OVMCheck => Some (w, e_check E n)
  | OVMStart v b =>
      let r := e_vm_start E n v b in
      Some (record_call (CVMStart (sb_ID v) (bool_decide (r.2 = None)))
              (set_core (set_live ({[sb_ID v]} ∪ live (core w)) (core w)) w), r)
  | OVMReady v => Some (w, e_vm_ready E n v)
  | OVMClient v => Some (w, e_vm_client E n v)
  | OVMKill v =>
      let r := e_vm_kill E n v in
      let w := record_call (CKill (sb_ID v) (is_ok r)) w in
      match r with
      | Ok _ =>
          Some (set_core (set_live (live (core w) ∖ {[sb_ID v]})
                  (set_holders (holders (core w) ∖ {[sb_ID v]}) (core w))) w, r)
      | Err _ => Some (w, r)
      end
  | OVMRemove v =>
      let r := e_vm_remove E n v in Some (record_call (CVMRemove (sb_ID v) (is_ok r)) w, r)
  | OAlive v => Some (w, e_alive E n v)
  | OGuest v q =>
      let r := e_guest E n v q in Some (record_call (CGuest (sb_ID v) q (is_ok r)) w, r)
  | OLogs v cursor => Some (w, e_logs E n v cursor)
  | OStatus v => Some (w, e_status E n v)
  | ONetPrepare v =>
      let r := e_net_prepare E n v in Some (record_call (CNetPrepare (sb_ID v) (is_ok r)) w, r)
  | ONetRemove v =>
      let r := e_net_remove E n v in Some (record_call (CNetRemove (sb_ID v) (is_ok r)) w, r)
  | OStartDNS v => Some (start_dns E n w v)
  | OStopDNS id => Some (stop_dns w id, tt)
  | OReservePorts v => Some (reserve E n w v)
  | OMonitor v => Some (monitor_enter w v, tt)
  | OMonitorDone v => Some (monitor_leave w v, tt)
  | OImagePull ref policy auth => Some (w, e_image_pull E n ref policy auth)
  | OImageGet ref => Some (w, e_image_get E n ref)
  | OImageList => Some (w, e_image_list E n)
  | OImageRemove ref => Some (w, e_image_remove E n ref)
  | OBasePull ref policy auth => Some (w, e_base_pull E n ref policy auth)
  | OBaseGet ref => Some (w, e_base_get E n ref)
  | OBaseList => Some (w, e_base_list E n)
  | OBasePush ref auth => Some (w, e_base_push E n ref auth)
  | OBaseRemove ref => Some (w, e_base_remove E n ref)
  | OFs path => Some (w, e_fs E n path)
  | OMkTemp dir => Some (w, e_mktemp E n dir)
  | OCarrier dir img => Some (w, e_carrier E n dir img)
  | OCursor v => Some (w, e_cursor E n v)
  | OSession v q => Some (w, e_session E n v q)
  | ODisk path size source =>
      let r := e_disk E n path size source in Some (record_call (CDisk path (is_ok r)) w, r)
  | ORemoveFile path => Some (record_call (CRemoveFile path) w, e_fs E n path)
  | ORemoveAll path =>
      let r := e_fs E n path in Some (record_call (CRemoveAll path (is_ok r)) w, r)
  | OLogWrite id kind data => Some (record_call (CLog id kind data) w, tt)
  | OReadLog path cursor => Some (w, e_read_log E n path cursor)
  | OSaveResult v exit =>
      let r := e_save_result E n (sb_ID v) in
      Some (record_call (CSaveResult (sb_ID v) (is_ok r)) w, r)
  | OFindResult id => Some (w, e_find_result E n id)
  | OCtxDone => Some (w, e_ctx_done E n)
  | OSleep => Some (record_call CSleep w, tt)
  end.
End Exec.

(** ** Programs *)

Inductive Prog (A : Type) : Type :=
| Ret (a : A)
| Do {R : Type} (op : Op R) (k : R -> Prog A).
Arguments Ret {A} a.
Arguments Do {A R} op k.

Fixpoint bind {A B} (p : Prog A) (f : A -> Prog B) : Prog B :=
  match p with
  | Ret a => f a
  | Do op k => Do op (fun r => bind (k r) f)
  end.

Declare Scope prog_scope.
Delimit Scope prog_scope with prog.
Notation "'do' x <- op ; k" := (Do op (fun x => k))
  (at level 10, x name, op at level 99, k at level 200, format "'do'  x  <-  op ;  '//' k") : prog_scope.
Notation "'run' x <- p ; k" := (bind p (fun x => k))
  (at level 10, x pattern, p at level 99, k at level 200, format "'run'  x  <-  p ;  '//' k") : prog_scope.
(** [x, e := op; if e != nil { return h(e) }] *)
Notation "'try' x <- op 'else' h ; k" :=
  (Do op (fun r => match r with Ok x => k | Err e => h e end))
  (at level 10, x pattern, op at level 99, h at level 99, k at level 200,
   format "'try'  x  <-  op  'else'  h ;  '//' k") : prog_scope.

(** [unlock := d.lock(l); defer unlock()] around a body. *)
Definition with_lock {A} (l : string) (p : Prog A) : Prog A :=
  (do _ <- OLock l; run r <- p; do _ <- OUnlock l; Ret r)%prog.

(** One step of a thread. *)
Definition step (E : Env) (t : nat) {A} (p : Prog A) (w : World) : option (World * Prog A) :=
  match p with
  | Ret _ => None
  | Do op k => match exec E t op w with Some (w', r) => Some (w', k r) | None => None end
  end.

(** Running one program alone to its end. *)
Fixpoint run_alone (E : Env) (t : nat) {A} (p : Prog A) (w : World) : option (World * A) :=
  match p with
  | Ret a => Some (w, a)
  | Do op k => match exec E t op w with Some (w', r) => run_alone E t (k r) w' | None => None end
  end.
