(* ===== verification/Daemon.v ===== *)
(** * Daemon: the handlers of the host service (internal/daemon)

    One definition per handler of daemon.go, handler.go, budget.go and
    validate.go, as programs over the operations of [DaemonSem].  A function of
    the source that returns [(api.Sandbox, error)] returns a pair of a sandbox
    and an optional error, since callers use the sandbox also after a failure.

    Loops that wait for a timer carry their number of timer firings as an
    argument ([polls], [drains]): it is the number of times the timer fires
    before the context of the loop is done, and every theorem quantifies over
    it.  That such a loop ends is therefore not a result: what is proved is what
    it does with any number of firings, and where it stops before they run out. *)

From S2P Require Import Prelude GoLib Api State Fsutil Oci Base Storage DaemonSem.
Import Strings Path.
Local Open Scope Z_scope.
Local Open Scope prog_scope.

(** ** Budget (budget.go) *)

(** [memoryBudget] *)
Definition memoryBudget (reserved available : Z) : result unit :=
  if (available <? 256 * MiB) || (int64 (available - 256 * MiB) <? reserved)
  then Err (Errorf "insufficient available host memory for reserved VM envelopes (including 256 MiB host reserve)")
  else Ok tt.

(** The scan of /proc/meminfo; a line of 64 KiB or more ends it. *)
Fixpoint scan_meminfo (lines : list string) : result Z :=
  match lines with
  | [] => Err (Errorf "MemAvailable missing")
  | line :: lines =>
      if 65536 <=? Z.of_nat (String.length line) then Err (Errorf "MemAvailable missing")
      else match Fields line with
           | key :: value :: _ =>
               if bool_decide (key = "MemAvailable:")
               then match Strconv.ParseInt value with
                    | Ok n => Ok (int64 (n * 1024))
                    | Err e => Err e
                    end
               else scan_meminfo lines
           | _ => scan_meminfo lines
           end
  end.

(** [availableMemory] *)
Definition availableMemory : Prog (result Z) :=
  try text <- OMeminfo else fun e => Ret (Err e);
  Ret (scan_meminfo (Split text "010"%char)).

(** ** Helpers of daemon.go *)

(** [reservesVMResources] *)
Definition reservesVMResources (v : Sandbox) : bool :=
  if bool_decide (sb_State v = "starting") || bool_decide (sb_State v = "running") ||
     bool_decide (sb_State v = "stopping") then true
  else if bool_decide (sb_State v = "failed") then negb (sb_VMResourcesReleased v)
  else false.

Definition zero_spec : Spec :=
  mkSpec "" "" "" [] None [] "" "" 0 0 0 0 "" [] [] "" "" "" false false false false.
Definition zero_sandbox : Sandbox :=
  mkSandbox "" "" zero_spec empty_process "" "" "" "" [] 0 0 0 None 0 "" 0 0 false.

(** The loop of [Create] over the existing sandboxes: a name or host port in
    use is refused. *)
Definition port_conflict (s : Spec) (x : Sandbox) : bool :=
  existsb (fun p => existsb (fun q => p_HostPort p =? p_HostPort q) (s_Ports (sb_Spec x))) (s_Ports s).

Definition check_existing (s : Spec) (all : list Sandbox) : result unit :=
  all_ok (fun x =>
    if bool_decide (sb_Name x = s_Name s) && negb (bool_decide (s_Name s = ""))
    then Err (Errorf "name already exists")
    else if port_conflict s x then Err (Errorf "host port %d is reserved") else Ok tt) all.

(** [slot := 1; for used[slot] { slot++ }]; one more round than there are used
    slots is enough. *)
Fixpoint next_slot (used : gset Z) (slot : Z) (fuel : nat) : Z :=
  match fuel with
  | O => slot
  | S fuel => if bool_decide (slot ∈ used) then next_slot used (slot + 1) fuel else slot
  end.

Definition find_slot (all : list Sandbox) : Z :=
  next_slot (list_to_set (sb_Slot <$> all)) 1 (S (length all)).

(** Every mounted volume has to exist. *)
Fixpoint check_volumes (ms : list Mount) : Prog (result unit) :=
  match ms with
  | [] => Ret (Ok tt)
  | m :: ms => try _ <- OVolume (m_Name m) else fun e => Ret (Err e); check_volumes ms
  end.

(** [v.GuestMemory = ((s.Memory+api.MiB-1)/api.MiB + reserve) * api.MiB] *)
Definition guest_memory (memory reserve : Z) : Z :=
  int64 (int64 (int64 (int64 (memory + MiB) - 1) ÷ MiB + reserve) * MiB).

Definition image_warnings (c : ImageConfig) : list string :=
  (if ic_Healthcheck c then ["image healthcheck is unsupported in phase one"] else []) ++
  (match ic_Volumes c with
   | [] => []
   | _ => ["image VOLUME paths remain in writable root unless explicitly mounted: %v"]
   end).

(** [%v] of an error that may be nil. *)
Definition err_value (r : result unit) : string :=
  match r with Ok _ => "<nil>" | Err e => error_text e end.

(** The volume check of [Start] against the sandboxes that hold resources. *)
Definition shares_volume (v x : Sandbox) : bool :=
  existsb (fun m => existsb (fun n => bool_decide (m_Name m = m_Name n)) (s_Mounts (sb_Spec x)))
    (s_Mounts (sb_Spec v)).

Definition start_conflict (v : Sandbox) (all : list Sandbox) : bool :=
  existsb (fun x => negb (bool_decide (sb_ID x = sb_ID v) || negb (reservesVMResources x)) &&
                    shares_volume v x) all.

(** The memory of the new VM and of every VM that holds resources. *)
Definition reserved_memory (v : Sandbox) (all : list Sandbox) : Z :=
  fold_left (fun n x => if reservesVMResources x
                        then int64 (n + int64 (sb_GuestMemory x + 64 * MiB)) else n)
    all (int64 (sb_GuestMemory v + 64 * MiB)).

(** The requests to the agent of a guest.  A start names its operation by the
    identifier and the generation of the sandbox. *)
Definition guest_request (action : string) : Request :=
  mkRequest action "" "" None None None "" "" false "" 0 "" "".
Definition start_request (v : Sandbox) : Request :=
  mkRequest "start" "" (sb_ID v +:+ "-" +:+ Strconv.Itoa (sb_Generation v)) None None None "" "" false "" 0 "" "".
Definition stop_request (seconds : Z) : Request :=
  mkRequest "stop" "" "" None None None "" "" false "" seconds "" "".
Definition signal_request (sig : string) : Request :=
  mkRequest "signal" "" "" None None None "" "" false sig 0 "" "".

Section Handlers.
Variable cfg : DaemonConfig.

(** [Daemon.dir] *)
Definition dir (id : string) : string := JoinPath [cfg_Root cfg; "sandboxes"; id].

(** ** Create *)

(** The closure [fail] of [Create]. *)
Definition create_fail (v : Sandbox) (err : error) : Prog (Sandbox * option error) :=
  do _ <- ORemoveFile (JoinPath [dir (sb_ID v); "app.ext4"]);
  do _ <- ORemoveFile (JoinPath [dir (sb_ID v); "state.ext4"]);
  do _ <- OUpdate (sb_ID v) (fun x => Transition x "failed" (error_text err));
  Ret (v, Some err).

(** Disks and the final record, with the carrier directory [tmp] at hand. *)
Definition create_disks (v : Sandbox) (img : Image) (tmp : string) : Prog (Sandbox * option error) :=
  try _ <- OCarrier tmp img else create_fail v;
  try _ <- ODisk (JoinPath [dir (sb_ID v); "app.ext4"]) (CarrierSize (layers_size (i_Layers img))) tmp
    else create_fail v;
  try _ <- ODisk (JoinPath [dir (sb_ID v); "state.ext4"]) (s_DiskSize (sb_Spec v)) ""
    else create_fail v;
  let v := set_State "created" v in
  try _ <- OUpdate (sb_ID v) (fun _ => Ok v) else create_fail v;
  Ret (v, None).

(** After the record exists: images, base, process and memory. *)
Definition create_prepare (v : Sandbox) (s : Spec) (auth : Auth) : Prog (Sandbox * option error) :=
  try _ <- OFs (dir (sb_ID v)) else create_fail v;
  do _ <- OIntent (sb_ID v) "prepare-images";
  try img <- OImagePull (s_Image s) (s_Pull s) auth else create_fail v;
  try b <- OBasePull (s_Base s) (s_Pull s) auth else create_fail v;
  match Resolve s (i_Config img) with
  | Err e => create_fail v e
  | Ok p =>
      let v := set_Warnings (sb_Warnings v ++ image_warnings (i_Config img)) v in
      let v := set_Process p v in
      let v := set_ImageDigest (i_Digest img) v in
      let v := set_BaseDigest (b_Digest b) v in
      let v := set_GuestMemory
                 (guest_memory (s_Memory s) (c_GuestReserveMiB (sg_Config (b_Signed b)))) v in
      do _ <- OIntent (sb_ID v) "prepare-disks";
      try tmp <- OMkTemp (dir (sb_ID v)) else create_fail v;
      run r <- create_disks v img tmp;
      do _ <- ORemoveAll tmp;
      Ret r
  end.

(** The body of [Create] under the lock "allocations". *)
Definition create_locked (s : Spec) (auth : Auth) : Prog (Sandbox * option error) :=
  try all <- OList else fun e => Ret (zero_sandbox, Some e);
  match check_existing s all with
  | Err e => Ret (zero_sandbox, Some e)
  | Ok _ =>
      run found <- check_volumes (s_Mounts s);
      match found with
      | Err e => Ret (zero_sandbox, Some e)
      | Ok _ =>
          let slot := find_slot all in
          if 16000 <? slot then Ret (zero_sandbox, Some (Errorf "no address slots available"))
          else
            do id <- ONewID;
            let s := if bool_decide (s_Name s = "") then set_Name ("nf-" +:+ take_str 12 id) s else s in
            do now <- ONow;
            let v := mkSandbox id (s_Name s) s empty_process "" "" "creating" "" [] 0 now now None
                       0 "" 0 slot true in
            try _ <- OCreate v else fun e => Ret (v, Some e);
            create_prepare v s auth
      end
  end.

(** [Daemon.Create] *)
Definition Create (s : Spec) (auth : Auth) : Prog (Sandbox * option error) :=
  match Validate s with
  | Err e => Ret (zero_sandbox, Some e)
  | Ok _ =>
      let s := if bool_decide (s_Base s = "") then set_Base (cfg_DefaultBase cfg) s else s in
      if bool_decide (s_Base s = "")
      then Ret (zero_sandbox, Some (Errorf "no default base configured; set DefaultBase or use --base"))
      else with_lock "allocations" (create_locked s auth)
  end.

(** ** Start *)

(** The closure [fail] of [Start]. *)
Definition start_fail (v : Sandbox) (err : error) : Prog (Sandbox * option error) :=
  do killed <- OVMKill v;
  run outcome <- (match killed with
    | Ok _ =>
        do _ <- OStopDNS (sb_ID v);
        do netErr <- ONetRemove v;
        do vmErr <- OVMRemove v;
        Ret (is_ok netErr && is_ok vmErr, error_text err)
    | Err killErr =>
        Ret (false, error_text err +:+ "; VMM termination failed: " +:+ error_text killErr)
    end);
  do _ <- OUpdate (sb_ID v) (fun x =>
    Transition (set_VMResourcesReleased outcome.1 (set_PIDStart (sb_PIDStart v) (set_PID (sb_PID v) x)))
      "failed" outcome.2);
  Ret (v, Some err).

(** From the record in state "starting" to a running guest. *)
Definition start_boot (v : Sandbox) (b : Bundle) : Prog (Sandbox * option error) :=
  do _ <- OIntent (sb_ID v) "prepare-network";
  try _ <- OReservePorts v else start_fail v;
  try _ <- ONetPrepare v else start_fail v;
  run dns <- (if bool_decide (s_Network (sb_Spec v) = "bridge")
              then do r <- OStartDNS v; Ret r else Ret (Ok tt));
  match dns with
  | Err e => start_fail v e
  | Ok _ =>
      do _ <- OIntent (sb_ID v) "start-vmm";
      do started <- OVMStart v b;
      let v := set_PIDStart started.1.2 (set_PID started.1.1 v) in
      match started.2 with
      | Some e => start_fail v e
      | None =>
          try _ <- OUpdate (sb_ID v) (fun x =>
                     Ok (set_PIDStart (sb_PIDStart v) (set_PID (sb_PID v) x))) else start_fail v;
          try _ <- OVMReady v else start_fail v;
          try _ <- OGuest v (start_request v) else start_fail v;
          try _ <- OUpdate (sb_ID v) (fun x => Transition x "running" "") else start_fail v;
          let v := set_State "running" v in
          do _ <- OMonitor v;
          Ret (v, None)
      end
  end.

(** Admission under the lock "allocations": volumes, memory and the move to
    "starting". *)
Definition start_admit (v : Sandbox) : Prog (Sandbox * option error) :=
  with_lock "allocations" (
    try all <- OList else fun e => Ret (v, Some e);
    if start_conflict v all
    then Ret (v, Some (Errorf "volume %s reserved by active or failed sandbox"))
    else
      run available <- availableMemory;
      match result_bind available (memoryBudget (reserved_memory v all)) with
      | Err e => Ret (v, Some e)
      | Ok _ =>
          let v := set_VMResourcesReleased false (set_Reason "" (set_Exit None
                     (set_State "starting" (set_Generation (int64 (sb_Generation v + 1)) v)))) in
          do r <- OUpdate (sb_ID v) (fun _ => Ok v);
          Ret (v, match r with Ok _ => None | Err e => Some e end)
      end).

(** The body of [Start] under the lock of the sandbox. *)
Definition start_locked (id : string) : Prog (Sandbox * option error) :=
  try v <- OGet id else fun e => Ret (zero_sandbox, Some e);
  if negb (bool_decide (sb_State v = "created")) && negb (bool_decide (sb_State v = "exited"))
  then Ret (v, Some (Errorf "cannot start sandbox in state %s"))
  else
    try _ <- OVMCheck else fun e => Ret (v, Some e);
    try b <- OBaseGet (sb_BaseDigest v) else fun e => Ret (v, Some e);
    run admitted <- start_admit v;
    match admitted.2 with
    | Some e => Ret (admitted.1, Some e)
    | None => start_boot admitted.1 b
    end.

(** [Daemon.Start] *)
Definition Start (id : string) : Prog (Sandbox * option error) :=
  try v <- OGet id else fun e => Ret (zero_sandbox, Some e);
  with_lock (sb_ID v) (start_locked (sb_ID v)).

(** ** finish *)

(** Waiting for an orderly shutdown: at most five seconds in steps of twenty
    milliseconds. *)
Definition shutdown_polls : nat := 250.

Fixpoint await_exit (v : Sandbox) (until : Z) (polls : nat) : Prog unit :=
  match polls with
  | O => Ret tt
  | S polls =>
      do alive <- OAlive v;
      if negb alive then Ret tt else
      do now <- ONow;
      if negb (now <? until) then Ret tt else
      do done <- OCtxDone;
      if (done : bool) then Ret tt else
      do _ <- OSleep;
      await_exit v until polls
  end.

Definition request_shutdown (v : Sandbox) : Prog unit :=
  try _ <- OVMClient v else fun _ => Ret tt;
  try _ <- OGuest v (guest_request "shutdown") else fun _ => Ret tt;
  do now <- ONow;
  await_exit v (now + 5000000000) shutdown_polls.

Definition finish_locked (v : Sandbox) (exit : Exit) : Prog unit :=
  try current <- OGet (sb_ID v) else fun _ => Ret tt;
  if negb (sb_Generation current =? sb_Generation v) then Ret tt else
  run _ <- request_shutdown v;
  do killed <- OVMKill v;
  match killed with
  | Err e =>
      do _ <- OUpdate (sb_ID v) (fun s => Ok (set_VMResourcesReleased false
                (set_Reason ("VMM termination failed: " +:+ error_text e) (set_State "failed" s))));
      Ret tt
  | Ok _ =>
      do _ <- OStopDNS (sb_ID v);
      do netErr <- ONetRemove v;
      do vmErr <- OVMRemove v;
      let clean := is_ok netErr && is_ok vmErr in
      do _ <- OUpdate (sb_ID v) (fun s =>
                let s := set_VMResourcesReleased clean (set_PIDStart "" (set_PID 0
                           (set_Exit (Some exit) (set_State "exited" s)))) in
                Ok (if clean then s else
                    set_Reason ("cleanup failed: " +:+ err_value netErr +:+ " " +:+ err_value vmErr)
                      (set_State "failed" s)));
      if s_AutoRemove (sb_Spec current) && clean then
        try _ <- OSaveResult v exit else (fun e =>
          do _ <- OUpdate (sb_ID v) (fun s =>
                    Ok (set_Reason ("automatic removal deferred: " +:+ error_text e) s));
          Ret tt);
        do _ <- OIntent (sb_ID v) "auto-remove";
        do _ <- ORemoveAll (dir (sb_ID v));
        do _ <- ODelete (sb_ID v);
        Ret tt
      else Ret tt
  end.

(** [Daemon.finish] *)
Definition finish (v : Sandbox) (exit : Exit) : Prog unit :=
  with_lock (sb_ID v) (finish_locked v exit).

(** ** monitor *)

(** The frames of one batch go to the journal; a gap is written with its
    message in the main loop and with its (empty) data while draining. *)
Definition log_frame (id : string) (drain : bool) (f : Frame) : string * string :=
  if negb drain && bool_decide (fr_Type f = "gap") then ("gap", fr_Message f) else (fr_Type f, fr_Data f).

Fixpoint write_frames (id : string) (drain : bool) (cursor : Z) (fs : list Frame) : Prog Z :=
  match fs with
  | [] => Ret cursor
  | f :: fs =>
      do _ <- OLogWrite id (log_frame id drain f).1 (log_frame id drain f).2;
      write_frames id drain (fr_Sequence f) fs
  end.

(** Draining every remaining batch before the VM is stopped.  [drains] is the
    number of batches read until the daemon's context is done. *)
Fixpoint drain_logs (v : Sandbox) (cursor : Z) (drains : nat) : Prog unit :=
  match drains with
  | O => Ret tt
  | S drains =>
      try tail <- OLogs v cursor else fun _ => Ret tt;
      match tail with
      | [] => Ret tt
      | _ =>
          run cursor <- write_frames (sb_ID v) true cursor tail;
          drain_logs v cursor drains
      end
  end.

Definition control_lost (now : Z) : Exit :=
  mkExit None "guest control lost; application exit status unknown" false now.

Definition cursor_file (v : Sandbox) : string :=
  JoinPath [dir (sb_ID v); "log-cursor-" +:+ Strconv.Itoa (sb_Generation v) +:+ ".json"].

(** One reading of the guest: the log batch and the status. *)
Definition poll_guest (v : Sandbox) (cursor : Z) : Prog (Z * result GuestStatus) :=
  try frames <- OLogs v cursor else fun e => Ret (cursor, Err e);
  run cursor <- write_frames (sb_ID v) false cursor frames;
  do _ <- OFs (cursor_file v);
  do st <- OStatus v;
  Ret (cursor, st).

(** The loop of [Daemon.monitor].  [polls] is the number of timer firings until
    the daemon's context is done; the loop of the source has no other bound. *)
Fixpoint monitor_loop (v : Sandbox) (cursor failures : Z) (drains polls : nat) : Prog unit :=
  match polls with
  | O => Ret tt
  | S polls =>
      do _ <- OSleep;
      try current <- OGet (sb_ID v) else fun _ => Ret tt;
      if negb (sb_Generation current =? sb_Generation v) then Ret tt else
      do client <- OVMClient v;
      let again cursor failures :=
        if 5 <=? failures
        then do now <- ONow; finish v (control_lost now)
        else monitor_loop v cursor failures drains polls in
      match client with
      | Err _ => again cursor (failures + 1)
      | Ok _ =>
          run polled <- poll_guest v cursor;
          let '(cursor, st) := polled in
          match st with
          | Err _ => again cursor (failures + 1)
          | Ok st =>
              if negb (bool_decide (gs_ID st = sb_ID v)) || negb (gs_Generation st =? sb_Generation v)
              then again cursor 100
              else match gs_Exit st with
                   | Some exit =>
                       if bool_decide (gs_State st = "exited")
                       then run _ <- drain_logs v cursor drains; finish v exit
                       else again cursor 0
                   | None => again cursor 0
                   end
          end
      end
  end.

(** The goroutine of [Daemon.monitor]. *)
Definition monitor (v : Sandbox) (drains polls : nat) : Prog unit :=
  do cursor <- OCursor v;
  run _ <- monitor_loop v cursor 0 drains polls;
  do _ <- OMonitorDone v;
  Ret tt.

(** ** Wait, Stop, Remove *)

(** [Daemon.Wait].  [polls] is the number of timer firings until the caller's
    context is done; the loop of the source has no other bound. *)
Fixpoint Wait (id : string) (polls : nat) : Prog (result Exit) :=
  do r <- OGet id;
  match r with
  | Err e =>
      do saved <- OFindResult id;
      Ret (match saved with Ok x => Ok x.2 | Err _ => Err e end)
  | Ok v =>
      if bool_decide (sb_State v = "created") then Ret (Err (Errorf "container has not started"))
      else match sb_Exit v with
           | Some x => Ret (Ok x)
           | None =>
               if bool_decide (sb_State v = "failed")
               then Ret (Ok (mkExit None (sb_Reason v) false (sb_Updated v)))
               else match polls with
                    | O => Ret (Err (Errorf "context canceled"))
                    | S polls => do _ <- OSleep; Wait id polls
                    end
           end
  end.

(** [Daemon.Stop] *)
Definition Stop (id : string) (seconds : Z) (polls : nat) : Prog (result unit) :=
  try v <- OGet id else fun e => Ret (Err e);
  if bool_decide (sb_State v = "exited") || bool_decide (sb_State v = "created") then Ret (Ok tt)
  else if (seconds <? 0) || (300 <? seconds)
  then Ret (Err (Errorf "timeout must be 0..300 seconds"))
  else
    do _ <- OUpdate (sb_ID v) (fun s => Transition s "stopping" "");
    do client <- OVMClient v;
    run stopped <- (match client with
                    | Ok _ => do r <- OGuest v (stop_request seconds); Ret (is_ok r)
                    | Err _ => Ret false
                    end);
    run _ <- (if (stopped : bool) then Ret tt
              else do now <- ONow;
                   finish v (mkExit None "forced VM stop; workload exit status unknown" false now));
    run waited <- Wait (sb_ID v) polls;
    Ret (match waited with Ok _ => Ok tt | Err e => Err e end).

Definition is_active (v : Sandbox) : bool :=
  bool_decide (sb_State v = "running") || bool_decide (sb_State v = "starting") ||
  bool_decide (sb_State v = "stopping").

Definition remove_locked (id : string) (force : bool) : Prog (result unit) :=
  try v <- OGet id else fun e => Ret (Err e);
  if is_active v && negb force then Ret (Err (Errorf "container running; use rm -f"))
  else
    do _ <- OIntent (sb_ID v) "remove";
    try _ <- OVMKill v else fun e => Ret (Err e);
    do _ <- OStopDNS (sb_ID v);
    try _ <- ONetRemove v else fun e => Ret (Err e);
    try _ <- OVMRemove v else fun e => Ret (Err e);
    do _ <- OUpdate (sb_ID v) (fun s => Ok (set_State "removing" s));
    try _ <- ORemoveAll (dir (sb_ID v)) else fun e => Ret (Err e);
    do r <- ODelete (sb_ID v);
    Ret r.

(** [Daemon.Remove] *)
Definition Remove (id : string) (force : bool) : Prog (result unit) :=
  try v <- OGet id else fun e => Ret (Err e);
  with_lock (sb_ID v) (remove_locked (sb_ID v) force).

(** ** Recover *)

(** One sandbox found at start-up. *)
Definition recover_release (v : Sandbox) (stop_dns : bool) : Prog bool :=
  do killed <- OVMKill v;
  match killed with
  | Err _ => Ret false
  | Ok _ =>
      run _ <- (if stop_dns then do _ <- OStopDNS (sb_ID v); Ret tt else Ret tt);
      do netErr <- ONetRemove v;
      do vmErr <- OVMRemove v;
      Ret (is_ok netErr && is_ok vmErr)
  end.

Definition recover_one (v : Sandbox) : Prog (result unit) :=
  if bool_decide (sb_State v = "running") || bool_decide (sb_State v = "stopping") then
    do alive <- OAlive v;
    if (alive : bool) then
      try _ <- OReservePorts v else fun e => Ret (Err e);
      run dns <- (if bool_decide (s_Network (sb_Spec v) = "bridge")
                  then do r <- OStartDNS v; Ret r else Ret (Ok tt));
      match dns with
      | Err e => Ret (Err e)
      | Ok _ => do _ <- OMonitor v; Ret (Ok tt)
      end
    else
      do now <- ONow;
      run _ <- finish v (mkExit None "host/VMM stopped; application exit unknown" false now);
      Ret (Ok tt)
  else if bool_decide (sb_State v = "creating") || bool_decide (sb_State v = "starting") ||
          bool_decide (sb_State v = "removing") then
    run released <- recover_release v false;
    do _ <- OUpdate (sb_ID v) (fun s => Ok (set_VMResourcesReleased released
              (set_Reason "interrupted operation; remove and recreate" (set_State "failed" s))));
    Ret (Ok tt)
  else if bool_decide (sb_State v = "failed") then
    if sb_VMResourcesReleased v then Ret (Ok tt)
    else
      run released <- recover_release v true;
      if (released : bool) then
        do _ <- OUpdate (sb_ID v) (fun s =>
                  Ok (set_VMResourcesReleased true (set_PIDStart "" (set_PID 0 s))));
        Ret (Ok tt)
      else Ret (Ok tt)
  else Ret (Ok tt).

Fixpoint recover_all (all : list Sandbox) : Prog (result unit) :=
  match all with
  | [] => Ret (Ok tt)
  | v :: all =>
      run r <- recover_one v;
      match r with Ok _ => recover_all all | Err e => Ret (Err e) end
  end.

(** [Daemon.Recover] *)
Definition Recover : Prog (result unit) :=
  try all <- OList else fun e => Ret (Err e);
  recover_all all.

(** ** Volumes, images and bases (handler.go) *)

Definition volume_create (q : option Volume) : Prog (result Volume) :=
  with_lock "allocations" (
    match q with
    | None => Ret (Err (Errorf "valid volume name required"))
    | Some v =>
        if negb (ValidName (vol_Name v)) then Ret (Err (Errorf "valid volume name required"))
        else
          do now <- ONow;
          let v := mkVolume (vol_Name v) (vol_Size v) now in
          match VolumePath (cfg_Root cfg) (vol_Name v) with
          | Err e => Ret (Err e)
          | Ok p =>
              try _ <- ODisk p (vol_Size v) "" else fun e => Ret (Err e);
              try _ <- OPutVolume v else (fun e => do _ <- ORemoveFile p; Ret (Err e));
              Ret (Ok v)
          end
    end).

Definition mounts_volume (name : string) (s : Sandbox) : bool :=
  existsb (fun m => bool_decide (m_Name m = name)) (s_Mounts (sb_Spec s)).

(** [os.Remove] failing with [ENOENT]. *)
Definition IsNotExist (e : error) : bool := bool_decide (e = Errorf "file does not exist").

Definition volume_rm (name : string) : Prog (result unit) :=
  with_lock "allocations" (
    try v <- OVolume name else fun e => Ret (Err e);
    try all <- OList else fun e => Ret (Err e);
    if existsb (mounts_volume (vol_Name v)) all then Ret (Err (Errorf "volume referenced by %s"))
    else match VolumePath (cfg_Root cfg) (vol_Name v) with
         | Err e => Ret (Err e)
         | Ok p =>
             do r <- ORemoveFile p;
             match r with
             | Err e => if IsNotExist e then do r <- ODeleteVolume (vol_Name v); Ret r else Ret (Err e)
             | Ok _ => do r <- ODeleteVolume (vol_Name v); Ret r
             end
         end).

Definition image_rm (ref : string) : Prog (result unit) :=
  with_lock "allocations" (
    try img <- OImageGet ref else fun e => Ret (Err e);
    try all <- OList else fun e => Ret (Err e);
    if existsb (fun s => bool_decide (sb_ImageDigest s = i_Digest img)) all
    then Ret (Err (Errorf "image referenced by %s"))
    else do r <- OImageRemove ref; Ret r).

Definition base_rm (ref : string) : Prog (result unit) :=
  with_lock "allocations" (
    try b <- OBaseGet ref else fun e => Ret (Err e);
    try all <- OList else fun e => Ret (Err e);
    if existsb (fun s => bool_decide (sb_BaseDigest s = b_Digest b)) all
    then Ret (Err (Errorf "base referenced by %s"))
    else do r <- OBaseRemove ref; Ret r).

Definition kill (id sig : string) : Prog (result unit) :=
  try s <- OGet id else fun e => Ret (Err e);
  if negb (bool_decide (sb_State s = "running")) && negb (bool_decide (sb_State s = "stopping"))
  then Ret (Err (Errorf "container not running"))
  else
    try _ <- OVMClient s else fun e => Ret (Err e);
    do r <- OGuest s (signal_request sig); Ret r.

(** ** ValidateBase (validate.go) *)

(** The frames of the probe session; the output must be exactly the marker. *)
Fixpoint probe (output : string) (fs : list Frame) : result unit :=
  match fs with
  | [] => Err (Errorf "EOF")
  | f :: fs =>
      if bool_decide (fr_Type f = "error") then Err (Errorf (fr_Message f))
      else if bool_decide (fr_Type f = "stdout") then
        let output := output +:+ fr_Data f in
        if (1024 <? String.length output)%nat then Err (Errorf "unexpected probe output")
        else probe output fs
      else if bool_decide (fr_Type f = "exit") then
        if bool_decide (fr_Code f = Some 0) && bool_decide (output = "niflhel-exec-ready")
        then Ok tt else Err (Errorf "guest exec smoke test failed")
      else probe output fs
  end.

Definition probe_spec (base : string) : Spec :=
  mkSpec "busybox:1.37" base "" ["sh"; "-c"; "echo niflhel-base-ready; sleep 30"] None [] "" ""
    1 (512 * MiB) (4 * GiB) 256 "none" [] [] "runc" "linux/amd64" "missing" false false false false.

(** The probe that is executed in the guest. *)
Definition probe_request (id : string) : Request :=
  mkRequest "exec" "" "" None
    (Some (mkExec id ["sh"; "-c"; "test ! -e /bootstrap/bootstrap.json && printf niflhel-exec-ready"] [] "" "" false false))
    None "" "" false "" 0 "" "".

(** The part of [ValidateBase] after a successful [Start]. *)
Definition validate_started (v : Sandbox) (polls : nat) : Prog (result Z) :=
  try _ <- OVMClient v else fun e => Ret (Err e);
  do id <- ONewID;
  try frames <- OSession v (probe_request id) else fun e => Ret (Err e);
  match probe "" frames with
  | Err e => Ret (Err e)
  | Ok _ =>
      run stopped <- Stop (sb_ID v) 1 polls;
      match stopped with
      | Err e => Ret (Err e)
      | Ok _ =>
          run waited <- Wait (sb_ID v) polls;
          match waited with
          | Err e => Ret (Err e)
          | Ok exit =>
              match x_Code exit with
              | None => Ret (Err (Errorf "guest exit status unavailable"))
              | Some code =>
                  try _ <- OFs (JoinPath [cfg_Root cfg; "bases"; "validated"]) else fun e => Ret (Err e);
                  Ret (Ok code)
              end
          end
      end
  end.

(** [Daemon.ValidateBase]: the deferred removal uses the sandbox variable as
    [Start] left it. *)
Definition ValidateBase (ref : string) (auth : Auth) (polls : nat) : Prog (result Z) :=
  try b <- OBaseGet ref else fun e => Ret (Err e);
  run created <- Create (probe_spec (b_Digest b)) auth;
  match created.2 with
  | Some e => Ret (Err e)
  | None =>
      run started <- Start (sb_ID created.1);
      run report <- (match started.2 with
                     | Some e => Ret (Err e)
                     | None => validate_started started.1 polls
                     end);
      run _ <- Remove (sb_ID started.1) true;
      Ret report
  end.

(** ** Dispatch (handler.go) *)

Inductive Reply : Type :=
| RNone
| RVersion
| RInfo (default_base root : string)
| RSandbox (v : Sandbox)
| RSandboxes (l : list Sandbox)
| RExit (x : Exit)
| RFrames (l : list Frame)
| RImage (i : Image)
| RImages (l : list Image)
| RBundle (b : Bundle)
| RBundles (l : list Bundle)
| RVolume (v : Volume)
| RVolumes (l : list Volume)
| RValidation (code : Z).

Definition reply {A} (f : A -> Reply) (r : result A) : result Reply :=
  match r with Ok a => Ok (f a) | Err e => Err e end.
Definition reply_sandbox (r : Sandbox * option error) : result Reply :=
  match r.2 with None => Ok (RSandbox r.1) | Some e => Err e end.

(** JSON decoding of the request payload. *)
Variable decode_auth : string -> result Auth.
Variable decode_cursor : string -> result Z.

Definition no_auth : Auth := mkAuth None None.

Definition takes_auth (action : string) : bool :=
  existsb (fun a => bool_decide (action = a)) ["create"; "pull"; "base-pull"; "base-push"; "base-validate"].

Definition request_auth (q : Request) : result Auth :=
  if negb (bool_decide (q_Data q = "")) && takes_auth (q_Action q)
  then decode_auth (q_Data q) else Ok no_auth.

Definition logs (q : Request) : Prog (result Reply) :=
  do r <- OGet (q_ID q);
  run path <- (match r with
    | Ok s => Ret (Ok (JoinPath [dir (sb_ID s); "application.log"]))
    | Err _ =>
        try saved <- OFindResult (q_ID q) else fun e => Ret (Err e);
        Ret (Ok (JoinPath [cfg_Root cfg; "results"; saved.1 +:+ ".log"]))
    end);
  match path with
  | Err e => Ret (Err e)
  | Ok path =>
      match (if bool_decide (q_Data q = "") then Ok 0 else decode_cursor (q_Data q)) with
      | Err e => Ret (Err e)
      | Ok cursor => do fs <- OReadLog path cursor; Ret (Ok (RFrames fs))
      end
  end.

(** [Daemon.Call] *)
Definition Call (q : Request) (polls : nat) : Prog (result Reply) :=
  match request_auth q with
  | Err e => Ret (Err e)
  | Ok auth =>
      let act a := bool_decide (q_Action q = a) in
      if act "version" then Ret (Ok RVersion)
      else if act "info" then Ret (Ok (RInfo (cfg_DefaultBase cfg) (cfg_Root cfg)))
      else if act "create" then
        match q_Spec q with
        | None => Ret (Err (Errorf "spec required"))
        | Some s => run r <- Create s auth; Ret (reply_sandbox r)
        end
      else if act "start" then run r <- Start (q_ID q); Ret (reply_sandbox r)
      else if act "inspect" then do r <- OGet (q_ID q); Ret (reply RSandbox r)
      else if act "ps" then do r <- OList; Ret (reply RSandboxes r)
      else if act "stop" then run r <- Stop (q_ID q) (q_Timeout q) polls; Ret (reply (fun _ => RNone) r)
      else if act "restart" then
        run r <- Stop (q_ID q) (q_Timeout q) polls;
        match r with
        | Err e => Ret (Err e)
        | Ok _ => run r <- Start (q_ID q); Ret (reply_sandbox r)
        end
      else if act "rm" then run r <- Remove (q_ID q) (q_Force q); Ret (reply (fun _ => RNone) r)
      else if act "wait" then run r <- Wait (q_ID q) polls; Ret (reply RExit r)
      else if act "kill" then run r <- kill (q_ID q) (q_Signal q); Ret (reply (fun _ => RNone) r)
      else if act "logs" then logs q
      else if act "pull" then do r <- OImagePull (q_Ref q) "always" auth; Ret (reply RImage r)
      else if act "images" then do r <- OImageList; Ret (reply RImages r)
      else if act "image-inspect" then do r <- OImageGet (q_Ref q); Ret (reply RImage r)
      else if act "image-rm" then run r <- image_rm (q_Ref q); Ret (reply (fun _ => RNone) r)
      else if act "base-validate" then
        run r <- ValidateBase (q_Ref q) auth polls; Ret (reply RValidation r)
      else if act "base-pull" then do r <- OBasePull (q_Ref q) "always" auth; Ret (reply RBundle r)
      else if act "base-push" then do r <- OBasePush (q_Ref q) auth; Ret (reply (fun _ => RNone) r)
      else if act "base-ls" then do r <- OBaseList; Ret (reply RBundles r)
      else if act "base-inspect" then do r <- OBaseGet (q_Ref q); Ret (reply RBundle r)
      else if act "base-rm" then run r <- base_rm (q_Ref q); Ret (reply (fun _ => RNone) r)
      else if act "volume-ls" then do r <- OVolumes; Ret (reply RVolumes r)
      else if act "volume-inspect" then do r <- OVolume (q_ID q); Ret (reply RVolume r)
      else if act "volume-create" then run r <- volume_create (q_Volume q); Ret (reply RVolume r)
      else if act "volume-rm" then run r <- volume_rm (q_ID q); Ret (reply (fun _ => RNone) r)
      else Ret (Err (Errorf "UnsupportedFeature: operation %q"))
  end.
End Handlers.
