(* ===== verification/DaemonLogic.v ===== *)
(** * DaemonLogic: rely-guarantee reasoning about concurrent handlers

    Assertions are predicates on the shared [Core].  [Inv] is the invariant of
    the core, [G t] what one operation of thread [t] may do to it; what the
    other threads may do is every [G t'].  [ok t P p Q] says that thread [t]
    can run [p] from [P]: each of its operations preserves [Inv], stays within
    [G t] and respects the order of the locks.  [pool] is the concurrent
    system (any number of threads, interleaved operation by operation, new
    requests arriving at any time); [pool_safe] and [pool_progress] are the
    soundness of the logic. *)

From S2P Require Import Prelude GoLib Api State Oci Base DaemonSem Daemon.
Local Open Scope Z_scope.

Definition alloc : string := "allocations".
Definition max_guest : Z := 1024 * GiB + 4096 * MiB.

(** ** The invariant *)

(** The part of a sandbox that never changes once it is stored, and the part
    that is set once. *)
Definition static (v : Sandbox) : string * string * Spec * Z := (sb_ID v, sb_Name v, sb_Spec v, sb_Slot v).
Definition sized (v : Sandbox) : string * Z := (sb_BaseDigest v, sb_GuestMemory v).

(** A well-formed record: a valid specification that names a base, and the name
    of the specification. *)
Definition well_formed (v : Sandbox) : Prop :=
  valid_spec (sb_Spec v) /\ s_Base (sb_Spec v) <> "" /\ s_Name (sb_Spec v) = sb_Name v /\ ValidName (sb_Name v) = true.

Lemma well_formed_static (v x : Sandbox) : static v = static x -> well_formed x -> well_formed v.
Proof. unfold static, well_formed. intros [= _ -> -> _]. done. Qed.

Record Inv (c : Core) : Prop := mkInv {
  inv_keyed : keyed (rows c);
  inv_names : names_not_ids (rows c);
  inv_unique : names_unique (rows c);
  inv_slot : forall id r, rows c !! id = Some r -> 1 <= sb_Slot (r_body r) <= 16000;
  inv_slots : forall id1 id2 r1 r2, rows c !! id1 = Some r1 -> rows c !! id2 = Some r2 ->
    sb_Slot (r_body r1) = sb_Slot (r_body r2) -> id1 = id2;
  inv_ports : forall id1 id2 r1 r2, rows c !! id1 = Some r1 -> rows c !! id2 = Some r2 ->
    id1 <> id2 -> port_conflict (sb_Spec (r_body r1)) (r_body r2) = false;
  inv_mounts : forall id r m, rows c !! id = Some r -> m ∈ s_Mounts (sb_Spec (r_body r)) ->
    is_Some (volumes (db c) !! m_Name m);
  inv_memory : forall id r, rows c !! id = Some r -> 0 <= sb_GuestMemory (r_body r) <= max_guest;
  inv_formed : forall id r, rows c !! id = Some r -> well_formed (r_body r);
  inv_states : forall id r, rows c !! id = Some r -> sb_State (r_body r) ∈ states;
  inv_holders : forall id, id ∈ holders c ->
    exists r, rows c !! id = Some r /\ reservesVMResources (r_body r) = true /\
      sb_BaseDigest (r_body r) <> "";
  inv_disjoint : forall id1 id2 r1 r2, id1 ∈ holders c -> id2 ∈ holders c -> id1 <> id2 ->
    rows c !! id1 = Some r1 -> rows c !! id2 = Some r2 -> shares_volume (r_body r1) (r_body r2) = false;
  inv_live : live c ⊆ holders c
}.

(** ** What one operation may do *)

Definition has (t : nat) (l : string) (c : Core) : Prop := locks c !! l = Some t.

Definition idle_state (v : Sandbox) : Prop := sb_State v = "created" \/ sb_State v = "exited".

Record G (t : nat) (c c' : Core) : Prop := mkG {
  g_static : forall id r r', rows c !! id = Some r -> rows c' !! id = Some r' ->
    static (r_body r') = static (r_body r);
  g_sized : forall id r r', rows c !! id = Some r -> rows c' !! id = Some r' ->
    sized (r_body r') = sized (r_body r) \/ sb_BaseDigest (r_body r) = "" /\ has t alloc c;
  g_state : forall id r r', rows c !! id = Some r -> rows c' !! id = Some r' ->
    sb_BaseDigest (r_body r) <> "" -> idle_state (r_body r) ->
    sb_State (r_body r') = sb_State (r_body r) \/ has t id c;
  g_gen : forall id r r', rows c !! id = Some r -> rows c' !! id = Some r' ->
    (id ∈ holders c' -> id ∈ holders c) /\ sb_Generation (r_body r') = sb_Generation (r_body r) \/
    id ∉ holders c /\ id ∈ holders c' /\ sb_Generation (r_body r') = int64 (sb_Generation (r_body r) + 1);
  g_insert : forall id r', rows c !! id = None -> rows c' !! id = Some r' ->
    has t alloc c /\ sb_Generation (r_body r') = 0;
  g_delete : forall id r, rows c !! id = Some r -> rows c' !! id = None -> has t id c;
  g_hold : forall id, id ∉ holders c -> id ∈ holders c' -> has t id c /\ has t alloc c;
  g_release : forall id, id ∈ holders c -> id ∉ holders c' -> has t id c;
  g_volumes : forall n, is_Some (volumes (db c) !! n) -> volumes (db c') !! n = None -> has t alloc c;
  g_locks : forall l t', t' <> t -> locks c !! l = Some t' <-> locks c' !! l = Some t'
}.

Lemma G_refl (t : nat) (c : Core) : G t c c.
Proof.
  split; try (intros; congruence); try done.
  - intros id r r' H1 H2. left. congruence.
  - intros id r r' H1 H2 _ _. left. congruence.
  - intros id r r' H1 H2. left. split; [done|congruence].
  - intros n [v H1] H2. congruence.
Qed.

(** ** Stable assertions *)

(** An assertion of thread [t] is stable when no other thread can falsify it. *)
Class Stable (t : nat) (P : Core -> Prop) : Prop :=
  stable : forall t' c c', t' <> t -> Inv c -> Inv c' -> G t' c c' -> P c -> P c'.

(** An assertion that looks at the locks and the holders only. *)
Class LockOnly (P : Core -> Prop) : Prop :=
  lock_only : forall c c', locks c' = locks c -> holders c' = holders c -> P c -> P c'.

#[export] Instance Stable_pure (t : nat) (phi : Prop) : Stable t (fun _ => phi).
Proof. by intros t' c c' _ _ _ _ H. Qed.
#[export] Instance Stable_and (t : nat) (P Q : Core -> Prop) :
  Stable t P -> Stable t Q -> Stable t (fun c => P c /\ Q c).
Proof. intros HP HQ t' c c' Ht HI HI' HG [Hp Hq]. split; [exact (HP _ _ _ Ht HI HI' HG Hp)|exact (HQ _ _ _ Ht HI HI' HG Hq)]. Qed.
#[export] Instance Stable_impl (t : nat) (phi : Prop) (P : Core -> Prop) :
  Stable t P -> Stable t (fun c => phi -> P c).
Proof. intros HP t' c c' Ht HI HI' HG Hp Hphi. exact (HP _ _ _ Ht HI HI' HG (Hp Hphi)). Qed.
#[export] Instance LockOnly_pure (phi : Prop) : LockOnly (fun _ => phi).
Proof. by intros c c' _ _ H. Qed.
#[export] Instance LockOnly_and (P Q : Core -> Prop) :
  LockOnly P -> LockOnly Q -> LockOnly (fun c => P c /\ Q c).
Proof. intros HP HQ c c' Hl Hh [Hp Hq]. split; [exact (HP _ _ Hl Hh Hp)|exact (HQ _ _ Hl Hh Hq)]. Qed.
#[export] Instance LockOnly_impl (phi : Prop) (P : Core -> Prop) :
  LockOnly P -> LockOnly (fun c => phi -> P c).
Proof. intros HP c c' Hl Hh Hp Hphi. exact (HP _ _ Hl Hh (Hp Hphi)). Qed.

(** An assertion that does not look at the event log. *)
Class Quiet (P : Core -> Prop) : Prop :=
  quiet : forall c c', rows c' = rows c -> volumes (db c') = volumes (db c) ->
    locks c' = locks c -> holders c' = holders c -> P c -> P c'.
#[export] Instance Quiet_LockOnly (P : Core -> Prop) : LockOnly P -> Quiet P | 100.
Proof. intros HP c c' _ _ Hl Hh. by apply HP. Qed.
#[export] Instance Quiet_and (P Q : Core -> Prop) : Quiet P -> Quiet Q -> Quiet (fun c => P c /\ Q c).
Proof.
  intros HP HQ c c' Hr Hv Hl Hh [Hp Hq].
  split; [exact (HP _ _ Hr Hv Hl Hh Hp)|exact (HQ _ _ Hr Hv Hl Hh Hq)].
Qed.

(** Thread [t] holds exactly the locks of [h]. *)
Definition owns (t : nat) (h : gset string) (c : Core) : Prop := forall l, has t l c <-> l ∈ h.

#[export] Instance Stable_owns (t : nat) (h : gset string) : Stable t (owns t h).
Proof.
  intros t' c c' Ht _ _ HG H l. rewrite <-(H l). symmetry. by apply (g_locks _ _ _ HG).
Qed.
#[export] Instance LockOnly_owns (t : nat) (h : gset string) : LockOnly (owns t h).
Proof. intros c c' Hl _ H l. unfold has. rewrite Hl. apply H. Qed.

Lemma has_stable (t t' : nat) (c c' : Core) (l : string) :
  t' <> t -> G t' c c' -> has t l c -> has t l c'.
Proof. intros Ht HG. apply (g_locks _ _ _ HG). auto. Qed.

Lemma has_excl (t t' : nat) (l : string) (c : Core) : has t l c -> has t' l c -> t' = t.
Proof. unfold has. congruence. Qed.

(** Thread [t] holds the lock of [id], which is not (or is) a holder of VM
    resources. *)
Definition released (t : nat) (id : string) (c : Core) : Prop := has t id c /\ id ∉ holders c.
Definition held (t : nat) (id : string) (c : Core) : Prop := has t id c /\ id ∈ holders c.

#[export] Instance Stable_released (t : nat) (id : string) : Stable t (released t id).
Proof.
  intros t' c c' Ht _ _ HG [Hl Hn]. split; [by eapply has_stable|]. intros Hh.
  destruct (g_hold _ _ _ HG id Hn Hh) as [Hl' _]. by eapply Ht, has_excl.
Qed.
#[export] Instance Stable_held (t : nat) (id : string) : Stable t (held t id).
Proof.
  intros t' c c' Ht _ _ HG [Hl Hn]. split; [by eapply has_stable|].
  destruct (decide (id ∈ holders c')) as [?|Hh]; [done|].
  pose proof (g_release _ _ _ HG id Hn Hh) as Hl'. by destruct Ht; eapply has_excl.
Qed.
#[export] Instance LockOnly_released (t : nat) (id : string) : LockOnly (released t id).
Proof. intros c c' Hl Hh [H1 H2]. unfold released, has. by rewrite Hl, Hh. Qed.
#[export] Instance LockOnly_held (t : nat) (id : string) : LockOnly (held t id).
Proof. intros c c' Hl Hh [H1 H2]. unfold held, has. by rewrite Hl, Hh. Qed.

(** ** Effects on the core *)

Lemma shares_volume_spec (v x : Sandbox) :
  shares_volume v x = true <->
  exists m n, m ∈ s_Mounts (sb_Spec v) /\ n ∈ s_Mounts (sb_Spec x) /\ m_Name m = m_Name n.
Proof.
  unfold shares_volume. rewrite existsb_exists. setoid_rewrite existsb_exists.
  setoid_rewrite bool_decide_eq_true. setoid_rewrite <-list_elem_of_In. naive_solver.
Qed.

Lemma shares_volume_sym (v x : Sandbox) : shares_volume v x = shares_volume x v.
Proof. apply eq_true_iff_eq. rewrite !shares_volume_spec. naive_solver. Qed.

Lemma port_conflict_spec (s : Spec) (x : Sandbox) :
  port_conflict s x = true <->
  exists p q, p ∈ s_Ports s /\ q ∈ s_Ports (sb_Spec x) /\ p_HostPort p = p_HostPort q.
Proof.
  unfold port_conflict. rewrite existsb_exists. setoid_rewrite existsb_exists.
  setoid_rewrite Z.eqb_eq. setoid_rewrite <-list_elem_of_In. naive_solver.
Qed.

Lemma port_conflict_sym (v x : Sandbox) : port_conflict (sb_Spec v) x = port_conflict (sb_Spec x) v.
Proof. apply eq_true_iff_eq. rewrite !port_conflict_spec. naive_solver. Qed.

(** The core after the row [r] of [id] was rewritten with body [v]. *)
Definition put (id : string) (r : Row) (v : Sandbox) (h : gset string) (c : Core) : Core :=
  set_holders h (set_db (with_sandboxes (<[id := mkRow (r_name r) v]> (rows c)) (db c)) c).

(** When rewriting the body [x] of [id] by [v] is allowed to thread [t], with
    [h] the holders afterwards. *)
Record change_ok (t : nat) (c : Core) (id : string) (x v : Sandbox) (h : gset string) : Prop := {
  ch_static : static v = static x;
  ch_sized : sized v = sized x \/
    sb_BaseDigest x = "" /\ has t alloc c /\ 0 <= sb_GuestMemory v <= max_guest;
  ch_state : sb_BaseDigest x <> "" -> idle_state x -> sb_State v = sb_State x \/ has t id c;
  ch_known : sb_State x ∈ states -> sb_State v ∈ states;
  ch_gen : (id ∈ h -> id ∈ holders c) /\ sb_Generation v = sb_Generation x \/
    id ∉ holders c /\ id ∈ h /\ sb_Generation v = int64 (sb_Generation x + 1);
  ch_more : holders c ⊆ h;
  ch_reserve : id ∈ h -> reservesVMResources v = true;
  ch_new : forall j, j ∈ h -> j ∈ holders c \/
    j = id /\ has t id c /\ has t alloc c /\ sb_BaseDigest v <> "" /\
    (forall id2 r2, id2 ∈ holders c -> id2 <> id -> rows c !! id2 = Some r2 ->
       shares_volume v (r_body r2) = false)
}.

(** The rows after [put] have the static data of the rows before. *)
Lemma put_row (id : string) (r : Row) (v : Sandbox) (h : gset string) (c : Core) (j : string) (r' : Row) :
  rows c !! id = Some r -> static v = static (r_body r) ->
  rows (put id r v h c) !! j = Some r' ->
  exists r0, rows c !! j = Some r0 /\ static (r_body r') = static (r_body r0) /\ r_name r' = r_name r0 /\
    (j = id /\ r0 = r /\ r_body r' = v \/ j <> id /\ r' = r0).
Proof.
  intros Hr Hs. unfold rows, put. simpl. rewrite lookup_insert. case_decide as Hj.
  - subst j. intros [= <-]. exists r. split_and!; try done. left. done.
  - intros H. exists r'. split_and!; try done. right. done.
Qed.

(** Sandboxes with the same static data agree on everything the invariant
    says about two rows. *)
Lemma static_agree (a b x y : Sandbox) :
  static a = static x -> static b = static y ->
  shares_volume a b = shares_volume x y /\
  port_conflict (sb_Spec a) b = port_conflict (sb_Spec x) y.
Proof.
  unfold static, shares_volume, port_conflict. intros Ha Hb.
  by replace (sb_Spec a) with (sb_Spec x) by congruence;
    replace (sb_Spec b) with (sb_Spec y) by congruence.
Qed.

Section Put.
Context (t : nat) (c : Core) (id : string) (r : Row) (v : Sandbox) (h : gset string).
Context (HI : Inv c) (Hr : rows c !! id = Some r) (Hch : change_ok t c id (r_body r) v h).

Lemma put_row' (j : string) (r' : Row) :
  rows (put id r v h c) !! j = Some r' ->
  exists r0, rows c !! j = Some r0 /\ static (r_body r') = static (r_body r0) /\ r_name r' = r_name r0 /\
    (j = id /\ r0 = r /\ r_body r' = v \/ j <> id /\ r' = r0).
Proof. apply put_row; [done|apply Hch]. Qed.

Lemma put_disjoint (j1 j2 : string) (a b : Row) :
  j1 ∈ h -> j2 ∈ h -> j1 <> j2 -> rows c !! j1 = Some a -> rows c !! j2 = Some b ->
  shares_volume (r_body a) (r_body b) = false.
Proof.
  assert (forall k1 k2 x y, k1 ∈ h -> k2 ∈ holders c -> k1 <> k2 -> rows c !! k1 = Some x ->
    rows c !! k2 = Some y -> shares_volume (r_body x) (r_body y) = false) as Hd.
  { intros k1 k2 x y H1 H2 Hne Hx Hy. destruct (ch_new _ _ _ _ _ _ Hch k1 H1) as [?|(-> & _ & _ & _ & Hv)].
    - by apply (inv_disjoint c HI k1 k2).
    - rewrite <-(Hv k2 y) by auto. apply static_agree; [|done].
      replace x with r by congruence. symmetry. apply Hch. }
  intros H1 H2 Hne Ha Hb. destruct (ch_new _ _ _ _ _ _ Hch j2 H2) as [?|(-> & _)]; [by apply (Hd j1 j2)|].
  destruct (ch_new _ _ _ _ _ _ Hch j1 H1) as [?|(-> & _)]; [|done].
  rewrite shares_volume_sym. by apply (Hd id j1); auto.
Qed.

Lemma put_Inv : Inv (put id r v h c).
Proof.
  split.
  - intros j r' (r0 & H0 & Hs0 & Hn & _)%put_row'. destruct (inv_keyed c HI _ _ H0).
    unfold static in Hs0. split; congruence.
  - intros j r' (r0 & H0 & Hs0 & Hn & _)%put_row'. destruct (inv_names c HI _ _ H0). by rewrite Hn.
  - intros j1 j2 r1 r2 (a & Ha & _ & Hna & _)%put_row' (b & Hb & _ & Hnb & _)%put_row' E0.
    apply (inv_unique c HI _ _ _ _ Ha Hb). congruence.
  - intros j r' (r0 & H0 & Hs0 & _)%put_row'. pose proof (inv_slot c HI _ _ H0).
    unfold static in Hs0. by replace (sb_Slot (r_body r')) with (sb_Slot (r_body r0)) by congruence.
  - intros j1 j2 r1 r2 (a & Ha & Hsa & _)%put_row' (b & Hb & Hsb & _)%put_row' E0. unfold static in *.
    apply (inv_slots c HI _ _ _ _ Ha Hb). congruence.
  - intros j1 j2 r1 r2 (a & Ha & Hsa & _)%put_row' (b & Hb & Hsb & _)%put_row' E0.
    rewrite <-(inv_ports c HI _ _ _ _ Ha Hb E0). by apply static_agree.
  - intros j r' m (r0 & H0 & Hs0 & _)%put_row' Hm'. unfold static in Hs0.
    apply (inv_mounts c HI _ _ _ H0). by replace (sb_Spec (r_body r0)) with (sb_Spec (r_body r')) by congruence.
  - intros j r' (r0 & H0 & _ & _ & [(-> & -> & ->)|(_ & ->)])%put_row'; [|apply (inv_memory c HI _ _ H0)].
    destruct (ch_sized _ _ _ _ _ _ Hch) as [Hz|(_ & _ & Hz)]; [|done]. unfold sized in Hz.
    replace (sb_GuestMemory v) with (sb_GuestMemory (r_body r)) by congruence. apply (inv_memory c HI _ _ H0).
  - intros j r' (r0 & H0 & Hs0 & _)%put_row'. eapply well_formed_static; [exact Hs0|]. by apply (inv_formed c HI _ _ H0).
  - intros j r' (r0 & H0 & _ & _ & [(-> & -> & ->)|(_ & ->)])%put_row'; [|apply (inv_states c HI _ _ H0)].
    apply (ch_known _ _ _ _ _ _ Hch). apply (inv_states c HI _ _ H0).
  - intros j Hj. unfold rows, put. simpl. destruct (decide (j = id)) as [->|Hne].
    + exists (mkRow (r_name r) v). split; [by rewrite lookup_insert_eq|]. split; [by apply Hch|].
      destruct (ch_new _ _ _ _ _ _ Hch id Hj) as [Hj'|(_ & _ & _ & Hb & _)]; [|done]. simpl.
      destruct (inv_holders c HI id Hj') as (r0 & H0 & _ & Hb). replace r0 with r in Hb by congruence.
      destruct (ch_sized _ _ _ _ _ _ Hch) as [Hz|[Hz _]]; [|done]. unfold sized in Hz. congruence.
    + destruct (ch_new _ _ _ _ _ _ Hch j Hj) as [Hj'|[-> _]]; [|done].
      rewrite lookup_insert_ne by done. apply (inv_holders c HI j Hj').
  - intros j1 j2 r1 r2 Hj1 Hj2 E0 (a & Ha & Hsa & _)%put_row' (b & Hb & Hsb & _)%put_row'.
    rewrite <-(put_disjoint j1 j2 a b) by done. by apply static_agree.
  - pose proof (inv_live c HI). pose proof (ch_more _ _ _ _ _ _ Hch). simpl. set_solver.
Qed.

Lemma put_G : G t c (put id r v h c).
Proof.
  split.
  - intros j a b Ha (b0 & Hb & Hsb & _)%put_row'. congruence.
  - intros j a b Ha (b0 & Hb & _ & _ & [(-> & -> & ->)|(_ & ->)])%put_row'; [|left; congruence].
    replace a with r by congruence. pose proof (ch_sized _ _ _ _ _ _ Hch). tauto.
  - intros j a b Ha (b0 & Hb & _ & _ & [(-> & -> & ->)|(_ & ->)])%put_row'; [|left; congruence].
    replace a with r by congruence. apply Hch.
  - intros j a b Ha (b0 & Hb & _ & _ & [(-> & -> & ->)|(Hne & ->)])%put_row'.
    + replace a with r by congruence. exact (ch_gen _ _ _ _ _ _ Hch).
    + left. split; [|congruence]. intros Hj. by destruct (ch_new _ _ _ _ _ _ Hch j Hj) as [?|[? _]].
  - intros j b Ha (b0 & Hb & _)%put_row'. congruence.
  - intros j a Ha. unfold rows, put. simpl. rewrite lookup_insert. case_decide; [done|].
    intros Hb. unfold rows in *. congruence.
  - intros j Ha Hb. destruct (ch_new _ _ _ _ _ _ Hch j Hb) as [?|(-> & ? & ? & _)]; done.
  - intros j Ha Hb. pose proof (ch_more _ _ _ _ _ _ Hch). simpl in Hb. set_solver.
  - intros n [x Ha] Hb. simpl in Hb. congruence.
  - done.
Qed.
End Put.

(** Inserting a new row. *)
Definition add_row (v : Sandbox) (c : Core) : Core :=
  set_db (with_sandboxes (<[sb_ID v := mkRow (sb_Name v) v]> (rows c)) (db c)) c.

Record fresh_row (c : Core) (v : Sandbox) : Prop := {
  fr_id : is_id (sb_ID v) = true;
  fr_name : is_id (sb_Name v) = false;
  fr_new : rows c !! sb_ID v = None;
  fr_unique : forall id r, rows c !! id = Some r -> r_name r <> sb_Name v;
  fr_slot : 1 <= sb_Slot v <= 16000;
  fr_slots : forall id r, rows c !! id = Some r -> sb_Slot (r_body r) <> sb_Slot v;
  fr_ports : forall id r, rows c !! id = Some r -> port_conflict (sb_Spec v) (r_body r) = false;
  fr_mounts : forall m, m ∈ s_Mounts (sb_Spec v) -> is_Some (volumes (db c) !! m_Name m);
  fr_memory : 0 <= sb_GuestMemory v <= max_guest;
  fr_formed : well_formed v;
  fr_state : sb_State v ∈ states
}.

Lemma add_row_lookup (v : Sandbox) (c : Core) (j : string) (r' : Row) :
  rows (add_row v c) !! j = Some r' ->
  j = sb_ID v /\ r' = mkRow (sb_Name v) v \/ j <> sb_ID v /\ rows c !! j = Some r'.
Proof.
  unfold rows, add_row. simpl. rewrite lookup_insert. case_decide; [|by auto].
  intros [= <-]. by auto.
Qed.

Lemma add_row_Inv (c : Core) (v : Sandbox) : Inv c -> fresh_row c v -> Inv (add_row v c).
Proof.
  intros HI [Hid Hnm Hnew Huq Hsl Hsls Hpo Hmo Hme Hwf Hst]. split.
  - intros j r' [[-> ->]|[_ H]]%add_row_lookup; [done|by apply (inv_keyed c HI)].
  - intros j r' [[-> ->]|[_ H]]%add_row_lookup; [done|by apply (inv_names c HI)].
  - intros j1 j2 r1 r2 [[-> ->]|[N1 H1]]%add_row_lookup [[-> ->]|[N2 H2]]%add_row_lookup E0;
      [done| | |by eapply (inv_unique c HI)].
    + by destruct (Huq _ _ H2).
    + by destruct (Huq _ _ H1).
  - intros j r' [[-> ->]|[_ H]]%add_row_lookup; [done|by eapply (inv_slot c HI)].
  - intros j1 j2 r1 r2 [[-> ->]|[N1 H1]]%add_row_lookup [[-> ->]|[N2 H2]]%add_row_lookup E0;
      [done| | |by eapply (inv_slots c HI)].
    + by destruct (Hsls _ _ H2).
    + by destruct (Hsls _ _ H1).
  - intros j1 j2 r1 r2 [[-> ->]|[N1 H1]]%add_row_lookup [[-> ->]|[N2 H2]]%add_row_lookup E0;
      [done| | |by eapply (inv_ports c HI)].
    + by eapply Hpo.
    + rewrite port_conflict_sym. by eapply Hpo.
  - intros j r' m [[-> ->]|[_ H]]%add_row_lookup Hm; [by apply Hmo|by eapply (inv_mounts c HI)].
  - intros j r' [[-> ->]|[_ H]]%add_row_lookup; [done|by eapply (inv_memory c HI)].
  - intros j r' [[-> ->]|[_ H]]%add_row_lookup; [done|by eapply (inv_formed c HI)].
  - intros j r' [[-> ->]|[_ H]]%add_row_lookup; [done|by eapply (inv_states c HI)].
  - intros j Hj. destruct (inv_holders c HI j Hj) as (r0 & H0 & H1). exists r0. split; [|done].
    unfold rows, add_row. simpl. rewrite lookup_insert_ne; [done|]. congruence.
  - intros j1 j2 r1 r2 Hj1 Hj2 E0 [[-> ->]|[N1 H1]]%add_row_lookup [[-> ->]|[N2 H2]]%add_row_lookup;
      [done| | |by eapply (inv_disjoint c HI j1 j2)].
    + destruct (inv_holders c HI _ Hj1) as (? & ? & ?). congruence.
    + destruct (inv_holders c HI _ Hj2) as (? & ? & ?). congruence.
  - apply (inv_live c HI).
Qed.

Lemma add_row_G (t : nat) (c : Core) (v : Sandbox) :
  rows c !! sb_ID v = None -> has t alloc c -> sb_Generation v = 0 -> G t c (add_row v c).
Proof.
  intros Hn Ha Hg. split; try done.
  - intros j r r' H [[-> ->]|[N1 H1]]%add_row_lookup; congruence.
  - intros j r r' H [[-> ->]|[N1 H1]]%add_row_lookup; [congruence|left; congruence].
  - intros j r r' H [[-> ->]|[N1 H1]]%add_row_lookup; [congruence|left; congruence].
  - intros j r r' H [[-> ->]|[N1 H1]]%add_row_lookup; [congruence|]. left. split; [done|congruence].
  - intros j r' H [[-> ->]|[N1 H1]]%add_row_lookup; [done|congruence].
  - intros j r H Hd. unfold rows, add_row in Hd. simpl in Hd. rewrite lookup_insert in Hd.
    case_decide; congruence.
Qed.

(** Deleting the row of a sandbox that holds nothing. *)
Definition drop_row (id : string) (c : Core) : Core := set_db (Delete (db c) id) c.

Lemma drop_row_lookup (id : string) (c : Core) (j : string) (r : Row) :
  rows (drop_row id c) !! j = Some r -> j <> id /\ rows c !! j = Some r.
Proof. unfold rows, drop_row. simpl. rewrite lookup_delete_Some. naive_solver. Qed.

Lemma drop_row_sound (t : nat) (id : string) (c : Core) :
  Inv c -> released t id c -> Inv (drop_row id c) /\ G t c (drop_row id c).
Proof.
  intros HI [Hl Hh]. split; split; try done.
  - intros j r [_ H]%drop_row_lookup. by apply (inv_keyed c HI).
  - intros j r [_ H]%drop_row_lookup. by apply (inv_names c HI).
  - intros j1 j2 r1 r2 [_ H1]%drop_row_lookup [_ H2]%drop_row_lookup. by apply (inv_unique c HI).
  - intros j r [_ H]%drop_row_lookup. by eapply (inv_slot c HI).
  - intros j1 j2 r1 r2 [_ H1]%drop_row_lookup [_ H2]%drop_row_lookup. by apply (inv_slots c HI).
  - intros j1 j2 r1 r2 [_ H1]%drop_row_lookup [_ H2]%drop_row_lookup. by apply (inv_ports c HI).
  - intros j r m [_ H]%drop_row_lookup. by eapply (inv_mounts c HI).
  - intros j r [_ H]%drop_row_lookup. by eapply (inv_memory c HI).
  - intros j r [_ H]%drop_row_lookup. by eapply (inv_formed c HI).
  - intros j r [_ H]%drop_row_lookup. by eapply (inv_states c HI).
  - intros j Hj. destruct (inv_holders c HI j Hj) as (r & H0 & H1). exists r. split; [|done].
    unfold rows, drop_row. simpl. rewrite lookup_delete_ne; [done|]. intros ->. by apply Hh.
  - intros j1 j2 r1 r2 Hj1 Hj2 Hne [_ H1]%drop_row_lookup [_ H2]%drop_row_lookup.
    by eapply (inv_disjoint c HI j1 j2).
  - apply (inv_live c HI).
  - intros j r r' H [_ H1]%drop_row_lookup. congruence.
  - intros j r r' H [_ H1]%drop_row_lookup. left. congruence.
  - intros j r r' H [_ H1]%drop_row_lookup _ _. left. congruence.
  - intros j r r' H [_ H1]%drop_row_lookup. left. split; [done|congruence].
  - intros j r' H [_ H1]%drop_row_lookup. congruence.
  - intros j r H. unfold rows, drop_row in *. simpl. rewrite lookup_delete. case_decide; congruence.
  - intros n [x Ha] Hb. simpl in Hb. congruence.
Qed.

(** Steps that keep the rows: the other fields of the core. *)
Lemma same_rows_G (t : nat) (c c' : Core) :
  rows c' = rows c ->
  (forall id, id ∈ holders c' -> id ∈ holders c) ->
  (forall id, id ∈ holders c -> id ∉ holders c' -> has t id c) ->
  (forall n, is_Some (volumes (db c) !! n) -> volumes (db c') !! n = None -> has t alloc c) ->
  (forall l t', t' <> t -> locks c !! l = Some t' <-> locks c' !! l = Some t') ->
  G t c c'.
Proof.
  intros Hr Hh1 Hh2 Hv Hl. split; rewrite ?Hr; try done.
  - intros id r r' H1 H2. congruence.
  - intros id r r' H1 H2. left. congruence.
  - intros id r r' H1 H2 _ _. left. congruence.
  - intros id r r' H1 H2. left. split; [auto|congruence].
  - intros id r' H1 H2. congruence.
  - intros id r H1 H2. congruence.
  - intros id H1 H2%Hh1. done.
Qed.

Lemma same_rows_Inv (c c' : Core) :
  Inv c -> rows c' = rows c -> holders c' ⊆ holders c -> live c' ⊆ holders c' ->
  (forall id r m, rows c !! id = Some r -> m ∈ s_Mounts (sb_Spec (r_body r)) ->
     is_Some (volumes (db c') !! m_Name m)) ->
  Inv c'.
Proof.
  intros HI Hr Hh Hl Hv. split; rewrite ?Hr; try done; try apply HI.
  - intros id Hid. apply (inv_holders c HI). set_solver.
  - intros id1 id2 r1 r2 H1 H2. apply (inv_disjoint c HI); set_solver.
Qed.

(** The invariant and the guarantee do not look at the event log. *)
Lemma quiet_sound (t : nat) (c c1 c2 : Core) :
  rows c2 = rows c1 -> volumes (db c2) = volumes (db c1) -> locks c2 = locks c1 ->
  holders c2 = holders c1 -> live c2 = live c1 -> Inv c1 -> G t c c1 -> Inv c2 /\ G t c c2.
Proof.
  intros Hr Hv Hl Hh Hlv HI HG. split.
  - apply (same_rows_Inv c1); [done|done|by rewrite Hh|rewrite Hlv, Hh; apply HI|].
    rewrite Hv. apply (inv_mounts c1 HI).
  - destruct HG. split; rewrite ?Hr, ?Hv, ?Hh, ?Hl; done.
Qed.

(** ** The logic *)

(** What the handlers rely on of the base store: a pulled base has a validated
    configuration, and no base is stored under the empty reference.  The
    store keeps both promises (BaseEnv.v). *)
Class EnvOK (E : Env) : Prop := mkEnvOK {
  base_pull_valid : forall n ref policy auth b,
    e_base_pull E n ref policy auth = Ok b -> valid_config (sg_Config (b_Signed b));
  base_get_named : forall n b, e_base_get E n "" <> Ok b
}.

Section Logic.
Variable E : Env.

(** A lock is requested only by a thread that does not hold it, and while any
    lock is held only the lock "allocations"; a lock is released by its
    holder. *)
Definition may (t : nat) {R} (op : Op R) (c : Core) : Prop :=
  match op with
  | OLock l => forall l', has t l' c -> l' <> l /\ l = alloc
  | OUnlock l => has t l c
  | _ => True
  end.

Definition op_ok (t : nat) {R} (op : Op R) (P : Core -> Prop) (M : R -> Core -> Prop) : Prop :=
  forall w, Inv (core w) -> P (core w) ->
    may t op (core w) /\
    forall w' r, exec E t op w = Some (w', r) ->
      Inv (core w') /\ G t (core w) (core w') /\ M r (core w').

Fixpoint ok {A} (t : nat) (P : Core -> Prop) (p : Prog A) (Q : A -> Core -> Prop) : Prop :=
  match p with
  | Ret a => forall c, Inv c -> P c -> Q a c
  | @Do _ R op k =>
      exists M : R -> Core -> Prop,
        (forall r, Stable t (M r)) /\ op_ok t op P M /\ forall r, ok t (M r) (k r) Q
  end.

Lemma ok_conseq {A} (t : nat) (p : Prog A) (P P' : Core -> Prop) (Q Q' : A -> Core -> Prop) :
  ok t P p Q -> (forall c, Inv c -> P' c -> P c) -> (forall a c, Inv c -> Q a c -> Q' a c) ->
  ok t P' p Q'.
Proof.
  revert P P'. induction p as [a|R op k IH]; simpl; intros P P' H HP HQ.
  - eauto.
  - destruct H as (M & HM & Hop & Hk). exists M. split; [done|]. split.
    + intros w HI Hp. apply Hop; auto.
    + intros r. eapply IH; eauto.
Qed.

Lemma ok_pre {A} (t : nat) (p : Prog A) (P P' : Core -> Prop) (Q : A -> Core -> Prop) :
  ok t P p Q -> (forall c, Inv c -> P' c -> P c) -> ok t P' p Q.
Proof. intros. eapply ok_conseq; eauto. Qed.

Lemma ok_bind {A B} (t : nat) (p : Prog A) (f : A -> Prog B) (P : Core -> Prop)
    (M : A -> Core -> Prop) (Q : B -> Core -> Prop) :
  ok t P p M -> (forall a, ok t (M a) (f a) Q) -> ok t P (bind p f) Q.
Proof.
  revert P. induction p as [a|R op k IH]; simpl; intros P H Hf.
  - eapply ok_pre; [apply Hf|]. auto.
  - destruct H as (N & HN & Hop & Hk). exists N. split; [done|]. split; [done|]. eauto.
Qed.

(** *** Operations that leave the core alone *)

Definition neutral {R} (op : Op R) : bool :=
  match op with
  | OLock _ | OUnlock _ | OCreate _ | OUpdate _ _ | OIntent _ _ | ODelete _ | OPutVolume _
  | ODeleteVolume _ | OVMStart _ _ | OVMKill _ => false
  | _ => true
  end.

Lemma exec_neutral (t : nat) {R} (op : Op R) (w w' : World) (r : R) :
  neutral op = true -> exec E t op w = Some (w', r) -> core w' = core w.
Proof.
  destruct op; simpl; intros Hn; try discriminate Hn; unfold db_call, db_read, reserve, start_dns, monitor_enter, monitor_leave;
    repeat case_match; intros; simplify_eq; done.
Qed.

Lemma ok_neutral {A R} (t : nat) (op : Op R) (k : R -> Prog A) (P : Core -> Prop)
    (phi : R -> Core -> Prop) (Q : A -> Core -> Prop) :
  neutral op = true -> (forall r, Stable t (fun c => P c /\ phi r c)) ->
  (forall w w' r, Inv (core w) -> P (core w) -> exec E t op w = Some (w', r) -> phi r (core w)) ->
  (forall r, ok t (fun c => P c /\ phi r c) (k r) Q) -> ok t P (Do op k) Q.
Proof.
  intros Hn HS Hphi Hk. exists (fun r c => P c /\ phi r c). split; [done|]. split; [|done].
  intros w HI HP. split.
  - by destruct op.
  - intros w' r He. rewrite (exec_neutral _ _ _ _ _ Hn He). split_and!; [done|apply G_refl|done|eauto].
Qed.

Lemma ok_skip {A R} (t : nat) (op : Op R) (k : R -> Prog A) (P : Core -> Prop)
    (Q : A -> Core -> Prop) :
  neutral op = true -> Stable t P -> (forall r, ok t P (k r) Q) -> ok t P (Do op k) Q.
Proof.
  intros Hn HS Hk. apply (ok_neutral t op k P (fun _ _ => True)); [done|apply _|done|].
  intros r. eapply ok_pre; [apply Hk|]. by intros c _ [? _].
Qed.

(** *** Operations on the database *)

(** [db_op op d r w]: the operation replaces the database by [d]. *)
Lemma ok_db {A R} (t : nat) (op : Op R) (k : R -> Prog A) (P : Core -> Prop) (Q : A -> Core -> Prop) :
  Stable t P -> LockOnly P -> (forall c, may t op c) ->
  (forall w w' r, Inv (core w) -> P (core w) -> exec E t op w = Some (w', r) ->
     locks (core w') = locks (core w) /\ holders (core w') = holders (core w) /\
     Inv (core w') /\ G t (core w) (core w')) ->
  (forall r, ok t P (k r) Q) -> ok t P (Do op k) Q.
Proof.
  intros HS HL Hm He Hk. exists (fun _ => P). split; [done|]. split; [|done].
  intros w HI HP. split; [apply Hm|]. intros w' r Hx.
  destruct (He _ _ _ HI HP Hx) as (Hl & Hh & HI' & HG). split_and!; [done|done|].
  by eapply HL.
Qed.

Lemma ok_false {A} (t : nat) (p : Prog A) (Q : A -> Core -> Prop) : ok t (fun _ => False) p Q.
Proof.
  induction p as [a|R op k IH]; simpl; [done|]. exists (fun _ _ => False).
  split; [intros r; apply _|]. split; [|done]. by intros w _ [].
Qed.

(** A decidable fact of the precondition becomes a hypothesis. *)
Lemma ok_pure {A} (t : nat) (phi : Prop) `{Decision phi} (p : Prog A) (P : Core -> Prop)
    (Q : A -> Core -> Prop) :
  (forall c, Inv c -> P c -> phi) -> (phi -> ok t P p Q) -> ok t P p Q.
Proof.
  intros Hp Hk. destruct (decide phi) as [Hphi|Hn]; [auto|].
  eapply ok_pre; [apply ok_false|]. intros c HI HP. apply Hn. eauto.
Qed.

(** Rewriting a row without a new holder; a failed update changes nothing. *)
Lemma ok_update_gen {A} (t : nat) (id : string) (fn : Sandbox -> result Sandbox)
    (k : result unit -> Prog A) (P M : Core -> Prop) (Q : A -> Core -> Prop) :
  Stable t P -> Stable t M -> LockOnly M -> (forall c, P c -> M c) ->
  (forall c r v, Inv c -> P c -> rows c !! id = Some r -> fn (r_body r) = Ok v ->
     change_ok t c id (r_body r) v (holders c) /\
     (is_starting v = true -> is_starting (r_body r) = true)) ->
  ok t M (k (Ok tt)) Q -> (forall e, ok t P (k (Err e)) Q) -> ok t P (Do (OUpdate id fn) k) Q.
Proof.
  intros HS HS' HL HPM Hch Hk Hk'. exists (fun r => if is_ok r then M else P).
  split; [by intros [[]|e]|]. split; [|by intros [[]|e]].
  intros w HI HP. split; [done|]. intros w' r. simpl. unfold db_call. destruct (e_db E (tick w)) eqn:Ed.
  { intros [= <- <-]. split_and!; try done. apply G_refl. }
  unfold Update. simpl. destruct (sandboxes (db (core w)) !! id) as [r0|] eqn:Er; simpl.
  2:{ intros [= <- <-]. split_and!; try done. apply G_refl. }
  destruct (fn (r_body r0)) as [v|e] eqn:Ef; simpl.
  2:{ intros [= <- <-]. split_and!; try done. apply G_refl. }
  intros [= <- <-]. destruct (Hch _ _ _ HI HP Er Ef) as [Hc Hs]. simpl.
  assert (claim id (rows (core w)) (<[id := mkRow (r_name r0) (set_Updated (e_now E (tick w)) v)]>
            (sandboxes (db (core w)))) (holders (core w)) = holders (core w)) as Hcl.
  { unfold claim, rows. rewrite Er, lookup_insert_eq. simpl.
    destruct (is_starting (r_body r0)) eqn:E0; [done|]. simpl.
    destruct (is_starting (set_Updated _ v)) eqn:E1; [|done].
    unfold is_starting in *. simpl in E1. naive_solver congruence. }
  rewrite Hcl.
  assert (change_ok t (core w) id (r_body r0) (set_Updated (e_now E (tick w)) v) (holders (core w))) as Hc'.
  { by destruct Hc. }
  split_and!; [by apply (put_Inv t (core w) id r0)|by apply (put_G t (core w) id r0)|].
  eapply lock_only; [..|exact (HPM _ HP)]; done.
Qed.

Lemma ok_update {A} (t : nat) (id : string) (fn : Sandbox -> result Sandbox)
    (k : result unit -> Prog A) (P : Core -> Prop) (Q : A -> Core -> Prop) :
  Stable t P -> LockOnly P ->
  (forall c r v, Inv c -> P c -> rows c !! id = Some r -> fn (r_body r) = Ok v ->
     change_ok t c id (r_body r) v (holders c) /\
     (is_starting v = true -> is_starting (r_body r) = true)) ->
  (forall r, ok t P (k r) Q) -> ok t P (Do (OUpdate id fn) k) Q.
Proof. intros. by apply (ok_update_gen t id fn k P P). Qed.

Lemma same_db_sound (t : nat) (c : Core) (d : DB) :
  Inv c -> sandboxes d = rows c ->
  (forall n, is_Some (volumes (db c) !! n) -> is_Some (volumes d !! n)) ->
  Inv (set_db d c) /\ G t c (set_db d c).
Proof.
  intros HI Hr Hv. split.
  - apply (same_rows_Inv c); try done; [apply HI|]. intros id r m Hr' Hm.
    apply Hv. by eapply (inv_mounts c HI).
  - apply same_rows_G; try done. intros n Hn Hn'. simpl in Hn'. destruct (Hv n Hn). congruence.
Qed.

Lemma ok_intent {A} (t : nat) (id action : string) (k : result unit -> Prog A) (P : Core -> Prop)
    (Q : A -> Core -> Prop) :
  Stable t P -> Quiet P -> (forall r, ok t P (k r) Q) -> ok t P (Do (OIntent id action) k) Q.
Proof.
  intros HS HL Hk. exists (fun _ => P). split; [done|]. split; [|done].
  intros w HI HP. split; [done|]. intros w' r. simpl. unfold db_call. destruct (e_db E (tick w)).
  { intros [= <- _]. split_and!; try done. apply G_refl. }
  simpl. intros [= <- _].
  destruct (same_db_sound t (core w) (Intent (db (core w)) (e_now E (tick w)) id action)) as [H1 H2];
    [done|done|done|]. split_and!; [done|done|]. by apply (HL (core w)).
Qed.

Lemma ok_delete {A} (t : nat) (id : string) (k : result unit -> Prog A) (P : Core -> Prop)
    (Q : A -> Core -> Prop) :
  Stable t P -> LockOnly P -> (forall c, P c -> released t id c) ->
  (forall r, ok t P (k r) Q) -> ok t P (Do (ODelete id) k) Q.
Proof.
  intros HS HL Hrel Hk. apply ok_db; [done|done|done| |done].
  intros w w' r HI HP. simpl. unfold db_call. destruct (e_db E (tick w)); simpl.
  { intros [= <- _]. split_and!; try done. apply G_refl. }
  intros [= <- _]. split; [done|]. split; [done|]. apply drop_row_sound; auto.
Qed.

Lemma ok_put_volume {A} (t : nat) (v : Volume) (k : result unit -> Prog A) (P : Core -> Prop)
    (Q : A -> Core -> Prop) :
  Stable t P -> LockOnly P -> (forall r, ok t P (k r) Q) -> ok t P (Do (OPutVolume v) k) Q.
Proof.
  intros HS HL Hk. apply ok_db; [done|done|done| |done].
  intros w w' r HI HP. simpl. unfold db_call. destruct (e_db E (tick w)).
  { intros [= <- _]. split_and!; try done. apply G_refl. }
  unfold PutVolume. simpl. destruct (volumes (db (core w)) !! vol_Name v) eqn:Ev; simpl; intros [= <- _].
  { split_and!; try done. apply G_refl. }
  split; [done|]. split; [done|]. apply same_db_sound; [done|done|].
  intros n Hn. simpl. rewrite lookup_insert. case_decide; [by eexists|done].
Qed.

(** A volume is deleted only when no stored sandbox mounts it. *)
Definition unreferenced (t : nat) (name : string) (c : Core) : Prop :=
  has t alloc c /\ forall id r, rows c !! id = Some r -> mounts_volume name (r_body r) = false.

Lemma ok_delete_volume {A} (t : nat) (name : string) (k : result unit -> Prog A) (P M : Core -> Prop)
    (Q : A -> Core -> Prop) :
  Stable t M -> LockOnly M -> (forall c, P c -> unreferenced t name c /\ M c) ->
  (forall r, ok t M (k r) Q) -> ok t P (Do (ODeleteVolume name) k) Q.
Proof.
  intros HS HL HP Hk. exists (fun _ => M). split; [done|]. split; [|done].
  intros w HI Hp. split; [done|]. destruct (HP _ Hp) as [[Ha Hu] HM]. intros w' r. simpl.
  unfold db_call. destruct (e_db E (tick w)); simpl.
  { intros [= <- _]. split_and!; try done. apply G_refl. }
  intros [= <- _]. split_and!.
  - apply (same_rows_Inv (core w)); try done; [apply HI|]. intros id r0 m Hr Hm. simpl.
    rewrite lookup_delete_ne; [by eapply (inv_mounts _ HI)|]. intros Heq.
    specialize (Hu _ _ Hr). unfold mounts_volume in Hu. apply not_true_iff_false in Hu.
    destruct Hu. apply existsb_exists. exists m. rewrite <-list_elem_of_In, bool_decide_eq_true. done.
  - apply same_rows_G; done.
  - by eapply lock_only; [..|exact HM].
Qed.

(** A confirmed kill gives the resources up. *)
Lemma ok_kill {A} (t : nat) (v : Sandbox) (k : result unit -> Prog A) (h : gset string)
    (Q : A -> Core -> Prop) :
  sb_ID v ∈ h ->
  ok t (fun c => owns t h c /\ released t (sb_ID v) c) (k (Ok tt)) Q ->
  (forall e, ok t (owns t h) (k (Err e)) Q) -> ok t (owns t h) (Do (OVMKill v) k) Q.
Proof.
  intros Hv Hok Herr. exists (fun r c => owns t h c /\ (is_ok r = true -> released t (sb_ID v) c)).
  split; [intros r; apply _|]. split.
  - intros w HI Ho. split; [done|]. intros w' r. simpl.
    assert (has t (sb_ID v) (core w)) as Hl by by apply Ho.
    destruct (e_vm_kill E (tick w) v) as [[]|e]; intros [= <- <-]; simpl.
    + split_and!.
      * pose proof (inv_live _ HI). apply (same_rows_Inv (core w)); simpl; try set_solver.
        apply (inv_mounts _ HI).
      * apply same_rows_G; simpl; [done|set_solver| |by intros n [x Hn] Hn'; congruence|done].
        intros id H1 H2. destruct (decide (id = sb_ID v)) as [->|]; [done|]. destruct H2. set_solver.
      * done.
      * intros _. split; [done|]. simpl. set_solver.
    + split_and!; try done. apply G_refl.
  - intros [[]|e]; [eapply ok_pre; [exact Hok|]|eapply ok_pre; [apply Herr|]]; naive_solver.
Qed.

(** A VMM is started only for a holder. *)
Lemma ok_vm_start {A} (t : nat) (v : Sandbox) (b : Bundle) (k : Z * string * option error -> Prog A)
    (P : Core -> Prop) (Q : A -> Core -> Prop) :
  Stable t P -> LockOnly P -> (forall c, P c -> held t (sb_ID v) c) ->
  (forall r, ok t P (k r) Q) -> ok t P (Do (OVMStart v b) k) Q.
Proof.
  intros HS HL Hh Hk. apply ok_db; [done|done|done| |done].
  intros w w' r HI HP. simpl. intros [= <- _]. simpl. destruct (Hh _ HP) as [_ Hi].
  split; [done|]. split; [done|]. split.
  - apply (same_rows_Inv (core w)); try done; simpl; [|apply (inv_mounts _ HI)].
    pose proof (inv_live _ HI). set_solver.
  - apply same_rows_G; try done. intros n [x Hn] Hn'. simpl in Hn'. congruence.
Qed.

(** *** Locks *)

Definition acquire (t : nat) (l : string) (c : Core) : Core := set_locks (<[l := t]> (locks c)) c.
Definition release (l : string) (c : Core) : Core := set_locks (delete l (locks c)) c.

Lemma locks_sound (t : nat) (c : Core) (ls : gmap string nat) :
  Inv c -> (forall l t', t' <> t -> locks c !! l = Some t' <-> ls !! l = Some t') ->
  Inv (set_locks ls c) /\ G t c (set_locks ls c).
Proof.
  intros HI Hl. split.
  - apply (same_rows_Inv c); try done; apply HI.
  - apply same_rows_G; try done. intros n [x Hn] Hn'. simpl in Hn'. congruence.
Qed.

Lemma owns_acquire (t : nat) (l : string) (h : gset string) (c : Core) :
  owns t h c -> owns t ({[l]} ∪ h) (acquire t l c).
Proof.
  intros Ho l'. unfold has, acquire. simpl. rewrite lookup_insert. case_decide; [set_solver|].
  rewrite (Ho l'). set_solver.
Qed.

Lemma owns_release (t : nat) (l : string) (h : gset string) (c : Core) :
  l ∉ h -> owns t ({[l]} ∪ h) c -> owns t h (release l c).
Proof.
  intros Hl Ho l'. unfold has, release. simpl. rewrite lookup_delete. case_decide; [set_solver|].
  rewrite (Ho l'). set_solver.
Qed.

Lemma ok_with_lock {A} (t : nat) (l : string) (h : gset string) (body : Prog A) (P : Core -> Prop)
    (Q : A -> Core -> Prop) :
  l ∉ h -> (h = ∅ \/ l = alloc) -> Stable t P -> (forall a, Stable t (Q a)) ->
  (forall c, P c -> P (acquire t l c)) -> (forall a c, Q a c -> Q a (release l c)) ->
  ok t (fun c => owns t ({[l]} ∪ h) c /\ P c) body (fun a c => owns t ({[l]} ∪ h) c /\ Q a c) ->
  ok t (fun c => owns t h c /\ P c) (with_lock l body) (fun a c => owns t h c /\ Q a c).
Proof.
  intros Hl Hord HSP HSQ Hacq Hrel Hb. unfold with_lock.
  exists (fun _ c => owns t ({[l]} ∪ h) c /\ P c). split; [intros; apply _|]. split.
  - intros w HI [Ho HP]. split.
    { intros l' Hl'%Ho. destruct Hord as [Hh|Hh]; subst; set_solver. }
    intros w' r. simpl. destruct (locks (core w) !! l) eqn:El; [done|]. intros [= <- _]. simpl.
    destruct (locks_sound t (core w) (<[l := t]> (locks (core w)))) as [H1 H2]; [done| |].
    { intros l0 t' Hne. rewrite lookup_insert. case_decide; [|done]. subst. naive_solver. }
    split_and!; [done|done| |by apply Hacq]. by apply owns_acquire.
  - intros _. eapply ok_bind; [exact Hb|]. intros a.
    exists (fun _ c => owns t h c /\ Q a c). split; [intros; apply _|]. split; [|by intros _ c].
    intros w HI [Ho HQ]. assert (has t l (core w)) as Hhas by (apply Ho; set_solver).
    split; [done|]. intros w' r. simpl. unfold has in Hhas. rewrite Hhas, Nat.eqb_refl. intros [= <- _].
    simpl. destruct (locks_sound t (core w) (delete l (locks (core w)))) as [H1 H2]; [done| |].
    { intros l0 t' Hne. rewrite lookup_delete. case_decide; [|done]. subst. naive_solver. }
    split_and!; [done|done| |by apply Hrel]. by apply owns_release.
Qed.
End Logic.

(** ** The concurrent system *)

Section Pool.
Context (E : Env) {A : Type} (entry : Prog A -> Prop).

(** A pool is the world and the program left to every thread. *)
Definition pool : Type := World * gmap nat (Prog A).

Inductive pool_step : pool -> pool -> Prop :=
| pool_run (t : nat) (p p' : Prog A) (w w' : World) (T : gmap nat (Prog A)) :
    T !! t = Some p -> step E t p w = Some (w', p') -> pool_step (w, T) (w', <[t := p']> T)
| pool_new (t : nat) (p : Prog A) (w : World) (T : gmap nat (Prog A)) :
    T !! t = None -> entry p -> pool_step (w, T) (w, <[t := p]> T).

Hypothesis entry_ok : forall t p, entry p -> ok E t (owns t ∅) p (fun _ => owns t ∅).

Definition thread_ok (c : Core) (t : nat) (p : Prog A) : Prop :=
  exists P, Stable t P /\ P c /\ ok E t P p (fun _ => owns t ∅).

Record pool_ok (s : pool) : Prop := mkPoolOk {
  po_inv : Inv (core s.1);
  po_owner : forall l t, has t l (core s.1) -> is_Some (s.2 !! t);
  po_thread : forall t p, s.2 !! t = Some p -> thread_ok (core s.1) t p
}.

Lemma pool_step_ok (s s' : pool) : pool_step s s' -> pool_ok s -> pool_ok s'.
Proof.
  intros [t p p' w w' T Ht Hs|t p w T Ht Hp] [HI Ho Hth]; simpl in *.
  - destruct (Hth t p Ht) as (P & HS & HP & Hok). unfold step in Hs.
    destruct p as [a|R op k]; [done|]. destruct (exec E t op w) as [[w1 r]|] eqn:Ex; [|done].
    injection Hs as -> <-. destruct Hok as (M & HM & Hop & Hk).
    destruct (Hop w HI HP) as [_ Hx]. destruct (Hx _ _ Ex) as (HI' & HG & HMr). split; simpl.
    + done.
    + intros l t' Hl. rewrite lookup_insert. case_decide as Hd; [by eexists|].
      apply (Ho l). apply (g_locks _ _ _ HG l t'); [congruence|done].
    + intros t' q. rewrite lookup_insert. case_decide as Hd.
      * subst t'. intros [= <-]. exists (M r). done.
      * intros (P' & HS' & HP' & Hok')%Hth. exists P'. split; [done|]. split; [|done].
        by eapply (HS' t (core w) (core w')).
  - split; simpl.
    + done.
    + intros l t' Hl. rewrite lookup_insert. case_decide; [by eexists|by eapply Ho].
    + intros t' q. rewrite lookup_insert. case_decide as Hd; [|apply Hth].
      subst t'. intros [= <-]. exists (owns t ∅). split; [apply _|]. split; [|by apply entry_ok].
      intros l. split; [|set_solver]. intros [x Hx]%Ho. congruence.
Qed.

Lemma pool_safe (s s' : pool) : rtc pool_step s s' -> pool_ok s -> pool_ok s'.
Proof. induction 1; eauto using pool_step_ok. Qed.

(** The lock an operation waits for. *)
Definition waits {R} (op : Op R) : option string := match op with OLock l => Some l | _ => None end.

Lemma exec_total (t : nat) {R} (op : Op R) (w : World) :
  may t op (core w) -> (forall l, waits op = Some l -> locks (core w) !! l = None) ->
  is_Some (exec E t op w).
Proof.
  destruct op; simpl; intros Hm Hl; unfold db_call; repeat case_match; try by eexists.
  - specialize (Hl _ eq_refl). congruence.
  - unfold has in Hm. rewrite Hm in *. simplify_eq. by rewrite Nat.eqb_refl in *.
  - unfold has in Hm. congruence.
Qed.

Lemma thread_runs (w : World) (T : gmap nat (Prog A)) (t : nat) {R} (op : Op R) (k : R -> Prog A) :
  pool_ok (w, T) -> T !! t = Some (Do op k) ->
  (forall l, waits op = Some l -> locks (core w) !! l = None) ->
  exists w' p', step E t (Do op k) w = Some (w', p').
Proof.
  intros [HI _ Hth] Ht Hl. destruct (Hth _ _ Ht) as (P & _ & HP & M & _ & Hop & _).
  destruct (Hop w HI HP) as [Hm _]. destruct (exec_total t op w Hm Hl) as [[w' r] Hx].
  exists w', (k r). simpl. by rewrite Hx.
Qed.

(** The holder of a lock is not finished and waits, if at all, for the lock
    "allocations", which it does not hold. *)
Lemma holder_runs (w : World) (T : gmap nat (Prog A)) (t : nat) (l : string) :
  pool_ok (w, T) -> has t l (core w) ->
  exists R (op : Op R) k, T !! t = Some (Do op k) /\
    forall l', waits op = Some l' -> l <> l' /\ l' = alloc.
Proof.
  intros [HI Ho Hth] Hl. simpl in *. destruct (Ho _ _ Hl) as [p Hp].
  destruct (Hth _ _ Hp) as (P & HS & HP & Hok). destruct p as [a|R op k].
  - apply (Hok _ HI HP) in Hl. set_solver.
  - exists R, op, k. split; [done|]. destruct Hok as (M & _ & Hop & _).
    destruct (Hop w HI HP) as [Hm _]. intros l' Hw.
    destruct op; try discriminate Hw. injection Hw as <-. by apply Hm.
Qed.

(** In a pool that is not finished some thread can take a step. *)
Lemma pool_progress (w : World) (T : gmap nat (Prog A)) (t : nat) {R} (op : Op R) (k : R -> Prog A) :
  pool_ok (w, T) -> T !! t = Some (Do op k) ->
  exists t' p w' p', T !! t' = Some p /\ step E t' p w = Some (w', p').
Proof.
  intros Hs Ht.
  assert (forall t1 R1 (o : Op R1) k1, T !! t1 = Some (Do o k1) ->
    (forall l, waits o = Some l -> locks (core w) !! l = None) ->
    exists t' p w' p', T !! t' = Some p /\ step E t' p w = Some (w', p')) as Hstep.
  { intros t1 R1 o k1 H1 Hl. destruct (thread_runs _ _ _ _ _ Hs H1 Hl) as (w' & p' & H2).
    by exists t1, (Do o k1), w', p'. }
  assert (forall ta, has ta alloc (core w) ->
    exists t' p w' p', T !! t' = Some p /\ step E t' p w = Some (w', p')) as Halloc.
  { intros ta Ha. destruct (holder_runs _ _ _ _ Hs Ha) as (Ra & oa & ka & H1 & H2).
    apply (Hstep _ _ _ _ H1). intros l [Hne ->]%H2. done. }
  destruct (waits op) as [l|] eqn:Hw.
  2:{ apply (Hstep _ _ _ _ Ht). congruence. }
  destruct (locks (core w) !! l) as [t2|] eqn:Hl.
  2:{ apply (Hstep _ _ _ _ Ht). congruence. }
  destruct (holder_runs _ _ _ _ Hs Hl) as (R2 & o2 & k2 & H1 & H2).
  destruct (locks (core w) !! alloc) as [ta|] eqn:Ha; [by apply (Halloc ta)|].
  apply (Hstep _ _ _ _ H1). intros l' [_ ->]%H2. done.
Qed.
End Pool.
