(* ===== verification/DaemonProof.v ===== *)
(** * DaemonProof: the handlers are correct under every interleaving

    Each handler of [Daemon] satisfies the rely-guarantee logic of
    [DaemonLogic]; the theorems at the end state what this means for the
    concurrent system: sandboxes that run at the same time never share a named
    volume, network slots and published ports stay unique, no sandbox mounts a
    volume that was removed, a VM that may be alive keeps its reservation, and
    the service does not deadlock. *)

From S2P Require Import Prelude GoLib Api State Fsutil Oci Base Storage DaemonSem Daemon DaemonLogic.
Import Strings.
Local Open Scope Z_scope.

(** ** Facts about stored sandboxes *)

Lemma alloc_not_id : is_id alloc = false.
Proof. reflexivity. Qed.

Lemma Get_stored (c : Core) (id : string) (v : Sandbox) :
  Inv c -> Get (db c) id = Ok v ->
  exists r, rows c !! sb_ID v = Some r /\ r_body r = v /\ is_id (sb_ID v) = true.
Proof.
  intros HI H. destruct (Get_row _ _ _ (inv_keyed c HI) H) as (r & Hr & <-). exists r.
  split; [done|]. split; [done|]. by apply (inv_names c HI) in Hr as [? _].
Qed.

Lemma Get_by_id (c : Core) (id : string) (v : Sandbox) :
  Inv c -> is_id id = true -> Get (db c) id = Ok v ->
  sb_ID v = id /\ exists r, rows c !! id = Some r /\ r_body r = v.
Proof.
  intros HI Hid. rewrite (Get_id _ _ (inv_keyed c HI) (inv_names c HI) Hid).
  destruct (sandboxes (db c) !! id) as [r|] eqn:Er; [|done]. intros [= <-].
  split; [by apply (inv_keyed c HI) in Er as [? _]|]. by exists r.
Qed.

Lemma Transition_shape (x v : Sandbox) (to reason : string) :
  Transition x to reason = Ok v ->
  static v = static x /\ sized v = sized x /\ sb_State v = to /\
  sb_VMResourcesReleased v = sb_VMResourcesReleased x /\ sb_Generation v = sb_Generation x /\
  (v = x \/ to ∈ transitions (sb_State x)).
Proof. unfold Transition. intros H. repeat case_bool_decide; simplify_eq; auto 10. Qed.

Lemma reserves_active (v : Sandbox) :
  sb_State v = "starting" \/ sb_State v = "running" \/ sb_State v = "stopping" ->
  reservesVMResources v = true.
Proof. intros [H|[H|H]]; unfold reservesVMResources; by rewrite H. Qed.

Lemma reserves_failed (v : Sandbox) :
  sb_State v = "failed" -> sb_VMResourcesReleased v = false -> reservesVMResources v = true.
Proof. intros H1 H2. unfold reservesVMResources. by rewrite H1, H2. Qed.

(** Membership of a given state in the lifecycle. *)
Ltac in_states := unfold states; solve [repeat first [apply list_elem_of_here | apply list_elem_of_further]].
#[export] Hint Extern 0 (_ ∈ states) => in_states : core.
#[export] Hint Extern 0 (_ ∈ states -> _ ∈ states) => (intros _; in_states) : core.

(** A rewrite of a row by the thread that holds its lock. *)
Lemma change_locked (t : nat) (c : Core) (id : string) (x v : Sandbox) :
  has t id c -> static v = static x -> sized v = sized x ->
  (id ∈ holders c -> reservesVMResources v = true) ->
  (sb_State x ∈ states -> sb_State v ∈ states) -> sb_Generation v = sb_Generation x ->
  change_ok t c id x v (holders c).
Proof. intros. split; auto. Qed.

(** Reads by an identifier. *)
Section Reads.
Context (E : Env) {A : Type} (t : nat).

Lemma ok_get (id : string) (k : result Sandbox -> Prog A) (P : Core -> Prop) (Q : A -> Core -> Prop) :
  Stable t P -> (forall v, is_id (sb_ID v) = true -> ok E t P (k (Ok v)) Q) ->
  (forall e, ok E t P (k (Err e)) Q) -> ok E t P (Do (OGet id) k) Q.
Proof.
  intros HS Hok Herr.
  apply (ok_neutral E t (OGet id) k P (fun r _ => forall v, r = Ok v -> is_id (sb_ID v) = true));
    [done|apply _| |].
  - intros w w' r HI HP. simpl. unfold db_call. destruct (e_db E (tick w)); [by intros [= _ <-]|].
    intros [= _ <-] v Hv. by destruct (Get_stored (core w) id v HI Hv) as (_ & _ & _ & ?).
  - intros [v|e]; [|eapply ok_pre; [apply Herr|by intros c _ [? _]]].
    apply (ok_pure E t (is_id (sb_ID v) = true)); [by intros c _ [_ H]; apply H|].
    intros Hid. eapply ok_pre; [by apply Hok|]. by intros c _ [? _].
Qed.

Lemma ok_get_id (id : string) (k : result Sandbox -> Prog A) (P : Core -> Prop)
    (phi : Sandbox -> Core -> Prop) (Q : A -> Core -> Prop) :
  is_id id = true -> Stable t P -> (forall v, Stable t (phi v)) ->
  (forall c r, Inv c -> P c -> rows c !! id = Some r -> phi (r_body r) c) ->
  (forall v, sb_ID v = id -> ok E t (fun c => P c /\ phi v c) (k (Ok v)) Q) ->
  (forall e, ok E t P (k (Err e)) Q) -> ok E t P (Do (OGet id) k) Q.
Proof.
  intros Hid HS HSphi Hphi Hok Herr.
  apply (ok_neutral E t (OGet id) k P
           (fun r c => match r with Ok v => sb_ID v = id /\ phi v c | Err _ => True end)).
  - done.
  - intros [v|e]; apply _.
  - intros w w' r HI HP. simpl. unfold db_call. destruct (e_db E (tick w)); [by intros [= _ <-]|].
    intros [= _ <-]. destruct (Get (db _) id) as [v|] eqn:Ev; [|done].
    destruct (Get_by_id (core w) id v HI Hid Ev) as (? & r & Hr & <-). split; [done|]. by apply Hphi.
  - intros [v|e]; [|eapply ok_pre; [apply Herr|by intros c _ [? _]]].
    apply (ok_pure E t (sb_ID v = id)); [by intros c _ (_ & ? & _)|].
    intros Hv. eapply ok_pre; [by apply Hok|]. by intros c _ (? & _ & ?).
Qed.

Lemma ok_list (k : result (list Sandbox) -> Prog A) (P : Core -> Prop)
    (phi : list Sandbox -> Core -> Prop) (Q : A -> Core -> Prop) :
  Stable t P -> (forall all, Stable t (phi all)) ->
  (forall c, Inv c -> P c -> phi (List (db c)) c) ->
  (forall all, ok E t (fun c => P c /\ phi all c) (k (Ok all)) Q) ->
  (forall e, ok E t P (k (Err e)) Q) -> ok E t P (Do OList k) Q.
Proof.
  intros HS HSphi Hphi Hok Herr.
  apply (ok_neutral E t OList k P (fun r c => match r with Ok all => phi all c | Err _ => True end)).
  - done.
  - intros [all|e]; apply _.
  - intros w w' r HI HP. simpl. unfold db_call. destruct (e_db E (tick w)); [by intros [= _ <-]|].
    intros [= _ <-]. by apply Hphi.
  - intros [all|e]; [apply Hok|eapply ok_pre; [apply Herr|by intros c _ [? _]]].
Qed.

Lemma ok_volume (name : string) (k : result Volume -> Prog A) (P : Core -> Prop)
    (phi : Volume -> Core -> Prop) (Q : A -> Core -> Prop) :
  Stable t P -> (forall v, Stable t (phi v)) ->
  (forall c v, Inv c -> P c -> volumes (db c) !! name = Some v -> phi v c) ->
  (forall v, ok E t (fun c => P c /\ phi v c) (k (Ok v)) Q) ->
  (forall e, ok E t P (k (Err e)) Q) -> ok E t P (Do (OVolume name) k) Q.
Proof.
  intros HS HSphi Hphi Hok Herr.
  apply (ok_neutral E t _ k P (fun r c => match r with Ok v => phi v c | Err _ => True end)).
  - done.
  - intros [v|e]; apply _.
  - intros w w' r HI HP. simpl. unfold db_call. destruct (e_db E (tick w)); [by intros [= _ <-]|].
    intros [= _ <-]. simpl. unfold GetVolume. destruct (volumes _ !! name) eqn:Ev; [by apply Hphi|done].
  - intros [v|e]; [apply Hok|eapply ok_pre; [apply Herr|by intros c _ [? _]]].
Qed.
End Reads.

(** A body under one lock, from and to a thread without locks. *)
Lemma ok_locked (E : Env) {A} (t : nat) (l : string) (body : Prog A) :
  ok E t (owns t {[l]}) body (fun _ => owns t {[l]}) ->
  ok E t (owns t ∅) (with_lock l body) (fun _ => owns t ∅).
Proof.
  intros Hb. eapply ok_conseq.
  - apply (ok_with_lock E t l ∅ body (fun _ => True) (fun _ _ => True)); try done; [by left|].
    rewrite (right_id_L ∅ (∪)). eapply ok_conseq; [exact Hb|naive_solver|naive_solver].
  - done.
  - by intros a c _ [? _].
Qed.

(** ** Tactics for walking through a handler *)

(** Skip an operation that leaves the core alone. *)
Ltac skip := apply ok_skip; [reflexivity|apply _|].
(** Return. *)
Ltac ret := cbn; intros; tauto.

(** ** finish, monitor, Wait, Stop, Remove *)

Section Locked.
Context (E : Env) (cfg : DaemonConfig) (t : nat).

Lemma write_frames_ok (id : string) (drain : bool) (fs : list Frame) (cursor : Z) (P : Core -> Prop) :
  Stable t P -> ok E t P (write_frames id drain cursor fs) (fun _ => P).
Proof.
  intros HS. revert cursor. induction fs as [|f fs IH]; intros cursor; [by simpl|].
  simpl. skip. auto.
Qed.

Lemma await_exit_ok (v : Sandbox) (until : Z) (polls : nat) (P : Core -> Prop) :
  Stable t P -> ok E t P (await_exit v until polls) (fun _ => P).
Proof.
  intros HS. induction polls as [|polls IH]; [by simpl|]. cbn [await_exit].
  skip. intros [|]; [|ret]. cbn. skip. intros now. destruct (negb _); [ret|].
  skip. intros [|]; [ret|]. skip. intros _. apply IH.
Qed.

Lemma request_shutdown_ok (v : Sandbox) (P : Core -> Prop) :
  Stable t P -> ok E t P (request_shutdown v) (fun _ => P).
Proof.
  intros HS. unfold request_shutdown. skip. intros [|e]; [|ret]. skip. intros [|e]; [|ret].
  skip. intros now. by apply await_exit_ok.
Qed.

Lemma finish_locked_ok (v : Sandbox) (exit : Exit) (h : gset string) :
  sb_ID v ∈ h -> ok E t (owns t h) (finish_locked cfg v exit) (fun _ => owns t h).
Proof.
  intros Hv. unfold finish_locked. skip. intros [current|e]; [|ret].
  destruct (negb _); [ret|]. eapply ok_bind; [apply request_shutdown_ok; apply _|]. intros []. cbn beta.
  apply ok_kill; [done| |].
  - skip. intros _. skip. intros net. skip. intros vm. apply ok_update; [apply _|apply _| |].
    { intros c r x HI [_ [Hl Hh]] Hr [= <-]. split.
      - apply change_locked; [done|by destruct (_ && _)|by destruct (_ && _)|done|destruct (_ && _); auto|by destruct (_ && _)].
      - by destruct (_ && _). }
    intros _. destruct (_ && _); [|ret]. skip. intros [x|e].
    + apply ok_intent; [apply _|apply _|]. intros _. skip. intros _.
      apply ok_delete; [apply _|apply _|tauto|]. intros _. ret.
    + apply ok_update; [apply _|apply _| |].
      { intros c r x HI [_ [Hl Hh]] Hr [= <-]. split; [by apply change_locked|done]. }
      intros _. ret.
  - intros e. apply ok_update; [apply _|apply _| |ret].
    intros c r x HI Ho Hr [= <-]. split; [|done]. apply change_locked; try done. by apply Ho.
Qed.

Lemma finish_ok (v : Sandbox) (exit : Exit) :
  ok E t (owns t ∅) (finish cfg v exit) (fun _ => owns t ∅).
Proof.
  apply ok_locked, finish_locked_ok. set_solver.
Qed.

Lemma drain_logs_ok (v : Sandbox) (drains : nat) (cursor : Z) (P : Core -> Prop) :
  Stable t P -> ok E t P (drain_logs v cursor drains) (fun _ => P).
Proof.
  intros HS. revert cursor. induction drains as [|drains IH]; intros cursor; [ret|]. cbn [drain_logs].
  skip. intros [[|f fs]|e]; [ret| |ret]. eapply ok_bind; [by apply write_frames_ok|]. apply IH.
Qed.

Lemma poll_guest_ok (v : Sandbox) (cursor : Z) (P : Core -> Prop) :
  Stable t P -> ok E t P (poll_guest cfg v cursor) (fun _ => P).
Proof.
  intros HS. unfold poll_guest. skip. intros [fs|e]; [|ret].
  eapply ok_bind; [by apply write_frames_ok|]. intros cursor'. skip. intros _. skip. ret.
Qed.

Lemma monitor_loop_ok (v : Sandbox) (drains polls : nat) (cursor failures : Z) :
  ok E t (owns t ∅) (monitor_loop cfg v cursor failures drains polls) (fun _ => owns t ∅).
Proof.
  revert cursor failures. induction polls as [|polls IH]; intros cursor failures; [ret|].
  cbn [monitor_loop]. skip. intros _. skip. intros [current|e]; [|ret]. destruct (negb _); [ret|].
  assert (forall cursor failures, ok E t (owns t ∅)
    (if 5 <=? failures then Do ONow (fun now => finish cfg v (control_lost now))
     else monitor_loop cfg v cursor failures drains polls) (fun _ => owns t ∅)) as Hagain.
  { intros cursor' failures'. destruct (5 <=? failures'); [|apply IH]. skip. intros now. apply finish_ok. }
  skip. intros [c|e]; [|apply Hagain].
  eapply ok_bind; [apply poll_guest_ok; apply _|]. intros [cursor' [st|e]]; [|apply Hagain].
  destruct (_ || _); [apply Hagain|]. destruct (gs_Exit st) as [exit|]; [|apply Hagain].
  destruct (bool_decide _); [|apply Hagain].
  eapply ok_bind; [apply drain_logs_ok; apply _|]. intros []. apply finish_ok.
Qed.

Lemma monitor_ok (v : Sandbox) (drains polls : nat) :
  ok E t (owns t ∅) (monitor cfg v drains polls) (fun _ => owns t ∅).
Proof.
  unfold monitor. skip. intros cursor. eapply ok_bind; [apply monitor_loop_ok|]. intros []. skip. ret.
Qed.

Lemma Wait_ok (id : string) (polls : nat) (P : Core -> Prop) :
  Stable t P -> ok E t P (Wait id polls) (fun _ => P).
Proof.
  intros HS. induction polls as [|polls IH]; cbn [Wait]; skip; (intros [v|e]; [|skip; ret]);
    repeat (case_match; [try ret|]); try ret; skip; auto.
Qed.

Lemma stop_change (c : Core) (id : string) (r : Row) (v : Sandbox) :
  Inv c -> rows c !! id = Some r -> Transition (r_body r) "stopping" "" = Ok v ->
  change_ok t c id (r_body r) v (holders c) /\ (is_starting v = true -> is_starting (r_body r) = true).
Proof.
  intros HI Hr (Hs & Hz & Hst & _ & Hg & Hn)%Transition_shape. split.
  - split; auto.
    + intros _ Hidle. left. destruct Hn as [->|Hn]; [done|]. exfalso.
      destruct Hidle as [Hi|Hi]; rewrite Hi in Hn; by apply (bool_decide_eq_true_2 _) in Hn.
    + rewrite Hst. auto.
    + intros _. apply reserves_active. auto.
  - unfold is_starting. by rewrite Hst.
Qed.

Lemma Stop_ok (id : string) (seconds : Z) (polls : nat) :
  ok E t (owns t ∅) (Stop cfg id seconds polls) (fun _ => owns t ∅).
Proof.
  unfold Stop. skip. intros [v|e]; [|ret]. destruct (_ || _); [ret|]. destruct (_ || _); [ret|].
  apply ok_update; [apply _|apply _| |]; [intros c r x HI _ Hr Hx; by apply stop_change|].
  intros _. skip. intros client.
  apply ok_bind with (M := fun _ => owns t ∅); [destruct client; [skip; ret|ret]|].
  intros stopped. apply ok_bind with (M := fun _ => owns t ∅).
  { destruct stopped; [ret|]. skip. intros now. apply finish_ok. }
  intros []. eapply ok_bind; [apply Wait_ok; apply _|]. ret.
Qed.

Lemma remove_locked_ok (id : string) (force : bool) :
  is_id id = true -> ok E t (owns t {[id]}) (remove_locked cfg id force) (fun _ => owns t {[id]}).
Proof.
  intros Hid. unfold remove_locked.
  apply (ok_get_id E t id _ _ (fun _ _ => True)); [done|apply _|apply _|done| |ret].
  intros v Hv. rewrite Hv. eapply ok_pre; [|by intros c _ [H _]; exact H].
  destruct (_ && _); [ret|]. apply ok_intent; [apply _|apply _|]. intros _.
  apply ok_kill; [rewrite Hv; set_solver| |ret]. rewrite Hv.
  skip. intros _. skip. intros [x|e]; [|ret]. skip. intros [x'|e]; [|ret].
  apply ok_update; [apply _|apply _| |].
  { intros c r y HI [_ [Hl Hh]] Hr [= <-]. split; [by apply change_locked|done]. }
  intros _. skip. intros [y|e]; [|ret]. apply ok_delete; [apply _|apply _|tauto|]. ret.
Qed.

Lemma Remove_ok (id : string) (force : bool) :
  ok E t (owns t ∅) (Remove cfg id force) (fun _ => owns t ∅).
Proof.
  unfold Remove. apply ok_get; [apply _| |ret]. intros v Hid. by apply ok_locked, remove_locked_ok.
Qed.
End Locked.

(** ** Volumes, images and bases *)

(** While thread [t] holds "allocations" no row is inserted and the static
    part of the rows does not change. *)
Lemma alloc_rows (t t' : nat) (c c' : Core) (id : string) (r' : Row) :
  t' <> t -> G t' c c' -> has t alloc c -> rows c' !! id = Some r' ->
  exists r, rows c !! id = Some r /\ static (r_body r') = static (r_body r) /\
    sized (r_body r') = sized (r_body r) /\ sb_Generation (r_body r') = sb_Generation (r_body r).
Proof.
  intros Ht HG Ha Hr'. destruct (rows c !! id) as [r|] eqn:Hr.
  - exists r. split; [done|]. split; [by apply (g_static _ _ _ HG id r r')|].
    split.
    + destruct (g_sized _ _ _ HG id r r' Hr Hr') as [?|[_ Ha']]; [done|]. destruct Ht. by eapply has_excl.
    + destruct (g_gen _ _ _ HG id r r' Hr Hr') as [[_ ?]|(Hn & Hh & _)]; [done|].
      destruct (g_hold _ _ _ HG id Hn Hh) as [_ Ha']. destruct Ht. by eapply has_excl.
  - destruct Ht. eapply has_excl; [exact Ha|]. by destruct (g_insert _ _ _ HG id r' Hr Hr').
Qed.

#[export] Instance Stable_unreferenced (t : nat) (name : string) : Stable t (unreferenced t name).
Proof.
  intros t' c c' Ht _ _ HG [Ha Hu]. split; [by eapply has_stable|]. intros id r' Hr'.
  destruct (alloc_rows t t' c c' id r' Ht HG Ha Hr') as (r & Hr & Hs & _).
  rewrite <-(Hu id r Hr). unfold static, mounts_volume in *. congruence.
Qed.

Lemma existsb_List {P : Sandbox -> bool} (c : Core) :
  existsb P (List (db c)) = false -> forall id r, rows c !! id = Some r -> P (r_body r) = false.
Proof.
  intros H id r Hr. apply not_true_iff_false. intros Ht. apply not_true_iff_false in H.
  apply H, existsb_exists. exists (r_body r). split; [|done].
  apply list_elem_of_In. by eapply List_lookup.
Qed.

Section Allocations.
Context (E : Env) (cfg : DaemonConfig) (t : nat).

Lemma volume_create_ok (q : option Volume) :
  ok E t (owns t ∅) (volume_create cfg q) (fun _ => owns t ∅).
Proof.
  apply ok_locked. destruct q as [v|]; [|ret]. destruct (negb _); [ret|]. skip. intros now.
  cbv zeta. destruct (VolumePath _ _); [|ret]. skip. intros [|e]; [|ret].
  apply ok_put_volume; [apply _|apply _|]. intros [|e]; [ret|]. skip. ret.
Qed.

Lemma volume_rm_ok (name : string) : ok E t (owns t ∅) (volume_rm cfg name) (fun _ => owns t ∅).
Proof.
  apply ok_locked. skip. intros [v|e]; [|ret].
  apply (ok_list E t _ _ (fun all c => existsb (mounts_volume (vol_Name v)) all = false ->
                                       unreferenced t (vol_Name v) c)); [apply _|apply _| | |ret].
  { intros c HI Ho He. split; [apply Ho; set_solver|]. by apply existsb_List. }
  intros all. destruct (existsb _ all) eqn:Ee; [ret|]. destruct (VolumePath _ _); [|ret].
  eapply ok_pre; [|intros c _ [H1 H2]; exact (conj H1 (H2 eq_refl))].
  assert (ok E t (fun c => owns t {[alloc]} c /\ unreferenced t (vol_Name v) c)
    (Do (ODeleteVolume (vol_Name v)) (fun r => Ret r)) (fun _ => owns t {[alloc]})) as Hd.
  { apply (ok_delete_volume E t _ _ _ (owns t {[alloc]})); [apply _|apply _|tauto|ret]. }
  skip. intros [x|e]; [by apply Hd|]. destruct (IsNotExist e); [by apply Hd|ret].
Qed.

Lemma image_rm_ok (ref : string) : ok E t (owns t ∅) (image_rm ref) (fun _ => owns t ∅).
Proof.
  apply ok_locked. skip. intros [img|e]; [|ret]. skip. intros [all|e]; [|ret].
  destruct (existsb _ _); [ret|]. skip. ret.
Qed.

Lemma base_rm_ok (ref : string) : ok E t (owns t ∅) (base_rm ref) (fun _ => owns t ∅).
Proof.
  apply ok_locked. skip. intros [img|e]; [|ret]. skip. intros [all|e]; [|ret].
  destruct (existsb _ _); [ret|]. skip. ret.
Qed.

Lemma kill_ok (id sig : string) : ok E t (owns t ∅) (kill id sig) (fun _ => owns t ∅).
Proof.
  unfold kill. skip. intros [v|e]; [|ret]. destruct (_ && _); [ret|]. skip. intros [x|e]; [|ret].
  skip. ret.
Qed.
End Allocations.

(** ** Start *)

(** Thread [t] holds the lock of a sandbox that is stored as [v], idle and
    with its base known. *)
Definition startable (t : nat) (v : Sandbox) (c : Core) : Prop :=
  has t (sb_ID v) c /\ sb_BaseDigest v <> "" /\ idle_state v /\
  exists r, rows c !! sb_ID v = Some r /\ static (r_body r) = static v /\
    sized (r_body r) = sized v /\ sb_State (r_body r) = sb_State v /\ sb_Generation (r_body r) = sb_Generation v.

#[export] Instance Stable_startable (t : nat) (v : Sandbox) : Stable t (startable t v).
Proof.
  intros t' c c' Ht HI HI' HG (Hl & Hb & Hi & r & Hr & Hs & Hz & Hst & Hg).
  split; [by eapply has_stable|]. split; [done|]. split; [done|].
  assert (forall l, has t l c -> ~ has t' l c) as Hex.
  { intros l H1 H2. by eapply Ht, has_excl. }
  assert (sb_BaseDigest (r_body r) <> "") as Hb' by (unfold sized in Hz; congruence).
  assert (idle_state (r_body r)) as Hi' by (unfold idle_state in *; by rewrite Hst).
  destruct (rows c' !! sb_ID v) as [r'|] eqn:Hr'.
  2:{ destruct (Hex _ Hl). by eapply (g_delete _ _ _ HG). }
  exists r'. split; [done|]. split_and!.
  - rewrite <-Hs. by apply (g_static _ _ _ HG (sb_ID v)).
  - rewrite <-Hz. destruct (g_sized _ _ _ HG _ _ _ Hr Hr') as [?|[? _]]; done.
  - rewrite <-Hst. destruct (g_state _ _ _ HG _ _ _ Hr Hr' Hb' Hi') as [?|H]; [done|]. by destruct (Hex _ Hl).
  - rewrite <-Hg. destruct (g_gen _ _ _ HG _ _ _ Hr Hr') as [[_ ?]|(Hn & Hh & _)]; [done|].
    destruct (g_hold _ _ _ HG _ Hn Hh) as [H _]. by destruct (Hex _ Hl).
Qed.

(** Thread [t] holds "allocations" and the sandbox [v] shares no volume with
    a holder. *)
Definition admitted (t : nat) (v : Sandbox) (c : Core) : Prop :=
  has t alloc c /\
  forall id r, id ∈ holders c -> id <> sb_ID v -> rows c !! id = Some r ->
    shares_volume v (r_body r) = false.

#[export] Instance Stable_admitted (t : nat) (v : Sandbox) : Stable t (admitted t v).
Proof.
  intros t' c c' Ht HI HI' HG [Ha Hd]. split; [by eapply has_stable|]. intros id r' Hh Hne Hr'.
  destruct (alloc_rows t t' c c' id r' Ht HG Ha Hr') as (r & Hr & Hs & _).
  destruct (decide (id ∈ holders c)) as [Hin|Hn].
  - rewrite <-(Hd id r Hin Hne Hr). by apply static_agree.
  - destruct (g_hold _ _ _ HG id Hn Hh) as [_ Ha']. destruct Ht. by eapply has_excl.
Qed.

Lemma admitted_list (t : nat) (v : Sandbox) (c : Core) :
  Inv c -> has t alloc c -> start_conflict v (List (db c)) = false -> admitted t v c.
Proof.
  intros HI Ha Hc. split; [done|]. intros id r Hh Hne Hr.
  apply (existsb_List c) with (id := id) (r := r) in Hc; [|done].
  destruct (inv_holders c HI id Hh) as (r0 & Hr0 & Hres & _). replace r0 with r in Hres by congruence.
  destruct (inv_keyed c HI id r Hr) as [Hk _].
  rewrite Hres, bool_decide_eq_false_2 in Hc by congruence. by simpl in Hc.
Qed.

Section Starting.
Context (E : Env) (cfg : DaemonConfig) (t : nat).

(** The move to "starting" makes the sandbox a holder. *)
Lemma claim_sound (c : Core) (v v' : Sandbox) (now : Z) :
  Inv c -> startable t v c -> admitted t v c ->
  static v' = static v -> sized v' = sized v -> sb_State v' = "starting" ->
  sb_Generation v' = int64 (sb_Generation v + 1) ->
  exists d, Update (db c) now (sb_ID v) (fun _ => Ok v') = Ok d /\
    let c' := set_holders (claim (sb_ID v) (rows c) (sandboxes d) (holders c)) (set_db d c) in
    Inv c' /\ G t c c' /\ locks c' = locks c /\ sb_ID v ∈ holders c'.
Proof.
  intros HI (Hl & Hb & Hi & r & Hr & Hs & Hz & Hst & Hg) [Ha Hd] Hs' Hz' Hst' Hg'.
  unfold Update. unfold rows in Hr. rewrite Hr. eexists. split; [done|]. cbv zeta.
  assert (claim (sb_ID v) (rows c) (<[sb_ID v := mkRow (r_name r) (set_Updated now v')]> (sandboxes (db c)))
            (holders c) = {[sb_ID v]} ∪ holders c) as Hcl.
  { unfold claim, rows. rewrite Hr, lookup_insert_eq. unfold is_starting. simpl. rewrite Hst, Hst'.
    by destruct Hi as [-> | ->]. }
  assert (change_ok t c (sb_ID v) (r_body r) (set_Updated now v') ({[sb_ID v]} ∪ holders c)) as Hch.
  { split.
    - rewrite Hs. done.
    - left. rewrite Hz. done.
    - auto.
    - intros _. cbn. rewrite Hst'. auto.
    - right. split_and!; [|set_solver|cbn; by rewrite Hg', Hg]. intros Hh.
      destruct (inv_holders c HI _ Hh) as (r0 & Hr0 & Hres & _). unfold rows in Hr0. replace r0 with r in Hres by congruence.
      unfold reservesVMResources in Hres. rewrite Hst in Hres. by destruct Hi as [Hi|Hi]; rewrite Hi in Hres.
    - set_solver.
    - intros _. apply reserves_active. auto.
    - intros j [->%elem_of_singleton|Hj]%elem_of_union; [|by left]. right. split_and!; try done.
      + unfold sized in *. simpl. congruence.
      + intros id2 r2 H2 Hne Hr2. rewrite <-(Hd id2 r2 H2 Hne Hr2). by apply static_agree. }
  simpl. rewrite Hcl. split_and!; [by apply (put_Inv t c (sb_ID v) r)|by apply (put_G t c (sb_ID v) r)|done|].
  simpl. set_solver.
Qed.

Lemma ok_claim {A} (h : gset string) (v v' : Sandbox) (k : result unit -> Prog A) (Q : A -> Core -> Prop) :
  static v' = static v -> sized v' = sized v -> sb_State v' = "starting" ->
  sb_Generation v' = int64 (sb_Generation v + 1) ->
  ok E t (fun c => owns t h c /\ held t (sb_ID v) c) (k (Ok tt)) Q ->
  (forall e, ok E t (owns t h) (k (Err e)) Q) ->
  ok E t (fun c => owns t h c /\ startable t v c /\ admitted t v c)
    (Do (OUpdate (sb_ID v) (fun _ => Ok v')) k) Q.
Proof.
  intros Hs Hz Hst Hg Hok Herr.
  exists (fun r c => owns t h c /\ (is_ok r = true -> held t (sb_ID v) c)).
  split; [intros r; apply _|]. split.
  - intros w HI (Ho & Hsa & Had). split; [done|]. intros w' r. simpl. unfold db_call.
    destruct (e_db E (tick w)).
    { intros [= <- <-]. split_and!; try done. apply G_refl. }
    simpl. destruct (claim_sound (core w) v v' (e_now E (tick w)))
      as (d & -> & HI' & HG & Hlk & Hin); [done..|].
    simpl. intros [= <- <-]. split_and!; [done|done|exact Ho|].
    intros _. split; [apply Hsa|exact Hin].
  - intros [[]|e]; [eapply ok_pre; [exact Hok|]|eapply ok_pre; [apply Herr|]]; naive_solver.
Qed.

Lemma start_fail_ok (v : Sandbox) (err : error) :
  ok E t (owns t {[sb_ID v]}) (start_fail v err) (fun _ => owns t {[sb_ID v]}).
Proof.
  assert (forall (outcome : bool * string) Q,
    (forall c, owns t {[sb_ID v]} c -> Q (v, Some err) c) ->
    ok E t (fun c => owns t {[sb_ID v]} c /\ (outcome.1 = true -> released t (sb_ID v) c))
      (Do (OUpdate (sb_ID v) (fun x => Transition (set_VMResourcesReleased outcome.1
         (set_PIDStart (sb_PIDStart v) (set_PID (sb_PID v) x))) "failed" outcome.2))
         (fun _ => Ret (v, Some err))) Q) as Hupd.
  { intros outcome Q HQ. apply ok_update; [apply _|apply _| |cbn; naive_solver].
    intros c r x HI [Ho Hrel] Hr (Hs & Hz & Hst & Hre & Hg & _)%Transition_shape. split.
    - apply change_locked; [apply Ho; set_solver|done|done| |rewrite Hst; auto|done]. intros Hh. apply reserves_failed; [done|].
      rewrite Hre. simpl. destruct outcome.1; [|done]. by destruct (Hrel eq_refl).
    - unfold is_starting. by rewrite Hst. }
  unfold start_fail. apply ok_kill; [set_solver| |].
  - apply ok_bind with (M := fun _ c => owns t {[sb_ID v]} c /\ released t (sb_ID v) c).
    { skip. intros _. skip. intros net. skip. ret. }
    intros outcome. eapply ok_pre; [by apply Hupd|]. tauto.
  - intros e. cbn [bind]. eapply ok_pre; [apply (Hupd (false, _)); done|]. naive_solver.
Qed.

Lemma start_boot_ok (v : Sandbox) (b : Bundle) :
  ok E t (fun c => owns t {[sb_ID v]} c /\ held t (sb_ID v) c) (start_boot v b)
    (fun _ => owns t {[sb_ID v]}).
Proof.
  assert (forall v' err, sb_ID v' = sb_ID v ->
    ok E t (fun c => owns t {[sb_ID v]} c /\ held t (sb_ID v) c) (start_fail v' err)
      (fun _ => owns t {[sb_ID v]})) as Hfail.
  { intros v' err Hv. rewrite <-Hv. eapply ok_pre; [apply start_fail_ok|tauto]. }
  unfold start_boot. apply ok_intent; [apply _|apply _|]. intros _.
  skip. intros [x|e]; [|by apply Hfail]. skip. intros [x1|e]; [|by apply Hfail].
  apply ok_bind with (M := fun _ c => owns t {[sb_ID v]} c /\ held t (sb_ID v) c).
  { destruct (bool_decide _); [skip; ret|ret]. }
  intros [x2|e]; [|by apply Hfail]. apply ok_intent; [apply _|apply _|]. intros _.
  apply ok_vm_start; [apply _|apply _|tauto|]. intros [[pid st] [e|]]; [by apply Hfail|].
  apply ok_update; [apply _|apply _| |].
  { intros c r y HI [_ [Hl Hh]] Hr [= <-]. split; [|done]. apply change_locked; try done. intros _.
    destruct (inv_holders c HI _ Hh) as (r0 & Hr0 & Hres & _). simpl in Hr. by simplify_eq. }
  intros [x3|e]; [|by apply Hfail]. skip. intros [x4|e]; [|by apply Hfail].
  skip. intros [x5|e]; [|by apply Hfail]. apply ok_update; [apply _|apply _| |].
  { intros c r y HI [_ [Hl Hh]] Hr (Hs & Hz & Hst & _ & Hg & _)%Transition_shape. split.
    - apply change_locked; try done; [|rewrite Hst; auto]. intros _. apply reserves_active. auto.
    - unfold is_starting. by rewrite Hst. }
  intros [x6|e]; [|by apply Hfail]. skip. ret.
Qed.

Definition starting_copy (v : Sandbox) : Sandbox :=
  set_VMResourcesReleased false (set_Reason "" (set_Exit None
    (set_State "starting" (set_Generation (int64 (sb_Generation v + 1)) v)))).

Lemma start_admit_ok (v : Sandbox) :
  is_id (sb_ID v) = true ->
  ok E t (fun c => owns t {[sb_ID v]} c /\ startable t v c) (start_admit v)
    (fun a c => owns t {[sb_ID v]} c /\ (sb_ID a.1 = sb_ID v /\ (a.2 = None -> held t (sb_ID v) c))).
Proof.
  intros Hid. assert (sb_ID v <> alloc) as Hne by (intros Hv; by rewrite Hv in Hid).
  apply ok_with_lock.
  - set_solver.
  - by right.
  - apply _.
  - apply _.
  - intros c (Hl & ?). split; [|done]. unfold has, acquire in *. simpl. by rewrite lookup_insert_ne.
  - intros a c [Hv Hh]. split; [done|]. intros Hn. destruct (Hh Hn) as [Hl Hin]. split; [|done].
    unfold has, release in *. simpl. by rewrite lookup_delete_ne.
  - apply (ok_list E t _ _ (fun all c => start_conflict v all = false -> admitted t v c));
      [apply _|apply _| | |cbn; naive_solver].
    { intros c HI [Ho _]. apply admitted_list; [done|]. apply Ho. set_solver. }
    intros all. destruct (start_conflict v all); [cbn; naive_solver|].
    apply ok_bind with (M := fun _ c => owns t ({[alloc]} ∪ {[sb_ID v]}) c /\ startable t v c /\ admitted t v c).
    { unfold availableMemory. eapply ok_pre; [|intros c _ [[H1 H2] H3]; exact (conj H1 (conj H2 (H3 eq_refl)))].
      skip. intros [text|e]; ret. }
    intros available. destruct (result_bind _ _); [|cbn; naive_solver].
    apply (ok_claim _ v (starting_copy v)); try done; cbn; naive_solver.
Qed.

Lemma start_locked_ok (id : string) :
  EnvOK E -> is_id id = true ->
  ok E t (owns t {[id]}) (start_locked id) (fun _ => owns t {[id]}).
Proof.
  intros HE Hid. unfold start_locked.
  apply (ok_get_id E t id _ _ (fun v c => sb_BaseDigest v <> "" /\ idle_state v -> startable t v c));
    [done|apply _|apply _| | |ret].
  { intros c r HI Ho Hr [Hb Hi]. destruct (inv_keyed c HI id r Hr) as [Hk _]. rewrite <-Hk in *.
    split; [apply Ho; set_solver|]. split; [done|]. split; [done|]. by exists r. }
  intros v Hv. destruct (_ && _) eqn:Hst; [ret|].
  assert (idle_state v) as Hi.
  { apply andb_false_iff in Hst. rewrite !negb_false_iff, !bool_decide_eq_true in Hst. done. }
  skip. intros [x|e]; [|ret].
  apply (ok_neutral E t _ _ _ (fun r _ => is_ok r = true -> sb_BaseDigest v <> "")); [done|apply _| |].
  { intros w w' r HI _. simpl. intros [= _ <-] Hok Hb. rewrite Hb in Hok.
    destruct (e_base_get E (tick w) "") as [b|] eqn:Eb; [|done]. by destruct (base_get_named _ _ Eb). }
  intros [b|e]; [|ret]. rewrite <-Hv.
  eapply ok_pre; [|intros c _ [[H1 H2] H3]; exact (conj H1 (H2 (conj (H3 eq_refl) Hi)))].
  eapply ok_bind; [apply start_admit_ok; congruence|]. intros [v' [e|]]; [ret|]. cbn [fst snd].
  apply (ok_pure E t (sb_ID v' = sb_ID v)); [ret|]. intros Hv'. rewrite <-Hv'.
  eapply ok_pre; [apply start_boot_ok|]. ret.
Qed.

Lemma Start_ok (id : string) :
  EnvOK E -> ok E t (owns t ∅) (Start id) (fun _ => owns t ∅).
Proof.
  intros HE. unfold Start. apply ok_get; [apply _| |ret]. intros v Hid. by apply ok_locked, start_locked_ok.
Qed.
End Starting.

(** ** Create *)

(** The guest memory is the requested memory rounded up to a MiB plus the
    reserve of the base, without overflow. *)
Lemma guest_memory_value (memory reserve : Z) :
  64 * MiB <= memory <= 1024 * GiB -> 64 <= reserve <= 4096 ->
  guest_memory memory reserve = ((memory + MiB - 1) / MiB + reserve) * MiB /\
  memory + 64 * MiB <= guest_memory memory reserve <= max_guest.
Proof.
  unfold guest_memory, max_guest. intros Hm Hr.
  assert (0 <= memory + MiB - 1) as H0 by (unfold MiB in *; lia).
  pose proof (Z.div_mod (memory + MiB - 1) MiB ltac:(done)) as Hd.
  pose proof (Z.mod_pos_bound (memory + MiB - 1) MiB ltac:(done)) as Hb.
  set (q := (memory + MiB - 1) / MiB) in *.
  assert (64 <= q <= 1048576) as Hq by (unfold MiB, GiB in *; lia).
  rewrite (int64_id (memory + MiB)) by (unfold in_int64, two63, max_int64, MiB, GiB in *; lia).
  rewrite (int64_id (memory + MiB - 1)) by (unfold in_int64, two63, max_int64, MiB, GiB in *; lia).
  rewrite Z.quot_div_nonneg by (done || lia). fold q.
  rewrite (int64_id (q + reserve)) by (unfold in_int64, two63, max_int64; lia).
  rewrite int64_id by (unfold in_int64, two63, max_int64, MiB; lia).
  unfold MiB, GiB in *. lia.
Qed.

(** The chosen slot is the least positive slot that no sandbox uses. *)
Lemma next_slot_spec (used : gset Z) (fuel : nat) (slot : Z) :
  slot <= next_slot used slot fuel /\
  (forall i, slot <= i < next_slot used slot fuel -> i ∈ used) /\
  ((size used < fuel + size (filter (fun i => (i < slot)%Z) used))%nat -> next_slot used slot fuel ∉ used).
Proof.
  revert slot. induction fuel as [|fuel IH]; intros slot; cbn [next_slot].
  - split; [lia|]. split; [lia|]. intros H. exfalso.
    assert (filter (fun i => i < slot) used ⊆ used) as Hs by set_solver. apply subseteq_size in Hs. lia.
  - case_bool_decide as Hin; [|split; [lia|]; split; [lia|done]].
    destruct (IH (slot + 1)) as (H1 & H2 & H3). split; [lia|]. split.
    + intros i Hi. destruct (decide (i = slot)) as [->|]; [done|]. apply H2. lia.
    + intros Hsz. apply H3.
      assert (filter (fun i => i < slot + 1) used = {[slot]} ∪ filter (fun i => i < slot) used) as ->.
      { apply set_eq. intros i. rewrite elem_of_union, !elem_of_filter, elem_of_singleton.
        split; [|intros [->|[? ?]]; split; try done; lia].
        intros [? ?]. destruct (decide (i = slot)); [by left|right]. split; [lia|done]. }
      rewrite size_union; [rewrite size_singleton; lia|].
      intros i ->%elem_of_singleton [? _]%elem_of_filter. lia.
Qed.

Lemma find_slot_spec (all : list Sandbox) :
  1 <= find_slot all /\ (forall x, x ∈ all -> sb_Slot x <> find_slot all) /\
  (forall i, 1 <= i < find_slot all -> exists x, x ∈ all /\ sb_Slot x = i).
Proof.
  unfold find_slot. set (used := list_to_set (sb_Slot <$> all) : gset Z).
  destruct (next_slot_spec used (S (length all)) 1) as (H1 & H2 & H3). split; [done|]. split.
  - intros x Hx Heq. apply H3.
    + assert (size used <= length all)%nat; [|lia]. unfold used.
      rewrite <-(length_fmap sb_Slot all). clear. induction (sb_Slot <$> all) as [|i l IH]; [done|]. simpl.
      pose proof (size_union_alt ({[i]} : gset Z) (list_to_set l)) as Hu. rewrite Hu, size_singleton.
      assert (size (list_to_set l ∖ {[i]} : gset Z) <= size (list_to_set l : gset Z))%nat; [|lia].
      apply subseteq_size. set_solver.
    + rewrite <-Heq. unfold used. apply elem_of_list_to_set, list_elem_of_fmap. by exists x.
  - intros i Hi. specialize (H2 i Hi). unfold used in H2.
    apply elem_of_list_to_set, list_elem_of_fmap in H2 as (x & -> & Hx). by exists x.
Qed.

Lemma check_existing_spec (s : Spec) (all : list Sandbox) (x : Sandbox) :
  check_existing s all = Ok tt -> x ∈ all ->
  port_conflict s x = false /\ (sb_Name x = s_Name s -> s_Name s = "").
Proof.
  unfold check_existing. rewrite all_ok_spec, Forall_forall. intros H Hx. specialize (H x Hx).
  destruct (_ && _) eqn:En; [done|]. destruct (port_conflict s x); [done|]. split; [done|].
  intros Hn. rewrite bool_decide_eq_true_2 in En by done. simpl in En. by bool_prop.
Qed.

(** Thread [t] holds "allocations"; the ports and the slot are free. *)
Definition creatable (t : nat) (s : Spec) (slot : Z) (c : Core) : Prop :=
  has t alloc c /\ forall id r, rows c !! id = Some r ->
    port_conflict s (r_body r) = false /\ sb_Slot (r_body r) <> slot.

#[export] Instance Stable_creatable (t : nat) (s : Spec) (slot : Z) : Stable t (creatable t s slot).
Proof.
  intros t' c c' Ht HI HI' HG [Ha Hc]. split; [by eapply has_stable|]. intros id r' Hr'.
  destruct (alloc_rows t t' c c' id r' Ht HG Ha Hr') as (r & Hr & Hs & _).
  destruct (Hc id r Hr) as [H1 H2]. injection Hs as _ _ Hsp Hsl. unfold port_conflict in *.
  by rewrite Hsp, Hsl.
Qed.

(** Thread [t] holds "allocations" and the volumes of [ms] exist. *)
Definition mountable (t : nat) (ms : list Mount) (c : Core) : Prop :=
  has t alloc c /\ forall m, m ∈ ms -> is_Some (volumes (db c) !! m_Name m).

#[export] Instance Stable_mountable (t : nat) (ms : list Mount) : Stable t (mountable t ms).
Proof.
  intros t' c c' Ht HI HI' HG [Ha Hm]. split; [by eapply has_stable|]. intros m Hin.
  destruct (volumes (db c') !! m_Name m) eqn:Ev; [by eexists|]. destruct Ht.
  eapply has_excl; [exact Ha|]. by apply (g_volumes _ _ _ HG (m_Name m)); auto.
Qed.

(** Thread [t] holds "allocations" and is creating [v]: its row, if it is
    still there, has the static data of [v] and no base yet. *)
Definition creating (t : nat) (v : Sandbox) (c : Core) : Prop :=
  has t alloc c /\ forall r, rows c !! sb_ID v = Some r ->
    static (r_body r) = static v /\ sb_BaseDigest (r_body r) = "" /\ sb_Generation (r_body r) = 0.

#[export] Instance Stable_creating (t : nat) (v : Sandbox) : Stable t (creating t v).
Proof.
  intros t' c c' Ht HI HI' HG [Ha Hc]. split; [by eapply has_stable|]. intros r' Hr'.
  destruct (alloc_rows t t' c c' _ r' Ht HG Ha Hr') as (r & Hr & Hs & Hz & Hg).
  destruct (Hc r Hr) as (? & ? & ?). unfold sized in Hz. split_and!; congruence.
Qed.
#[export] Instance Quiet_creating (t : nat) (v : Sandbox) : Quiet (creating t v).
Proof. intros c c' Hr _ Hl _ [Ha Hc]. unfold creating, has. rewrite Hr, Hl. done. Qed.

Lemma creating_static (t : nat) (v v' : Sandbox) (c : Core) :
  static v' = static v -> creating t v c -> creating t v' c.
Proof.
  unfold creating, static. intros Hs [Ha Hc]. split; [done|].
  replace (sb_ID v') with (sb_ID v) by congruence. intros r Hr. destruct (Hc r Hr) as (? & ? & ?). split_and!; congruence.
Qed.

Section Creating.
Context (E : Env) (cfg : DaemonConfig) (t : nat) (HE : EnvOK E).

(** A sandbox that is being created holds nothing. *)
Lemma creating_not_holder (v : Sandbox) (c : Core) :
  Inv c -> creating t v c -> sb_ID v ∉ holders c.
Proof.
  intros HI [_ Hc] Hh. destruct (inv_holders c HI _ Hh) as (r & Hr & _ & Hb). by destruct (Hc r Hr) as (_ & ? & _).
Qed.

Lemma create_fail_ok (v : Sandbox) (err : error) :
  ok E t (fun c => owns t {[alloc]} c /\ creating t v c) (create_fail cfg v err)
    (fun _ => owns t {[alloc]}).
Proof.
  unfold create_fail. skip. intros _. skip. intros _.
  apply (ok_update_gen E t _ _ _ _ (owns t {[alloc]})); [apply _|apply _|apply _|tauto| |ret|ret].
  intros c r x HI [_ Hcr] Hr (Hs & Hz & Hst & _ & Hg & Hn)%Transition_shape. split.
  - split; auto.
    + intros Hb. destruct Hcr as [_ Hcr]. by destruct (Hcr r Hr) as (_ & ? & _).
    + rewrite Hst. auto.
    + intros Hh. by destruct (creating_not_holder v c HI Hcr).
  - unfold is_starting. by rewrite Hst.
Qed.

Lemma create_disks_ok (v : Sandbox) (img : Image) (tmp : string) :
  0 <= sb_GuestMemory v <= max_guest -> sb_Generation v = 0 ->
  ok E t (fun c => owns t {[alloc]} c /\ creating t v c) (create_disks cfg v img tmp)
    (fun _ => owns t {[alloc]}).
Proof.
  intros Hm Hg. unfold create_disks. skip. intros [x|e]; [|apply create_fail_ok].
  skip. intros [x1|e]; [|apply create_fail_ok]. skip. intros [x2|e]; [|apply create_fail_ok].
  cbv zeta. apply (ok_update_gen E t _ _ _ _ (owns t {[alloc]})); [apply _|apply _|apply _|tauto| |ret|].
  - intros c r x' HI [_ Hcr] Hr [= <-]. pose proof Hcr as [Ha Hc]. destruct (Hc r Hr) as (Hs & Hb & Hgr). split.
    + split; [by rewrite Hs|by right|done|auto|left; split; [done|by rewrite Hgr]|done| |by auto].
      intros Hh. by destruct (creating_not_holder v c HI Hcr).
    + done.
  - intros e. eapply ok_pre; [apply create_fail_ok|]. intros c _ [? ?]. split; [done|].
    by apply (creating_static t v).
Qed.

Lemma create_prepare_ok (v : Sandbox) (s : Spec) (auth : Auth) :
  64 * MiB <= s_Memory s <= 1024 * GiB -> sb_Generation v = 0 ->
  ok E t (fun c => owns t {[alloc]} c /\ creating t v c) (create_prepare cfg v s auth)
    (fun _ => owns t {[alloc]}).
Proof.
  intros Hm Hg. unfold create_prepare. skip. intros [x|e]; [|apply create_fail_ok].
  apply ok_intent; [apply _|apply _|]. intros _. skip. intros [img|e]; [|apply create_fail_ok].
  apply (ok_neutral E t _ _ _ (fun r _ => forall b, r = Ok b ->
           64 <= c_GuestReserveMiB (sg_Config (b_Signed b)) <= 4096)); [done|apply _| |].
  { intros w w' r HI _. simpl. intros [= _ <-] b Hb. by apply base_pull_valid in Hb as []. }
  intros [b|e]; [|eapply ok_pre; [apply create_fail_ok|tauto]].
  apply (ok_pure E t (64 <= c_GuestReserveMiB (sg_Config (b_Signed b)) <= 4096)).
  { intros c _ [_ H]. by apply H. }
  intros Hres. eapply ok_pre; [|intros c _ [H _]; exact H].
  destruct (Resolve s (i_Config img)) as [p|e]; [|apply create_fail_ok]. cbv zeta.
  match goal with |- context [create_disks cfg ?y img] => set (v1 := y) end.
  eapply ok_pre with (P := fun c => owns t {[alloc]} c /\ creating t v1 c).
  2:{ intros c _ [? ?]. split; [done|]. by apply (creating_static t v). }
  apply ok_intent; [apply _|apply _|]. intros _. skip. intros [tmp|e]; [|apply create_fail_ok].
  eapply ok_bind; [apply create_disks_ok; [|exact Hg]|intros r; skip; ret].
  unfold v1. simpl. destruct (guest_memory_value _ _ Hm Hres) as [_ [H1 H2]]. unfold MiB in *. lia.
Qed.

Lemma check_volumes_ok (ms : list Mount) (P : Core -> Prop) :
  Stable t P -> (forall c, P c -> has t alloc c) ->
  ok E t P (check_volumes ms) (fun r c => P c /\ (is_ok r = true -> mountable t ms c)).
Proof.
  revert P. induction ms as [|m ms IH]; intros P HS HP; cbn [check_volumes].
  - cbn. intros c _ Hp. split; [done|]. intros _. split; [by apply HP|]. by intros m ?%elem_of_nil.
  - apply (ok_volume E t _ _ _ (fun v c => mountable t [m] c)); [apply _|apply _| | |cbn; naive_solver].
    { intros c v HI Hp Hv. split; [by apply HP|]. intros m' ->%list_elem_of_singleton. by eexists. }
    intros v. eapply ok_conseq; [apply (IH (fun c => P c /\ mountable t [m] c)); [apply _|naive_solver]|tauto|].
    intros r c _ [[Hp [Ha Hm]] Hr]. split; [done|]. intros Hok. split; [done|].
    intros m' [->|Hin]%elem_of_cons; [apply Hm; by left|]. by apply (Hr Hok).
Qed.

Lemma ok_create_row {A} (s : Spec) (v : Sandbox) (k : result unit -> Prog A) (Q : A -> Core -> Prop) :
  is_id (sb_ID v) = true -> is_id (sb_Name v) = false -> 1 <= sb_Slot v <= 16000 ->
  sb_BaseDigest v = "" -> sb_GuestMemory v = 0 -> sb_Generation v = 0 ->
  s_Ports s = s_Ports (sb_Spec v) -> well_formed v -> sb_State v ∈ states ->
  ok E t (fun c => owns t {[alloc]} c /\ creating t v c) (k (Ok tt)) Q ->
  (forall e, ok E t (owns t {[alloc]}) (k (Err e)) Q) ->
  ok E t (fun c => owns t {[alloc]} c /\ creatable t s (sb_Slot v) c /\ mountable t (s_Mounts (sb_Spec v)) c)
    (Do (OCreate v) k) Q.
Proof.
  intros Hid Hnm Hsl Hb Hgm Hgen Hp Hwf Hst Hok Herr.
  exists (fun r c => owns t {[alloc]} c /\ (is_ok r = true -> creating t v c)).
  split; [intros r; apply _|]. split.
  2:{ intros [[]|e]; [eapply ok_pre; [exact Hok|]|eapply ok_pre; [apply Herr|]]; naive_solver. }
  intros w HI (Ho & [Ha Hc] & [_ Hm]). split; [done|]. intros w' r. simpl. unfold db_call.
  destruct (e_db E (tick w)); simpl.
  { intros [= <- <-]. split_and!; try done. apply G_refl. }
  unfold State.Create. destruct (sandboxes (db (core w)) !! sb_ID v) eqn:El; simpl.
  { intros [= <- <-]. split_and!; try done. apply G_refl. }
  destruct (name_taken _ _) eqn:Ent; simpl.
  { intros [= <- <-]. split_and!; try done. apply G_refl. }
  intros [= <- <-]. simpl.
  assert (Inv (add_row v (core w))) as HI'.
  { apply add_row_Inv; [done|]. split; try done.
    - intros id r0 Hr0 Hnt. apply not_true_iff_false in Ent. apply Ent, name_taken_spec. by exists id, r0.
    - intros id r0 Hr0. by apply Hc in Hr0 as [_ ?].
    - intros id r0 Hr0. apply Hc in Hr0 as [Hpc _]. unfold port_conflict in *. by rewrite <-Hp.
    - rewrite Hgm. done. }
  pose proof (add_row_G t (core w) v El Ha Hgen) as HG.
  match goal with |- Inv ?c2 /\ _ => destruct (quiet_sound t (core w) (add_row v (core w)) c2) as [H1 H2] end;
    [done..|]. split_and!; [done|done|done|]. intros _. split; [done|].
  intros r0. unfold rows. simpl. rewrite lookup_insert_eq. intros [= <-]. done.
Qed.

Lemma nf_name_not_id (id : string) : is_id ("nf-" +:+ id) = false.
Proof. unfold is_id. simpl. by rewrite andb_false_r. Qed.

Lemma create_locked_ok (s : Spec) (auth : Auth) :
  valid_spec s -> s_Base s <> "" -> is_id (s_Name s) = false ->
  ok E t (owns t {[alloc]}) (create_locked cfg s auth) (fun _ => owns t {[alloc]}).
Proof.
  intros Hvs Hbase Hn. pose proof (vs_memory s Hvs) as Hm. unfold create_locked.
  apply (ok_list E t _ _ (fun all c => check_existing s all = Ok tt -> creatable t s (find_slot all) c));
    [apply _|apply _| | |ret].
  { intros c HI Ho Hc. split; [apply Ho; set_solver|]. intros id r Hr%List_lookup.
    destruct (check_existing_spec _ _ _ Hc Hr) as [? _]. split; [done|]. by apply find_slot_spec. }
  intros all. destruct (check_existing s all) as [[]|e]; [|ret].
  apply ok_pre with (P := fun c => owns t {[alloc]} c /\ creatable t s (find_slot all) c); [|naive_solver].
  eapply ok_bind.
  { apply check_volumes_ok; [apply _|]. intros c [_ [Ha _]]. done. }
  intros [[]|e]; [|ret]. cbv zeta. destruct (16000 <? find_slot all) eqn:Hsl; [ret|]. bool_prop.
  destruct (find_slot_spec all) as [Hpos _].
  apply (ok_neutral E t _ _ _ (fun id _ => is_id id = true)); [done|intros id; apply _| |].
  { intros w w' r _ _. simpl. intros [= _ <-]. apply ID_is_id. }
  intros id. apply (ok_pure E t (is_id id = true)); [ret|]. intros Hid. skip. intros now.
  set (s' := if bool_decide (s_Name s = "") then _ else s).
  assert (s_Ports s = s_Ports s' /\ s_Mounts s = s_Mounts s' /\ s_Memory s = s_Memory s' /\
          is_id (s_Name s') = false) as (Hp & Hmo & Hme & Hn').
  { unfold s'. case_bool_decide; [|done]. split_and!; try done. apply nf_name_not_id. }
  assert (valid_spec s' /\ s_Base s' <> "" /\ s_Name s' = s_Name s' /\ ValidName (s_Name s') = true) as Hwf.
  { unfold s'. case_bool_decide as En.
    - pose proof (default_name_valid id Hid). split_and!; try done. by apply valid_spec_set_Name.
    - split_and!; try done. by destruct (vs_name s Hvs). }
  eapply ok_pre.
  - apply (ok_create_row s); try done; [|ret]. apply create_prepare_ok; [by rewrite <-Hme|done].
  - intros c _ [[[Ho Hc] Hmt] _]. split; [done|]. split; [done|]. simpl. rewrite <-Hmo. by apply Hmt.
Qed.

Lemma Create_ok (s : Spec) (auth : Auth) :
  is_id (s_Name s) = false ->
  ok E t (owns t ∅) (Create cfg s auth) (fun _ => owns t ∅).
Proof.
  intros Hn. unfold Create. destruct (Validate s) as [[]|e] eqn:Hv; [|ret]. apply Validate_iff in Hv.
  cbv zeta. set (s' := if bool_decide (s_Base s = "") then _ else s).
  destruct (bool_decide (s_Base s' = "")) eqn:Eb; [ret|]. apply bool_decide_eq_false in Eb. apply ok_locked, create_locked_ok.
  - unfold s'. case_bool_decide; [by apply valid_spec_set_Base|done].
  - done.
  - unfold s'. by case_bool_decide.
Qed.
End Creating.

(** ** Every request *)

(** A request names no new sandbox like an identifier. *)
Definition named_apart (q : Request) : Prop :=
  forall s, q_Spec q = Some s -> is_id (s_Name s) = false.

Section Requests.
Context (E : Env) (HE : EnvOK E) (cfg : DaemonConfig) (t : nat).
Context (decode_auth : string -> result Auth) (decode_cursor : string -> result Z).

Lemma validate_started_ok (v : Sandbox) (polls : nat) :
  ok E t (owns t ∅) (validate_started cfg v polls) (fun _ => owns t ∅).
Proof.
  unfold validate_started. skip. intros [x|e]; [|ret]. skip. intros id. skip. intros [fs|e]; [|ret].
  destruct (probe "" fs); [|ret]. eapply ok_bind; [apply Stop_ok|]. intros [x1|e]; [|ret].
  eapply ok_bind; [apply Wait_ok; apply _|]. intros [exit|e]; [|ret].
  destruct (x_Code exit); [|ret]. skip. intros [x2|e]; ret.
Qed.

Lemma ValidateBase_ok (ref : string) (auth : Auth) (polls : nat) :
  ok E t (owns t ∅) (ValidateBase cfg ref auth polls) (fun _ => owns t ∅).
Proof.
  unfold ValidateBase. skip. intros [b|e]; [|ret]. eapply ok_bind; [by apply Create_ok|].
  intros [v [e|]]; [ret|]. eapply ok_bind; [by apply Start_ok|]. intros [v' o].
  apply ok_bind with (M := fun _ => owns t ∅); [destruct o; [ret|apply validate_started_ok]|].
  intros report. eapply ok_bind; [apply Remove_ok|]. ret.
Qed.

Lemma logs_ok (q : Request) : ok E t (owns t ∅) (logs cfg decode_cursor q) (fun _ => owns t ∅).
Proof.
  unfold logs. skip. intros r. apply ok_bind with (M := fun _ => owns t ∅).
  { destruct r; [ret|]. skip. intros [x|e1]; ret. }
  intros [path|e]; [|ret]. destruct (if bool_decide _ then _ else _); [|ret]. skip. ret.
Qed.

Lemma Call_ok (q : Request) (polls : nat) :
  named_apart q -> ok E t (owns t ∅) (Call cfg decode_auth decode_cursor q polls) (fun _ => owns t ∅).
Proof.
  intros Hq. unfold Call. destruct (request_auth _ q) as [auth|e]; [|ret]. cbv zeta.
  assert (forall {A} (p : Prog A) (f : A -> Prog (result Reply)),
    ok E t (owns t ∅) p (fun _ => owns t ∅) -> (forall a, ok E t (owns t ∅) (f a) (fun _ => owns t ∅)) ->
    ok E t (owns t ∅) (bind p f) (fun _ => owns t ∅)) as Hbind by (intros; by eapply ok_bind).
  repeat (case_bool_decide; [first [ret | skip; ret | idtac]|]); [..|ret].
  - destruct (q_Spec q) as [s|] eqn:Hs; [|ret]. apply Hbind; [|ret]. apply Create_ok; auto.
  - apply Hbind; [by apply Start_ok|ret].
  - apply Hbind; [apply Stop_ok|ret].
  - apply Hbind; [apply Stop_ok|]. intros [x|e]; [|ret]. apply Hbind; [by apply Start_ok|ret].
  - apply Hbind; [apply Remove_ok|ret].
  - apply Hbind; [apply Wait_ok; apply _|ret].
  - apply Hbind; [apply kill_ok|ret].
  - apply logs_ok.
  - apply Hbind; [apply image_rm_ok|ret].
  - apply Hbind; [apply ValidateBase_ok|ret].
  - apply Hbind; [apply base_rm_ok|ret].
  - apply Hbind; [apply volume_create_ok|ret].
  - apply Hbind; [apply volume_rm_ok|ret].
Qed.
End Requests.
