(* ===== verification/DaemonSafety.v ===== *)
(** * DaemonSafety: the host service as a concurrent system

    The system: any number of requests handled concurrently, operation by
    operation, together with the monitor goroutines, from a store that
    satisfies the invariant (an empty store does), in every environment: every
    outcome of the VM backend, the network, the disks, the registry and the
    database, at every call.  Which requests clients send is a parameter of the
    system.  [reachable_ok] brings the logic to bear on it for the requests that
    are [named_apart]; [named_apart_needed] in DaemonLife shows why that condition
    is there.  A sample service provides the concrete runs of the witnesses. *)

From S2P Require Import Prelude GoLib Api State Fsutil Oci Base Storage DaemonSem Daemon DaemonLogic DaemonProof.
Import Strings.
Local Open Scope Z_scope.

(** ** The system *)

Section System.
Context (E : Env) (cfg : DaemonConfig).
Context (decode_auth : string -> result Auth) (decode_cursor : string -> result Z).
Context (requests : Request -> Prop).

(** What may start at any time: a request that clients send, or the monitor of
    a sandbox. *)
Inductive entry : Prog (result Reply) -> Prop :=
| entry_call (q : Request) (polls : nat) :
    requests q -> entry (Call cfg decode_auth decode_cursor q polls)
| entry_monitor (v : Sandbox) (drains polls : nat) :
    entry (bind (monitor cfg v drains polls) (fun _ => Ret (Ok RNone))).

Definition service_step := pool_step E entry.

(** A service that starts with no request under way. *)
Definition starts (w : World) : Prop := Inv (core w) /\ locks (core w) = ∅.

Definition reachable (w0 w : World) (T : gmap nat (Prog (result Reply))) : Prop :=
  rtc service_step (w0, ∅) (w, T).

(** Running a thread alone to its end is a sequence of steps of the system. *)
Lemma run_alone_steps (t : nat) (p : Prog (result Reply)) (w w' : World) (a : result Reply)
    (T : gmap nat (Prog (result Reply))) :
  run_alone E t p w = Some (w', a) -> rtc service_step (w, <[t := p]> T) (w', <[t := Ret a]> T).
Proof.
  revert w. induction p as [b|R op k IH]; intros w; simpl.
  - intros [= <- <-]. constructor.
  - destruct (exec E t op w) as [[w1 r]|] eqn:Ex; [|done]. intros H. eapply rtc_l; [|by apply IH in H].
    rewrite <-(insert_insert_eq T t (k r) (Do op k)).
    eapply pool_run; [by rewrite lookup_insert_eq|]. simpl. by rewrite Ex.
Qed.
End System.

(** ** The invariants of the service, for requests that are [named_apart] *)

Section Apart.
Context (E : Env) (cfg : DaemonConfig).
Context (decode_auth : string -> result Auth) (decode_cursor : string -> result Z).

Lemma entry_ok (HE : EnvOK E) (t : nat) (p : Prog (result Reply)) :
  entry cfg decode_auth decode_cursor named_apart p -> ok E t (owns t ∅) p (fun _ => owns t ∅).
Proof.
  intros [q polls Hq|v drains polls]; [by apply Call_ok|].
  eapply ok_bind; [apply monitor_ok|]. cbn. tauto.
Qed.

Lemma reachable_ok (HE : EnvOK E) (w0 w : World) (T : gmap nat (Prog (result Reply))) :
  starts w0 -> reachable E cfg decode_auth decode_cursor named_apart w0 w T -> pool_ok E (w, T).
Proof.
  intros [HI Hl] Hr. eapply (pool_safe E _ (entry_ok HE)); [exact Hr|]. split; simpl.
  - done.
  - intros l t. unfold has. by rewrite Hl, lookup_empty.
  - intros t p Hp. by rewrite lookup_empty in Hp.
Qed.
End Apart.

(** ** A concrete service, for the witnesses *)

Definition sample_descriptor : Descriptor :=
  mkDescriptor "sha256:0123456789abcdef0123456789abcdef0123456789abcdef0123456789abcdef" 1000 "m".
Definition sample_base_config : Config :=
  mkConfig 1 "linux" "amd64" 1 "/sbin/niflhel-init" "runc" 64 ["1.10"] sample_descriptor sample_descriptor.
Definition sample_bundle : Bundle :=
  mkBundle "base" "sha256:b" (mkSigned sample_base_config "k" "s") "/k" "/r".
Definition sample_image : Image :=
  mkImage "app" "sha256:a" (mkImageConfig ["/bin/app"] [] [] "" "" "" [] false) [sample_descriptor] [] "{}".

Definition env_with (client kill : result unit) : Env :=
  {| e_db := fun _ => None; e_now := Z.of_nat; e_random := fun n i => N.of_nat (n + i);
     e_meminfo := fun _ => Ok "MemAvailable: 8000000 kB"; e_check := fun _ => Ok tt;
     e_vm_start := fun _ _ _ => (4242, "boot:1", None);
     e_vm_ready := fun _ _ => Ok tt; e_vm_client := fun _ _ => client; e_vm_kill := fun _ _ => kill;
     e_vm_remove := fun _ _ => Ok tt; e_alive := fun _ _ => false; e_guest := fun _ _ _ => Ok tt;
     e_logs := fun _ _ _ => Ok []; e_status := fun _ _ => Err (Errorf "unavailable");
     e_net_prepare := fun _ _ => Ok tt; e_net_remove := fun _ _ => Ok tt; e_dns := fun _ _ => Ok tt;
     e_listen := fun _ _ => true; e_image_pull := fun _ _ _ _ => Ok sample_image;
     e_image_get := fun _ _ => Ok sample_image; e_image_list := fun _ => Ok [];
     e_image_remove := fun _ _ => Ok tt; e_base_pull := fun _ _ _ _ => Ok sample_bundle;
     e_base_get := fun _ ref => if bool_decide (ref = "") then Err ErrNotFound else Ok sample_bundle;
     e_base_list := fun _ => Ok []; e_base_push := fun _ _ _ => Ok tt; e_base_remove := fun _ _ => Ok tt;
     e_fs := fun _ _ => Ok tt; e_mktemp := fun _ d => Ok (d +:+ "/carrier-1");
     e_carrier := fun _ _ _ => Ok tt; e_cursor := fun _ _ => 0; e_session := fun _ _ _ => Ok [];
     e_disk := fun _ _ _ _ => Ok tt; e_save_result := fun _ _ => Ok tt;
     e_find_result := fun _ _ => Err ErrNotFound; e_read_log := fun _ _ _ => [];
     e_ctx_done := fun _ => false |}.

Definition sample_env : Env := env_with (Ok tt) (Ok tt).

#[export] Instance sample_env_ok : EnvOK sample_env.
Proof.
  split.
  - intros n ref policy auth b [= <-]. apply ValidateConfig_ok. vm_compute. reflexivity.
  - intros n b H. discriminate H.
Qed.

Definition empty_world : World := mkWorld (mkCore empty_db ∅ ∅ ∅) 0 ∅ ∅ ∅ [] [].

Lemma empty_starts : starts empty_world.
Proof. split; [|done]. split; try done; intros; set_solver. Qed.

Definition sample_config : DaemonConfig :=
  mkDaemonConfig "/var/lib/niflhel" "/run/s" "" "/fc" "/jailer" "base" ∅ "1.1.1.1:53" 60.

Definition request (action id : string) (s : option Spec) (v : option Volume) : Request :=
  mkRequest action id "" s None v "" "" false "" 10 "" "".

Definition sample_spec (name vol : string) (port : Z) : Spec :=
  mkSpec "app" "" name [] None [] "" "" 1 (512 * MiB) (4 * GiB) 256 "bridge"
    [mkPort "127.0.0.1" port 80] [mkMount vol "/data" false] "runc" "linux/amd64" "missing"
    false false false false.

(** Two volumes, two sandboxes, both started. *)
Definition sample_requests : list Request :=
  [request "volume-create" "" None (Some (mkVolume "data" (64 * MiB) 0));
   request "volume-create" "" None (Some (mkVolume "other" (64 * MiB) 0));
   request "create" "" (Some (sample_spec "web" "data" 8080)) None;
   request "create" "" (Some (sample_spec "api" "other" 8081)) None;
   request "start" "web" None None;
   request "start" "api" None None].

Definition sample_call (q : Request) : Prog (result Reply) :=
  Call sample_config (fun _ => Ok no_auth) (fun _ => Ok 0) q 3.

Fixpoint serve (t : nat) (qs : list Request) (w : World) : option World :=
  match qs with
  | [] => Some w
  | q :: qs =>
      match run_alone sample_env t (sample_call q) w with
      | Some (w', _) => serve (S t) qs w'
      | None => None
      end
  end.

Definition sample_world : World := default empty_world (serve 0 sample_requests empty_world).

(** The requests served one after the other are a run of the system; the
    threads after them are still unused. *)
Lemma serve_fresh_steps (requests : Request -> Prop) (qs : list Request) (t : nat) (w w' : World)
    (T : gmap nat (Prog (result Reply))) :
  Forall requests qs -> (forall n, (t <= n)%nat -> T !! n = None) -> serve t qs w = Some w' ->
  exists T', rtc (service_step sample_env sample_config (fun _ => Ok no_auth) (fun _ => Ok 0) requests) (w, T) (w', T') /\
    (forall n, (t + length qs <= n)%nat -> T' !! n = None).
Proof.
  revert t w T. induction qs as [|q qs IH]; intros t w T Hq HT; cbn [serve].
  - intros [= <-]. exists T. split; [constructor|]. intros n Hn. apply HT. simpl in Hn. lia.
  - destruct (run_alone sample_env t (sample_call q) w) as [[w1 a]|] eqn:Er; [|done]. intros Hs.
    inversion Hq as [|? ? Hq1 Hq2]. subst.
    destruct (IH (S t) w1 (<[t := Ret a]> T) Hq2) as (T' & HT' & Hfr); [|done|].
    { intros n Hn. rewrite lookup_insert_ne by lia. apply HT. lia. }
    exists T'. split; [|intros n Hn; apply Hfr; simpl in Hn; lia]. eapply rtc_l; [|etrans; [|exact HT']].
    + apply (pool_new sample_env _ t (sample_call q)); [apply HT; lia|]. by constructor.
    + by apply run_alone_steps.
Qed.

Lemma serve_reachable (qs : list Request) (w : World) :
  Forall named_apart qs -> serve 0 qs empty_world = Some w ->
  exists T, reachable sample_env sample_config (fun _ => Ok no_auth) (fun _ => Ok 0) named_apart empty_world w T.
Proof.
  intros Hq Hs. destruct (serve_fresh_steps named_apart qs 0 empty_world w ∅ Hq) as (T & HT & _); [|done|by exists T].
  intros. apply lookup_empty.
Qed.

Lemma sample_reachable :
  exists T, reachable sample_env sample_config (fun _ => Ok no_auth) (fun _ => Ok 0) named_apart empty_world sample_world T.
Proof.
  apply (serve_reachable sample_requests).
  - repeat constructor; by intros s [= <-].
  - vm_compute. reflexivity.
Qed.

Definition web_id : string := "0d0e0f101112131415161718191a1b1c".
Definition api_id : string := "1f202122232425262728292a2b2c2d2e".
