(* ===== verification/DaemonSeq.v ===== *)
(** * DaemonSeq: the handlers, each run on its own

    Functional behaviour of single handlers: which calls they make, in which
    order and with which outcome, and what they leave in the store, on every
    path.  [calls] gives the outside calls an operation records; [touches] the
    row it may change. *)

From S2P Require Import Prelude GoLib Api State Fsutil Oci Base Storage DaemonSem Daemon DaemonLogic DaemonProof DaemonSafety.
Import Strings.
Local Open Scope Z_scope.

(** ** Effects of one operation *)

Definition calls {R} (op : Op R) : R -> list call :=
  match op in Op R return R -> list call with
  | ODelete id => fun r => [CDelete id (is_ok r)]
  | OVMStart v _ => fun r => [CVMStart (sb_ID v) (bool_decide (r.2 = None))]
  | OVMKill v => fun r => [CKill (sb_ID v) (is_ok r)]
  | OVMRemove v => fun r => [CVMRemove (sb_ID v) (is_ok r)]
  | OGuest v q => fun r => [CGuest (sb_ID v) q (is_ok r)]
  | ONetPrepare v => fun r => [CNetPrepare (sb_ID v) (is_ok r)]
  | ONetRemove v => fun r => [CNetRemove (sb_ID v) (is_ok r)]
  | ODisk path _ _ => fun r => [CDisk path (is_ok r)]
  | ORemoveFile path => fun _ => [CRemoveFile path]
  | ORemoveAll path => fun r => [CRemoveAll path (is_ok r)]
  | OLogWrite id kind data => fun _ => [CLog id kind data]
  | OSaveResult v _ => fun r => [CSaveResult (sb_ID v) (is_ok r)]
  | OSleep => fun _ => [CSleep]
  | _ => fun _ => []
  end.

(** The row an operation may change. *)
Definition touches {R} (op : Op R) : option string :=
  match op with
  | OCreate v => Some (sb_ID v)
  | OUpdate id _ | ODelete id => Some id
  | _ => None
  end.

Section Effects.
Context (E : Env) (t : nat).

Ltac exec_cases op :=
  destruct op; simpl; unfold db_call, db_read, db_write, reserve, start_dns, monitor_enter, monitor_leave;
  repeat (case_match; simpl); intros; simplify_eq; simpl.

Lemma exec_trace {R} (op : Op R) (w w' : World) (r : R) :
  exec E t op w = Some (w', r) -> trace w' = trace w ++ calls op r.
Proof. exec_cases op; by rewrite ?app_nil_r. Qed.

Lemma exec_tick {R} (op : Op R) (w w' : World) (r : R) :
  exec E t op w = Some (w', r) -> tick w' = S (tick w).
Proof. by exec_cases op. Qed.

Lemma exec_rows {R} (op : Op R) (w w' : World) (r : R) (id : string) :
  exec E t op w = Some (w', r) -> touches op <> Some id -> rows (core w') !! id = rows (core w) !! id.
Proof.
  unfold rows. exec_cases op; try done; unfold State.Create, Update, PutVolume in *;
    repeat case_match; simplify_eq; simpl; rewrite ?lookup_insert_ne, ?lookup_delete_ne by congruence; done.
Qed.

Lemma exec_update (id : string) (fn : Sandbox -> result Sandbox) (w w' : World) (r : result unit) :
  exec E t (OUpdate id fn) w = Some (w', r) ->
  match r with
  | Ok _ => exists row v, rows (core w) !! id = Some row /\ fn (r_body row) = Ok v /\
              rows (core w') !! id = Some (mkRow (r_name row) (set_Updated (e_now E (tick w)) v))
  | Err _ => core w' = core w
  end.
Proof.
  simpl. unfold db_call, db_write. destruct (e_db E (tick w)); [by intros [= <- <-]|]. simpl.
  unfold Update. destruct (sandboxes (db (core w)) !! id) as [row|] eqn:Er; [|by intros [= <- <-]].
  destruct (fn (r_body row)) as [v|e] eqn:Ef; [|by intros [= <- <-]].
  intros [= <- <-]. exists row, v. split_and!; [done|done|]. unfold rows. simpl. by rewrite lookup_insert_eq.
Qed.

Lemma exec_update_some (id : string) (fn : Sandbox -> result Sandbox) (w w' : World) (r : result unit) :
  exec E t (OUpdate id fn) w = Some (w', r) -> is_Some (rows (core w) !! id) -> is_Some (rows (core w') !! id).
Proof.
  intros H [row Hr]. apply exec_update in H. destruct r; [|by rewrite H; eexists].
  destruct H as (row' & v & _ & _ & ->). by eexists.
Qed.

Lemma exec_delete (id : string) (w w' : World) (r : result unit) :
  exec E t (ODelete id) w = Some (w', r) ->
  if is_ok r then rows (core w') !! id = None else core w' = core w.
Proof.
  simpl. unfold db_call, db_write. destruct (e_db E (tick w)); [by intros [= <- <-]|]. simpl.
  intros [= <- <-]. unfold rows. simpl. by rewrite lookup_delete_eq.
Qed.

(** Only a deletion makes a row disappear. *)
Definition deletes {R} (op : Op R) : option string := match op with ODelete id => Some id | _ => None end.

Lemma exec_keeps {R} (op : Op R) (w w' : World) (r : R) (id : string) :
  is_Some (rows (core w) !! id) -> exec E t op w = Some (w', r) -> deletes op <> Some id ->
  is_Some (rows (core w') !! id).
Proof.
  intros Hs Hx Hn. destruct (decide (touches op = Some id)) as [Ht|Ht]; [|by rewrite (exec_rows _ _ _ _ _ Hx Ht)].
  destruct op; try done; injection Ht as <-; [|by eapply exec_update_some].
  simpl in Hx. unfold db_call, db_write, State.Create in Hx. simpl in Hx. destruct Hs as [row Hr]. unfold rows in Hr.
  rewrite Hr in Hx. repeat case_match; simplify_eq; by eexists.
Qed.

Lemma exec_get (id : string) (w w' : World) (v : Sandbox) :
  Inv (core w) -> is_id id = true -> exec E t (OGet id) w = Some (w', Ok v) ->
  sb_ID v = id /\ core w' = core w /\ exists row, rows (core w) !! id = Some row /\ r_body row = v.
Proof.
  intros HI Hid. simpl. unfold db_call, db_read. destruct (e_db E (tick w)); [done|]. simpl.
  intros [= <- Hg]. apply (Get_by_id (core w)) in Hg as [? ?]; [|done|done]. by split.
Qed.

Lemma run_do {A R} (op : Op R) (k : R -> Prog A) (w w2 : World) (a : A) :
  run_alone E t (Do op k) w = Some (w2, a) ->
  exists w1 r, exec E t op w = Some (w1, r) /\ run_alone E t (k r) w1 = Some (w2, a).
Proof. simpl. destruct (exec E t op w) as [[w1 r]|]; [|done]. intros H. by exists w1, r. Qed.

Lemma run_bind {A B} (p : Prog A) (f : A -> Prog B) (w w2 : World) (b : B) :
  run_alone E t (bind p f) w = Some (w2, b) ->
  exists w1 a, run_alone E t p w = Some (w1, a) /\ run_alone E t (f a) w1 = Some (w2, b).
Proof.
  revert w. induction p as [a|R op k IH]; intros w; simpl.
  - intros H. by exists w, a.
  - destruct (exec E t op w) as [[w1 r]|]; [|done]. apply IH.
Qed.

(** A run that began in [w0], has made the calls [pre] and left the row of [id]
    as it was. *)
Definition at_row (id : string) (row : Row) (w0 : World) (pre : list call) (w : World) : Prop :=
  rows (core w) !! id = Some row /\ trace w = trace w0 ++ pre.

Lemma at_row_start (id : string) (row : Row) (w : World) :
  rows (core w) !! id = Some row -> at_row id row w [] w.
Proof. intros H. split; [done|]. by rewrite app_nil_r. Qed.

Lemma exec_at_row {R} (op : Op R) (id : string) (row : Row) (w0 w w1 : World) (pre : list call) (r : R) :
  at_row id row w0 pre w -> exec E t op w = Some (w1, r) -> touches op <> Some id ->
  at_row id row w0 (pre ++ calls op r) w1.
Proof.
  intros [Hr Ht] Hx Hn. split; [by rewrite (exec_rows _ _ _ _ _ Hx Hn)|].
  by rewrite (exec_trace _ _ _ _ Hx), Ht, app_assoc.
Qed.

(** The logic is sound for a program that runs alone. *)
Lemma ok_run {A} (p : Prog A) (P : Core -> Prop) (Q : A -> Core -> Prop) (w w' : World) (a : A) :
  ok E t P p Q -> Inv (core w) -> P (core w) -> run_alone E t p w = Some (w', a) ->
  Inv (core w') /\ Q a (core w').
Proof.
  revert P w. induction p as [b|R op k IH]; simpl; intros P w Hok HI HP.
  - intros [= <- <-]. auto.
  - destruct Hok as (M & _ & Hop & Hk). destruct (exec E t op w) as [[w1 r]|] eqn:Ex; [|done].
    destruct (Hop w HI HP) as [_ Hx]. destruct (Hx _ _ Ex) as (HI' & _ & HM). by apply (IH r (M r)).
Qed.
(** Programs without lock operations return, whatever the world. *)
Definition plain_op {R} (op : Op R) : Prop :=
  match op with OLock _ | OUnlock _ => False | _ => True end.

Fixpoint lockfree {A} (p : Prog A) : Prop :=
  match p with
  | Ret _ => True
  | Do op k => plain_op op /\ forall r, lockfree (k r)
  end.

Lemma lockfree_bind {A B} (p : Prog A) (f : A -> Prog B) :
  lockfree p -> (forall a, lockfree (f a)) -> lockfree (bind p f).
Proof. induction p as [a|R op k IH]; simpl; [auto|]. intros [? ?] ?. auto. Qed.

Lemma lockfree_returns {A} (p : Prog A) (w : World) :
  lockfree p -> exists w' a, run_alone E t p w = Some (w', a).
Proof.
  revert w. induction p as [a|R op k IH]; simpl; intros w; [by eauto|]. intros [Hop Hk].
  destruct (exec_total E t op w) as [[w1 r] Hx]; [by destruct op|by destruct op|].
  rewrite Hx. by apply IH.
Qed.

Lemma exec_locks {R} (op : Op R) (w w' : World) (r : R) :
  plain_op op -> exec E t op w = Some (w', r) -> locks (core w') = locks (core w).
Proof. intros Hp. revert Hp. exec_cases op; done. Qed.

Lemma lockfree_locks {A} (p : Prog A) (w w' : World) (a : A) :
  lockfree p -> run_alone E t p w = Some (w', a) -> locks (core w') = locks (core w).
Proof.
  revert w. induction p as [b|R op k IH]; simpl; intros w; [by intros _ [= <- <-]|]. intros [Hop Hk].
  destruct (exec E t op w) as [[w1 r]|] eqn:Ex; [|done]. intros H.
  rewrite (IH r w1 (Hk r) H). by eapply exec_locks.
Qed.

(** Programs that return in an unlocked service and leave it unlocked. *)
Definition returns {A} (p : Prog A) : Prop :=
  forall w, locks (core w) = ∅ -> exists w' a, run_alone E t p w = Some (w', a) /\ locks (core w') = ∅.

Lemma returns_lockfree {A} (p : Prog A) : lockfree p -> returns p.
Proof.
  intros Hp w Hw. destruct (lockfree_returns p w Hp) as (w' & a & H). exists w', a. split; [done|].
  by rewrite (lockfree_locks p w w' a Hp H).
Qed.

Lemma run_bind_eq {A B} (p : Prog A) (f : A -> Prog B) (w w1 : World) (a : A) :
  run_alone E t p w = Some (w1, a) -> run_alone E t (bind p f) w = run_alone E t (f a) w1.
Proof.
  revert w. induction p as [b|R op k IH]; intros w; simpl; [by intros [= <- <-]|].
  destruct (exec E t op w) as [[w2 r]|]; [|done]. apply IH.
Qed.

Lemma returns_bind {A B} (p : Prog A) (f : A -> Prog B) :
  returns p -> (forall a, returns (f a)) -> returns (bind p f).
Proof.
  intros Hp Hf w Hw. destruct (Hp w Hw) as (w1 & a & H & Hw1). destruct (Hf a w1 Hw1) as (w2 & b & H2 & Hw2).
  exists w2, b. split; [|done]. by rewrite (run_bind_eq p f w w1 a H).
Qed.

Lemma returns_do {A R} (op : Op R) (k : R -> Prog A) : plain_op op -> (forall r, returns (k r)) -> returns (Do op k).
Proof.
  intros Hop Hk. apply (returns_bind (Do op Ret) k); [|done]. by apply returns_lockfree.
Qed.

Lemma returns_with_lock {A} (l : string) (p : Prog A) : lockfree p -> returns (with_lock l p).
Proof.
  intros Hp w Hw. unfold with_lock. simpl. rewrite Hw, lookup_empty. simpl.
  set (w1 := set_core _ _). destruct (lockfree_returns p w1 Hp) as (w2 & a & H).
  pose proof (lockfree_locks p w1 w2 a Hp H) as Hl. simpl in Hl.
  rewrite (run_bind_eq p _ w1 w2 a H). simpl. rewrite Hl, lookup_insert_eq, Nat.eqb_refl. simpl.
  eexists _, _. split; [done|]. simpl. apply map_eq. intros l'. rewrite lookup_empty.
  destruct (decide (l' = l)) as [->|Hne]; [apply lookup_delete_eq|].
  rewrite lookup_delete_ne by done. by rewrite lookup_insert_ne, lookup_empty.
Qed.

(** A program that respects the order of the locks returns when no other thread
    holds one. *)
Lemma ok_returns {A} (p : Prog A) (P : Core -> Prop) (Q : A -> Core -> Prop) (w : World) :
  ok E t P p Q -> Inv (core w) -> P (core w) -> (forall l t', locks (core w) !! l = Some t' -> t' = t) ->
  exists w' a, run_alone E t p w = Some (w', a).
Proof.
  revert P w. induction p as [b|R op k IH]; simpl; intros P w Hok HI HP Hl; [by eauto|].
  destruct Hok as (M & _ & Hop & Hk). destruct (Hop w HI HP) as [Hm Hx].
  destruct (exec_total E t op w Hm) as [[w1 r] Ex].
  { intros l Hw. destruct (locks (core w) !! l) as [t'|] eqn:El; [|done]. pose proof (Hl _ _ El) as ->.
    destruct op; try discriminate Hw. injection Hw as <-. by destruct (Hm _ El). }
  rewrite Ex. destruct (Hx _ _ Ex) as (HI' & HG & HM). apply (IH r (M r)); [done|done|done|].
  intros l t' El. destruct (decide (t' = t)) as [|Hne]; [done|]. by apply (g_locks _ _ _ HG l t' Hne), Hl in El.
Qed.
Lemma unlocked_owns (w : World) : locks (core w) = ∅ -> owns t ∅ (core w).
Proof. intros Hl l. unfold has. rewrite Hl, lookup_empty. set_solver. Qed.

End Effects.

(** Discharge [lockfree] of a straight-line program with branches. *)
Ltac lockfree_tac :=
  repeat first
    [ exact I
    | assumption
    | apply lockfree_bind; [|intros ?]
    | split; [exact I|intros ?]
    | solve [auto]
    | match goal with |- lockfree (match ?x with _ => _ end) => destruct x end
    | progress cbn beta iota zeta delta [lockfree] ].

(** Walk one operation of a run: names the world after it and its result. *)
Tactic Notation "walk" hyp(H) "as" ident(w') ident(r) ident(Hx) :=
  apply run_do in H; destruct H as (w' & r & Hx & H).

(** The same, keeping track that a row is stored. *)
Tactic Notation "keep" hyp(H) "as" ident(w') ident(r) ident(Hx) "in" hyp(Hs) :=
  walk H as w' r Hx; eapply exec_keeps in Hs; [|exact Hx|done].

(** The same for an operation that leaves the row of interest alone. *)
Tactic Notation "pass" hyp(H) "as" ident(w') ident(r) "from" hyp(Hr) :=
  let Hx := fresh "Hx" in
  walk H as w' r Hx; eapply exec_at_row in Hx; [|exact Hr|done]; clear Hr; rename Hx into Hr.

(** ** Remove *)

Section RemoveRun.
Context (E : Env) (cfg : DaemonConfig) (t : nat).

Lemma remove_ordered_run (id : string) (force : bool) (w w' : World) (r : result unit) (row : Row) :
  Inv (core w) -> is_id id = true -> rows (core w) !! id = Some row ->
  run_alone E t (remove_locked cfg id force) w = Some (w', r) ->
  match r with
  | Ok _ =>
      rows (core w') !! id = None /\
      trace w' = trace w ++ [CKill id true; CNetRemove id true; CVMRemove id true;
                             CRemoveAll (dir cfg id) true; CDelete id true]
  | Err _ =>
      is_Some (rows (core w') !! id) /\
      (is_active (r_body row) = true -> force = false -> trace w' = trace w)
  end.
Proof.
  intros HI Hid Hrow H. unfold remove_locked in H. walk H as w1 g Hx1.
  destruct g as [v|e]; [|injection H as <- <-].
  2:{ split; [|intros _ _; by rewrite (exec_trace _ _ _ _ _ _ Hx1), app_nil_r].
      rewrite (exec_rows _ _ _ _ _ _ _ Hx1) by done. by eexists. }
  destruct (exec_get E t id w w1 v HI Hid Hx1) as (Hv & Hc1 & row' & Hrow' & Hb).
  replace row' with row in Hb by congruence. clear row' Hrow'.
  assert (is_Some (rows (core w1) !! id)) as Hs1 by (rewrite Hc1, Hrow; by eexists).
  pose proof (exec_trace _ _ _ _ _ _ Hx1) as Ht1. simpl in Ht1. rewrite app_nil_r in Ht1.
  rewrite Hb. destruct (is_active v && negb force) eqn:Ha; [by injection H as <- <-|].
  assert (is_active v = true -> force = false -> False) as Hno.
  { intros H1 H2. by rewrite H1, H2 in Ha. }
  rewrite Hv in H. keep H as w2 r2 Hx2 in Hs1.
  keep H as w3 r3 Hx3 in Hs1.
  destruct r3 as [[]|e]; [|injection H as <- <-; split; [done|intros; by destruct Hno]].
  keep H as w4 r4 Hx4 in Hs1.
  keep H as w5 r5 Hx5 in Hs1.
  destruct r5 as [[]|e]; [|injection H as <- <-; split; [done|intros; by destruct Hno]].
  keep H as w6 r6 Hx6 in Hs1.
  destruct r6 as [[]|e]; [|injection H as <- <-; split; [done|intros; by destruct Hno]].
  keep H as w7 r7 Hx7 in Hs1.
  keep H as w8 r8 Hx8 in Hs1.
  destruct r8 as [[]|e]; [|injection H as <- <-; split; [done|intros; by destruct Hno]].
  walk H as w9 r9 Hx9. injection H as <- <-. pose proof (exec_delete _ _ _ _ _ _ Hx9) as Hd.
  destruct r9 as [[]|e]; simpl in Hd; [|rewrite Hd; split; [done|intros; by destruct Hno]].
  split; [done|]. apply exec_trace in Hx2, Hx3, Hx4, Hx5, Hx6, Hx7, Hx8, Hx9. simpl in *.
  rewrite Hx9, Hx8, Hx7, Hx6, Hx5, Hx4, Hx3, Hx2, Ht1, Hv. by rewrite !app_nil_r, <-!app_assoc.
Qed.

(** C11. Removal is ordered and loses no record.  When [Remove] succeeds it has,
    in this order, terminated the VMM, removed its network and its jail,
    deleted its files and then its record, each step confirmed; the record is
    gone.  When it fails at any step the record is still stored (so the
    removal can be retried), and without [force] an active sandbox is refused
    before anything is called. *)
Theorem remove_ordered (id : string) (force : bool) (w : World) (row : Row) :
  Inv (core w) -> is_id id = true -> rows (core w) !! id = Some row ->
  exists w' r, run_alone E t (remove_locked cfg id force) w = Some (w', r) /\
  match r with
  | Ok _ =>
      rows (core w') !! id = None /\
      trace w' = trace w ++ [CKill id true; CNetRemove id true; CVMRemove id true;
                             CRemoveAll (dir cfg id) true; CDelete id true]
  | Err _ =>
      is_Some (rows (core w') !! id) /\
      (is_active (r_body row) = true -> force = false -> trace w' = trace w)
  end.
Proof.
  intros HI Hid Hrow. destruct (lockfree_returns E t (remove_locked cfg id force) w) as (w' & r & H).
  { unfold remove_locked. lockfree_tac. }
  exists w', r. split; [done|]. by apply (remove_ordered_run id force w w' r row).
Qed.
End RemoveRun.

(** ** Start *)

(** The clean-up that ends every failed start: [k], [n] and [m] are the
    outcomes of killing the VMM, removing the network and removing the jail. *)
Definition cleanup (id : string) (k n m : bool) : list call :=
  CKill id k :: (if k then [CNetRemove id n; CVMRemove id m] else []).

Section StartRun.
Context (E : Env) (cfg : DaemonConfig) (t : nat).

(** The database refuses some call. *)
Definition db_refuses : Prop := exists n, e_db E n <> None.

(** An update whose callback succeeds: the record is written, or the database
    refused it and nothing is. *)
Lemma exec_update_cases (id : string) (fn : Sandbox -> result Sandbox) (w w' : World) (r : result unit)
    (row : Row) (v : Sandbox) :
  exec E t (OUpdate id fn) w = Some (w', r) -> rows (core w) !! id = Some row -> fn (r_body row) = Ok v ->
  (r = Ok tt /\ exists now, rows (core w') !! id = Some (mkRow (r_name row) (set_Updated now v))) \/
  ((exists e, r = Err e) /\ rows (core w') !! id = Some row /\ db_refuses).
Proof.
  simpl. unfold db_call. intros H Hr Hf. destruct (e_db E (tick w)) as [e|] eqn:Ed.
  - injection H as <- <-. right. split_and!; [by eexists|done|]. exists (tick w). by rewrite Ed.
  - left. simpl in H. unfold Update, rows in *. rewrite Hr, Hf in H. injection H as <- <-. split; [done|]. simpl.
    exists (e_now E (tick w)). by rewrite lookup_insert_eq.
Qed.

(** Without database errors an update succeeds when its callback does. *)
Lemma exec_update_ok (Hdb : forall n, e_db E n = None) (id : string) (fn : Sandbox -> result Sandbox) (w w' : World) (r : result unit)
    (row : Row) (v : Sandbox) :
  exec E t (OUpdate id fn) w = Some (w', r) -> rows (core w) !! id = Some row -> fn (r_body row) = Ok v ->
  r = Ok tt /\ exists now, rows (core w') !! id = Some (mkRow (r_name row) (set_Updated now v)).
Proof.
  intros Hx Hr Hf. destruct (exec_update_cases id fn w w' r row v Hx Hr Hf) as [?|(_ & _ & n & Hn)]; [done|].
  by rewrite Hdb in Hn.
Qed.

Definition may_fail (s : string) : bool :=
  bool_decide (s = "failed") || bool_decide ("failed" ∈ transitions s).

Lemma Transition_failed (x : Sandbox) (reason : string) :
  may_fail (sb_State x) = true ->
  exists y, Transition x "failed" reason = Ok y /\ sb_State y = "failed" /\
    sb_VMResourcesReleased y = sb_VMResourcesReleased x.
Proof.
  unfold may_fail, Transition. intros [H|H]%orb_true_iff.
  - rewrite H. bool_prop. by exists x.
  - destruct (bool_decide (sb_State x = "failed")) eqn:E0; [bool_prop; by exists x|].
    rewrite H. by eexists.
Qed.

Lemma start_fail_run (v : Sandbox) (err : error) (w w' : World) (a : Sandbox * option error) (row : Row) :
  rows (core w) !! sb_ID v = Some row -> may_fail (sb_State (r_body row)) = true ->
  run_alone E t (start_fail v err) w = Some (w', a) ->
  a = (v, Some err) /\
  exists k n m row', trace w' = trace w ++ cleanup (sb_ID v) k n m /\
    rows (core w') !! sb_ID v = Some row' /\
    ((sb_State (r_body row') = "failed" /\ sb_VMResourcesReleased (r_body row') = k && n && m) \/
     (row' = row /\ db_refuses)).
Proof.
  intros Hr Hf H. unfold start_fail in H. walk H as w1 killed Hx1.
  apply run_bind in H as (w2 & outcome & Hb & H). walk H as w3 r3 Hx3. injection H as <- <-.
  split; [done|].
  assert (exists k n m, trace w2 = trace w ++ cleanup (sb_ID v) k n m /\ outcome.1 = k && n && m /\
            rows (core w2) !! sb_ID v = Some row) as (k & n & m & Ht & Ho & Hr2).
  { pose proof (exec_rows _ _ _ _ _ _ (sb_ID v) Hx1 ltac:(done)) as Hr1.
    apply exec_trace in Hx1. simpl in Hx1. destruct killed as [[]|e].
    - walk Hb as u1 x1 Hy1. walk Hb as u2 net Hy2. walk Hb as u3 vm Hy3. injection Hb as <- <-.
      pose proof (exec_rows _ _ _ _ _ _ (sb_ID v) Hy1 ltac:(done)).
      pose proof (exec_rows _ _ _ _ _ _ (sb_ID v) Hy2 ltac:(done)).
      pose proof (exec_rows _ _ _ _ _ _ (sb_ID v) Hy3 ltac:(done)).
      apply exec_trace in Hy1, Hy2, Hy3. simpl in *. exists true, (is_ok net), (is_ok vm).
      split; [|split; [done|congruence]]. rewrite Hy3, Hy2, Hy1, Hx1. by rewrite app_nil_r, <-!app_assoc.
    - injection Hb as <- <-. exists false, false, false. split_and!; [done|done|congruence]. }
  pose proof (exec_trace _ _ _ _ _ _ Hx3) as Ht3. simpl in Ht3. rewrite app_nil_r in Ht3.
  destruct (Transition_failed (set_VMResourcesReleased outcome.1 (set_PIDStart (sb_PIDStart v)
              (set_PID (sb_PID v) (r_body row)))) outcome.2 Hf) as (y & Hy & Hst & Hrel).
  rewrite Ht3.
  destruct (exec_update_cases _ _ _ _ _ _ _ Hx3 Hr2 Hy) as [(_ & now & Hrow)|(_ & Hrow & Hn)].
  - exists k, n, m. eexists. split_and!; [done|exact Hrow|left]. split; [done|]. simpl. by rewrite Hrel.
  - exists k, n, m, row. split_and!; [done|done|by right].
Qed.

(** How an admitted start can end. *)
Definition start_ends (v : Sandbox) (w w' : World) (result : option error) : Prop :=
  let id := sb_ID v in
  exists row, rows (core w') !! id = Some row /\
  match result with
  | None =>
      sb_State (r_body row) = "running" /\
      trace w' = trace w ++ [CNetPrepare id true; CVMStart id true; CGuest id (start_request v) true]
  | Some _ =>
      exists pre k n m, trace w' = trace w ++ pre ++ cleanup id k n m /\
        ((sb_State (r_body row) = "failed" /\ sb_VMResourcesReleased (r_body row) = k && n && m) \/
         (sb_State (r_body row) = "starting" /\ reservesVMResources (r_body row) = true /\ db_refuses))
  end.

Lemma start_fail_ends (v v0 : Sandbox) (err : error) (row : Row) (w0 w w' : World)
    (pre : list call) (a : Sandbox * option error) :
  run_alone E t (start_fail v err) w = Some (w', a) -> sb_ID v = sb_ID v0 ->
  at_row (sb_ID v0) row w0 pre w -> sb_State (r_body row) = "starting" -> start_ends v0 w0 w' a.2.
Proof.
  intros H Hid [Hr Ht] Hs. unfold start_ends. rewrite <-Hid in *. destruct (start_fail_run v err w w' a row) as (-> & k & n & m & row' & Ht' & H');
    [done|by rewrite Hs|done|]. destruct H' as [Hr' Hout]. exists row'. split; [done|].
  exists pre, k, n, m. rewrite Ht', Ht, <-app_assoc. split; [done|].
  destruct Hout as [?|[-> Hn]]; [by left|]. right. split_and!; [done| |done]. unfold reservesVMResources. by rewrite Hs.
Qed.

Lemma start_outcome_run (v : Sandbox) (b : Bundle) (w w' : World) (a : Sandbox * option error) (row : Row) :
  rows (core w) !! sb_ID v = Some row -> sb_State (r_body row) = "starting" ->
  run_alone E t (start_boot v b) w = Some (w', a) -> start_ends v w w' a.2.
Proof.
  intros Hr Hst H. apply at_row_start in Hr. unfold start_boot in H.
  pass H as w1 r1 from Hr.
  pass H as w2 r2 from Hr.
  destruct r2 as [[]|e]; [|by eapply start_fail_ends].
  pass H as w3 r3 from Hr.
  destruct r3 as [[]|e]; [|by eapply start_fail_ends].
  apply run_bind in H as (w4 & dns & Hb & H).
  assert (at_row (sb_ID v) row w [CNetPrepare (sb_ID v) true] w4) as Hr4.
  { destruct (bool_decide _); [|by injection Hb as <- <-]. walk Hb as u x Hy. injection Hb as <- <-.
    by eapply exec_at_row in Hy; [|exact Hr|done]. }
  clear Hr Hb. rename Hr4 into Hr. destruct dns as [[]|e]; [|by eapply start_fail_ends].
  pass H as w5 r5 from Hr.
  pass H as w6 r6 from Hr.
  destruct r6 as [[pid st] [e|]]; cbn [snd] in H; [by eapply start_fail_ends|].
  walk H as w7 r7 Hx7.
  pose proof (exec_update_cases _ _ _ _ _ row _ Hx7 (proj1 Hr) eq_refl) as Hcase.
  apply exec_trace in Hx7. cbn [calls] in Hx7. rewrite app_nil_r, (proj2 Hr) in Hx7.
  destruct Hcase as [(-> & now & Hr7)|((e & ->) & Hr7 & _)];
    [|by eapply (start_fail_ends _ v _ row w w7); [exact H|done|exact (conj Hr7 Hx7)|done]].
  pose proof (conj Hr7 Hx7 : at_row _ _ w _ w7) as Hat. clear Hr Hr7 Hx7. rename Hat into Hr.
  pass H as w8 r8 from Hr.
  destruct r8 as [[]|e]; [|by eapply start_fail_ends].
  pass H as w9 r9 from Hr.
  destruct r9 as [[]|e]; [|by eapply start_fail_ends].
  walk H as wa ra Hxa. destruct Hr as [Hr9 Ht9].
  assert (exists y, Transition (r_body (mkRow (r_name row) (set_Updated now
    (set_PIDStart st (set_PID pid (r_body row)))))) "running" "" = Ok y /\ sb_State y = "running")
    as (y & Hy & Hsy).
  { unfold Transition. simpl. rewrite Hst. by eexists. }
  pose proof (exec_update_cases _ _ _ _ _ _ _ Hxa Hr9 Hy) as Hcase.
  apply exec_trace in Hxa. cbn [calls] in Hxa. rewrite app_nil_r, Ht9 in Hxa.
  destruct Hcase as [(-> & now' & Hra)|((e & ->) & Hra & _)];
    [|by eapply (start_fail_ends _ v _ _ w wa); [exact H|done|exact (conj Hra Hxa)|done]].
  walk H as wb rb Hxb. injection H as <- <-.
  eexists. split; [by rewrite (exec_rows _ _ _ _ _ _ _ Hxb)|]. split; [done|].
  apply exec_trace in Hxb. simpl in *. by rewrite Hxb, Hxa, !app_nil_r.
Qed.

End StartRun.

(** ** Memory admission *)

(** The memory a VM may use: the guest and 64 MiB for the VMM. *)
Definition envelope (x : Sandbox) : Z := sb_GuestMemory x + 64 * MiB.

(** The memory of all VMs that hold resources, as mathematical integers. *)
Definition reserved_total (all : list Sandbox) : Z :=
  foldr Z.add 0 (envelope <$> filter (fun x => reservesVMResources x = true) all).

(** There are never more than 16000 sandboxes. *)
Lemma rows_bounded (c : Core) : Inv c -> Z.of_nat (length (List (db c))) <= 16000.
Proof.
  intros HI.
  assert (NoDup (sb_Slot <$> List (db c))) as Hnd.
  { unfold List. rewrite <-list_fmap_compose, merge_sort_Permutation, <-list_fmap_compose.
    apply NoDup_fmap_2_strong; [|apply NoDup_map_to_list].
    intros [i x] [j y] Hi%elem_of_map_to_list Hj%elem_of_map_to_list Heq.
    assert (i = j) as -> by by eapply (inv_slots c HI i j). unfold rows in *. congruence. }
  assert ((sb_Slot <$> List (db c)) ⊆+ seqZ 1 16000) as Hsub.
  { apply NoDup_submseteq; [done|]. intros s (x & -> & (id & r & Hr & <-)%elem_of_List)%list_elem_of_fmap.
    apply elem_of_seqZ. pose proof (inv_slot c HI id r Hr). lia. }
  apply submseteq_length in Hsub. rewrite length_fmap, length_seqZ in Hsub. lia.
Qed.

Lemma reserved_total_cons (x : Sandbox) (l : list Sandbox) :
  reserved_total (x :: l) = (if reservesVMResources x then envelope x else 0) + reserved_total l.
Proof.
  unfold reserved_total. rewrite filter_cons. destruct (reservesVMResources x) eqn:E0.
  - rewrite decide_True by done. done.
  - rewrite decide_False by congruence. done.
Qed.

Lemma reserved_fold (l : list Sandbox) (n : Z) :
  (forall x, x ∈ l -> 0 <= sb_GuestMemory x <= max_guest) -> 0 <= n ->
  n + Z.of_nat (length l) * (max_guest + 64 * MiB) <= max_int64 ->
  fold_left (fun n x => if reservesVMResources x
                        then int64 (n + int64 (sb_GuestMemory x + 64 * MiB)) else n) l n
  = n + reserved_total l /\ 0 <= reserved_total l <= Z.of_nat (length l) * (max_guest + 64 * MiB).
Proof.
  revert n. induction l as [|x l IH]; intros n Hl Hn Hb; [by simpl; unfold reserved_total; simpl; lia|].
  rewrite reserved_total_cons. cbn [fold_left length] in *.
  assert (0 <= sb_GuestMemory x <= max_guest) as Hx by (apply Hl; by left).
  assert (forall y, y ∈ l -> 0 <= sb_GuestMemory y <= max_guest) as Hl' by (intros; apply Hl; by right).
  unfold envelope, max_guest, max_int64, two63, MiB, GiB in *.
  destruct (reservesVMResources x).
  - rewrite (int64_id (sb_GuestMemory x + _)) by (unfold in_int64, two63, max_int64; lia).
    rewrite int64_id by (unfold in_int64, two63, max_int64; lia).
    destruct (IH (n + (sb_GuestMemory x + 64 * 1048576))) as [-> H2]; [done|lia|lia|]. lia.
  - destruct (IH n) as [-> H2]; [done|lia|lia|]. lia.
Qed.

(** C10. Memory admission is exact: for every store that satisfies the
    invariant, the sum that [Start] computes with 64-bit arithmetic over the
    new sandbox and all VMs that hold resources does not overflow, and the
    budget check accepts exactly when that sum and the 256 MiB host reserve fit
    in the available memory. *)
Theorem admission_exact (c : Core) (v : Sandbox) (row : Row) (available : Z) :
  Inv c -> rows c !! sb_ID v = Some row -> sb_GuestMemory v = sb_GuestMemory (r_body row) ->
  in_int64 available ->
  reserved_memory v (List (db c)) = envelope v + reserved_total (List (db c)) /\
  (memoryBudget (reserved_memory v (List (db c))) available = Ok tt <->
   envelope v + reserved_total (List (db c)) + 256 * MiB <= available).
Proof.
  intros HI Hr Hm Ha. pose proof (inv_memory c HI _ _ Hr) as Hv. rewrite <-Hm in Hv.
  pose proof (rows_bounded c HI) as Hlen.
  assert (forall x, x ∈ List (db c) -> 0 <= sb_GuestMemory x <= max_guest) as Hall.
  { intros x (id & r & Hx & <-)%elem_of_List. by apply (inv_memory c HI id). }
  assert (int64 (sb_GuestMemory v + 64 * MiB) = envelope v) as Henv.
  { apply int64_id. unfold in_int64, envelope, two63, max_int64, max_guest, MiB, GiB in *. lia. }
  unfold reserved_memory. rewrite Henv. unfold envelope, in_int64 in *.
  destruct (reserved_fold (List (db c)) (sb_GuestMemory v + 64 * MiB)) as [-> Hb]; [done| | |].
  { unfold MiB in *. lia. }
  { unfold max_int64, max_guest, MiB, GiB in *. lia. }
  split; [done|]. unfold memoryBudget. destruct (available <? 256 * MiB) eqn:E1; bool_prop; simpl.
  { split; [done|]. unfold MiB in *. lia. }
  rewrite int64_id by (unfold in_int64, two63, max_int64, MiB in *; lia).
  destruct (available - 256 * MiB <? _) eqn:E2; bool_prop; split; try done; lia.
Qed.

Lemma admission_exact_witness :
  exists row, rows (core sample_world) !! web_id = Some row /\
    reserved_memory (r_body row) (List (db (core sample_world))) =
      envelope (r_body row) + reserved_total (List (db (core sample_world))).
Proof.
  destruct sample_reachable as [T HT].
  destruct (reachable_ok sample_env sample_config _ _ sample_env_ok _ _ _ empty_starts HT) as [HI _ _].
  destruct (rows (core sample_world) !! web_id) as [row|] eqn:Hr; [|vm_compute in Hr; discriminate Hr].
  exists row. split; [reflexivity|]. pose proof (proj1 (inv_keyed _ HI _ _ Hr)) as Hid.
  apply (proj1 (admission_exact (core sample_world) (r_body row) row 0 HI
           ltac:(rewrite Hid; exact Hr) eq_refl ltac:(unfold in_int64, two63, max_int64; lia))).
Defined.

Lemma remove_ordered_witness :
  exists w', run_alone sample_env 9 (remove_locked sample_config web_id true) sample_world = Some (w', Ok tt) /\
    rows (core w') !! web_id = None /\
    trace w' = trace sample_world ++
      [CKill web_id true; CNetRemove web_id true; CVMRemove web_id true;
       CRemoveAll (dir sample_config web_id) true; CDelete web_id true].
Proof.
  assert (exists w', run_alone sample_env 9 (remove_locked sample_config web_id true) sample_world =
            Some (w', Ok tt)) as [w' H] by (eexists; vm_compute; reflexivity).
  destruct sample_reachable as [T HT].
  destruct (reachable_ok sample_env sample_config _ _ sample_env_ok _ _ _ empty_starts HT) as [HI _ _].
  destruct (rows (core sample_world) !! web_id) as [row|] eqn:Hr; [|vm_compute in Hr; discriminate Hr].
  exists w'. split; [exact H|].
  destruct (remove_ordered sample_env sample_config 9 web_id true sample_world row HI eq_refl Hr) as (w1 & r1 & H1 & H2).
  pose proof (eq_trans (eq_sym H) H1) as Heq. injection Heq as <- <-. exact H2.
Defined.

(** A sandbox whose start was just admitted, and a backend that fails to
    become ready. *)
Definition starting_row : Row :=
  mkRow "web" (set_State "starting" (sample_sandbox web_id "web")).
Definition starting_world : World :=
  mkWorld (mkCore (mkDB {[ web_id := starting_row ]} ∅ []) ∅ {[ web_id ]} ∅) 0 ∅ ∅ ∅ [] [].


(** ** Programs that only look *)

Fixpoint looks {A} (p : Prog A) : Prop :=
  match p with
  | Ret _ => True
  | Do op k => neutral op = true /\ forall r, looks (k r)
  end.

Lemma looks_lockfree {A} (p : Prog A) : looks p -> lockfree p.
Proof. induction p as [a|R op k IH]; simpl; [done|]. intros [Hn Hk]. split; [by destruct op|auto]. Qed.

Lemma looks_bind {A B} (p : Prog A) (f : A -> Prog B) :
  looks p -> (forall a, looks (f a)) -> looks (bind p f).
Proof. induction p as [a|R op k IH]; simpl; [auto|]. intros [? ?] ?. auto. Qed.

Lemma looks_run {A} (E : Env) (t : nat) (p : Prog A) (w w' : World) (a : A) :
  looks p -> run_alone E t p w = Some (w', a) -> core w' = core w /\ exists pre, trace w' = trace w ++ pre.
Proof.
  revert w. induction p as [b|R op k IH]; simpl; intros w.
  - intros _ [= <- <-]. split; [done|]. exists []. by rewrite app_nil_r.
  - intros [Hn Hk]. destruct (exec E t op w) as [[w1 r]|] eqn:Ex; [|done]. intros H.
    destruct (IH r w1 (Hk r) H) as [Hc [pre Ht]]. rewrite Hc, (exec_neutral _ _ _ _ _ _ Hn Ex).
    split; [done|]. rewrite Ht, (exec_trace _ _ _ _ _ _ Ex), <-app_assoc. by eexists.
Qed.

Lemma looks_await_exit (v : Sandbox) (until : Z) (polls : nat) : looks (await_exit v until polls).
Proof.
  induction polls as [|polls IH]; [done|]. cbn [await_exit looks]. split; [done|]. intros [|]; [|done].
  split; [done|]. intros now. destruct (negb _); [done|]. split; [done|]. intros [|]; [done|]. by split.
Qed.

Lemma looks_request_shutdown (v : Sandbox) : looks (request_shutdown v).
Proof.
  unfold request_shutdown. split; [done|]. intros [x|e]; [|done]. split; [done|].
  intros [y|e]; [|done]. split; [done|]. intros now. apply looks_await_exit.
Qed.

(** ** finish *)

Section FinishRun.
Context (E : Env) (cfg : DaemonConfig) (t : nat).

Lemma finish_keeps_result_run (v : Sandbox) (exit : Exit) (w w' : World) (row : Row) :
  Inv (core w) -> is_id (sb_ID v) = true -> rows (core w) !! sb_ID v = Some row ->
  run_alone E t (finish_locked cfg v exit) w = Some (w', tt) ->
  (sb_Generation (r_body row) <> sb_Generation v -> core w' = core w /\ trace w' = trace w) /\
  (rows (core w') !! sb_ID v = None ->
   s_AutoRemove (sb_Spec (r_body row)) = true /\
   exists pre removed, trace w' = trace w ++ pre ++
     [CKill (sb_ID v) true; CNetRemove (sb_ID v) true; CVMRemove (sb_ID v) true;
      CSaveResult (sb_ID v) true; CRemoveAll (dir cfg (sb_ID v)) removed; CDelete (sb_ID v) true]).
Proof.
  intros HI Hid Hrow H. unfold finish_locked in H. walk H as w1 g Hx1.
  pose proof (exec_neutral _ _ _ _ _ _ (eq_refl : neutral (OGet _) = true) Hx1) as Hc1.
  pose proof (exec_trace _ _ _ _ _ _ Hx1) as Ht1. cbn in Ht1. rewrite app_nil_r in Ht1.
  assert (rows (core w') !! sb_ID v <> None -> rows (core w') !! sb_ID v = None -> False) as Hno by done.
  destruct g as [current|e]; [|injection H as <-; split; [done|]; rewrite Hc1, Hrow; done].
  destruct (exec_get E t _ w w1 current HI Hid Hx1) as (_ & _ & row' & Hrow' & Hb).
  replace row' with row in Hb by congruence. clear row' Hrow' Hx1. subst current.
  destruct (sb_Generation (r_body row) =? sb_Generation v) eqn:Hg; cbn [negb] in H; bool_prop;
    [split; [done|]|injection H as <-; split; [done|]; rewrite Hc1, Hrow; done].
  intros Hgone. apply run_bind in H as (w2 & [] & Hs & H).
  destruct (looks_run _ _ _ _ _ _ (looks_request_shutdown v) Hs) as (Hc2 & pre & Ht2).
  assert (is_Some (rows (core w2) !! sb_ID v)) as Hr by (rewrite Hc2, Hc1, Hrow; by eexists).
  assert (is_Some (rows (core w') !! sb_ID v) -> False) as Hend by (rewrite Hgone; by intros [? ?]).
  keep H as w3 killed Hx3 in Hr.
  destruct killed as [[]|e].
  2:{ keep H as w4 r4 Hx4 in Hr. injection H as <-. by destruct Hend. }
  keep H as w4 r4 Hx4 in Hr.
  keep H as w5 net Hx5 in Hr.
  keep H as w6 vm Hx6 in Hr.
  keep H as w7 r7 Hx7 in Hr.
  destruct (s_AutoRemove (sb_Spec (r_body row))) eqn:Hauto; [|injection H as <-; by destruct Hend].
  destruct net as [[]|e]; [|injection H as <-; by destruct Hend].
  destruct vm as [[]|e]; [|injection H as <-; by destruct Hend]. cbn [is_ok andb] in H.
  keep H as w8 r8 Hx8 in Hr.
  destruct r8 as [[]|e].
  2:{ keep H as w9 r9 Hx9 in Hr. injection H as <-. by destruct Hend. }
  keep H as w9 r9 Hx9 in Hr.
  keep H as wa ra Hxa in Hr.
  walk H as wb rb Hxb. injection H as <-. pose proof (exec_delete _ _ _ _ _ _ Hxb) as Hd.
  destruct rb as [[]|e]; simpl in Hd; [|rewrite Hd in Hend; by destruct Hend].
  split; [done|]. exists pre, (is_ok ra).
  apply exec_trace in Hx3, Hx4, Hx5, Hx6, Hx7, Hx8, Hx9, Hxa, Hxb. simpl in *.
  rewrite Hxb, Hxa, Hx9, Hx8, Hx7, Hx6, Hx5, Hx4, Hx3, Ht2, Ht1. by rewrite !app_nil_r, <-!app_assoc.
Qed.

Lemma lockfree_finish_locked (v : Sandbox) (exit : Exit) : lockfree (finish_locked cfg v exit).
Proof.
  assert (lockfree (request_shutdown v)) by (apply looks_lockfree, looks_request_shutdown).
  unfold finish_locked. lockfree_tac.
Qed.

(** C12. The end of a VM never loses the exit of its workload.  A [finish] that
    belongs to an older generation of the sandbox does nothing.  Otherwise the
    record disappears only if automatic removal was asked for, and then only
    after the VMM was killed, network and jail were removed and the exit
    result was saved, in this order and each confirmed. *)
Theorem finish_keeps_result (v : Sandbox) (exit : Exit) (w : World) (row : Row) :
  Inv (core w) -> is_id (sb_ID v) = true -> rows (core w) !! sb_ID v = Some row ->
  exists w', run_alone E t (finish_locked cfg v exit) w = Some (w', tt) /\
  (sb_Generation (r_body row) <> sb_Generation v -> core w' = core w /\ trace w' = trace w) /\
  (rows (core w') !! sb_ID v = None ->
   s_AutoRemove (sb_Spec (r_body row)) = true /\
   exists pre removed, trace w' = trace w ++ pre ++
     [CKill (sb_ID v) true; CNetRemove (sb_ID v) true; CVMRemove (sb_ID v) true;
      CSaveResult (sb_ID v) true; CRemoveAll (dir cfg (sb_ID v)) removed; CDelete (sb_ID v) true]).
Proof.
  intros HI Hid Hrow. destruct (lockfree_returns E t (finish_locked cfg v exit) w) as (w' & [] & H).
  { apply lockfree_finish_locked. }
  exists w'. split; [done|]. by apply (finish_keeps_result_run v exit w w' row).
Qed.
End FinishRun.

Definition auto_spec : Spec :=
  mkSpec "app" "" "job" [] None [] "" "" 1 (512 * MiB) (4 * GiB) 256 "none" [] [] "runc" "linux/amd64"
    "missing" false false false true.

(** A sandbox with automatic removal, created and started. *)
Definition auto_world : World :=
  default empty_world (serve 0 [request "create" "" (Some auto_spec) None; request "start" "job" None None]
                         empty_world).
Definition auto_id : string := "02030405060708090a0b0c0d0e0f1011".

Lemma auto_reachable :
  exists T, reachable sample_env sample_config (fun _ => Ok no_auth) (fun _ => Ok 0) named_apart empty_world auto_world T.
Proof.
  apply (serve_reachable [request "create" "" (Some auto_spec) None; request "start" "job" None None]).
  - repeat constructor; by intros s [= <-].
  - vm_compute. reflexivity.
Qed.

Definition auto_sandbox : Sandbox := default zero_sandbox (r_body <$> rows (core auto_world) !! auto_id).

Lemma finish_keeps_result_witness :
  exists w', run_alone sample_env 9 (finish_locked sample_config auto_sandbox (control_lost 7)) auto_world =
      Some (w', tt) /\ rows (core w') !! auto_id = None /\
    exists pre removed, trace w' = trace auto_world ++ pre ++
      [CKill auto_id true; CNetRemove auto_id true; CVMRemove auto_id true;
       CSaveResult auto_id true; CRemoveAll (dir sample_config auto_id) removed; CDelete auto_id true].
Proof.
  assert (exists w', run_alone sample_env 9 (finish_locked sample_config auto_sandbox (control_lost 7))
            auto_world = Some (w', tt) /\ rows (core w') !! auto_id = None) as (w' & H & Hn)
    by (eexists; split; vm_compute; reflexivity).
  assert (exists row, rows (core auto_world) !! auto_id = Some row) as [row Hr]
    by (eexists; vm_compute; reflexivity).
  assert (sb_ID auto_sandbox = auto_id) as Hid by (vm_compute; reflexivity).
  destruct auto_reachable as [T HT].
  destruct (reachable_ok sample_env sample_config _ _ sample_env_ok _ _ _ empty_starts HT) as [HI _ _].
  exists w'. split; [exact H|]. split; [exact Hn|]. rewrite <-Hid in Hn, Hr |- *.
  destruct (finish_keeps_result sample_env sample_config 9 auto_sandbox (control_lost 7) auto_world row
           HI ltac:(vm_compute; reflexivity) Hr) as (w1 & H1 & _ & H2).
  pose proof (eq_trans (eq_sym H) H1) as Heq. injection Heq as <-. exact (proj2 (H2 Hn)).
Defined.

(** ** Wait *)

Section WaitRun.
Context (E : Env) (t : nat) (Hdb : forall n, e_db E n = None).

(** What [Wait] answers for the sandbox [v] when [polls] timer firings pass
    before the context is done. *)
Definition wait_answer (v : Sandbox) : result Exit :=
  if bool_decide (sb_State v = "created") then Err (Errorf "container has not started")
  else match sb_Exit v with
       | Some x => Ok x
       | None => if bool_decide (sb_State v = "failed")
                 then Ok (mkExit None (sb_Reason v) false (sb_Updated v))
                 else Err (Errorf "context canceled")
       end.

Lemma Wait_correct_run (id : string) (polls : nat) (w w' : World) (r : result Exit) :
  run_alone E t (Wait id polls) w = Some (w', r) ->
  core w' = core w /\
  match Get (db (core w)) id with
  | Ok v =>
      r = wait_answer v /\
      trace w' = trace w ++ (if bool_decide (r = Err (Errorf "context canceled"))
                             then replicate polls CSleep else [])
  | Err e => trace w' = trace w /\
      r = match e_find_result E (S (tick w)) id with Ok x => Ok x.2 | Err _ => Err e end
  end.
Proof.
  assert (forall polls u u' x, run_alone E t (Wait id polls) u = Some (u', x) ->
    exists u1, exec E t (OGet id) u = Some (u1, Get (db (core u)) id)) as Hget.
  { intros p u u' x. exists (next_tick u). simpl. unfold db_call. by rewrite Hdb. }
  revert w. induction polls as [|polls IH]; intros w H; pose proof (Hget _ _ _ _ H) as [w1 Hx];
    cbn [Wait] in H; walk H as w2 g Hg; rewrite Hx in Hg; injection Hg as <- <-;
    pose proof (exec_neutral _ _ _ _ _ _ (eq_refl : neutral (OGet id) = true) Hx) as Hc;
    pose proof (exec_tick _ _ _ _ _ _ Hx) as Hk; pose proof (exec_trace _ _ _ _ _ _ Hx) as Ht;
    cbn in Ht; rewrite app_nil_r in Ht; destruct (Get (db (core w)) id) as [v|e] eqn:Eg.
  2,4: walk H as w3 s Hy; injection H as <- <-; pose proof (exec_trace _ _ _ _ _ _ Hy) as Ht3;
    cbn in Ht3; rewrite app_nil_r in Ht3; simpl in Hy; injection Hy as <- <-; rewrite <-Hk;
    split_and!; [done|congruence|done].
  all: unfold wait_answer; destruct (bool_decide (sb_State v = "created")) eqn:E1;
    [injection H as <- <-; rewrite Ht; by rewrite app_nil_r|];
    destruct (sb_Exit v) as [x|] eqn:E2; [injection H as <- <-; rewrite Ht; by rewrite app_nil_r|];
    destruct (bool_decide (sb_State v = "failed")) eqn:E3;
    [injection H as <- <-; rewrite Ht; by rewrite app_nil_r|].
  - injection H as <- <-. rewrite Ht. by rewrite app_nil_r.
  - walk H as w3 s Hy. pose proof (exec_neutral _ _ _ _ _ _ (eq_refl : neutral OSleep = true) Hy) as Hc3.
    apply exec_trace in Hy. apply IH in H as [Hc' H]. rewrite Hc3, Hc, Eg in H.
    unfold wait_answer in H. rewrite E1, E2, E3 in H. destruct H as [-> Ht'].
    split; [congruence|]. split; [done|]. rewrite Ht', Hy, Ht. cbn. by rewrite <-app_assoc.
Qed.

(** [Wait] on a store that does not change: it changes nothing and
    returns; a recorded exit or failure is delivered at once, a sandbox that
    was never started is an error, only an active sandbox is polled, once per
    timer firing, until the context is done; a sandbox that is gone is answered
    from the saved results, and with the store's own error when there is
    none. *)
Theorem Wait_correct (id : string) (polls : nat) (w : World) :
  exists w' r, run_alone E t (Wait id polls) w = Some (w', r) /\
  core w' = core w /\
  match Get (db (core w)) id with
  | Ok v =>
      r = wait_answer v /\
      trace w' = trace w ++ (if bool_decide (r = Err (Errorf "context canceled"))
                             then replicate polls CSleep else [])
  | Err e => trace w' = trace w /\
      r = match e_find_result E (S (tick w)) id with Ok x => Ok x.2 | Err _ => Err e end
  end.
Proof.
  destruct (lockfree_returns E t (Wait id polls) w) as (w' & r & H).
  { clear. induction polls as [|polls IH]; cbn [Wait]; lockfree_tac. }
  exists w', r. split; [done|]. by apply (Wait_correct_run id polls w w' r).
Qed.
End WaitRun.

(** ** The monitor *)

Section MonitorRun.
Context (E : Env) (cfg : DaemonConfig) (t : nat) (Hdb : forall n, e_db E n = None).

Lemma monitor_gives_up_run (v : Sandbox) (row : Row) (drains polls : nat) (cursor failures : Z)
    (w w' : World) :
  Inv (core w) -> is_id (sb_ID v) = true -> rows (core w) !! sb_ID v = Some row ->
  sb_Generation (r_body row) = sb_Generation v -> (forall n, is_ok (e_vm_client E n v) = false) ->
  0 <= failures < 5 -> 5 - failures <= Z.of_nat polls ->
  run_alone E t (monitor_loop cfg v cursor failures drains polls) w = Some (w', tt) ->
  exists w1 now, run_alone E t (finish cfg v (control_lost now)) w1 = Some (w', tt) /\
    core w1 = core w /\ trace w1 = trace w ++ replicate (Z.to_nat (5 - failures)) CSleep.
Proof.
  intros HI Hid Hr Hg Hc. revert w failures HI Hr.
  induction polls as [|polls IH]; intros w failures HI Hr Hf Hp H; [lia|].
  cbn [monitor_loop] in H. walk H as w1 x1 Hx1. walk H as w2 g Hx2.
  pose proof (exec_neutral _ _ _ _ _ _ (eq_refl : neutral OSleep = true) Hx1) as Hc1.
  pose proof (exec_neutral _ _ _ _ _ _ (eq_refl : neutral (OGet _) = true) Hx2) as Hc2.
  assert (g = Ok (r_body row)) as ->.
  { simpl in Hx2. unfold db_call in Hx2. rewrite Hdb in Hx2. injection Hx2 as _ <-. rewrite Hc1.
    rewrite (Get_id _ _ (inv_keyed _ HI) (inv_names _ HI) Hid). unfold rows in Hr. by rewrite Hr. }
  rewrite Hg, Z.eqb_refl in H. cbn [negb] in H. walk H as w3 c Hx3.
  assert (is_ok c = false) as Hcl by (simpl in Hx3; injection Hx3 as _ <-; apply Hc).
  pose proof (exec_neutral _ _ _ _ _ _ (eq_refl : neutral (OVMClient v) = true) Hx3) as Hc3.
  destruct c as [x|e]; [done|].
  assert (core w3 = core w /\ trace w3 = trace w ++ [CSleep]) as [Hc' Ht'].
  { split; [congruence|]. apply exec_trace in Hx1, Hx2, Hx3. cbn in Hx1, Hx2, Hx3.
    by rewrite Hx3, Hx2, Hx1, !app_nil_r. }
  destruct (5 <=? failures + 1) eqn:Ef; bool_prop.
  - walk H as w4 now Hx4. exists w4, now. split; [done|].
    pose proof (exec_neutral _ _ _ _ _ _ (eq_refl : neutral ONow = true) Hx4) as Hc4.
    apply exec_trace in Hx4. cbn in Hx4. split; [congruence|].
    replace (Z.to_nat (5 - failures)) with 1%nat by lia. by rewrite Hx4, app_nil_r, Ht'.
  - destruct (IH w3 (failures + 1)) as (w4 & now & Hrun & Hc4 & Ht4); [by rewrite Hc'|by rewrite Hc'|lia|lia|done|].
    exists w4, now. split; [done|]. split; [congruence|].
    replace (Z.to_nat (5 - failures)) with (S (Z.to_nat (5 - (failures + 1)))) by lia.
    rewrite Ht4, Ht'. cbn. by rewrite <-app_assoc.
Qed.

End MonitorRun.

Lemma Wait_correct_witness :
  exists w' r, run_alone sample_env 9 (Wait web_id 3) sample_world = Some (w', r) /\
    core w' = core sample_world /\
    match Get (db (core sample_world)) web_id with
    | Ok v => r = wait_answer v /\
        trace w' = trace sample_world ++ (if bool_decide (r = Err (Errorf "context canceled"))
                                          then replicate 3 CSleep else [])
    | Err e => trace w' = trace sample_world /\
        r = match e_find_result sample_env (S (tick sample_world)) web_id with Ok x => Ok x.2 | Err _ => Err e end
    end.
Proof.
  exact (Wait_correct sample_env 9 ltac:(reflexivity) web_id 3 sample_world).
Defined.

(** The same service once the guest cannot be reached. *)
Definition lost_env : Env := env_with (Err (Errorf "connection refused")) (Ok tt).


(** ** A forced stop during creation *)

(** A service with one sandbox whose creation is under way. *)
Definition creating_world : World :=
  mkWorld (mkCore (mkDB {[ web_id := mkRow "web" (sample_sandbox web_id "web") ]} ∅ []) ∅ ∅ ∅) 0 ∅ ∅ ∅ [] [].

(** [Stop] ignores the refusal of the lifecycle table and calls [finish] for a
    sandbox that is still being created: the record leaves "creating" for
    "exited", a move the table does not have, and when the creation then fails
    it can no longer be marked "failed". *)
Theorem Stop_while_creating :
  ~ next "creating" "exited" /\
  exists w' row, run_alone lost_env 0 (Stop sample_config "web" 10 3) creating_world = Some (w', Ok tt) /\
    rows (core w') !! web_id = Some row /\ sb_State (r_body row) = "exited" /\
    is_ok (Transition (r_body row) "failed" "image unavailable") = false.
Proof.
  split.
  - intros H. unfold next in H. apply (bool_decide_eq_true_2 _) in H. vm_compute in H. discriminate H.
  - eexists _, _. split_and!; vm_compute; reflexivity.
Qed.
