(* ===== verification/DaemonRecover.v ===== *)
(** * DaemonRecover: restart of the host service

    [Recover] runs once, before requests are served, on the store the previous
    process left behind.  It works on the rows without taking their locks, so
    it is outside the concurrent logic and is verified here as a sequential
    program: it restores a state from which the service may start. *)

From S2P Require Import Prelude GoLib Api State Fsutil Oci Base Storage DaemonSem Daemon DaemonLogic DaemonProof DaemonSafety DaemonSeq.
Import Strings.
Local Open Scope Z_scope.

(** ** Sequential lemmas *)

Section Sequential.
Context (E : Env) (t : nat).

(** The logic, run alone, also keeps the locks of the other threads. *)
Lemma ok_run_locks {A} (p : Prog A) (P : Core -> Prop) (Q : A -> Core -> Prop) (w w' : World) (a : A) :
  ok E t P p Q -> Inv (core w) -> P (core w) -> run_alone E t p w = Some (w', a) ->
  forall l t', t' <> t -> locks (core w) !! l = Some t' <-> locks (core w') !! l = Some t'.
Proof.
  revert P w. induction p as [b|R op k IH]; simpl; intros P w Hok HI HP.
  - by intros [= <- <-].
  - destruct Hok as (M & _ & Hop & Hk). destruct (exec E t op w) as [[w1 r]|] eqn:Ex; [|done].
    destruct (Hop w HI HP) as [_ Hx]. destruct (Hx _ _ Ex) as (HI' & HG & HM). intros H l t' Hne.
    rewrite (g_locks _ _ _ HG l t' Hne). by apply (IH r (M r) w1).
Qed.

(** A handler that starts and ends without locks leaves an unlocked service
    unlocked. *)
Lemma ok_starts {A} (p : Prog A) (w w' : World) (a : A) :
  ok E t (owns t ∅) p (fun _ => owns t ∅) -> starts w -> run_alone E t p w = Some (w', a) -> starts w'.
Proof.
  intros Hok [HI Hl] H. pose proof (unlocked_owns t w Hl) as Ho.
  destruct (ok_run E t p _ _ w w' a Hok HI Ho H) as [HI' Ho']. split; [done|].
  apply map_eq. intros l. rewrite lookup_empty. destruct (locks (core w') !! l) as [t'|] eqn:El; [|done].
  destruct (decide (t' = t)) as [->|Hne]; [apply Ho' in El; set_solver|].
  apply (ok_run_locks p _ _ w w' a Hok HI Ho H l t' Hne) in El. by rewrite Hl, lookup_empty in El.
Qed.

(** The core after an update. *)
Lemma exec_update_core (id : string) (fn : Sandbox -> result Sandbox) (w w' : World) (r : result unit) :
  exec E t (OUpdate id fn) w = Some (w', r) ->
  core w' = core w \/
  exists row v, rows (core w) !! id = Some row /\ fn (r_body row) = Ok v /\ r = Ok tt /\
    core w' = put id row (set_Updated (e_now E (tick w)) v)
      (claim id (rows (core w)) (<[id := mkRow (r_name row) (set_Updated (e_now E (tick w)) v)]> (rows (core w)))
         (holders (core w))) (core w).
Proof.
  simpl. unfold db_call, db_write. destruct (e_db E (tick w)); [by intros [= <- <-]; left|]. simpl.
  unfold Update. destruct (sandboxes (db (core w)) !! id) as [row|] eqn:Er; [|by intros [= <- <-]; left].
  destruct (fn (r_body row)) as [v|e] eqn:Ef; [|by intros [= <- <-]; left].
  intros [= <- <-]. right. by exists row, v.
Qed.

(** An update that keeps the static data and claims nothing. *)
Lemma exec_update_starts (id : string) (fn : Sandbox -> result Sandbox) (w w' : World) (r : result unit) :
  exec E t (OUpdate id fn) w = Some (w', r) -> starts w ->
  (forall row v, rows (core w) !! id = Some row -> fn (r_body row) = Ok v ->
     static v = static (r_body row) /\ sized v = sized (r_body row) /\ ~ idle_state (r_body row) /\
     sb_State v <> "starting" /\ (sb_State (r_body row) ∈ states -> sb_State v ∈ states) /\
     sb_Generation v = sb_Generation (r_body row) /\ (id ∈ holders (core w) -> reservesVMResources v = true)) ->
  starts w'.
Proof.
  intros Hx [HI Hl] Hf. destruct (exec_update_core _ _ _ _ _ Hx) as [Hc|(row & v & Hr & Hv & _ & Hc)].
  { unfold starts. by rewrite Hc. }
  destruct (Hf row v Hr Hv) as (Hs & Hz & Hi & Hst & Hk & Hg & Hh).
  assert (claim id (rows (core w)) (<[id := mkRow (r_name row) (set_Updated (e_now E (tick w)) v)]> (rows (core w)))
            (holders (core w)) = holders (core w)) as Hcl.
  { unfold claim. rewrite Hr, lookup_insert_eq. unfold is_starting at 2. simpl.
    rewrite (bool_decide_eq_false_2 (sb_State v = "starting")) by done. by rewrite andb_false_r. }
  rewrite Hcl in Hc. unfold starts. rewrite Hc. split; [|done].
  apply (put_Inv t (core w) id row); [done|done|].
  split; [done|by left|by intros _ ?|done|by left|done|done|by left].
Qed.

(** A kill, with or without the lock of the sandbox. *)
Lemma exec_kill_starts (v : Sandbox) (w w' : World) (r : result unit) :
  exec E t (OVMKill v) w = Some (w', r) -> starts w ->
  starts w' /\ rows (core w') = rows (core w) /\ (is_ok r = true -> sb_ID v ∉ holders (core w')).
Proof.
  intros Hx [HI Hl]. simpl in Hx. destruct (e_vm_kill E (tick w) v); injection Hx as <- <-; simpl.
  - split; [|split; [done|set_solver]]. split; [|done].
    pose proof (inv_live _ HI). apply (same_rows_Inv (core w)); simpl; try set_solver. apply (inv_mounts _ HI).
  - split; [|done]. by split.
Qed.

(** Programs that touch one row only. *)
Fixpoint only_touches {A} (id : string) (p : Prog A) : Prop :=
  match p with
  | Ret _ => True
  | Do op k => (touches op = None \/ touches op = Some id) /\ forall r, only_touches id (k r)
  end.

Lemma only_touches_bind {A B} (id : string) (p : Prog A) (f : A -> Prog B) :
  only_touches id p -> (forall a, only_touches id (f a)) -> only_touches id (bind p f).
Proof. induction p as [a|R op k IH]; simpl; [auto|]. intros [? ?] ?. auto. Qed.

Lemma looks_touches {A} (id : string) (p : Prog A) : looks p -> only_touches id p.
Proof.
  induction p as [a|R op k IH]; simpl; [done|]. intros [Hn Hk]. split; [|auto].
  left. by destruct op.
Qed.

Lemma only_touches_run {A} (id : string) (p : Prog A) (w w' : World) (a : A) :
  only_touches id p -> run_alone E t p w = Some (w', a) ->
  forall j, j <> id -> rows (core w') !! j = rows (core w) !! j.
Proof.
  revert w. induction p as [b|R op k IH]; simpl; intros w.
  - by intros _ [= <- <-].
  - intros [Ht Hk]. destruct (exec E t op w) as [[w1 r]|] eqn:Ex; [|done]. intros H j Hj.
    rewrite (IH r w1 (Hk r) H j Hj). apply (exec_rows E t op w w1 r j Ex). destruct Ht; congruence.
Qed.

(** The states an interrupted operation leaves behind. *)
Definition interrupted (s : string) : bool :=
  bool_decide (s = "creating") || bool_decide (s = "starting") || bool_decide (s = "removing").

(** Programs whose updates never enter such a state. *)
Fixpoint settles {A} (p : Prog A) : Prop :=
  match p with
  | Ret _ => True
  | Do op k =>
      match op with
      | OUpdate _ fn => forall x v, fn x = Ok v ->
          interrupted (sb_State v) = false \/ sb_State v = sb_State x
      | OCreate _ => False
      | _ => True
      end /\ forall r, settles (k r)
  end.

Lemma settles_bind {A B} (p : Prog A) (f : A -> Prog B) :
  settles p -> (forall a, settles (f a)) -> settles (bind p f).
Proof. induction p as [a|R op k IH]; simpl; [auto|]. intros [? ?] ?. auto. Qed.

Lemma looks_settles {A} (p : Prog A) : looks p -> settles p.
Proof.
  induction p as [a|R op k IH]; simpl; [done|]. intros [Hn Hk]. split; [|auto]. by destruct op.
Qed.

Definition settled_row (o : option Row) : Prop :=
  forall row, o = Some row -> interrupted (sb_State (r_body row)) = false.

Lemma settles_run {A} (p : Prog A) (w w' : World) (a : A) (id : string) :
  settles p -> run_alone E t p w = Some (w', a) ->
  settled_row (rows (core w) !! id) -> settled_row (rows (core w') !! id).
Proof.
  revert w. induction p as [b|R op k IH]; simpl; intros w.
  - by intros _ [= <- <-].
  - intros [Ho Hk]. destruct (exec E t op w) as [[w1 r]|] eqn:Ex; [|done]. intros H Hs.
    apply (IH r w1 (Hk r) H). destruct (decide (touches op = Some id)) as [Ht|Ht].
    2:{ by rewrite (exec_rows E t op w w1 r id Ex Ht). }
    destruct op; try done; injection Ht as <-.
    + apply exec_update_core in Ex as [->|(row & v & Hr & Hv & _ & ->)]; [done|].
      intros row'. unfold rows, put. simpl. rewrite lookup_insert_eq. intros [= <-]. simpl.
      destruct (Ho _ _ Hv) as [?|Heq]; [done|]. rewrite Heq. by apply Hs.
    + apply exec_delete in Ex. destruct (is_ok r); [by rewrite Ex|by rewrite Ex].
Qed.
End Sequential.

(** ** Recover *)

Section RecoverRun.
Context (E : Env) (cfg : DaemonConfig) (t : nat).

Lemma finish_touches (v : Sandbox) (exit : Exit) : only_touches (sb_ID v) (finish cfg v exit).
Proof.
  unfold finish, with_lock. split; [by left|]. intros _.
  apply only_touches_bind; [|by intros a; repeat (split; [by left|]; intros)].
  unfold finish_locked. split; [by left|]. intros [current|e]; [|done]. destruct (negb _); [done|].
  apply only_touches_bind; [apply looks_touches, looks_request_shutdown|]. intros _.
  split; [by left|]. intros [x|e]; [|by split; [right|]].
  do 3 (split; [by left|]; intros). split; [by right|]. intros _. destruct (_ && _); [|done].
  split; [by left|]. intros [y|e]; [|by split; [right|]].
  do 2 (split; [by left|]; intros). by split; [right|].
Qed.

Lemma finish_settles (v : Sandbox) (exit : Exit) : settles (finish cfg v exit).
Proof.
  unfold finish, with_lock. split; [done|]. intros _.
  apply settles_bind; [|by intros a; repeat (split; [done|]; intros)].
  unfold finish_locked. split; [done|]. intros [current|e]; [|done]. destruct (negb _); [done|].
  apply settles_bind; [apply looks_settles, looks_request_shutdown|]. intros _.
  split; [done|]. intros [x|e]; [|by split; [intros y z [= <-]; left|]].
  do 3 (split; [done|]; intros). split; [by intros z u [= <-]; left; destruct (_ && _)|]. intros _.
  destruct (_ && _); [|done].
  split; [done|]. intros [y|e]; [|by split; [intros z u [= <-]; right|]].
  by do 3 (split; [done|]; intros).
Qed.

Lemma recover_release_looks (v : Sandbox) (dns : bool) (w w' : World) (released : bool) :
  starts w -> run_alone E t (recover_release v dns) w = Some (w', released) ->
  starts w' /\ rows (core w') = rows (core w) /\ (released = true -> sb_ID v ∉ holders (core w')) /\
  (sb_ID v ∈ holders (core w') -> released = false).
Proof.
  intros Hs H. unfold recover_release in H. walk H as w1 killed Hx.
  destruct (exec_kill_starts E t v w w1 killed Hx Hs) as (Hs1 & Hr1 & Hh1).
  destruct killed as [[]|e]; [|by injection H as <- <-].
  match type of H with run_alone E t ?p w1 = _ => assert (looks p) as Hl end.
  { apply looks_bind; [by destruct dns|]. intros []. by do 2 (split; [done|]; intros). }
  destruct (looks_run E t _ w1 w' released Hl H) as [Hc _]. unfold starts. rewrite Hc.
  split; [done|]. split; [done|]. split; [by auto|]. intros Hin. by destruct (Hh1 eq_refl).
Qed.

Lemma recover_one_touches (v : Sandbox) : only_touches (sb_ID v) (recover_one cfg v).
Proof.
  assert (forall dns, only_touches (sb_ID v) (recover_release v dns)) as Hrel.
  { intros dns. split; [by left|]. intros [x|e]; [|done].
    apply only_touches_bind; [by destruct dns; [split; [left|]|]|]. intros _.
    by do 2 (split; [by left|]; intros). }
  unfold recover_one. destruct (_ || _).
  { split; [by left|]. intros [|].
    - split; [by left|]. intros [x|e]; [|done].
      apply only_touches_bind; [by destruct (bool_decide _); [split; [left|]|]|].
      intros [y|e]; [|done]. by split; [left|].
    - split; [by left|]. intros now. apply only_touches_bind; [apply finish_touches|done]. }
  destruct (_ || _).
  { apply only_touches_bind; [apply Hrel|]. intros released. by split; [right|]. }
  destruct (bool_decide _); [|done]. destruct (sb_VMResourcesReleased v); [done|].
  apply only_touches_bind; [apply Hrel|]. intros [|]; [by split; [right|]|done].
Qed.

(** The records of an interrupted and of a failed sandbox, rewritten. *)
Definition interrupted_update (released : bool) (s : Sandbox) : result Sandbox :=
  Ok (set_VMResourcesReleased released
        (set_Reason "interrupted operation; remove and recreate" (set_State "failed" s))).
Definition failed_update (s : Sandbox) : result Sandbox :=
  Ok (set_VMResourcesReleased true (set_PIDStart "" (set_PID 0 s))).

Lemma interrupted_update_starts (v : Sandbox) (row : Row) (released : bool) (w w' : World) (r : result unit) :
  starts w -> rows (core w) !! sb_ID v = Some row -> r_body row = v -> interrupted (sb_State v) = true ->
  (sb_ID v ∈ holders (core w) -> released = false) ->
  exec E t (OUpdate (sb_ID v) (interrupted_update released)) w = Some (w', r) -> starts w'.
Proof.
  intros Hs Hr Hv Hi Hh Hx. eapply (exec_update_starts E t); [exact Hx|done|]. intros row1 x Hrow1 [= <-].
  assert (row1 = row) as -> by congruence. split_and!; try done.
  - rewrite Hv. unfold interrupted in Hi. intros [Hi'|Hi']; rewrite Hi' in Hi; discriminate Hi.
  - intros Hin. apply reserves_failed; [done|]. by apply Hh.
Qed.

Lemma failed_update_starts (v : Sandbox) (row : Row) (w w' : World) (r : result unit) :
  starts w -> rows (core w) !! sb_ID v = Some row -> r_body row = v -> sb_State v = "failed" ->
  sb_ID v ∉ holders (core w) ->
  exec E t (OUpdate (sb_ID v) failed_update) w = Some (w', r) -> starts w'.
Proof.
  intros Hs Hr Hv E3 Hh Hx. eapply (exec_update_starts E t); [exact Hx|done|]. intros row1 x Hrow1 [= <-].
  assert (row1 = row) as -> by congruence. split_and!; try done.
  - rewrite Hv. unfold idle_state. rewrite E3. naive_solver.
  - simpl. by rewrite Hv, E3.
Qed.

(** One sandbox, as it was listed. *)
Lemma recover_one_run (v : Sandbox) (row : Row) (w w' : World) (r : result unit) :
  starts w -> rows (core w) !! sb_ID v = Some row -> r_body row = v ->
  run_alone E t (recover_one cfg v) w = Some (w', r) ->
  starts w' /\ ((forall n, e_db E n = None) -> r = Ok tt -> settled_row (rows (core w') !! sb_ID v)).
Proof.
  intros Hs Hr Hv H.
  assert (interrupted (sb_State v) = false -> settled_row (rows (core w) !! sb_ID v)) as Hset.
  { intros Hi row' Hr'. by replace row' with row by congruence; rewrite Hv. }
  unfold recover_one in H. destruct (_ || _) eqn:E1.
  - assert (settled_row (rows (core w) !! sb_ID v)) as Hset1.
    { apply Hset. apply orb_true_iff in E1. rewrite !bool_decide_eq_true in E1.
      unfold interrupted. by destruct E1 as [-> | ->]. }
    walk H as w1 alive Hx1. pose proof (exec_neutral _ _ _ _ _ _ (eq_refl : neutral (OAlive v) = true) Hx1) as Hc1.
    destruct alive.
    + match type of H with run_alone E t ?p w1 = _ => assert (looks p) as Hl end.
      { split; [done|]. intros [x|e]; [|done]. apply looks_bind; [by case_bool_decide; cbn|].
        intros [y|e]; by cbn. }
      destruct (looks_run E t _ w1 w' r Hl H) as [Hc _]. unfold starts. rewrite Hc, Hc1. by split.
    + walk H as w2 now Hx2. pose proof (exec_neutral _ _ _ _ _ _ (eq_refl : neutral ONow = true) Hx2) as Hc2.
      apply run_bind in H as (w3 & [] & Hf & H). injection H as <- <-. split.
      * eapply (ok_starts E t); [apply finish_ok| |exact Hf]. unfold starts. by rewrite Hc2, Hc1.
      * intros _ _. eapply settles_run; [apply finish_settles|exact Hf|]. by rewrite Hc2, Hc1.
  - apply orb_false_iff in E1 as [E1 E1']. destruct (_ || _) eqn:E2.
    + apply run_bind in H as (w1 & released & Hrel & H).
      destruct (recover_release_looks v false w w1 released Hs Hrel) as (Hs1 & Hr1 & _ & Hh1).
      walk H as w2 r2 Hx2. injection H as <- <-. split.
      * rewrite <-Hr1 in Hr. by apply (interrupted_update_starts v row released w1 _ r2).
      * intros Hdb _. rewrite <-Hr1 in Hr.
        destruct (exec_update_ok E t Hdb _ _ _ _ _ _ _ Hx2 Hr eq_refl) as (_ & now & ->).
        by intros row' [= <-].
    + assert (settled_row (rows (core w) !! sb_ID v)) as Hset2 by (apply Hset; exact E2).
      destruct (bool_decide (sb_State v = "failed")) eqn:E3; [|injection H as <- <-; by split].
      destruct (sb_VMResourcesReleased v); [injection H as <- <-; by split|].
      apply run_bind in H as (w1 & released & Hrel & H).
      destruct (recover_release_looks v true w w1 released Hs Hrel) as (Hs1 & Hr1 & Hh1 & _).
      destruct released; [|injection H as <- <-; split; [done|by rewrite Hr1]].
      walk H as w2 r2 Hx2. injection H as <- <-. split.
      * bool_prop. rewrite <-Hr1 in Hr. apply (failed_update_starts v row w1 _ r2); auto.
      * intros Hdb _. rewrite <-Hr1 in Hr.
        destruct (exec_update_ok E t Hdb _ _ _ _ _ _ _ Hx2 Hr eq_refl) as (_ & now & ->).
        intros row' [= <-]. simpl. rewrite Hv. exact E2.
Qed.

Lemma recover_all_run (all : list Sandbox) (w w' : World) (r : result unit) :
  starts w -> NoDup (sb_ID <$> all) ->
  (forall v, v ∈ all -> exists row, rows (core w) !! sb_ID v = Some row /\ r_body row = v) ->
  run_alone E t (recover_all cfg all) w = Some (w', r) ->
  starts w' /\ ((forall n, e_db E n = None) -> r = Ok tt ->
    (forall v, v ∈ all -> settled_row (rows (core w') !! sb_ID v)) /\
    (forall j, j ∉ sb_ID <$> all -> rows (core w') !! j = rows (core w) !! j)).
Proof.
  revert w. induction all as [|v all IH]; intros w Hs Hnd Hrow H; cbn [recover_all] in H.
  { injection H as <- <-. split; [done|]. intros _ _. split; [by intros v ?%elem_of_nil|done]. }
  apply run_bind in H as (w1 & r1 & H1 & H). rewrite fmap_cons in *. apply NoDup_cons in Hnd as [Hv Hnd].
  destruct (Hrow v ltac:(by left)) as (row & Hr & Hb).
  destruct (recover_one_run v row w w1 r1 Hs Hr Hb H1) as [Hs1 Hset].
  pose proof (only_touches_run E t (sb_ID v) _ w w1 r1 (recover_one_touches v) H1) as Hoth.
  destruct r1 as [[]|e]; [|injection H as <- <-; by split].
  destruct (IH w1 Hs1 Hnd) as [Hs' Hrest]; [|done|].
  { intros x Hx. destruct (Hrow x ltac:(by right)) as (rowx & Hrx & Hbx). exists rowx. split; [|done].
    rewrite Hoth; [done|]. intros Heq. apply Hv. rewrite <-Heq. apply list_elem_of_fmap. by exists x. }
  split; [done|]. intros Hdb ->. destruct (Hrest Hdb eq_refl) as [Ha Ho]. split.
  - intros x [->|Hx]%elem_of_cons; [|by apply Ha]. rewrite Ho by done. by apply Hset.
  - intros j Hj. apply not_elem_of_cons in Hj as [Hj1 Hj2]. rewrite Ho by done. by apply Hoth.
Qed.

Lemma List_ids_NoDup (c : Core) : Inv c -> NoDup (sb_ID <$> List (db c)).
Proof.
  intros HI. unfold List. rewrite <-list_fmap_compose, merge_sort_Permutation, <-list_fmap_compose.
  apply NoDup_fmap_2_strong; [|apply NoDup_map_to_list].
  intros [i x] [j y] Hi%elem_of_map_to_list Hj%elem_of_map_to_list Heq. cbn in Heq.
  destruct (inv_keyed c HI _ _ Hi) as [Hki _]. destruct (inv_keyed c HI _ _ Hj) as [Hkj _]. congruence.
Qed.

Lemma recover_starts_run (w w' : World) (r : result unit) :
  starts w -> run_alone E t (Recover cfg) w = Some (w', r) ->
  starts w' /\
  ((forall n, e_db E n = None) -> r = Ok tt -> forall id row, rows (core w') !! id = Some row ->
     interrupted (sb_State (r_body row)) = false).
Proof.
  intros Hs H. unfold Recover in H. walk H as w1 all Hx.
  pose proof (exec_neutral _ _ _ _ _ _ (eq_refl : neutral OList = true) Hx) as Hc.
  assert (starts w1) as Hs1 by (unfold starts; by rewrite Hc).
  destruct all as [all|e]; [|by injection H as <- <-].
  assert (all = List (db (core w1))) as ->.
  { rewrite Hc. simpl in Hx. unfold db_call in Hx. destruct (e_db E (tick w)); by injection Hx. }
  destruct (recover_all_run (List (db (core w1))) w1 w' r) as [Hs' Hset]; [done| |..|done|].
  - apply List_ids_NoDup, Hs1.
  - intros v (id & row & Hr & <-)%elem_of_List. destruct Hs1 as [HI _].
    exists row. destruct (inv_keyed _ HI _ _ Hr) as [-> _]. done.
  - split; [done|]. intros Hdb Hr id row Hrow. destruct (Hset Hdb Hr) as [Ha Ho].
    destruct (rows (core w1) !! id) as [row0|] eqn:E0.
    + pose proof (Ha (r_body row0) (List_lookup _ _ _ E0)) as Hsr.
      destruct Hs1 as [HI _]. destruct (inv_keyed _ HI _ _ E0) as [Hk _]. rewrite Hk in Hsr. by apply Hsr.
    + rewrite Ho in Hrow; [congruence|].
      intros (x & -> & (id' & row' & Hr' & <-)%elem_of_List)%list_elem_of_fmap.
      destruct Hs1 as [HI _]. destruct (inv_keyed _ HI _ _ Hr') as [Hk _]. unfold rows in *. congruence.
Qed.

Lemma Recover_returns : returns E t (Recover cfg).
Proof.
  assert (forall v, returns E t (recover_one cfg v)) as Hone.
  { intros v. assert (forall dns, lockfree (recover_release v dns)) by (intros; unfold recover_release; lockfree_tac).
    unfold recover_one. destruct (_ || _).
    - apply returns_do; [exact I|]. intros []; [apply returns_lockfree; lockfree_tac|].
      apply returns_do; [exact I|]. intros now. apply returns_bind; [|intros; by apply returns_lockfree].
      apply returns_with_lock, lockfree_finish_locked.
    - apply returns_lockfree. lockfree_tac. }
  unfold Recover. apply returns_do; [exact I|]. intros [all|e]; [|by apply returns_lockfree].
  induction all as [|v all IH]; cbn [recover_all]; [by apply returns_lockfree|].
  apply returns_bind; [done|]. intros [x|e]; [done|by apply returns_lockfree].
Qed.

(** C13. Restart.  Whatever the previous process was doing when it stopped and
    whatever fails now, [Recover] returns and leaves a store from which the
    service may start: every invariant holds, so VMMs that may still be alive keep
    their reservation.  When it succeeds and the database answered every call, no
    sandbox is left in one of the transient states "creating", "starting" or
    "removing"; when the database refuses an update, [Recover] ignores that and
    succeeds with the sandbox still in its transient state. *)
Theorem recover_starts (w : World) :
  starts w ->
  exists w' r, run_alone E t (Recover cfg) w = Some (w', r) /\ starts w' /\
    ((forall n, e_db E n = None) -> r = Ok tt -> forall id row, rows (core w') !! id = Some row ->
       interrupted (sb_State (r_body row)) = false).
Proof.
  intros Hs. destruct (Recover_returns w (proj2 Hs)) as (w' & r & H & _). exists w', r. split; [done|].
  by apply (recover_starts_run w w' r).
Qed.
End RecoverRun.

(** The sample service with its two running sandboxes, restarted after both
    VMMs died. *)
Lemma recover_starts_witness :
  exists w', run_alone sample_env 9 (Recover sample_config) sample_world = Some (w', Ok tt) /\
    starts w' /\
    (forall id row, rows (core w') !! id = Some row -> interrupted (sb_State (r_body row)) = false).
Proof.
  assert (exists w', run_alone sample_env 9 (Recover sample_config) sample_world = Some (w', Ok tt)) as [w' H]
    by (eexists; vm_compute; reflexivity).
  destruct sample_reachable as [T HT].
  destruct (reachable_ok sample_env sample_config _ _ sample_env_ok _ _ _ empty_starts HT) as [HI _ _].
  assert (locks (core sample_world) = ∅) as Hl by (vm_compute; reflexivity).
  destruct (recover_starts sample_env sample_config 9 sample_world (conj HI Hl)) as (w1 & r1 & H1 & Hs & Hi).
  pose proof (eq_trans (eq_sym H) H1) as Heq. injection Heq as <- <-.
  exists w'. split; [exact H|]. split; [exact Hs|]. exact (Hi (fun _ => eq_refl) eq_refl).
Defined.
