(* ===== verification/DaemonSpec.v ===== *)
(** * DaemonSpec: the abstract specification of the host service

    What the service promises, without handlers, locks, database errors or
    the order of the calls to the backend: a set of volumes and a table of
    sandboxes, each with its allocations, its generation and whether a virtual
    machine may be running for it.  [spec_step] has one rule for each thing that
    can happen; the guards of the rules are the isolation policy.  [abs] reads
    the abstract state off the shared state of the service, and the refinement
    theorem says that every operation of every handler and monitor, in every
    interleaving and under every failure, is either invisible or one rule. *)

From S2P Require Import Prelude GoLib Api State Oci Base DaemonSem Daemon DaemonLogic DaemonProof DaemonSafety DaemonSeq DaemonRecover.
Local Open Scope Z_scope.

(** ** The abstract machine *)

Record Box : Type := mkBox {
  bx_Name : string;
  bx_Spec : Spec;
  bx_Slot : Z;
  bx_Generation : Z;
  bx_reserved : bool       (* a VM was claimed and its end not confirmed *)
}.

Record Abs : Type := mkAbs { boxes : gmap string Box; vols : gset string }.

Definition set_boxes (m : gmap string Box) (a : Abs) : Abs := mkAbs m (vols a).
Definition set_vols (s : gset string) (a : Abs) : Abs := mkAbs (boxes a) s.

(** Claiming a VM for a sandbox, and giving it up. *)
Definition booted (b : Box) : Box :=
  mkBox (bx_Name b) (bx_Spec b) (bx_Slot b) (int64 (bx_Generation b + 1)) true.
Definition freed (b : Box) : Box :=
  mkBox (bx_Name b) (bx_Spec b) (bx_Slot b) (bx_Generation b) false.

(** Two sandboxes that may exist together, and two that may run together. *)
Record apart (b x : Box) : Prop := mkApart {
  apart_name : bx_Name b <> bx_Name x;
  apart_slot : bx_Slot b <> bx_Slot x;
  apart_ports : forall p q, p ∈ s_Ports (bx_Spec b) -> q ∈ s_Ports (bx_Spec x) -> p_HostPort p <> p_HostPort q
}.
Definition no_shared_volume (b x : Box) : Prop :=
  forall m n, m ∈ s_Mounts (bx_Spec b) -> n ∈ s_Mounts (bx_Spec x) -> m_Name m <> m_Name n.

Inductive spec_step (a : Abs) : Abs -> Prop :=
| spec_create (id : string) (b : Box) :
    boxes a !! id = None -> is_id id = true -> bx_Generation b = 0 -> bx_reserved b = false ->
    1 <= bx_Slot b <= 16000 -> valid_spec (bx_Spec b) -> bx_Name b = s_Name (bx_Spec b) ->
    (forall j x, boxes a !! j = Some x -> apart b x) ->
    (forall m, m ∈ s_Mounts (bx_Spec b) -> m_Name m ∈ vols a) ->
    spec_step a (set_boxes (<[id := b]> (boxes a)) a)
| spec_boot (id : string) (b : Box) :
    boxes a !! id = Some b -> bx_reserved b = false ->
    (forall j x, boxes a !! j = Some x -> bx_reserved x = true -> no_shared_volume b x) ->
    spec_step a (set_boxes (<[id := booted b]> (boxes a)) a)
| spec_release (id : string) (b : Box) :
    boxes a !! id = Some b -> bx_reserved b = true ->
    spec_step a (set_boxes (<[id := freed b]> (boxes a)) a)
| spec_remove (id : string) (b : Box) :
    boxes a !! id = Some b -> bx_reserved b = false ->
    spec_step a (set_boxes (delete id (boxes a)) a)
| spec_volume_create (name : string) :
    name ∉ vols a -> spec_step a (set_vols ({[name]} ∪ vols a) a)
| spec_volume_rm (name : string) :
    name ∈ vols a ->
    (forall j x m, boxes a !! j = Some x -> m ∈ s_Mounts (bx_Spec x) -> m_Name m <> name) ->
    spec_step a (set_vols (vols a ∖ {[name]}) a).

(** ** What the specification implies, by rule induction *)

Record spec_ok (a : Abs) : Prop := mkSpecOk {
  so_apart : forall i j b x, boxes a !! i = Some b -> boxes a !! j = Some x -> i <> j -> apart b x;
  so_isolated : forall i j b x, boxes a !! i = Some b -> boxes a !! j = Some x -> i <> j ->
    bx_reserved b = true -> bx_reserved x = true -> no_shared_volume b x;
  so_mounts : forall i b m, boxes a !! i = Some b -> m ∈ s_Mounts (bx_Spec b) -> m_Name m ∈ vols a
}.

Lemma apart_sym (b x : Box) : apart b x -> apart x b.
Proof. intros [H1 H2 H3]. split; [done|done|]. intros p q Hp Hq Heq. by apply (H3 q p). Qed.

Lemma no_shared_volume_sym (b x : Box) : no_shared_volume b x -> no_shared_volume x b.
Proof. intros H m n Hm Hn Heq. by apply (H n m). Qed.

(** Replacing one sandbox by another with the same allocations. *)
Definition same_alloc (b b' : Box) : Prop :=
  bx_Name b' = bx_Name b /\ bx_Spec b' = bx_Spec b /\ bx_Slot b' = bx_Slot b.

Lemma replace_ok (a : Abs) (id : string) (b b' : Box) :
  spec_ok a -> boxes a !! id = Some b -> same_alloc b b' ->
  (bx_reserved b' = true -> forall j x, boxes a !! j = Some x -> j <> id -> bx_reserved x = true ->
     no_shared_volume b x) ->
  spec_ok (set_boxes (<[id := b']> (boxes a)) a).
Proof.
  intros [Ha Hi Hm] Hb (Hn & Hs & Hsl) Hres.
  assert (forall j x, boxes a !! j = Some x -> j <> id -> apart b' x) as Ha'.
  { intros j x Hx Hne. destruct (Ha id j b x Hb Hx) as [H1 H2 H3]; [done|]. by split; rewrite ?Hn, ?Hs, ?Hsl. }
  assert (forall j x, boxes a !! j = Some x -> j <> id -> bx_reserved b' = true -> bx_reserved x = true ->
            no_shared_volume b' x) as Hi'.
  { intros j x Hx Hne Hr1 Hr2. unfold no_shared_volume. rewrite Hs. by apply (Hres Hr1 j x). }
  split; simpl.
  - intros i j y x. rewrite !lookup_insert. intros Hy Hx Hne. repeat case_decide; simplify_eq;
      first [by apply (Ha i j)|by eapply Ha'|by eapply apart_sym, Ha'].
  - intros i j y x. rewrite !lookup_insert. intros Hy Hx Hne Hr1 Hr2. repeat case_decide; simplify_eq;
      first [by apply (Hi i j)|by eapply Hi'|by eapply no_shared_volume_sym, Hi'].
  - intros i y m. rewrite lookup_insert. case_decide; [|apply Hm]. intros [= <-]. rewrite Hs. by apply (Hm id).
Qed.

Lemma spec_step_ok (a a' : Abs) : spec_step a a' -> spec_ok a -> spec_ok a'.
Proof.
  intros Hst Hok. destruct Hst as [id b Hf Hid Hg Hr Hsl Hv Hn Hap Hmt|id b Hb Hr Hfree|id b Hb Hr|id b Hb Hr
    |name Hn|name Hn Hun].
  - destruct Hok as [Ha Hi Hm]. split; simpl.
    + intros i j y x. rewrite !lookup_insert. intros Hy Hx Hne. repeat case_decide; simplify_eq;
        first [by apply (Ha i j)|by eapply Hap|by eapply apart_sym, Hap].
    + intros i j y x. rewrite !lookup_insert. intros Hy Hx Hne Hr1 Hr2. repeat case_decide; simplify_eq; try congruence.
      by apply (Hi i j).
    + intros i y m. rewrite lookup_insert. case_decide; [|apply Hm]. intros [= <-]. apply Hmt.
  - apply (replace_ok a id b); [done|done|done|]. intros _ j x Hx _ Hrx. by apply (Hfree j).
  - by apply (replace_ok a id b).
  - destruct Hok as [Ha Hi Hm]. split; simpl.
    + intros i j y x [_ Hy]%lookup_delete_Some [_ Hx]%lookup_delete_Some. by apply Ha.
    + intros i j y x [_ Hy]%lookup_delete_Some [_ Hx]%lookup_delete_Some. by apply Hi.
    + intros i y m [_ Hy]%lookup_delete_Some. by apply (Hm i).
  - destruct Hok as [Ha Hi Hm]. split; [done|done|]. simpl. intros i b m Hb Hin.
    apply elem_of_union_r. by apply (Hm i b).
  - destruct Hok as [Ha Hi Hm]. split; [done|done|]. simpl. intros i b m Hb Hin.
    apply elem_of_difference. split; [by apply (Hm i b)|]. rewrite elem_of_singleton. by apply (Hun i b).
Qed.

Lemma spec_safe (a a' : Abs) : rtc spec_step a a' -> spec_ok a -> spec_ok a'.
Proof. induction 1; eauto using spec_step_ok. Qed.

(** ** The abstraction function *)

Definition box_of (reserved : bool) (v : Sandbox) : Box :=
  mkBox (sb_Name v) (sb_Spec v) (sb_Slot v) (sb_Generation v) reserved.

Definition abs (c : Core) : Abs :=
  mkAbs (map_imap (fun id r => Some (box_of (bool_decide (id ∈ holders c)) (r_body r))) (rows c))
        (dom (volumes (db c))).

Lemma lookup_abs (c : Core) (id : string) :
  boxes (abs c) !! id = (fun r => box_of (bool_decide (id ∈ holders c)) (r_body r)) <$> rows c !! id.
Proof. unfold abs. simpl. rewrite map_lookup_imap. by destruct (rows c !! id). Qed.

Lemma lookup_abs_Some (c : Core) (id : string) (b : Box) :
  boxes (abs c) !! id = Some b <->
  exists r, rows c !! id = Some r /\ b = box_of (bool_decide (id ∈ holders c)) (r_body r).
Proof. rewrite lookup_abs, fmap_Some. done. Qed.

Lemma abs_eq (c c' : Core) :
  rows c' = rows c -> holders c' = holders c -> dom (volumes (db c')) = dom (volumes (db c)) -> abs c' = abs c.
Proof. intros Hr Hh Hv. unfold abs. by rewrite Hr, Hh, Hv. Qed.

(** Two abstract states with the same volumes and equal sandboxes. *)
Lemma abs_ext (c : Core) (a : Abs) :
  vols a = dom (volumes (db c)) -> (forall id, boxes (abs c) !! id = boxes a !! id) -> abs c = a.
Proof.
  intros Hv Hb. destruct a as [m s]. simpl in *. subst s.
  assert (boxes (abs c) = m) as <- by (by apply map_eq). done.
Qed.

Lemma box_apart (c : Core) (i j : string) (b x : Box) :
  Inv c -> boxes (abs c) !! i = Some b -> boxes (abs c) !! j = Some x -> i <> j -> apart b x.
Proof.
  intros HI (r & Hr & ->)%lookup_abs_Some (r' & Hr' & ->)%lookup_abs_Some Hne.
  destruct (inv_keyed _ HI _ _ Hr) as [_ Hk]. destruct (inv_keyed _ HI _ _ Hr') as [_ Hk']. split; simpl.
  - intros Hn. apply Hne, (inv_unique _ HI _ _ _ _ Hr Hr'). congruence.
  - intros Hs. by apply Hne, (inv_slots _ HI _ _ _ _ Hr Hr').
  - intros p q Hp Hq Heq. pose proof (inv_ports _ HI _ _ _ _ Hr Hr' Hne) as Hd.
    apply not_true_iff_false in Hd. apply Hd, port_conflict_spec. by exists p, q.
Qed.

Lemma box_isolated (c : Core) (i j : string) (b x : Box) :
  Inv c -> boxes (abs c) !! i = Some b -> boxes (abs c) !! j = Some x -> i <> j ->
  bx_reserved b = true -> bx_reserved x = true -> no_shared_volume b x.
Proof.
  intros HI (r & Hr & ->)%lookup_abs_Some (r' & Hr' & ->)%lookup_abs_Some Hne. simpl.
  rewrite !bool_decide_eq_true. intros H1 H2 m n Hm Hn Heq.
  pose proof (inv_disjoint _ HI _ _ _ _ H1 H2 Hne Hr Hr') as Hd.
  apply not_true_iff_false in Hd. apply Hd, shares_volume_spec. by exists m, n.
Qed.

Lemma box_mounts (c : Core) (i : string) (b : Box) (m : Mount) :
  Inv c -> boxes (abs c) !! i = Some b -> m ∈ s_Mounts (bx_Spec b) -> m_Name m ∈ vols (abs c).
Proof.
  intros HI (r & Hr & ->)%lookup_abs_Some Hm. simpl. apply elem_of_dom. by apply (inv_mounts _ HI i r).
Qed.

Lemma abs_ok (c : Core) : Inv c -> spec_ok (abs c).
Proof.
  intros HI. split; [|eauto using box_isolated|eauto using box_mounts].
  intros i j b x. by apply box_apart.
Qed.

(** ** The simulation, operation by operation *)

(** An operation is invisible, or one rule of the specification. *)
Definition simulated (c c' : Core) : Prop := abs c' = abs c \/ spec_step (abs c) (abs c').

Lemma simulated_same (c c' : Core) :
  rows c' = rows c -> holders c' = holders c -> dom (volumes (db c')) = dom (volumes (db c)) -> simulated c c'.
Proof. intros. left. by apply abs_eq. Qed.

(** An update rewrites one row, and may claim the sandbox. *)
Lemma update_simulated (c : Core) (id : string) (r : Row) (v : Sandbox) (h : gset string) :
  Inv (put id r v h c) -> rows c !! id = Some r -> h = holders c \/ h = {[id]} ∪ holders c ->
  static v = static (r_body r) ->
  (id ∈ h -> id ∈ holders c) /\ sb_Generation v = sb_Generation (r_body r) \/
  id ∉ holders c /\ id ∈ h /\ sb_Generation v = int64 (sb_Generation (r_body r) + 1) ->
  simulated c (put id r v h c).
Proof.
  set (c' := put id r v h c). intros HI' Hr Hh Hst Hgen.
  assert (rows c' !! id = Some (mkRow (r_name r) v)) as Hr'.
  { unfold c', put, rows. simpl. by rewrite lookup_insert_eq. }
  assert (forall j, j <> id -> boxes (abs c') !! j = boxes (abs c) !! j) as Hoth.
  { intros j Hj. rewrite !lookup_abs. unfold c', put, rows. simpl. rewrite lookup_insert_ne by done.
    destruct (sandboxes (db c) !! j); [|done]. simpl. do 2 f_equal. apply bool_decide_ext. set_solver. }
  unfold static in Hst. injection Hst as _ Hn Hs Hl. destruct Hgen as [[Hk Hg]|(Hn1 & Hn2 & Hg)].
  - left. apply abs_ext; [done|]. intros j. destruct (decide (j = id)) as [->|Hj]; [|by apply Hoth].
    rewrite !lookup_abs, Hr, Hr'. simpl. unfold box_of. rewrite Hn, Hs, Hl, Hg. do 2 f_equal.
    apply bool_decide_ext. simpl in Hk |- *. set_solver.
  - right. assert (boxes (abs c) !! id = Some (box_of false (r_body r))) as Hb.
    { rewrite lookup_abs, Hr. simpl. by rewrite bool_decide_eq_false_2. }
    assert (boxes (abs c') !! id = Some (booted (box_of false (r_body r)))) as Hb'.
    { rewrite lookup_abs, Hr'. simpl. rewrite bool_decide_eq_true_2 by done. unfold box_of, booted. simpl. congruence. }
    replace (abs c') with (set_boxes (<[id := booted (box_of false (r_body r))]> (boxes (abs c))) (abs c)).
    + apply spec_boot; [done|done|]. intros j x Hx Hres. destruct (decide (j = id)) as [->|Hj].
      { rewrite Hb in Hx. by injection Hx as <-. }
      rewrite <-Hoth in Hx by done.
      exact (box_isolated c' id j _ _ HI' Hb' Hx (not_eq_sym Hj) eq_refl Hres).
    + symmetry. apply abs_ext; [done|]. intros j. cbn [set_boxes boxes]. rewrite lookup_insert. case_decide as Hd.
      * subst j. done.
      * by apply Hoth.
Qed.

Lemma claim_cases (id : string) (m m' : gmap string Row) (h : gset string) :
  claim id m m' h = h \/ claim id m m' h = {[id]} ∪ h.
Proof. unfold claim. repeat case_match; auto. Qed.

(** A new row is a new sandbox. *)
Lemma create_simulated (t : nat) (c : Core) (v : Sandbox) (d : DB) (now : Z) :
  Inv c -> Inv (set_db d c) -> G t c (set_db d c) -> State.Create (db c) now v = Ok d -> simulated c (set_db d c).
Proof.
  intros HI HI' HG Hc. right.
  assert (rows c !! sb_ID v = None /\ sandboxes d = <[sb_ID v := mkRow (sb_Name v) v]> (rows c) /\
          volumes d = volumes (db c)) as (Hf & Hd & Hv).
  { unfold State.Create in Hc. unfold rows. repeat case_match; try done. injection Hc as <-. done. }
  set (c' := set_db d c) in *.
  assert (rows c' !! sb_ID v = Some (mkRow (sb_Name v) v)) as Hr'.
  { unfold c', rows. simpl. by rewrite Hd, lookup_insert_eq. }
  assert (sb_ID v ∉ holders c) as Hh.
  { intros H. destruct (inv_holders _ HI _ H) as (r & Hr & _). congruence. }
  assert (forall j, j <> sb_ID v -> boxes (abs c') !! j = boxes (abs c) !! j) as Hoth.
  { intros j Hj. rewrite !lookup_abs. unfold c', rows. simpl. by rewrite Hd, lookup_insert_ne. }
  assert (boxes (abs c') !! sb_ID v = Some (box_of false v)) as Hb.
  { rewrite lookup_abs, Hr'. simpl. by rewrite bool_decide_eq_false_2. }
  replace (abs c') with (set_boxes (<[sb_ID v := box_of false v]> (boxes (abs c))) (abs c)).
  - destruct (g_insert _ _ _ HG _ _ Hf Hr') as [_ Hg].
    destruct (inv_formed _ HI' _ _ Hr') as (Hvs & _ & Hname & _). destruct (inv_names _ HI' _ _ Hr') as [Hid _].
    apply spec_create; try done.
    + by rewrite lookup_abs, Hf.
    + exact (inv_slot _ HI' _ _ Hr').
    + intros j x Hx. assert (j <> sb_ID v) as Hj.
      { intros ->. rewrite lookup_abs, Hf in Hx. done. }
      rewrite <-Hoth in Hx by done. exact (box_apart c' _ j _ _ HI' Hb Hx (not_eq_sym Hj)).
    + intros m Hm. replace (vols (abs c)) with (vols (abs c')) by (simpl; by rewrite Hv).
      exact (box_mounts c' _ _ _ HI' Hb Hm).
  - symmetry. apply abs_ext; [simpl; by rewrite Hv|]. intros j. cbn [set_boxes boxes]. rewrite lookup_insert. case_decide.
    + subst j. done.
    + by apply Hoth.
Qed.

(** A deleted row is a removed sandbox, which holds nothing. *)
Lemma delete_simulated (c : Core) (id : string) :
  Inv (drop_row id c) -> simulated c (drop_row id c).
Proof.
  intros HI'. destruct (rows c !! id) as [r|] eqn:Hr.
  2:{ apply simulated_same; [|done|done]. unfold rows, drop_row. simpl. by apply delete_id. }
  assert (id ∉ holders c) as Hh.
  { intros H. destruct (inv_holders _ HI' id H) as (r' & [? _]%drop_row_lookup & _). done. }
  right. replace (abs (drop_row id c)) with (set_boxes (delete id (boxes (abs c))) (abs c)).
  - apply (spec_remove _ id (box_of false (r_body r))); [|done].
    rewrite lookup_abs, Hr. simpl. by rewrite bool_decide_eq_false_2.
  - symmetry. apply abs_ext; [done|]. intros j. cbn [set_boxes boxes]. rewrite lookup_delete. case_decide as Hd.
    + subst j. rewrite lookup_abs. unfold rows, drop_row. simpl. by rewrite lookup_delete_eq.
    + rewrite !lookup_abs. unfold rows, drop_row. simpl. by rewrite lookup_delete_ne.
Qed.

(** A confirmed kill frees the sandbox. *)
Lemma kill_simulated (c c' : Core) (id : string) :
  Inv c -> rows c' = rows c -> volumes (db c') = volumes (db c) -> holders c' = holders c ∖ {[id]} ->
  simulated c c'.
Proof.
  intros HI Hr Hv Hh. destruct (decide (id ∈ holders c)) as [Hin|Hn].
  2:{ apply simulated_same; [done|rewrite Hh; set_solver|by rewrite Hv]. }
  destruct (inv_holders _ HI _ Hin) as (r & Hrow & _).
  right. replace (abs c') with (set_boxes (<[id := freed (box_of true (r_body r))]> (boxes (abs c))) (abs c)).
  - apply spec_release; [|done]. rewrite lookup_abs, Hrow. simpl. by rewrite bool_decide_eq_true_2.
  - symmetry. apply abs_ext; [simpl; by rewrite Hv|]. intros j. cbn [set_boxes boxes]. rewrite lookup_insert.
    rewrite lookup_abs, Hr, Hh. case_decide as Hd.
    + subst j. rewrite Hrow. simpl. rewrite bool_decide_eq_false_2 by set_solver. done.
    + rewrite lookup_abs. destruct (rows c !! j); [|done]. simpl. do 2 f_equal. apply bool_decide_ext. set_solver.
Qed.

(** Volumes are added and deleted. *)
Lemma put_volume_simulated (c : Core) (v : Volume) (d : DB) :
  PutVolume (db c) v = Ok d -> simulated c (set_db d c).
Proof.
  unfold PutVolume. destruct (volumes (db c) !! vol_Name v) eqn:Ev; [done|]. intros [= <-]. right.
  replace (abs (set_db _ c)) with (set_vols ({[vol_Name v]} ∪ vols (abs c)) (abs c)).
  - apply spec_volume_create. simpl. by apply not_elem_of_dom.
  - symmetry. apply abs_ext; [|done]. simpl. by rewrite dom_insert_L.
Qed.

Lemma delete_volume_simulated (c : Core) (name : string) :
  Inv (set_db (DeleteVolume (db c) name) c) -> simulated c (set_db (DeleteVolume (db c) name) c).
Proof.
  intros HI'. set (c' := set_db _ c) in *. destruct (volumes (db c) !! name) eqn:Ev.
  2:{ apply simulated_same; [done|done|]. unfold c'. simpl. rewrite delete_id; done. }
  right. replace (abs c') with (set_vols (vols (abs c) ∖ {[name]}) (abs c)).
  - apply spec_volume_rm; [apply elem_of_dom; by eexists|]. intros j x m Hx Hm Heq.
    pose proof (box_mounts c' j x m HI' Hx Hm) as Hin. simpl in Hin. rewrite Heq, dom_delete_L in Hin. set_solver.
  - symmetry. apply abs_ext; [|done]. simpl. by rewrite dom_delete_L.
Qed.

Section Simulation.
Context (E : Env).

Lemma exec_simulated (t : nat) {R} (op : Op R) (w w' : World) (r : R) :
  exec E t op w = Some (w', r) -> Inv (core w) -> Inv (core w') -> G t (core w) (core w') ->
  simulated (core w) (core w').
Proof.
  intros Hx HI HI' HG.
  destruct op; simpl in Hx; unfold db_call, db_write, db_read, start_dns, reserve in Hx;
    try (by repeat case_match; simplify_eq; apply simulated_same);
    try (destruct (e_db E (tick w)) as [e|]; [by simplify_eq; apply simulated_same|]).
  - destruct (State.Create _ _ v) as [d|e] eqn:Ec; simplify_eq; [|by apply simulated_same].
    by apply (create_simulated t _ v d (e_now E (tick w))).
  - simpl in Hx. unfold Update in Hx. destruct (sandboxes (db (core w)) !! id) as [row|] eqn:Er;
      [|simplify_eq; by apply simulated_same].
    destruct (fn (r_body row)) as [v|e] eqn:Ef; simplify_eq; [|by apply simulated_same].
    set (v' := set_Updated (e_now E (tick w)) v) in *.
    assert (rows (core w) !! id = Some row) as Hr by done.
    match type of HG with G _ _ ?c => assert (rows c !! id = Some (mkRow (r_name row) v')) as Hr' end.
    { unfold rows. simpl. by rewrite lookup_insert_eq. }
    apply (update_simulated (core w) id row v'); [done|done|apply claim_cases|..].
    + exact (g_static _ _ _ HG _ _ _ Hr Hr').
    + exact (g_gen _ _ _ HG _ _ _ Hr Hr').
  - simplify_eq. by apply (delete_simulated (core w) id).
  - destruct (PutVolume _ v) as [d|e] eqn:Ep; simplify_eq; [|by apply simulated_same].
    by apply (put_volume_simulated (core w) v d).
  - simplify_eq. by apply (delete_volume_simulated (core w) name).
  - destruct (e_vm_kill E (tick w) v); simplify_eq; [|by apply simulated_same].
    by apply (kill_simulated (core w) _ (sb_ID v)).
  - simplify_eq. unfold monitor_enter. case_match; by apply simulated_same.
  - simplify_eq. unfold monitor_leave. case_match; by apply simulated_same.
Qed.

(** A step of the pool is a step of one thread, or a new request. *)
Lemma pool_simulated {A} (entry : Prog A -> Prop) (s s' : World * gmap nat (Prog A)) :
  pool_step E entry s s' -> pool_ok E s -> simulated (core s.1) (core s'.1).
Proof.
  intros [t p p' w w' T Ht Hs|t p w T Ht Hp] [HI _ Hth]; [|by left]. simpl in *.
  destruct (Hth t p Ht) as (P & _ & HP & Hok). unfold step in Hs. destruct p as [a|R op k]; [done|].
  destruct (exec E t op w) as [[w1 r]|] eqn:Ex; [|done]. injection Hs as -> _.
  destruct Hok as (M & _ & Hop & _). destruct (Hop w HI HP) as [_ Hx]. destruct (Hx _ _ Ex) as (HI' & HG & _).
  by apply (exec_simulated t op w w' r).
Qed.
End Simulation.

(** ** Programs that run alone *)

Section Alone.
Context (E : Env) (t : nat).

(** Every operation of [p], run alone from [w], keeps the invariant and is
    simulated: this speaks about every prefix of the run. *)
Fixpoint traced {A} (p : Prog A) (w : World) : Prop :=
  match p with
  | Ret _ => True
  | Do op k => forall w' r, exec E t op w = Some (w', r) ->
      Inv (core w') /\ simulated (core w) (core w') /\ traced (k r) w'
  end.

Lemma traced_bind {A B} (p : Prog A) (f : A -> Prog B) (w : World) :
  traced p w -> (forall w' a, run_alone E t p w = Some (w', a) -> traced (f a) w') -> traced (bind p f) w.
Proof.
  revert w. induction p as [a|R op k IH]; intros w; simpl.
  - intros _ Hf. by apply Hf.
  - intros Hp Hf w' r Ex. destruct (Hp w' r Ex) as (HI & Hs & Ht). split_and!; [done|done|].
    apply IH; [done|]. intros w2 a Hr. apply Hf. by rewrite Ex.
Qed.

Lemma traced_ok {A} (p : Prog A) (P : Core -> Prop) (Q : A -> Core -> Prop) (w : World) :
  ok E t P p Q -> Inv (core w) -> P (core w) -> traced p w.
Proof.
  revert P w. induction p as [a|R op k IH]; intros P w; simpl; [done|].
  intros (M & _ & Hop & Hk) HI HP w' r Ex. destruct (Hop w HI HP) as [_ Hx].
  destruct (Hx _ _ Ex) as (HI' & HG & HM). split_and!; [done|by eapply exec_simulated|by apply (IH r (M r))].
Qed.

Lemma traced_looks {A} (p : Prog A) (w : World) : looks p -> Inv (core w) -> traced p w.
Proof.
  revert w. induction p as [a|R op k IH]; intros w; simpl; [done|]. intros [Hn Hk] HI w' r Ex.
  pose proof (exec_neutral _ _ _ _ _ _ Hn Ex) as Hc. unfold simulated. rewrite Hc.
  split_and!; [done|by left|]. apply IH; [done|by rewrite Hc].
Qed.

(** A neutral operation first. *)
Lemma traced_neutral {A R} (op : Op R) (k : R -> Prog A) (w : World) :
  neutral op = true -> Inv (core w) ->
  (forall w' r, exec E t op w = Some (w', r) -> core w' = core w -> traced (k r) w') -> traced (Do op k) w.
Proof.
  intros Hn HI Hk w' r Ex. pose proof (exec_neutral _ _ _ _ _ _ Hn Ex) as Hc.
  unfold simulated. rewrite Hc. split_and!; [done|by left|by apply Hk].
Qed.

(** An update that keeps what the specification sees. *)
Lemma traced_update {A} (id : string) (fn : Sandbox -> result Sandbox) (k : result unit -> Prog A) (w : World) :
  (forall w' r, exec E t (OUpdate id fn) w = Some (w', r) -> Inv (core w') /\ traced (k r) w') ->
  (forall x v, fn x = Ok v -> static v = static x /\ sb_Generation v = sb_Generation x /\
     (sb_State v = "starting" -> sb_State x = "starting")) ->
  traced (Do (OUpdate id fn) k) w.
Proof.
  intros Hk Hf w' r Ex. destruct (Hk w' r Ex) as [HI' Ht]. split_and!; [done| |done].
  destruct (exec_update_core _ _ _ _ _ _ _ Ex) as [Hc|(row & v & Hr & Hv & _ & Hc)].
  { rewrite Hc. by left. }
  destruct (Hf _ _ Hv) as (Hs & Hg & Hst). rewrite Hc in HI' |- *.
  apply update_simulated; [done|done|apply claim_cases|done|].
  left. split; [|done]. unfold claim. rewrite Hr, lookup_insert_eq. simpl. unfold is_starting. simpl.
  case_bool_decide as H1; [done|]. rewrite bool_decide_eq_false_2 by tauto. done.
Qed.

(** A prefix of a traced run. *)
Definition alone_step {A} (s s' : World * Prog A) : Prop := step E t s.2 s.1 = Some s'.

Lemma traced_step {A} (p p' : Prog A) (w w' : World) :
  alone_step (w, p) (w', p') -> traced p w -> Inv (core w') /\ simulated (core w) (core w') /\ traced p' w'.
Proof.
  unfold alone_step, step. simpl. destruct p as [a|R op k]; [done|].
  destruct (exec E t op w) as [[w1 r]|] eqn:Ex; [|done]. intros [= <- <-] Ht. by apply Ht.
Qed.
End Alone.

(** ** Recover refines the specification *)

Section RecoverTraced.
Context (E : Env) (cfg : DaemonConfig) (t : nat).

Lemma recover_release_traced (v : Sandbox) (dns : bool) (w : World) :
  starts w -> traced E t (recover_release v dns) w.
Proof.
  intros Hs w' r Ex. destruct (exec_kill_starts E t v w w' r Ex Hs) as (Hs' & Hr & _).
  split_and!; [apply Hs'| |].
  - simpl in Ex. destruct (e_vm_kill E (tick w) v); simplify_eq; [|by left].
    apply (kill_simulated (core w) _ (sb_ID v)); [apply Hs|done..].
  - destruct r as [[]|e]; [|done]. apply traced_looks; [|apply Hs'].
    apply looks_bind; [by destruct dns|]. intros []. by do 2 (split; [done|]; intros).
Qed.

Lemma recover_one_traced (v : Sandbox) (row : Row) (w : World) :
  starts w -> rows (core w) !! sb_ID v = Some row -> r_body row = v -> traced E t (recover_one cfg v) w.
Proof.
  intros Hs Hr Hv. unfold recover_one.
  destruct (_ || _); [|destruct (_ || _ || _) eqn:E2].
  - apply traced_neutral; [done|apply Hs|]. intros w1 [] _ Hc1.
    + apply traced_looks; [|rewrite Hc1; apply Hs]. split; [done|]. intros [x|e]; [|done].
      apply looks_bind; [by destruct (bool_decide (s_Network (sb_Spec v) = "bridge"))|]. intros [y|e]; by cbn.
    + apply traced_neutral; [done|rewrite Hc1; apply Hs|]. intros w2 now _ Hc2.
      assert (starts w2) as [HI2 Hl2] by (unfold starts; rewrite Hc2, Hc1; exact Hs).
      apply traced_bind; [|done].
      eapply traced_ok; [apply finish_ok|exact HI2|by apply unlocked_owns].
  - apply traced_bind; [by apply recover_release_traced|]. intros w1 released Hrel.
    destruct (recover_release_looks E t v false w w1 released Hs Hrel) as (Hs1 & Hr1 & _ & Hh1).
    apply traced_update; [|by intros x y [= <-]]. intros w2 r2 Hx2. split; [|done].
    rewrite <-Hr1 in Hr. by apply (interrupted_update_starts E t v row released w1 w2 r2).
  - destruct (bool_decide (sb_State v = "failed")) eqn:E3; [|done]. destruct (sb_VMResourcesReleased v); [done|].
    apply traced_bind; [by apply recover_release_traced|]. intros w1 released Hrel.
    destruct (recover_release_looks E t v true w w1 released Hs Hrel) as (Hs1 & Hr1 & Hh1 & _).
    destruct released; [|done]. apply traced_update; [|by intros x y [= <-]]. intros w2 r2 Hx2. split; [|done].
    rewrite <-Hr1 in Hr. bool_prop. apply (failed_update_starts E t v row w1 w2 r2); auto.
Qed.

Lemma recover_all_traced (all : list Sandbox) (w : World) :
  starts w -> NoDup (sb_ID <$> all) ->
  (forall v, v ∈ all -> exists row, rows (core w) !! sb_ID v = Some row /\ r_body row = v) ->
  traced E t (recover_all cfg all) w.
Proof.
  revert w. induction all as [|v all IH]; intros w Hs Hnd Hrow; [done|]. cbn [recover_all].
  rewrite fmap_cons in Hnd. apply NoDup_cons in Hnd as [Hv Hnd].
  destruct (Hrow v ltac:(by left)) as (row & Hr & Hb).
  apply traced_bind; [by eapply recover_one_traced|]. intros w1 r1 H1.
  destruct (recover_one_run E cfg t v row w w1 r1 Hs Hr Hb H1) as [Hs1 _]. destruct r1 as [[]|e]; [|done].
  apply IH; [done|done|]. intros x Hx. destruct (Hrow x ltac:(by right)) as (rowx & Hrx & Hbx).
  exists rowx. split; [|done].
  rewrite (only_touches_run E t (sb_ID v) _ w w1 _ (recover_one_touches cfg v) H1); [done|].
  intros Heq. apply Hv. rewrite <-Heq. apply list_elem_of_fmap. by exists x.
Qed.

Lemma Recover_traced (w : World) : starts w -> traced E t (Recover cfg) w.
Proof.
  intros Hs. apply traced_neutral; [done|apply Hs|]. intros w1 [all|e] Hx Hc; [|done].
  assert (starts w1) as Hs1 by (unfold starts; by rewrite Hc).
  assert (all = List (db (core w1))) as ->.
  { rewrite Hc. simpl in Hx. unfold db_call in Hx. destruct (e_db E (tick w)); by injection Hx. }
  apply recover_all_traced; [done|by apply List_ids_NoDup, Hs1|].
  intros v (id & row & Hr & <-)%elem_of_List. destruct Hs1 as [HI _].
  exists row. destruct (inv_keyed _ HI _ _ Hr) as [-> _]. done.
Qed.
End RecoverTraced.

(** ** The service across restarts *)

(** The process recovers, then serves. *)
Inductive phase : Type :=
| Recovering (p : Prog (result unit))
| Serving (T : gmap nat (Prog (result Reply))).

(** A process that ended, in order or not: its memory is gone (the locks, the
    DNS servers, the reserved ports, the monitors); the database and the VMMs
    stay. *)
Definition crashed (w : World) : World := mkWorld (set_locks ∅ (core w)) (tick w) ∅ ∅ ∅ [] (trace w).

Section Lifetime.
Context (E : Env) (cfg : DaemonConfig).
Context (decode_auth : string -> result Auth) (decode_cursor : string -> result Z).
Context (requests : Request -> Prop).

(** The process runs [Recover] alone, serves when it has succeeded, and may end
    at any point, after which the next one starts with [Recover] again.  A monitor
    that [Recover] spawns works on a sandbox [Recover] is done with; it is taken
    to begin once requests are served. *)
Inductive life_step : World * phase -> World * phase -> Prop :=
| life_recover (w w' : World) (p p' : Prog (result unit)) :
    alone_step E 0 (w, p) (w', p') -> life_step (w, Recovering p) (w', Recovering p')
| life_ready (w : World) : life_step (w, Recovering (Ret (Ok tt))) (w, Serving ∅)
| life_serve (w w' : World) (T T' : gmap nat (Prog (result Reply))) :
    service_step E cfg decode_auth decode_cursor requests (w, T) (w', T') -> life_step (w, Serving T) (w', Serving T')
| life_crash (w : World) (ph : phase) : life_step (w, ph) (crashed w, Recovering (Recover cfg)).

(** A recovery run to its end. *)
Lemma life_recovers (w w' : World) (p : Prog (result unit)) (a : result unit) :
  run_alone E 0 p w = Some (w', a) -> rtc life_step (w, Recovering p) (w', Recovering (Ret a)).
Proof.
  revert w. induction p as [b|R op k IH]; intros w; simpl; [by intros [= <- <-]|].
  destruct (exec E 0 op w) as [[w1 r]|] eqn:Ex; [|done]. intros H. eapply rtc_l; [|by apply IH in H].
  apply life_recover. unfold alone_step. simpl. by rewrite Ex.
Qed.

Lemma life_serves (w w' : World) (T T' : gmap nat (Prog (result Reply))) :
  rtc (service_step E cfg decode_auth decode_cursor requests) (w, T) (w', T') ->
  rtc life_step (w, Serving T) (w', Serving T').
Proof.
  intros H. apply (rtc_congruence (fun s => (s.1, Serving s.2)) life_step) in H; [exact H|].
  intros [w1 T1] [w2 T2] Hst. by apply life_serve.
Qed.
End Lifetime.

Section Refinement.
Context (E : Env) (cfg : DaemonConfig) (HE : EnvOK E).
Context (decode_auth : string -> result Auth) (decode_cursor : string -> result Z).

Definition life_ok (s : World * phase) : Prop :=
  Inv (core s.1) /\
  match s.2 with
  | Recovering p => traced E 0 p s.1 /\ exists w' a, run_alone E 0 p s.1 = Some (w', a) /\ starts w'
  | Serving T => pool_ok E (s.1, T)
  end.

Lemma crashed_starts (w : World) : Inv (core w) -> starts (crashed w).
Proof. intros HI. split; [|done]. apply (same_rows_Inv (core w)); try done; apply HI. Qed.

Lemma starts_serving (w : World) : starts w -> pool_ok E (w, ∅ : gmap nat (Prog (result Reply))).
Proof. intros Hs. eapply (reachable_ok E cfg decode_auth decode_cursor HE w); [done|]. constructor. Qed.

Lemma life_step_ok (s s' : World * phase) :
  life_step E cfg decode_auth decode_cursor named_apart s s' -> life_ok s -> life_ok s' /\ simulated (core s.1) (core s'.1).
Proof.
  intros [w w' p p' Hst|w|w w' T T' Hst|w ph] [HI Hph]; unfold life_ok; cbn [fst snd] in *.
  - destruct Hph as (Ht & w2 & a & Hrun & Hs2). destruct (traced_step E 0 p p' w w' Hst Ht) as (HI' & Hs & Ht').
    split; [|done]. split; [done|]. split; [done|]. exists w2, a. split; [|done].
    unfold alone_step, step in Hst. simpl in Hst. destruct p as [b|R op k]; [done|]. simpl in Hrun.
    destruct (exec E 0 op w) as [[w1 r]|]; [|done]. by injection Hst as -> <-.
  - destruct Hph as (_ & w2 & a & Hrun & Hs2). injection Hrun as <- _. split; [|by left].
    split; [done|]. by apply starts_serving.
  - split; [|exact (pool_simulated E _ _ _ Hst Hph)].
    pose proof (pool_step_ok E _ (entry_ok E cfg decode_auth decode_cursor HE) _ _ Hst Hph) as Hok.
    split; [exact (po_inv _ _ Hok)|done].
  - pose proof (crashed_starts w HI) as Hs. split; [|by left]. split; [apply Hs|]. split; [by apply Recover_traced|].
    destruct (Recover_returns E cfg 0 _ (proj2 Hs)) as (w' & a & H & _). exists w', a. split; [done|].
    exact (proj1 (recover_starts_run E cfg 0 _ _ _ Hs H)).
Qed.

Lemma life_safe (s s' : World * phase) :
  rtc (life_step E cfg decode_auth decode_cursor named_apart) s s' -> life_ok s -> life_ok s' /\ rtc spec_step (abs (core s.1)) (abs (core s'.1)).
Proof.
  induction 1 as [|s1 s2 s3 Hst _ IH]; intros Hok; [by split|].
  destruct (life_step_ok _ _ Hst Hok) as [Hok2 Hsim]. destruct (IH Hok2) as [Hok3 Hrtc]. split; [done|].
  destruct Hsim as [<- |Hsim]; [done|by eapply rtc_l].
Qed.

(** C2. The host service, over any number of process lifetimes, implements the
    abstract specification.  From a service with no request under way, whatever
    monitors and requests run (any request but one that names a new sandbox with
    32 hexadecimal digits, [named_apart]; the code accepts such a name and the
    refinement then fails), however their operations interleave, whatever the
    backend, the network, the disks and the database answer, and wherever the
    process ends and is started again (in the middle of a request or of
    [Recover]): the state is one the specification reaches by its rules, the next
    step is invisible or one rule, sandboxes for which a VMM may be alive are the
    reserved ones of the specification, and so reserved sandboxes share no volume
    and all sandboxes have their own name, slot and ports. *)
Theorem service_refines (w0 w : World) (ph : phase) :
  starts w0 -> rtc (life_step E cfg decode_auth decode_cursor named_apart) (w0, Serving ∅) (w, ph) ->
  rtc spec_step (abs (core w0)) (abs (core w)) /\
  (forall w' ph', life_step E cfg decode_auth decode_cursor named_apart (w, ph) (w', ph') ->
     abs (core w') = abs (core w) \/ spec_step (abs (core w)) (abs (core w'))) /\
  (forall id, id ∈ live (core w) -> exists b, boxes (abs (core w)) !! id = Some b /\ bx_reserved b = true) /\
  spec_ok (abs (core w)).
Proof.
  intros Hs Hr. pose proof Hs as [HI0 _].
  assert (life_ok (w0, Serving ∅)) as H0 by (split; [done|by apply starts_serving]).
  destruct (life_safe _ _ Hr H0) as [Hok Hrtc]. split; [done|]. split; [|split].
  - intros w' ph' Hst. exact (proj2 (life_step_ok _ _ Hst Hok)).
  - intros id Hid%(inv_live _ (proj1 Hok)). destruct (inv_holders _ (proj1 Hok) _ Hid) as (r & Hrow & _).
    eexists. split; [apply lookup_abs_Some; by exists r|]. simpl. by rewrite bool_decide_eq_true_2.
  - eapply spec_safe; [exact Hrtc|by apply abs_ok].
Qed.

End Refinement.

(** The sample service starts two sandboxes, the process is killed, both VMMs
    have died meanwhile, and the next process recovers and serves. *)
Definition recovered_world : World :=
  match run_alone sample_env 0 (Recover sample_config) (crashed sample_world) with
  | Some (w, _) => w
  | None => crashed sample_world
  end.

Lemma service_refines_witness :
  rtc spec_step (abs (core empty_world)) (abs (core (crashed sample_world))) /\
  rtc spec_step (abs (core empty_world)) (abs (core recovered_world)) /\
  bx_reserved <$> boxes (abs (core (crashed sample_world))) !! web_id = Some true /\
  bx_Generation <$> boxes (abs (core (crashed sample_world))) !! web_id = Some 1 /\
  bx_reserved <$> boxes (abs (core recovered_world)) !! web_id = Some false.
Proof.
  destruct sample_reachable as [T HT]. apply (life_serves sample_env sample_config) in HT.
  pose proof (rtc_r _ _ _ HT (life_crash sample_env sample_config (fun _ => Ok no_auth) (fun _ => Ok 0) named_apart _ _)) as Hc.
  assert (run_alone sample_env 0 (Recover sample_config) (crashed sample_world) = Some (recovered_world, Ok tt))
    as Hrun by (vm_compute; reflexivity).
  pose proof (life_recovers sample_env sample_config (fun _ => Ok no_auth) (fun _ => Ok 0) named_apart _ _ _ _ Hrun) as Hrec.
  pose proof (transitivity Hc Hrec) as Hr.
  split; [|split; [|split; [|split]]]; [| |vm_compute; reflexivity..].
  - exact (proj1 (service_refines sample_env sample_config sample_env_ok _ _ _ _ _ empty_starts Hc)).
  - exact (proj1 (service_refines sample_env sample_config sample_env_ok _ _ _ _ _ empty_starts
      (rtc_r _ _ _ Hr (life_ready sample_env sample_config _ _ _ _)))).
Defined.
