(* ===== verification/DaemonLife.v ===== *)
(** * DaemonLife: what holds in every state of the host service

    The invariants of the host service, over any number of process lifetimes:
    any requests and monitors, interleaved operation by operation, with every
    outcome of the VM backend, the network, the disks, the registry and the
    database at every call, and with the process ending at any point (in the
    middle of a request or of [Recover]) and being started again.

    One condition is on the requests: they are [named_apart], that is, none names
    a new sandbox with 32 hexadecimal digits, the form of an identifier.  The code
    does not refuse such a name, [Store.Get] then answers an identifier with the
    sandbox of that name, and a VMM can lose its record: [named_apart_needed] runs
    the system into that state with a request that is not [named_apart]. *)

From S2P Require Import Prelude GoLib Api State Oci Base DaemonSem Daemon DaemonLogic DaemonProof DaemonSafety DaemonSeq DaemonRecover DaemonSpec.
Local Open Scope Z_scope.

Section Safety.
Context (E : Env) (cfg : DaemonConfig) (HE : EnvOK E).
Context (decode_auth : string -> result Auth) (decode_cursor : string -> result Z).
Context (w0 w : World) (ph : phase).
Context (Hstart : starts w0).
Context (Hlife : rtc (life_step E cfg decode_auth decode_cursor named_apart) (w0, Serving ∅) (w, ph)).

Lemma life_Inv : Inv (core w).
Proof.
  destruct (life_safe E cfg HE _ _ _ _ Hlife) as [[HI _] _]; [|done].
  split; [apply Hstart|by apply (starts_serving E cfg HE decode_auth decode_cursor)].
Qed.

(** C1. In every state the service reaches, over any number of restarts, two
    sandboxes whose VMM may be alive (it was started and no kill of it was
    confirmed since) are isolated: they mount no common named volume, have
    different network slots and publish no common host port.  This covers every
    interleaving of requests and monitors, every failure of the backend, the
    network, the disks and the database, and the end of the process at any
    point, provided that no request names a new sandbox with 32 hexadecimal digits
    ([named_apart]), a name the code accepts. *)
Theorem running_isolated (id1 id2 : string) :
  id1 ∈ live (core w) -> id2 ∈ live (core w) -> id1 <> id2 ->
  exists r1 r2, rows (core w) !! id1 = Some r1 /\ rows (core w) !! id2 = Some r2 /\
    (forall m n, m ∈ s_Mounts (sb_Spec (r_body r1)) -> n ∈ s_Mounts (sb_Spec (r_body r2)) ->
       m_Name m <> m_Name n) /\
    sb_Slot (r_body r1) <> sb_Slot (r_body r2) /\
    (forall p q, p ∈ s_Ports (sb_Spec (r_body r1)) -> q ∈ s_Ports (sb_Spec (r_body r2)) ->
       p_HostPort p <> p_HostPort q).
Proof.
  intros H1 H2 Hne. pose proof life_Inv as HI.
  apply (inv_live _ HI) in H1, H2.
  destruct (inv_holders _ HI _ H1) as (r1 & Hr1 & _). destruct (inv_holders _ HI _ H2) as (r2 & Hr2 & _).
  exists r1, r2. split_and!; [done|done| | |].
  - intros m n Hm Hn Heq. pose proof (inv_disjoint _ HI _ _ _ _ H1 H2 Hne Hr1 Hr2) as Hd.
    apply not_true_iff_false in Hd. apply Hd, shares_volume_spec. by exists m, n.
  - intros Heq. by apply Hne, (inv_slots _ HI _ _ _ _ Hr1 Hr2).
  - intros p q Hp Hq Heq. pose proof (inv_ports _ HI _ _ _ _ Hr1 Hr2 Hne) as Hd.
    apply not_true_iff_false in Hd. apply Hd, port_conflict_spec. by exists p, q.
Qed.

(** C3. A VMM that may be alive is never forgotten: its sandbox is still
    stored and its record still reserves VM resources, so that its volumes and
    its memory stay accounted for.  As for the other invariants of this file, the
    requests are [named_apart]: none names a new sandbox with 32 hexadecimal
    digits, which the code accepts and with which the claim fails
    ([named_apart_needed]). *)
Theorem live_reserved (id : string) :
  id ∈ live (core w) ->
  exists r, rows (core w) !! id = Some r /\ reservesVMResources (r_body r) = true.
Proof.
  intros H. pose proof life_Inv as HI.
  apply (inv_live _ HI) in H. destruct (inv_holders _ HI _ H) as (r & Hr & Hres & _). by exists r.
Qed.

(** C4. The allocations of all stored sandboxes, running or not, are unique:
    the network slot is within 1..16000 and names, slots and published host
    ports belong to one sandbox each; every record is stored under its own
    identifier.  The requests are [named_apart]. *)
Theorem allocations_unique (id1 id2 : string) (r1 r2 : Row) :
  rows (core w) !! id1 = Some r1 -> rows (core w) !! id2 = Some r2 ->
  sb_ID (r_body r1) = id1 /\ 1 <= sb_Slot (r_body r1) <= 16000 /\
  (sb_Name (r_body r1) = sb_Name (r_body r2) \/ sb_Slot (r_body r1) = sb_Slot (r_body r2) \/
   (exists p q, p ∈ s_Ports (sb_Spec (r_body r1)) /\ q ∈ s_Ports (sb_Spec (r_body r2)) /\
      p_HostPort p = p_HostPort q) -> id1 = id2).
Proof.
  intros H1 H2. pose proof life_Inv as HI.
  destruct (inv_keyed _ HI _ _ H1) as [Hk1 Hn1]. destruct (inv_keyed _ HI _ _ H2) as [_ Hn2].
  split; [done|]. split; [by apply (inv_slot _ HI id1)|]. intros [Hn|[Hs|Hp]].
  - apply (inv_unique _ HI _ _ _ _ H1 H2). congruence.
  - by apply (inv_slots _ HI _ _ _ _ H1 H2).
  - destruct (decide (id1 = id2)) as [?|Hne]; [done|].
    pose proof (inv_ports _ HI _ _ _ _ H1 H2 Hne) as Hd. apply port_conflict_spec in Hp. congruence.
Qed.

(** C5. Every stored record is well formed, whatever is requested and whatever
    fails: it is stored under its own identifier of 32 hexadecimal digits, its
    specification satisfies the rules of validation and names a base, its name is
    the valid one of the specification, its state is one of the eight of the
    lifecycle, its guest memory is within the bounds the admission relies on, and
    every volume it mounts exists.  The requests are [named_apart]. *)
Theorem records_well_formed (id : string) (r : Row) :
  rows (core w) !! id = Some r ->
  is_id id = true /\ sb_ID (r_body r) = id /\ r_name r = sb_Name (r_body r) /\
  valid_spec (sb_Spec (r_body r)) /\ s_Base (sb_Spec (r_body r)) <> "" /\
  s_Name (sb_Spec (r_body r)) = sb_Name (r_body r) /\ ValidName (sb_Name (r_body r)) = true /\
  sb_State (r_body r) ∈ states /\ 0 <= sb_GuestMemory (r_body r) <= max_guest /\
  (forall m, m ∈ s_Mounts (sb_Spec (r_body r)) -> exists v, GetVolume (db (core w)) (m_Name m) = Ok v).
Proof.
  intros Hr. pose proof life_Inv as HI.
  destruct (inv_keyed _ HI _ _ Hr) as [Hk Hn]. destruct (inv_formed _ HI _ _ Hr) as (H1 & H2 & H3 & H4).
  destruct (inv_names _ HI _ _ Hr) as [Hid _].
  split_and!; try done; [by apply (inv_states _ HI id)|by apply (inv_memory _ HI id)..|].
  intros m Hm. destruct (inv_mounts _ HI _ _ _ Hr Hm) as [v Hv]. exists v. unfold GetVolume. by rewrite Hv.
Qed.

(** C6. The service never gets stuck.  While it serves: as long as some handler
    or monitor has an operation left, one of them can take a step, and a handler
    that has returned holds no lock.  While it recovers: it can run to the end of
    [Recover], whatever fails.  The requests are [named_apart]. *)
Theorem service_progress :
  match ph with
  | Serving T =>
      (forall t R (op : Op R) k, T !! t = Some (Do op k) ->
         exists t' p w' p', T !! t' = Some p /\ step E t' p w = Some (w', p')) /\
      (forall t a l, T !! t = Some (Ret a) -> locks (core w) !! l <> Some t)
  | Recovering p =>
      exists w' a, rtc (life_step E cfg decode_auth decode_cursor named_apart) (w, Recovering p) (w', Recovering (Ret a))
  end.
Proof.
  destruct (life_safe E cfg HE _ _ _ _ Hlife) as [[HI Hph] _].
  { split; [apply Hstart|by apply (starts_serving E cfg HE decode_auth decode_cursor)]. }
  cbn [fst snd] in *. destruct ph as [p|T].
  - destruct Hph as (_ & w' & a & Hrun & _). exists w', a. by apply life_recovers.
  - split.
    + intros t R op k Ht.
      by apply (pool_progress E (entry cfg decode_auth decode_cursor named_apart) (entry_ok E cfg _ _ HE) w T t op k).
    + intros t a l Ht Hl. destruct Hph as [_ _ Hth]. simpl in *.
      destruct (Hth _ _ Ht) as (P & _ & HP & Hret). apply (Hret _ HI HP) in Hl. set_solver.
Qed.

End Safety.

(** ** Witnesses: the sample service with its two running sandboxes, after its
    process was killed *)

Lemma sample_life :
  rtc (life_step sample_env sample_config (fun _ => Ok no_auth) (fun _ => Ok 0) named_apart) (empty_world, Serving ∅)
    (crashed sample_world, Recovering (Recover sample_config)).
Proof. destruct sample_reachable as [T HT]. eapply rtc_r; [by apply life_serves|apply life_crash]. Qed.

Lemma crashed_live : web_id ∈ live (core (crashed sample_world)) /\ api_id ∈ live (core (crashed sample_world)).
Proof.
  split; [apply (bool_decide_eq_true_1 (web_id ∈ live (core (crashed sample_world))))
         |apply (bool_decide_eq_true_1 (api_id ∈ live (core (crashed sample_world))))]; vm_compute; reflexivity.
Qed.

Lemma running_isolated_witness :
  exists r1 r2, rows (core (crashed sample_world)) !! web_id = Some r1 /\ rows (core (crashed sample_world)) !! api_id = Some r2 /\
    (forall m n, m ∈ s_Mounts (sb_Spec (r_body r1)) -> n ∈ s_Mounts (sb_Spec (r_body r2)) ->
       m_Name m <> m_Name n) /\
    sb_Slot (r_body r1) <> sb_Slot (r_body r2) /\
    (forall p q, p ∈ s_Ports (sb_Spec (r_body r1)) -> q ∈ s_Ports (sb_Spec (r_body r2)) ->
       p_HostPort p <> p_HostPort q).
Proof.
  exact (running_isolated sample_env sample_config sample_env_ok _ _ _ _ _ empty_starts sample_life web_id api_id
           (proj1 crashed_live) (proj2 crashed_live) ltac:(discriminate)).
Defined.

Lemma live_reserved_witness :
  exists r, rows (core (crashed sample_world)) !! web_id = Some r /\ reservesVMResources (r_body r) = true.
Proof.
  exact (live_reserved sample_env sample_config sample_env_ok _ _ _ _ _ empty_starts sample_life web_id
           (proj1 crashed_live)).
Defined.

Lemma allocations_unique_witness :
  exists r1 r2, rows (core (crashed sample_world)) !! web_id = Some r1 /\ rows (core (crashed sample_world)) !! api_id = Some r2 /\
    (sb_Name (r_body r1) = sb_Name (r_body r2) \/ sb_Slot (r_body r1) = sb_Slot (r_body r2) \/
     (exists p q, p ∈ s_Ports (sb_Spec (r_body r1)) /\ q ∈ s_Ports (sb_Spec (r_body r2)) /\
        p_HostPort p = p_HostPort q) -> web_id = api_id).
Proof.
  destruct (rows (core (crashed sample_world)) !! web_id) as [r1|] eqn:H1; [|vm_compute in H1; discriminate H1].
  destruct (rows (core (crashed sample_world)) !! api_id) as [r2|] eqn:H2; [|vm_compute in H2; discriminate H2].
  exists r1, r2. split; [reflexivity|]. split; [reflexivity|].
  exact (proj2 (proj2 (allocations_unique sample_env sample_config sample_env_ok _ _ _ _ _ empty_starts sample_life
           web_id api_id r1 r2 H1 H2))).
Defined.

Lemma records_well_formed_witness :
  exists r, rows (core (crashed sample_world)) !! web_id = Some r /\ valid_spec (sb_Spec (r_body r)) /\ sb_State (r_body r) ∈ states.
Proof.
  destruct (rows (core (crashed sample_world)) !! web_id) as [r|] eqn:H1; [|vm_compute in H1; discriminate H1].
  destruct (records_well_formed sample_env sample_config sample_env_ok _ _ _ _ _ empty_starts sample_life web_id r H1)
    as (_ & _ & _ & Hv & _ & _ & _ & Hs & _).
  exists r. split; [reflexivity|]. split; [exact Hv|exact Hs].
Defined.


(** A service with a pending request, and the killed one recovering. *)
Definition pending : gmap nat (Prog (result Reply)) := {[ 0%nat := sample_call (request "ps" "" None None) ]}.

Lemma service_progress_witness :
  (exists t p w' p', pending !! t = Some p /\ step sample_env t p empty_world = Some (w', p')) /\
  exists w' a, rtc (life_step sample_env sample_config (fun _ => Ok no_auth) (fun _ => Ok 0) named_apart)
    (crashed sample_world, Recovering (Recover sample_config)) (w', Recovering (Ret a)).
Proof.
  assert (rtc (life_step sample_env sample_config (fun _ => Ok no_auth) (fun _ => Ok 0) named_apart) (empty_world, Serving ∅)
            (empty_world, Serving pending)) as HT.
  { apply rtc_once, life_serve. apply (pool_new sample_env _ 0%nat); [done|]. by constructor. }
  split.
  - apply (proj1 (service_progress sample_env sample_config sample_env_ok _ _ _ _ _ empty_starts HT)
             0%nat _ OList (fun r => Ret (reply RSandboxes r))). reflexivity.
  - exact (service_progress sample_env sample_config sample_env_ok _ _ _ _ _ empty_starts sample_life).
Defined.

(** ** Why the requests have to be [named_apart]

    A sandbox "web", and a second one whose name is the identifier of "web".  A
    request starts the second one, under the lock of the second one.  Before the
    VMM is started, a forced removal of "web" takes the lock of "web" and asks the store
    for the identifier of "web"; the store answers with the second sandbox, whose
    record is deleted.  Then the VMM is started. *)

(** The first [n] operations of a thread. *)
Fixpoint steps_of (E : Env) (t n : nat) {A} (p : Prog A) (w : World) : option (World * Prog A) :=
  match n with
  | O => Some (w, p)
  | S n => match step E t p w with Some (w', p') => steps_of E t n p' w' | None => None end
  end.

Lemma steps_of_service (E : Env) (cfg : DaemonConfig) decode_auth decode_cursor (requests : Request -> Prop) (t n : nat)
    (p p' : Prog (result Reply)) (w w' : World) (T : gmap nat (Prog (result Reply))) :
  steps_of E t n p w = Some (w', p') ->
  rtc (service_step E cfg decode_auth decode_cursor requests) (w, <[t := p]> T) (w', <[t := p']> T).
Proof.
  revert p w. induction n as [|n IH]; intros p w; simpl; [by intros [= <- <-]|].
  destruct (step E t p w) as [[w1 p1]|] eqn:Est; [|done]. intros H. eapply rtc_l; [|by apply IH].
  rewrite <-(insert_insert_eq T t p1 p). eapply pool_run; [by rewrite lookup_insert_eq|done].
Qed.

(** One thread, stopped, another one run to its end, and the first one again. *)
Lemma interleaved_service (E : Env) (cfg : DaemonConfig) decode_auth decode_cursor (requests : Request -> Prop)
    (t1 t2 n m : nat) (p1 p1' p1'' p2 : Prog (result Reply)) (a : result Reply) (w w1 w2 w3 : World)
    (T : gmap nat (Prog (result Reply))) :
  entry cfg decode_auth decode_cursor requests p1 -> entry cfg decode_auth decode_cursor requests p2 ->
  T !! t1 = None -> T !! t2 = None -> t1 <> t2 ->
  steps_of E t1 n p1 w = Some (w1, p1') -> run_alone E t2 p2 w1 = Some (w2, a) ->
  steps_of E t1 m p1' w2 = Some (w3, p1'') ->
  rtc (service_step E cfg decode_auth decode_cursor requests) (w, T) (w3, <[t1 := p1'']> (<[t2 := Ret a]> T)).
Proof.
  intros He1 He2 H1 H2 Hne Hs1 Hr Hs2.
  eapply rtc_l; [by apply (pool_new E _ t1 p1)|]. etrans; [by eapply steps_of_service|].
  eapply rtc_l; [apply (pool_new E _ t2 p2); [by rewrite lookup_insert_ne|done]|].
  etrans; [by eapply run_alone_steps|]. rewrite insert_insert_ne by done. by eapply steps_of_service.
Qed.

Definition twin_requests : list Request :=
  [request "volume-create" "" None (Some (mkVolume "data" (64 * MiB) 0));
   request "volume-create" "" None (Some (mkVolume "other" (64 * MiB) 0));
   request "create" "" (Some (sample_spec "web" "data" 8080)) None;
   request "create" "" (Some (sample_spec web_id "other" 8081)) None].
Definition twin_world : World := default empty_world (serve 0 twin_requests empty_world).

Definition start_twin : Prog (result Reply) := sample_call (request "start" api_id None None).
Definition force_remove : Request := mkRequest "rm" "web" "" None None None "" "" true "" 10 "" "".
Definition remove_web : Prog (result Reply) := sample_call force_remove.

(** The start up to its call of the VMM, the whole removal, and that call. *)
Definition twin_admitted := steps_of sample_env 4 15 start_twin twin_world.
Definition twin_removed :=
  match twin_admitted with
  | Some (w, p) => match run_alone sample_env 5 remove_web w with Some (w', a) => Some (w', p, a) | None => None end
  | None => None
  end.
Definition twin_started :=
  match twin_removed with Some (w, p, _) => steps_of sample_env 4 1 p w | None => None end.

Lemma twin_steps (requests : Request -> Prop) (w : World) (p : Prog (result Reply)) :
  Forall requests twin_requests -> requests (request "start" api_id None None) -> requests force_remove ->
  twin_started = Some (w, p) ->
  exists T, reachable sample_env sample_config (fun _ => Ok no_auth) (fun _ => Ok 0) requests empty_world w T.
Proof.
  intros Hq Hst Hrm H. unfold twin_started, twin_removed in H.
  destruct twin_admitted as [[w1 p1]|] eqn:E1; [|done].
  destruct (run_alone sample_env 5 remove_web w1) as [[w2 a]|] eqn:E2; [|done].
  destruct (serve_fresh_steps requests twin_requests 0 empty_world twin_world ∅ Hq) as (T & HT & Hfr);
    [intros; apply lookup_empty|vm_compute; reflexivity|].
  eexists. unfold reachable. etrans; [exact HT|].
  exact (interleaved_service sample_env sample_config _ _ requests 4 5 15 1 start_twin p1 p remove_web a twin_world w1 w2 w T
           (entry_call _ _ _ _ _ 3 Hst) (entry_call _ _ _ _ _ 3 Hrm) (Hfr 4%nat (le_n 4)) (Hfr 5%nat (le_S _ _ (le_n 4)))
           ltac:(discriminate) E1 E2 H).
Qed.

(** Without the condition the claim on forgotten VMMs is false: with a request
    that names a sandbox like the identifier of another one, the service reaches a
    state in which a VMM may be alive and no sandbox is stored for it. *)
Theorem named_apart_needed :
  ~ Forall named_apart twin_requests /\
  exists w T, reachable sample_env sample_config (fun _ => Ok no_auth) (fun _ => Ok 0) (fun _ => True) empty_world w T /\
    api_id ∈ live (core w) /\ rows (core w) !! api_id = None.
Proof.
  split.
  { rewrite Forall_forall. intros H.
    specialize (H (request "create" "" (Some (sample_spec web_id "other" 8081)) None) ltac:(right; right; right; left)
                  _ eq_refl). vm_compute in H. discriminate H. }
  destruct twin_started as [[w p]|] eqn:Et; [|vm_compute in Et; discriminate Et].
  destruct (twin_steps (fun _ => True) w p) as [T HT]; [repeat constructor|done|done|done|].
  assert (match twin_started with
          | Some (w, _) => bool_decide (api_id ∈ live (core w)) && bool_decide (rows (core w) !! api_id = None)
          | None => false
          end = true) as Hb by (vm_compute; reflexivity).
  rewrite Et in Hb. apply andb_true_iff in Hb as [Hl Hr]. apply bool_decide_eq_true in Hl, Hr. exists w, T. exact (conj HT (conj Hl Hr)).
Qed.
