(* ===== verification/BaseEnv.v ===== *)
(** * BaseEnv: the base store keeps what the host service relies on

    The theorems about the host service assume two things of its bases
    ([EnvOK]): a pulled base has a validated configuration, and no base is
    found under the empty reference.  Both hold of every environment whose
    answers are those of the base store of internal/base (BaseStore.v) after
    some history of its operations (BaseHistory.v). *)

From S2P Require Import Prelude GoLib Api Fsutil Oci Fs Base BaseStore BaseHistory DaemonSem DaemonLogic DaemonSafety.
Import Strings.

Section Served.
Context (sha256_hex : string -> string) (trust : gmap string string).
Hypothesis sha_length : forall b, String.length (sha256_hex b) = 64%nat.
Hypothesis sha_digits : forall b, forallb hex_any (String.list_ascii_of_string (sha256_hex b)) = true.
Hypothesis sha_empty : forall b, sha256_hex b = sha256_hex "" -> b = "".
Context (marshal_config : Config -> string) (b64_encode : string -> string)
        (b64_decode : string -> result string) (ed_verify : string -> string -> string -> bool).
Context (marshal_signed : Signed -> string) (marshal : Bundle -> string) (unmarshal : string -> result Bundle).
Context (tokens : string -> list (result token)) (decode_signed : string -> result Signed)
        (nothing_follows : string -> bool) (unmarshal_manifest : string -> result manifest).
Context (parse : string -> result unit).
Hypothesis parse_empty : forall u, parse "" <> Ok u.
(** The registry, with the credentials of the request. *)
Context (remote : Auth -> string -> BaseRemote).

#[local] Notation history := (rtc (store_step sha256_hex trust marshal_config b64_encode b64_decode ed_verify
  marshal_signed marshal unmarshal tokens decode_signed nothing_follows unmarshal_manifest parse)).

(** The bases of [E] are answered by a store that began as [s0]. *)
Record served_by (s0 : FS) (E : Env) : Prop := mkServedBy {
  served_pull : forall n ref policy auth b, e_base_pull E n ref policy auth = Ok b ->
    exists K s s', history s0 s /\
      BaseStore.Pull K sha256_hex trust marshal_config b64_encode b64_decode ed_verify marshal_signed marshal
        unmarshal tokens decode_signed nothing_follows unmarshal_manifest parse (remote auth) ref policy s
      = (Fs.Ret (Ok b), s');
  served_get : forall n ref b, e_base_get E n ref = Ok b ->
    exists K s s', history s0 s /\
      BaseStore.Get K sha256_hex trust marshal_config b64_encode b64_decode ed_verify unmarshal ref s
      = (Fs.Ret (Ok b), s')
}.

Lemma served_env_ok (s0 : FS) (E : Env) :
  fs_files s0 !! BaseStore.record sha256_hex "" = None -> served_by s0 E -> EnvOK E.
Proof.
  intros H0 [Hpull Hget]. split.
  - intros n ref policy auth b (K & s & s' & Hh & HP)%Hpull.
    pose proof (history_unnamed sha256_hex trust sha_length sha_digits sha_empty _ _ _ _ _ _ _ _ _ _ _ _
      parse_empty s0 s Hh H0) as Hs.
    pose proof (Pull_named sha256_hex trust sha_length sha_digits sha_empty marshal_config b64_encode b64_decode
      ed_verify marshal_signed marshal unmarshal tokens decode_signed nothing_follows unmarshal_manifest parse
      parse_empty K (remote auth) ref policy s Hs) as Ht.
    rewrite HP in Ht. destruct Ht as [_ Hv]. by destruct (Verify_published _ _ _ _ _ _ (Hv b eq_refl)).
  - intros n b (K & s & s' & Hh & HG)%Hget.
    pose proof (history_unnamed sha256_hex trust sha_length sha_digits sha_empty _ _ _ _ _ _ _ _ _ _ _ _
      parse_empty s0 s Hh H0) as Hs.
    pose proof (triple_base_Get K sha256_hex trust marshal_config b64_encode b64_decode ed_verify unmarshal
      (fs_files s) "" s eq_refl) as Ht.
    rewrite HG in Ht. destruct Ht as [_ Ht]. destruct (Ht b eq_refl) as ((c & Hc & _) & _). unfold absent in Hs. congruence.
Qed.
End Served.
