(* ===== verification/Workflow.v ===== *)
(** * Workflow: niflhel run from the flags to the running VM

    The composition of the client's commands ([Cli]) with the daemon's request
    handlers ([Daemon.Call]): the requests of a command are served one after the
    other by a daemon that is otherwise idle, and the client goes on with what
    the daemon answered. *)

From S2P Require Import Prelude GoLib Api State Fsutil Oci Base Storage RuntimeSpec Agent CliSession Cli DaemonSem Daemon DaemonLogic DaemonProof DaemonSafety DaemonSeq DaemonRecover.
Import Strings.
Local Open Scope Z_scope.

(** ** What a successful handler has done *)

Section Handlers.
Context (E : Env) (cfg : DaemonConfig) (t : nat).

(** The row of [id] holds [v], up to the time of its last update. *)
Definition stores (id : string) (v : Sandbox) (w : World) : Prop :=
  exists name now, rows (core w) !! id = Some (mkRow name (set_Updated now v)).

Lemma exec_stores {R} (op : Op R) (id : string) (v : Sandbox) (w w' : World) (r : R) :
  stores id v w -> exec E t op w = Some (w', r) -> touches op <> Some id -> stores id v w'.
Proof. intros (n & now & H) Hx Ht. exists n, now. by rewrite (exec_rows _ _ _ _ _ _ _ Hx Ht). Qed.

Lemma create_fail_run (v : Sandbox) (e : error) (w w' : World) (a : Sandbox * option error) :
  run_alone E t (create_fail cfg v e) w = Some (w', a) -> a = (v, Some e).
Proof. intros H. unfold create_fail in H. walk H as w1 r1 H1. walk H as w2 r2 H2. walk H as w3 r3 H3. by injection H as <- <-. Qed.

Lemma start_fail_some (v : Sandbox) (e : error) (w w' : World) (a : Sandbox * option error) :
  run_alone E t (start_fail v e) w = Some (w', a) -> a = (v, Some e).
Proof.
  intros H. unfold start_fail in H. walk H as w1 r1 H1. apply run_bind in H as (w2 & o & _ & H).
  walk H as w3 r3 H3. by injection H as <- <-.
Qed.

(** Step over an operation whose failure ends the handler with an error. *)
Ltac past H :=
  let w := fresh "w" in let r := fresh "r" in let Hx := fresh "Hx" in
  walk H as w r Hx; destruct r as [?|?];
  [|first [by apply create_fail_run in H; simplify_eq | by apply start_fail_some in H; simplify_eq | by injection H]].

Lemma create_disks_run (v v' : Sandbox) (img : Image) (tmp : string) (w w' : World) :
  run_alone E t (create_disks cfg v img tmp) w = Some (w', (v', None)) ->
  v' = set_State "created" v /\ stores (sb_ID v) v' w'.
Proof.
  intros H. unfold create_disks in H. past H. past H. past H.
  walk H as w4 r4 Hx4. apply exec_update in Hx4. destruct r4 as [?|?]; [|by apply create_fail_run in H; simplify_eq].
  injection H as <- <-. split; [done|]. destruct Hx4 as (row & x & _ & [= <-] & Hr). eexists _, _. exact Hr.
Qed.

Lemma create_prepare_run (v v' : Sandbox) (s : Spec) (auth : Auth) (w w' : World) :
  run_alone E t (create_prepare cfg v s auth) w = Some (w', (v', None)) ->
  static v' = static v /\ sb_State v' = "created" /\ stores (sb_ID v) v' w'.
Proof.
  intros H. unfold create_prepare in H. past H. walk H as w1 r1 Hx1. past H. past H.
  destruct (Resolve _ _) as [p|e]; [|by apply create_fail_run in H; simplify_eq].
  walk H as w4 r4 Hx4. past H. apply run_bind in H as (w6 & res & H & Hu). walk Hu as w7 r7 Hx7.
  injection Hu as <- ->. apply create_disks_run in H as [-> Hs]. split; [done|]. split; [done|].
  by eapply exec_stores.
Qed.

(** Programs that change no row. *)
Fixpoint untouching {A} (p : Prog A) : Prop :=
  match p with
  | Ret _ => True
  | Do op k => touches op = None /\ forall r, untouching (k r)
  end.

Lemma untouching_rows {A} (p : Prog A) (w w' : World) (a : A) :
  untouching p -> run_alone E t p w = Some (w', a) -> rows (core w') = rows (core w).
Proof.
  revert w. induction p as [b|R op k IH]; intros w Hp H; [by injection H as <- <-|].
  destruct Hp as [Ht Hk]. walk H as w1 r Hx. rewrite (IH r w1 (Hk r) H). apply map_eq. intros id.
  apply (exec_rows _ _ _ _ _ _ _ Hx). by rewrite Ht.
Qed.

Lemma check_volumes_rows (ms : list Mount) : untouching (check_volumes ms).
Proof. induction ms as [|m ms IH]; [done|]. split; [done|]. by intros [?|?]. Qed.

(** The specification that is stored for a request: with a base and a name. *)
Definition based (s : Spec) : Spec := if bool_decide (s_Base s = "") then set_Base (cfg_DefaultBase cfg) s else s.
Definition named (id : string) (s : Spec) : Spec :=
  if bool_decide (s_Name s = "") then set_Name ("nf-" +:+ take_str 12 id) s else s.

(** A new record: nothing was stored under its identifier before. *)
Record created (s : Spec) (v : Sandbox) (w w' : World) : Prop := mkCreated {
  cr_fresh : rows (core w) !! sb_ID v = None;
  cr_spec : sb_Spec v = named (sb_ID v) (based s);
  cr_state : sb_State v = "created";
  cr_stored : stores (sb_ID v) v w' }.

Lemma exec_create_fresh (v : Sandbox) (w w' : World) :
  exec E t (OCreate v) w = Some (w', Ok tt) -> rows (core w) !! sb_ID v = None.
Proof.
  cbn [exec]. unfold db_call, db_write, State.Create, rows. cbn [core next_tick]. destruct (e_db _ _); [done|].
  destruct (sandboxes (db (core w)) !! sb_ID v) eqn:Er; [|done].
  repeat case_match; simplify_eq; done.
Qed.

Lemma create_locked_run (s : Spec) (auth : Auth) (v : Sandbox) (w w' : World) :
  run_alone E t (create_locked cfg (based s) auth) w = Some (w', (v, None)) -> created s v w w'.
Proof.
  intros H. unfold create_locked in H. walk H as w1 l H1. destruct l as [all|e]; [|done].
  assert (rows (core w1) = rows (core w)) as R1 by (apply map_eq; intros i; by apply (exec_rows _ _ _ _ _ _ i H1)).
  destruct (check_existing _ _); [|done]. apply run_bind in H as (w2 & found & Hf & H).
  pose proof (untouching_rows _ _ _ _ (check_volumes_rows _) Hf) as R2. destruct found as [?|?]; [|done].
  destruct (16000 <? _); [done|]. walk H as w3 id H3. walk H as w4 now H4. walk H as w5 r5 H5.
  destruct r5 as [[]|e]; [|done]. apply exec_create_fresh in H5 as Hfr. cbn [sb_ID] in Hfr.
  pose proof (exec_rows _ _ _ _ _ _ id H3 ltac:(done)) as R3. pose proof (exec_rows _ _ _ _ _ _ id H4 ltac:(done)) as R4.
  apply create_prepare_run in H as (Hs & Hst & Hrow). unfold static in Hs. cbn [sb_ID sb_Spec] in Hs, Hrow.
  injection Hs as Hid _ Hsp _. subst id. split; [congruence|exact Hsp|exact Hst|exact Hrow].
Qed.

Lemma with_lock_run {A} (l : string) (p : Prog A) (w w' : World) (a : A) :
  run_alone E t (with_lock l p) w = Some (w', a) ->
  exists u u', rows (core u) = rows (core w) /\ trace u = trace w /\ rows (core w') = rows (core u') /\ trace w' = trace u' /\
    run_alone E t p u = Some (u', a) /\ exec E t (OLock l) w = Some (u, tt).
Proof.
  intros H. unfold with_lock in H. walk H as u r H1. apply run_bind in H as (u' & b & Hp & H). walk H as u2 r2 H2.
  injection H as <- <-. exists u, u'. destruct r.
  pose proof (exec_trace _ _ _ _ _ _ H1) as T1. pose proof (exec_trace _ _ _ _ _ _ H2) as T2. cbn in T1, T2.
  rewrite app_nil_r in T1, T2. split_and!; try done.
  - apply map_eq. intros i. by apply (exec_rows _ _ _ _ _ _ i H1).
  - apply map_eq. intros i. by apply (exec_rows _ _ _ _ _ _ i H2).
Qed.

(** A creation that succeeds stores one new record with the specification. *)
Lemma Create_run (s : Spec) (auth : Auth) (v : Sandbox) (w w' : World) :
  run_alone E t (Create cfg s auth) w = Some (w', (v, None)) -> created s v w w'.
Proof.
  intros H. unfold Create in H. destruct (Validate s); [|done]. fold (based s) in H.
  destruct (bool_decide (s_Base (based s) = "")); [done|].
  apply with_lock_run in H as (u & u' & R1 & _ & R2 & _ & H & _). apply create_locked_run in H as [H1 H2 H3 H4].
  split; [by rewrite <-R1|done|done|]. destruct H4 as (n & now & H4). exists n, now. by rewrite R2.
Qed.

(** A running sandbox: the record of [id], with the static data [d], says so. *)
Definition runs (id : string) (d : string * string * Spec * Z) (w : World) : Prop :=
  exists row, rows (core w) !! id = Some row /\ static (r_body row) = d /\ sb_State (r_body row) = "running".

Definition boot_calls (v : Sandbox) : list call :=
  let id := sb_ID v in [CNetPrepare id true; CVMStart id true; CGuest id (start_request v) true].

(** Booting: the two updates of the record leave its static data alone. *)
Lemma start_boot_run (v v' : Sandbox) (b : Bundle) (w w' : World) (row : Row) :
  rows (core w) !! sb_ID v = Some row -> sb_State (r_body row) = "starting" ->
  run_alone E t (start_boot v b) w = Some (w', (v', None)) ->
  static v' = static v /\ runs (sb_ID v) (static (r_body row)) w' /\ trace w' = trace w ++ boot_calls v'.
Proof.
  intros Hr Hst H. apply at_row_start in Hr. unfold start_boot in H.
  pass H as w1 r1 from Hr. pass H as w2 r2 from Hr. destruct r2 as [[]|e]; [|by apply start_fail_some in H].
  pass H as w3 r3 from Hr. destruct r3 as [[]|e]; [|by apply start_fail_some in H].
  apply run_bind in H as (w4 & dns & Hb & H).
  assert (at_row (sb_ID v) row w [CNetPrepare (sb_ID v) true] w4) as Hr4.
  { destruct (bool_decide _); [|by injection Hb as <- <-]. walk Hb as u x Hy. injection Hb as <- <-.
    by eapply exec_at_row in Hy; [|exact Hr|done]. }
  clear Hr Hb. rename Hr4 into Hr. destruct dns as [[]|e]; [|by apply start_fail_some in H].
  pass H as w5 r5 from Hr. pass H as w6 r6 from Hr.
  destruct r6 as [[pid st] [e|]]; cbn [snd] in H; [by apply start_fail_some in H|].
  walk H as w7 r7 Hx7. destruct r7 as [[]|e]; [|by apply start_fail_some in H].
  pose proof (exec_trace _ _ _ _ _ _ Hx7) as T7. apply exec_update in Hx7 as (row7 & x7 & Hr7 & [= <-] & Hn7).
  assert (row7 = row) as -> by exact (inj Some _ _ (eq_trans (eq_sym Hr7) (proj1 Hr))).
  cbn [calls] in T7. rewrite app_nil_r, (proj2 Hr) in T7. pose proof (conj Hn7 T7 : at_row _ _ w _ w7) as Hat.
  clear Hr. rename Hat into Hr. pass H as w8 r8 from Hr. destruct r8 as [[]|e]; [|by apply start_fail_some in H].
  pass H as w9 r9 from Hr. destruct r9 as [[]|e]; [|by apply start_fail_some in H].
  walk H as wa ra Hxa. destruct ra as [[]|e]; [|by apply start_fail_some in H].
  pose proof (exec_trace _ _ _ _ _ _ Hxa) as Ta. apply exec_update in Hxa as (rowa & ya & Hra & Hya & Hna).
  destruct Hr as [Hr T9]. assert (rowa = mkRow (r_name row) (set_Updated (e_now E (tick w6)) (set_PIDStart st (set_PID pid (r_body row))))) as ->
    by exact (inj Some _ _ (eq_trans (eq_sym Hra) Hr)).
  unfold Transition in Hya. cbn [r_body set_Updated set_PIDStart set_PID sb_State] in Hya. rewrite Hst in Hya.
  cbn in Hya. injection Hya as <-. walk H as wb rb Hxb. injection H as <- <-. split; [done|]. split.
  - eexists. split; [by rewrite (exec_rows _ _ _ _ _ _ _ Hxb); [exact Hna|]|]. done.
  - apply exec_trace in Hxb. cbn in *. by rewrite Hxb, Ta, T9, !app_nil_r.
Qed.

(** Reading a record by its identifier. *)
Lemma exec_get_row (id : string) (row : Row) (w w' : World) (v : Sandbox) :
  keyed (rows (core w)) -> names_not_ids (rows (core w)) -> rows (core w) !! id = Some row ->
  exec E t (OGet id) w = Some (w', Ok v) -> v = r_body row /\ rows (core w') = rows (core w) /\ trace w' = trace w.
Proof.
  intros Hk Hn Hr H. pose proof (exec_trace _ _ _ _ _ _ H) as T. cbn [calls] in T. rewrite app_nil_r in T.
  split; [|split; [apply map_eq; intros i; by apply (exec_rows _ _ _ _ _ _ i H)|done]].
  cbn [exec] in H. unfold db_call, db_read in H. destruct (e_db _ _); [done|]. cbn [core next_tick] in H.
  rewrite (Get_id _ _ Hk Hn (proj1 (Hn _ _ Hr))) in H. unfold rows in Hr. rewrite Hr in H. by injection H.
Qed.

Lemma quiet_rows {R} (op : Op R) (w w' : World) (r : R) :
  touches op = None -> calls op r = [] -> exec E t op w = Some (w', r) -> rows (core w') = rows (core w) /\ trace w' = trace w.
Proof.
  intros Ht Hc H. split.
  - apply map_eq. intros i. apply (exec_rows _ _ _ _ _ _ i H). by rewrite Ht.
  - by rewrite (exec_trace _ _ _ _ _ _ H), Hc, app_nil_r.
Qed.

(** An admission that succeeds has stored the record as "starting". *)
Lemma start_admit_run (v v' : Sandbox) (w w' : World) :
  run_alone E t (start_admit v) w = Some (w', (v', None)) ->
  static v' = static v /\ sb_State v' = "starting" /\ stores (sb_ID v) v' w' /\ trace w' = trace w.
Proof.
  intros H. unfold start_admit in H. apply with_lock_run in H as (u & u' & _ & T1 & R2 & T2 & H & _).
  walk H as w1 l H1. destruct l as [all|e]; [|done]. destruct (start_conflict v all); [done|].
  apply (quiet_rows OList) in H1 as [_ Q1]; [|done|done]. unfold availableMemory in H. cbn [bind] in H.
  walk H as w2 m H2. apply (quiet_rows OMeminfo) in H2 as [_ Q2]; [|done|done].
  destruct m as [text|e]; cbn [bind] in H; [|done]. destruct (result_bind _ _); [|done].
  walk H as w3 r H3. injection H as <- <- Hr. destruct r as [[]|e]; [|done].
  pose proof (exec_trace _ _ _ _ _ _ H3) as T3. cbn [calls] in T3. rewrite app_nil_r in T3.
  apply exec_update in H3 as (row & x & _ & [= <-] & Hn). split_and!; [done|done| |congruence].
  eexists _, _. rewrite R2. exact Hn.
Qed.

Lemma start_locked_run (id : string) (row : Row) (v : Sandbox) (w w' : World) :
  keyed (rows (core w)) -> names_not_ids (rows (core w)) -> rows (core w) !! id = Some row ->
  run_alone E t (start_locked id) w = Some (w', (v, None)) ->
  static v = static (r_body row) /\ runs id (static (r_body row)) w' /\ trace w' = trace w ++ boot_calls v.
Proof.
  intros Hk Hn Hr H. unfold start_locked in H. walk H as w1 r1 H1. destruct r1 as [v1|e]; [|done].
  apply (exec_get_row id row) in H1 as (-> & R1 & T1); [|done..]. destruct (_ && _); [done|].
  walk H as w2 r2 H2. destruct r2 as [[]|e]; [|done]. apply (quiet_rows OVMCheck) in H2 as [R2 T2]; [|done..].
  walk H as w3 r3 H3. destruct r3 as [b|e]; [|done]. apply (quiet_rows (OBaseGet _)) in H3 as [R3 T3]; [|done..].
  apply run_bind in H as (w4 & a & Ha & H). destruct a as [v4 [e|]]; cbn [fst snd] in H; [done|].
  apply start_admit_run in Ha as (S4 & St4 & (n & now & Hs4) & T4).
  assert (sb_ID v4 = id) as Hid.
  { injection S4 as -> _ _ _. by apply Hk in Hr as [-> _]. }
  assert (sb_ID (r_body row) = id) as Hid' by (by apply Hk in Hr as [-> _]). rewrite Hid' in Hs4.
  apply (start_boot_run v4 v b w4 w' (mkRow n (set_Updated now v4))) in H as (Sv & Hruns & T5);
    [|by rewrite Hid|done].
  cbn [r_body] in Hruns. change (static (set_Updated now v4)) with (static v4) in Hruns. rewrite S4, Hid in Hruns.
  split_and!; [congruence|done|congruence].
Qed.

(** A start that succeeds leaves the sandbox running, having prepared the network,
    started the VMM and started the workload. *)
Lemma Start_run (id : string) (row : Row) (v : Sandbox) (w w' : World) :
  keyed (rows (core w)) -> names_not_ids (rows (core w)) -> rows (core w) !! id = Some row ->
  run_alone E t (Start id) w = Some (w', (v, None)) ->
  static v = static (r_body row) /\ runs id (static (r_body row)) w' /\ trace w' = trace w ++ boot_calls v.
Proof.
  intros Hk Hn Hr H. unfold Start in H. walk H as w1 r1 H1. destruct r1 as [v1|e]; [|done].
  apply (exec_get_row id row) in H1 as (-> & R1 & T1); [|done..].
  assert (sb_ID (r_body row) = id) as Hid by (by apply Hk in Hr as [-> _]). rewrite Hid in H.
  apply with_lock_run in H as (u & u' & R2 & T2 & R3 & T3 & H & _).
  apply (start_locked_run id row) in H as (Sv & (r & Hr' & Hrest) & T4); [|by rewrite R2, R1..].
  split_and!; [done| |congruence]. exists r. by rewrite R3.
Qed.

(** Programs that delete no record. *)
Fixpoint undeleting {A} (p : Prog A) : Prop :=
  match p with
  | Ret _ => True
  | Do op k => deletes op = None /\ forall r, undeleting (k r)
  end.

Lemma undeleting_bind {A B} (p : Prog A) (f : A -> Prog B) : undeleting p -> (forall a, undeleting (f a)) -> undeleting (bind p f).
Proof. induction p as [a|R op k IH]; simpl; [auto|]. intros [? ?] ?. auto. Qed.

Lemma undeleting_keeps {A} (p : Prog A) (w w' : World) (a : A) (id : string) :
  undeleting p -> run_alone E t p w = Some (w', a) -> is_Some (rows (core w) !! id) -> is_Some (rows (core w') !! id).
Proof.
  revert w. induction p as [b|R op k IH]; intros w Hp H Hs; [by injection H as <- <-|].
  destruct Hp as [Hd Hk]. walk H as w1 r Hx. apply (IH r w1 (Hk r) H). eapply exec_keeps; [exact Hs|exact Hx|by rewrite Hd].
Qed.

Ltac undeleting_tac :=
  repeat first
    [ exact I
    | assumption
    | apply undeleting_bind; [|intros ?]
    | split; [reflexivity|intros ?]
    | solve [auto]
    | match goal with |- undeleting (match ?x with _ => _ end) => destruct x end
    | progress cbn beta iota zeta delta [undeleting] ].

Lemma Start_keeps (id : string) : undeleting (Start id).
Proof.
  assert (forall v e, undeleting (start_fail v e)) as Hf by (intros; unfold start_fail; undeleting_tac).
  assert (forall v b, undeleting (start_boot v b)) as Hb by (intros; unfold start_boot; undeleting_tac).
  assert (forall v, undeleting (start_admit v)) as Ha.
  { intros v. unfold start_admit, with_lock, availableMemory. undeleting_tac. }
  unfold Start, with_lock, start_locked. undeleting_tac.
Qed.
End Handlers.

(** ** The client and the daemon *)

Section Workflow.
Context (E : Env) (HE : EnvOK E) (cfg : DaemonConfig) (t : nat) (polls : nat).
Context (decode_auth : string -> result Auth) (decode_cursor : string -> result Z).
Context (fold : string -> string) (auth : string -> string -> string) (open : string -> result (string * option error)).
Context (text : Reply -> string).  (* the JSON text of an answer that is only printed *)

(** What the client decodes of an answer: the value, or the text of the error. *)
Definition answer (r : result Reply) : result Cli.reply :=
  match r with
  | Err e => Err (Errorf (error_text e))
  | Ok RNone => Ok Cli.RNone
  | Ok (RInfo base _) => Ok (Cli.RInfo base)
  | Ok (RSandbox v) => Ok (Cli.RSandbox v)
  | Ok (RSandboxes l) => Ok (Cli.RSandboxes l)
  | Ok (RExit x) => Ok (Cli.RExit x)
  | Ok (RVolume v) => Ok (Cli.RVolume v)
  | Ok r => Ok (Cli.RText (text r))
  end.

Definition serves (q : Request) : Prog (result Reply) := Call cfg decode_auth decode_cursor q polls.

(** The requests [qs], from number [n] on, are served one after the other, and
    the client gets the answers [call]. *)
Fixpoint served (call : nat -> Request -> result Cli.reply) (n : nat) (qs : list Request) (w w' : World) : Prop :=
  match qs with
  | [] => w' = w
  | q :: qs => exists w1 r, run_alone E t (serves q) w = Some (w1, r) /\ call n q = answer r /\ served call (S n) qs w1 w'
  end.

Lemma serves_returns (q : Request) (w : World) :
  named_apart q -> starts w -> exists w' r, run_alone E t (serves q) w = Some (w', r) /\ starts w'.
Proof.
  intros Hq Hs. pose proof Hs as [HI Hl].
  assert (ok E t (owns t ∅) (serves q) (fun _ => owns t ∅)) as Hok by (apply (entry_ok E cfg decode_auth decode_cursor HE); by constructor).
  destruct (ok_returns E t (serves q) _ _ w Hok HI (unlocked_owns t w Hl)) as (w' & a & H); [by rewrite Hl|].
  exists w', a. split; [done|]. by apply (ok_starts E t (serves q) w w' a).
Qed.

Lemma serves_starts (q : Request) (w w' : World) (r : result Reply) :
  named_apart q -> starts w -> run_alone E t (serves q) w = Some (w', r) -> starts w'.
Proof. intros Hq Hs H. destruct (serves_returns q w Hq Hs) as (w1 & r1 & H1 & H2). rewrite H in H1. by injection H1 as <- <-. Qed.

Lemma sandbox_answer (r : result Reply) (v : Sandbox) : Cli.sandbox_of (answer r) = Ok v -> r = Ok (RSandbox v).
Proof. destruct r as [[]|]; cbn; try done. by intros [= ->]. Qed.

(** ** The requests of a run *)

Lemma serve_info (w w' : World) (r : result Reply) :
  run_alone E t (serves (Cli.request "info" "")) w = Some (w', r) -> w' = w /\ r = Ok (RInfo (cfg_DefaultBase cfg) (cfg_Root cfg)).
Proof. by intros [= <- <-]. Qed.

Lemma serve_create (s : Spec) (v : Sandbox) (w w' : World) :
  run_alone E t (serves (Cli.create_request auth s)) w = Some (w', Ok (RSandbox v)) -> created cfg s v w w'.
Proof.
  unfold serves, Call. destruct (request_auth _ _) as [au|e]; [|done]. cbn [q_Action q_Spec Cli.create_request].
  change (bool_decide ("create" = "version")) with false. change (bool_decide ("create" = "info")) with false.
  change (bool_decide ("create" = "create")) with true. cbn iota. intros H.
  apply run_bind in H as (w1 & a & H & Hr). destruct a as [x [e|]]; [discriminate Hr|].
  injection Hr as <- ->. by eapply Create_run.
Qed.

Lemma serve_start (id : string) (w w' : World) (r : result Reply) :
  run_alone E t (serves (Cli.request "start" id)) w = Some (w', r) ->
  exists a, run_alone E t (Start id) w = Some (w', a) /\ r = reply_sandbox a.
Proof.
  unfold serves, Call, request_auth. cbn [q_Action q_Data Cli.request]. rewrite bool_decide_eq_true_2 by done. cbn [negb andb].
  change (bool_decide ("start" = "version")) with false. change (bool_decide ("start" = "info")) with false.
  change (bool_decide ("start" = "create")) with false. change (bool_decide ("start" = "start")) with true. cbn iota. intros H.
  apply run_bind in H as (w1 & a & H & Hr). injection Hr as <- <-. by exists a.
Qed.

Lemma run_trace {A} (p : Prog A) (w w' : World) (a : A) :
  run_alone E t p w = Some (w', a) -> exists pre, trace w' = trace w ++ pre.
Proof.
  revert w. induction p as [b|R op k IH]; intros w H.
  - injection H as <- <-. exists []. by rewrite app_nil_r.
  - walk H as w1 r Hx. apply IH in H as [pre ->]. rewrite (exec_trace _ _ _ _ _ _ Hx). exists (calls op r ++ pre). by rewrite app_assoc.
Qed.

(** ** What a run of the client leaves *)

(** A new sandbox was made from the specification [s]: nothing was stored under its
    identifier before, its record holds [s] with the default base and name filled
    in, and unless it was only created it runs, after network, VMM and workload
    were started in this order. *)
Record launched (create : bool) (s : Spec) (v : Sandbox) (w w' : World) : Prop := mkLaunched {
  la_fresh : rows (core w) !! sb_ID v = None;
  la_spec : sb_Spec v = named (sb_ID v) (based cfg s);
  la_stored : exists row, rows (core w') !! sb_ID v = Some row /\ static (r_body row) = static v /\
    sb_State (r_body row) = if create then "created" else "running";
  la_calls : create = false -> exists pre, trace w' = trace w ++ pre ++ boot_calls v }.

(** A sandbox that was created but not started: it is still stored. *)
Definition retained (s : Spec) (v : Sandbox) (e : error) (w w' : World) : Prop :=
  rows (core w) !! sb_ID v = None /\ sb_Spec v = named (sb_ID v) (based cfg s) /\ is_Some (rows (core w') !! sb_ID v) /\
  exists cause, e = Errorf (cause +:+ " (inspect/remove retained container " +:+ sb_ID v +:+ ")").

(** How [run] and [create] end: with the new sandbox printed or attached to, with an
    error before anything was sent, with an error that names the sandbox that was
    retained, or with the daemon's refusal to create one. *)
Definition run_ends (create detach : bool) (spec : result Spec) (R : Cli.run_of) (w w' : World) : Prop :=
  match Cli.ru_end R with
  | Cli.Ended None => (create || detach) = true /\ exists s v, spec = Ok s /\ launched create s v w w' /\
      s_out (Cli.ru_screen R) = sb_ID v +:+ newline
  | Cli.Attach v interactive tty => (create || detach) = false /\ exists s, spec = Ok s /\ launched false s v w w' /\
      interactive = s_Interactive s /\ tty = s_TTY s /\ s_out (Cli.ru_screen R) = ""
  | Cli.Ended (Some (Failed e)) => s_out (Cli.ru_screen R) = "" /\
      (spec = Err e /\ Cli.ru_calls R = [] /\ w' = w \/
       exists s, spec = Ok s /\ ((exists v, create = false /\ retained s v e w w') \/
                                last (q_Action <$> Cli.ru_calls R) = Some "create"))
  | _ => False
  end.

Lemma based_twice (s : Spec) :
  based cfg (if bool_decide (s_Base s = "") then set_Base (cfg_DefaultBase cfg) s else s) = based cfg s.
Proof.
  unfold based. destruct (decide (s_Base s = "")) as [Eb|Eb]; [|by rewrite !(bool_decide_eq_false_2 (s_Base s = "")) by done].
  rewrite !(bool_decide_eq_true_2 (s_Base s = "")) by done. by destruct (bool_decide _).
Qed.

Lemma based_same (s s' : Spec) (id : string) :
  based cfg s = based cfg s' -> s_TTY (named id (based cfg s)) = s_TTY s' /\ s_Interactive (named id (based cfg s)) = s_Interactive s'.
Proof. intros ->. unfold named, based. by repeat case_bool_decide. Qed.

(** From the specification on: the request [create], and unless only that was
    asked for, [start]. *)
Lemma run_spec_ends (call : nat -> Request -> result Cli.reply) (create detach : bool) (n : nat) (pre : list Request)
    (s s' : Spec) (w w' : World) :
  let R := Cli.run_spec call auth create detach n pre s' in
  starts w -> is_id (s_Name s') = false -> based cfg s' = based cfg s -> s_Interactive s' = s_Interactive s ->
  (exists qs, Cli.ru_calls R = pre ++ qs /\ served call n qs w w') ->
  starts w' /\ run_ends create detach (Ok s) R w w'.
Proof.
  intros R Hw Hn Hb Hi (qs & Hc & Hs). unfold R, Cli.run_spec, run_ends in *. clear R.
  assert (named_apart (Cli.create_request auth s')) as Hap by (by intros ? [= <-]).
  destruct (Cli.sandbox_of (call n (Cli.create_request auth s'))) as [v|e] eqn:Ec; cbn in Hc |- *.
  2:{ apply app_inv_head in Hc as <-. destruct Hs as (w1 & r & Hr & _ & ->). split; [by eapply serves_starts; [| |exact Hr]|].
      split; [done|]. right. exists s. split; [done|]. right. rewrite fmap_app. apply last_snoc. }
  destruct create; cbn in Hc |- *.
  { apply app_inv_head in Hc as <-. destruct Hs as (w1 & r & Hr & Ha & ->). split; [by eapply serves_starts; [| |exact Hr]|].
    split; [done|]. exists s, v. rewrite Ha in Ec. apply sandbox_answer in Ec as ->.
    apply serve_create in Hr as [H1 H2 H3 (nm & now & H4)]. split_and!; [done| |done].
    split; [done|by rewrite H2, Hb| |done]. eexists. split; [exact H4|]. done. }
  assert (named_apart (Cli.request "start" (sb_ID v))) as Hap2 by done.
  destruct (Cli.sandbox_of (call (S n) (Cli.request "start" (sb_ID v)))) as [v'|e] eqn:Es; cbn in Hc |- *.
  2:{ apply app_inv_head in Hc as <-. destruct Hs as (w1 & r & Hr & Ha & w2 & r2 & Hr2 & Ha2 & ->).
      assert (starts w1) as Hw1 by (by eapply serves_starts; [| |exact Hr]). split; [by eapply serves_starts; [| |exact Hr2]|]. split; [done|]. right.
      exists s. split; [done|]. left. exists v. split; [done|]. rewrite Ha in Ec. apply sandbox_answer in Ec as ->.
      apply serve_create in Hr as [H1 H2 H3 (nm & now & H4)]. apply serve_start in Hr2 as (a & Hr2 & _).
      split_and!; [done|by rewrite H2, Hb|by eapply undeleting_keeps; [apply Start_keeps|exact Hr2|rewrite H4]|by eexists]. }
  assert (qs = [Cli.create_request auth s'; Cli.request "start" (sb_ID v)]) as ->.
  { destruct detach; cbn in Hc; by apply app_inv_head in Hc. }
  destruct Hs as (w1 & r & Hr & Ha & w2 & r2 & Hr2 & Ha2 & ->).
  assert (starts w1) as Hw1 by (by eapply serves_starts; [| |exact Hr]). split; [by eapply serves_starts; [| |exact Hr2]|].
  rewrite Ha in Ec. apply sandbox_answer in Ec as ->. apply run_trace in Hr as Ht.
  apply serve_create in Hr as [H1 H2 H3 (nm & now & H4)]. rewrite Ha2 in Es. apply sandbox_answer in Es as ->.
  apply serve_start in Hr2 as ([x [e|]] & Hr2 & [= ->]). destruct Hw1 as [HI1 _].
  apply (Start_run E t _ _ _ _ _ (inv_keyed _ HI1) (inv_names _ HI1) H4) in Hr2 as (S1 & (row & R1 & R2 & R3) & T1).
  change (static x = static v) in S1. assert (sb_ID x = sb_ID v) as Hid by (by injection S1).
  assert (launched false s x w w2) as HL.
  { split; rewrite ?Hid; [done|injection S1 as _ _ -> _; by rewrite H2, Hb| |].
    - exists row. split_and!; [done|by rewrite R2, S1|done].
    - intros _. destruct Ht as [p Ht]. exists p. by rewrite T1, Ht, app_assoc. }
  destruct detach; cbn; (split; [done|]).
  - by exists s, x.
  - exists s. split_and!; [done|done|done| |done]. rewrite (la_spec _ _ _ _ _ HL). by apply based_same.
Qed.

(** The two requests find answers. *)
Lemma run_spec_served (create detach : bool) (n : nat) (pre : list Request) (s : Spec) (w : World) :
  starts w -> is_id (s_Name s) = false ->
  exists c1 c2 w', forall call, (forall q, call n q = c1) -> (forall q, call (S n) q = c2) ->
    exists qs, Cli.ru_calls (Cli.run_spec call auth create detach n pre s) = pre ++ qs /\ served call n qs w w'.
Proof.
  intros Hw Hn. assert (named_apart (Cli.create_request auth s)) as Hap by (by intros ? [= <-]).
  destruct (serves_returns _ w Hap Hw) as (w1 & r1 & H1 & Hw1). exists (answer r1).
  destruct (Cli.sandbox_of (answer r1)) as [v|e] eqn:Ev.
  2:{ exists (answer r1), w1. intros call H2 _. exists [Cli.create_request auth s]. unfold Cli.run_spec. rewrite H2, Ev.
      split; [done|]. by exists w1, r1. }
  destruct create.
  { exists (answer r1), w1. intros call H2 _. exists [Cli.create_request auth s]. unfold Cli.run_spec. rewrite H2, Ev.
    split; [done|]. by exists w1, r1. }
  destruct (serves_returns (Cli.request "start" (sb_ID v)) w1) as (w2 & r2 & H2 & Hw2); [done|done|].
  exists (answer r2), w2. intros call Hc1 Hc2. exists [Cli.create_request auth s; Cli.request "start" (sb_ID v)].
  unfold Cli.run_spec. rewrite Hc1, Ev, Hc2. split; [by destruct (Cli.sandbox_of (answer r2)), detach|].
  exists w1, r1. split_and!; [done|done|]. by exists w2, r2.
Qed.

Lemma assemble_name (fl : Cli.Flags) (image : string) (command : list string) (s : Spec) :
  Cli.assemble fold open fl image command = Ok s -> s_Name s = s_Name (Cli.f_spec fl).
Proof.
  unfold Cli.assemble. destruct (Api.Size fold (Cli.f_memory fl)) as [m|]; [|done]. cbn [result_bind].
  destruct (Api.Size fold (Cli.f_disk fl)) as [d|]; [|done]. cbn [result_bind].
  destruct (Cli.map_ok ParsePort _) as [ps|]; [|done]. cbn [result_bind].
  destruct (Cli.map_ok ParseMount _) as [ms|]; [|done]. cbn [result_bind].
  destruct (Cli.map_ok _ (Cli.f_envFiles fl)) as [fs|]; [|done]. cbn [result_bind].
  destruct (Validate _) as [u|]; [|done]. by intros [= <-].
Qed.

Lemma run_spec_calls (call : nat -> Request -> result Cli.reply) (create detach : bool) (n : nat) (pre : list Request) (s : Spec) :
  exists qs, Cli.ru_calls (Cli.run_spec call auth create detach n pre s) = pre ++ qs.
Proof.
  unfold Cli.run_spec. destruct (Cli.sandbox_of _) as [v|]; [|by eexists]. destruct create; [by eexists|].
  destruct (Cli.sandbox_of _) as [v'|]; [|by eexists]. destruct detach; by eexists.
Qed.

(** C34. niflhel run from the flags to the running VM, for a --name that is not 32
    hexadecimal digits (the code accepts such a name, and names and identifiers can
    then no longer be told apart).  On an idle service every request of [run] and [create] is answered, and the service is idle and
    satisfies its invariants again.  Whatever failed in the daemon, the client
    prints an identifier or attaches only when a new sandbox is stored that holds
    exactly what the flags say (with the default base and name filled in) and, for
    [run], has its network, VMM and workload started; when a flag is wrong nothing is
    sent; and when the start fails after the creation, the message names the
    sandbox, which is still stored. *)
Theorem run_end_to_end (create : bool) (fl : Cli.Flags) (image : string) (command : list string) (w : World) :
  starts w -> is_id (s_Name (Cli.f_spec fl)) = false ->
  (exists call w', served call 0 (Cli.ru_calls (Cli.run fold call auth create open fl image command)) w w') /\
  (forall call w', served call 0 (Cli.ru_calls (Cli.run fold call auth create open fl image command)) w w' ->
     starts w' /\ run_ends create (Cli.f_detach fl) (Cli.assemble fold open fl image command)
                    (Cli.run fold call auth create open fl image command) w w').
Proof.
  intros Hw Hn. unfold Cli.run. destruct (Cli.assemble fold open fl image command) as [s|e] eqn:Ea.
  2:{ split; [by exists (fun _ _ => Err e), w|]. intros call w' ->. split; [done|]. split; [done|]. by left. }
  pose proof (assemble_name fl image command s Ea) as Hs. destruct (bool_decide (s_Base s = "")) eqn:Eb.
  - split.
    + destruct (run_spec_served create (Cli.f_detach fl) 1 [Cli.request "info" ""] (set_Base (cfg_DefaultBase cfg) s) w Hw)
        as (c1 & c2 & w' & H); [by rewrite <-Hs in Hn|].
      set (call := fun (n : nat) (_ : Request) => match n with 0%nat => Ok (Cli.RInfo (cfg_DefaultBase cfg)) | 1%nat => c1 | _ => c2 end).
      destruct (H call (fun _ => eq_refl) (fun _ => eq_refl)) as (qs & Hq & Hsv).
      exists call, w'. unfold call at 2. rewrite Hq. exists w, (Ok (RInfo (cfg_DefaultBase cfg) (cfg_Root cfg))). done.
    + intros call w'. destruct (call 0%nat (Cli.request "info" "")) as [rp|e] eqn:Ei.
      2:{ intros (w1 & r & Hr & Ha & _). apply serve_info in Hr as [_ ->]. by rewrite Ei in Ha. }
      destruct rp as [| | | | |b|]; try (by intros (w1 & r & Hr & Ha & _); apply serve_info in Hr as [_ ->]; rewrite Ei in Ha).
      destruct (run_spec_calls call create (Cli.f_detach fl) 1 [Cli.request "info" ""] (set_Base b s)) as [qs Hq].
      rewrite Hq. intros (w1 & r & Hr & Ha & Hsv). apply serve_info in Hr as [-> ->]. rewrite Ei in Ha. injection Ha as ->.
      apply (run_spec_ends _ _ _ _ _ s); [done|by rewrite <-Hs in Hn| |done|by exists qs].
      pose proof (based_twice s) as Ht. by rewrite Eb in Ht.
  - rewrite <-Hs in Hn. split.
    + destruct (run_spec_served create (Cli.f_detach fl) 0 [] s w Hw Hn) as (c1 & c2 & w' & H).
      set (call := fun (n : nat) (_ : Request) => match n with 0%nat => c1 | _ => c2 end).
      destruct (H call (fun _ => eq_refl) (fun _ => eq_refl)) as (qs & Hq & Hsv). exists call, w'. by rewrite Hq.
    + intros call w' Hsv. apply (run_spec_ends _ _ _ _ _ s); [done|done|done|done|]. by eexists.
Qed.
End Workflow.

(** A run that succeeds, for the witness: one sandbox without flags. *)
Module WorkflowSample.
Definition fold (s : string) : string := s.
Definition auth (_ _ : string) : string := "".
Definition open (_ : string) : result (string * option error) := Err ErrNotFound.
Definition text (_ : Reply) : string := "".
Definition flags : Cli.Flags := Cli.mkFlags DefaultSpec true "512m" "4g" None [] [] [] [].
Definition no_payload (_ : string) : result Auth := Ok no_auth.
Definition no_cursor (_ : string) : result Z := Ok 0.

(** The daemon after [n] requests of the client, and what it answered last. *)
Definition turn (q : Request) (w : World) : World * result Reply :=
  default (w, Err ErrNotFound) (run_alone sample_env 1 (serves sample_config 3 no_payload no_cursor q) w).
Definition spec : Spec := default zero_spec (match Cli.assemble fold open flags "app" [] with Ok s => Some s | Err _ => None end).
Definition made : World * result Reply := turn (Cli.create_request auth (set_Base "base" spec)) empty_world.
Definition id : string := match made.2 with Ok (RSandbox v) => sb_ID v | _ => "" end.
Definition done : World * result Reply := turn (Cli.request "start" id) made.1.
Definition call (n : nat) (_ : Request) : result Cli.reply :=
  match n with 0%nat => Ok (Cli.RInfo "base") | 1%nat => answer text made.2 | _ => answer text done.2 end.
Definition result : Cli.run_of := Cli.run fold call auth false open flags "app" [].
End WorkflowSample.

Lemma inj_newline (a b : string) : a +:+ newline = b +:+ newline -> a = b.
Proof. intros H. apply (f_equal (fun s => TrimSuffix s newline)) in H. by rewrite !TrimSuffix_app in H. Qed.

Lemma run_end_to_end_witness :
  exists s v, launched sample_config false s v empty_world WorkflowSample.done.1 /\ sb_ID v = WorkflowSample.id /\
    s_Memory s = 512 * MiB.
Proof.
  destruct (run_end_to_end sample_env sample_env_ok sample_config 1 3 WorkflowSample.no_payload WorkflowSample.no_cursor
    WorkflowSample.fold WorkflowSample.auth WorkflowSample.open WorkflowSample.text false WorkflowSample.flags "app" []
    empty_world empty_starts eq_refl) as [_ H].
  fold WorkflowSample.result in H.
  destruct (H WorkflowSample.call WorkflowSample.done.1) as [_ Hr].
  - assert (Cli.ru_calls (Cli.run WorkflowSample.fold WorkflowSample.call WorkflowSample.auth false WorkflowSample.open
      WorkflowSample.flags "app" []) =
      [Cli.request "info" ""; Cli.create_request WorkflowSample.auth (set_Base "base" WorkflowSample.spec);
       Cli.request "start" WorkflowSample.id]) as -> by (vm_compute; reflexivity).
    exists empty_world, (Ok (RInfo "base" "/var/lib/niflhel")). split; [reflexivity|]. split; [reflexivity|].
    exists WorkflowSample.made.1, WorkflowSample.made.2. split; [vm_compute; reflexivity|]. split; [reflexivity|].
    exists WorkflowSample.done.1, WorkflowSample.done.2. split; [vm_compute; reflexivity|]. split; reflexivity.
  - unfold run_ends in Hr. fold WorkflowSample.result in Hr.
    assert (Cli.ru_end WorkflowSample.result = Cli.Ended None) as He by (vm_compute; reflexivity).
    rewrite He in Hr. destruct Hr as (_ & s & v & Hs & HL & Ho). exists s, v. split; [exact HL|]. split.
    + assert (s_out (Cli.ru_screen WorkflowSample.result) = WorkflowSample.id +:+ newline) as Hi by (vm_compute; reflexivity).
      rewrite Hi in Ho. symmetry. exact (inj_newline _ _ Ho).
    + assert (Cli.assemble WorkflowSample.fold WorkflowSample.open WorkflowSample.flags "app" [] = Ok WorkflowSample.spec)
        as Hp by (vm_compute; reflexivity).
      rewrite Hp in Hs. injection Hs as <-. vm_compute. reflexivity.
Defined.
