(* ===== verification/Protocol.v ===== *)
(** * Protocol: the command tree of the client and the three dispatchers

    [New] of internal/cli/root.go builds the tree of commands; every command is a
    handler of [Cli], [CliLogs], [CliBuild] or [CliSession] over the options that
    the command line library has parsed.  The requests of the client are
    dispatched by [Daemon.Call] and [Daemon.Session], and those of the daemon by
    [Agent.Call] and [Agent.Session] in the guest.  The theorems show that the
    three processes agree on the requests and on the answers. *)

From S2P Require Import Prelude GoLib Api State Fsutil Oci Base Storage RuntimeSpec Journal Agent CliSession Cli CliLogs Sessions AgentExec CliBuild DaemonSem Daemon DaemonSafety DaemonSeq Workflow.
Import Strings.
Local Open Scope Z_scope.

(** ** The command tree *)

(** [api.Version] *)
Definition Version : string := "0.1.0".

(** [cobra.ExactArgs] and [cobra.MinimumNArgs]; [cobra.NoArgs] is [ExactArgs 0]. *)
Inductive arity : Type := ExactArgs (n : nat) | MinimumNArgs (n : nat).
Definition accepts (a : arity) (args : list string) : bool :=
  match a with
  | ExactArgs n => (length args =? n)%nat
  | MinimumNArgs n => (n <=? length args)%nat
  end.

(** The values of all flags, as the library parsed them. *)
Record Options : Type := mkOptions {
  o_run : Cli.Flags; o_life : Cli.LifeFlags; o_exec : Exec;
  o_all : bool; o_quiet : bool; o_format : string; o_size : string; o_tag : string; o_build : BuildFlags }.

(** The defaults of the flags. *)
Definition default_options : Options :=
  mkOptions Cli.default_flags Cli.life_defaults (mkExec "" [] [] "" "" false false) false false "" "4g" ""
    (mkBuildFlags "" "Dockerfile" "" "base.yaml" "" "" "" "" []).

(** The requests of [logs] in one round of its loop, of [cp], of a build and of an
    attached [run], as the handlers send them. *)
Definition logs_request (cursor_json : Z -> string) (id : string) (cursor : Z) : Request :=
  mkRequest "logs" id "" None None None "" "" false "" 0 "" (cursor_json cursor).
Definition copy_request (d : copy_direction) : Request :=
  match d with
  | CopyIn id dst _ => mkRequest "copy-in" id "" None None None "" "" false "" 0 dst ""
  | CopyOut id src _ => mkRequest "copy-out" id "" None None None "" "" false "" 0 src ""
  end.
Definition upload_request (action ref : string) : Request :=
  mkRequest action "" "" None None None ref "" false "" 0 "" "".
Definition validate_request (data ref : string) : Request :=
  mkRequest "base-validate" "" "" None None None ref "" false "" 0 "" data.
Definition attach_request (v : Sandbox) : Request := Cli.request "attach" (sb_ID v).
Definition wait_request (v : Sandbox) : Request := Cli.request "wait" (sb_ID v).

(** What a command does: requests to the daemon, or one of the handlers that have
    their own models.  [logs] has the requests of its rounds, [cp] the direction its
    arguments give, a build the actions it performs. *)
Inductive job : Type :=
| JCommand (r : Cli.run_of)
| JLogs (frames : Z -> Request) (state : Request)
| JCopy (d : result copy_direction)
| JUpload (action tag path : string) (archived : bool)
| JBuild (actions : list CliBuild.action)
| JLogin (logout : bool) (registry : string)
| JDoctor
| JKeygen.

(** [New]: the socket of the daemon. *)
Definition socket_path (getenv : string -> string) (flag : option string) : string :=
  match flag with
  | Some p => p
  | None => if bool_decide (getenv "NIFLHEL_SOCKET" = "") then "/run/niflhel/niflhel.sock" else getenv "NIFLHEL_SOCKET"
  end.

Section Tree.
Context (fold : string -> string) (call : nat -> Request -> result Cli.reply) (auth : string -> string -> string).
Context (open : string -> result (string * option error)) (json : list Sandbox -> string) (print : Cli.reply -> string) (random : nat -> N).
Context (cursor_json : Z -> string) (benv : BuildEnv) (marshal : Config -> string) (b64_encode : string -> string) (ed_sign : string -> string -> string).

Definition handler : Type := Options -> list string -> job.
Definition arg (n : nat) (args : list string) : string := nth n args "".

(** [App.lifecycle] *)
Definition lifecycle_names : list string := ["start"; "stop"; "restart"; "kill"; "rm"; "inspect"; "wait"; "attach"].
Definition lifecycle_commands : list (string * arity * handler) :=
  [("run", MinimumNArgs 1, fun o args => JCommand (Cli.run fold call auth false open (o_run o) (arg 0 args) (tl args)));
   ("create", MinimumNArgs 1, fun o args => JCommand (Cli.run fold call auth true open (o_run o) (arg 0 args) (tl args)));
   ("exec", MinimumNArgs 2, fun o args => JCommand (Cli.execCommand random (o_exec o) (arg 0 args) (tl args)));
   ("cp", ExactArgs 2, fun _ args => JCopy (copy_args (arg 0 args) (arg 1 args)))] ++
  ((fun name => (name, ExactArgs 1, fun o args => JCommand (Cli.lifecycle call json name (o_life o) (arg 0 args))))
     <$> lifecycle_names) ++
  [("ps", ExactArgs 0, fun o _ => JCommand (Cli.ps call json (o_all o) (o_quiet o) (o_format o)));
   ("logs", ExactArgs 1, fun _ args => JLogs (logs_request cursor_json (arg 0 args)) (Cli.request "inspect" (arg 0 args)))].

(** The [load] commands: a tag is required. *)
Definition load_command (action : string) (archived : bool) : handler := fun o args =>
  if bool_decide (o_tag o = "") then JCommand (Cli.fail_with [] (mkScreen "" "") (Errorf "--tag required"))
  else JUpload action (o_tag o) (arg 0 args) archived.

(** [App.imageCommands], with the path of each command. *)
Definition makeCommand (action : string) (n : nat) : arity * handler :=
  (ExactArgs n, fun _ args => JCommand (Cli.image_command call auth print action args)).
Definition imageCommands : list (list string * (arity * handler)) :=
  [(["pull"], makeCommand "pull" 1); (["images"], makeCommand "images" 0);
   (["image"; "inspect"], makeCommand "image-inspect" 1); (["image"; "rm"], makeCommand "image-rm" 1);
   (["image"; "ls"], makeCommand "images" 0); (["image"; "pull"], makeCommand "pull" 1);
   (["image"; "load"], (ExactArgs 1, load_command "image-load" false))].

(** [App.baseCommands] *)
Definition base_names : list string := ["pull"; "push"; "ls"; "inspect"; "rm"; "validate"].
Definition baseCommands : list (list string * (arity * handler)) :=
  ((fun name => (["base"; name], (ExactArgs (if bool_decide (name = "ls") then 0 else 1),
                   fun _ args => JCommand (Cli.base_command call auth print name args)) : arity * handler)) <$> base_names) ++
  [(["base"; "load"], (ExactArgs 1, load_command "base-load" true));
   (["base"; "build"], (ExactArgs 1, fun o args => JBuild (build benv marshal b64_encode ed_sign (o_build o) true (arg 0 args)).1));
   (["base"; "keygen"], (ExactArgs 0, fun _ _ => JKeygen))].

(** [App.volumeCommands] *)
Definition volumeCommands : list (list string * (arity * handler)) :=
  (["volume"; "create"], (ExactArgs 1, fun o args => JCommand (Cli.volume_create fold call (arg 0 args) (o_size o)))) ::
  ((fun name => (["volume"; name], (ExactArgs (if bool_decide (name = "ls") then 0 else 1),
                   fun _ args => JCommand (Cli.volume_command call print name args)) : arity * handler)) <$> ["ls"; "inspect"; "rm"]).

Definition info_command : Cli.run_of :=
  let q := Cli.request "info" "" in Cli.text_of print q (call 0%nat q).

(** [New] *)
Definition commands : list (list string * (arity * handler)) :=
  ((fun '(name, a, h) => ([name], (a, h))) <$> lifecycle_commands) ++
  ((fun '(name, a, h) => (["container"; name], (a, h))) <$> lifecycle_commands) ++
  imageCommands ++ baseCommands ++ volumeCommands ++
  [(["build"], (ExactArgs 1, fun o args => JBuild (build benv marshal b64_encode ed_sign (o_build o) false (arg 0 args)).1));
   (["version"], (ExactArgs 0, fun _ _ => JCommand (Cli.mkRun [] (Cli.println Version) (Cli.Ended None))));
   (["info"], (ExactArgs 0, fun _ _ => JCommand info_command));
   (["doctor"], (ExactArgs 0, fun _ _ => JDoctor));
   (["login"], (ExactArgs 1, fun _ args => JLogin false (arg 0 args)));
   (["logout"], (ExactArgs 1, fun _ args => JLogin true (arg 0 args)))].

(** A command line: the path of the command, its options and its arguments. *)
Definition run_command (path : list string) (o : Options) (args : list string) : result job :=
  match find (fun c => bool_decide (c.1 = path)) commands with
  | None => Err (Errorf "unknown command %q for %q%s")
  | Some (_, (a, h)) => if accepts a args then Ok (h o args) else Err (Errorf "accepts %d arg(s), received %d")
  end.
End Tree.

(** ** The guest's dispatcher *)

Inductive guest_op : Type := GStatus | GStart | GSignal | GStop | GLogs | GShutdown.
Definition guest_op_of (action : string) : option guest_op :=
  if bool_decide (action = "status") then Some GStatus
  else if bool_decide (action = "start") then Some GStart
  else if bool_decide (action = "signal") then Some GSignal
  else if bool_decide (action = "stop") then Some GStop
  else if bool_decide (action = "logs") then Some GLogs
  else if bool_decide (action = "shutdown") then Some GShutdown
  else None.

(** What a request to the agent meets. *)
Record GuestCall : Type := mkGuestCall {
  gc_sandbox : Sandbox; gc_generation : Z;      (* the bootstrap record *)
  gc_answers : answers; gc_await : AwaitEnv;    (* a start *)
  gc_kill : result unit;                        (* [runc kill] of a signal *)
  gc_stop : StopEnv;
  gc_journal : Journal; gc_cursor : string -> result Z }.

Inductive guest_reply : Type := GNothing | GStatusIs (st : GuestStatus) | GFrames (l : list Frame) | GPowerOff.

(** [Agent.Call]; the fuel is the number of rounds before the timer of a wait
    fires. *)
Definition agent_Call (env : GuestCall) (fuel : nat) (q : Request) (a : Agent) : option (result guest_reply * Agent) :=
  match guest_op_of (q_Action q) with
  | None => Some (Err (Errorf "unknown guest operation %q"), a)
  | Some GStatus => Some (Ok (GStatusIs (status (sb_ID (gc_sandbox env)) (gc_generation env) a)), a)
  | Some GStart =>
      match Agent.start (gc_sandbox env) (gc_answers env) (q_Operation q) a with
      | (Err e, a) => Some (Err e, a)
      | (Ok _, a) =>
          match awaitStarted (gc_await env) fuel 0 with
          | None => None
          | Some (Ok pid) => Some (Ok GNothing, set_pid pid a)
          | Some (Err e) => Some (Err e, a)
          end
      end
  | Some GSignal =>
      Some (match agent_signal (bool_decide (a_state a = "running")) (gc_kill env) (q_Signal q) with
            | Ok _ => Ok GNothing | Err e => Err e end, a)
  | Some GStop =>
      match Agent.stop (gc_stop env) fuel (pr_StopSignal (sb_Process (gc_sandbox env))) (q_Timeout q) with
      | None => None
      | Some (Ok _, _) => Some (Ok GNothing, a)
      | Some (Err e, _) => Some (Err e, a)
      end
  | Some GLogs =>
      Some (match (if bool_decide (q_Data q = "") then Ok 0 else gc_cursor env (q_Data q)) with
            | Ok seq => Ok (GFrames (Read (gc_journal env) seq)) | Err e => Err e end, a)
  | Some GShutdown => Some (match shutdown a with Ok _ => Ok GPowerOff | Err e => Err e end, a)
  end.

(** ** What a handler may answer *)

(** The results of a program, whatever its operations answer: this covers every
    interleaving with other handlers. *)
Fixpoint may_return {A} (p : Prog A) (a : A) : Prop :=
  match p with
  | Ret b => a = b
  | Do op k => exists r, may_return (k r) a
  end.

Lemma may_bind {A B} (p : Prog A) (f : A -> Prog B) (b : B) :
  may_return (bind p f) b -> exists a, may_return p a /\ may_return (f a) b.
Proof.
  induction p as [a|R op k IH]; cbn; [by exists a|]. intros [r H]. apply IH in H as (a & H1 & H2). exists a. split; [by exists r|done].
Qed.

Lemma run_may_return {A} (E : Env) (t : nat) (p : Prog A) (w w' : World) (a : A) :
  run_alone E t p w = Some (w', a) -> may_return p a.
Proof.
  revert w. induction p as [b|R op k IH]; cbn; intros w H; [by injection H|].
  destruct (exec E t op w) as [[w1 r]|]; [|done]. exists r. by eapply IH.
Qed.

(** The kind of answer that the client decodes, by action; [None] where it prints
    whatever comes. *)
Inductive kind : Type := KSandbox | KSandboxes | KExit | KInfo | KVolume | KFrames | KAny.
#[export] Instance kind_eq_dec : EqDecision kind.
Proof. solve_decision. Defined.
Definition kind_of (r : Reply) : kind :=
  match r with
  | RSandbox _ => KSandbox | RSandboxes _ => KSandboxes | RExit _ => KExit | RInfo _ _ => KInfo | RVolume _ => KVolume
  | RFrames _ => KFrames
  | _ => KAny
  end.
Definition wanted : list (string * kind) :=
  [("create", KSandbox); ("start", KSandbox); ("restart", KSandbox); ("inspect", KSandbox); ("ps", KSandboxes);
   ("wait", KExit); ("info", KInfo); ("volume-create", KVolume); ("logs", KFrames)].

(** The actions of [Daemon.Call]: [Call_unknown] and [Call_dispatched] show that
    these are the ones it serves. *)
Definition daemon_actions : list string :=
  ["version"; "info"; "create"; "start"; "inspect"; "ps"; "stop"; "restart"; "rm"; "wait"; "kill"; "logs"; "pull"; "images";
   "image-inspect"; "image-rm"; "base-validate"; "base-pull"; "base-push"; "base-ls"; "base-inspect"; "base-rm";
   "volume-ls"; "volume-inspect"; "volume-create"; "volume-rm"].

(** Stores on which the actions succeed, for [Call_dispatched]. *)
Module Serving.
Definition spec (name : string) : Spec :=
  mkSpec "app" "base" name [] None [] "" "" 1 (512 * MiB) (4 * GiB) 256 "bridge" [] [] "runc" "linux/amd64" "missing"
    false false false false.
Definition idle : World :=
  default empty_world (serve 0 [request "volume-create" "" None (Some (mkVolume "data" (64 * MiB) 0));
                                request "create" "" (Some (spec "web")) None] empty_world).
Definition up : World := default empty_world (serve 2 [request "start" "web" None None] idle).
Definition broken : World :=
  mkWorld (mkCore (mkDB {[ web_id := mkRow "web" (set_State "failed" (sample_sandbox web_id "web")) ]} ∅ []) ∅ ∅ ∅)
    0 ∅ ∅ ∅ [] [].

Definition request_of (action id : string) (s : option Spec) (v : option Volume) : Request :=
  mkRequest action id "" s None v "base" "" false "TERM" 10 "" "".

(** A request of every action but "base-validate", and a store for it. *)
Definition requests : list (Request * World) :=
  [(request_of "version" "" None None, empty_world); (request_of "info" "" None None, empty_world);
   (request_of "create" "" (Some (spec "new")) None, idle); (request_of "start" "web" None None, idle);
   (request_of "inspect" "web" None None, idle); (request_of "ps" "" None None, idle);
   (request_of "stop" "web" None None, idle); (request_of "restart" "web" None None, idle);
   (request_of "rm" "web" None None, idle); (request_of "wait" "web" None None, broken);
   (request_of "kill" "web" None None, up); (request_of "logs" "web" None None, idle);
   (request_of "pull" "" None None, idle); (request_of "images" "" None None, idle);
   (request_of "image-inspect" "" None None, idle); (request_of "image-rm" "" None None, empty_world);
   (request_of "base-pull" "" None None, idle); (request_of "base-push" "" None None, idle);
   (request_of "base-ls" "" None None, idle); (request_of "base-inspect" "" None None, idle);
   (request_of "base-rm" "" None None, empty_world); (request_of "volume-ls" "" None None, idle);
   (request_of "volume-inspect" "data" None None, idle);
   (request_of "volume-create" "" None (Some (mkVolume "other" (64 * MiB) 0)), idle);
   (request_of "volume-rm" "data" None None, idle)].
End Serving.

Section Answers.
Context (cfg : DaemonConfig) (decode_auth : string -> result Auth) (decode_cursor : string -> result Z).

(** An action outside the list is refused, without any effect. *)
Lemma Call_unknown (q : Request) (polls : nat) :
  q_Action q ∉ daemon_actions ->
  exists e, Call cfg decode_auth decode_cursor q polls = Ret (Err e).
Proof.
  intros H. unfold Call. destruct (request_auth _ _) as [au|e]; [|by exists e]. cbv zeta.
  assert (forall a, a ∈ daemon_actions -> bool_decide (q_Action q = a) = false) as Hn.
  { intros a Ha. apply bool_decide_eq_false_2. by intros <-. }
  repeat (rewrite Hn by (apply (bool_decide_eq_true_1 _); reflexivity)). by eexists.
Qed.

(** The daemon serves an action: it has an answer with success to a request of it. *)
Definition dispatched (action : string) : Prop :=
  exists q polls r, q_Action q = action /\ may_return (Call cfg decode_auth decode_cursor q polls) (Ok r).

Lemma bind_may {A B} (p : Prog A) (f : A -> Prog B) (a : A) (b : B) :
  may_return p a -> may_return (f a) b -> may_return (bind p f) b.
Proof. induction p as [x|R op k IH]; cbn; [by intros ->|]. intros [r H] Hf. exists r. by apply IH. Qed.

Definition succeeds (x : Request * World) : bool :=
  match run_alone sample_env 9 (Call cfg decode_auth decode_cursor x.1 3) x.2 with Some (_, Ok _) => true | _ => false end.

Lemma succeeds_dispatched (x : Request * World) : succeeds x = true -> dispatched (q_Action x.1).
Proof.
  unfold succeeds. destruct (run_alone _ _ _ _) as [[w [r|e]]|] eqn:E; [|done..]. intros _.
  apply run_may_return in E. by exists x.1, 3%nat, r.
Qed.

(** A whole validation: the sandbox of the probe is created, started, probed,
    stopped and removed. *)
Definition probe_made : option (World * Sandbox) :=
  match run_alone sample_env 9 (Create cfg (probe_spec "sha256:b") no_auth) empty_world with
  | Some (w, (v, None)) => Some (w, v)
  | _ => None
  end.
Definition probe_started : option (World * Sandbox) :=
  match probe_made with
  | Some (w, v) => match run_alone sample_env 9 (Start (sb_ID v)) w with Some (w, (v, None)) => Some (w, v) | _ => None end
  | None => None
  end.
Definition probe_removed : bool :=
  match probe_started with
  | Some (w, v) => match run_alone sample_env 9 (Remove cfg (sb_ID v) true) w with Some _ => true | None => false end
  | None => false
  end.

Lemma validate_may (v : Sandbox) : may_return (validate_started cfg v 0) (Ok 0).
Proof.
  unfold validate_started. exists (Ok tt), "id", (Ok [data_frame "stdout" "niflhel-exec-ready"; exit_frame (Some 0)]).
  cbn [probe]. eapply bind_may.
  { exists (Ok (set_State "exited" (sample_sandbox web_id "web"))). vm_compute. reflexivity. }
  cbn iota. eapply bind_may.
  { exists (Ok (set_Exit (Some (mkExit (Some 0) "" false 0)) (set_State "exited" (sample_sandbox web_id "web")))).
    vm_compute. reflexivity. }
  cbn. by exists (Ok tt).
Qed.

Lemma base_validate_dispatched : dispatched "base-validate".
Proof.
  exists (Serving.request_of "base-validate" "" None None), 0%nat, (RValidation 0). split; [done|].
  change (may_return (bind (ValidateBase cfg "base" no_auth 0) (fun r => Ret (reply RValidation r))) (Ok (RValidation 0))).
  apply (bind_may _ _ (Ok 0)); [|done]. unfold ValidateBase. exists (Ok sample_bundle).
  assert (probe_removed = true) as Hr by (vm_compute; reflexivity). unfold probe_removed, probe_started, probe_made in Hr.
  destruct (run_alone sample_env 9 (Create cfg _ no_auth) empty_world) as [[w1 [v1 [e|]]]|] eqn:E1; [done| |done].
  destruct (run_alone sample_env 9 (Start _) w1) as [[w2 [v2 [e|]]]|] eqn:E2; [done| |done].
  destruct (run_alone sample_env 9 (Remove cfg _ true) w2) as [[w3 r3]|] eqn:E3; [|done].
  apply run_may_return in E1, E2, E3.
  eapply bind_may; [exact E1|]. cbn [fst snd]. eapply bind_may; [exact E2|]. cbn [fst snd].
  eapply bind_may; [apply validate_may|]. eapply bind_may; [exact E3|done].
Qed.

(** The daemon serves every action of the list; with [Call_unknown], no other. *)
Lemma Call_dispatched (action : string) : action ∈ daemon_actions -> dispatched action.
Proof.
  intros Ha. destruct (decide (action = "base-validate")) as [->|Hne]; [apply base_validate_dispatched|].
  assert (Forall (fun x => succeeds x = true) Serving.requests) as Hall.
  { apply Forall_forall. intros x Hx. assert (forallb succeeds Serving.requests = true) as Hb by (vm_compute; reflexivity).
    rewrite forallb_forall in Hb. by apply Hb, list_elem_of_In. }
  assert (exists x, x ∈ Serving.requests /\ q_Action x.1 = action) as (x & Hx & <-).
  { assert (action ∈ ((fun x : Request * World => q_Action x.1) <$> Serving.requests)) as Hin.
    { unfold daemon_actions in Ha. repeat (apply elem_of_cons in Ha as [->|Ha];
        [first [done | apply (bool_decide_eq_true_1 _); vm_compute; reflexivity]|]). by apply elem_of_nil in Ha. }
    apply list_elem_of_fmap in Hin as (x & -> & Hx). by exists x. }
  rewrite Forall_forall in Hall. by apply succeeds_dispatched, Hall.
Qed.

Lemma may_reply {A} (f : A -> Reply) (k : kind) (p : Prog (result A)) (r : Reply) :
  (forall a, kind_of (f a) = k) -> may_return (bind p (fun x => Ret (reply f x))) (Ok r) -> kind_of r = k.
Proof. intros Hf H. apply may_bind in H as ([a|e] & _ & H); cbn in H; [|done]. by injection H as ->. Qed.

Lemma may_sandbox (p : Prog (Sandbox * option error)) (r : Reply) :
  may_return (bind p (fun x => Ret (reply_sandbox x))) (Ok r) -> kind_of r = KSandbox.
Proof. intros H. apply may_bind in H as ([v [e|]] & _ & H); cbn in H; [done|]. by injection H as ->. Qed.

Lemma Call_answers (q : Request) (polls : nat) (r : Reply) (k : kind) :
  (q_Action q, k) ∈ wanted -> may_return (Call cfg decode_auth decode_cursor q polls) (Ok r) -> kind_of r = k.
Proof.
  unfold Call. destruct (request_auth _ _) as [au|e]; [|done]. cbv zeta.
  generalize (eq_refl (q_Action q)). generalize (q_Action q) at 2 3. intros act Hact Hw.
  unfold wanted in Hw. repeat (apply elem_of_cons in Hw as [[= -> ->]|Hw]); [..|by apply elem_of_nil in Hw]; rewrite Hact;
    repeat match goal with |- context [bool_decide (?x = ?y)] => let b := eval vm_compute in (bool_decide (x = y)) in change (bool_decide (x = y)) with b end;
    cbn iota.
  - destruct (q_Spec q); [apply may_sandbox|done].
  - apply may_sandbox.
  - intros H. apply may_bind in H as ([u|e] & _ & H); [|done]. by apply may_sandbox in H.
  - apply (may_reply RSandbox KSandbox (Do (OGet _) Ret)). done.
  - apply (may_reply RSandboxes KSandboxes (Do OList Ret)). done.
  - by apply may_reply.
  - intros H. cbn in H. by injection H as ->.
  - by apply may_reply.
  - unfold logs. intros [g H]. apply may_bind in H as ([path|e] & _ & H); [|done].
    destruct (if bool_decide _ then _ else _) as [c|e]; [|done]. destruct H as [fs H]. cbn in H. by injection H as ->.
Qed.
End Answers.

(** ** The daemon and the guest *)

(** Every call that a program makes into a guest is one the agent serves. *)
Fixpoint guest_known {A} (p : Prog A) : Prop :=
  match p with
  | Ret _ => True
  | Do op k => (match op with OGuest _ q => is_Some (guest_op_of (q_Action q)) | _ => True end) /\ forall r, guest_known (k r)
  end.

Lemma guest_known_bind {A B} (p : Prog A) (f : A -> Prog B) : guest_known p -> (forall a, guest_known (f a)) -> guest_known (bind p f).
Proof. induction p as [a|R op k IH]; cbn; [auto|]. intros [? ?] ?. auto. Qed.

Create HintDb guest.

Ltac guest_tac :=
  repeat first
    [ exact I
    | solve [eauto with guest]
    | apply guest_known_bind; [|intros ?]
    | split; [first [exact I | eexists; reflexivity]|intros ?]
    | match goal with |- guest_known (match ?x with _ => _ end) => destruct x end
    | progress cbn beta iota zeta delta [guest_known] ].

Section Guest.
Context (cfg : DaemonConfig) (decode_auth : string -> result Auth) (decode_cursor : string -> result Z).

Lemma guest_Create (s : Spec) (auth : Auth) : guest_known (Create cfg s auth).
Proof.
  assert (forall v e, guest_known (create_fail cfg v e)) by (intros; unfold create_fail; guest_tac).
  assert (forall ms, guest_known (check_volumes ms)) by (induction ms; cbn [check_volumes]; guest_tac).
  unfold Create, create_locked, create_prepare, create_disks. guest_tac.
Qed.

Lemma guest_Start (id : string) : guest_known (Start id).
Proof.
  assert (forall v e, guest_known (start_fail v e)) by (intros; unfold start_fail; guest_tac).
  unfold Start, start_locked, start_admit, availableMemory, start_boot. guest_tac.
Qed.

Lemma guest_finish (v : Sandbox) (exit : Exit) : guest_known (finish cfg v exit).
Proof.
  assert (forall v until n, guest_known (await_exit v until n)) by (intros ? ? n; induction n; cbn [await_exit]; guest_tac).
  unfold finish, finish_locked, request_shutdown. guest_tac.
Qed.

Lemma guest_Wait (id : string) (polls : nat) : guest_known (Wait id polls).
Proof. induction polls; cbn [Wait]; guest_tac. Qed.
#[local] Hint Resolve guest_Create guest_Start guest_finish guest_Wait : guest.

Lemma guest_Stop (id : string) (seconds : Z) (polls : nat) : guest_known (Stop cfg id seconds polls).
Proof. unfold Stop. guest_tac. Qed.

Lemma guest_Remove (id : string) (force : bool) : guest_known (Remove cfg id force).
Proof. unfold Remove, remove_locked. guest_tac. Qed.
#[local] Hint Resolve guest_Stop guest_Remove : guest.

Lemma guest_monitor (v : Sandbox) (drains polls : nat) : guest_known (monitor cfg v drains polls).
Proof.
  assert (forall id d fs c, guest_known (write_frames id d c fs)) by (intros ? ? fs; induction fs; intros; cbn [write_frames]; guest_tac).
  assert (forall n c, guest_known (drain_logs v c n)) by (intros n; induction n; intros; cbn [drain_logs]; guest_tac).
  assert (forall c, guest_known (poll_guest cfg v c)) by (intros; unfold poll_guest; guest_tac).
  assert (forall n c f, guest_known (monitor_loop cfg v c f drains n)).
  { intros n. induction n; intros; cbn [monitor_loop]; guest_tac. }
  unfold monitor. guest_tac.
Qed.

(** Every call of a request handler into a guest is served there. *)
Lemma guest_Call (q : Request) (polls : nat) : guest_known (Call cfg decode_auth decode_cursor q polls).
Proof.
  unfold Call, kill, image_rm, base_rm, volume_rm, volume_create, ValidateBase, validate_started, logs. guest_tac.
Qed.
End Guest.

(** ** The client and the daemon *)

(** Every action of a sequence of external actions. *)
Section Performed.
Context {act : Type} (P : act -> Prop).
Lemma Forall_perform {A} (a : act) (r : result A) (k : A -> list act * result unit) :
  P a -> (forall x, Forall P (k x).1) -> Forall P (perform a r k).1.
Proof.
  intros Ha Hk. unfold perform. destruct r as [x|e]; [|by apply Forall_singleton]. specialize (Hk x).
  destruct (k x) as [l r]. by constructor.
Qed.
Lemma Forall_need {A} (r : result A) (k : A -> list act * result unit) : (forall x, Forall P (k x).1) -> Forall P (need r k).1.
Proof. intros Hk. unfold need. destruct r; [done|constructor]. Qed.
Lemma Forall_require (b : bool) (msg : string) (k : list act * result unit) : Forall P k.1 -> Forall P (require b msg k).1.
Proof. intros Hk. unfold require. destruct b; [done|constructor]. Qed.
End Performed.

Section Agreement.
Context (cfg : DaemonConfig) (decode_auth : string -> result Auth) (decode_cursor : string -> result Z) (text : Reply -> string).
Context (fold : string -> string) (call : nat -> Request -> result Cli.reply) (auth : string -> string -> string).
Context (open : string -> result (string * option error)) (json : list Sandbox -> string) (print : Cli.reply -> string) (random : nat -> N).
Context (cursor_json : Z -> string) (benv : BuildEnv) (marshal : Config -> string) (b64_encode : string -> string) (ed_sign : string -> string -> string).

#[local] Notation dispatched := (dispatched cfg decode_auth decode_cursor).
#[local] Notation known := (fun q => dispatched (q_Action q)).

(** Every answer with success to a request is of a kind. *)
Definition gives (q : Request) (k : kind) : Prop :=
  forall polls r, may_return (Call cfg decode_auth decode_cursor q polls) (Ok r) -> kind_of r = k.
Lemma wanted_gives (q : Request) (k : kind) : (q_Action q, k) ∈ wanted -> gives q k.
Proof. intros Hw polls r. by apply Call_answers. Qed.

(** The client talks to this daemon: what it gets is what a handler may answer. *)
Hypothesis answered : forall n q r, call n q = Ok r ->
  exists polls x, may_return (Call cfg decode_auth decode_cursor q polls) (Ok x) /\ answer text (Ok x) = Ok r.

Lemma answered_kind (n : nat) (q : Request) (r : Cli.reply) (k : kind) :
  call n q = Ok r -> (q_Action q, k) ∈ wanted -> exists x, kind_of x = k /\ answer text (Ok x) = Ok r.
Proof. intros (polls & x & H1 & H2)%answered Hw. exists x. split; [|done]. by eapply Call_answers. Qed.

Ltac of_kind H := let Hk := fresh in let Ha := fresh in destruct H as ([] & Hk & Ha); try discriminate Hk; injection Ha as <-; by eexists.

Lemma answered_sandbox (n : nat) (q : Request) (r : Cli.reply) :
  call n q = Ok r -> (q_Action q, KSandbox) ∈ wanted -> exists v, r = Cli.RSandbox v.
Proof. intros H Hw. pose proof (answered_kind n q r _ H Hw) as Hx. of_kind Hx. Qed.
Lemma answered_exit (n : nat) (q : Request) (r : Cli.reply) :
  call n q = Ok r -> (q_Action q, KExit) ∈ wanted -> exists x, r = Cli.RExit x.
Proof. intros H Hw. pose proof (answered_kind n q r _ H Hw) as Hx. of_kind Hx. Qed.
Lemma answered_rows (n : nat) (q : Request) (r : Cli.reply) :
  call n q = Ok r -> (q_Action q, KSandboxes) ∈ wanted -> exists l, r = Cli.RSandboxes l.
Proof. intros H Hw. pose proof (answered_kind n q r _ H Hw) as Hx. of_kind Hx. Qed.
Lemma answered_info (n : nat) (q : Request) (r : Cli.reply) :
  call n q = Ok r -> (q_Action q, KInfo) ∈ wanted -> exists b, r = Cli.RInfo b.
Proof. intros H Hw. pose proof (answered_kind n q r _ H Hw) as Hx. of_kind Hx. Qed.
Lemma answered_volume (n : nat) (q : Request) (r : Cli.reply) :
  call n q = Ok r -> (q_Action q, KVolume) ∈ wanted -> exists v, r = Cli.RVolume v.
Proof. intros H Hw. pose proof (answered_kind n q r _ H Hw) as Hx. of_kind Hx. Qed.

(** A command that fails although all its requests were answered: a flag was wrong,
    or an exit code that was waited for is not known. *)
Definition own_failure (R : Cli.run_of) (e : error) : Prop :=
  Cli.ru_calls R = [] \/ e = Errorf "only --format json supported" \/
  exists q x, Cli.ru_calls R = [q] /\ q_Action q = "wait" /\ call 0%nat q = Ok (Cli.RExit x) /\ x_Code x = None.

(** A session that the daemon passes to the guest of a running sandbox, and that the
    agent serves there. *)
Definition session_known (action : string) : Prop :=
  is_ok (session_handler action) = true /\
  forall v, sb_State v = "running" -> Session_serving action (Ok v) = Ok (ServeGuest v).

(** What the daemon and the client agree on: all requests are dispatched, and a
    command fails only when the daemon refused a request, or for a reason of its
    own. *)
Record agrees (R : Cli.run_of) : Prop := mkAgrees {
  ag_known : Forall known (Cli.ru_calls R);
  ag_session : forall q i tty, Cli.ru_end R = Cli.Session q i tty -> session_known (q_Action q);
  ag_attach : forall v i tty, Cli.ru_end R = Cli.Attach v i tty ->
    session_known (q_Action (attach_request v)) /\ known (wait_request v) /\ gives (wait_request v) KExit;
  ag_decodes : forall e, Cli.ru_end R = Cli.Ended (Some (Failed e)) ->
    (exists n q e', Cli.ru_calls R !! n = Some q /\ call n q = Err e') \/ own_failure R e;
  ag_code : forall c, Cli.ru_end R <> Cli.Ended (Some (ExitError c)) }.

(** An upload is a session that the daemon serves itself, under a reference. *)
Definition upload_known (q : Request) : Prop :=
  q_Ref q <> "" /\ forall get, Session_serving (q_Action q) get = Ok ServeLoad.

(** The requests of the actions of a build. *)
Definition action_known (a : CliBuild.action) : Prop :=
  match a with
  | AUpload action ref => upload_known (upload_request action ref)
  | AValidate ref => forall data, known (validate_request data ref)
  | _ => True
  end.

Definition job_agrees (j : job) : Prop :=
  match j with
  | JCommand R => agrees R
  | JCopy d => forall x, d = Ok x -> session_known (q_Action (copy_request x))
  | JUpload action tag _ _ => upload_known (upload_request action tag)
  | JLogs frames state =>
      known state /\ gives state KSandbox /\ forall cursor, known (frames cursor) /\ gives (frames cursor) KFrames
  | JBuild l => Forall action_known l
  | JLogin _ _ | JDoctor | JKeygen => True
  end.

Ltac listed := apply (bool_decide_eq_true_1 _); reflexivity.
Ltac serves := cbn; apply Call_dispatched; listed.

Lemma session_known_all (action : string) : action ∈ ["exec"; "attach"; "copy-in"; "copy-out"] -> session_known action.
Proof.
  intros Ha. split; [|intros v Hv; unfold Session_serving].
  - unfold session_handler. repeat (apply elem_of_cons in Ha as [->|Ha]; [done|]). by apply elem_of_nil in Ha.
  - assert (bool_decide (action = "image-load" \/ action = "base-load") = false) as ->.
    { apply bool_decide_eq_false_2. repeat (apply elem_of_cons in Ha as [->|Ha]; [by intros [|]|]). by apply elem_of_nil in Ha. }
    cbv zeta. rewrite Hv. cbn [result_bind]. rewrite (bool_decide_eq_true_2 (action ∈ _)) by done.
    change (bool_decide ("running" = "exited" \/ "running" = "failed")) with false. rewrite andb_false_r.
    by rewrite (bool_decide_eq_true_2 (sb_State v = "running")).
Qed.

(** A command with one request whose answer is printed. *)
Lemma text_agrees (q : Request) : dispatched (q_Action q) -> agrees (Cli.text_of print q (call 0%nat q)).
Proof.
  intros Hq. unfold Cli.text_of. destruct (call 0%nat q) as [r|e] eqn:E; split; cbn; try done; try by apply Forall_singleton.
  intros e' [= <-]. left. by exists 0%nat, q, e.
Qed.

(** The first request of a command is refused. *)
Lemma refused_agrees (q : Request) (s : screen) (e e' : error) :
  dispatched (q_Action q) -> call 0%nat q = Err e -> agrees (Cli.fail_with [q] s e').
Proof. intros Hq Hc. split; cbn; try done; [by apply Forall_singleton|]. intros ? [= <-]. left. by exists 0%nat, q, e. Qed.

Lemma finished_agrees (qs : list Request) (s : screen) :
  Forall known qs -> agrees (Cli.mkRun qs s (Cli.Ended None)).
Proof. by split. Qed.
Lemma attach_agrees (qs : list Request) (s : screen) (v : Sandbox) (i tty : bool) :
  Forall known qs -> agrees (Cli.mkRun qs s (Cli.Attach v i tty)).
Proof.
  intros H. split; cbn; try done. intros v' i' tty' [= <- _ _]. split_and!; [|serves|apply wanted_gives; listed].
  apply (session_known_all "attach"). listed.
Qed.
Lemma session_agrees (q : Request) (s : screen) (i tty : bool) :
  q_Action q ∈ ["exec"; "attach"; "copy-in"; "copy-out"] -> agrees (Cli.mkRun [] s (Cli.Session q i tty)).
Proof. intros Hq. split; cbn; try done. intros ? ? ? [= <- <- <-]. by apply session_known_all. Qed.
Lemma own_agrees (e : error) (s : screen) : agrees (Cli.fail_with [] s e).
Proof. split; cbn; try done. intros e' [= <-]. right. by left. Qed.

(** The commands on one container. *)
Lemma lifecycle_agrees (name : string) (fl : Cli.LifeFlags) (id : string) :
  name ∈ lifecycle_names -> agrees (Cli.lifecycle call json name fl id).
Proof.
  intros Hn. unfold Cli.lifecycle.
  case_bool_decide as E1; [subst; apply session_agrees; listed|].
  case_bool_decide as E2.
  { set (q := mkRequest name id _ _ _ _ _ _ _ _ _ _ _).
    assert (dispatched (q_Action q) /\ (q_Action q, KSandbox) ∈ wanted) as [Hq Hw] by (destruct E2; subst name; (split; [serves|listed])).
    destruct (call 0%nat q) as [r|e] eqn:Ec; cbn [Cli.sandbox_of result_bind]; [|by eapply refused_agrees].
    destruct (answered_sandbox _ _ _ Ec Hw) as [v ->]. destruct (Cli.lf_attach fl);
      [apply attach_agrees|apply finished_agrees]; by apply Forall_singleton. }
  case_bool_decide as E3.
  { subst name. set (q := Cli.request "wait" id). assert (dispatched (q_Action q)) as Hq by serves.
    destruct (call 0%nat q) as [r|e] eqn:Ec; [|by eapply refused_agrees].
    destruct (answered_exit _ _ _ Ec) as [x ->]; [listed|].
    destruct (x_Code x) eqn:Ex; [by apply finished_agrees, Forall_singleton|]. split; cbn; try done; [by apply Forall_singleton|].
    intros e _. right. right. right. by exists q, x. }
  case_bool_decide as E4.
  { subst name. destruct (negb _); [apply own_agrees|]. set (q := Cli.request "inspect" id).
    assert (dispatched (q_Action q)) as Hq by serves.
    destruct (call 0%nat q) as [r|e] eqn:Ec; cbn [Cli.sandbox_of result_bind]; [|by eapply refused_agrees].
    destruct (answered_sandbox _ _ _ Ec) as [v ->]; [listed|]. by apply finished_agrees, Forall_singleton. }
  set (q := Cli.full_request name id fl). assert (dispatched (q_Action q)) as Hq.
  { unfold lifecycle_names in Hn. repeat (apply elem_of_cons in Hn as [->|Hn]; [first [serves|naive_solver]|]). by apply elem_of_nil in Hn. }
  destruct (call 0%nat q) as [r|e] eqn:Ec; [|by eapply refused_agrees]. by apply finished_agrees, Forall_singleton.
Qed.

Lemma ps_agrees (all quiet : bool) (format : string) : agrees (Cli.ps call json all quiet format).
Proof.
  unfold Cli.ps. set (q := Cli.request "ps" ""). assert (dispatched (q_Action q)) as Hq by serves.
  destruct (call 0%nat q) as [r|e] eqn:Ec; [|by eapply refused_agrees]. destruct (answered_rows _ _ _ Ec) as [l ->]; [listed|].
  cbv zeta. destruct (_ && _).
  { split; cbn; try done; [by apply Forall_singleton|]. intros e [= <-]. right. right. by left. }
  destruct (bool_decide _); by apply finished_agrees, Forall_singleton.
Qed.

Lemma volume_create_agrees (name size : string) : agrees (Cli.volume_create fold call name size).
Proof.
  unfold Cli.volume_create. destruct (Api.Size fold size) as [n|e]; [|apply own_agrees]. cbv zeta.
  set (q := mkRequest _ _ _ _ _ _ _ _ _ _ _ _ _). assert (dispatched (q_Action q)) as Hq by serves.
  destruct (call 0%nat q) as [r|e] eqn:Ec; [|by eapply refused_agrees]. destruct (answered_volume _ _ _ Ec) as [v ->]; [listed|].
  by apply finished_agrees, Forall_singleton.
Qed.

(** The second part of [run], after the requests [pre]. *)
Lemma run_spec_agrees (create detach : bool) (pre : list Request) (s : Spec) :
  Forall known pre ->
  agrees (Cli.run_spec call auth create detach (length pre) pre s).
Proof.
  intros Hp. unfold Cli.run_spec. cbv zeta. set (q := Cli.create_request auth s).
  assert (dispatched (q_Action q)) as Hq by serves.
  assert (Forall known (pre ++ [q])) as H1 by (apply Forall_app; split; [done|by apply Forall_singleton]).
  destruct (call (length pre) q) as [r|e] eqn:Ec; cbn [Cli.sandbox_of result_bind].
  2:{ split; cbn; try done. intros e' [= <-]. left. exists (length pre), q, e. split; [by apply list_lookup_middle|done]. }
  destruct (answered_sandbox _ _ _ Ec) as [v ->]; [listed|]. destruct create; [by apply finished_agrees|].
  set (q2 := Cli.request "start" (sb_ID v)). assert (dispatched (q_Action q2)) as Hq2 by serves.
  assert (Forall known (pre ++ [q; q2])) as H2.
  { apply Forall_app; split; [done|]. by repeat constructor. }
  destruct (call (S (length pre)) q2) as [r|e] eqn:Ec2; cbn [Cli.sandbox_of result_bind].
  2:{ split; cbn; try done. intros e' [= <-]. left. exists (S (length pre)), q2, e. split; [|done].
      rewrite lookup_app_r by lia. by replace (S (length pre) - length pre)%nat with 1%nat by lia. }
  destruct (answered_sandbox _ _ _ Ec2) as [v' ->]; [listed|]. destruct detach; [by apply finished_agrees|by apply attach_agrees].
Qed.

Lemma run_agrees (create : bool) (fl : Cli.Flags) (image : string) (command : list string) :
  agrees (Cli.run fold call auth create open fl image command).
Proof.
  unfold Cli.run. destruct (Cli.assemble fold open fl image command) as [s|e]; [|apply own_agrees].
  destruct (bool_decide _); [|by apply (run_spec_agrees _ _ [])]. cbv zeta. set (q := Cli.request "info" "").
  assert (dispatched (q_Action q)) as Hq by serves. destruct (call 0%nat q) as [r|e] eqn:Ec; [|by eapply refused_agrees].
  destruct (answered_info _ _ _ Ec) as [b ->]; [listed|]. apply (run_spec_agrees _ _ [q]). by apply Forall_singleton.
Qed.

Lemma load_agrees (action : string) (archived : bool) (o : Options) (args : list string) :
  action = "image-load" \/ action = "base-load" -> job_agrees (load_command action archived o args).
Proof.
  intros Ha. unfold load_command. case_bool_decide; [apply own_agrees|]. split; [done|]. intros get. cbn. unfold Session_serving.
  by rewrite (bool_decide_eq_true_2 (action = "image-load" \/ action = "base-load")).
Qed.

Ltac building :=
  first [ apply Forall_require | apply Forall_need; intros ? | apply Forall_perform; [first [done|exact I]|intros ?] | by constructor ].

(** A build uploads under its tag, and asks for a validation of it. *)
Lemma build_known (fl : BuildFlags) (isBase : bool) (context : string) :
  Forall action_known (build benv marshal b64_encode ed_sign fl isBase context).1.
Proof.
  destruct (decide (b_tag fl = "")) as [Ht|Ht].
  { unfold build, require at 1. rewrite bool_decide_eq_true_2 by done. constructor. }
  assert (forall action, action = "image-load" \/ action = "base-load" -> action_known (AUpload action (b_tag fl))) as Hup.
  { intros action Ha. split; [done|]. intros get. cbn. unfold Session_serving. by rewrite (bool_decide_eq_true_2 (_ \/ _)). }
  assert (action_known (AValidate (b_tag fl))) as Hval by (intros data; serves).
  pose proof (Hup "image-load" (or_introl eq_refl)) as Hup1. pose proof (Hup "base-load" (or_intror eq_refl)) as Hup2.
  assert (forall endpoint dir df packager tmp,
    Forall action_known (build_in benv marshal b64_encode ed_sign fl isBase endpoint dir df packager tmp).1) as Hin.
  { intros. unfold build_in, package_base. destruct isBase; repeat building. }
  unfold build. repeat building.
  match goal with |- context [build_in _ _ _ _ _ _ ?e ?c ?d ?p ?t] => pose proof (Hin e c d p t) as Hl end.
  destruct (build_in _ _ _ _ _ _ _ _ _ _) as [l r]. apply Forall_app. split; [done|by repeat constructor].
Qed.

Definition entry_agrees (c : list string * (arity * handler)) : Prop := forall o args, job_agrees (c.2.2 o args).

Lemma lifecycle_entries (f : string -> list string) :
  Forall entry_agrees ((fun '(name, a, h) => (f name, (a, h))) <$> lifecycle_commands fold call auth open json random cursor_json).
Proof.
  apply Forall_fmap. unfold lifecycle_commands. rewrite !Forall_app. split_and!.
  - repeat (apply Forall_cons; split); [intros o args; cbn..|apply Forall_nil_2];
      [apply run_agrees|apply run_agrees|apply session_agrees; listed|].
    intros [] _; apply session_known_all; listed.
  - apply Forall_fmap, Forall_forall. intros name Hn o args. by apply lifecycle_agrees.
  - repeat (apply Forall_cons; split); [intros o args; cbn..|apply Forall_nil_2]; [apply ps_agrees|].
    split_and!; [serves|apply wanted_gives; listed|]. intros cursor. split; [serves|apply wanted_gives; listed].
Qed.

(** C35. The client, the daemon and the guest speak the same language.  Every
    command of the client, with any options and arguments, sends only requests that
    [Call] of the daemon serves (it has an answer with success to a request of that
    action) and opens only sessions that the daemon and the agent serve: this covers
    each request of the rounds of [logs], the session of [cp] in either direction,
    the uploads and the validation of a build, and the session and the wait of a
    command that attaches.  When the daemon answers, in whatever interleaving, with
    success, the answer is of the kind the command decodes, so that a command fails
    only when a request was refused, when a flag is wrong, or when the exit code it
    waited for is unknown; and every call the daemon makes into a guest, in requests
    and in the monitor, is one the agent serves. *)
Theorem processes_agree (path : list string) (o : Options) (args : list string) (j : job) :
  run_command fold call auth open json print random cursor_json benv marshal b64_encode ed_sign path o args = Ok j ->
  job_agrees j /\
  (forall q polls, guest_known (Call cfg decode_auth decode_cursor q polls)) /\
  (forall v drains polls, guest_known (monitor cfg v drains polls)).
Proof.
  intros H. split; [|split; intros; [apply guest_Call|apply guest_monitor]].
  assert (Forall entry_agrees (commands fold call auth open json print random cursor_json benv marshal b64_encode ed_sign)) as Hall.
  { unfold commands. rewrite !Forall_app. split_and!; [apply lifecycle_entries|apply lifecycle_entries| | | |].
    - repeat (apply Forall_cons; split); [intros o' args'..|apply Forall_nil_2]; try (apply text_agrees; serves).
      apply load_agrees. by left.
    - unfold baseCommands. apply Forall_app. split.
      + apply Forall_fmap, Forall_forall. intros name Hn o' args'. apply text_agrees.
        unfold base_names in Hn. repeat (apply elem_of_cons in Hn as [->|Hn]; [serves|]). by apply elem_of_nil in Hn.
      + repeat (apply Forall_cons; split); [intros o' args'..|apply Forall_nil_2]; [apply load_agrees; by right|apply build_known|done].
    - repeat (apply Forall_cons; split); [intros o' args'..|apply Forall_nil_2]; [apply volume_create_agrees|..]; apply text_agrees; serves.
    - repeat (apply Forall_cons; split); [intros o' args'..|apply Forall_nil_2]; try apply build_known; try done; first [by apply finished_agrees|apply text_agrees; serves]. }
  unfold run_command in H. destruct (find _ _) as [[p [a h]]|] eqn:Ef; [|done]. destruct (accepts a args); [|done]. injection H as <-.
  apply find_some in Ef as [Hin _]. rewrite Forall_forall in Hall. apply list_elem_of_In in Hin. by apply (Hall _ Hin).
Qed.
End Agreement.

(** No command hides another. *)
Lemma commands_distinct (fold : string -> string) (call : nat -> Request -> result Cli.reply) (auth : string -> string -> string)
    (open : string -> result (string * option error)) (json : list Sandbox -> string) (print : Cli.reply -> string) (random : nat -> N)
    (cursor_json : Z -> string) (benv : BuildEnv) (marshal : Config -> string) (b64_encode : string -> string)
    (ed_sign : string -> string -> string) :
  NoDup (fst <$> commands fold call auth open json print random cursor_json benv marshal b64_encode ed_sign).
Proof. cbn. apply (bool_decide_eq_true_1 _). vm_compute. reflexivity. Qed.

Module ProtocolSample.
Definition decode_auth (_ : string) : result Auth := Ok no_auth.
Definition decode_cursor (_ : string) : result Z := Ok 0.
Definition text (_ : Reply) : string := "".
(** A daemon with an empty store. *)
Definition call (n : nat) (q : Request) : result Cli.reply :=
  match run_alone sample_env 1 (Call sample_config decode_auth decode_cursor q 3) empty_world with
  | Some (_, r) => answer text r
  | None => Err ErrNotFound
  end.
Definition auth (_ _ : string) : string := "".
Definition open (_ : string) : result (string * option error) := Err ErrNotFound.
Definition json (_ : list Sandbox) : string := "[]".
Definition print (_ : Cli.reply) : string := "null".
Definition random (_ : nat) : N := 7%N.
Definition options : Options := default_options.
Definition listing : Cli.run_of := Cli.ps call json false false "".
End ProtocolSample.

Lemma processes_agree_witness :
  agrees sample_config ProtocolSample.decode_auth ProtocolSample.decode_cursor ProtocolSample.call ProtocolSample.listing /\ Cli.ru_end ProtocolSample.listing = Cli.Ended None /\
  Cli.ru_calls ProtocolSample.listing = [Cli.request "ps" ""].
Proof.
  split; [|split; vm_compute; reflexivity].
  destruct (processes_agree sample_config ProtocolSample.decode_auth ProtocolSample.decode_cursor ProtocolSample.text (fun s => s)
    ProtocolSample.call ProtocolSample.auth ProtocolSample.open ProtocolSample.json ProtocolSample.print ProtocolSample.random
    (fun _ => "0") CliBuild.BuildSample.env CliBuild.BuildSample.marshal CliBuild.BuildSample.encode CliBuild.BuildSample.sign)
    with (path := ["container"; "ps"]) (o := ProtocolSample.options) (args := @nil string)
         (j := JCommand ProtocolSample.listing) as [H _]; [|reflexivity|exact H].
  intros n q r H. unfold ProtocolSample.call in H.
  destruct (run_alone _ _ _ _) as [[w' x]|] eqn:E; [|discriminate H]. apply run_may_return in E.
  destruct x as [x|e]; [|discriminate H]. exists 3%nat, x. split; [exact E|exact H].
Defined.

Lemma awaitStarted_pid (env : AwaitEnv) (fuel t : nat) (pid : Z) : awaitStarted env fuel t = Some (Ok pid) -> 1 < pid.
Proof.
  revert t. induction fuel as [|fuel IH]; intros t; cbn [awaitStarted]; destruct (read_pid _) as [p|] eqn:Ep.
  1, 3: intros [= <-]; unfold read_pid in Ep; destruct (ae_pidfile env t); [|done]; destruct (Strconv.Atoi _) as [n|]; [|done];
        destruct (1 <? n) eqn:El; [|done]; injection Ep as <-; by bool_prop.
  - by destruct (ae_exit env t), (ae_tick env t).
  - destruct (ae_exit env t), (ae_tick env t); try done. apply IH.
Qed.

(** ** Requests to the agent *)

(** A request changes the agent only by the transitions of [agent_step], so that
    what [agent_lifecycle] says holds across requests; a start is confirmed only
    when the process of the container is known, under the operation of the request
    unless that operation had been started before; the guest is powered off only
    when no container runs; a status tells the agent's state and identity. *)
Theorem agent_Call_correct (env : GuestCall) (fuel : nat) (q : Request) (a a' : Agent) (r : result guest_reply) :
  agent_Call env fuel q a = Some (r, a') ->
  (exists es, a' = agent_run (gc_sandbox env) a es) /\
  (r = Ok GPowerOff -> a_state a <> "running" /\ a' = a) /\
  (forall st, r = Ok (GStatusIs st) -> st = status (sb_ID (gc_sandbox env)) (gc_generation env) a /\ a' = a) /\
  (guest_op_of (q_Action q) = Some GStart -> r = Ok GNothing -> a_op a' = q_Operation q /\ q_Operation q <> "" /\ 1 < a_pid a').
Proof.
  unfold agent_Call. destruct (guest_op_of (q_Action q)) as [[]|] eqn:Eo.
  - intros [= <- <-]. split_and!; [by exists []|done|by intros st [= <-]|done].
  - destruct (Agent.start _ _ _ a) as [[[]|e] a1] eqn:Es.
    2:{ intros [= <- <-]. split_and!; [|done..]. exists [EStart (gc_answers env) (q_Operation q)]. cbn. by rewrite Es. }
    assert (a_op a1 = q_Operation q /\ q_Operation q <> "") as Hop.
    { unfold Agent.start in Es. case_bool_decide as Hn; [done|]. split; [|done]. case_bool_decide; [by injection Es as <-|].
      destruct (negb _); [done|]. destruct (an_config _); [|done]. destruct (an_json _); [|done]. cbv zeta in Es.
      destruct (s_TTY _); [destruct (an_launch _); [by injection Es as <-|done]|].
      destruct (if s_Interactive _ then _ else _); [|done]. destruct (an_launch _); [by injection Es as <-|done]. }
    destruct (awaitStarted _ _ _) as [[pid|e]|] eqn:Ew; [..|done]; intros [= <- <-].
    + split_and!; [|done|done|].
      * exists [EStart (gc_answers env) (q_Operation q); EPid pid]. cbn. by rewrite Es.
      * intros _ _. cbn. split_and!; [by destruct Hop|by destruct Hop|]. by eapply awaitStarted_pid.
    + split_and!; [|done..]. exists [EStart (gc_answers env) (q_Operation q)]. cbn. by rewrite Es.
  - intros [= <- <-]. destruct (agent_signal _ _ _); (split_and!; [by exists []|done..]).
  - destruct (Agent.stop _ _ _ _) as [[[[]|e] n]|]; [..|done]; intros [= <- <-]; (split_and!; [by exists []|done..]).
  - intros [= <- <-]. destruct (if bool_decide _ then _ else _); (split_and!; [by exists []|done..]).
  - intros [= <- <-]. unfold shutdown. case_bool_decide as Hr; cbn; (split_and!; [by exists []| |done..]); [done|].
    by intros _.
  - intros [= <- <-]. split_and!; [by exists []|done..].
Qed.
