(* ===== verification/CliFlags.v ===== *)
(** * CliFlags: the flags of the client's commands

    Every command declares its flags: a name, perhaps a shorthand, a type and a
    default, bound to a variable that the handler reads.  Parsing a command line
    is the work of the pflag library; here it is a map from the names of the flags
    that were given to their values, which holds declared flags with values of
    their types only.  The library panics when a command declares a name or a
    shorthand twice; the theorems show that no command does, that a command
    line without flags gives the defaults the handlers are verified with, and that
    the variable of each flag is the flag's own. *)

From S2P Require Import Prelude GoLib Api Base Cli CliBuild Protocol.
Local Open Scope Z_scope.

Inductive value : Type := VBool (b : bool) | VString (s : string) | VInt (n : Z) | VStrings (l : list string).
#[export] Instance value_eq_dec : EqDecision value.
Proof. solve_decision. Defined.

Record flag : Type := mkFlag { fl_name : string; fl_short : string; fl_default : value }.

(** ** Declarations *)

(** [App.run] *)
Definition run_table : list flag :=
  [mkFlag "name" "" (VString ""); mkFlag "base" "" (VString ""); mkFlag "detach" "d" (VBool false);
   mkFlag "interactive" "i" (VBool false); mkFlag "tty" "t" (VBool false); mkFlag "rm" "" (VBool false);
   mkFlag "cpus" "" (VInt 1); mkFlag "memory" "m" (VString "512m"); mkFlag "disk-size" "" (VString "4g");
   mkFlag "pids-limit" "" (VInt 256); mkFlag "network" "" (VString "bridge"); mkFlag "publish" "p" (VStrings []);
   mkFlag "env" "e" (VStrings []); mkFlag "env-file" "" (VStrings []); mkFlag "user" "u" (VString "");
   mkFlag "workdir" "w" (VString ""); mkFlag "entrypoint" "" (VString ""); mkFlag "mount" "" (VStrings []);
   mkFlag "volume" "v" (VStrings []); mkFlag "read-only" "" (VBool false); mkFlag "pull" "" (VString "missing");
   mkFlag "runtime" "" (VString "runc"); mkFlag "platform" "" (VString "linux/amd64")].

(** [App.execCommand] *)
Definition exec_table : list flag :=
  [mkFlag "interactive" "i" (VBool false); mkFlag "tty" "t" (VBool false); mkFlag "env" "e" (VStrings []);
   mkFlag "user" "u" (VString ""); mkFlag "workdir" "w" (VString "")].

(** The switch of [App.lifecycle]. *)
Definition life_table (name : string) : list flag :=
  if bool_decide (name = "start") then [mkFlag "attach" "a" (VBool false); mkFlag "interactive" "i" (VBool false)]
  else if bool_decide (name = "stop") || bool_decide (name = "restart") then [mkFlag "time" "t" (VInt 10)]
  else if bool_decide (name = "kill") then [mkFlag "signal" "s" (VString "SIGKILL")]
  else if bool_decide (name = "rm") then [mkFlag "force" "f" (VBool false)]
  else if bool_decide (name = "inspect") then [mkFlag "format" "" (VString "json")]
  else [].

Definition ps_table : list flag :=
  [mkFlag "all" "a" (VBool false); mkFlag "quiet" "q" (VBool false); mkFlag "format" "" (VString "")].

(** [App.logs] *)
Definition logs_table : list flag :=
  [mkFlag "follow" "f" (VBool false); mkFlag "tail" "" (VInt (-1)); mkFlag "since" "" (VString "");
   mkFlag "timestamps" "" (VBool false)].

(** The [load] commands of [App.imageCommands] and [App.baseCommands]. *)
Definition load_table : list flag := [mkFlag "tag" "t" (VString "")].

(** [App.volumeCommands] *)
Definition volume_table : list flag := [mkFlag "size" "" (VString "4g")].

(** [App.buildCommand] *)
Definition build_table (isBase : bool) : list flag :=
  [mkFlag "tag" "t" (VString ""); mkFlag "file" "f" (VString "Dockerfile"); mkFlag "target" "" (VString "");
   mkFlag "build-arg" "" (VStrings [])] ++
  (if isBase
   then [mkFlag "config" "" (VString "base.yaml"); mkFlag "signing-key" "" (VString ""); mkFlag "key-id" "" (VString "");
         mkFlag "kernel" "" (VString ""); mkFlag "firecracker-version" "" (VString "")]
   else []).

(** [App.login] *)
Definition login_table (logout : bool) : list flag :=
  if logout then [] else [mkFlag "username" "u" (VString ""); mkFlag "password-stdin" "" (VBool false)].

(** [App.keygen] *)
Definition keygen_table : list flag := [mkFlag "output" "" (VString ""); mkFlag "key-id" "" (VString "")].

(** The flags of a command of the tree, by its path. *)
Definition flags_of (path : list string) : list flag :=
  match path with
  | ["build"] => build_table false
  | ["base"; "build"] => build_table true
  | ["base"; "keygen"] => keygen_table
  | ["base"; "load"] | ["image"; "load"] => load_table
  | ["volume"; "create"] => volume_table
  | ["login"] => login_table false
  | [name] | ["container"; name] =>
      if bool_decide (name = "run") || bool_decide (name = "create") then run_table
      else if bool_decide (name = "exec") then exec_table
      else if bool_decide (name = "ps") then ps_table
      else if bool_decide (name = "logs") then logs_table
      else life_table name
  | _ => []
  end.

(** ** Reading the flags *)

#[local] Notation given := (gmap string value).

(** The variable of a flag, after parsing. *)
Definition variable (table : list flag) (g : given) (name : string) : option value :=
  match find (fun f => String.eqb (fl_name f) name) table with
  | Some f => Some (default (fl_default f) (g !! name))
  | None => None
  end.

Section Read.
Context (table : list flag) (g : given).
Definition bool_flag (name : string) : bool :=
  match variable table g name with Some (VBool b) => b | _ => false end.
Definition string_flag (zero name : string) : string :=
  match variable table g name with Some (VString s) => s | _ => zero end.
Definition int_flag (zero : Z) (name : string) : Z :=
  match variable table g name with Some (VInt n) => n | _ => zero end.
Definition strings_flag (name : string) : list string :=
  match variable table g name with Some (VStrings l) => l | _ => [] end.

(** The variables of [run] and [create]; the entry point counts only when it was
    given. *)
Definition run_flags : Cli.Flags :=
  Cli.mkFlags
    (mkSpec "" (string_flag "" "base") (string_flag "" "name") [] None (strings_flag "env") (string_flag "" "user")
       (string_flag "" "workdir") (int_flag 0 "cpus") (512 * MiB) (4 * GiB) (int_flag 0 "pids-limit")
       (string_flag "" "network") [] [] (string_flag "" "runtime") (string_flag "" "platform") (string_flag "" "pull")
       (bool_flag "read-only") (bool_flag "interactive") (bool_flag "tty") (bool_flag "rm"))
    (bool_flag "detach") (string_flag "" "memory") (string_flag "" "disk-size")
    (match g !! "entrypoint" with Some (VString s) => Some s | _ => None end)
    (strings_flag "env-file") (strings_flag "publish") (strings_flag "mount") (strings_flag "volume").

(** The variables of the commands on one container; a command that does not declare
    a flag leaves its variable as it was initialised. *)
Definition life_flags : Cli.LifeFlags :=
  Cli.mkLifeFlags (bool_flag "attach") (bool_flag "interactive") (bool_flag "force") (int_flag 10 "time")
    (string_flag "SIGKILL" "signal") (string_flag "json" "format").

Definition exec_flags : Exec :=
  mkExec "" [] (strings_flag "env") (string_flag "" "user") (string_flag "" "workdir") (bool_flag "tty")
    (bool_flag "interactive").

Definition build_flags : BuildFlags :=
  mkBuildFlags (string_flag "" "tag") (string_flag "" "file") (string_flag "" "target") (string_flag "" "config")
    (string_flag "" "signing-key") (string_flag "" "key-id") (string_flag "" "kernel")
    (string_flag "" "firecracker-version") (strings_flag "build-arg").
End Read.

(** The options of a command line. *)
Definition options_of (path : list string) (g : given) : Options :=
  let t := flags_of path in
  mkOptions (run_flags t g) (life_flags t g) (exec_flags t g) (bool_flag t g "all") (bool_flag t g "quiet")
    (string_flag t g "" "format") (string_flag t g "" "size") (string_flag t g "" "tag") (build_flags t g).

(** What pflag guarantees of a parsed command line: declared flags, with values of
    their types. *)
Definition same_type (v w : value) : bool :=
  match v, w with
  | VBool _, VBool _ | VString _, VString _ | VInt _, VInt _ | VStrings _, VStrings _ => true
  | _, _ => false
  end.
Definition parsed (table : list flag) (g : given) : Prop :=
  map_Forall (fun name v => exists f, f ∈ table /\ fl_name f = name /\ same_type (fl_default f) v = true) g.

(** ** Correctness *)

(** What pflag and cobra require of the flags of a command: names and shorthands of
    one letter, once each, and none that the root command or the library has taken. *)
Definition shorts (table : list flag) : list string := filter (fun s => s <> "") (fl_short <$> table).
Definition well_declared (table : list flag) : bool :=
  bool_decide (NoDup ("help" :: "socket" :: (fl_name <$> table))) && bool_decide (NoDup ("h" :: shorts table)) &&
  forallb (fun s => (String.length s =? 1)%nat) (shorts table).

Section Declared.
Context (fold : string -> string) (call : nat -> Request -> result Cli.reply) (auth : string -> string -> string).
Context (open : string -> result (string * option error)) (json : list Sandbox -> string)
        (print : Cli.reply -> string) (random : nat -> N).
Context (cursor_json : Z -> string) (benv : BuildEnv) (marshal : Base.Config -> string) (b64_encode : string -> string)
        (ed_sign : string -> string -> string).

#[local] Notation commands :=
  (commands fold call auth open json print random cursor_json benv marshal b64_encode ed_sign).

(** No command declares a flag or a shorthand twice, and every command is in the
    tree once. *)
Theorem commands_well_declared :
  Forall (fun path => well_declared (flags_of path) = true) commands.*1 /\ NoDup commands.*1.
Proof.
  set (paths := commands.*1). vm_compute in paths. subst paths. split.
  - repeat constructor.
  - eapply (bool_decide_unpack _). vm_compute. exact I.
Qed.

(** Without flags every command gets the values its handler is verified with. *)
Theorem no_flags_defaults :
  (forall name, name ∈ ["run"; "create"] -> o_run (options_of [name] ∅) = Cli.default_flags) /\
  (forall name, name ∈ lifecycle_names -> o_life (options_of [name] ∅) = Cli.life_defaults) /\
  o_exec (options_of ["exec"] ∅) = o_exec default_options /\
  o_all (options_of ["ps"] ∅) = false /\ o_quiet (options_of ["ps"] ∅) = false /\
  o_format (options_of ["ps"] ∅) = "" /\ o_size (options_of ["volume"; "create"] ∅) = "4g" /\
  o_tag (options_of ["image"; "load"] ∅) = "" /\ b_file (o_build (options_of ["build"] ∅)) = b_file (o_build default_options).
Proof.
  split_and!; try reflexivity.
  - intros name. rewrite !elem_of_cons. intros [->|[->|Hn%not_elem_of_nil]]; done.
  - intros name Hn. unfold lifecycle_names in Hn. rewrite !elem_of_cons in Hn.
    by destruct_or! Hn; subst; try reflexivity; apply not_elem_of_nil in Hn.
Qed.
End Declared.

Lemma variable_declared (table : list flag) (g : given) (f : flag) :
  NoDup (fl_name <$> table) -> f ∈ table ->
  variable table g (fl_name f) = Some (default (fl_default f) (g !! fl_name f)).
Proof.
  unfold variable. induction table as [|x table IH]; [by intros _ ?%elem_of_nil|]. intros Hnd Hf.
  rewrite fmap_cons in Hnd. apply NoDup_cons in Hnd as [Hx Hnd]. simpl.
  destruct (String.eqb_spec (fl_name x) (fl_name f)) as [He|Hne].
  - apply elem_of_cons in Hf as [->|Hf]; [done|]. destruct Hx. rewrite He. apply list_elem_of_fmap. by exists f.
  - apply elem_of_cons in Hf as [->|Hf]; [done|]. by apply IH.
Qed.

(** The variable of a declared flag holds the value that was given, or the
    default, which has the type of the flag; giving one flag changes no variable of
    another. *)
Theorem flags_own (table : list flag) (g : given) (f : flag) :
  well_declared table = true -> parsed table g -> f ∈ table ->
  (exists v, variable table g (fl_name f) = Some v /\ same_type (fl_default f) v = true /\
     (g !! fl_name f = Some v \/ g !! fl_name f = None /\ v = fl_default f)) /\
  (forall other v, other <> fl_name f -> variable table (<[other := v]> g) (fl_name f) = variable table g (fl_name f)).
Proof.
  unfold well_declared. rewrite !andb_true_iff, !bool_decide_eq_true. intros [[Hn _] _] Hg Hf.
  apply NoDup_cons in Hn as [_ Hn]. apply NoDup_cons in Hn as [_ Hn].
  split.
  - eexists. split; [by apply variable_declared|]. destruct (g !! fl_name f) as [v|] eqn:Ev; simpl.
    + destruct (Hg _ _ Ev) as (f' & Hf' & Hname & Ht). split; [|by left].
      replace f with f'; [done|]. apply list_elem_of_lookup in Hf as [i Hi], Hf' as [j Hj].
      assert (i = j) as ->; [|congruence]. eapply (NoDup_lookup (fl_name <$> table)); [done|..].
      * rewrite list_lookup_fmap, Hi. done.
      * rewrite list_lookup_fmap, Hj. simpl. congruence.
    + split; [by destruct (fl_default f)|by right].
  - intros other v Hne. rewrite !variable_declared by done. by rewrite lookup_insert_ne.
Qed.

(** [run --memory 1g -d IMAGE] *)
Lemma flags_own_witness :
  exists v, variable run_table {[ "memory" := VString "1g" ; "detach" := VBool true ]} "memory" = Some v /\
    same_type (VString "512m") v = true.
Proof.
  destruct (proj1 (flags_own run_table {[ "memory" := VString "1g" ; "detach" := VBool true ]}
    (mkFlag "memory" "m" (VString "512m")) eq_refl
    ltac:(apply map_Forall_insert_2;
          [exists (mkFlag "memory" "m" (VString "512m")); split; [|done]; unfold run_table; rewrite !elem_of_cons; tauto
          |apply map_Forall_singleton; exists (mkFlag "detach" "d" (VBool false)); split; [|done];
           unfold run_table; rewrite !elem_of_cons; tauto])
    ltac:(unfold run_table; rewrite !elem_of_cons; tauto))) as (v & H1 & H2 & _).
  exists v. exact (conj H1 H2).
Defined.
