(* ===== verification/Entry.v ===== *)
(** * Entry: the entry points of the daemon and of the guest agent
    (cmd/niflheld/main.go, cmd/niflhel-agent/main.go, New and Close of
    internal/daemon/daemon.go)

    Several niflheld processes may be started for one socket, in any interleaving,
    and die at any point.  What they share is the lock file next to the socket and
    the path of the socket itself; a process is at a point of [run].  The agent is
    the first process of a guest and powers it off when it cannot serve. *)

From S2P Require Import Prelude GoLib Api DaemonSem.
Import Strings Strconv Path.
Local Open Scope Z_scope.
Local Open Scope go_scope.

(** ** Wiring *)

(** The parts of a daemon below its root directory. *)
Record wiring : Type := mkWiring {
  wi_state : string; wi_images : string; wi_bases : string; wi_trust : gmap string string; wi_disks : string }.

(** [daemon.New] *)
Definition New (c : DaemonConfig) (mkdirall : string -> result unit) (open : string -> result unit) : result wiring :=
  let* _ := ValidateDaemonConfig c in
  let* _ := mkdirall (cfg_Root c) in
  let db := JoinPath [cfg_Root c; "state.db"] in
  let* _ := open db in
  Ok (mkWiring db (JoinPath [cfg_Root c; "images"]) (JoinPath [cfg_Root c; "bases"]) (cfg_TrustedKeys c) (cfg_Root c)).

(** [Daemon.Close]: what it does, in order. *)
Inductive closing : Type :=
| CCancel | CWait
| CStopDNS (id : string)
| CListener (id : string) (n : nat)
| CStore.
Definition Close (dns : list string) (ports : list (string * nat)) (store : result unit) : list closing * result unit :=
  ([CCancel; CWait] ++ (CStopDNS <$> dns) ++ (ports ≫= fun p => CListener (fst p) <$> seq 0 (snd p)) ++ [CStore], store).

(** ** Permissions of the socket *)

Inductive grant : Type :=
| GChmod (path : string) (mode : Z)
| GChown (path : string) (gid : Z).

(** From [os.Chmod(cfg.Socket, 0600)] on. *)
Definition permit (cfg : DaemonConfig) (lookup : string -> result string) (answer : grant -> result unit) : list grant * result unit :=
  let sock := cfg_Socket cfg in
  let lockDir := Dir sock in
  let grants g k := perform g (answer g) (fun _ => k) in
  grants (GChmod sock 384) (
  if bool_decide (cfg_SocketGroup cfg = "") then ([], Ok tt)
  else
    need (lookup (cfg_SocketGroup cfg)) (fun id =>
    need (Atoi id) (fun gid =>
    grants (GChown lockDir gid) (
    grants (GChmod lockDir 488) (
    grants (GChown sock gid) (
    grants (GChmod sock 432) ([], Ok tt))))))).

(** ** The process *)

(** The points of [run], named by the call that comes next; the last ones are the
    deferred calls. *)
Inductive point : Type :=
| Begin            (* configuration, directory, lock file *)
| AtFlock | AtLstat | AtRemove | AtNew | AtRecover | AtListen | AtPermit | Serving
| AtUnlink         (* [os.Remove(cfg.Socket)] *)
| AtListenerClose
| AtDaemonClose
| AtUnlock
| Gone.
#[export] Instance point_eq_dec : EqDecision point.
Proof. solve_decision. Defined.

(** What is at the path of the socket: nothing, the socket of a process, or
    something that is not a socket. *)
Inductive node : Type := Absent | Sock (pid : nat) | Foreign.

Record host : Type := mkHost { h_lock : option nat; h_path : node; h_procs : gmap nat point }.

Definition goto (pid : nat) (p : point) (h : host) : host := mkHost (h_lock h) (h_path h) (<[pid := p]> (h_procs h)).
Definition set_path (n : node) (h : host) : host := mkHost (h_lock h) n (h_procs h).
Definition set_lock (l : option nat) (h : host) : host := mkHost l (h_path h) (h_procs h).

(** The next call of a process that is at [p], with the answer [ok] of the system. *)
Definition advance_daemon (pid : nat) (ok : bool) (p : point) (h : host) : host :=
  let orelse next other := goto pid (if ok then next else other) h in
  match p with
  | Begin => orelse AtFlock Gone
  | AtFlock =>
      match ok, h_lock h with
      | true, None => goto pid AtLstat (set_lock (Some pid) h)
      | _, _ => goto pid Gone h
      end
  | AtLstat =>
      if ok then
        match h_path h with
        | Absent => goto pid AtNew h
        | Sock _ => goto pid AtRemove h
        | Foreign => goto pid AtUnlock h
        end
      else goto pid AtNew h
  | AtRemove => if ok then goto pid AtNew (set_path Absent h) else goto pid AtUnlock h
  | AtNew => orelse AtRecover AtUnlock
  | AtRecover => orelse AtListen AtDaemonClose
  | AtListen =>
      match ok, h_path h with
      | true, Absent => goto pid AtPermit (set_path (Sock pid) h)
      | _, _ => goto pid AtDaemonClose h
      end
  | AtPermit => orelse Serving AtUnlink
  | Serving => goto pid AtUnlink h
  | AtUnlink => goto pid AtListenerClose (if ok then set_path Absent h else h)
  | AtListenerClose => goto pid AtDaemonClose (if ok then set_path Absent h else h)
  | AtDaemonClose => goto pid AtUnlock h
  | AtUnlock => goto pid Gone (set_lock None h)
  | Gone => h
  end.

(** A process is started, makes its next call, or dies; the kernel releases the
    lock of a process that ends. *)
Inductive event : Type := EStart (pid : nat) | ECall (pid : nat) (ok : bool) | EDie (pid : nat).
Definition step (h : host) (e : event) : host :=
  match e with
  | EStart pid => match h_procs h !! pid with None => goto pid Begin h | Some _ => h end
  | ECall pid ok => match h_procs h !! pid with None => h | Some p => advance_daemon pid ok p h end
  | EDie pid =>
      match h_procs h !! pid with
      | None => h
      | Some _ => goto pid Gone (if bool_decide (h_lock h = Some pid) then set_lock None h else h)
      end
  end.
Definition after (h : host) (es : list event) : host := foldl step h es.

(** [main] of niflheld: as a sink for the console of a VM, or as the daemon. *)
Inductive role : Type := RSink (dir : string) | RDaemon.
Definition daemon_role (args : list string) : role :=
  match args with
  | [_; "--log-sink"; dir] => RSink dir
  | _ => RDaemon
  end.
Definition main_status (r : result unit) : Z := match r with Ok _ => 0 | Err _ => 1 end.

(** ** The agent *)

Inductive guest_action : Type :=
| GInitialize | GPrepare | GCredentials | GListen (port : Z) | GServe
| GSync | GSleep | GPowerOff.

(** What the steps of [serve] answer. *)
Record GuestEnv : Type := mkGuestEnv {
  ge_initialize : result unit; ge_prepare : result unit; ge_tls : result unit; ge_listen : result unit; ge_serve : result unit }.

(** [serve] *)
Definition serve (env : GuestEnv) : list guest_action * result unit :=
  perform GInitialize (ge_initialize env) (fun _ =>
  perform GPrepare (ge_prepare env) (fun _ =>
  perform GCredentials (ge_tls env) (fun _ =>
  perform (GListen 1024) (ge_listen env) (fun _ =>
  perform GServe (ge_serve env) (fun _ => ([], Ok tt)))))).

(** [main] of niflhel-agent: what it does and its exit status. *)
Definition agent_main (pid : Z) (env : GuestEnv) : list guest_action * Z :=
  if negb (pid =? 1) then ([], 125)
  else match serve env with
  | (l, Err _) => (l ++ [GSync; GSleep; GPowerOff], 125)
  | (l, Ok _) => (l, 0)
  end.

(** ** Theorems *)

Definition holds (p : point) : bool :=
  match p with Begin | AtFlock | Gone => false | _ => true end.
Definition owns_path (p : point) : bool :=
  match p with AtPermit | Serving | AtUnlink => true | _ => false end.

(** The invariant of the host. *)
Record sound (h : host) : Prop := mkSound {
  so_lock : forall pid p, h_procs h !! pid = Some p -> holds p = true -> h_lock h = Some pid;
  so_owner : forall pid, h_lock h = Some pid -> exists p, h_procs h !! pid = Some p /\ holds p = true;
  so_path : forall pid p, h_procs h !! pid = Some p -> owns_path p = true -> h_path h = Sock pid;
  so_remove : forall pid, h_procs h !! pid = Some AtRemove -> exists q, h_path h = Sock q;
  so_close : forall pid, h_procs h !! pid = Some AtListenerClose -> h_path h = Absent \/ h_path h = Sock pid }.

Lemma sound_start (path : node) : sound (mkHost None path ∅).
Proof. constructor; cbn; intros; try done; by rewrite lookup_empty in *. Qed.

Lemma owns_holds (p : point) : owns_path p = true -> holds p = true.
Proof. by destruct p. Qed.

(** The process that takes a step is the only one whose point changes; when it
    holds the lock before and after, the others are outside the locked part. *)
Lemma sound_move (h h' : host) (pid : nat) (p : point) :
  sound h -> h_procs h' = <[pid := p]> (h_procs h) ->
  (forall q x, q <> pid -> h_procs h !! q = Some x -> holds x = true -> h_lock h' = h_lock h /\ h_path h' = h_path h) ->
  (holds p = true -> h_lock h' = Some pid) ->
  (holds p = false -> h_lock h' <> Some pid) ->
  (forall q, q <> pid -> h_lock h' = Some q -> h_lock h = Some q) ->
  (owns_path p = true -> h_path h' = Sock pid) ->
  (p = AtRemove -> exists q, h_path h' = Sock q) ->
  (p = AtListenerClose -> h_path h' = Absent \/ h_path h' = Sock pid) ->
  sound h'.
Proof.
  intros [H1 H2 H3 H4 H5] Hp Ho Hl Hn Hq Hpath Hrm Hcl.
  assert (forall q x, h_procs h' !! q = Some x -> q = pid /\ x = p \/ q <> pid /\ h_procs h !! q = Some x) as Hcase.
  { intros q x. rewrite Hp. destruct (decide (q = pid)) as [->|Hne]; [rewrite lookup_insert_eq|rewrite lookup_insert_ne by done]; naive_solver. }
  constructor.
  - intros q x Hx Hh. destruct (Hcase q x Hx) as [[-> ->]|[Hne Hx']]; [by apply Hl|].
    destruct (Ho q x Hne Hx' Hh) as [-> _]. by apply (H1 q x).
  - intros q Hlq. rewrite Hp. destruct (decide (q = pid)) as [->|Hne].
    + exists p. rewrite lookup_insert_eq. split; [done|]. destruct (holds p) eqn:E; [done|]. by destruct (Hn eq_refl).
    + rewrite lookup_insert_ne by done. apply H2. by apply Hq.
  - intros q x Hx Hown. destruct (Hcase q x Hx) as [[-> ->]|[Hne Hx']]; [by apply Hpath|].
    destruct (Ho q x Hne Hx' (owns_holds _ Hown)) as [_ ->]. by apply (H3 q x).
  - intros q Hx. destruct (Hcase q _ Hx) as [[-> <-]|[Hne Hx']]; [by apply Hrm|].
    destruct (Ho q _ Hne Hx' eq_refl) as [_ ->]. by apply (H4 q).
  - intros q Hx. destruct (Hcase q _ Hx) as [[-> <-]|[Hne Hx']]; [by apply Hcl|].
    destruct (Ho q _ Hne Hx' eq_refl) as [_ ->]. by apply (H5 q).
Qed.

Lemma lock_excludes (h : host) (pid q : nat) (p x : point) :
  sound h -> h_procs h !! pid = Some p -> holds p = true -> h_procs h !! q = Some x -> holds x = true -> q = pid.
Proof. intros Hs Hp Hh Hx Hx'. pose proof (so_lock h Hs _ _ Hp Hh). pose proof (so_lock h Hs _ _ Hx Hx'). congruence. Qed.

(** A step of a process outside the locked part, without effect on what is shared. *)
Lemma sound_outside (h : host) (pid : nat) (p : point) :
  sound h -> h_lock h <> Some pid -> holds p = false -> sound (goto pid p h).
Proof.
  intros Hs Hl Hp. apply (sound_move h _ pid p); cbn; try done; try congruence.
  - intros Hown%owns_holds. congruence.
  - by intros ->.
  - by intros ->.
Qed.

(** A step of the process that holds the lock. *)
Lemma sound_inside (h : host) (pid : nat) (p p' : point) (n : node) :
  sound h -> h_procs h !! pid = Some p -> holds p = true -> holds p' = true ->
  (owns_path p' = true -> n = Sock pid) -> (p' = AtRemove -> exists q, n = Sock q) ->
  (p' = AtListenerClose -> n = Absent \/ n = Sock pid) -> sound (goto pid p' (set_path n h)).
Proof.
  intros Hs Hp Hh Hh' H1 H2 H3. pose proof (so_lock h Hs _ _ Hp Hh) as Hl.
  apply (sound_move h _ pid p'); cbn; try done; try congruence.
  intros q x Hne Hx Hxh. by destruct (Hne (lock_excludes h pid q p x Hs Hp Hh Hx Hxh)).
Qed.

Lemma sound_release (h : host) (pid : nat) (p : point) :
  sound h -> h_procs h !! pid = Some p -> holds p = true -> sound (goto pid Gone (set_lock None h)).
Proof.
  intros Hs Hp Hh. apply (sound_move h _ pid Gone); cbn; try done.
  intros q x Hne Hx Hxh. by destruct (Hne (lock_excludes h pid q p x Hs Hp Hh Hx Hxh)).
Qed.

Lemma set_path_same (h : host) : set_path (h_path h) h = h.
Proof. by destruct h. Qed.

Lemma sound_advance (h : host) (pid : nat) (ok : bool) (p : point) :
  sound h -> h_procs h !! pid = Some p -> sound (advance_daemon pid ok p h).
Proof.
  intros Hs Hp.
  assert (holds p = false -> h_lock h <> Some pid) as Hout.
  { intros Hh Hl. destruct (so_owner h Hs pid Hl) as (x & Hx & Hxh). congruence. }
  assert (forall p', holds p = true -> holds p' = true -> (owns_path p' = true -> h_path h = Sock pid) ->
    (p' = AtRemove -> exists q, h_path h = Sock q) -> (p' = AtListenerClose -> h_path h = Absent \/ h_path h = Sock pid) ->
    sound (goto pid p' h)) as Hin.
  { intros p' ?????. rewrite <- (set_path_same h) at 1. by apply sound_inside with p. }
  pose proof (so_path h Hs pid p Hp) as Hpath.
  destruct p; cbn [advance_daemon].
  - destruct ok; apply sound_outside; auto.
  - destruct ok; [|apply sound_outside; auto]. destruct (h_lock h) eqn:El; [apply sound_outside; [done|rewrite El; auto|done]|].
    apply (sound_move h _ pid AtLstat); cbn; try done; try congruence.
    intros q x Hne Hx Hxh. by rewrite (so_lock h Hs q x Hx Hxh) in El.
  - destruct ok; [|by apply Hin]. destruct (h_path h) eqn:E; apply Hin; eauto; done.
  - destruct ok; [by apply sound_inside with AtRemove|by apply Hin].
  - destruct ok; by apply Hin.
  - destruct ok; by apply Hin.
  - destruct ok; [|by apply Hin]. destruct (h_path h) eqn:E; [by apply sound_inside with AtListen|by apply Hin..].
  - destruct ok; by apply Hin.
  - apply Hin; try done.
  - destruct ok; [apply sound_inside with AtUnlink; try done; by left|]. apply Hin; try done. right. by apply Hpath.
  - destruct ok; [by apply sound_inside with AtListenerClose|by apply Hin].
  - by apply Hin.
  - by apply sound_release with AtUnlock.
  - done.
Qed.

Lemma sound_step (h : host) (e : event) : sound h -> sound (step h e).
Proof.
  intros Hs. destruct e as [pid|pid ok|pid]; cbn [step]; destruct (h_procs h !! pid) as [p|] eqn:Ep; try done.
  - apply sound_outside; try done. intros Hl. destruct (so_owner h Hs pid Hl) as (x & Hx & _). congruence.
  - by apply sound_advance.
  - case_bool_decide as El.
    + destruct (so_owner h Hs pid El) as (x & Hx & Hxh). assert (x = p) as -> by congruence. by apply sound_release with p.
    + by apply sound_outside.
Qed.

Lemma sound_after (h : host) (es : list event) : sound h -> sound (after h es).
Proof. revert h. induction es as [|e es IH]; intros h Hs; [done|]. by apply IH, sound_step. Qed.

(** What is not a socket is never replaced. *)
Lemma foreign_step (h : host) (e : event) : sound h -> h_path h = Foreign -> h_path (step h e) = Foreign.
Proof.
  intros Hs Hf. destruct e as [pid|pid ok|pid]; cbn [step]; destruct (h_procs h !! pid) as [p|] eqn:Ep; try done.
  - pose proof (so_path h Hs pid p Ep) as Hpath. destruct p, ok; cbn; rewrite ?Hf; try done.
    + by destruct (h_lock h).
    + destruct (so_remove h Hs pid Ep) as [q Hq]. congruence.
    + by specialize (Hpath eq_refl); congruence.
    + destruct (so_close h Hs pid Ep); congruence.
  - by case_bool_decide.
Qed.
Lemma foreign_after (h : host) (es : list event) : sound h -> h_path h = Foreign -> h_path (after h es) = Foreign.
Proof. revert h. induction es as [|e es IH]; intros h Hs Hf; [done|]. apply IH; [by apply sound_step|by apply foreign_step]. Qed.

Lemma after_app (h : host) (es es' : list event) : after h (es ++ es') = after (after h es) es'.
Proof. apply foldl_app. Qed.

(** One call of a process whose point is known. *)
Lemma call_at (h : host) (pid : nat) (p : point) (n : nat) :
  h_procs h !! pid = Some p ->
  after h (replicate (S n) (ECall pid true)) = after (advance_daemon pid true p h) (replicate n (ECall pid true)).
Proof. intros Hp. cbn [replicate after foldl]. unfold step at 2. by rewrite Hp. Qed.
Ltac call := erewrite call_at by apply lookup_insert_eq; cbn [advance_daemon h_path set_path goto set_lock h_lock h_procs].

Lemma start_serves (h : host) (pid : nat) :
  h_lock h = None -> h_path h <> Foreign -> h_procs h !! pid = None ->
  exists n, let h' := after h (EStart pid :: replicate n (ECall pid true)) in
    h_procs h' !! pid = Some Serving /\ h_path h' = Sock pid.
Proof.
  intros Hl Hf Hp.
  assert (forall l, after h (EStart pid :: l) = after (goto pid Begin h) l) as Hstart by (intros l; cbn; by rewrite Hp).
  destruct (h_path h) as [|q|] eqn:Epath; [exists 7%nat|exists 8%nat|done]; cbv zeta; rewrite Hstart;
    call; call; rewrite Hl; call; rewrite Epath; do 6 (try rewrite Epath; try call); (split; [apply lookup_insert_eq|done]).
Qed.

Lemma exit_clean (h : host) (pid : nat) :
  h_procs h !! pid = Some Serving ->
  let h' := after h (replicate 5 (ECall pid true)) in
  h_procs h' !! pid = Some Gone /\ h_lock h' = None /\ h_path h' = Absent.
Proof. intros Hp. cbv zeta. rewrite (call_at _ _ _ _ Hp). cbn [advance_daemon]. do 4 call. split; [apply lookup_insert_eq|done]. Qed.

(** C14. At most one niflheld works on a socket.  However many processes are started
    for it, however their calls interleave, whichever calls fail and wherever
    processes die: only one is between taking the lock and releasing it; the
    socket at the path is the one of the process that serves, so no other process
    removed or replaced it; a path that is not a socket is never replaced and
    nothing is served there.  A socket left by a process that died does not block
    the next start, and a process that ends by itself leaves neither lock nor
    socket. *)
Theorem single_daemon (path0 : node) (es : list event) :
  let h := after (mkHost None path0 ∅) es in
  (forall pid q p x, h_procs h !! pid = Some p -> holds p = true -> h_procs h !! q = Some x -> holds x = true -> q = pid) /\
  (forall pid, h_procs h !! pid = Some Serving -> h_path h = Sock pid /\ h_lock h = Some pid) /\
  (path0 = Foreign -> h_path h = Foreign /\ forall pid, h_procs h !! pid <> Some Serving) /\
  (forall pid, h_lock h = None -> h_path h <> Foreign -> h_procs h !! pid = None ->
     exists n, let h' := after h (EStart pid :: replicate n (ECall pid true)) in
       h_procs h' !! pid = Some Serving /\ h_path h' = Sock pid) /\
  (forall pid, h_procs h !! pid = Some Serving ->
     let h' := after h (replicate 5 (ECall pid true)) in
     h_procs h' !! pid = Some Gone /\ h_lock h' = None /\ h_path h' = Absent).
Proof.
  intros h. assert (sound h) as Hs by apply sound_after, sound_start. split_and!.
  - intros pid q p x Hp Hh Hx Hxh. by apply (lock_excludes h pid q p x).
  - intros pid Hp. split; [by apply (so_path h Hs pid Serving)|by apply (so_lock h Hs pid Serving)].
  - intros ->. assert (h_path h = Foreign) as Hf by (by apply foreign_after; [apply sound_start|]).
    split; [done|]. intros pid Hp. pose proof (so_path h Hs pid Serving Hp eq_refl). congruence.
  - apply start_serves.
  - apply exit_clean.
Qed.

(** *** Permissions *)

(** Mode and group of the socket after some grants. *)
Definition granted (sock : string) (st : Z * Z) (g : grant) : Z * Z :=
  match g with
  | GChmod p m => if bool_decide (p = sock) then (m, snd st) else st
  | GChown p i => if bool_decide (p = sock) then (fst st, i) else st
  end.

Section Permit.
Context (cfg : DaemonConfig) (lookup : string -> result string) (answer : grant -> result unit).
Hypothesis Hdir : Dir (cfg_Socket cfg) <> cfg_Socket cfg.

(** Closed to others; open to the group only when it is the configured one. *)
Definition confined (st : Z * Z) : Prop :=
  Z.land (fst st) 7 = 0 /\
  (Z.land (fst st) 56 <> 0 ->
   cfg_SocketGroup cfg <> "" /\ exists id, lookup (cfg_SocketGroup cfg) = Ok id /\ Atoi id = Ok (snd st)).
Definition final_mode : Z := if bool_decide (cfg_SocketGroup cfg = "") then 384 else 432.

(** Confined after every part of the grants of [k], from [st] on. *)
Definition keeps (k : list grant * result unit) (st : Z * Z) : Prop :=
  (forall pre, pre `prefix_of` fst k -> confined (foldl (granted (cfg_Socket cfg)) st pre)) /\
  (snd k = Ok tt -> fst (foldl (granted (cfg_Socket cfg)) st (fst k)) = final_mode).

Lemma keeps_stop (e : error) (st : Z * Z) : confined st -> keeps ([], Err e) st.
Proof. intros H. split; [|done]. by intros pre ->%prefix_nil_inv. Qed.
Lemma keeps_done (st : Z * Z) : confined st -> fst st = final_mode -> keeps ([], Ok tt) st.
Proof. intros H Hm. split; [|done]. by intros pre ->%prefix_nil_inv. Qed.
Lemma keeps_need {A} (r : result A) (k : A -> list grant * result unit) (st : Z * Z) :
  confined st -> (forall x, r = Ok x -> keeps (k x) st) -> keeps (need r k) st.
Proof. intros Hst H. destruct r as [x|e]; [by apply H|by apply keeps_stop]. Qed.
Lemma keeps_perform (g : grant) (st st' : Z * Z) (k : list grant * result unit) :
  confined st -> granted (cfg_Socket cfg) st g = st' -> confined st' -> keeps k st' -> keeps (perform g (answer g) (fun _ => k)) st.
Proof.
  intros Hst <- Hst' [Hk1 Hk2].
  assert (forall l, (forall pre, pre `prefix_of` l -> confined (foldl (granted (cfg_Socket cfg)) (granted (cfg_Socket cfg) st g) pre)) ->
    forall pre, pre `prefix_of` g :: l -> confined (foldl (granted (cfg_Socket cfg)) st pre)) as Hcons.
  { intros l Hl [|g' pre] Hpre; [done|]. pose proof (prefix_cons_inv_1 _ _ _ _ Hpre) as ->.
    apply Hl. by apply prefix_cons_inv_2 in Hpre. }
  unfold perform, keeps. destruct (answer g) as [[]|e]; [destruct k as [l r]|]; split; try done; apply Hcons; [done|].
  by intros pre ->%prefix_nil_inv.
Qed.

Lemma granted_chmod (st : Z * Z) (m : Z) : granted (cfg_Socket cfg) st (GChmod (cfg_Socket cfg) m) = (m, snd st).
Proof. cbn. by rewrite bool_decide_eq_true_2. Qed.
Lemma granted_chown (st : Z * Z) (i : Z) : granted (cfg_Socket cfg) st (GChown (cfg_Socket cfg) i) = (fst st, i).
Proof. cbn. by rewrite bool_decide_eq_true_2. Qed.
Lemma granted_dir (st : Z * Z) (x : Z) :
  granted (cfg_Socket cfg) st (GChmod (Dir (cfg_Socket cfg)) x) = st /\ granted (cfg_Socket cfg) st (GChown (Dir (cfg_Socket cfg)) x) = st.
Proof. split; cbn; by rewrite bool_decide_eq_false_2. Qed.
Lemma confined_private (i : Z) : confined (384, i).
Proof. split; [done|]. intros H. by destruct H. Qed.

(** Who may connect.  After the first call has succeeded the socket is closed to
    everybody else at every moment, also when a later call fails; its group can
    use it only when a group is configured and only after the socket was given to
    that group.  On success its mode is 0600, or 0660 for that group. *)
Theorem permit_confined (st0 : Z * Z) :
  let '(l, r) := permit cfg lookup answer in
  (forall pre, pre `prefix_of` l -> pre <> [] -> confined (foldl (granted (cfg_Socket cfg)) st0 pre)) /\
  (r = Ok tt -> fst (foldl (granted (cfg_Socket cfg)) st0 l) = final_mode).
Proof.
  assert (forall k, keeps k (384, snd st0) ->
    let '(l, r) := perform (GChmod (cfg_Socket cfg) 384) (answer (GChmod (cfg_Socket cfg) 384)) (fun _ => k) in
    (forall pre, pre `prefix_of` l -> pre <> [] -> confined (foldl (granted (cfg_Socket cfg)) st0 pre)) /\
    (r = Ok tt -> fst (foldl (granted (cfg_Socket cfg)) st0 l) = final_mode)) as Hfirst.
  { intros k Hk. pose proof (keeps_perform (GChmod (cfg_Socket cfg) 384) (384, snd st0) (384, snd st0) k (confined_private _)
      (granted_chmod _ _) (confined_private _) Hk) as [H1 H2].
    destruct (perform _ _ _) as [l r] eqn:El. cbn [fst snd] in *.
    assert (forall pre, pre `prefix_of` l -> pre <> [] -> foldl (granted (cfg_Socket cfg)) st0 pre = foldl (granted (cfg_Socket cfg)) (384, snd st0) pre) as Heq.
    { intros [|g pre] Hpre Hne; [done|]. unfold perform in El. destruct (answer _), k; injection El as <- <-;
        apply prefix_cons_inv_1 in Hpre as ->; cbn [foldl]; by rewrite !granted_chmod. }
    split; [intros pre Hpre Hne; rewrite Heq by done; by apply H1|]. intros Hr.
    rewrite Heq; [by apply H2|done|]. unfold perform in El. destruct (answer _), k; by injection El as <- <-. }
  unfold permit. cbv zeta. apply Hfirst. clear Hfirst. case_bool_decide as Eg.
  { apply keeps_done; [apply confined_private|]. unfold final_mode. by rewrite bool_decide_eq_true_2. }
  apply keeps_need; [apply confined_private|]. intros id Hid. apply keeps_need; [apply confined_private|]. intros gid Hgid.
  apply keeps_perform with (384, snd st0); [apply confined_private|apply granted_dir|apply confined_private|].
  apply keeps_perform with (384, snd st0); [apply confined_private|apply granted_dir|apply confined_private|].
  apply keeps_perform with (384, gid); [apply confined_private|apply granted_chown|apply confined_private|].
  assert (confined (432, gid)) as Hc by (split; [done|]; intros _; split; [done|]; by exists id).
  apply keeps_perform with (432, gid); [apply confined_private|apply granted_chmod|done|].
  apply keeps_done; [done|]. unfold final_mode. by rewrite bool_decide_eq_false_2.
Qed.
End Permit.

(** A configured group; the last call fails. *)
Definition sample_daemon : DaemonConfig :=
  mkDaemonConfig "/var/lib/niflhel" "/run/niflhel/niflhel.sock" "niflhel" "/usr/local/bin/firecracker"
    "/usr/local/bin/jailer" "" ∅ "1.1.1.1:53" 60.
Definition sample_answer (g : grant) : result unit :=
  match g with GChmod _ 432 => Err (Errorf "operation not permitted") | _ => Ok tt end.
Lemma permit_confined_witness :
  Dir (cfg_Socket sample_daemon) <> cfg_Socket sample_daemon /\
  exists l, permit sample_daemon (fun _ => Ok "977") sample_answer = (l, Err (Errorf "operation not permitted")) /\ length l = 5%nat /\
    forall pre, pre `prefix_of` l -> pre <> [] ->
      confined sample_daemon (fun _ => Ok "977") (foldl (granted (cfg_Socket sample_daemon)) (493, 0) pre).
Proof.
  assert (Dir (cfg_Socket sample_daemon) <> cfg_Socket sample_daemon) as Hd by (vm_compute; discriminate).
  pose proof (permit_confined sample_daemon (fun _ => Ok "977") sample_answer Hd (493, 0)) as H.
  split; [exact Hd|]. destruct (permit _ _ _) as [l r] eqn:E. exists l. vm_compute in E. injection E as <- <-.
  split; [reflexivity|]. split; [reflexivity|]. apply H.
Defined.

(** The agent outside a guest and in one.  A process that is not the first of its
    machine touches nothing and reports 125.  In a guest the network port is
    opened only after the boot was prepared and the credentials were loaded, and
    when any step fails, serving included, the disks are synced and the machine is
    powered off; it never goes on half prepared. *)
Theorem agent_main_correct (pid : Z) (env : GuestEnv) :
  let '(l, code) := agent_main pid env in
  (pid <> 1 -> l = [] /\ code = 125) /\
  (pid = 1 ->
     (code <> 0 -> exists l', l = l' ++ [GSync; GSleep; GPowerOff] /\ l' `prefix_of` [GInitialize; GPrepare; GCredentials; GListen 1024; GServe]) /\
     (code = 0 <-> ge_initialize env = Ok tt /\ ge_prepare env = Ok tt /\ ge_tls env = Ok tt /\ ge_listen env = Ok tt /\ ge_serve env = Ok tt) /\
     (GListen 1024 ∈ l -> ge_initialize env = Ok tt /\ ge_prepare env = Ok tt /\ ge_tls env = Ok tt)).
Proof.
  assert (forall l ss : list guest_action, l `prefix_of` ss -> exists l', l ++ [GSync; GSleep; GPowerOff] = l' ++ [GSync; GSleep; GPowerOff] /\ l' `prefix_of` ss)
    as Hl by (intros l ss Hp; by exists l).
  unfold agent_main. destruct (pid =? 1) eqn:Ep; cbn [negb].
  2: { apply Z.eqb_neq in Ep. by split. }
  apply Z.eqb_eq in Ep. unfold serve, perform.
  destruct (ge_initialize env) as [[]|]; [destruct (ge_prepare env) as [[]|]; [destruct (ge_tls env) as [[]|];
    [destruct (ge_listen env) as [[]|]; [destruct (ge_serve env) as [[]|]|]|]|]|];
  (split; [done|]; intros _; split_and!;
   [ first [done | intros _; apply Hl; by eexists] | split; [done|]; intros ?; by destruct_and! | ]);
  try done; intros Hin; exfalso; cbn in Hin; repeat (apply elem_of_cons in Hin as [Hin|Hin]; [discriminate|]); by apply elem_of_nil in Hin.
Qed.
